(* ===== verification/_CoqProject ===== *)
-Q . S2P
Prelude.v
Conc.v
Abi.v
Linux.v
Errno.v
Base.v
Simple.v
Readline.v
Vchroot.v
VchrootProofs.v
Signals.v
Fcntl.v
Paths.v
Mounts.v
Dirent.v
Termios.v
Network.v
Sockmsg.v
Mman.v
Psynch.v
Process.v
Unistd.v
Misc.v
Xattr.v
Sigexc.v
Threads.v
MachTraps.v
Ipc.v
Handles.v
Spawn.v
Ext.v
Procfs.v
Sysctl.v
Workq.v
XtraceLock.v
XtraceMalloc.v
XtraceTrace.v
Launcher.v
Host.v
Startup.v
StartupProofs.v
Shellspawn.v
Xcselect.v
Sudo.v
Resolver.v
Plist.v
PlistProofs.v
Buildtools.v
ElfLoader.v
ElfProofs.v
