(* ===== verification/Prelude.v ===== *)
(** * Darling: system call emulation, tracer, launcher, programs

    Darling runs macOS programs on Linux.  A macOS program calls
    libsystem_kernel, whose system call stubs are replaced by the C code under
    src/src/kernel/emulation/linux: each Darwin call is translated to Linux
    system calls, flags, structures, signals and error numbers are converted
    both ways, and every path is resolved inside the "prefix" directory that
    plays the role of the macOS root.  src/src/libelfloader starts the dynamic
    linker of Linux inside such a program and builds Darwin's threads on those
    of the C library it loads.  src/src/xtrace is a tracer loaded into
    a program, with a lock and an allocator of its own because it cannot
    use those of the process it traces.  src/src/startup is the program a
    Linux user starts: it sets the container up and talks to src/src/shellspawn,
    the daemon inside that starts shells.  Some programs and libraries that
    macOS has are written anew for the container: the selection of developer
    tools, sudo, the module that looks up host names, PlistBuddy.  This library
    models that code and proves what makes it correct.  It describes the x86_64
    build.

    ** Parts and files

    - [Prelude]: C integers, bytes and strings, flag tables ([translate], for
      chains of [if (flags & A) out |= B]), switches ([switch]), arrays, the
      tactics and hint databases, and the lemmas the other files share.
    - [Conc]: machines of interleaved threads, their executions, [reachable]
      and invariants.
    - [Abi]: the constants of the two system interfaces, from the headers.
    - [Linux]: the outside.  [linux_syscall] and [lkm_call] are the only ways
      out of the code; the Linux kernel and the Darling kernel module are not
      in the repository.  A call is a request ([linuxE]) with an arbitrary
      response and the code is a tree of requests ([prog]) over the file-scope
      state ([gstate]).  What a property assumes about the kernel is a
      [protocol]: which requests may be issued and which responses may be
      relied on.  [wp] is the weakest precondition under a protocol; it never
      admits undefined behaviour.  [run] executes the code on a concrete host
      ([handler]), and [wp_run] connects the two.
    - [Errno] (errno.c), [Base] (ioctl and kernel module entry, cancellation
      points, per-thread working directory, read, write), [Simple] (simple.c:
      formatted output and number parsing), [Readline] (line readers).
    - [Vchroot] (vchroot_userspace.c, fdpath.c): the path resolver, with its
      own symbolic link and case-insensitive lookup; [VchrootProofs]: its
      theorems, the hosts they are stated for, and the concrete host [Toy].
    - [Signals] (signal/): numbers, sets, dispositions, delivery.
    - [Fcntl] (fcntl/), [Paths] (stat/, unistd/, fcntl/openat.c, xattr/ calls
      that take paths, and the thread's working directory), [Mounts]
      (statfs and getfsstat over /proc/self/mounts), [Dirent] (getdirentries),
      [Termios] (ioctl/).
    - [Network] (network/: addresses and calls), [Sockmsg] (socket options,
      sendmsg and recvmsg), [Mman] (mman/), [Psynch] (ulock_wait, ulock_wake),
      [Process] (wait4, execve, fork).
    - [Unistd] (the calls of unistd/, guarded/ and sysv_sem/ that take no
      path), [Misc] (limits, timers, select and poll, waitid, priorities and
      other small calls).
    - [Xattr] (xattr/: attribute lists and the setxattr family), [Handles]
      (ext/file_handle.c), [Ipc] (psynch/, synch/, kqueue/, semctl, the POSIX
      semaphores of wrapped/, conf/, audit/), [Ext] (the tables of system calls
      and traps, the Linux calls of ext/, stubs).
    - [Sigexc] (signal/sigexc.c, misc/ptrace.c): the handler every signal goes
      through, so that a debugger can see it.  [MachTraps] (mach/): ports and
      messages as requests to the kernel module, memory by mmap.
    - [Threads] (libelfloader/native/threads.c, bsdthread/): the handshake
      between a thread and the one it creates.  [Spawn]
      (process/posix_spawn.c): the child and its pipe to the parent.
    - [ElfLoader] (libelfloader/loader.c) with the specification of a loaded
      program, and [ElfProofs], its theorems.
    - [Procfs] (misc/proc_info.c, misc/sysctl_proc.c): processes as described
      by the text files of /proc.  [Sysctl] (misc/sysctl*.c): the tree of
      variables, the walks by number and by name, every handler.
    - [Workq] (bsdthread/workq_kernreturn.c): parking and waking of the
      workers of libdispatch.
    - [XtraceLock] (xtrace/lock.c: modules [Lock] and [Once]),
      [XtraceMalloc] (xtrace/malloc.c) and [XtraceTrace] (xtracelib.c, tls.c,
      mig_trace.c: hooks, lines of calls, variables of threads, messages).
    - [Launcher] (startup/darling.c, shellspawn/): what is text and data:
      quoting of the command line, the messages between launcher and daemon,
      forwarding of signals, the paths derived from the prefix, the search for
      a running container.  [Host]: these programs are trees of requests to
      their own C library; [safe] states a property of all their executions.
      [Startup] (darling.c from [main] on, [StartupProofs] its theorems) and
      [Shellspawn] (shellspawn.c).
    - Programs of the container: [Xcselect] (xcselect/: where the developer
      tools are, and their start), [Sudo] (tools/sudo.c), [Resolver]
      (libinfo/darling-resolver: host names), [Plist] (PlistBuddy/: the editor
      of property lists) with [PlistProofs].  [Buildtools] (buildtools/: reading
      of Mach-O files while Darling is built).

    Definitions have the names of the C functions; helpers that stand for a
    part of a function are named after what that part does.  A C function
    that stores through pointers returns what it stores.  Memory the code
    reads but did not initialise is a parameter, and an access outside of an
    object, a null pointer or a signed overflow is [undefined] ([None] in the
    files that issue no requests).

    Parts that synchronise threads are machines: an executable step function
    whose actions name the thread that moves and what scheduler and kernel
    decide, one atomic access a step.  Theorems about them quantify over every
    reachable state, hence over all interleavings of any number of threads.

    ** What is proved

    The doc comment of each numbered theorem names all of its conditions; they
    are only indicated here.

    - Confinement: for paths and links that do not name the exit directory,
      path resolution and 24 path calls show the kernel only paths inside the
      prefix (C1, C2), and a local socket is bound to the path its address
      resolves to (C26); for names that exist and are not symbolic links,
      resolution is lexical normalisation (C5) and [vchroot_unexpand]
      inverts it (C6); with a working directory of at most 4094 characters
      resolution is memory safe and returns (C4; a longer one overruns the
      buffer, [long_cwd_overruns]).
    - Threads: the tracer's lock is exclusive and loses no wakeup (C8, C17),
      its once flag runs its function exactly once and everyone who waits
      returns (C33, [once_waiters_return]); given that [os_unfair_lock]
      is a lock, and until the list is corrupted ([lost_signal_corrupts_list]),
      the list of parked workers has no duplicates, is changed under its lock
      and holds only workers that wait (C9); in executions where no [sem_up] comes between the two stores of [sem_down]
      ([orderly_step]) no wakeup is lost (C18) and a worker taken off the list
      resumes with the request it was taken for (C39); a new thread starts with
      the registers, flags and data that its creation asks for, which are never read after they are gone,
      and its creator can return (C14).
    - Starting programs: scripts whose interpreter has no argument (C10; with
      one the vector is overrun, [script_argument_overruns]); ELF programs, whose images and initial
      stack are those the ABI asks for (C11); posix_spawn, whose parent learns
      every error of the child (C12).
    - Memory: malloc, free and realloc of the tracer keep the heap well formed,
      hand out disjoint memory and leave the contents of the other fragments
      alone (C7, C19, C20; for sizes that leave room for the block header,
      otherwise [malloc_overrun]); aligned mappings of Mach add exactly the pages that
      were asked for (C24).
    - Translations are faithful: error numbers against the documented numbers
      of the two systems (C23; [robust_errors_untranslated] has the two that
      are not translated), terminal attributes ([termios_set_get]), wait status
      words as Darwin's macros read them (C25; [untranslated_signal_status]
      for the signals without a number).
    - Calls do what they are for: dispositions (C15), signals under a debugger
      (C16), directory entries (C22, C40), control messages (C21), attributes
      of files (C36, [setattrlist_requests]), references to files (C37).
    - sysctl: the handlers that look at the size of the caller's buffer store
      nothing outside of it (C31; the others do, [pagesize_overruns]), the
      walks by name and by number agree (C34), names and numbers translate
      back and forth ([sysctl_name_roundtrip]), numeric hw variables have the size of the type
      they are declared with and the value that belongs to their name (C35).
    - Tracer: what is printed for the calls of a thread is the rendering of the
      tree they form (C38).
    - Launcher: with root's rights the launcher does only what needs them, and
      other programs get the user's (C3); what it sends is what the daemon
      runs, argument by argument, descriptors included (C27); starting the
      container removes exactly the temporary files (C29); the terminal is left
      as it was found (C30), and what passes through it is copied in order
      ([session_copied]).  The daemon starts the shell on the streams of the
      request (C28), ends a session with shell and connection gone (C13; the
      signals it relays can hit itself, [relay_hits_session])
      and passes the exit status on ([exit_status_relayed]).
    - Programs of the container: the developer directory is that of the first
      source that names one ([developer_dir_found]) and the one that was
      selected ([switch_selects]); a tool is started with its arguments
      ([invoke_runs_tool]); options of sudo end at the command
      ([sudo_options]); addresses come in the order of the server and of the
      family that was asked for ([addrinfo_order], [addrinfo_family]); the
      commands of PlistBuddy are the recursive functions on trees that they
      mean ([add_command], [set_command], [delete_command]), so that what was
      set is read back ([set_then_get]), adding and deleting are inverse
      ([add_then_delete]) and keys stay unique ([commands_keep_keys_unique]).
      The build tools print the identifiers of well formed files
      ([uuid_of_macho], [uuids_of_fat]).
    - The library underneath: formatted output refines a relational reading of
      printf(3) (C32; [vsnprintf_undefined] for what is undefined), line reading returns the lines of a file
      ([simple_readline_all_lines]).

    Theorems without a number complete these groups (signal sets and delivery,
    kill, socket addresses, mount lookup, descriptions of processes, the search
    for a running container, the system call table), and record behaviour
    that differs from what the code is meant to do, for example
    [recvmsg_control_overrun], [ulock_timeout_wrong], [resethand_ignored],
    [listxattr_unresolved], [brand_string_hidden],
    [long_command_lost], [failed_create_spins], [moved_pipe_inherited],
    [ptr_v6_wrong] or [clear_does_nothing].

    ** Parameters

    Code outside of the repository is an argument of the definitions that
    use it: the kernel's responses, the Mach call host_info and the CPUID
    instruction ([Sysctl]), the files and program outputs the launcher reads
    ([Launcher], and [world] in [Startup]), the functions of the tracer that print arguments
    ([XtraceTrace]), the program's signal handlers and the widths of Mach's
    floating point structure ([Sigexc]), the functions of the host's C library
    behind [elfcalls] ([Ipc], [Threads], [Unistd]), the files, the addresses
    and the failures of the host's mmap ([os] of [ElfLoader]), libresolv's
    answers ([reply] of [Resolver]), CoreFoundation's formats ([cf] of [Plist];
    its containers are values).  Where a
    property depends on what such code does, the assumption is a record of
    rules ([fd_rules], [vm_rules], [mmap_fresh]) with an instance.  The lock
    of the work queues is libplatform's, which takes the place of weak empty
    functions; [wq_lock] and [wq_unlock] are its documented behaviour.

    ** Bounds and fuel

    The nesting of symbolic links is bounded by [vchroot_depth] = 12, two more
    than MAX_SYMLINK_DEPTH, and the component loop by the length of the path:
    neither is ever used up, and on a host whose directories end the fuel of
    the scan is not either ([vchroot_expand_safe], [directories_end]).  Loops whose
    length the kernel decides (directory scans, reads of a file) take the fuel
    of the class [LoopFuel]; a theorem either allows running out of it, where
    the claim is about safety, or gives the fuel that is enough.  The daemon's
    reader takes the length of the stream, and more makes no difference
    ([read_cmds_fuel]).  [IcaseEnabled] distinguishes libsystem_kernel from the
    copy of the code in dyld.

    ** Not modelled

    The assembly entry points and signal restorer; the i386 variants; the
    kernel module and the MIG stubs, which are not in the repository; the
    messages of the launcher to the user, its handling of signals while it
    waits (the handler itself is [signalHandler_run]); the C++ functions that
    print the arguments of particular calls; kernel-side path expansion, which is not built; and the
    vendored libraries.  A path given by the caller is assumed to
    fit the 4096-byte buffer it is copied to with strcpy, and no descriptor
    has the number INT_MIN ([proc_fd_path]). *)
From stdpp Require Export base list strings numbers option sets gmap pretty.
From Stdlib Require Export Ascii ZArith Lia Bool Btauto.

#[export] Set Default Goal Selector "!".
#[export] Set Warnings "-clear-no-such-hyp".
Open Scope Z_scope.

(** ** C integers

    Values of C integer types are [Z]; the conversions below are applied
    where the source converts to, or computes in, a type of that width. *)

Definition u8 (z : Z) : Z := z mod 2 ^ 8.
Definition u16 (z : Z) : Z := z mod 2 ^ 16.
Definition u32 (z : Z) : Z := z mod 2 ^ 32.
Definition u64 (z : Z) : Z := z mod 2 ^ 64.
Definition s16 (z : Z) : Z := (z + 2 ^ 15) mod 2 ^ 16 - 2 ^ 15.
Definition s32 (z : Z) : Z := (z + 2 ^ 31) mod 2 ^ 32 - 2 ^ 31.
Definition s64 (z : Z) : Z := (z + 2 ^ 63) mod 2 ^ 64 - 2 ^ 63.

Definition INT_MAX : Z := 2147483647.
Definition INT_MIN : Z := -2147483648.
Definition SIZE_MAX : Z := 2 ^ 64 - 1.

(** The C truth value of [x & mask]. *)
Definition has (x mask : Z) : bool := negb (Z.land x mask =? 0).

(** ** Bytes and C strings

    A C string is the list of its characters without the terminating NUL;
    a memory buffer is the list of its bytes. *)

Abbreviation cstr := (list ascii).

Definition s2c : string -> cstr := String.list_ascii_of_string.
Definition NUL : ascii := "000"%char.

(** The C string stored at the start of a buffer. *)
Fixpoint c_str (buf : list ascii) : cstr :=
  match buf with
  | [] => []
  | c :: r => if ascii_dec c NUL then [] else c :: c_str r
  end.

Definition strlen (s : cstr) : Z := Z.of_nat (length s).
Definition ztake {A} (n : Z) (l : list A) : list A := take (Z.to_nat n) l.
Definition zdrop {A} (n : Z) (l : list A) : list A := drop (Z.to_nat n) l.

(** [memcpy(buf + off, data, length data)] inside a buffer. *)
Definition write_at (buf : list ascii) (off : nat) (data : list ascii) : list ascii :=
  take off buf ++ data ++ drop (off + length data) buf.

Definition byte_val (c : ascii) : Z := Z.of_N (N_of_ascii c).
Definition byte_of (z : Z) : ascii := ascii_of_N (Z.to_N (u8 z)).

(** Integers in memory, least significant byte first. *)
Definition short_bytes (z : Z) : list ascii := [byte_of z; byte_of (z / 2 ^ 8)].
Definition int_bytes (z : Z) : list ascii := [byte_of z; byte_of (z / 2 ^ 8); byte_of (z / 2 ^ 16); byte_of (z / 2 ^ 24)].

Fixpoint bytes_value (bytes : list ascii) : Z :=
  match bytes with [] => 0 | c :: bytes => byte_val c + 256 * bytes_value bytes end.

(** C-locale [tolower] on one byte. *)
Definition tolower (c : ascii) : ascii :=
  if (65 <=? byte_val c) && (byte_val c <=? 90) then byte_of (byte_val c + 32) else c.

Definition streq (a b : cstr) : bool := bool_decide (a = b).
Definition strcaseeq (a b : cstr) : bool := streq (tolower <$> a) (tolower <$> b).

(** [strncmp(a, b, n) == 0] on NUL-terminated strings: both strings agree
    on the first [n] characters, a terminator counting as a character. *)
Definition strneq (a b : cstr) (n : nat) : bool := streq (take n a) (take n b).
Definition strncaseeq (a b : cstr) (n : nat) : bool := strcaseeq (take n a) (take n b).

(** Position of the first occurrence of a byte ([memchr], [strchr]). *)
Fixpoint index_of (c : ascii) (l : list ascii) : option nat :=
  match l with
  | [] => None
  | x :: r => if ascii_dec x c then Some 0%nat else S <$> index_of c r
  end.

(** ** Bit flag translation

    The emulation layer translates between the Darwin and the Linux flag
    words by chains of [if (flags & A) out |= B;].  Such a chain is a table
    of pairs [(A, B)] folded in source order. *)

Definition flag_or (flags acc : Z) (e : Z * Z) : Z :=
  if has flags e.1 then Z.lor acc e.2 else acc.

Definition translate_from (init : Z) (tbl : list (Z * Z)) (flags : Z) : Z :=
  foldl (flag_or flags) init tbl.

Definition translate : list (Z * Z) -> Z -> Z := translate_from 0.

Definition swap_tbl (tbl : list (Z * Z)) : list (Z * Z) := (λ e, (e.2, e.1)) <$> tbl.
Definition diag_tbl (l : list Z) : list (Z * Z) := (λ a, (a, a)) <$> l.
Definition or_all (l : list Z) : Z := foldr Z.lor 0 l.

(** Translating with [t1] and then with [t2], as one table. *)
Definition compose_tbl (t1 t2 : list (Z * Z)) : list (Z * Z) :=
  e2 ← t2; (λ e1, (e1.1, e2.2)) <$> filter (λ e1, has e1.2 e2.1 = true) t1.

(** Every entry of [t1] that can contribute is covered by an entry of [t2]
    that tests for more and sets more. *)
Definition tbl_incl (t1 t2 : list (Z * Z)) : bool :=
  forallb (λ e, (e.1 =? 0) || (e.2 =? 0) ||
                existsb (λ e', (Z.land e.1 e'.1 =? e.1) && (Z.land e.2 e'.2 =? e.2)) t2) t1.
Definition tbl_equiv (t1 t2 : list (Z * Z)) : bool := tbl_incl t1 t2 && tbl_incl t2 t1.

(** Pairwise disjoint, non-empty masks. *)
Fixpoint masks_disjoint (l : list Z) : bool :=
  match l with
  | [] => true
  | a :: r => (0 <? a) && forallb (λ b, Z.land a b =? 0) r && masks_disjoint r
  end.

Definition single_bit (a : Z) : bool := (0 <? a) && (a =? 2 ^ Z.log2 a).

(** ** Switches

    [switch (x) { case a: return b; ... default: return d; }] as a table of
    the pairs [(a, b)]. *)

Fixpoint case_of (tbl : list (Z * Z)) (x : Z) : option Z :=
  match tbl with
  | [] => None
  | e :: tbl => if x =? e.1 then Some e.2 else case_of tbl x
  end.

Definition switch (tbl : list (Z * Z)) (d x : Z) : Z := default d (case_of tbl x).

(** ** Arrays of integers, indexed by a C integer *)

Definition zget (l : list Z) (i : Z) : Z := default 0 (l !! Z.to_nat i).
Definition zset (l : list Z) (i v : Z) : list Z := <[Z.to_nat i := v]> l.

(** ** Tactics and hints *)

Create HintDb darling discriminated.
Create Rewrite HintDb cint.

(** Case analysis on the boolean integer comparisons of the goal. *)
Ltac case_cmp :=
  repeat match goal with
  | |- context [?a =? ?b] => destruct (Z.eqb_spec a b)
  | |- context [?a <? ?b] => destruct (Z.ltb_spec a b)
  | |- context [?a <=? ?b] => destruct (Z.leb_spec a b)
  end.

Ltac break_and :=
  repeat match goal with
  | H : _ ∧ _ |- _ => destruct H
  | H : _ && _ = true |- _ => apply andb_true_iff in H
  | H : ∃ _, _ |- _ => destruct H
  end.

(** ** Lemmas on integers *)

Lemma s32_id z : INT_MIN <= z <= INT_MAX -> s32 z = z.
Proof. unfold s32, INT_MIN, INT_MAX. intros ?. rewrite Z.mod_small; lia. Qed.

Lemma s32_range z : INT_MIN <= s32 z <= INT_MAX.
Proof. unfold s32, INT_MIN, INT_MAX. pose proof (Z.mod_pos_bound (z + 2 ^ 31) (2 ^ 32)). lia. Qed.

Lemma s64_id z : - 2 ^ 63 <= z < 2 ^ 63 -> s64 z = z.
Proof. unfold s64. intros ?. rewrite Z.mod_small; lia. Qed.

Lemma u32_id z : 0 <= z < 2 ^ 32 -> u32 z = z.
Proof. intros ?. apply Z.mod_small. lia. Qed.

Lemma u32_range z : 0 <= u32 z < 2 ^ 32.
Proof. apply Z.mod_pos_bound. lia. Qed.

Lemma s32_u32 z : s32 (u32 z) = s32 z.
Proof. unfold s32, u32. by rewrite Zplus_mod_idemp_l. Qed.

Lemma u64_id z : 0 <= z < 2 ^ 64 -> u64 z = z.
Proof. intros ?. apply Z.mod_small. lia. Qed.

Lemma u16_id z : 0 <= z < 2 ^ 16 -> u16 z = z.
Proof. intros ?. apply Z.mod_small. lia. Qed.

Lemma u8_id z : 0 <= z < 2 ^ 8 -> u8 z = z.
Proof. intros ?. apply Z.mod_small. lia. Qed.

#[export] Hint Rewrite s32_id s64_id u32_id u64_id u16_id u8_id using lia : cint.

(** ** Lemmas on bytes and strings *)

Lemma byte_val_range c : 0 <= byte_val c < 256.
Proof. unfold byte_val. pose proof (N_ascii_bounded c). lia. Qed.

Lemma byte_of_val c : byte_of (byte_val c) = c.
Proof.
  unfold byte_of, u8, byte_val. pose proof (N_ascii_bounded c).
  rewrite Z.mod_small by lia. rewrite N2Z.id. apply ascii_N_embedding.
Qed.

Lemma byte_val_of z : byte_val (byte_of z) = u8 z.
Proof.
  unfold byte_val, byte_of, u8. pose proof (Z.mod_pos_bound z (2 ^ 8)).
  rewrite N_ascii_embedding by lia. apply Z2N.id. lia.
Qed.

Lemma short_value z : bytes_value (short_bytes z) = z mod 2 ^ 16.
Proof. unfold short_bytes. simpl bytes_value. rewrite !byte_val_of. unfold u8. Z.to_euclidean_division_equations. lia. Qed.

Lemma int_value z : bytes_value (int_bytes z) = u32 z.
Proof. unfold int_bytes. simpl bytes_value. rewrite !byte_val_of. unfold u8, u32. Z.to_euclidean_division_equations. lia. Qed.

Lemma c_str_id s : Forall (.≠ NUL) s -> c_str s = s.
Proof. induction 1 as [|c s Hc _ IH]; simpl; [done|]. destruct ascii_dec; congruence. Qed.

Lemma c_str_no_nul s : Forall (.≠ NUL) (c_str s).
Proof. induction s as [|c s IH]; simpl; [constructor|]. destruct ascii_dec; by constructor. Qed.

Lemma c_str_nul s r : NUL ∉ s -> c_str (s ++ NUL :: r) = s.
Proof.
  intros Hs. induction s as [|c s IH]; [done|]. apply not_elem_of_cons in Hs as [Hc Hs]. simpl.
  destruct (ascii_dec c NUL); [by subst|]. by rewrite IH.
Qed.

Lemma c_str_length s : (length (c_str s) <= length s)%nat.
Proof. induction s as [|c s IH]; simpl; [lia|]. destruct ascii_dec; simpl; lia. Qed.

Lemma strlen_app a b : strlen (a ++ b) = strlen a + strlen b.
Proof. unfold strlen. rewrite length_app. lia. Qed.

Lemma strlen_nonneg s : 0 <= strlen s.
Proof. unfold strlen. lia. Qed.

Lemma streq_true a b : streq a b = true <-> a = b.
Proof. unfold streq. by rewrite bool_decide_eq_true. Qed.

Lemma strcaseeq_length a b : strcaseeq a b = true -> length a = length b.
Proof. unfold strcaseeq. rewrite streq_true. intros H%(f_equal length). by rewrite !length_fmap in H. Qed.

(** Comparing the first [length p] characters with [p] tests for a prefix. *)
Lemma strneq_prefix s p : strneq s p (length p) = true <-> p `prefix_of` s.
Proof.
  unfold strneq. rewrite streq_true, (take_ge p) by lia. split.
  - intros H. exists (drop (length p) s). rewrite <- H at 1. by rewrite take_drop.
  - intros [r ->]. by rewrite take_app_length.
Qed.

Lemma write_at_length buf off data :
  (off + length data <= length buf)%nat -> length (write_at buf off data) = length buf.
Proof. intros ?. unfold write_at. rewrite !length_app, length_take, length_drop. lia. Qed.

Lemma write_at_take buf off data :
  (off + length data <= length buf)%nat ->
  take (off + length data) (write_at buf off data) = take off buf ++ data.
Proof.
  intros ?. unfold write_at. rewrite app_assoc, take_app_length'; [done|].
  rewrite length_app, length_take. lia.
Qed.

Lemma write_at_take0 buf data :
  (length data <= length buf)%nat -> take (length data) (write_at buf 0 data) = data.
Proof. intros ?. apply (write_at_take buf 0 data). lia. Qed.

Lemma index_of_Some c l n :
  index_of c l = Some n -> l !! n = Some c ∧ c ∉ take n l.
Proof.
  revert n. induction l as [|x l IH]; simpl; intros n Hn; [done|].
  destruct (ascii_dec x c) as [->|Hne]; simplify_eq/=; [split; [done|set_solver]|].
  destruct (index_of c l) as [m|] eqn:E; simplify_eq/=.
  destruct (IH m eq_refl). set_solver.
Qed.

Lemma index_of_None c l : index_of c l = None <-> c ∉ l.
Proof.
  induction l as [|x l IH]; simpl; [set_solver|].
  destruct (ascii_dec x c) as [->|Hne]; [set_solver|].
  rewrite fmap_None, IH. set_solver.
Qed.

Lemma index_of_app c p r : c ∉ p -> index_of c (p ++ c :: r) = Some (length p).
Proof.
  induction p as [|x p IH]; simpl; intros Hp; [by destruct ascii_dec|].
  destruct ascii_dec; [set_solver|]. rewrite IH by set_solver. done.
Qed.

(** ** Lemmas on flag translation *)

Lemma has_testbit x mask :
  0 <= mask -> has x mask = true <-> ∃ i, 0 <= i ∧ Z.testbit x i = true ∧ Z.testbit mask i = true.
Proof.
  intros Hm. unfold has. rewrite negb_true_iff, Z.eqb_neq. split.
  - intros Hne. destruct (decide (Z.land x mask = 0)) as [|_]; [done|].
    assert (0 < Z.land x mask) as Hpos.
    { assert (0 <= Z.land x mask) by (apply Z.land_nonneg; lia). lia. }
    exists (Z.log2 (Z.land x mask)). pose proof (Z.log2_nonneg (Z.land x mask)).
    apply Z.bit_log2 in Hpos. rewrite Z.land_spec in Hpos. by apply andb_true_iff in Hpos.
  - intros (i & Hi & Hx & Hmi) H0. apply (f_equal (λ z, Z.testbit z i)) in H0.
    rewrite Z.land_spec, Hx, Hmi, Z.testbit_0_l in H0. done.
Qed.

Lemma testbit_translate_from tbl flags : ∀ init i,
  Z.testbit (translate_from init tbl flags) i =
  Z.testbit init i || existsb (λ e, has flags e.1 && Z.testbit e.2 i) tbl.
Proof.
  unfold translate_from. induction tbl as [|e tbl IH]; intros init i; simpl; [by rewrite orb_false_r|].
  rewrite IH. unfold flag_or. destruct (has flags e.1); simpl; [rewrite Z.lor_spec|]; btauto.
Qed.

Lemma testbit_translate tbl flags i :
  Z.testbit (translate tbl flags) i = existsb (λ e, has flags e.1 && Z.testbit e.2 i) tbl.
Proof. unfold translate. by rewrite testbit_translate_from, Z.testbit_0_l. Qed.

Lemma has_translate_hit tbl flags a b :
  masks_disjoint (tbl.*2) = true -> (a, b) ∈ tbl -> has (translate tbl flags) b = has flags a.
Proof.
  intros Hd Hin. apply eq_true_iff_eq.
  assert (0 < b ∧ ∀ e, e ∈ tbl -> Z.land e.2 b = 0 ∨ e.2 = b ∧ (has flags e.1 = has flags a)) as [Hb Hsep].
  { revert Hd Hin. clear. induction tbl as [|[a' b'] tbl IH]; simpl; [set_solver|].
    intros Hd [Hh|Hin]%elem_of_cons; break_and; simplify_eq/=.
    - split; [lia|]. intros e [->|He]%elem_of_cons; [by right|left].
      rewrite Z.land_comm. rewrite forallb_forall in *.
      apply Z.eqb_eq. match goal with H : ∀ x, _ |- _ => apply H end.
      apply list_elem_of_In, list_elem_of_fmap. by exists e.
    - destruct IH as [? Hs]; [done..|]. split; [done|].
      intros e [->|He]%elem_of_cons; [left|by apply Hs].
      rewrite forallb_forall in *. apply Z.eqb_eq.
      match goal with H : ∀ x, _ |- _ => apply H end.
      apply list_elem_of_In, list_elem_of_fmap. by exists (a, b). }
  rewrite has_testbit by lia. split.
  - intros (i & Hi & Ht & Hbi). rewrite testbit_translate, existsb_exists in Ht.
    destruct Ht as (e & He%list_elem_of_In & Hc). apply andb_true_iff in Hc as [Hc1 Hc2].
    destruct (Hsep e He) as [H0|[? <-]]; [|done].
    apply (f_equal (λ z, Z.testbit z i)) in H0. rewrite Z.land_spec, Hc2, Hbi, Z.testbit_0_l in H0. done.
  - intros Ha. exists (Z.log2 b). split; [apply Z.log2_nonneg|].
    rewrite (Z.bit_log2 b) by done. split; [|done].
    rewrite testbit_translate, existsb_exists. exists (a, b).
    rewrite <- list_elem_of_In. simpl. by rewrite Ha, (Z.bit_log2 b).
Qed.


Lemma existsb_ext_in {A} (f g : A -> bool) l :
  (∀ x, x ∈ l -> f x = g x) -> existsb f l = existsb g l.
Proof. induction l as [|x l IH]; simpl; intros H; [done|]. rewrite H, IH; set_solver. Qed.

Lemma existsb_fmap {A B} (f : B -> bool) (g : A -> B) l :
  existsb f (g <$> l) = existsb (λ x, f (g x)) l.
Proof. induction l as [|x l IH]; csimpl; [done|]. by rewrite IH. Qed.

(** Translating there and back keeps exactly the source masks that were hit. *)
Lemma translate_back tbl flags :
  masks_disjoint (tbl.*2) = true ->
  translate (swap_tbl tbl) (translate tbl flags) = translate (diag_tbl (tbl.*1)) flags.
Proof.
  intros Hd. apply Z.bits_inj'. intros i Hi. rewrite !(testbit_translate (swap_tbl _)), testbit_translate.
  unfold swap_tbl, diag_tbl. rewrite (existsb_fmap _ _ tbl), existsb_fmap, existsb_fmap. simpl.
  apply existsb_ext_in. intros [a b] Hin. simpl. by rewrite (has_translate_hit tbl flags a b).
Qed.

Lemma single_bit_spec a : single_bit a = true -> 0 <= Z.log2 a ∧ a = 2 ^ Z.log2 a.
Proof. unfold single_bit. intros ?; break_and. split; [apply Z.log2_nonneg|]. by apply Z.eqb_eq. Qed.

Lemma has_pow2 x k : 0 <= k -> has x (2 ^ k) = Z.testbit x k.
Proof.
  intros Hk. apply eq_true_iff_eq. rewrite has_testbit by lia. split.
  - intros (i & ? & ? & Hi). rewrite Z.pow2_bits_eqb in Hi by done. apply Z.eqb_eq in Hi. by subst.
  - intros ?. exists k. by rewrite Z.pow2_bits_true.
Qed.

Lemma translate_diag_single l flags :
  forallb single_bit l = true -> translate (diag_tbl l) flags = Z.land flags (or_all l).
Proof.
  intros Hs. apply Z.bits_inj'. intros i Hi. rewrite testbit_translate, Z.land_spec.
  unfold diag_tbl. rewrite existsb_fmap. simpl. unfold or_all.
  induction l as [|a l IH]; simpl in *; [by rewrite Z.testbit_0_l, andb_false_r|].
  break_and. rewrite Z.lor_spec, IH by done.
  match goal with H : single_bit a = true |- _ => apply single_bit_spec in H as [Hk ->] end.
  rewrite has_pow2, Z.pow2_bits_eqb by done. destruct (Z.eqb_spec (Z.log2 a) i) as [->|]; simpl; btauto.
Qed.

(** A table of single bits with disjoint targets is inverted by its swap on
    the flags it knows. *)
Lemma translate_round_trip tbl flags :
  masks_disjoint (tbl.*2) = true -> forallb single_bit (tbl.*1) = true ->
  translate (swap_tbl tbl) (translate tbl flags) = Z.land flags (or_all (tbl.*1)).
Proof. intros ??. by rewrite translate_back, translate_diag_single. Qed.

Lemma has_translate tbl x m :
  0 <= m -> has (translate tbl x) m = existsb (λ e, has x e.1 && has e.2 m) tbl.
Proof.
  intros Hm. apply eq_true_iff_eq. rewrite has_testbit, existsb_exists by done. split.
  - intros (i & Hi & Ht & Hmi). rewrite testbit_translate, existsb_exists in Ht. destruct Ht as (e & He & Hb).
    apply andb_true_iff in Hb as [Hx Hb]. exists e. split; [done|]. rewrite Hx. apply has_testbit; [done|]. by exists i.
  - intros (e & He & Hb). apply andb_true_iff in Hb as [Hx Hb]. apply has_testbit in Hb as (i & Hi & Ht & Hmi); [|done].
    exists i. split; [done|]. split; [|done]. rewrite testbit_translate, existsb_exists. exists e. by rewrite Hx, Ht.
Qed.

(** A target bit that a single entry of the table sets. *)
Lemma has_translate_unique tbl x m a b :
  0 <= m -> filter (λ e, has e.2 m = true) tbl = [(a, b)] -> has (translate tbl x) m = has x a.
Proof.
  intros Hm Hf. rewrite has_translate by done.
  assert (existsb (λ e, has x e.1 && has e.2 m) tbl = existsb (λ e, has x e.1) (filter (λ e, has e.2 m = true) tbl)) as ->.
  - clear. induction tbl as [|e tbl IH]; simpl; [done|]. rewrite filter_cons, IH.
    destruct (decide (has e.2 m = true)) as [->|Hn]; simpl; [by rewrite andb_true_r|].
    apply not_true_is_false in Hn as ->. by rewrite andb_false_r.
  - rewrite Hf. simpl. apply orb_false_r.
Qed.

Lemma existsb_elem {A} (f : A -> bool) l : existsb f l = true <-> ∃ x, x ∈ l ∧ f x = true.
Proof. rewrite existsb_exists. by setoid_rewrite list_elem_of_In. Qed.

Lemma translate_compose t1 t2 x :
  forallb (λ e, 0 <=? e.1) t2 = true ->
  translate t2 (translate t1 x) = translate (compose_tbl t1 t2) x.
Proof.
  intros Hpos. rewrite forallb_forall in Hpos. apply Z.bits_inj'. intros i Hi. rewrite !(testbit_translate _ _ i).
  apply eq_true_iff_eq. rewrite !existsb_elem. unfold compose_tbl. split.
  - intros (e2 & He2 & Hb). assert ((0 <=? e2.1) = true) as H0 by by apply Hpos, list_elem_of_In.
    rewrite has_translate, andb_true_iff, existsb_elem in Hb by lia. destruct Hb as [(e1 & He1 & Hb1) Hb2].
    apply andb_true_iff in Hb1 as [Hx Hh]. exists (e1.1, e2.2). split; [|cbn [fst snd]; by rewrite Hx].
    apply list_elem_of_bind. exists e2. split; [|done]. apply list_elem_of_fmap. exists e1. split; [done|].
    by apply list_elem_of_filter.
  - intros (e & He & Hb). apply list_elem_of_bind in He as (e2 & He & He2).
    apply list_elem_of_fmap in He as (e1 & -> & He1). apply list_elem_of_filter in He1 as [Hh He1].
    simpl in Hb. apply andb_true_iff in Hb as [Hx Hb2]. assert ((0 <=? e2.1) = true) as H0 by by apply Hpos, list_elem_of_In.
    exists e2. split; [done|]. rewrite has_translate, Hb2, andb_true_r by lia. apply existsb_elem. exists e1.
    by rewrite Hx, Hh.
Qed.

Lemma translate_incl t1 t2 x i :
  tbl_incl t1 t2 = true -> Z.testbit (translate t1 x) i = true -> Z.testbit (translate t2 x) i = true.
Proof.
  unfold tbl_incl. rewrite forallb_forall, !testbit_translate, !existsb_elem. intros Hall (e & He & Hb).
  apply andb_true_iff in Hb as [Hx Hb]. specialize (Hall e (proj1 (list_elem_of_In _ _) He)).
  destruct (Z.eqb_spec e.1 0) as [H0|]; [rewrite H0 in Hx; unfold has in Hx; by rewrite Z.land_0_r in Hx|].
  destruct (Z.eqb_spec e.2 0) as [H0|]; [rewrite H0, Z.testbit_0_l in Hb; done|]. simpl in Hall.
  apply existsb_elem in Hall as (e' & He' & Heq). exists e'. split; [done|].
  apply andb_true_iff in Heq as [H1%Z.eqb_eq H2%Z.eqb_eq]. apply andb_true_iff. split.
  - unfold has in *. apply negb_true_iff, Z.eqb_neq. intros H0. apply negb_true_iff, Z.eqb_neq in Hx. apply Hx.
    by rewrite <- H1, (Z.land_comm e.1), Z.land_assoc, H0.
  - rewrite <- H2, Z.land_spec in Hb. by apply andb_true_iff in Hb as [_ ?].
Qed.

Lemma translate_equiv t1 t2 x : tbl_equiv t1 t2 = true -> translate t1 x = translate t2 x.
Proof.
  intros Heq. apply andb_true_iff in Heq as [H1 H2]. apply Z.bits_inj'. intros i Hi. apply eq_true_iff_eq.
  split; by apply translate_incl.
Qed.

Lemma translate_snoc t a b x : translate (t ++ [(a, b)]) x = Z.lor (translate t x) (if has x a then b else 0).
Proof.
  unfold translate, translate_from. rewrite foldl_app. cbn [foldl]. unfold flag_or. cbn [fst snd].
  destruct (has x a); [done|]. by rewrite Z.lor_0_r.
Qed.

Lemma lor_range n a b : 0 <= n -> 0 <= a < 2 ^ n -> 0 <= b < 2 ^ n -> 0 <= Z.lor a b < 2 ^ n.
Proof.
  intros Hn Ha Hb. assert (0 <= Z.lor a b) by (apply Z.lor_nonneg; lia). split; [done|].
  apply Z.bounded_iff_bits_nonneg; [done..|]. intros i Hi. rewrite Z.lor_spec.
  rewrite (proj1 (Z.bounded_iff_bits_nonneg n a Hn (proj1 Ha)) (proj2 Ha)) by done.
  by rewrite (proj1 (Z.bounded_iff_bits_nonneg n b Hn (proj1 Hb)) (proj2 Hb)) by done.
Qed.

Lemma translate_from_range n tbl x acc :
  0 <= n -> 0 <= acc < 2 ^ n -> forallb (λ e, (0 <=? e.2) && (e.2 <? 2 ^ n)) tbl = true ->
  0 <= translate_from acc tbl x < 2 ^ n.
Proof.
  intros Hn. revert acc. unfold translate_from. induction tbl as [|e tbl IH]; simpl; intros acc Hacc Hall; [done|].
  break_and. apply IH; [|done]. unfold flag_or. destruct (has x e.1); [|done]. apply lor_range; lia.
Qed.

Lemma translate_range n tbl x :
  0 <= n -> forallb (λ e, (0 <=? e.2) && (e.2 <? 2 ^ n)) tbl = true -> 0 <= translate tbl x < 2 ^ n.
Proof. intros ??. apply translate_from_range; [done| |done]. split; [lia|]. by apply Z.pow_pos_nonneg. Qed.

(** Two translations that keep exactly the bits of [l]. *)
Lemma translate_there_back t1 t2 l x :
  forallb (λ e, 0 <=? e.1) t2 = true -> tbl_equiv (compose_tbl t1 t2) (diag_tbl l) = true ->
  forallb single_bit l = true -> translate t2 (translate t1 x) = Z.land x (or_all l).
Proof. intros ???. rewrite translate_compose, (translate_equiv _ (diag_tbl l)) by done. by apply translate_diag_single. Qed.

(** ** Lemmas on switches *)

Lemma case_of_Some tbl x y : case_of tbl x = Some y -> (x, y) ∈ tbl.
Proof.
  induction tbl as [|[a b] tbl IH]; simpl; [done|]. destruct (Z.eqb_spec x a) as [->|]; intros; simplify_eq; set_solver.
Qed.

(** A finite check over a table settles every value of a switch. *)
Lemma switch_forall (P : Z -> Z -> bool) tbl d x :
  forallb (λ e, P e.1 e.2) tbl = true -> P x d = true -> P x (switch tbl d x) = true.
Proof.
  intros Hall Hd. unfold switch. destruct (case_of tbl x) as [y|] eqn:E; simpl; [|done].
  apply case_of_Some in E. rewrite forallb_forall in Hall. by apply (Hall (x, y)), list_elem_of_In.
Qed.

Definition values_distinct (tbl : list (Z * Z)) : bool :=
  forallb (λ e, forallb (λ e', negb (e.2 =? e'.2) || (e.1 =? e'.1)) tbl) tbl.

Lemma switch_inj tbl d x x' :
  values_distinct tbl = true -> switch tbl d x = switch tbl d x' -> switch tbl d x ≠ d -> x = x'.
Proof.
  intros Hall Heq Hne. unfold switch in *.
  destruct (case_of tbl x) as [y|] eqn:E; [|done]. destruct (case_of tbl x') as [y'|] eqn:E'; simpl in *; [|done].
  subst y'. apply case_of_Some in E, E'. unfold values_distinct in Hall.
  rewrite forallb_forall in Hall. specialize (Hall (x, y) (proj1 (list_elem_of_In _ _) E)).
  rewrite forallb_forall in Hall. specialize (Hall (x', y) (proj1 (list_elem_of_In _ _) E')). simpl in Hall. lia.
Qed.

Lemma zset_length l i v : length (zset l i v) = length l.
Proof. apply length_insert. Qed.

Lemma zget_set_eq l i v : 0 <= i < Z.of_nat (length l) -> zget (zset l i v) i = v.
Proof. intros ?. unfold zget, zset. by rewrite list_lookup_insert_eq by lia. Qed.

Lemma zget_set_ne l i j v : 0 <= i -> 0 <= j -> i ≠ j -> zget (zset l i v) j = zget l j.
Proof. intros ???. unfold zget, zset. by rewrite list_lookup_insert_ne by lia. Qed.
