(* ===== verification/Conc.v ===== *)
(** * Machines of interleaved threads

    Several parts of the program synchronise threads with atomic memory
    accesses and Linux futexes.  Such a part is a machine: a state and an
    executable step function, where an action says which thread moves and
    resolves what the scheduler and the kernel decide.  One step is one
    atomic access.  This file holds what the machines share: executions,
    reachability, invariants, and updates of one thread in a list. *)
From S2P Require Import Prelude.

Section Machine.
Context {St Act : Type} (step : Act -> St -> option St) (init : St -> Prop).

(** Running a list of actions; [None] when one of them is not possible. *)
Fixpoint exec (l : list Act) (s : St) : option St :=
  match l with
  | [] => Some s
  | a :: l => s' ← step a s; exec l s'
  end.

Inductive reachable : St -> Prop :=
| reach_init s : init s -> reachable s
| reach_step s a s' : reachable s -> step a s = Some s' -> reachable s'.

Lemma exec_reachable l s s' : reachable s -> exec l s = Some s' -> reachable s'.
Proof.
  revert s. induction l as [|a l IH]; simpl; intros s Hs He; [by simplify_eq|].
  destruct (step a s) as [s1|] eqn:E; simpl in He; [|done]. eauto using reach_step.
Qed.

Lemma exec_app l l' s : exec (l ++ l') s = exec l s ≫= exec l'.
Proof.
  revert s. induction l as [|a l IH]; intros s; simpl; [done|].
  destruct (step a s); simpl; [apply IH|done].
Qed.

(** The invariant rule. *)
Lemma reachable_invariant (I : St -> Prop) :
  (∀ s, init s -> I s) -> (∀ a s s', I s -> step a s = Some s' -> I s') ->
  ∀ s, reachable s -> I s.
Proof. intros Hi Hs s. induction 1; eauto. Qed.
End Machine.

(** ** Threads

    The program counters of the threads are a list indexed by thread. *)
Section Threads.
Context {P : Type}.
Implicit Types (l : list P) (t u : nat) (p q : P).

(** The threads after thread [t] has moved to [p]: [t] is at [p], the others
    are where they were. *)
Lemma thread_moved l t p u q :
  <[t := p]> l !! u = Some q -> (t = u ∧ q = p ∧ (t < length l)%nat) ∨ (t ≠ u ∧ l !! u = Some q).
Proof. intros [(-> & <- & ?)|[? ?]]%list_lookup_insert_Some; auto. Qed.

Lemma thread_at l t p : is_Some (l !! t) -> <[t := p]> l !! t = Some p.
Proof. intros ?%lookup_lt_is_Some. by apply list_lookup_insert_eq. Qed.

Lemma thread_other l t u p : t ≠ u -> <[t := p]> l !! u = l !! u.
Proof. apply list_lookup_insert_ne. Qed.
End Threads.

(** Case analysis on a lookup in the updated list of threads. *)
Ltac thread_cases :=
  repeat match goal with
  | H : <[_ := _]> _ !! _ = Some _ |- _ =>
      apply thread_moved in H as [(? & ? & ?)|[? H]]; simplify_eq
  end.

(** ** Futexes

    [FUTEX_WAIT] puts the caller to sleep when the word still has the expected
    value, and otherwise fails at once.  A sleeper returns when a
    [FUTEX_WAKE] chooses it, or for no visible reason: a signal, a timeout, a
    spurious wake-up. *)
Definition futex_wait {A} (word expected : Z) (sleep again : A) : A :=
  if word =? expected then sleep else again.

(** [__linux_futex]: the translated error goes to errno, the result is -1. *)
Definition futex_result (rv : Z) : Z := if rv <? 0 then -1 else rv.
