(* ===== verification/Abi.v ===== *)
(** * The two ABIs

    The constants of the headers under src/src/kernel/emulation/linux, with the
    values the headers give them on x86_64, and the constants of Darwin's
    public headers that the sources use by name ([sys/errno.h],
    [sys/signal.h], [sys/socket.h], [sys/mman.h]). *)
From S2P Require Import Prelude.

(** ** Constants of the repository's headers *)

(** *** linux-syscalls/linux-x86_64.h: Linux system call numbers (x86_64) *)

Definition __NR_read : Z := 0.
Definition __NR_write : Z := 1.
Definition __NR_open : Z := 2.
Definition __NR_close : Z := 3.
Definition __NR_fstat : Z := 5.
Definition __NR_lstat : Z := 6.
Definition __NR_poll : Z := 7.
Definition __NR_lseek : Z := 8.
Definition __NR_mmap : Z := 9.
Definition __NR_mprotect : Z := 10.
Definition __NR_munmap : Z := 11.
Definition __NR_rt_sigaction : Z := 13.
Definition __NR_rt_sigprocmask : Z := 14.
Definition __NR_ioctl : Z := 16.
Definition __NR_pread64 : Z := 17.
Definition __NR_pwrite64 : Z := 18.
Definition __NR_readv : Z := 19.
Definition __NR_writev : Z := 20.
Definition __NR_pipe : Z := 22.
Definition __NR_select : Z := 23.
Definition __NR_sched_yield : Z := 24.
Definition __NR_mremap : Z := 25.
Definition __NR_msync : Z := 26.
Definition __NR_mincore : Z := 27.
Definition __NR_madvise : Z := 28.
Definition __NR_dup : Z := 32.
Definition __NR_dup2 : Z := 33.
Definition __NR_nanosleep : Z := 35.
Definition __NR_getitimer : Z := 36.
Definition __NR_setitimer : Z := 38.
Definition __NR_getpid : Z := 39.
Definition __NR_sendfile : Z := 40.
Definition __NR_socket : Z := 41.
Definition __NR_connect : Z := 42.
Definition __NR_accept : Z := 43.
Definition __NR_sendto : Z := 44.
Definition __NR_recvfrom : Z := 45.
Definition __NR_sendmsg : Z := 46.
Definition __NR_recvmsg : Z := 47.
Definition __NR_shutdown : Z := 48.
Definition __NR_bind : Z := 49.
Definition __NR_listen : Z := 50.
Definition __NR_getsockname : Z := 51.
Definition __NR_getpeername : Z := 52.
Definition __NR_socketpair : Z := 53.
Definition __NR_setsockopt : Z := 54.
Definition __NR_getsockopt : Z := 55.
Definition __NR_clone : Z := 56.
Definition __NR_execve : Z := 59.
Definition __NR_exit : Z := 60.
Definition __NR_wait4 : Z := 61.
Definition __NR_kill : Z := 62.
Definition __NR_uname : Z := 63.
Definition __NR_semget : Z := 64.
Definition __NR_semop : Z := 65.
Definition __NR_semctl : Z := 66.
Definition __NR_fcntl : Z := 72.
Definition __NR_flock : Z := 73.
Definition __NR_fsync : Z := 74.
Definition __NR_fdatasync : Z := 75.
Definition __NR_truncate : Z := 76.
Definition __NR_ftruncate : Z := 77.
Definition __NR_chdir : Z := 80.
Definition __NR_fchdir : Z := 81.
Definition __NR_readlink : Z := 89.
Definition __NR_chmod : Z := 90.
Definition __NR_fchmod : Z := 91.
Definition __NR_chown : Z := 92.
Definition __NR_fchown : Z := 93.
Definition __NR_umask : Z := 95.
Definition __NR_gettimeofday : Z := 96.
Definition __NR_getrlimit : Z := 97.
Definition __NR_getrusage : Z := 98.
Definition __NR_sysinfo : Z := 99.
Definition __NR_ptrace : Z := 101.
Definition __NR_syslog : Z := 103.
Definition __NR_setpgid : Z := 109.
Definition __NR_getppid : Z := 110.
Definition __NR_getpgrp : Z := 111.
Definition __NR_setsid : Z := 112.
Definition __NR_getgroups : Z := 115.
Definition __NR_setgroups : Z := 116.
Definition __NR_getpgid : Z := 121.
Definition __NR_getsid : Z := 124.
Definition __NR_rt_sigpending : Z := 127.
Definition __NR_rt_sigtimedwait : Z := 128.
Definition __NR_rt_sigsuspend : Z := 130.
Definition __NR_sigaltstack : Z := 131.
Definition __NR_mknod : Z := 133.
Definition __NR_personality : Z := 135.
Definition __NR_statfs : Z := 137.
Definition __NR_fstatfs : Z := 138.
Definition __NR_getpriority : Z := 140.
Definition __NR_setpriority : Z := 141.
Definition __NR_prctl : Z := 157.
Definition __NR_setrlimit : Z := 160.
Definition __NR_chroot : Z := 161.
Definition __NR_sync : Z := 162.
Definition __NR_sethostname : Z := 170.
Definition __NR_setdomainname : Z := 171.
Definition __NR_gettid : Z := 186.
Definition __NR_setxattr : Z := 188.
Definition __NR_lsetxattr : Z := 189.
Definition __NR_fsetxattr : Z := 190.
Definition __NR_getxattr : Z := 191.
Definition __NR_lgetxattr : Z := 192.
Definition __NR_fgetxattr : Z := 193.
Definition __NR_listxattr : Z := 194.
Definition __NR_llistxattr : Z := 195.
Definition __NR_flistxattr : Z := 196.
Definition __NR_removexattr : Z := 197.
Definition __NR_lremovexattr : Z := 198.
Definition __NR_fremovexattr : Z := 199.
Definition __NR_futex : Z := 202.
Definition __NR_epoll_create : Z := 213.
Definition __NR_getdents64 : Z := 217.
Definition __NR_set_tid_address : Z := 218.
Definition __NR_clock_gettime : Z := 228.
Definition __NR_clock_nanosleep : Z := 230.
Definition __NR_exit_group : Z := 231.
Definition __NR_epoll_wait : Z := 232.
Definition __NR_epoll_ctl : Z := 233.
Definition __NR_tgkill : Z := 234.
Definition __NR_utimes : Z := 235.
Definition __NR_waitid : Z := 247.
Definition __NR_inotify_init : Z := 253.
Definition __NR_inotify_add_watch : Z := 254.
Definition __NR_inotify_rm_watch : Z := 255.
Definition __NR_openat : Z := 257.
Definition __NR_mkdirat : Z := 258.
Definition __NR_newfstatat : Z := 262.
Definition __NR_unlinkat : Z := 263.
Definition __NR_renameat : Z := 264.
Definition __NR_linkat : Z := 265.
Definition __NR_symlinkat : Z := 266.
Definition __NR_readlinkat : Z := 267.
Definition __NR_fchmodat : Z := 268.
Definition __NR_faccessat : Z := 269.
Definition __NR_pselect6 : Z := 270.
Definition __NR_ppoll : Z := 271.
Definition __NR_utimensat : Z := 280.
Definition __NR_epoll_pwait : Z := 281.
Definition __NR_timerfd_create : Z := 283.
Definition __NR_timerfd_settime : Z := 286.
Definition __NR_timerfd_gettime : Z := 287.
Definition __NR_signalfd4 : Z := 289.
Definition __NR_eventfd2 : Z := 290.
Definition __NR_epoll_create1 : Z := 291.
Definition __NR_dup3 : Z := 292.
Definition __NR_pipe2 : Z := 293.
Definition __NR_inotify_init1 : Z := 294.
Definition __NR_fanotify_init : Z := 300.
Definition __NR_fanotify_mark : Z := 301.
Definition __NR_prlimit64 : Z := 302.
Definition __NR_name_to_handle_at : Z := 303.
Definition __NR_open_by_handle_at : Z := 304.
Definition __NR_getrandom : Z := 318.

(** *** duct_errno.h: Linux error numbers *)

Definition LINUX_EPERM : Z := 1.
Definition LINUX_ENOENT : Z := 2.
Definition LINUX_ESRCH : Z := 3.
Definition LINUX_EINTR : Z := 4.
Definition LINUX_EIO : Z := 5.
Definition LINUX_ENXIO : Z := 6.
Definition LINUX_ENOEXEC : Z := 8.
Definition LINUX_EBADF : Z := 9.
Definition LINUX_ECHILD : Z := 10.
Definition LINUX_EAGAIN : Z := 11.
Definition LINUX_ENOMEM : Z := 12.
Definition LINUX_EACCES : Z := 13.
Definition LINUX_EFAULT : Z := 14.
Definition LINUX_ENOTBLK : Z := 15.
Definition LINUX_EBUSY : Z := 16.
Definition LINUX_EEXIST : Z := 17.
Definition LINUX_EXDEV : Z := 18.
Definition LINUX_ENODEV : Z := 19.
Definition LINUX_ENOTDIR : Z := 20.
Definition LINUX_EISDIR : Z := 21.
Definition LINUX_EINVAL : Z := 22.
Definition LINUX_ENFILE : Z := 23.
Definition LINUX_EMFILE : Z := 24.
Definition LINUX_ENOTTY : Z := 25.
Definition LINUX_ETXTBSY : Z := 26.
Definition LINUX_EFBIG : Z := 27.
Definition LINUX_ENOSPC : Z := 28.
Definition LINUX_ESPIPE : Z := 29.
Definition LINUX_EROFS : Z := 30.
Definition LINUX_EMLINK : Z := 31.
Definition LINUX_EPIPE : Z := 32.
Definition LINUX_EDOM : Z := 33.
Definition LINUX_ERANGE : Z := 34.
Definition LINUX_EDEADLK : Z := 35.
Definition LINUX_ENAMETOOLONG : Z := 36.
Definition LINUX_ENOLCK : Z := 37.
Definition LINUX_ENOSYS : Z := 38.
Definition LINUX_ENOTEMPTY : Z := 39.
Definition LINUX_ELOOP : Z := 40.
Definition LINUX_ENOMSG : Z := 42.
Definition LINUX_EIDRM : Z := 43.
Definition LINUX_ECHRNG : Z := 44.
Definition LINUX_ELNRNG : Z := 48.
Definition LINUX_EUNATCH : Z := 49.
Definition LINUX_ENOCSI : Z := 50.
Definition LINUX_EBADE : Z := 52.
Definition LINUX_EBADR : Z := 53.
Definition LINUX_EXFULL : Z := 54.
Definition LINUX_ENOANO : Z := 55.
Definition LINUX_EBADRQC : Z := 56.
Definition LINUX_EBADSLT : Z := 57.
Definition LINUX_EBFONT : Z := 59.
Definition LINUX_ENOSTR : Z := 60.
Definition LINUX_ENODATA : Z := 61.
Definition LINUX_ETIME : Z := 62.
Definition LINUX_ENOSR : Z := 63.
Definition LINUX_ENONET : Z := 64.
Definition LINUX_ENOPKG : Z := 65.
Definition LINUX_EREMOTE : Z := 66.
Definition LINUX_ENOLINK : Z := 67.
Definition LINUX_EADV : Z := 68.
Definition LINUX_ESRMNT : Z := 69.
Definition LINUX_ECOMM : Z := 70.
Definition LINUX_EPROTO : Z := 71.
Definition LINUX_EMULTIHOP : Z := 72.
Definition LINUX_EDOTDOT : Z := 73.
Definition LINUX_EBADMSG : Z := 74.
Definition LINUX_EOVERFLOW : Z := 75.
Definition LINUX_ENOTUNIQ : Z := 76.
Definition LINUX_EBADFD : Z := 77.
Definition LINUX_EREMCHG : Z := 78.
Definition LINUX_ELIBACC : Z := 79.
Definition LINUX_ELIBBAD : Z := 80.
Definition LINUX_ELIBSCN : Z := 81.
Definition LINUX_ELIBMAX : Z := 82.
Definition LINUX_ELIBEXEC : Z := 83.
Definition LINUX_EILSEQ : Z := 84.
Definition LINUX_ERESTART : Z := 85.
Definition LINUX_ESTRPIPE : Z := 86.
Definition LINUX_EUSERS : Z := 87.
Definition LINUX_ENOTSOCK : Z := 88.
Definition LINUX_EDESTADDRREQ : Z := 89.
Definition LINUX_EMSGSIZE : Z := 90.
Definition LINUX_EPROTOTYPE : Z := 91.
Definition LINUX_ENOPROTOOPT : Z := 92.
Definition LINUX_EPROTONOSUPPORT : Z := 93.
Definition LINUX_ESOCKTNOSUPPORT : Z := 94.
Definition LINUX_EOPNOTSUPP : Z := 95.
Definition LINUX_EPFNOSUPPORT : Z := 96.
Definition LINUX_EAFNOSUPPORT : Z := 97.
Definition LINUX_EADDRINUSE : Z := 98.
Definition LINUX_EADDRNOTAVAIL : Z := 99.
Definition LINUX_ENETDOWN : Z := 100.
Definition LINUX_ENETUNREACH : Z := 101.
Definition LINUX_ENETRESET : Z := 102.
Definition LINUX_ECONNABORTED : Z := 103.
Definition LINUX_ECONNRESET : Z := 104.
Definition LINUX_ENOBUFS : Z := 105.
Definition LINUX_EISCONN : Z := 106.
Definition LINUX_ENOTCONN : Z := 107.
Definition LINUX_ESHUTDOWN : Z := 108.
Definition LINUX_ETOOMANYREFS : Z := 109.
Definition LINUX_ETIMEDOUT : Z := 110.
Definition LINUX_ECONNREFUSED : Z := 111.
Definition LINUX_EHOSTDOWN : Z := 112.
Definition LINUX_EHOSTUNREACH : Z := 113.
Definition LINUX_EALREADY : Z := 114.
Definition LINUX_EINPROGRESS : Z := 115.
Definition LINUX_ESTALE : Z := 116.
Definition LINUX_EUCLEAN : Z := 117.
Definition LINUX_ENOTNAM : Z := 118.
Definition LINUX_ENAVAIL : Z := 119.
Definition LINUX_EISNAM : Z := 120.
Definition LINUX_EREMOTEIO : Z := 121.
Definition LINUX_EDQUOT : Z := 122.
Definition LINUX_ENOMEDIUM : Z := 123.
Definition LINUX_EMEDIUMTYPE : Z := 124.
Definition LINUX_ECANCELED : Z := 125.
Definition LINUX_ENOKEY : Z := 126.
Definition LINUX_EKEYEXPIRED : Z := 127.
Definition LINUX_EKEYREVOKED : Z := 128.
Definition LINUX_EKEYREJECTED : Z := 129.
Definition LINUX_EOWNERDEAD : Z := 130.
Definition LINUX_ENOTRECOVERABLE : Z := 131.
Definition LINUX_ERFKILL : Z := 132.
Definition LINUX_EHWPOISON : Z := 133.

(** *** common_at.h: The *at() family *)

Definition LINUX_AT_FDCWD : Z := -100.
Definition LINUX_AT_SYMLINK_NOFOLLOW : Z := 0x100.
Definition LINUX_AT_REMOVEDIR : Z := 0x200.
Definition LINUX_AT_SYMLINK_FOLLOW : Z := 0x400.
Definition BSD_AT_FDCWD : Z := -2.
Definition BSD_AT_SYMLINK_NOFOLLOW : Z := 0x20.
Definition BSD_AT_REMOVEDIR : Z := 0x80.
Definition BSD_AT_SYMLINK_FOLLOW : Z := 0x40.

(** *** fcntl/open.h: open flags *)

Definition LINUX_O_RDONLY : Z := 0.
Definition LINUX_O_WRONLY : Z := 1.
Definition LINUX_O_RDWR : Z := 2.
Definition LINUX_O_CREAT : Z := 64.
Definition LINUX_O_EXCL : Z := 128.
Definition LINUX_O_NOCTTY : Z := 256.
Definition LINUX_O_TRUNC : Z := 512.
Definition LINUX_O_APPEND : Z := 1024.
Definition LINUX_O_NONBLOCK : Z := 2048.
Definition LINUX_O_SYNC : Z := 0x101000.
Definition LINUX_O_ASYNC : Z := 8192.
Definition LINUX_O_CLOEXEC : Z := 0x80000.
Definition LINUX_O_LARGEFILE : Z := 32768.
Definition LINUX_O_NOFOLLOW : Z := 0x20000.
Definition LINUX_O_DIRECTORY : Z := 0x10000.
Definition BSD_O_RDONLY : Z := 0.
Definition BSD_O_WRONLY : Z := 1.
Definition BSD_O_RDWR : Z := 2.
Definition BSD_O_NONBLOCK : Z := 4.
Definition BSD_O_APPEND : Z := 8.
Definition BSD_O_SHLOCK : Z := 0x10.
Definition BSD_O_EXLOCK : Z := 0x20.
Definition BSD_O_ASYNC : Z := 0x40.
Definition BSD_O_NOFOLLOW : Z := 0x100.
Definition BSD_O_CREAT : Z := 0x200.
Definition BSD_O_TRUNC : Z := 0x400.
Definition BSD_O_EXCL : Z := 0x800.
Definition BSD_O_NOCTTY : Z := 0x20000.
Definition BSD_O_DIRECTORY : Z := 0x100000.
Definition BSD_O_SYMLINK : Z := 0x200000.
Definition BSD_O_CLOEXEC : Z := 0x1000000.

(** *** fcntl/fcntl.h: fcntl commands and lock types *)

Definition LINUX_F_DUPFD : Z := 0.
Definition LINUX_F_GETFD : Z := 1.
Definition LINUX_F_SETFD : Z := 2.
Definition LINUX_F_GETFL : Z := 3.
Definition LINUX_F_SETFL : Z := 4.
Definition LINUX_F_GETLK : Z := 5.
Definition LINUX_F_SETLK : Z := 6.
Definition LINUX_F_SETLKW : Z := 7.
Definition LINUX_F_SETOWN : Z := 8.
Definition LINUX_F_GETOWN : Z := 9.
Definition LINUX_F_SETSIG : Z := 10.
Definition LINUX_F_GETSIG : Z := 11.
Definition LINUX_F_GETLK64 : Z := 12.
Definition LINUX_F_SETLK64 : Z := 13.
Definition LINUX_F_SETLKW64 : Z := 14.
Definition LINUX_F_SETOWN_EX : Z := 15.
Definition LINUX_F_GETOWN_EX : Z := 16.
Definition LINUX_F_GETOWNER_UIDS : Z := 17.
Definition LINUX_F_DUPFD_CLOEXEC : Z := 1030.
Definition F_DUPFD : Z := 0.
Definition F_GETFD : Z := 1.
Definition F_SETFD : Z := 2.
Definition F_GETFL : Z := 3.
Definition F_SETFL : Z := 4.
Definition F_GETOWN : Z := 5.
Definition F_SETOWN : Z := 6.
Definition F_GETLK : Z := 7.
Definition F_SETLK : Z := 8.
Definition F_SETLKW : Z := 9.
Definition F_SETLKWTIMEOUT : Z := 10.
Definition F_FLUSH_DATA : Z := 40.
Definition F_CHKCLEAN : Z := 41.
Definition F_PREALLOCATE : Z := 42.
Definition F_SETSIZE : Z := 43.
Definition F_RDADVISE : Z := 44.
Definition F_RDAHEAD : Z := 45.
Definition F_GETPATH : Z := 50.
Definition F_FULLFSYNC : Z := 51.
Definition F_DUPFD_CLOEXEC : Z := 67.
Definition F_CHECK_LV : Z := 98.
Definition LINUX_F_RDLCK : Z := 0.
Definition LINUX_F_WRLCK : Z := 1.
Definition LINUX_F_UNLCK : Z := 2.
Definition F_RDLCK : Z := 1.
Definition F_UNLCK : Z := 2.
Definition F_WRLCK : Z := 3.
Definition FD_CLOEXEC : Z := 1.

(** *** signal/duct_signals.h: Linux signals *)

Definition LINUX_SIGHUP : Z := 1.
Definition LINUX_SIGINT : Z := 2.
Definition LINUX_SIGQUIT : Z := 3.
Definition LINUX_SIGILL : Z := 4.
Definition LINUX_SIGTRAP : Z := 5.
Definition LINUX_SIGABRT : Z := 6.
Definition LINUX_SIGBUS : Z := 7.
Definition LINUX_SIGFPE : Z := 8.
Definition LINUX_SIGKILL : Z := 9.
Definition LINUX_SIGUSR1 : Z := 10.
Definition LINUX_SIGSEGV : Z := 11.
Definition LINUX_SIGUSR2 : Z := 12.
Definition LINUX_SIGPIPE : Z := 13.
Definition LINUX_SIGALRM : Z := 14.
Definition LINUX_SIGTERM : Z := 15.
Definition LINUX_SIGSTKFLT : Z := 16.
Definition LINUX_SIGCHLD : Z := 17.
Definition LINUX_SIGCONT : Z := 18.
Definition LINUX_SIGSTOP : Z := 19.
Definition LINUX_SIGTSTP : Z := 20.
Definition LINUX_SIGTTIN : Z := 21.
Definition LINUX_SIGTTOU : Z := 22.
Definition LINUX_SIGURG : Z := 23.
Definition LINUX_SIGXCPU : Z := 24.
Definition LINUX_SIGXFSZ : Z := 25.
Definition LINUX_SIGVTALRM : Z := 26.
Definition LINUX_SIGPROF : Z := 27.
Definition LINUX_SIGWINCH : Z := 28.
Definition LINUX_SIGIO : Z := 29.
Definition LINUX_SIGPWR : Z := 30.
Definition LINUX_SIGSYS : Z := 31.
Definition LINUX_SA_NOCLDSTOP : Z := 0x1.
Definition LINUX_SA_NOCLDWAIT : Z := 0x2.
Definition LINUX_SA_SIGINFO : Z := 0x4.
Definition LINUX_SA_ONSTACK : Z := 0x8000000.
Definition LINUX_SA_RESTART : Z := 0x10000000.
Definition LINUX_SA_NODEFER : Z := 0x40000000.
Definition LINUX_SA_RESETHAND : Z := 0x80000000.
Definition LINUX_SA_RESTORER : Z := 0x4000000.

(** *** signal/sigaction.h: sigaction flags *)

Definition BSD_SA_ONSTACK : Z := 0x1.
Definition BSD_SA_RESTART : Z := 0x2.
Definition BSD_SA_RESETHAND : Z := 0x4.
Definition BSD_SA_NOCLDSTOP : Z := 0x8.
Definition BSD_SA_NODEFER : Z := 0x10.
Definition BSD_SA_NOCLDWAIT : Z := 0x20.
Definition BSD_SA_SIGINFO : Z := 0x40.

(** *** mman/duct_mman.h: Linux mman flags *)

Definition LINUX_PROT_READ : Z := 0x1.
Definition LINUX_PROT_WRITE : Z := 0x2.
Definition LINUX_PROT_EXEC : Z := 0x4.
Definition LINUX_MAP_SHARED : Z := 0x1.
Definition LINUX_MAP_PRIVATE : Z := 0x2.
Definition LINUX_MAP_FIXED : Z := 0x10.
Definition LINUX_MAP_ANONYMOUS : Z := 0x20.

(** *** mman/msync.h: msync flags *)

Definition LINUX_MS_ASYNC : Z := 1.
Definition LINUX_MS_INVALIDATE : Z := 2.
Definition LINUX_MS_SYNC : Z := 4.
Definition BSD_MS_ASYNC : Z := 1.
Definition BSD_MS_INVALIDATE : Z := 2.
Definition BSD_MS_SYNC : Z := 0x10.

(** *** network/duct.h: socket families and message flags *)

Definition LINUX_PF_LOCAL : Z := 1.
Definition LINUX_PF_INET : Z := 2.
Definition LINUX_PF_IPX : Z := 4.
Definition LINUX_PF_INET6 : Z := 10.
Definition LINUX_MSG_OOB : Z := 0x1.
Definition LINUX_MSG_PEEK : Z := 0x2.
Definition LINUX_MSG_DONTROUTE : Z := 0x4.
Definition LINUX_MSG_CTRUNC : Z := 0x8.
Definition LINUX_MSG_PROXY : Z := 0x10.
Definition LINUX_MSG_TRUNC : Z := 0x20.
Definition LINUX_MSG_DONTWAIT : Z := 0x40.
Definition LINUX_MSG_EOR : Z := 0x80.
Definition LINUX_MSG_WAITALL : Z := 0x100.
Definition LINUX_MSG_FIN : Z := 0x200.
Definition LINUX_MSG_SYN : Z := 0x400.
Definition LINUX_MSG_CONFIRM : Z := 0x800.
Definition LINUX_MSG_RST : Z := 0x1000.
Definition LINUX_MSG_ERRQUEUE : Z := 0x2000.
Definition LINUX_MSG_NOSIGNAL : Z := 0x4000.
Definition LINUX_MSG_MORE : Z := 0x8000.
Definition LINUX_MSG_WAITFORONE : Z := 0x10000.
Definition LINUX_MSG_FASTOPEN : Z := 0x20000000.
Definition LINUX_MSG_CMSG_CLOEXEC : Z := 0x40000000.
Definition BSD_MSG_OOB : Z := 0x1.
Definition BSD_MSG_PEEK : Z := 0x2.
Definition BSD_MSG_DONTROUTE : Z := 0x4.
Definition BSD_MSG_EOR : Z := 0x8.
Definition BSD_MSG_TRUNC : Z := 0x10.
Definition BSD_MSG_CTRUNC : Z := 0x20.
Definition BSD_MSG_WAITALL : Z := 0x40.
Definition BSD_MSG_DONTWAIT : Z := 0x80.
Definition BSD_MSG_EOF : Z := 0x100.
Definition BSD_MSG_WAITSTREAM : Z := 0x200.
Definition BSD_MSG_FLUSH : Z := 0x400.
Definition BSD_MSG_HOLD : Z := 0x800.
Definition BSD_MSG_SEND : Z := 0x1000.
Definition BSD_MSG_HAVEMORE : Z := 0x2000.
Definition BSD_MSG_RCVMORE : Z := 0x4000.
Definition BSD_MSG_NEEDSA : Z := 0x10000.

(** *** network/getsockopt.h: socket options *)

Definition LINUX_SOL_SOCKET : Z := 1.
Definition BSD_SOL_SOCKET : Z := 0xffff.
Definition IPPROTO_IP : Z := 0.
Definition IPPROTO_TCP : Z := 6.
Definition IPPROTO_IPV6 : Z := 41.
Definition LINUX_SO_DEBUG : Z := 1.
Definition LINUX_SO_REUSEADDR : Z := 2.
Definition LINUX_SO_TYPE : Z := 3.
Definition LINUX_SO_ERROR : Z := 4.
Definition LINUX_SO_DONTROUTE : Z := 5.
Definition LINUX_SO_BROADCAST : Z := 6.
Definition LINUX_SO_SNDBUF : Z := 7.
Definition LINUX_SO_RCVBUF : Z := 8.
Definition LINUX_SO_KEEPALIVE : Z := 9.
Definition LINUX_SO_OOBINLINE : Z := 10.
Definition LINUX_SO_NO_CHECK : Z := 11.
Definition LINUX_SO_PRIORITY : Z := 12.
Definition LINUX_SO_LINGER : Z := 13.
Definition LINUX_SO_BSDCOMPAT : Z := 14.
Definition LINUX_SO_REUSEPORT : Z := 15.
Definition LINUX_SO_PASSCRED : Z := 16.
Definition LINUX_SO_PEERCRED : Z := 17.
Definition LINUX_SO_RCVLOWAT : Z := 18.
Definition LINUX_SO_SNDLOWAT : Z := 19.
Definition LINUX_SO_RCVTIMEO : Z := 20.
Definition LINUX_SO_SNDTIMEO : Z := 21.
Definition LINUX_SO_TIMESTAMP : Z := 22.
Definition LINUX_SO_ACCEPTCONN : Z := 30.
Definition LINUX_SO_SNDBUFFORCE : Z := 32.
Definition LINUX_SO_RCVBUFFORCE : Z := 33.
Definition BSD_SO_DEBUG : Z := 1.
Definition BSD_SO_ACCEPTCONN : Z := 2.
Definition BSD_SO_REUSEADDR : Z := 4.
Definition BSD_SO_KEEPALIVE : Z := 8.
Definition BSD_SO_DONTROUTE : Z := 16.
Definition BSD_SO_BROADCAST : Z := 32.
Definition BSD_SO_USELOOPBACK : Z := 64.
Definition BSD_SO_LINGER_TICKS : Z := 128.
Definition BSD_SO_OOBINLINE : Z := 256.
Definition BSD_SO_REUSEPORT : Z := 512.
Definition BSD_SO_TIMESTAMP : Z := 1024.
Definition BSD_SO_SNDBUF : Z := 4097.
Definition BSD_SO_RCVBUF : Z := 4098.
Definition BSD_SO_SNDLOWAT : Z := 4099.
Definition BSD_SO_RCVLOWAT : Z := 4100.
Definition BSD_SO_SNDTIMEO : Z := 4101.
Definition BSD_SO_RCVTIMEO : Z := 4102.
Definition BSD_SO_ERROR : Z := 4103.
Definition BSD_SO_TYPE : Z := 4104.
Definition BSD_SO_NOSIGNAL : Z := 4130.
Definition BSD_SO_LINGER_SEC : Z := 4224.
Definition LINUX_TCP_NODELAY : Z := 1.
Definition LINUX_TCP_MAXSEG : Z := 2.
Definition LINUX_TCP_CORK : Z := 3.
Definition LINUX_TCP_KEEPIDLE : Z := 4.
Definition LINUX_TCP_KEEPINTVL : Z := 5.
Definition LINUX_TCP_KEEPCNT : Z := 6.
Definition BSD_TCP_NODELAY : Z := 1.
Definition BSD_TCP_MAXSEG : Z := 2.
Definition BSD_TCP_KEEPALIVE : Z := 16.
Definition BSD_TCP_KEEPINTVL : Z := 257.
Definition BSD_TCP_KEEPCNT : Z := 258.
Definition LINUX_IP_TOS : Z := 1.
Definition LINUX_IP_TTL : Z := 2.
Definition LINUX_IP_HDRINCL : Z := 3.
Definition LINUX_IP_OPTIONS : Z := 4.
Definition LINUX_IP_RECVOPTS : Z := 6.
Definition LINUX_IP_RETOPTS : Z := 7.
Definition LINUX_IP_RECVTTL : Z := 12.
Definition LINUX_IP_MULTICAST_IF : Z := 32.
Definition LINUX_IP_MULTICAST_TTL : Z := 33.
Definition LINUX_IP_MULTICAST_LOOP : Z := 34.
Definition LINUX_IP_ADD_MEMBERSHIP : Z := 35.
Definition LINUX_IP_DROP_MEMBERSHIP : Z := 36.
Definition BSD_IP_OPTIONS : Z := 1.
Definition BSD_IP_HDRINCL : Z := 2.
Definition BSD_IP_TOS : Z := 3.
Definition BSD_IP_TTL : Z := 4.
Definition BSD_IP_RECVOPTS : Z := 5.
Definition BSD_IP_RECVRETOPTS : Z := 6.
Definition BSD_IP_RETOPTS : Z := 7.
Definition BSD_IP_MULTICAST_IF : Z := 8.
Definition BSD_IP_MULTICAST_TTL : Z := 9.
Definition BSD_IP_MULTICAST_LOOP : Z := 10.
Definition BSD_IP_ADD_MEMBERSHIP : Z := 11.
Definition BSD_IP_DROP_MEMBERSHIP : Z := 12.
Definition BSD_IP_RECVTTL : Z := 24.
Definition LINUX_IPV6_2292PKTINFO : Z := 2.
Definition LINUX_IPV6_2292HOPOPTS : Z := 3.
Definition LINUX_IPV6_2292DSTOPTS : Z := 4.
Definition LINUX_IPV6_2292RTHDR : Z := 5.
Definition LINUX_IPV6_2292PKTOPTIONS : Z := 6.
Definition LINUX_IPV6_CHECKSUM : Z := 7.
Definition LINUX_IPV6_2292HOPLIMIT : Z := 8.
Definition LINUX_IPV6_NEXTHOP : Z := 9.
Definition LINUX_IPV6_UNICAST_HOPS : Z := 16.
Definition LINUX_IPV6_MULTICAST_IF : Z := 17.
Definition LINUX_IPV6_MULTICAST_HOPS : Z := 18.
Definition LINUX_IPV6_MULTICAST_LOOP : Z := 19.
Definition LINUX_IPV6_JOIN_GROUP : Z := 20.
Definition LINUX_IPV6_LEAVE_GROUP : Z := 21.
Definition LINUX_IPV6_V6ONLY : Z := 26.
Definition BSD_IPV6_UNICAST_HOPS : Z := 4.
Definition BSD_IPV6_MULTICAST_IF : Z := 9.
Definition BSD_IPV6_MULTICAST_HOPS : Z := 10.
Definition BSD_IPV6_MULTICAST_LOOP : Z := 11.
Definition BSD_IPV6_JOIN_GROUP : Z := 12.
Definition BSD_IPV6_LEAVE_GROUP : Z := 13.
Definition BSD_IPV6_2292PKTINFO : Z := 19.
Definition BSD_IPV6_2292HOPLIMIT : Z := 20.
Definition BSD_IPV6_2292NEXTHOP : Z := 21.
Definition BSD_IPV6_2292HOPOPTS : Z := 22.
Definition BSD_IPV6_2292DSTOPTS : Z := 23.
Definition BSD_IPV6_2292RTHDR : Z := 24.
Definition BSD_IPV6_V6ONLY : Z := 27.

(** *** process/wait4.h: wait options *)

Definition LINUX_WNOHANG : Z := 1.
Definition LINUX_WUNTRACED : Z := 2.
Definition LINUX_WSTOPPED : Z := 2.
Definition LINUX_WEXITED : Z := 4.
Definition LINUX_WCONTINUED : Z := 8.
Definition LINUX_WNOWAIT : Z := 0x1000000.
Definition BSD_WNOHANG : Z := 1.
Definition BSD_WUNTRACED : Z := 2.
Definition BSD_WEXITED : Z := 4.
Definition BSD_WSTOPPED : Z := 8.
Definition BSD_WCONTINUED : Z := 0x10.
Definition BSD_WNOWAIT : Z := 0x20.

(** *** psynch/ulock_wait.h: ulock operations *)

Definition UL_OPCODE_MASK : Z := 0xff.
Definition UL_COMPARE_AND_WAIT : Z := 1.
Definition UL_UNFAIR_LOCK : Z := 2.
Definition ULF_NO_ERRNO : Z := 0x1000000.
Definition FUTEX_WAIT : Z := 0.
Definition FUTEX_PRIVATE_FLAG : Z := 128.
Definition FUTEX_LOCK_PI : Z := 6.

(** *** psynch/ulock_wake.h: ulock wake *)

Definition ULF_WAKE_THREAD : Z := 0x200.
Definition ULF_WAKE_ALL : Z := 0x100.
Definition FUTEX_WAKE : Z := 1.

(** *** misc/sysctl_inc.h: sysctl identifiers *)

Definition CTL_UNSPEC : Z := 0.
Definition CTL_KERN : Z := 1.
Definition CTL_VM : Z := 2.
Definition CTL_VFS : Z := 3.
Definition CTL_NET : Z := 4.
Definition CTL_DEBUG : Z := 5.
Definition CTL_HW : Z := 6.
Definition CTL_MACHDEP : Z := 7.
Definition CTL_USER : Z := 8.
Definition HW_MACHINE : Z := 1.
Definition HW_MODEL : Z := 2.
Definition HW_NCPU : Z := 3.
Definition HW_BYTEORDER : Z := 4.
Definition HW_PHYSMEM : Z := 5.
Definition HW_USERMEM : Z := 6.
Definition HW_PAGESIZE : Z := 7.
Definition HW_DISKNAMES : Z := 8.
Definition HW_DISKSTATS : Z := 9.
Definition HW_EPOCH : Z := 10.
Definition HW_FLOATINGPT : Z := 11.
Definition HW_MACHINE_ARCH : Z := 12.
Definition HW_VECTORUNIT : Z := 13.
Definition HW_BUS_FREQ : Z := 14.
Definition HW_CPU_FREQ : Z := 15.
Definition HW_CACHELINE : Z := 16.
Definition HW_L1ICACHESIZE : Z := 17.
Definition HW_L1DCACHESIZE : Z := 18.
Definition HW_L2SETTINGS : Z := 19.
Definition HW_L2CACHESIZE : Z := 20.
Definition HW_L3SETTINGS : Z := 21.
Definition HW_L3CACHESIZE : Z := 22.
Definition HW_TB_FREQ : Z := 23.
Definition HW_MEMSIZE : Z := 24.
Definition HW_AVAILCPU : Z := 25.
Definition KERN_OSTYPE : Z := 1.
Definition KERN_OSRELEASE : Z := 2.
Definition KERN_OSREV : Z := 3.
Definition KERN_VERSION : Z := 4.
Definition KERN_MAXVNODES : Z := 5.
Definition KERN_MAXPROC : Z := 6.
Definition KERN_MAXFILES : Z := 7.
Definition KERN_ARGMAX : Z := 8.
Definition KERN_SECURELVL : Z := 9.
Definition KERN_HOSTNAME : Z := 10.
Definition KERN_HOSTID : Z := 11.
Definition KERN_CLOCKRATE : Z := 12.
Definition KERN_VNODE : Z := 13.
Definition KERN_PROC : Z := 14.
Definition KERN_FILE : Z := 15.
Definition KERN_PROF : Z := 16.
Definition KERN_POSIX1 : Z := 17.
Definition KERN_NGROUPS : Z := 18.
Definition KERN_JOB_CONTROL : Z := 19.
Definition KERN_SAVED_IDS : Z := 20.
Definition KERN_BOOTTIME : Z := 21.
Definition KERN_NISDOMAINNAME : Z := 22.
Definition KERN_DOMAINNAME : Z := 22.
Definition KERN_MAXPARTITIONS : Z := 23.
Definition KERN_KDEBUG : Z := 24.
Definition KERN_UPDATEINTERVAL : Z := 25.
Definition KERN_OSRELDATE : Z := 26.
Definition KERN_NTP_PLL : Z := 27.
Definition KERN_BOOTFILE : Z := 28.
Definition KERN_MAXFILESPERPROC : Z := 29.
Definition KERN_MAXPROCPERUID : Z := 30.
Definition KERN_DUMPDEV : Z := 31.
Definition KERN_IPC : Z := 32.
Definition KERN_DUMMY : Z := 33.
Definition KERN_PS_STRINGS : Z := 34.
Definition KERN_USRSTACK32 : Z := 35.
Definition KERN_LOGSIGEXIT : Z := 36.
Definition KERN_SYMFILE : Z := 37.
Definition KERN_PROCARGS : Z := 38.
Definition KERN_NETBOOT : Z := 40.
Definition KERN_SYSV : Z := 42.
Definition KERN_AFFINITY : Z := 43.
Definition KERN_TRANSLATE : Z := 44.
Definition KERN_CLASSIC : Z := 44.
Definition KERN_EXEC : Z := 45.
Definition KERN_CLASSICHANDLER : Z := 45.
Definition KERN_AIOMAX : Z := 46.
Definition KERN_AIOPROCMAX : Z := 47.
Definition KERN_AIOTHREADS : Z := 48.
Definition KERN_PROCARGS2 : Z := 49.
Definition KERN_COREFILE : Z := 50.
Definition KERN_COREDUMP : Z := 51.
Definition KERN_SUGID_COREDUMP : Z := 52.
Definition KERN_PROCDELAYTERM : Z := 53.
Definition KERN_SHREG_PRIVATIZABLE : Z := 54.
Definition KERN_LOW_PRI_WINDOW : Z := 56.
Definition KERN_LOW_PRI_DELAY : Z := 57.
Definition KERN_POSIX : Z := 58.
Definition KERN_USRSTACK64 : Z := 59.
Definition KERN_NX_PROTECTION : Z := 60.
Definition KERN_TFP : Z := 61.
Definition KERN_PROCNAME : Z := 62.
Definition KERN_THALTSTACK : Z := 63.
Definition KERN_SPECULATIVE_READS : Z := 64.
Definition KERN_OSVERSION : Z := 65.
Definition KERN_SAFEBOOT : Z := 66.
Definition KERN_LCTX : Z := 67.
Definition KERN_RAGEVNODE : Z := 68.
Definition KERN_TTY : Z := 69.
Definition KERN_CHECKOPENEVT : Z := 70.
Definition KERN_THREADNAME : Z := 71.
Definition KERN_PROC_ALL : Z := 0.
Definition KERN_PROC_PID : Z := 1.
Definition KERN_PROC_PGRP : Z := 2.
Definition KERN_PROC_SESSION : Z := 3.
Definition KERN_PROC_TTY : Z := 4.
Definition KERN_PROC_UID : Z := 5.
Definition KERN_PROC_RUID : Z := 6.
Definition KERN_PROC_LCID : Z := 7.

(** *** ext/syslog.h: syslog actions *)

Definition SYSLOG_ACTION_READ_ALL : Z := 3.
Definition SYSLOG_ACTION_SIZE_BUFFER : Z := 10.

(** *** misc/getrlimit.h: resource limits *)

Definition LINUX_RLIMIT_CPU : Z := 0.
Definition LINUX_RLIMIT_FSIZE : Z := 1.
Definition LINUX_RLIMIT_DATA : Z := 2.
Definition LINUX_RLIMIT_STACK : Z := 3.
Definition LINUX_RLIMIT_CORE : Z := 4.
Definition LINUX_RLIMIT_RSS : Z := 5.
Definition LINUX_RLIMIT_NPROC : Z := 6.
Definition LINUX_RLIMIT_NOFILE : Z := 7.
Definition LINUX_RLIMIT_MEMLOCK : Z := 8.
Definition LINUX_RLIMIT_AS : Z := 9.
Definition LINUX_RLIMIT_LOCKS : Z := 10.
Definition LINUX_RLIMIT_SIGPENDING : Z := 11.
Definition LINUX_RLIMIT_MSGQUEUE : Z := 12.
Definition LINUX_RLIMIT_NICE : Z := 13.
Definition LINUX_RLIMIT_RTPRIO : Z := 14.
Definition LINUX_RLIMIT_RTTIME : Z := 15.
Definition BSD_RLIMIT_CPU : Z := 0.
Definition BSD_RLIMIT_FSIZE : Z := 1.
Definition BSD_RLIMIT_DATA : Z := 2.
Definition BSD_RLIMIT_STACK : Z := 3.
Definition BSD_RLIMIT_CORE : Z := 4.
Definition BSD_RLIMIT_AS : Z := 5.
Definition BSD_RLIMIT_MEMLOCK : Z := 6.
Definition BSD_RLIMIT_NPROC : Z := 7.
Definition BSD_RLIMIT_NOFILE : Z := 8.
Definition BSD_RLIMIT_POSIX : Z := 4096.

(** *** ioctl/ioctl.h: generic ioctls *)

Definition IOCTL_PASS : Z := 0.
Definition IOCTL_HANDLED : Z := 1.
Definition BSD_FIOCLEX : Z := 0x20006601.
Definition BSD_FIONCLEX : Z := 0x20006602.
Definition BSD_FIONREAD : Z := 0x4004667f.
Definition BSD_FIONBIO : Z := 0x8004667e.
Definition BSD_FIOASYNC : Z := 0x8004667d.
Definition BSD_FIOSETOWN : Z := 0x8004667c.
Definition BSD_FIOGETOWN : Z := 0x4004667b.
Definition BSD_FIODTYPE : Z := 0x4004667a.

(** *** ioctl/termios.h: terminal ioctls *)

Definition BSD_VEOF : Z := 0.
Definition BSD_VEOL : Z := 1.
Definition BSD_VEOL2 : Z := 2.
Definition BSD_VERASE : Z := 3.
Definition BSD_VWERASE : Z := 4.
Definition BSD_VKILL : Z := 5.
Definition BSD_VREPRINT : Z := 6.
Definition BSD_VINTR : Z := 8.
Definition BSD_VQUIT : Z := 9.
Definition BSD_VSUSP : Z := 10.
Definition BSD_VDSUSP : Z := 11.
Definition BSD_VSTART : Z := 12.
Definition BSD_VSTOP : Z := 13.
Definition BSD_VLNEXT : Z := 14.
Definition BSD_VDISCARD : Z := 15.
Definition BSD_VMIN : Z := 16.
Definition BSD_VTIME : Z := 17.
Definition BSD_VSTATUS : Z := 18.
Definition LINUX_VINTR : Z := 0.
Definition LINUX_VQUIT : Z := 1.
Definition LINUX_VERASE : Z := 2.
Definition LINUX_VKILL : Z := 3.
Definition LINUX_VEOF : Z := 4.
Definition LINUX_VTIME : Z := 5.
Definition LINUX_VMIN : Z := 6.
Definition LINUX_VSWTC : Z := 7.
Definition LINUX_VSTART : Z := 8.
Definition LINUX_VSTOP : Z := 9.
Definition LINUX_VSUSP : Z := 10.
Definition LINUX_VEOL : Z := 11.
Definition LINUX_VREPRINT : Z := 12.
Definition LINUX_VDISCARD : Z := 13.
Definition LINUX_VWERASE : Z := 14.
Definition LINUX_VLNEXT : Z := 15.
Definition LINUX_VEOL2 : Z := 16.
Definition BSD_TIOCMODG : Z := 0x40047403.
Definition BSD_TIOCMODS : Z := 0x80047404.
Definition BSD_TIOCEXCL : Z := 0x2000740d.
Definition BSD_TIOCNXCL : Z := 0x2000740e.
Definition BSD_TIOCFLUSH : Z := 0x80047410.
Definition BSD_TIOCGETA : Z := 0x40487413.
Definition BSD_TIOCSETA : Z := 0x80487414.
Definition BSD_TIOCSETAW : Z := 0x80487415.
Definition BSD_TIOCSETAF : Z := 0x80487416.
Definition BSD_TIOCGETD : Z := 0x4004741a.
Definition BSD_TIOCSETD : Z := 0x8004741b.
Definition BSD_TIOCIXON : Z := 0x20007481.
Definition BSD_TIOCIXOFF : Z := 0x20007480.
Definition BSD_TIOCISATTY : Z := 0x2000745e.
Definition BSD_TIOCGETP : Z := 0x40067408.
Definition BSD_TIOCSETP : Z := 0x80067409.
Definition BSD_TIOCGETC : Z := 0x40067412.
Definition BSD_TIOCSETC : Z := 0x80067411.
Definition BSD_TIOCSBRK : Z := 0x2000747b.
Definition BSD_TIOCCBRK : Z := 0x2000747a.
Definition BSD_TIOCSDTR : Z := 0x20007479.
Definition BSD_TIOCCDTR : Z := 0x20007478.
Definition BSD_TIOCGPGRP : Z := 0x40047477.
Definition BSD_TIOCSPGRP : Z := 0x80047476.
Definition BSD_TIOCOUTQ : Z := 0x40047473.
Definition BSD_TIOCSTI : Z := 0x80017472.
Definition BSD_TIOCNOTTY : Z := 0x20007471.
Definition BSD_TIOCSTOP : Z := 0x2000746f.
Definition BSD_TIOCSTART : Z := 0x2000746e.
Definition BSD_TIOCMSET : Z := 0x8004746d.
Definition BSD_TIOCMBIS : Z := 0x8004746c.
Definition BSD_TIOCMBIC : Z := 0x8004746b.
Definition BSD_TIOCMGET : Z := 0x4004746a.
Definition BSD_TIOCREMOTE : Z := 0x80047469.
Definition BSD_TIOCGWINSZ : Z := 0x40087468.
Definition BSD_TIOCSWINSZ : Z := 0x80087467.
Definition BSD_TIOCUCNTL : Z := 0x80047466.
Definition BSD_TIOCSTAT : Z := 0x20007465.
Definition BSD_TIOCSCONS : Z := 0x20007463.
Definition BSD_TIOCCONS : Z := 0x80047462.
Definition BSD_TIOCSCTTY : Z := 0x20007461.
Definition BSD_TIOCEXT : Z := 0x80047460.
Definition BSD_TIOCSIG : Z := 0x2000745f.
Definition BSD_TIOCDRAIN : Z := 0x2000745e.
Definition BSD_TIOCMSDTRWAIT : Z := 0x8004745b.
Definition BSD_TIOCMGDTRWAIT : Z := 0x4004745a.
Definition BSD_TIOCSDRAINWAIT : Z := 0x80047457.
Definition BSD_TIOCGDRAINWAIT : Z := 0x40047456.
Definition BSD_TIOCPTYGRANT : Z := 0x20007454.
Definition BSD_TIOCPTYGNAME : Z := 0x40807453.
Definition BSD_TIOCPTYUNLK : Z := 0x20007452.
Definition BSD_TIOCGLTC : Z := 0x40067474.
Definition BSD_TIOCSLTC : Z := 0x80067475.
Definition BSD_IGNBRK : Z := 0x1.
Definition BSD_BRKINT : Z := 0x2.
Definition BSD_IGNPAR : Z := 0x4.
Definition BSD_PARMRK : Z := 0x8.
Definition BSD_INPCK : Z := 0x10.
Definition BSD_ISTRIP : Z := 0x20.
Definition BSD_INLCR : Z := 0x40.
Definition BSD_IGNCR : Z := 0x80.
Definition BSD_ICRNL : Z := 0x100.
Definition BSD_IXON : Z := 0x200.
Definition BSD_IXOFF : Z := 0x400.
Definition BSD_IXANY : Z := 0x800.
Definition BSD_IMAXBEL : Z := 0x2000.
Definition BSD_IUTF8 : Z := 0x4000.
Definition BSD_OPOST : Z := 0x1.
Definition BSD_ONLCR : Z := 0x2.
Definition BSD_OXTABS : Z := 0x4.
Definition BSD_ONOEOT : Z := 0x8.
Definition BSD_CIGNORE : Z := 0x1.
Definition BSD_CSIZE : Z := 0x300.
Definition BSD_CS5 : Z := 0x0.
Definition BSD_CS6 : Z := 0x100.
Definition BSD_CS7 : Z := 0x200.
Definition BSD_CS8 : Z := 0x300.
Definition BSD_CSTOPB : Z := 0x400.
Definition BSD_CREAD : Z := 0x800.
Definition BSD_PARENB : Z := 0x1000.
Definition BSD_PARODD : Z := 0x2000.
Definition BSD_HUPCL : Z := 0x4000.
Definition BSD_CLOCAL : Z := 0x8000.
Definition BSD_CCTS_OFLOW : Z := 0x10000.
Definition BSD_CRTS_IFLOW : Z := 0x20000.
Definition BSD_CDTR_IFLOW : Z := 0x40000.
Definition BSD_CDSR_OFLOW : Z := 0x80000.
Definition BSD_CCAR_OFLOW : Z := 0x100000.
Definition BSD_MDMBUF : Z := 0x100000.
Definition BSD_ECHOKE : Z := 0x1.
Definition BSD_ECHOE : Z := 0x2.
Definition BSD_ECHOK : Z := 0x4.
Definition BSD_ECHO : Z := 0x8.
Definition BSD_ECHONL : Z := 0x10.
Definition BSD_ECHOPRT : Z := 0x20.
Definition BSD_ECHOCTL : Z := 0x40.
Definition BSD_ISIG : Z := 0x80.
Definition BSD_ICANON : Z := 0x100.
Definition BSD_ALTWERASE : Z := 0x200.
Definition BSD_IEXTEN : Z := 0x400.
Definition BSD_EXTPROC : Z := 0x800.
Definition BSD_TOSTOP : Z := 0x400000.
Definition BSD_FLUSHO : Z := 0x800000.
Definition BSD_NOKERNINFO : Z := 0x2000000.
Definition BSD_PENDIN : Z := 0x20000000.
Definition BSD_NOFLSH : Z := 0x80000000.
Definition BSD_B0 : Z := 0.
Definition BSD_B50 : Z := 50.
Definition BSD_B75 : Z := 75.
Definition BSD_B110 : Z := 110.
Definition BSD_B134 : Z := 134.
Definition BSD_B150 : Z := 150.
Definition BSD_B200 : Z := 200.
Definition BSD_B300 : Z := 300.
Definition BSD_B600 : Z := 600.
Definition BSD_B1200 : Z := 1200.
Definition BSD_B1800 : Z := 1800.
Definition BSD_B2400 : Z := 2400.
Definition BSD_B4800 : Z := 4800.
Definition BSD_B9600 : Z := 9600.
Definition BSD_B19200 : Z := 19200.
Definition BSD_B38400 : Z := 38400.
Definition BSD_B7200 : Z := 7200.
Definition BSD_B14400 : Z := 14400.
Definition BSD_B28800 : Z := 28800.
Definition BSD_B57600 : Z := 57600.
Definition BSD_B76800 : Z := 0x12c00.
Definition BSD_B115200 : Z := 0x1c200.
Definition BSD_B230400 : Z := 0x38400.
Definition LINUX_TCGETS : Z := 0x5401.
Definition LINUX_TCSETS : Z := 0x5402.
Definition LINUX_TCSETSW : Z := 0x5403.
Definition LINUX_TCSETSF : Z := 0x5404.
Definition LINUX_TCGETA : Z := 0x5405.
Definition LINUX_TCSETA : Z := 0x5406.
Definition LINUX_TCSETAW : Z := 0x5407.
Definition LINUX_TCSETAF : Z := 0x5408.
Definition LINUX_TCSBRK : Z := 0x5409.
Definition LINUX_TCXONC : Z := 0x540a.
Definition LINUX_TCFLSH : Z := 0x540b.
Definition LINUX_TIOCEXCL : Z := 0x540c.
Definition LINUX_TIOCNXCL : Z := 0x540d.
Definition LINUX_TIOCSCTTY : Z := 0x540e.
Definition LINUX_TIOCGPGRP : Z := 0x540f.
Definition LINUX_TIOCSPGRP : Z := 0x5410.
Definition LINUX_TIOCOUTQ : Z := 0x5411.
Definition LINUX_TIOCSTI : Z := 0x5412.
Definition LINUX_TIOCGWINSZ : Z := 0x5413.
Definition LINUX_TIOCSWINSZ : Z := 0x5414.
Definition LINUX_TIOCMGET : Z := 0x5415.
Definition LINUX_TIOCMBIS : Z := 0x5416.
Definition LINUX_TIOCMBIC : Z := 0x5417.
Definition LINUX_TIOCMSET : Z := 0x5418.
Definition LINUX_TIOCGSOFTCAR : Z := 0x5419.
Definition LINUX_TIOCSSOFTCAR : Z := 0x541a.
Definition LINUX_FIONREAD : Z := 0x541b.
Definition LINUX_TIOCLINUX : Z := 0x541c.
Definition LINUX_TIOCCONS : Z := 0x541d.
Definition LINUX_TIOCGSERIAL : Z := 0x541e.
Definition LINUX_TIOCSSERIAL : Z := 0x541f.
Definition LINUX_FIONBIO : Z := 0x5421.
Definition LINUX_TIOCNOTTY : Z := 0x5422.
Definition LINUX_TIOCSETD : Z := 0x5423.
Definition LINUX_TIOCGETD : Z := 0x5424.
Definition LINUX_TIOCSBRK : Z := 0x5425.
Definition LINUX_TIOCCBRK : Z := 0x5426.
Definition LINUX_TIOCSTOP : Z := 29807.
Definition LINUX_TIOCSTART : Z := 29806.
Definition LINUX_IGNBRK : Z := 1.
Definition LINUX_BRKINT : Z := 2.
Definition LINUX_IGNPAR : Z := 4.
Definition LINUX_PARMRK : Z := 8.
Definition LINUX_INPCK : Z := 16.
Definition LINUX_ISTRIP : Z := 32.
Definition LINUX_INLCR : Z := 64.
Definition LINUX_IGNCR : Z := 128.
Definition LINUX_ICRNL : Z := 256.
Definition LINUX_IUCLC : Z := 512.
Definition LINUX_IXON : Z := 1024.
Definition LINUX_IXANY : Z := 2048.
Definition LINUX_IXOFF : Z := 4096.
Definition LINUX_IMAXBEL : Z := 8192.
Definition LINUX_IUTF8 : Z := 16384.
Definition LINUX_OPOST : Z := 1.
Definition LINUX_OLCUC : Z := 2.
Definition LINUX_ONLCR : Z := 4.
Definition LINUX_OCRNL : Z := 8.
Definition LINUX_ONOCR : Z := 16.
Definition LINUX_ONLRET : Z := 32.
Definition LINUX_OFILL : Z := 64.
Definition LINUX_OFDEL : Z := 128.
Definition LINUX_VTDLY : Z := 16384.
Definition LINUX_VT0 : Z := 0.
Definition LINUX_VT1 : Z := 16384.
Definition LINUX_XTABS : Z := 6144.
Definition LINUX_CSIZE : Z := 48.
Definition LINUX_CS5 : Z := 0.
Definition LINUX_CS6 : Z := 16.
Definition LINUX_CS7 : Z := 32.
Definition LINUX_CS8 : Z := 48.
Definition LINUX_CSTOPB : Z := 64.
Definition LINUX_CREAD : Z := 128.
Definition LINUX_PARENB : Z := 256.
Definition LINUX_PARODD : Z := 512.
Definition LINUX_HUPCL : Z := 1024.
Definition LINUX_CLOCAL : Z := 2048.
Definition LINUX_ISIG : Z := 1.
Definition LINUX_ICANON : Z := 2.
Definition LINUX_XCASE : Z := 4.
Definition LINUX_ECHO : Z := 8.
Definition LINUX_ECHOE : Z := 16.
Definition LINUX_ECHOK : Z := 32.
Definition LINUX_ECHONL : Z := 64.
Definition LINUX_NOFLSH : Z := 128.
Definition LINUX_TOSTOP : Z := 256.
Definition LINUX_ECHOCTL : Z := 512.
Definition LINUX_ECHOPRT : Z := 1024.
Definition LINUX_ECHOKE : Z := 2048.
Definition LINUX_FLUSHO : Z := 4096.
Definition LINUX_PENDIN : Z := 16384.
Definition LINUX_IEXTEN : Z := 32768.
Definition LINUX_EXTPROC : Z := 0x10000.
Definition LINUX_CBAUD : Z := 4111.
Definition LINUX_B0 : Z := 0.
Definition LINUX_B50 : Z := 1.
Definition LINUX_B75 : Z := 2.
Definition LINUX_B110 : Z := 3.
Definition LINUX_B134 : Z := 4.
Definition LINUX_B150 : Z := 5.
Definition LINUX_B200 : Z := 6.
Definition LINUX_B300 : Z := 7.
Definition LINUX_B600 : Z := 8.
Definition LINUX_B1200 : Z := 9.
Definition LINUX_B1800 : Z := 10.
Definition LINUX_B2400 : Z := 11.
Definition LINUX_B4800 : Z := 12.
Definition LINUX_B9600 : Z := 13.
Definition LINUX_B19200 : Z := 14.
Definition LINUX_B38400 : Z := 15.
Definition LINUX_CBAUDEX : Z := 4096.
Definition LINUX_B57600 : Z := 4097.
Definition LINUX_B115200 : Z := 4098.
Definition LINUX_B230400 : Z := 4099.
Definition LINUX_POSIX_VDISABLE : Z := 0.
Definition BSD_POSIX_VDISABLE : Z := 255.
Definition LINUX_TIOCSPTLCK : Z := 0x40045431.
Definition LINUX_TIOCGPTN : Z := 0x80045430.
Definition BSD_TCIFLUSH : Z := 1.
Definition BSD_TCOFLUSH : Z := 2.
Definition BSD_TCIOFLUSH : Z := 3.
Definition LINUX_TCIFLUSH : Z := 0.
Definition LINUX_TCOFLUSH : Z := 1.
Definition LINUX_TCIOFLUSH : Z := 2.
Definition BSD_FREAD : Z := 1.
Definition BSD_FWRITE : Z := 2.

(** ** Constants of the Darwin headers *)

(** *** Darwin error numbers (<sys/errno.h>) *)

Definition EPERM : Z := 1.
Definition ENOENT : Z := 2.
Definition ESRCH : Z := 3.
Definition EINTR : Z := 4.
Definition EIO : Z := 5.
Definition ENXIO : Z := 6.
Definition E2BIG : Z := 7.
Definition ENOEXEC : Z := 8.
Definition EBADF : Z := 9.
Definition ECHILD : Z := 10.
Definition EDEADLK : Z := 11.
Definition ENOMEM : Z := 12.
Definition EACCES : Z := 13.
Definition EFAULT : Z := 14.
Definition ENOTBLK : Z := 15.
Definition EBUSY : Z := 16.
Definition EEXIST : Z := 17.
Definition EXDEV : Z := 18.
Definition ENODEV : Z := 19.
Definition ENOTDIR : Z := 20.
Definition EISDIR : Z := 21.
Definition EINVAL : Z := 22.
Definition ENFILE : Z := 23.
Definition EMFILE : Z := 24.
Definition ENOTTY : Z := 25.
Definition ETXTBSY : Z := 26.
Definition EFBIG : Z := 27.
Definition ENOSPC : Z := 28.
Definition ESPIPE : Z := 29.
Definition EROFS : Z := 30.
Definition EMLINK : Z := 31.
Definition EPIPE : Z := 32.
Definition EDOM : Z := 33.
Definition ERANGE : Z := 34.
Definition EAGAIN : Z := 35.
Definition EINPROGRESS : Z := 36.
Definition EALREADY : Z := 37.
Definition ENOTSOCK : Z := 38.
Definition EDESTADDRREQ : Z := 39.
Definition EMSGSIZE : Z := 40.
Definition EPROTOTYPE : Z := 41.
Definition ENOPROTOOPT : Z := 42.
Definition EPROTONOSUPPORT : Z := 43.
Definition ESOCKTNOSUPPORT : Z := 44.
Definition ENOTSUP : Z := 45.
Definition EPFNOSUPPORT : Z := 46.
Definition EAFNOSUPPORT : Z := 47.
Definition EADDRINUSE : Z := 48.
Definition EADDRNOTAVAIL : Z := 49.
Definition ENETDOWN : Z := 50.
Definition ENETUNREACH : Z := 51.
Definition ENETRESET : Z := 52.
Definition ECONNABORTED : Z := 53.
Definition ECONNRESET : Z := 54.
Definition ENOBUFS : Z := 55.
Definition EISCONN : Z := 56.
Definition ENOTCONN : Z := 57.
Definition ESHUTDOWN : Z := 58.
Definition ETOOMANYREFS : Z := 59.
Definition ETIMEDOUT : Z := 60.
Definition ECONNREFUSED : Z := 61.
Definition ELOOP : Z := 62.
Definition ENAMETOOLONG : Z := 63.
Definition EHOSTDOWN : Z := 64.
Definition EHOSTUNREACH : Z := 65.
Definition ENOTEMPTY : Z := 66.
Definition EUSERS : Z := 68.
Definition EDQUOT : Z := 69.
Definition ESTALE : Z := 70.
Definition EREMOTE : Z := 71.
Definition ENOLCK : Z := 77.
Definition ENOSYS : Z := 78.
Definition EOVERFLOW : Z := 84.
Definition ECANCELED : Z := 89.
Definition EIDRM : Z := 90.
Definition ENOMSG : Z := 91.
Definition EILSEQ : Z := 92.
Definition EBADMSG : Z := 94.
Definition EMULTIHOP : Z := 95.
Definition ENODATA : Z := 96.
Definition ENOLINK : Z := 97.
Definition ENOSR : Z := 98.
Definition ENOSTR : Z := 99.
Definition EPROTO : Z := 100.
Definition ETIME : Z := 101.
Definition EOPNOTSUPP : Z := 102.

(** *** Darwin signals (<sys/signal.h>) *)

Definition SIGHUP : Z := 1.
Definition SIGINT : Z := 2.
Definition SIGQUIT : Z := 3.
Definition SIGILL : Z := 4.
Definition SIGTRAP : Z := 5.
Definition SIGABRT : Z := 6.
Definition SIGEMT : Z := 7.
Definition SIGFPE : Z := 8.
Definition SIGKILL : Z := 9.
Definition SIGBUS : Z := 10.
Definition SIGSEGV : Z := 11.
Definition SIGSYS : Z := 12.
Definition SIGPIPE : Z := 13.
Definition SIGALRM : Z := 14.
Definition SIGTERM : Z := 15.
Definition SIGURG : Z := 16.
Definition SIGSTOP : Z := 17.
Definition SIGTSTP : Z := 18.
Definition SIGCONT : Z := 19.
Definition SIGCHLD : Z := 20.
Definition SIGTTIN : Z := 21.
Definition SIGTTOU : Z := 22.
Definition SIGIO : Z := 23.
Definition SIGXCPU : Z := 24.
Definition SIGXFSZ : Z := 25.
Definition SIGVTALRM : Z := 26.
Definition SIGPROF : Z := 27.
Definition SIGWINCH : Z := 28.
Definition SIGINFO : Z := 29.
Definition SIGUSR1 : Z := 30.
Definition SIGUSR2 : Z := 31.

(** *** Darwin sockets and memory (<sys/socket.h>, <sys/un.h>, <sys/mman.h>, <sys/sockio.h>) *)

Definition PF_LOCAL : Z := 1.
Definition PF_INET : Z := 2.
Definition PF_IPX : Z := 23.
Definition PF_INET6 : Z := 30.
Definition LOCAL_PEERCRED : Z := 1.
Definition PROT_READ : Z := 1.
Definition PROT_WRITE : Z := 2.
Definition PROT_EXEC : Z := 4.
Definition MAP_SHARED : Z := 1.
Definition MAP_PRIVATE : Z := 2.
Definition MAP_FIXED : Z := 16.
Definition MAP_ANON : Z := 4096.
Definition SIOCSIFFLAGS : Z := 0x80206910.
Definition SIOCGIFFLAGS : Z := 0xc0206911.
Definition SIOCAIFADDR : Z := 0x8040691a.
Definition SIOCAIFADDR_IN6 : Z := 0x8080691a.
