(* ===== verification/Linux.v ===== *)
(** * The host: Linux system calls, the Darling kernel module, process state

    [linux_syscall] (base.h) and [lkm_call] (mach/lkm.h) are the only ways the
    emulation layer talks to the outside.  Neither the Linux kernel nor the
    kernel module is part of the repository, so a call is a request with an
    unconstrained response, and the emulation code is a tree of requests
    ([prog]).  Contracts of the two kernels are stated as protocols and used
    as hypotheses where a property needs them. *)
From S2P Require Import Prelude Abi.

(** ** Structures of the Linux ABI *)

Record linux_stat := LinuxStat {
  lst_dev : Z; lst_ino : Z; lst_nlink : Z; lst_mode : Z; lst_uid : Z; lst_gid : Z;
  lst_rdev : Z; lst_size : Z; lst_blksize : Z; lst_blocks : Z;
  lst_atime : Z; lst_atime_nsec : Z; lst_mtime : Z; lst_mtime_nsec : Z;
  lst_ctime : Z; lst_ctime_nsec : Z }.

Record linux_statfs64 := LinuxStatfs64 {
  lf_type : Z; lf_bsize : Z; lf_blocks : Z; lf_bfree : Z; lf_bavail : Z;
  lf_files : Z; lf_ffree : Z; lf_fsid : Z; lf_namelen : Z; lf_frsize : Z; lf_flags : Z }.

Record linux_dirent64 := LinuxDirent64 {
  ld_ino : Z; ld_off : Z; ld_reclen : Z; ld_type : Z; ld_name : cstr }.

Record linux_flock := LinuxFlock {
  ll_type : Z; ll_whence : Z; ll_start : Z; ll_len : Z; ll_pid : Z }.

Record linux_termios := LinuxTermios {
  lt_iflag : Z; lt_oflag : Z; lt_cflag : Z; lt_lflag : Z; lt_line : Z;
  lt_cc : list Z; lt_ispeed : Z; lt_ospeed : Z }.

(** Handler and restorer fields are code addresses. *)
Record linux_sigaction := LinuxSigaction {
  la_sigaction : Z; la_flags : Z; la_restorer : Z; la_mask : Z }.

Record linux_stack := LinuxStack { lk_sp : Z; lk_flags : Z; lk_size : Z }.

Record timespec := Timespec { tv_sec : Z; tv_nsec : Z }.

Record timeval := Timeval { tv_s : Z; tv_usec : Z }.

Record linux_cmsghdr := LinuxCmsghdr {
  lc_len : Z; lc_level : Z; lc_type : Z; lc_data : list ascii }.

Record linux_msghdr := LinuxMsghdr {
  lm_name : option (list ascii); lm_namelen : Z; lm_iov : Z; lm_iovlen : Z;
  lm_control : option (list linux_cmsghdr); lm_controllen : Z; lm_flags : Z }.

Record linux_utsname := LinuxUtsname {
  un_sysname : cstr; un_nodename : cstr; un_release : cstr; un_version : cstr;
  un_machine : cstr; un_domainname : cstr }.

Record itimerval := Itimerval { it_interval : timeval; it_value : timeval }.

(** A name of 16 bytes and the 16 bytes of the address in the union. *)
Record linux_ifreq := LinuxIfreq { lifr_name : list ascii; lifr_addr : list ascii }.

(** ** Structures the kernel module gets *)

Record bsd_thread_state := BsdThreadState {
  ss_rax : Z; ss_rbx : Z; ss_rcx : Z; ss_rdx : Z; ss_rdi : Z; ss_rsi : Z; ss_rbp : Z; ss_rsp : Z;
  ss_r8 : Z; ss_r9 : Z; ss_r10 : Z; ss_r11 : Z; ss_r12 : Z; ss_r13 : Z; ss_r14 : Z; ss_r15 : Z;
  ss_rip : Z; ss_rflags : Z; ss_cs : Z; ss_fs : Z; ss_gs : Z }.

(** [si_pid] and [si_uid] share their storage with [si_addr]. *)
Record linux_siginfo := LinuxSiginfo {
  lsi_signo : Z; lsi_errno : Z; lsi_code : Z; lsi_addr : Z; lsi_value : Z }.

(** [x86_float_state64_t], as far as the code assigns it. *)
Record x86_float_state64_t := FloatState {
  fpu_fcw : Z; fpu_fsw : Z; fpu_ftw : Z; fpu_fop : Z; fpu_ip : Z; fpu_cs : Z; fpu_dp : Z; fpu_ds : Z;
  fpu_mxcsr : Z; fpu_mxcsrmask : Z; fpu_stmm0 : list ascii; fpu_xmm0 : list ascii }.

(** [struct thread_state] and [struct sigprocess_args]. *)
Definition thread_state : Set := bsd_thread_state * x86_float_state64_t.
Definition sigprocess_args : Set := Z * linux_siginfo * thread_state.

(** ** Requests *)

(** Arguments of a system call.  [AInt] is an integer, or an address of the
    caller that is passed on unread; the other constructors are pointers to
    data that the emulation layer built or looked at. *)
Inductive arg : Set :=
| AInt (z : Z)
| ANull
| AStr (s : cstr)
| ABuf (b : list ascii)
| AArgv (l : list cstr)
| ACell (z : Z)
| ASigset (z : Z)
| AFlock (f : linux_flock)
| ATermios (t : linux_termios)
| ASigaction (a : linux_sigaction)
| AStack (s : linux_stack)
| ATimespec (t : timespec)
| ATimeval (t : timeval)
| AMsghdr (m : linux_msghdr)
| ALinger (onoff linger : Z)
| ARlimit (cur max : Z)
| AItimerval (i : itimerval)
| AIfreq (name : list ascii).

(** What a system call writes to memory the emulation layer reads back. *)
Inductive outk : Set -> Set :=
| OInt : outk Z
| OBytes (size : Z) : outk (list ascii)
| OStat : outk linux_stat
| OStatfs : outk linux_statfs64
| ODirents (size : Z) : outk (list linux_dirent64)
| OFlock : outk linux_flock
| OTermios : outk linux_termios
| OSigaction : outk linux_sigaction
| OSigset : outk Z
| OStack : outk linux_stack
| OMsghdr : outk linux_msghdr
| OSockaddr (len : Z) : outk (list ascii * Z)
| OLinger : outk (Z * Z)
| OTimeval : outk timeval
| ORlimit : outk (Z * Z)
| OUtsname : outk linux_utsname
| OUptime : outk Z
| OItimerval : outk itimerval
| OIfreqs (size : Z) : outk (list linux_ifreq)
| OIfreq : outk linux_ifreq
| OSiginfo : outk (Z * Z)
| OXattr (size : Z) : outk (list ascii).

(** Calls into the Darling kernel module, by the names of lkm/api.h.
    [NR_trap] is a call that takes a structure of integers, and answers with
    the structure as the module leaves it; so do [NR_sigprocess] and
    [NR_thread_suspended]. *)
Inductive lkm_nr : Set -> Set :=
| NR_vchroot (dfd : Z) : lkm_nr unit
| NR_vchroot_expand (path : cstr) (dfd : Z) : lkm_nr cstr
| NR_getuidgid : lkm_nr (Z * Z)
| NR_pthread_canceled (action : Z) : lkm_nr unit
| NR_closing_descriptor (fd : Z) : lkm_nr unit
| NR_kernel_printk (msg : cstr) : lkm_nr unit
| NR_task_64bit (pid : Z) : lkm_nr unit
| NR_trap (name : string) (args : list Z) : lkm_nr (list Z)
| NR_sigprocess (args : sigprocess_args) : lkm_nr sigprocess_args
| NR_thread_suspended (state : thread_state) : lkm_nr thread_state.

Inductive linuxE : Set -> Type :=
| Sys (nr : Z) (args : list arg) : linuxE Z
| SysOut {X : Set} (nr : Z) (args : list arg) (o : outk X) : linuxE (Z * X)
| Lkm {X : Set} (call : lkm_nr X) : linuxE (Z * X).

(** [struct host_basic_info] of Mach, without its padding. *)
Record host_basic_info := HostBasicInfo {
  hi_avail_cpus : Z; hi_cpu_type : Z; hi_cpu_subtype : Z; hi_cpu_threadtype : Z;
  hi_physical_cpu : Z; hi_physical_cpu_max : Z; hi_logical_cpu : Z; hi_logical_cpu_max : Z;
  hi_max_mem : Z }.

(** Values the code keeps after it has asked for them once. *)
Record caches := Caches {
  c_lu : linux_utsname;          (* misc/sysctl_kern.c: lu *)
  c_hinfo : host_basic_info;     (* misc/sysctl_hw.c: hinfo *)
  c_proc_ids : Z * Z;            (* misc/sysctl_proc.c: uid, gid of load_proc *)
  c_info_ids : Z * Z;            (* misc/proc_info.c: uid, gid *)
  c_default_kq : Z }.            (* kqueue/kevent_qos.c: default_kq *)

(** ** State of the emulation layer

    The file-scope variables of the sources, and the thread-specific slots. *)
Record gstate := GState {
  g_prefix_path : cstr;         (* vchroot_userspace.c: prefix_path *)
  g_prefix_path_len : Z;        (* vchroot_userspace.c: prefix_path_len *)
  g_wd : option Z;              (* per_thread_wd.h: TSD slots 100 and 101 *)
  g_uses_threads : bool;        (* bsdthread_create.c: uses_threads() *)
  g_driver_fd : Z;              (* mach/lkm.c: driver_fd *)
  g_sa_tramp : Z;               (* signal/sigaction.c *)
  g_sig_handlers : list Z;
  g_sig_flags : list Z;
  g_sig_masks : list Z;
  g_caches : caches }.

Definition set_prefix (p : cstr) (n : Z) (g : gstate) : gstate :=
  GState p n (g_wd g) (g_uses_threads g) (g_driver_fd g) (g_sa_tramp g)
         (g_sig_handlers g) (g_sig_flags g) (g_sig_masks g) (g_caches g).

Definition set_signals (tramp : Z) (h f m : list Z) (g : gstate) : gstate :=
  GState (g_prefix_path g) (g_prefix_path_len g) (g_wd g) (g_uses_threads g)
         (g_driver_fd g) tramp h f m (g_caches g).

Definition set_caches (c : caches) (g : gstate) : gstate :=
  GState (g_prefix_path g) (g_prefix_path_len g) (g_wd g) (g_uses_threads g)
         (g_driver_fd g) (g_sa_tramp g) (g_sig_handlers g) (g_sig_flags g) (g_sig_masks g) c.

(** ** Programs *)

(** A program can stop without a result: a loop whose length the kernel
    decides has used up its fuel, or the C code has no defined behaviour. *)
Inductive stuck : Set := NoFuel | Undefined.

Inductive prog (A : Type) : Type :=
| Ret (a : A)
| Vis {X : Set} (e : linuxE X) (k : X -> prog A)
| Stuck (w : stuck).
Arguments Ret {A} a.
Arguments Vis {A X} e k.
Arguments Stuck {A} w.

Fixpoint prog_bind {A B} (f : A -> prog B) (p : prog A) : prog B :=
  match p with
  | Ret a => f a
  | Vis e k => Vis e (λ x, prog_bind f (k x))
  | Stuck w => Stuck w
  end.

(** Code of the emulation layer: a program over its state. *)
Definition M (A : Type) : Type := gstate -> prog (A * gstate).

#[export] Instance M_ret : MRet M := λ A a g, Ret (a, g).
#[export] Instance M_bind : MBind M := λ A B f m g, prog_bind (λ '(a, g'), f a g') (m g).

Definition get_state : M gstate := λ g, Ret (g, g).
Definition modify_state (f : gstate -> gstate) : M unit := λ g, Ret (tt, f g).
Definition out_of_fuel {A} : M A := λ _, Stuck NoFuel.
Definition undefined {A} : M A := λ _, Stuck Undefined.
(** A computation that may be undefined. *)
Definition defined {A} (o : option A) : M A := match o with Some a => mret a | None => undefined end.
Definition trigger {X : Set} (e : linuxE X) : M X := λ g, Vis e (λ x, Ret (x, g)).

(** [LINUX_SYSCALL(nr, ...)] without and with data written back. *)
Definition LINUX_SYSCALL (nr : Z) (args : list arg) : M Z := trigger (Sys nr args).
Definition LINUX_SYSCALL_out {X : Set} (nr : Z) (args : list arg) (o : outk X) : M (Z * X) :=
  trigger (SysOut nr args o).

(** The fuel of the loops whose length the kernel decides. *)
Class LoopFuel := loop_fuel : nat.

(** Whether path lookup falls back to a case-insensitive search: true in
    libsystem_kernel, false in the copy linked into dyld. *)
Class IcaseEnabled := icase_enabled : bool.

(** ** Program logic

    A protocol says which requests a program may issue, which responses it
    may rely on, and whether running out of loop fuel is allowed.  [wp] is
    the weakest precondition of a program under a protocol; it never allows
    undefined behaviour. *)
Record protocol := Protocol {
  may_call : ∀ X : Set, linuxE X -> Prop;
  responds : ∀ X : Set, linuxE X -> X -> Prop;
  fuel_out : Prop }.
Arguments may_call p {X} e.
Arguments responds p {X} e x.

Fixpoint wp_prog (Ψ : protocol) {A} (p : prog A) (Q : A -> Prop) : Prop :=
  match p with
  | Ret a => Q a
  | Vis e k => may_call Ψ e ∧ ∀ x, responds Ψ e x -> wp_prog Ψ (k x) Q
  | Stuck NoFuel => fuel_out Ψ
  | Stuck Undefined => False
  end.

Definition wp (Ψ : protocol) {A} (m : M A) (g : gstate) (Q : A -> gstate -> Prop) : Prop :=
  wp_prog Ψ (m g) (λ '(a, g'), Q a g').

(** Any request, any response; loops may or may not exhaust their fuel. *)
Definition any_host : protocol := Protocol (λ _ _, True) (λ _ _ _, True) True.
Definition any_host_total : protocol := Protocol (λ _ _, True) (λ _ _ _, True) False.

(** Every plain request is answered with [r]. *)
Definition answers (r : Z) : protocol := Protocol (λ _ _, True)
  (λ X e, match e in linuxE X return X -> Prop with Sys _ _ => λ x, x = r | _ => λ _, True end) False.

(** ** Execution against a concrete host *)

Definition handler (K : Type) : Type := ∀ X : Set, linuxE X -> K -> X * K.

Fixpoint run_prog {K A} (h : handler K) (p : prog A) (s : K) : option (A * K) :=
  match p with
  | Ret a => Some (a, s)
  | Vis e k => let '(x, s') := h _ e s in run_prog h (k x) s'
  | Stuck _ => None
  end.

Definition run {K A} (h : handler K) (m : M A) (g : gstate) (s : K) : option (A * gstate * K) :=
  run_prog h (m g) s.

(** Zero-filled responses, for hosts that only implement some calls. *)
Definition zero_out {X : Set} (o : outk X) : X :=
  match o in outk X return X with
  | OInt => 0
  | OBytes _ => []
  | OStat => LinuxStat 0 0 0 0 0 0 0 0 0 0 0 0 0 0 0 0
  | OStatfs => LinuxStatfs64 0 0 0 0 0 0 0 0 0 0 0
  | ODirents _ => []
  | OFlock => LinuxFlock 0 0 0 0 0
  | OTermios => LinuxTermios 0 0 0 0 0 (replicate 32 0) 0 0
  | OSigaction => LinuxSigaction 0 0 0 0
  | OSigset => 0
  | OStack => LinuxStack 0 0 0
  | OMsghdr => LinuxMsghdr None 0 0 0 None 0 0
  | OSockaddr _ => ([], 0)
  | OLinger => (0, 0)
  | OTimeval => Timeval 0 0
  | ORlimit => (0, 0)
  | OUtsname => LinuxUtsname [] [] [] [] [] []
  | OUptime => 0
  | OItimerval => Itimerval (Timeval 0 0) (Timeval 0 0)
  | OIfreqs _ => []
  | OIfreq => LinuxIfreq [] []
  | OSiginfo => (0, 0)
  | OXattr _ => []
  end.

Definition zero_lkm {X : Set} (c : lkm_nr X) : X :=
  match c in lkm_nr X return X with
  | NR_vchroot _ => tt
  | NR_vchroot_expand path _ => path
  | NR_getuidgid => (0, 0)
  | NR_pthread_canceled _ => tt
  | NR_closing_descriptor _ => tt
  | NR_kernel_printk _ => tt
  | NR_task_64bit _ => tt
  | NR_trap _ args => args
  | NR_sigprocess args => args
  | NR_thread_suspended st => st
  end.

(** A host that answers plain requests with the numbers of a list, zero after
    its end, and records them. *)
Definition scripted : handler (list Z * list (Z * list arg)) := λ X e s,
  match e in linuxE X return X * (list Z * list (Z * list arg)) with
  | Sys nr args => (hd 0 s.1, (tl s.1, s.2 ++ [(nr, args)]))
  | SysOut _ _ o => ((0, zero_out o), s)
  | Lkm c => ((0, zero_lkm c), s)
  end.

Definition init_caches : caches :=
  Caches (LinuxUtsname [] [] [] [] [] []) (HostBasicInfo 0 0 0 0 0 0 0 0 0) (-1, -1) (-1, -1) (-1).

(** The state of a process right after start, outside any prefix. *)
Definition init_gstate : gstate :=
  GState [] (-1) None false 3 0
    (zset (zset (zset (replicate 32 0) LINUX_SIGWINCH 1) LINUX_SIGCHLD 1) LINUX_SIGURG 1)
    (replicate 32 0) (replicate 32 0) init_caches.

(** ** Lemmas *)

Lemma wp_prog_bind Ψ {A B} (f : A -> prog B) p Q :
  wp_prog Ψ p (λ a, wp_prog Ψ (f a) Q) -> wp_prog Ψ (prog_bind f p) Q.
Proof. induction p as [a|X e k IH|[]]; simpl; [done| |done|done]. intros [? H]. split; [done|]. auto. Qed.

Lemma wp_prog_mono Ψ {A} (p : prog A) (Q Q' : A -> Prop) :
  wp_prog Ψ p Q -> (∀ a, Q a -> Q' a) -> wp_prog Ψ p Q'.
Proof. induction p as [a|X e k IH|[]]; simpl; [auto| |done|done]. intros [? H] ?. split; [done|]. eauto. Qed.

Lemma wp_bind Ψ {A B} (m : M A) (f : A -> M B) g Q :
  wp Ψ m g (λ a g', wp Ψ (f a) g' Q) -> wp Ψ (m ≫= f) g Q.
Proof.
  intros H. unfold wp, mbind, M_bind. apply wp_prog_bind.
  eapply wp_prog_mono; [exact H|]. by intros [a g'].
Qed.

Lemma wp_ret Ψ {A} (a : A) g Q : Q a g -> wp Ψ (mret a) g Q.
Proof. done. Qed.

Lemma wp_mono Ψ {A} (m : M A) g (Q Q' : A -> gstate -> Prop) :
  wp Ψ m g Q -> (∀ a g', Q a g' -> Q' a g') -> wp Ψ m g Q'.
Proof. intros H HQ. eapply wp_prog_mono; [exact H|]. intros [a g']. apply HQ. Qed.

Lemma wp_trigger Ψ {X : Set} (e : linuxE X) g (Q : X -> gstate -> Prop) :
  may_call Ψ e -> (∀ x, responds Ψ e x -> Q x g) -> wp Ψ (trigger e) g Q.
Proof. intros ??. split; done. Qed.

Lemma wp_get Ψ g Q : Q g g -> wp Ψ get_state g Q.
Proof. done. Qed.

Lemma wp_modify Ψ f g Q : Q tt (f g) -> wp Ψ (modify_state f) g Q.
Proof. done. Qed.

Lemma wp_defined Ψ {A} (o : option A) a g (Q : A -> gstate -> Prop) : o = Some a -> Q a g -> wp Ψ (defined o) g Q.
Proof. by intros ->. Qed.

Lemma wp_bind_defined Ψ {A B} (o : option A) a (f : A -> M B) g Q :
  o = Some a -> wp Ψ (f a) g Q -> wp Ψ (defined o ≫= f) g Q.
Proof. intros ??. apply wp_bind. by eapply wp_defined. Qed.

(** A program keeps its specification when the host promises more. *)
Lemma wp_host_mono Ψ Ψ' {A} (m : M A) g Q :
  (∀ (X : Set) (e : linuxE X), may_call Ψ e -> may_call Ψ' e) ->
  (∀ (X : Set) (e : linuxE X) x, responds Ψ' e x -> responds Ψ e x) -> (fuel_out Ψ -> fuel_out Ψ') ->
  wp Ψ m g Q -> wp Ψ' m g Q.
Proof.
  unfold wp. intros Hc Hr Hf. induction (m g) as [a|X e k IH|[]]; simpl; [done| |done|done].
  intros [Hm Hk]. split; [by apply Hc|]. intros x Hx. apply IH, Hk, Hr, Hx.
Qed.

Lemma run_bind {K A B} (h : handler K) (m : M A) (f : A -> M B) g s :
  run h (m ≫= f) g s =
  match run h m g s with
  | Some (a, g', s') => run h (f a) g' s'
  | None => None
  end.
Proof.
  unfold run, mbind, M_bind. generalize (m g). intros p. revert s.
  induction p as [[a g']|X e k IH|]; intros s; simpl; [done| |done].
  destruct (h X e s) as [x s']. apply IH.
Qed.

Lemma run_ret {K A} (h : handler K) (a : A) g s : run h (mret a) g s = Some (a, g, s).
Proof. done. Qed.

(** A host that follows the protocol runs the program to a result that
    satisfies the postcondition. *)
Definition follows {K} (h : handler K) (Ψ : protocol) : Prop :=
  ∀ (X : Set) (e : linuxE X) s, may_call Ψ e -> responds Ψ e (h X e s).1.

Theorem wp_run {K A} (h : handler K) Ψ (m : M A) g Q s :
  ¬ fuel_out Ψ -> follows h Ψ -> wp Ψ m g Q ->
  ∃ a g' s', run h m g s = Some (a, g', s') ∧ Q a g'.
Proof.
  intros Hf Hh. unfold wp, run. generalize (m g). intros p. revert s.
  induction p as [[a g']|X e k IH|[]]; simpl; intros s Hw; [by eauto| |done|done].
  destruct Hw as [Hc Hk]. specialize (Hh X e s Hc). destruct (h X e s) as [x s']. eauto.
Qed.

(** ** Hosts with state *)

Section Hoare.
Context {K : Type} (H : ∀ X : Set, linuxE X -> K -> X -> K -> Prop).

(** Every result of the program, on the host, satisfies the postcondition. *)
Fixpoint hoare_prog {A} (p : prog A) (k : K) (Q : A -> K -> Prop) : Prop :=
  match p with
  | Ret a => Q a k
  | Vis e c => ∀ x k', H _ e k x k' -> hoare_prog (c x) k' Q
  | Stuck _ => True
  end.

Definition hoare {A} (m : M A) (g : gstate) (k : K) (Q : A -> gstate -> K -> Prop) : Prop :=
  hoare_prog (m g) k (λ '(a, g') k', Q a g' k').

Lemma hoare_prog_bind {A B} (p : prog A) (f : A -> prog B) k Q :
  hoare_prog p k (λ a k', hoare_prog (f a) k' Q) -> hoare_prog (prog_bind f p) k Q.
Proof. revert k. induction p as [a|X e c IH|w]; simpl; intros k Hp; [done| |done]. intros x k' Hx. by apply IH, Hp. Qed.

Lemma hoare_prog_mono {A} (p : prog A) k (Q Q' : A -> K -> Prop) :
  (∀ a k', Q a k' -> Q' a k') -> hoare_prog p k Q -> hoare_prog p k Q'.
Proof. intros HQ. revert k. induction p as [a|X e c IH|w]; simpl; intros k Hp; [by apply HQ| |done]. intros x k' Hx. by apply IH, Hp. Qed.

Lemma hoare_bind {A B} (m : M A) (f : A -> M B) g k Q :
  hoare m g k (λ a g' k', hoare (f a) g' k' Q) -> hoare (m ≫= f) g k Q.
Proof. intros Hm. apply hoare_prog_bind. eapply hoare_prog_mono; [|exact Hm]. by intros [a g'] k'. Qed.

Lemma hoare_mono {A} (m : M A) g k (Q Q' : A -> gstate -> K -> Prop) :
  (∀ a g' k', Q a g' k' -> Q' a g' k') -> hoare m g k Q -> hoare m g k Q'.
Proof. intros HQ. apply hoare_prog_mono. intros [a g'] k'. apply HQ. Qed.

Lemma hoare_trigger {X : Set} (e : linuxE X) g k (Q : X -> gstate -> K -> Prop) :
  (∀ x k', H X e k x k' -> Q x g k') -> hoare (trigger e) g k Q.
Proof. done. Qed.

Lemma hoare_ret {A} (a : A) g k (Q : A -> gstate -> K -> Prop) : Q a g k -> hoare (mret a) g k Q.
Proof. done. Qed.

Lemma hoare_get g k (Q : gstate -> gstate -> K -> Prop) : Q g g k -> hoare get_state g k Q.
Proof. done. Qed.

End Hoare.

#[export] Hint Resolve wp_ret wp_get wp_modify : darling.

(** Decompose the first command of a program. *)
Ltac wp_step :=
  lazymatch goal with
  | |- wp _ (mret _) _ _ => apply wp_ret
  | |- wp _ (_ ≫= _) _ _ => apply wp_bind
  | |- wp _ (trigger _) _ _ => apply wp_trigger
  | |- wp _ (LINUX_SYSCALL _ _) _ _ => apply wp_trigger
  | |- wp _ (LINUX_SYSCALL_out _ _ _) _ _ => apply wp_trigger
  | |- wp _ get_state _ _ => apply wp_get
  | |- wp _ (modify_state _) _ _ => apply wp_modify
  end.
