(* ===== verification/Errno.v ===== *)
(** * errno.c: translation of Linux error numbers to Darwin's *)
From S2P Require Import Prelude Abi Linux.

(** duct_errno.h defines [LINUX_ENOTSUP] as the Darwin constant. *)
Definition LINUX_ENOTSUP : Z := EOPNOTSUPP.

(** The designated initialisers of [linux_to_darwin[512]], in source order. *)
Definition linux_to_darwin : list (Z * Z) := [
  (LINUX_EPERM, EPERM); (LINUX_ENOENT, ENOENT); (LINUX_ESRCH, ESRCH); (LINUX_EINTR, EINTR);
  (LINUX_EIO, EIO); (LINUX_ENXIO, ENXIO); (LINUX_ENOEXEC, ENOEXEC); (LINUX_EBADF, EBADF);
  (LINUX_ECHILD, ECHILD); (LINUX_EDEADLK, EDEADLK); (LINUX_ENOMEM, ENOMEM);
  (LINUX_EACCES, EACCES); (LINUX_EFAULT, EFAULT); (LINUX_ENOTBLK, ENOTBLK); (LINUX_EBUSY, EBUSY);
  (LINUX_EEXIST, EEXIST); (LINUX_EXDEV, EXDEV); (LINUX_ENODEV, ENODEV); (LINUX_ENOTDIR, ENOTDIR);
  (LINUX_EISDIR, EISDIR); (LINUX_EINVAL, EINVAL); (LINUX_ENFILE, ENFILE); (LINUX_EMFILE, EMFILE);
  (LINUX_ENOTTY, ENOTTY); (LINUX_ETXTBSY, ETXTBSY); (LINUX_EFBIG, EFBIG); (LINUX_ENOSPC, ENOSPC);
  (LINUX_ESPIPE, ESPIPE); (LINUX_EROFS, EROFS); (LINUX_EMLINK, EMLINK); (LINUX_EPIPE, EPIPE);
  (LINUX_EDOM, EDOM); (LINUX_ERANGE, ERANGE); (LINUX_EAGAIN, EAGAIN);
  (LINUX_EINPROGRESS, EINPROGRESS); (LINUX_EALREADY, EALREADY); (LINUX_ENOTSOCK, ENOTSOCK);
  (LINUX_EDESTADDRREQ, EDESTADDRREQ); (LINUX_EMSGSIZE, EMSGSIZE); (LINUX_EPROTOTYPE, EPROTOTYPE);
  (LINUX_ENOPROTOOPT, ENOPROTOOPT); (LINUX_EPROTONOSUPPORT, EPROTONOSUPPORT);
  (LINUX_ESOCKTNOSUPPORT, ESOCKTNOSUPPORT); (LINUX_ENOTSUP, ENOTSUP);
  (LINUX_EPFNOSUPPORT, EPFNOSUPPORT); (LINUX_EAFNOSUPPORT, EAFNOSUPPORT);
  (LINUX_EADDRINUSE, EADDRINUSE); (LINUX_EADDRNOTAVAIL, EADDRNOTAVAIL);
  (LINUX_ENETDOWN, ENETDOWN); (LINUX_ENETUNREACH, ENETUNREACH); (LINUX_ENETRESET, ENETRESET);
  (LINUX_ECONNABORTED, ECONNABORTED); (LINUX_ECONNRESET, ECONNRESET); (LINUX_ENOBUFS, ENOBUFS);
  (LINUX_EISCONN, EISCONN); (LINUX_ENOTCONN, ENOTCONN); (LINUX_ESHUTDOWN, ESHUTDOWN);
  (LINUX_ETOOMANYREFS, ETOOMANYREFS); (LINUX_ETIMEDOUT, ETIMEDOUT);
  (LINUX_ECONNREFUSED, ECONNREFUSED); (LINUX_ELOOP, ELOOP); (LINUX_ENAMETOOLONG, ENAMETOOLONG);
  (LINUX_EHOSTDOWN, EHOSTDOWN); (LINUX_EHOSTUNREACH, EHOSTUNREACH); (LINUX_ENOTEMPTY, ENOTEMPTY);
  (LINUX_EUSERS, EUSERS); (LINUX_EDQUOT, EDQUOT); (LINUX_ESTALE, ESTALE);
  (LINUX_EREMOTE, EREMOTE); (LINUX_ENOLCK, ENOLCK); (LINUX_ENOSYS, ENOSYS);
  (LINUX_EOVERFLOW, EOVERFLOW); (LINUX_ECANCELED, ECANCELED); (LINUX_EIDRM, EIDRM);
  (LINUX_ENOMSG, ENOMSG); (LINUX_EILSEQ, EILSEQ); (LINUX_EBADMSG, EBADMSG);
  (LINUX_EMULTIHOP, EMULTIHOP); (LINUX_ENODATA, ENODATA); (LINUX_ENOLINK, ENOLINK);
  (LINUX_ENOSR, ENOSR); (LINUX_ENOSTR, ENOSTR); (LINUX_EPROTO, EPROTO); (LINUX_ETIME, ETIME);
  (LINUX_EOPNOTSUPP, EOPNOTSUPP) ].

Definition length_of_translation_array : Z := 512.

(** An element of an array given by designated initialisers: the last one
    for an index wins, an index without one is zero. *)
Definition array_get (init : list (Z * Z)) (i : Z) : Z :=
  foldl (λ acc e, if e.1 =? i then e.2 else acc) 0 init.

Definition errno_linux_to_bsd (err : Z) : Z :=
  let v := if err <? 0 then s32 (- err) else err in
  if (u64 v <? length_of_translation_array) && negb (array_get linux_to_darwin v =? 0)
  then let v := array_get linux_to_darwin v in if err <? 0 then - v else v
  else err.

(** The common epilogue [if (ret < 0) ret = errno_linux_to_bsd(ret);]. *)
Definition bsd_ret (ret : Z) : Z := if ret <? 0 then errno_linux_to_bsd ret else ret.

(** [int ret = LINUX_SYSCALL(...)]: the result is truncated to an [int]. *)
Definition syscall_int (nr : Z) (args : list arg) : M Z :=
  r ← LINUX_SYSCALL nr args; mret (s32 r).

Definition syscall_int_out {X : Set} (nr : Z) (args : list arg) (o : outk X) : M (Z * X) :=
  '(r, x) ← LINUX_SYSCALL_out nr args o; mret (s32 r, x).

(** ** Theorems *)

Lemma array_get_in init i :
  array_get init i = 0 ∨ (i, array_get init i) ∈ init.
Proof.
  unfold array_get. induction init as [|[k v] init IH] using rev_ind; [by left|].
  rewrite foldl_app. simpl. destruct (Z.eqb_spec k i) as [->|]; set_solver.
Qed.

Lemma linux_to_darwin_pos i : 0 <= array_get linux_to_darwin i < 4096.
Proof.
  destruct (array_get_in linux_to_darwin i) as [->|Hin]; [lia|].
  assert (forallb (λ e, (0 <=? e.2) && (e.2 <? 4096)) linux_to_darwin = true) as Hall by by vm_compute.
  rewrite forallb_forall in Hall. apply list_elem_of_In, Hall in Hin. simpl in Hin. lia.
Qed.

Lemma errno_unfold_neg err :
  INT_MIN < err < 0 ->
  errno_linux_to_bsd err = - errno_linux_to_bsd (- err).
Proof.
  intros Herr. unfold errno_linux_to_bsd.
  destruct (Z.ltb_spec err 0); [|lia]. destruct (Z.ltb_spec (- err) 0); [lia|].
  rewrite s32_id by (unfold INT_MAX, INT_MIN in *; lia). destruct (_ && _); lia.
Qed.

Lemma errno_pos err : 0 < err -> 0 < errno_linux_to_bsd err.
Proof.
  intros Herr. unfold errno_linux_to_bsd. destruct (Z.ltb_spec err 0); [lia|].
  pose proof (linux_to_darwin_pos err).
  destruct (_ <? _); [|done]. destruct (Z.eqb_spec (array_get linux_to_darwin err) 0); simpl; lia.
Qed.

Lemma errno_neg err : INT_MIN <= err < 0 -> errno_linux_to_bsd err < 0.
Proof.
  intros Herr. destruct (decide (err = INT_MIN)) as [->|]; [by vm_compute|].
  rewrite errno_unfold_neg by lia. pose proof (errno_pos (- err)). lia.
Qed.

Lemma errno_negative err : err < 0 -> errno_linux_to_bsd err < 0.
Proof.
  intros Herr. unfold errno_linux_to_bsd. destruct (Z.ltb_spec err 0); [|lia].
  pose proof (linux_to_darwin_pos (s32 (- err))). destruct (_ <? _); [|done].
  destruct (Z.eqb_spec (array_get linux_to_darwin (s32 (- err))) 0); simpl; lia.
Qed.

Lemma bsd_ret_neg ret : INT_MIN <= ret -> bsd_ret ret < 0 <-> ret < 0.
Proof. intros ?. unfold bsd_ret. destruct (Z.ltb_spec ret 0); [|lia]. pose proof (errno_neg ret). lia. Qed.

Lemma bsd_ret_nonneg ret : 0 <= ret -> bsd_ret ret = ret.
Proof. intros ?. unfold bsd_ret. destruct (Z.ltb_spec ret 0); lia. Qed.

Lemma errno_range err : -4096 < err < 0 -> -4096 < errno_linux_to_bsd err < 0.
Proof.
  intros Herr. split; [|apply errno_neg; unfold INT_MIN; lia]. rewrite errno_unfold_neg by (unfold INT_MIN; lia).
  unfold errno_linux_to_bsd at 1. destruct (Z.ltb_spec (- err) 0); [lia|].
  pose proof (linux_to_darwin_pos (- err)). destruct (_ && _); lia.
Qed.

Lemma bsd_ret_range r : -4095 <= r <= 0 -> -4095 <= bsd_ret (s32 r) <= 0.
Proof.
  intros Hr. rewrite s32_id by (unfold INT_MIN, INT_MAX; lia). unfold bsd_ret. destruct (Z.ltb_spec r 0); [|lia].
  pose proof (errno_range r). lia.
Qed.

#[export] Hint Resolve errno_neg errno_range bsd_ret_range : darling.

(** An error stays an error of the same sign convention.  For every
    negative kernel result the translation is the negation of the translation
    of the positive number, it is negative, and a result in the kernel's error
    range [-4095..-1] stays in it. *)
Theorem errno_preserves_errors err :
  INT_MIN < err < 0 ->
  errno_linux_to_bsd err = - errno_linux_to_bsd (- err) ∧
  errno_linux_to_bsd err < 0 ∧
  (-4096 < err -> -4096 < errno_linux_to_bsd err).
Proof.
  intros Herr. split; [by apply errno_unfold_neg|]. split; [apply errno_neg; lia|].
  intros Hr. apply errno_range. lia.
Qed.

Lemma errno_preserves_errors_witness :
  INT_MIN < -11 < 0 ∧ errno_linux_to_bsd (-11) = -35 ∧ errno_linux_to_bsd (-11) < 0.
Proof.
  split; [by vm_compute|]. split; [reflexivity|].
  destruct (errno_preserves_errors (-11)) as (_ & H & _); [by vm_compute|exact H].
Defined.

(** ** The meaning of the numbers

    The errors that both systems know, with the number each of them gives to
    the name: errno(3) of Linux on x86_64 and <sys/errno.h> of Darwin.
    Nothing here is taken from the translation table.  (Linux has one number
    for EOPNOTSUPP and ENOTSUP, Darwin two: it stands here for EOPNOTSUPP.) *)
Definition error_numbers : list (string * (Z * Z)) := [
  ("EPERM", (1, 1)); ("ENOENT", (2, 2)); ("ESRCH", (3, 3)); ("EINTR", (4, 4)); ("EIO", (5, 5));
  ("ENXIO", (6, 6)); ("E2BIG", (7, 7)); ("ENOEXEC", (8, 8)); ("EBADF", (9, 9));
  ("ECHILD", (10, 10)); ("EAGAIN", (11, 35)); ("ENOMEM", (12, 12)); ("EACCES", (13, 13));
  ("EFAULT", (14, 14)); ("ENOTBLK", (15, 15)); ("EBUSY", (16, 16)); ("EEXIST", (17, 17));
  ("EXDEV", (18, 18)); ("ENODEV", (19, 19)); ("ENOTDIR", (20, 20)); ("EISDIR", (21, 21));
  ("EINVAL", (22, 22)); ("ENFILE", (23, 23)); ("EMFILE", (24, 24)); ("ENOTTY", (25, 25));
  ("ETXTBSY", (26, 26)); ("EFBIG", (27, 27)); ("ENOSPC", (28, 28)); ("ESPIPE", (29, 29));
  ("EROFS", (30, 30)); ("EMLINK", (31, 31)); ("EPIPE", (32, 32)); ("EDOM", (33, 33));
  ("ERANGE", (34, 34)); ("EDEADLK", (35, 11)); ("ENAMETOOLONG", (36, 63)); ("ENOLCK", (37, 77));
  ("ENOSYS", (38, 78)); ("ENOTEMPTY", (39, 66)); ("ELOOP", (40, 62)); ("ENOMSG", (42, 91));
  ("EIDRM", (43, 90)); ("ENOSTR", (60, 99)); ("ENODATA", (61, 96)); ("ETIME", (62, 101));
  ("ENOSR", (63, 98)); ("EREMOTE", (66, 71)); ("ENOLINK", (67, 97)); ("EPROTO", (71, 100));
  ("EMULTIHOP", (72, 95)); ("EBADMSG", (74, 94)); ("EOVERFLOW", (75, 84)); ("EILSEQ", (84, 92));
  ("EUSERS", (87, 68)); ("ENOTSOCK", (88, 38)); ("EDESTADDRREQ", (89, 39));
  ("EMSGSIZE", (90, 40)); ("EPROTOTYPE", (91, 41)); ("ENOPROTOOPT", (92, 42));
  ("EPROTONOSUPPORT", (93, 43)); ("ESOCKTNOSUPPORT", (94, 44)); ("EOPNOTSUPP", (95, 102));
  ("EPFNOSUPPORT", (96, 46)); ("EAFNOSUPPORT", (97, 47)); ("EADDRINUSE", (98, 48));
  ("EADDRNOTAVAIL", (99, 49)); ("ENETDOWN", (100, 50)); ("ENETUNREACH", (101, 51));
  ("ENETRESET", (102, 52)); ("ECONNABORTED", (103, 53)); ("ECONNRESET", (104, 54));
  ("ENOBUFS", (105, 55)); ("EISCONN", (106, 56)); ("ENOTCONN", (107, 57));
  ("ESHUTDOWN", (108, 58)); ("ETOOMANYREFS", (109, 59)); ("ETIMEDOUT", (110, 60));
  ("ECONNREFUSED", (111, 61)); ("EHOSTDOWN", (112, 64)); ("EHOSTUNREACH", (113, 65));
  ("EALREADY", (114, 37)); ("EINPROGRESS", (115, 36)); ("ESTALE", (116, 70));
  ("EDQUOT", (122, 69)); ("ECANCELED", (125, 89)); ("EOWNERDEAD", (130, 105));
  ("ENOTRECOVERABLE", (131, 104))].

(** The two errors of robust mutexes are missing in the translation table. *)
Definition robust_errors : list string := ["EOWNERDEAD"; "ENOTRECOVERABLE"]%string.

Definition error_row_ok (e : string * (Z * Z)) : bool :=
  bool_decide (e.1 ∈ robust_errors) ||
  ((errno_linux_to_bsd e.2.1 =? e.2.2) && (errno_linux_to_bsd (- e.2.1) =? - e.2.2)).

Lemma error_rows_check : forallb error_row_ok error_numbers = true.
Proof. by vm_compute. Qed.

Lemma error_rows_ok name l d :
  (name, (l, d)) ∈ error_numbers -> name ∉ robust_errors ->
  errno_linux_to_bsd l = d ∧ errno_linux_to_bsd (- l) = - d.
Proof.
  intros Hin%list_elem_of_In Hname. pose proof error_rows_check as Hall.
  rewrite forallb_forall in Hall. apply Hall in Hin. unfold error_row_ok in Hin. cbn [fst snd] in Hin.
  rewrite bool_decide_eq_false_2 in Hin by done. cbn [orb] in Hin. lia.
Qed.

Lemma error_names_check :
  forallb (λ e, forallb (λ e', negb (e.2.2 =? e'.2.2) || String.eqb e.1 e'.1) error_numbers) error_numbers = true.
Proof. by vm_compute. Qed.

Lemma error_names_distinct name l d name' l' d' :
  (name, (l, d)) ∈ error_numbers -> (name', (l', d')) ∈ error_numbers -> d = d' -> name = name'.
Proof.
  intros Hin%list_elem_of_In Hin'%list_elem_of_In ->. pose proof error_names_check as Hall.
  rewrite forallb_forall in Hall. apply Hall in Hin. rewrite forallb_forall in Hin.
  apply Hin in Hin'. cbn [fst snd] in Hin'. rewrite Z.eqb_refl in Hin'. by apply String.eqb_eq.
Qed.

Lemma table_covered :
  forallb (λ e, bool_decide (e.1 ∈ (λ r : string * (Z * Z), r.2.1) <$> error_numbers)) linux_to_darwin = true.
Proof. by vm_compute. Qed.

Lemma errno_other v :
  0 <= v <= INT_MAX -> v ∉ (λ r : string * (Z * Z), r.2.1) <$> error_numbers ->
  errno_linux_to_bsd v = v.
Proof.
  intros Hv Hno. unfold errno_linux_to_bsd. destruct (Z.ltb_spec v 0); [lia|].
  destruct (array_get_in linux_to_darwin v) as [->|Hin]; [by rewrite andb_false_r|].
  pose proof table_covered as Hall. rewrite forallb_forall in Hall.
  apply list_elem_of_In, Hall, bool_decide_eq_true in Hin. done.
Qed.

(** C23: for every error that Linux and Darwin both know (87 names, with the
    numbers the two systems document), apart from EOWNERDEAD and
    ENOTRECOVERABLE, Linux's number is translated to Darwin's number of the
    same name, in both signs, so that no two of them are confused; a number
    that is none of Linux's numbers of these errors is returned as it is. *)
Theorem errno_table_faithful name l d :
  (name, (l, d)) ∈ error_numbers -> name ∉ robust_errors ->
  errno_linux_to_bsd l = d ∧ errno_linux_to_bsd (- l) = - d ∧
  (∀ name' l' d', (name', (l', d')) ∈ error_numbers -> name' ∉ robust_errors ->
    errno_linux_to_bsd l = errno_linux_to_bsd l' -> name = name') ∧
  (∀ v, 0 <= v <= INT_MAX -> v ∉ (λ r : string * (Z * Z), r.2.1) <$> error_numbers ->
    errno_linux_to_bsd v = v).
Proof.
  intros Hin Hname. destruct (error_rows_ok name l d) as [H1 H2]; [done..|].
  split_and!; [done|done| |apply errno_other].
  intros name' l' d' Hin' Hname'. destruct (error_rows_ok name' l' d') as [-> _]; [done..|].
  rewrite H1. by apply (error_names_distinct name l d name' l' d').
Qed.

Lemma errno_table_faithful_witness :
  ("EAGAIN"%string, (11, 35)) ∈ error_numbers ∧ errno_linux_to_bsd LINUX_EAGAIN = EAGAIN.
Proof.
  assert (("EAGAIN"%string, (11, 35)) ∈ error_numbers) as H.
  { apply (bool_decide_unpack _). by vm_compute. }
  split; [exact H|]. apply (errno_table_faithful "EAGAIN" 11 35 H).
  apply (bool_decide_unpack _). by vm_compute.
Defined.

(** The errors of robust mutexes reach a Darwin program with Linux's
    numbers, which mean nothing there. *)
Theorem robust_errors_untranslated :
  errno_linux_to_bsd LINUX_EOWNERDEAD = 130 ∧ errno_linux_to_bsd LINUX_ENOTRECOVERABLE = 131 ∧
  ("EOWNERDEAD"%string, (LINUX_EOWNERDEAD, 105)) ∈ error_numbers ∧
  ("ENOTRECOVERABLE"%string, (LINUX_ENOTRECOVERABLE, 104)) ∈ error_numbers.
Proof. split_and!; [reflexivity..|apply (bool_decide_unpack _); by vm_compute|apply (bool_decide_unpack _); by vm_compute]. Qed.

(** Translating twice is not translating once: a second application
    turns the Darwin error [EAGAIN] into [EDEADLK]. *)
Theorem errno_double_translation :
  errno_linux_to_bsd (- LINUX_EAGAIN) = - EAGAIN ∧
  errno_linux_to_bsd (errno_linux_to_bsd (- LINUX_EAGAIN)) = - EDEADLK.
Proof. by vm_compute. Qed.
