(* ===== verification/Base.v ===== *)
(** * Calls every component builds on

    misc/ioctl.c, mach/lkm.c, bsdthread/pthread_canceled.c, cancelable.h,
    per_thread_wd.h, common_at.c, unistd/{read,write,close,fchdir,getuid,getgid}.c *)
From S2P Require Import Prelude Abi Linux Errno.

(** ** ioctl on the host and calls into the kernel module *)

Definition __real_ioctl (fd req : Z) (a : arg) : M Z :=
  ret ← syscall_int __NR_ioctl [AInt fd; AInt req; a]; mret (bsd_ret ret).

(** The same call when the kernel fills in the structure behind [arg]. *)
Definition __real_ioctl_out {X : Set} (fd req : Z) (o : outk X) : M (Z * X) :=
  '(ret, x) ← syscall_int_out __NR_ioctl [AInt fd; AInt req] o; mret (bsd_ret ret, x).

(** [lkm_call] is [__real_ioctl] on the driver descriptor: its result already
    is a Darwin error number. *)
Definition lkm_call {X : Set} (call : lkm_nr X) : M (Z * X) :=
  '(ret, x) ← trigger (Lkm call); mret (bsd_ret (s32 ret), x).

Definition mach_driver_get_fd : M Z := g ← get_state; mret (g_driver_fd g).

(** ** Cancellation *)

Definition sys_pthread_canceled (action : Z) : M Z :=
  g ← get_state;
  if (action =? 0) && negb (g_uses_threads g) then mret (- EINVAL)
  else '(ret, _) ← lkm_call (NR_pthread_canceled action); mret (bsd_ret ret).

(** [CANCELATION_POINT(); return m;] *)
Definition CANCELATION_POINT {A} (early : Z -> A) (m : M A) : M A :=
  c ← sys_pthread_canceled 0;
  if c =? 0 then mret (early (- EINTR)) else m.

(** ** Working directory and the *at() family *)

Definition get_perthread_wd : M Z :=
  g ← get_state; mret (match g_wd g with Some fd => fd | None => LINUX_AT_FDCWD end).

Definition atflags_tbl : list (Z * Z) := [
  (BSD_AT_SYMLINK_NOFOLLOW, LINUX_AT_SYMLINK_NOFOLLOW);
  (BSD_AT_REMOVEDIR, LINUX_AT_REMOVEDIR);
  (BSD_AT_SYMLINK_FOLLOW, LINUX_AT_SYMLINK_FOLLOW) ].

Definition atflags_bsd_to_linux (flags : Z) : Z := translate atflags_tbl flags.

Definition atfd (fd : Z) : M Z := if fd =? BSD_AT_FDCWD then get_perthread_wd else mret fd.

(** ** Identity *)

Definition sys_getuid : M Z := '(_, ug) ← lkm_call NR_getuidgid; mret ug.1.
Definition sys_getgid : M Z := '(_, ug) ← lkm_call NR_getuidgid; mret ug.2.

(** ** Reading, writing and closing descriptors *)

(** The result and the bytes stored in the caller's buffer. *)
Definition sys_read_nocancel (fd len : Z) : M (Z * list ascii) :=
  '(ret, data) ← syscall_int_out __NR_read [AInt fd; AInt len] (OBytes len);
  if ret <? 0 then
    if ret =? - LINUX_EIO then
      tty ← __real_ioctl fd LINUX_TCGETA (AInt 0);
      if tty =? 0 then mret (0, []) else mret (errno_linux_to_bsd ret, [])
    else mret (errno_linux_to_bsd ret, [])
  else mret (ret, ztake ret data).

Definition sys_read (fd len : Z) : M (Z * list ascii) :=
  CANCELATION_POINT (λ e, (e, [])) (sys_read_nocancel fd len).

Definition sys_write_nocancel (fd : Z) (mem : list ascii) (len : Z) : M Z :=
  ret ← syscall_int __NR_write [AInt fd; ABuf mem; AInt len];
  if ret <? 0 then mret (errno_linux_to_bsd ret) else mret ret.

Definition sys_write (fd : Z) (mem : list ascii) (len : Z) : M Z :=
  CANCELATION_POINT (λ e, e) (sys_write_nocancel fd mem len).

Definition close_internal (fd : Z) : M Z :=
  ret ← syscall_int __NR_close [AInt fd]; mret (bsd_ret ret).

Definition sys_fchdir (fd : Z) : M Z :=
  ret ← syscall_int __NR_fchdir [AInt fd]; mret (bsd_ret ret).

(** ** Lemmas *)

Lemma wp_syscall_int Ψ nr args g (Q : Z -> gstate -> Prop) :
  may_call Ψ (Sys nr args) ->
  (∀ r, responds Ψ (Sys nr args) r -> Q (s32 r) g) ->
  wp Ψ (syscall_int nr args) g Q.
Proof. intros ??. unfold syscall_int. wp_step. wp_step; [done|]. intros r Hr. wp_step. auto. Qed.

Lemma wp_syscall_int_out Ψ {X : Set} nr args (o : outk X) g (Q : Z * X -> gstate -> Prop) :
  may_call Ψ (SysOut nr args o) ->
  (∀ r x, responds Ψ (SysOut nr args o) (r, x) -> Q (s32 r, x) g) ->
  wp Ψ (syscall_int_out nr args o) g Q.
Proof. intros ??. unfold syscall_int_out. wp_step. wp_step; [done|]. intros [r x] Hr. wp_step. auto. Qed.

Lemma hoare_syscall_int {K} (H : ∀ X : Set, linuxE X -> K -> X -> K -> Prop) nr args g k (Q : Z -> gstate -> K -> Prop) :
  (∀ x k', H Z (Sys nr args) k x k' -> Q (s32 x) g k') -> hoare H (syscall_int nr args) g k Q.
Proof. done. Qed.

Lemma wp_lkm_call Ψ {X : Set} (c : lkm_nr X) g (Q : Z * X -> gstate -> Prop) :
  may_call Ψ (Lkm c) ->
  (∀ r x, responds Ψ (Lkm c) (r, x) -> Q (bsd_ret (s32 r), x) g) ->
  wp Ψ (lkm_call c) g Q.
Proof. intros ??. unfold lkm_call. wp_step. wp_step; [done|]. intros [r x] Hr. wp_step. auto. Qed.

Lemma run_syscall_int {K} (h : handler K) nr args g s :
  run h (syscall_int nr args) g s = let '(r, s') := h Z (Sys nr args) s in Some (s32 r, g, s').
Proof. unfold syscall_int. rewrite run_bind. unfold run at 1. simpl. by destruct (h Z _ s). Qed.

Lemma run_syscall_int_out {K} {X : Set} (h : handler K) nr args (o : outk X) g s :
  run h (syscall_int_out nr args o) g s =
  let '((r, x), s') := h (Z * X)%type (SysOut nr args o) s in Some ((s32 r, x), g, s').
Proof. unfold syscall_int_out. rewrite run_bind. unfold run at 1. simpl. by destruct (h _ _ s) as [[r x] s']. Qed.

Lemma wp_get_perthread_wd Ψ g (Q : Z -> gstate -> Prop) :
  Q (match g_wd g with Some fd => fd | None => LINUX_AT_FDCWD end) g -> wp Ψ get_perthread_wd g Q.
Proof. done. Qed.

#[export] Hint Resolve wp_get_perthread_wd : darling.
