(* ===== verification/Simple.v ===== *)
(** * simple.c: formatting and number parsing without libc *)

From S2P Require Import Prelude Abi Linux Errno Base.

(** ** Formatted output *)

(** A variadic argument: a string pointer or an integer slot. *)
Inductive vararg :=
| VStr (s : option cstr)
| VNum (z : Z).

(** The destination memory, by index from the start of the buffer, and the
    number of characters produced so far. *)
Record outbuf := OutBuf { ob_mem : gmap Z ascii; ob_off : Z }.

(** [if (offset < max_length) buf[offset] = c; offset++;] *)
Definition put_char (max_length : Z) (o : outbuf) (c : ascii) : outbuf :=
  OutBuf (if ob_off o <? max_length then <[ob_off o := c]> (ob_mem o) else ob_mem o) (ob_off o + 1).

Definition put_str (max_length : Z) (o : outbuf) (s : cstr) : outbuf :=
  foldl (put_char max_length) o s.

Definition digit (d : Z) : ascii := byte_of (48 + d).

Definition hex_digit (c : Z) : ascii := if c <? 10 then byte_of (48 + c) else byte_of (65 + (c - 10)).

(** The [do ... while (num > 0)] loops that fill [temp] from the last digit,
    and the [while (count--)] loops that copy it out in reverse.  The fuel is
    the size of [temp]. *)
Fixpoint dec_digits (fuel : nat) (num : Z) (acc : cstr) : cstr :=
  match fuel with
  | O => acc
  | S fuel =>
    let acc := digit (Z.abs (Z.rem num 10)) :: acc in
    let num := Z.quot num 10 in
    if 0 <? num then dec_digits fuel num acc else acc
  end.

Fixpoint hex_digits (fuel : nat) (num : Z) (acc : cstr) : cstr :=
  match fuel with
  | O => acc
  | S fuel =>
    let acc := hex_digit (num mod 16) :: acc in
    let num := num / 16 in
    if 0 <? num then hex_digits fuel num acc else acc
  end.

(** The text of one conversion, and the arguments left; [None] when the
    arguments do not match the format, or when [num = -num] overflows
    (undefined in C). *)
Definition conversion (conv : ascii) (vl : list vararg) : option (cstr * list vararg) :=
  match conv with
  | "%"%char => Some (["%"%char], vl)
  | "s"%char =>
    match vl with
    | VStr s :: vl => Some (default (s2c "(null)") s, vl)
    | _ => None
    end
  | "d"%char =>
    match vl with
    | VNum z :: vl =>
      let num := s32 z in
      if num =? INT_MIN then None
      else Some (if num <? 0 then "-"%char :: dec_digits 16 (- num) [] else dec_digits 16 num [], vl)
    | _ => None
    end
  | "u"%char =>
    match vl with
    | VNum z :: vl => Some (dec_digits 16 (u32 z) [], vl)
    | _ => None
    end
  | "p"%char =>
    match vl with
    | VNum z :: vl => Some ("0"%char :: "x"%char :: hex_digits 40 (u64 z) [], vl)
    | _ => None
    end
  | "x"%char =>
    match vl with
    | VNum z :: vl => Some (hex_digits 40 (u64 z) [], vl)
    | _ => None
    end
  | _ => Some ([], vl)
  end.

(** The loop over the format string.  A format ending in ["%l"] makes the
    code step over the terminator: undefined. *)
Fixpoint vformat (max_length : Z) (fmt : cstr) (vl : list vararg) (o : outbuf) : option outbuf :=
  match fmt with
  | [] => Some o
  | c :: fmt =>
    if ascii_dec c "%"%char then
      match fmt with
      | [] => Some o
      | c1 :: fmt =>
        if ascii_dec c1 "l"%char then
          match fmt with
          | [] => None
          | c2 :: fmt =>
            '(s, vl) ← conversion c2 vl; vformat max_length fmt vl (put_str max_length o s)
          end
        else '(s, vl) ← conversion c1 vl; vformat max_length fmt vl (put_str max_length o s)
      end
    else vformat max_length fmt vl (put_char max_length o c)
  end.

(** With a size of zero the terminator is stored before the buffer. *)
Definition __simple_vsnprintf (buf : gmap Z ascii) (max_length : Z) (fmt : cstr) (vl : list vararg)
    : option (Z * gmap Z ascii) :=
  o ← vformat max_length fmt vl (OutBuf buf 0);
  if ob_off o <? max_length then Some (s32 (ob_off o), <[ob_off o := NUL]> (ob_mem o))
  else if max_length =? 0 then None
  else Some (s32 (ob_off o), <[max_length - 1 := NUL]> (ob_mem o)).

Definition __simple_vsprintf (buf : gmap Z ascii) (fmt : cstr) (vl : list vararg) : option (Z * gmap Z ascii) :=
  __simple_vsnprintf buf SIZE_MAX fmt vl.

(** The C string at the start of a memory, read up to [n] bytes. *)
Fixpoint mem_cstr (mem : gmap Z ascii) (i : Z) (n : nat) : cstr :=
  match n with
  | O => []
  | S n =>
    match mem !! i with
    | Some c => if ascii_dec c NUL then [] else c :: mem_cstr mem (i + 1) n
    | None => []
    end
  end.

(** [while ( *text++) len++;] on the bytes of a string with its terminator. *)
Fixpoint __simple_strlen_from (text : list ascii) (len : Z) : Z :=
  match text with
  | [] => len
  | c :: text => if ascii_dec c NUL then len else __simple_strlen_from text (s32 (len + 1))
  end.

Definition __simple_strlen (text : list ascii) : Z := __simple_strlen_from text 0.

(** [char buffer[512]; __simple_vsnprintf(buffer, sizeof(buffer), ...)] *)
Definition format_512 (fmt : cstr) (vl : list vararg) : option cstr :=
  '(_, mem) ← __simple_vsnprintf ∅ 512 fmt vl; Some (mem_cstr mem 0 512).

Definition __simple_fprintf (fd : Z) (fmt : cstr) (vl : list vararg) : M (option unit) :=
  match format_512 fmt vl with
  | None => mret None
  | Some buffer =>
    LINUX_SYSCALL __NR_write [AInt fd; ABuf buffer; AInt (__simple_strlen buffer)];; mret (Some tt)
  end.

Definition __simple_printf (fmt : cstr) (vl : list vararg) : M (option unit) := __simple_fprintf 1 fmt vl.

Definition __simple_kprintf (fmt : cstr) (vl : list vararg) : M (option unit) :=
  match format_512 fmt vl with
  | None => mret None
  | Some buffer => lkm_call (NR_kernel_printk buffer);; mret (Some tt)
  end.

(** The text [__simple_sprintf] leaves in a large enough buffer. *)
Definition __simple_sprintf (fmt : cstr) (vl : list vararg) (size : nat) : option (Z * cstr) :=
  '(n, mem) ← __simple_vsprintf ∅ fmt vl; Some (n, mem_cstr mem 0 size).

Definition __simple_snprintf (buf : gmap Z ascii) (max_length : Z) (fmt : cstr) (vl : list vararg)
    : option (Z * gmap Z ascii) := __simple_vsnprintf buf max_length fmt vl.

(** ** Parsing numbers *)

Definition isdigit (c : ascii) : bool := (48 <=? byte_val c) && (byte_val c <=? 57).

Definition isdigit16 (c : ascii) : bool :=
  isdigit c || ((97 <=? byte_val c) && (byte_val c <=? 102)) || ((65 <=? byte_val c) && (byte_val c <=? 70)).

(** The value and the rest of the string ([*endp]). *)
Fixpoint atoi_loop (value : Z) (str : cstr) : Z * cstr :=
  match str with
  | [] => (value, [])
  | c :: r => if isdigit c then atoi_loop (u64 (u64 (value * 10) + (byte_val c - 48))) r else (value, str)
  end.

Definition __simple_atoi (str : cstr) : Z * cstr := atoi_loop 0 str.

(** What a hexadecimal digit adds: the last test is [*str < 'F']. *)
Definition atoi16_digit (c : ascii) : Z :=
  if (48 <=? byte_val c) && (byte_val c <=? 57) then byte_val c - 48
  else if (97 <=? byte_val c) && (byte_val c <=? 102) then 10 + (byte_val c - 97)
  else if (65 <=? byte_val c) && (byte_val c <? 70) then 10 + (byte_val c - 65)
  else 0.

Fixpoint atoi16_loop (value : Z) (str : cstr) : Z * cstr :=
  match str with
  | [] => (value, [])
  | c :: r => if isdigit16 c then atoi16_loop (u64 (u64 (value * 16) + atoi16_digit c)) r else (value, str)
  end.

Definition __simple_atoi16 (str : cstr) : Z * cstr := atoi16_loop 0 str.

(** ** Reference definitions *)

(** What a format means, in the terms of printf(3): [directive c vl t vl'] says
    that the conversion [c] takes the arguments [vl], leaves [vl'] and stands
    for [t].  Numbers are specified by their numerals, decimal ([pretty]) or
    hexadecimal, where the digit of 16^i is that of the quotient by 16^i.  A
    character that names no conversion stands for nothing. *)
Definition hex_numeral (n : Z) : cstr :=
  (λ i : nat, default NUL (s2c "0123456789ABCDEF" !! Z.to_nat (n / 16 ^ Z.of_nat i mod 16)))
    <$> reverse (seq 0 (Z.to_nat (Z.log2 n / 4 + 1))).

Inductive directive : ascii -> list vararg -> cstr -> list vararg -> Prop :=
| d_percent vl : directive "%"%char vl (s2c "%") vl
| d_string str vl : directive "s"%char (VStr (Some str) :: vl) str vl
| d_null vl : directive "s"%char (VStr None :: vl) (s2c "(null)") vl
| d_int z vl : INT_MIN < z <= INT_MAX -> directive "d"%char (VNum z :: vl) (s2c (pretty z)) vl
| d_unsigned z vl : 0 <= z < 2 ^ 32 -> directive "u"%char (VNum z :: vl) (s2c (pretty z)) vl
| d_hex z vl : 0 <= z < 2 ^ 64 -> directive "x"%char (VNum z :: vl) (hex_numeral z) vl
| d_pointer z vl : 0 <= z < 2 ^ 64 -> directive "p"%char (VNum z :: vl) (s2c "0x" ++ hex_numeral z) vl
| d_unknown c vl : c ∉ s2c "%sduxp" -> directive c vl [] vl.

(** A modifier "l" makes no difference, and a "%" at the end is dropped. *)
Inductive formats : cstr -> list vararg -> cstr -> Prop :=
| f_end vl : formats [] vl []
| f_char c fmt vl t : c ≠ "%"%char -> formats fmt vl t -> formats (c :: fmt) vl (c :: t)
| f_directive c fmt vl vl' t1 t2 :
    c ≠ "l"%char -> directive c vl t1 vl' -> formats fmt vl' t2 -> formats ("%"%char :: c :: fmt) vl (t1 ++ t2)
| f_long c fmt vl vl' t1 t2 :
    directive c vl t1 vl' -> formats fmt vl' t2 -> formats ("%"%char :: "l"%char :: c :: fmt) vl (t1 ++ t2)
| f_last vl : formats (s2c "%") vl [].

(** The text of a format by the code's conversions, without any buffer. *)
Fixpoint format_text (fmt : cstr) (vl : list vararg) : option cstr :=
  match fmt with
  | [] => Some []
  | c :: fmt =>
    if ascii_dec c "%"%char then
      match fmt with
      | [] => Some []
      | c1 :: fmt =>
        if ascii_dec c1 "l"%char then
          match fmt with
          | [] => None
          | c2 :: fmt => '(s, vl) ← conversion c2 vl; app s <$> format_text fmt vl
          end
        else '(s, vl) ← conversion c1 vl; app s <$> format_text fmt vl
      end
    else cons c <$> format_text fmt vl
  end.

(** The number written in base [base] by the digits of a string. *)
Definition base_value (dig : ascii -> Z) (base : Z) (init : Z) (s : cstr) : Z :=
  foldl (λ v c, v * base + dig c) init s.

Definition hex_val (c : ascii) : Z :=
  if byte_val c <=? 57 then byte_val c - 48
  else if byte_val c <=? 70 then byte_val c - 55 else byte_val c - 87.

(** ** Buffer writes *)

Lemma put_str_app max o s t : put_str max o (s ++ t) = put_str max (put_str max o s) t.
Proof. unfold put_str. apply foldl_app. Qed.

Lemma vformat_format_text max fmt vl o :
  vformat max fmt vl o = put_str max o <$> format_text fmt vl.
Proof.
  remember (length fmt) as n eqn:Hn. revert fmt Hn vl o.
  induction n as [n IH] using lt_wf_ind. intros fmt -> vl o.
  assert (∀ fmt', (length fmt' < length fmt)%nat -> ∀ vl o,
    vformat max fmt' vl o = put_str max o <$> format_text fmt' vl) as IH' by eauto. clear IH.
  destruct fmt as [|c fmt]; [done|]. simpl in *.
  destruct (ascii_dec c "%"%char).
  - destruct fmt as [|c1 fmt]; [done|]. simpl in *. destruct (ascii_dec c1 "l"%char).
    + destruct fmt as [|c2 fmt]; [done|]. simpl in *. destruct (conversion c2 vl) as [[s vl']|]; [|done].
      simpl. rewrite IH' by lia. destruct (format_text fmt vl'); simpl; [|done]. by rewrite put_str_app.
    + destruct (conversion c1 vl) as [[s vl']|]; [|done].
      simpl. rewrite IH' by lia. destruct (format_text fmt vl'); simpl; [|done]. by rewrite put_str_app.
  - rewrite IH' by lia. by destruct (format_text fmt vl).
Qed.

(** Characters that begin no conversion are copied. *)
Lemma format_text_literal pre fmt vl :
  Forall (.≠ "%"%char) pre -> format_text (pre ++ fmt) vl = app pre <$> format_text fmt vl.
Proof.
  induction 1 as [|c pre Hc _ IH]; [simpl; by destruct (format_text fmt vl)|].
  cbn [app format_text]. destruct (ascii_dec c "%"%char); [done|]. rewrite IH. by destruct (format_text fmt vl).
Qed.

Lemma format_text_d vl fmt : format_text (s2c "%d" ++ fmt) vl = '(s, vl) ← conversion "d"%char vl; app s <$> format_text fmt vl.
Proof. done. Qed.

Lemma put_str_off max o s : ob_off (put_str max o s) = ob_off o + strlen s.
Proof.
  revert o. induction s as [|c s IH]; intros o; simpl; unfold strlen in *; simpl; [lia|].
  rewrite IH. simpl. lia.
Qed.

Lemma put_str_lookup max o s i :
  ob_mem (put_str max o s) !! i =
  if (ob_off o <=? i) && (i <? ob_off o + strlen s) && (i <? max)
  then s !! Z.to_nat (i - ob_off o) else ob_mem o !! i.
Proof.
  revert o. induction s as [|c s IH]; intros o; simpl.
  { unfold strlen. simpl. case_cmp; simpl; try lia; done. }
  rewrite IH. simpl. unfold strlen in *. simpl.
  destruct (decide (i = ob_off o)) as [->|Hne].
  - replace (Z.to_nat (ob_off o - ob_off o)) with 0%nat by lia. simpl.
    case_cmp; simpl; try lia; by rewrite ?lookup_insert_eq.
  - destruct (Z.ltb_spec (ob_off o) max); simpl;
      rewrite ?lookup_insert_ne by done; case_cmp; simpl; try lia; try done.
    all: replace (Z.to_nat (i - ob_off o)) with (S (Z.to_nat (i - (ob_off o + 1)))) by lia; done.
Qed.

Lemma vsnprintf_stores buf max_length fmt vl text :
  0 < max_length <= SIZE_MAX -> format_text fmt vl = Some text -> strlen text <= INT_MAX ->
  ∃ mem, __simple_vsnprintf buf max_length fmt vl = Some (strlen text, mem) ∧
    (∀ i, 0 <= i < Z.min (strlen text) (max_length - 1) -> mem !! i = text !! Z.to_nat i) ∧
    mem !! Z.min (strlen text) (max_length - 1) = Some NUL ∧
    (∀ i, i < 0 ∨ max_length <= i ∨ strlen text < i -> mem !! i = buf !! i).
Proof.
  intros Hm Ht Hl. unfold __simple_vsnprintf. rewrite vformat_format_text, Ht. simpl.
  rewrite put_str_off, Z.add_0_l. pose proof (strlen_nonneg text).
  unfold SIZE_MAX, INT_MAX in *. rewrite s32_id by (unfold INT_MIN, INT_MAX; lia).
  destruct (Z.ltb_spec (strlen text) max_length); [|destruct (Z.eqb_spec max_length 0); [lia|]];
    (eexists; split; [reflexivity|]).
  - rewrite Z.min_l by lia. split_and!.
    + intros i Hi. rewrite lookup_insert_ne by lia. rewrite put_str_lookup. simpl.
      case_cmp; try lia. simpl. f_equal. lia.
    + by rewrite lookup_insert_eq.
    + intros i Hi. rewrite lookup_insert_ne by lia. rewrite put_str_lookup. simpl.
      case_cmp; simpl; try lia; done.
  - rewrite Z.min_r by lia. split_and!.
    + intros i Hi. rewrite lookup_insert_ne by lia. rewrite put_str_lookup. simpl.
      case_cmp; try lia. simpl. f_equal. lia.
    + by rewrite lookup_insert_eq.
    + intros i Hi. rewrite lookup_insert_ne by lia. rewrite put_str_lookup. simpl.
      case_cmp; simpl; try lia; done.
Qed.

(** The string in a memory that holds its characters and a terminator. *)
Lemma mem_cstr_text mem text : Forall (.≠ NUL) text -> (∀ i, 0 <= i < strlen text -> mem !! i = text !! Z.to_nat i) ->
  mem !! strlen text = Some NUL -> ∀ n, (length text < n)%nat -> mem_cstr mem 0 n = text.
Proof.
  intros Hnul Hc Hend. assert (∀ t pre, text = pre ++ t -> ∀ n, (length t < n)%nat -> mem_cstr mem (strlen pre) n = t) as Hgen;
    [|by apply (Hgen text [])].
  induction t as [|c t IH]; intros pre Hpre n Hn; (destruct n as [|n]; [lia|]); cbn [mem_cstr].
  - rewrite app_nil_r in Hpre. subst pre. by rewrite Hend.
  - rewrite (Hc (strlen pre)) by (rewrite Hpre, strlen_app; unfold strlen; simpl; lia).
    unfold strlen at 1. rewrite Nat2Z.id, Hpre, list_lookup_middle by done.
    assert (c ≠ NUL) as Hcn by (rewrite Forall_forall in Hnul; apply Hnul; rewrite Hpre; set_solver).
    destruct (ascii_dec c NUL); [done|]. f_equal.
    replace (strlen pre + 1) with (strlen (pre ++ [c])) by (rewrite strlen_app; unfold strlen; simpl; lia).
    apply IH; [by rewrite <- app_assoc|simpl in Hn; lia].
Qed.

(** [sprintf] into a buffer that is large enough stores the text. *)
Lemma sprintf_text fmt vl size text :
  format_text fmt vl = Some text -> Forall (.≠ NUL) text -> strlen text <= INT_MAX -> (length text < size)%nat ->
  __simple_sprintf fmt vl size = Some (strlen text, text).
Proof.
  intros Ht Hnul Hl Hs. unfold __simple_sprintf, __simple_vsprintf.
  destruct (vsnprintf_stores ∅ SIZE_MAX fmt vl text) as (mem & -> & Hc & Hend & _); [by vm_compute|done|done|].
  cbn [mbind option_bind]. do 2 f_equal. assert (strlen text < SIZE_MAX - 1) by (unfold SIZE_MAX, INT_MAX in *; lia).
  rewrite Z.min_l in * by lia. by apply mem_cstr_text.
Qed.

Lemma format_512_defined fmt vl text : format_text fmt vl = Some text -> ∃ b, format_512 fmt vl = Some b.
Proof.
  intros Ht. unfold format_512, __simple_vsnprintf. rewrite vformat_format_text, Ht. cbn [fmap option_fmap option_map mbind option_bind].
  by destruct (_ <? _); eexists.
Qed.

(** The text that goes through the buffer of 512 bytes. *)
Lemma format_512_text fmt vl text : format_text fmt vl = Some text -> Forall (.≠ NUL) text -> strlen text <= INT_MAX ->
  format_512 fmt vl = Some (take 511 text).
Proof.
  intros Ht Hnul Hl. unfold format_512. destruct (vsnprintf_stores ∅ 512 fmt vl text) as (mem & -> & Hc & Hend & _);
    [by vm_compute|done|done|]. cbn [mbind option_bind]. f_equal. unfold strlen in *.
  assert (Z.of_nat (length (take 511 text)) = Z.min (Z.of_nat (length text)) 511) as Hlen by (rewrite length_take; lia).
  apply mem_cstr_text; [by apply Forall_take| | |rewrite length_take; lia]; unfold strlen; rewrite Hlen.
  - intros i Hi. rewrite lookup_take_lt by lia. apply Hc. lia.
  - exact Hend.
Qed.

(** ** Decimal numbers *)

Lemma dec_digits_S fuel num acc :
  dec_digits (S fuel) num acc =
  let acc := digit (Z.abs (Z.rem num 10)) :: acc in
  let num := Z.quot num 10 in
  if 0 <? num then dec_digits fuel num acc else acc.
Proof. done. Qed.

Lemma hex_digits_S fuel num acc :
  hex_digits (S fuel) num acc =
  let acc := hex_digit (num mod 16) :: acc in
  let num := num / 16 in
  if 0 <? num then hex_digits fuel num acc else acc.
Proof. done. Qed.

Arguments dec_digits : simpl never.
Arguments hex_digits : simpl never.

Lemma dec_digits_pretty fuel x acc :
  (0 < x)%N -> Z.of_N x < 10 ^ Z.of_nat fuel ->
  dec_digits fuel (Z.of_N x) (s2c acc) = s2c (pretty_N_go x acc).
Proof.
  revert x acc. induction fuel as [|fuel IH]; intros x acc Hx Hlt; [simpl in Hlt; lia|].
  rewrite pretty_N_go_step, dec_digits_S by done. cbv zeta.
  rewrite Z.rem_mod_nonneg, Z.quot_div_nonneg by lia.
  rewrite Z.abs_eq by (pose proof (Z.mod_pos_bound (Z.of_N x) 10); lia).
  assert (digit (Z.of_N x mod 10) :: s2c acc = s2c (String (pretty_N_char (x mod 10)) acc)) as ->.
  { change 10 with (Z.of_N 10). rewrite <- N2Z.inj_mod. simpl. f_equal.
    pose proof (N.mod_lt x 10). assert (x mod 10 < 10)%N as Hm by lia. revert Hm.
    generalize (x mod 10)%N. intros d Hd.
    assert (d = 0 \/ d = 1 \/ d = 2 \/ d = 3 \/ d = 4 \/ d = 5 \/ d = 6 \/ d = 7 \/ d = 8 \/ d = 9)%N
      as Hcase by lia.
    repeat destruct Hcase as [->|Hcase]; try subst d; by vm_compute. }
  change 10 with (Z.of_N 10). rewrite <- N2Z.inj_div.
  destruct (Z.ltb_spec 0 (Z.of_N (x / 10))) as [Hq|Hq].
  - apply IH; [lia|]. rewrite Nat2Z.inj_succ, Z.pow_succ_r in Hlt by lia.
    rewrite N2Z.inj_div. apply Z.div_lt_upper_bound; lia.
  - revert Hq. generalize (x / 10)%N. intros [|p] Hq; [|lia]. by rewrite pretty_N_go_0.
Qed.

Lemma dec_digits_pretty_Z z :
  0 <= z < 10 ^ 16 -> dec_digits 16 z [] = s2c (pretty (Z.to_N z)).
Proof.
  intros Hz. destruct (decide (z = 0)) as [->|]; [by vm_compute|].
  change [] with (s2c ""). rewrite <- (Z2N.id z) at 1 by lia.
  rewrite dec_digits_pretty by lia. unfold pretty, pretty_N. rewrite decide_False by lia. done.
Qed.

Lemma conversion_int z vl :
  INT_MIN < z <= INT_MAX -> conversion "d"%char (VNum z :: vl) = Some (s2c (pretty z), vl).
Proof.
  intros Hz. simpl. rewrite (s32_id z) by lia. destruct (Z.eqb_spec z INT_MIN); [lia|]. do 2 f_equal.
  unfold INT_MIN, INT_MAX in Hz. destruct (Z.ltb_spec z 0) as [Hneg|Hpos]; rewrite dec_digits_pretty_Z by lia.
  - by destruct z as [|p|p]; [lia..|].
  - by destruct z as [|p|p]; [| |lia].
Qed.

Lemma conversion_unsigned z vl :
  0 <= z < 2 ^ 32 -> conversion "u"%char (VNum z :: vl) = Some (s2c (pretty z), vl).
Proof.
  intros Hz. simpl. rewrite u32_id by lia. rewrite dec_digits_pretty_Z by lia. by destruct z as [|p|p]; [| |lia].
Qed.

(** ["%d"] prints the decimal representation of every [int] but [INT_MIN],
    whose negation overflows, and ["%u"] prints that of every [unsigned int]. *)
Theorem format_decimal z :
  (INT_MIN < z <= INT_MAX -> format_text (s2c "%d") [VNum z] = Some (s2c (pretty z))) ∧
  (0 <= z < 2 ^ 32 -> format_text (s2c "%u") [VNum z] = Some (s2c (pretty z))) ∧
  format_text (s2c "%d") [VNum INT_MIN] = None.
Proof.
  split_and!; [| |by vm_compute]; intros Hz; cbn [s2c String.list_ascii_of_string format_text];
    (destruct (ascii_dec _ _); [|done]); (destruct (ascii_dec _ _); [done|]);
    first [rewrite conversion_int by done|rewrite conversion_unsigned by done]; simpl; by rewrite app_nil_r.
Qed.

(** ** Hexadecimal numbers *)

Lemma hex_digit_lookup d : 0 <= d < 16 -> default NUL (s2c "0123456789ABCDEF" !! Z.to_nat d) = hex_digit d.
Proof.
  intros Hd. assert (d = 0 ∨ d = 1 ∨ d = 2 ∨ d = 3 ∨ d = 4 ∨ d = 5 ∨ d = 6 ∨ d = 7 ∨ d = 8 ∨ d = 9 ∨
    d = 10 ∨ d = 11 ∨ d = 12 ∨ d = 13 ∨ d = 14 ∨ d = 15) as Hc by lia.
  repeat destruct Hc as [->|Hc]; try subst d; by vm_compute.
Qed.

(** A numeral of more than one digit ends in the digit of the remainder. *)
Lemma hex_numeral_step n : 16 <= n -> hex_numeral n = hex_numeral (n / 16) ++ [hex_digit (n mod 16)].
Proof.
  intros Hn. unfold hex_numeral. assert (Z.log2 (n / 16) = Z.log2 n - 4) as ->.
  { change 16 with (2 ^ 4). rewrite <- Z.shiftr_div_pow2, Z.log2_shiftr by lia.
    assert (4 <= Z.log2 n) by (apply Z.log2_le_pow2; lia). lia. }
  assert (4 <= Z.log2 n) as Hlog by (apply Z.log2_le_pow2; lia).
  assert ((Z.log2 n - 4) / 4 + 1 = Z.log2 n / 4) as ->.
  { generalize (Z.log2 n). intros k. pose proof (Z.div_add (k - 4) 1 4 ltac:(lia)) as He.
    replace (k - 4 + 1 * 4) with k in He by ring. by rewrite He. }
  assert (1 <= Z.log2 n / 4) by (apply Z.div_le_lower_bound; lia). replace (Z.to_nat (Z.log2 n / 4 + 1)) with (S (Z.to_nat (Z.log2 n / 4))) by lia.
  cbn [seq]. rewrite reverse_cons, fmap_app. f_equal.
  - rewrite <- fmap_S_seq, <- fmap_reverse, <- list_fmap_compose. apply list_fmap_ext. intros _ i _. unfold compose.
    rewrite Nat2Z.inj_succ, Z.pow_succ_r, <- Z.div_div by lia. done.
  - cbn [fmap list_fmap]. change (16 ^ Z.of_nat 0) with 1. rewrite Z.div_1_r, hex_digit_lookup; [done|]. apply Z.mod_pos_bound. lia.
Qed.

Lemma hex_digits_numeral fuel n acc :
  0 <= n < 16 ^ Z.of_nat fuel -> (0 < fuel)%nat -> hex_digits fuel n acc = hex_numeral n ++ acc.
Proof.
  revert n acc. induction fuel as [|fuel IH]; intros n acc Hn Hf; [lia|]. rewrite hex_digits_S. cbv zeta.
  destruct (Z.ltb_spec 0 (n / 16)) as [Hq|Hq].
  - assert (16 <= n) by (destruct (Z.le_gt_cases 16 n); [done|rewrite Z.div_small in Hq; lia]).
    rewrite Nat2Z.inj_succ, Z.pow_succ_r in Hn by lia. destruct fuel as [|fuel]; [change (16 ^ Z.of_nat 0) with 1 in Hn; lia|].
    pose proof (Z.div_mod n 16 ltac:(lia)). pose proof (Z.mod_pos_bound n 16 ltac:(lia)). rewrite IH by lia. by rewrite (hex_numeral_step n), <- app_assoc by done.
  - assert (n < 16) as Hlt by (pose proof (Z.div_mod n 16); pose proof (Z.mod_pos_bound n 16); lia).
    unfold hex_numeral. assert (Z.log2 n / 4 = 0) as ->.
    { apply Z.div_small. split; [apply Z.log2_nonneg|]. destruct (decide (n = 0)) as [->|]; [done|]. apply Z.log2_lt_pow2; lia. }
    change (Z.to_nat (0 + 1)) with 1%nat. cbn [seq reverse rev_append fmap list_fmap app]. change (16 ^ Z.of_nat 0) with 1.
    rewrite Z.div_1_r, hex_digit_lookup by (apply Z.mod_pos_bound; lia). done.
Qed.

(** ** The conversions are the directives *)

Lemma conversion_unknown c vl : c ∉ s2c "%sduxp" -> conversion c vl = Some ([], vl).
Proof.
  intros Hc. destruct (decide (Exists (c =.) (s2c "%sduxp"))) as [Hin|_].
  { exfalso. apply Hc. apply Exists_exists in Hin as (x & Hx & ->). done. }
  destruct c as [[] [] [] [] [] [] [] []]; try done; exfalso; apply Hc; vm_compute; set_solver.
Qed.

Lemma directive_conversion c vl t vl' : directive c vl t vl' -> conversion c vl = Some (t, vl').
Proof.
  destruct 1; [done|done|done|by apply conversion_int|by apply conversion_unsigned| | |by apply conversion_unknown].
  - cbn [conversion]. rewrite u64_id, hex_digits_numeral by lia. by rewrite app_nil_r.
  - cbn [conversion]. rewrite u64_id, hex_digits_numeral by lia. by rewrite app_nil_r.
Qed.

Lemma formats_text fmt vl text : formats fmt vl text -> format_text fmt vl = Some text.
Proof.
  induction 1 as [vl|c fmt vl t Hc _ IH|c fmt vl vl' t1 t2 Hc Hd%directive_conversion _ IH|c fmt vl vl' t1 t2 Hd%directive_conversion _ IH|vl];
    [done| | | |done]; cbn [format_text].
  - destruct (ascii_dec c "%"%char); [done|]. by rewrite IH.
  - destruct (ascii_dec _ _); [|done]. destruct (ascii_dec c "l"%char); [done|]. rewrite Hd. simpl. by rewrite IH.
  - destruct (ascii_dec _ _); [|done]. destruct (ascii_dec _ _); [|done]. rewrite Hd. simpl. by rewrite IH.
Qed.



(** With a size of zero, or for INT_MIN, the behaviour is undefined: the
    terminator goes before the buffer, the negation overflows. *)
Theorem vsnprintf_undefined buf fmt vl :
  __simple_vsnprintf buf 0 fmt vl = None ∧ __simple_vsnprintf buf 512 (s2c "%d") [VNum INT_MIN] = None.
Proof.
  split; [|by vm_compute]. unfold __simple_vsnprintf. rewrite vformat_format_text.
  destruct (format_text fmt vl) as [t|]; [|done]. cbn [fmap option_fmap option_map mbind option_bind]. rewrite put_str_off.
  cbn [ob_off]. pose proof (strlen_nonneg t). by rewrite (proj2 (Z.ltb_ge (0 + strlen t) 0)) by lia.
Qed.

(** ** Parsing is the inverse of printing *)

Lemma base_value_acc dig base init s :
  base_value dig base init s = init * base ^ strlen s + base_value dig base 0 s.
Proof.
  revert init. induction s as [|c s IH]; intros init; unfold base_value in *; cbn [foldl]; [unfold strlen; simpl; lia|].
  rewrite IH, (IH (0 * base + dig c)). unfold strlen. simpl length.
  rewrite Nat2Z.inj_succ, Z.pow_succ_r by lia. lia.
Qed.

Lemma base_value_mod dig base init init' s :
  init mod 2 ^ 64 = init' mod 2 ^ 64 ->
  base_value dig base init s mod 2 ^ 64 = base_value dig base init' s mod 2 ^ 64.
Proof.
  intros H. rewrite base_value_acc, (base_value_acc _ _ init').
  rewrite Z.add_mod, (Z.mul_mod init), H, <- Z.mul_mod, <- Z.add_mod by lia. done.
Qed.

(** The decimal digits of a number, parsed after [init], give the number. *)
Lemma dec_digits_value fuel num acc :
  0 <= num < 10 ^ Z.of_nat fuel -> (0 < fuel)%nat ->
  base_value (λ c, byte_val c - 48) 10 0 (dec_digits fuel num acc) =
  base_value (λ c, byte_val c - 48) 10 num acc.
Proof.
  revert num acc. induction fuel as [|fuel IH]; intros num acc Hn Hf; [lia|].
  rewrite dec_digits_S. cbv zeta. rewrite Z.rem_mod_nonneg, Z.quot_div_nonneg by lia.
  pose proof (Z.mod_pos_bound num 10). rewrite Z.abs_eq by lia.
  assert (byte_val (digit (num mod 10)) = 48 + num mod 10) as Hd.
  { unfold digit. rewrite byte_val_of. apply u8_id. lia. }
  assert (num = 10 * (num / 10) + num mod 10) as Hdm by (apply Z.div_mod; lia).
  destruct (Z.ltb_spec 0 (num / 10)).
  - rewrite Nat2Z.inj_succ, Z.pow_succ_r in Hn by lia.
    destruct fuel as [|fuel]; [simpl in Hn; lia|].
    rewrite IH by lia. unfold base_value. cbn [foldl]. rewrite Hd. f_equal. lia.
  - unfold base_value. cbn [foldl]. rewrite Hd. f_equal. lia.
Qed.

Lemma dec_digits_isdigit fuel num acc :
  0 <= num -> Forall (λ c, isdigit c = true) acc -> Forall (λ c, isdigit c = true) (dec_digits fuel num acc).
Proof.
  revert num acc. induction fuel as [|fuel IH]; intros num acc Hn Ha; [done|].
  rewrite dec_digits_S. cbv zeta. rewrite Z.rem_mod_nonneg, Z.quot_div_nonneg by lia.
  pose proof (Z.mod_pos_bound num 10). rewrite Z.abs_eq by lia.
  assert (Forall (λ c, isdigit c = true) (digit (num mod 10) :: acc)).
  { constructor; [|done]. unfold isdigit, digit. rewrite byte_val_of, u8_id by lia. lia. }
  pose proof (Z.div_pos num 10). destruct (_ <? _); [apply IH; [lia|done]|done].
Qed.

Lemma dec_digits_length fuel num acc : (length (dec_digits fuel num acc) <= fuel + length acc)%nat.
Proof.
  revert num acc. induction fuel as [|fuel IH]; intros num acc; [done|]. rewrite dec_digits_S. cbv zeta.
  destruct (_ <? _); [|simpl; lia]. etransitivity; [apply IH|]. simpl. lia.
Qed.

Lemma isdigit_not_nul s : Forall (λ c, isdigit c = true) s -> Forall (.≠ NUL) s.
Proof. intros H. eapply Forall_impl; [exact H|]. intros c Hc ->. by vm_compute in Hc. Qed.

(** "%d" produces a short text without NUL, except for [INT_MIN]. *)
Lemma conversion_d_text z :
  s32 z ≠ INT_MIN -> ∃ d, conversion "d"%char [VNum z] = Some (d, []) ∧ Forall (.≠ NUL) d ∧ (length d <= 17)%nat.
Proof.
  intros Hz. simpl. destruct (Z.eqb_spec (s32 z) INT_MIN); [done|]. eexists. split; [done|].
  pose proof (s32_range z). destruct (Z.ltb_spec (s32 z) 0) as [Hneg|Hpos].
  - split; [|simpl; pose proof (dec_digits_length 16 (- s32 z) []); simpl in *; lia].
    constructor; [done|]. apply isdigit_not_nul, dec_digits_isdigit; [lia|done].
  - split; [by apply isdigit_not_nul, dec_digits_isdigit|].
    pose proof (dec_digits_length 16 (s32 z) []). simpl in *. lia.
Qed.

Lemma atoi_loop_digits value s r :
  Forall (λ c, isdigit c = true) s -> (∀ c r', r = c :: r' -> isdigit c = false) -> 0 <= value < 2 ^ 64 ->
  atoi_loop value (s ++ r) = (u64 (base_value (λ c, byte_val c - 48) 10 value s), r).
Proof.
  intros Hs Hr. revert value. induction Hs as [|c s Hc Hs IH]; intros value Hv; simpl.
  - rewrite u64_id by done. destruct r as [|c r]; [done|]. simpl. by rewrite (Hr c r).
  - rewrite Hc. rewrite IH by (unfold u64; apply Z.mod_pos_bound; lia).
    f_equal. unfold u64. unfold base_value. cbn [foldl].
    apply (base_value_mod (λ c, byte_val c - 48) 10). rewrite Z.mod_mod, Z.add_mod_idemp_l by lia. done.
Qed.

(** [__simple_atoi] reads back what ["%u"] printed and stops at the first
    character that is not a digit. *)
Theorem atoi_format_round_trip n rest text :
  0 <= n < 2 ^ 32 -> (∀ c r, rest = c :: r -> isdigit c = false) ->
  format_text (s2c "%u") [VNum n] = Some text -> __simple_atoi (text ++ rest) = (n, rest).
Proof.
  intros Hn Hr Ht. simpl in Ht. rewrite u32_id, app_nil_r in Ht by lia. simplify_eq.
  unfold __simple_atoi. rewrite atoi_loop_digits; [|apply dec_digits_isdigit; [lia|constructor]|done|lia].
  rewrite dec_digits_value by lia. unfold base_value. simpl. by rewrite u64_id by lia.
Qed.

Lemma atoi_format_round_trip_witness : __simple_atoi (s2c "4093,x") = (4093, s2c ",x").
Proof.
  apply (atoi_format_round_trip 4093 (s2c ",x") (s2c "4093")); [lia| |reflexivity].
  intros c r [= <- <-]. reflexivity.
Defined.

(** A character that the ["%x"] conversion can produce. *)
Definition is_hex_out (c : ascii) : Prop := ∃ d, 0 <= d < 16 ∧ c = hex_digit d.

Lemma hex_digit_facts d :
  0 <= d < 16 ->
  isdigit16 (hex_digit d) = true ∧ hex_val (hex_digit d) = d ∧
  atoi16_digit (hex_digit d) = (if d =? 15 then 0 else d) ∧ (hex_digit d = "F"%char <-> d = 15).
Proof.
  intros Hd.
  assert (d = 0 ∨ d = 1 ∨ d = 2 ∨ d = 3 ∨ d = 4 ∨ d = 5 ∨ d = 6 ∨ d = 7 ∨ d = 8 ∨ d = 9 ∨
          d = 10 ∨ d = 11 ∨ d = 12 ∨ d = 13 ∨ d = 14 ∨ d = 15) as Hc by lia.
  repeat destruct Hc as [->|Hc]; try subst d; (split_and!; [by vm_compute..|]);
    split; intros H; first [reflexivity|vm_compute in H; discriminate H].
Qed.

Lemma hex_digits_out fuel num acc :
  0 <= num -> Forall is_hex_out acc -> Forall is_hex_out (hex_digits fuel num acc).
Proof.
  revert num acc. induction fuel as [|fuel IH]; intros num acc Hn Ha; [done|].
  rewrite hex_digits_S. cbv zeta. pose proof (Z.mod_pos_bound num 16). pose proof (Z.div_pos num 16).
  assert (Forall is_hex_out (hex_digit (num mod 16) :: acc)) by (constructor; [exists (num mod 16); split; [lia|done]|done]).
  destruct (_ <? _); [apply IH; [lia|done]|done].
Qed.

Lemma hex_digits_value fuel num acc :
  0 <= num < 16 ^ Z.of_nat fuel -> (0 < fuel)%nat ->
  base_value hex_val 16 0 (hex_digits fuel num acc) = base_value hex_val 16 num acc.
Proof.
  revert num acc. induction fuel as [|fuel IH]; intros num acc Hn Hf; [lia|].
  rewrite hex_digits_S. cbv zeta. pose proof (Z.mod_pos_bound num 16).
  destruct (hex_digit_facts (num mod 16)) as (_ & Hv & _); [lia|].
  assert (num = 16 * (num / 16) + num mod 16) as Hdm by (apply Z.div_mod; lia).
  destruct (Z.ltb_spec 0 (num / 16)).
  - rewrite Nat2Z.inj_succ, Z.pow_succ_r in Hn by lia.
    destruct fuel as [|fuel]; [simpl in Hn; lia|].
    rewrite IH by lia. unfold base_value. cbn [foldl]. rewrite Hv. f_equal. lia.
  - unfold base_value. cbn [foldl]. rewrite Hv. f_equal. lia.
Qed.

Lemma atoi16_loop_digits value s :
  Forall is_hex_out s -> 0 <= value < 2 ^ 64 ->
  atoi16_loop value s = (u64 (base_value atoi16_digit 16 value s), []).
Proof.
  intros Hs. revert value. induction Hs as [|c s (d & Hd & ->) Hs IH]; intros value Hv; simpl.
  - by rewrite u64_id.
  - destruct (hex_digit_facts d Hd) as (-> & _). rewrite IH by (unfold u64; apply Z.mod_pos_bound; lia).
    f_equal. unfold u64, base_value. cbn [foldl].
    apply (base_value_mod atoi16_digit 16). rewrite Z.mod_mod, Z.add_mod_idemp_l by lia. done.
Qed.

(** Dropping the digit F loses value, and only that. *)
Lemma atoi16_value_le s i j :
  Forall is_hex_out s -> 0 <= i <= j ->
  0 <= base_value atoi16_digit 16 i s <= base_value hex_val 16 j s ∧
  (base_value atoi16_digit 16 i s = base_value hex_val 16 j s <-> i = j ∧ "F"%char ∉ s).
Proof.
  intros Hs. revert i j. induction Hs as [|c s (d & Hd & ->) Hs IH]; intros i j Hij; unfold base_value in *; cbn [foldl].
  - split; [lia|]. set_solver.
  - destruct (hex_digit_facts d Hd) as (_ & -> & -> & HF).
    destruct (IH (i * 16 + (if d =? 15 then 0 else d)) (j * 16 + d)) as [IH1 IH2];
      [destruct (d =? 15); lia|]. split; [done|]. rewrite IH2, not_elem_of_cons.
    split; [intros [Heq ?]|intros [-> [HnF ?]]]; (split; [|try done]).
    + destruct (Z.eqb_spec d 15); lia.
    + split; [|done]. intros HF'. symmetry in HF'. apply HF in HF'. subst. simpl in Heq. lia.
    + destruct (Z.eqb_spec d 15) as [->|]; [|done]. exfalso. apply HnF. symmetry. by apply HF.
Qed.

(** [__simple_atoi16] reads back a number printed with ["%x"] exactly when
    the printed text has no digit F: the parser accepts F as a digit but its
    value test leaves it out. *)
Theorem atoi16_format_round_trip n text :
  0 <= n < 2 ^ 64 -> format_text (s2c "%x") [VNum n] = Some text ->
  (__simple_atoi16 text = (n, []) <-> "F"%char ∉ text).
Proof.
  intros Hn Ht. simpl in Ht. rewrite u64_id, app_nil_r in Ht by lia. simplify_eq.
  pose proof (hex_digits_out 40 n [] ltac:(lia) ltac:(constructor)) as Hout.
  unfold __simple_atoi16. rewrite atoi16_loop_digits by (done || lia).
  pose proof (hex_digits_value 40 n [] ltac:(lia) ltac:(lia)) as Hv.
  change (base_value hex_val 16 n []) with n in Hv.
  destruct (atoi16_value_le (hex_digits 40 n []) 0 0 Hout) as [H1 H2]; [lia|].
  rewrite Hv in H1, H2. rewrite u64_id by lia. split.
  - intros [= Heq]. by apply H2 in Heq as [_ ?].
  - intros HF. f_equal. by apply H2.
Qed.

Lemma atoi16_format_round_trip_witness :
  __simple_atoi16 (s2c "1ABE") = (0x1ABE, []) ∧ __simple_atoi16 (s2c "FF") = (0, []).
Proof.
  split; [|reflexivity].
  apply (atoi16_format_round_trip 0x1ABE (s2c "1ABE")); [lia|reflexivity|].
  apply index_of_None. reflexivity.
Defined.
