(* ===== verification/Readline.v ===== *)
(** * Line-buffered reading: simple.c ([__simple_readline]) and readline.c *)
From S2P Require Import Prelude Abi Linux Errno Base.

Definition LF : ascii := "010"%char.

(** ** simple.c *)

Record simple_readline_buf := SimpleReadlineBuf { rl_buf : list ascii; rl_used : Z }.

Definition rl_size : Z := 512.

Definition __simple_readline_init (b : simple_readline_buf) : simple_readline_buf :=
  SimpleReadlineBuf (rl_buf b) 0.

(** Outcome of a call: [NULL], a line, or an access outside the buffer. *)
Inductive rl_result :=
| RL_null
| RL_line (line : cstr)
| RL_undefined.

(** The part up to the label [have_nl]: where the line ends. *)
Inductive rl_found :=
| Found_null
| Found_at (nl : nat)
| Found_undefined.

Fixpoint find_nl (fuel : nat) (fd : Z) (b : simple_readline_buf) : M (rl_found * simple_readline_buf) :=
  match fuel with
  | O => out_of_fuel
  | S fuel =>
    if rl_used b <? 0 then mret (Found_undefined, b) else
    match (if rl_used b =? 0 then None else index_of LF (ztake (rl_used b) (rl_buf b))) with
    | Some nl => mret (Found_at nl, b)
    | None =>
      if rl_size =? rl_used b then mret (Found_at (Z.to_nat (rl_used b)), b)
      else
        '(rd, data) ← sys_read fd (rl_size - rl_used b);
        if rd =? 0 then
          if rl_used b =? 0 then mret (Found_null, b)
          else mret (Found_at (Z.to_nat (rl_used b)), b)
        else find_nl fuel fd (SimpleReadlineBuf (write_at (rl_buf b) (Z.to_nat (rl_used b)) data)
                                                (rl_used b + rd))
    end
  end.

(** The part after [have_nl]: copy the line out, drop it from the buffer. *)
Definition take_line (nl : nat) (b : simple_readline_buf) (max_out : Z) : rl_result * simple_readline_buf :=
  if (nl =? 0)%nat then (RL_null, b)
  else
    let len := Z.min (max_out - 1) (Z.of_nat nl) in
    let used := rl_used b - len in
    let used := if used =? 0 then used else used - 1 in
    if used =? 0 then (RL_line (ztake len (rl_buf b)), SimpleReadlineBuf (rl_buf b) used)
    else if (used <? 0) || (rl_size <? Z.of_nat nl + 1 + used) then (RL_undefined, b)
    else (RL_line (ztake len (rl_buf b)),
          SimpleReadlineBuf (write_at (rl_buf b) 0 (ztake used (drop (nl + 1) (rl_buf b)))) used).

Section SimpleReadline.
Context `{LoopFuel}.

Definition __simple_readline (fd : Z) (b : simple_readline_buf) (max_out : Z)
    : M (rl_result * simple_readline_buf) :=
  '(found, b) ← find_nl loop_fuel fd b;
  mret (match found with
        | Found_null => (RL_null, b)
        | Found_undefined => (RL_undefined, b)
        | Found_at nl => take_line nl b max_out
        end).

(** The callers' loop [while (__simple_readline(...)) ...], collecting lines. *)
Fixpoint simple_read_lines (fuel : nat) (fd : Z) (b : simple_readline_buf) (max_out : Z) : M (list cstr) :=
  match fuel with
  | O => out_of_fuel
  | S fuel =>
    '(r, b) ← __simple_readline fd b max_out;
    match r with
    | RL_line l => ls ← simple_read_lines fuel fd b max_out; mret (l :: ls)
    | RL_null => mret []
    | RL_undefined => undefined
    end
  end.
End SimpleReadline.

(** ** readline.c *)

Record rdline_buffer := RdlineBuffer { rd_buffer : list ascii; rd_usage : Z; rd_next : Z }.

Definition rd_size : Z := 1024.

Definition _readline_init (b : rdline_buffer) : rdline_buffer := RdlineBuffer (rd_buffer b) 0 0.

(** The [while (1)] loop: the returned string and the buffer. *)
Fixpoint readline_loop (fuel : nat) (fd : Z) (b : rdline_buffer) (eof : bool) : M (option cstr * rdline_buffer) :=
  match fuel with
  | O => out_of_fuel
  | S fuel =>
    let read_more :=
      '(count, data) ← sys_read_nocancel fd (rd_size - rd_usage b - 1);
      if count <? 0 then mret (None, b)
      else readline_loop fuel fd
             (RdlineBuffer (write_at (rd_buffer b) (Z.to_nat (rd_usage b)) data) (rd_usage b + count) (rd_next b))
             (eof || (count =? 0)) in
    if 0 <? rd_usage b then
      match index_of LF (ztake (rd_usage b) (rd_buffer b)) with
      | Some p =>
        let buffer := <[p := NUL]> (rd_buffer b) in
        mret (Some (c_str buffer), RdlineBuffer buffer (rd_usage b) (Z.of_nat p + 1))
      | None =>
        if eof then
          let buffer := <[Z.to_nat (rd_usage b) := NUL]> (rd_buffer b) in
          mret (Some (c_str buffer), RdlineBuffer buffer 0 (rd_next b))
        else read_more
      end
    else if eof then mret (None, b) else read_more
  end.

Section Readline.
Context `{LoopFuel}.

Definition _readline (fd : Z) (b : rdline_buffer) : M (option cstr * rdline_buffer) :=
  let b :=
    if rd_next b =? 0 then b
    else RdlineBuffer
           (write_at (rd_buffer b) 0 (ztake (rd_usage b - rd_next b) (zdrop (rd_next b) (rd_buffer b))))
           (rd_usage b - rd_next b) 0 in
  readline_loop loop_fuel fd b false.
End Readline.

(** ** A file read in arbitrary chunks

    The host of the theorems below: the descriptor is a file of which
    [content] is still unread; every read returns between one byte and the
    requested number, as many as the oracle says. *)

Definition file_state : Type := cstr * list nat.

Definition file_read (n : nat) (s : file_state) : cstr * file_state :=
  let k := Nat.min n (Nat.max 1 (hd 1%nat s.2)) in
  (take k s.1, (drop k s.1, tl s.2)).

Definition file_host : handler file_state := λ X e s,
  match e in linuxE X return X * file_state with
  | Sys _ _ => (0, s)
  | SysOut nr _ o =>
    match o in outk Y return (Z * Y) * file_state with
    | OBytes n => let '(data, s') := file_read (Z.to_nat n) s in ((Z.of_nat (length data), data), s')
    | o => ((0, zero_out o), s)
    end
  | Lkm c => ((0, zero_lkm c), s)
  end.

Lemma run_read_nocancel fd n g s :
  0 <= n <= 4096 ->
  run file_host (sys_read_nocancel fd n) g s =
  let '(data, s') := file_read (Z.to_nat n) s in Some (Z.of_nat (length data), data, g, s').
Proof.
  intros Hn. unfold sys_read_nocancel, syscall_int_out. rewrite !run_bind.
  unfold run at 1. cbn [run_prog LINUX_SYSCALL_out trigger file_host].
  destruct (file_read (Z.to_nat n) s) as [data s'] eqn:E. cbn.
  assert (length data <= Z.to_nat n)%nat by (unfold file_read in E; simplify_eq; rewrite length_take; lia).
  rewrite s32_id by (unfold INT_MIN, INT_MAX; lia). destruct (Z.ltb_spec (Z.of_nat (length data)) 0); [lia|].
  unfold ztake. cbn. by rewrite Nat2Z.id, take_ge by lia.
Qed.

Lemma run_read fd n g s :
  0 <= n <= 4096 -> g_uses_threads g = false ->
  run file_host (sys_read fd n) g s =
  let '(data, s') := file_read (Z.to_nat n) s in Some (Z.of_nat (length data), data, g, s').
Proof.
  intros Hn Hg. rewrite <- run_read_nocancel with (fd := fd) by done.
  unfold sys_read, CANCELATION_POINT, sys_pthread_canceled. rewrite !run_bind. cbn.
  by rewrite Hg.
Qed.

Lemma file_read_app n content or data s' :
  (0 < n)%nat -> file_read n (content, or) = (data, s') ->
  content = data ++ s'.1 ∧ (length data <= n)%nat ∧ (content ≠ [] -> data ≠ []).
Proof.
  unfold file_read. intros Hn E. simplify_eq/=. split; [by rewrite take_drop|].
  split; [rewrite length_take; lia|]. intros Hc Hd. destruct content as [|c content]; [done|].
  apply (f_equal length) in Hd. rewrite length_take in Hd. simpl in Hd. lia.
Qed.

Lemma index_of_app_l c a b n : index_of c a = Some n -> index_of c (a ++ b) = Some n.
Proof.
  revert n. induction a as [|x a IH]; simpl; intros n Hn; [done|].
  destruct (ascii_dec x c); [done|]. destruct (index_of c a) as [m|]; [|done].
  by rewrite (IH m eq_refl).
Qed.

(** The unread bytes: those in the buffer, then those of the file. *)
Definition rl_pending (b : simple_readline_buf) (content : cstr) : cstr := ztake (rl_used b) (rl_buf b) ++ content.

Definition rl_wf (b : simple_readline_buf) : Prop := length (rl_buf b) = 512%nat ∧ 0 <= rl_used b <= 512.

(** What follows the next line: the end of the file, or a newline and more. *)
Definition line_end (tail : cstr) : Prop := tail = [] ∨ ∃ rest, tail = LF :: rest.

Lemma rl_read_wf b data :
  rl_wf b -> (length data <= Z.to_nat (512 - rl_used b))%nat ->
  let b' := SimpleReadlineBuf (write_at (rl_buf b) (Z.to_nat (rl_used b)) data) (rl_used b + Z.of_nat (length data)) in
  rl_wf b' ∧ ∀ content, rl_pending b' content = rl_pending b (data ++ content).
Proof.
  intros [Hl Hu] Hd b'. split.
  - split; simpl; [rewrite write_at_length; lia|lia].
  - intros content. unfold rl_pending, ztake. simpl.
    rewrite Z2Nat.inj_add, Nat2Z.id, write_at_take by lia. by rewrite app_assoc.
Qed.

Lemma find_nl_run fuel fd g b content or l tail :
  rl_wf b -> g_uses_threads g = false -> (length content < fuel)%nat ->
  rl_pending b content = l ++ tail -> line_end tail -> LF ∉ l -> (0 < length l <= 511)%nat ->
  ∃ b' content' or',
    run file_host (find_nl fuel fd b) g (content, or) = Some (Found_at (length l), b', g, (content', or')) ∧
    rl_wf b' ∧ rl_pending b' content' = l ++ tail ∧ (Z.of_nat (length l) <= rl_used b') ∧
    (tail = [] -> rl_used b' = Z.of_nat (length l) ∧ content' = []) ∧
    (tail ≠ [] -> Z.of_nat (length l) < rl_used b').
Proof.
  revert b content or. induction fuel as [|fuel IH]; intros b content or Hwf Hg Hf Hp Ht Hl Hlen; [lia|].
  pose proof Hwf as [Hbl Hu]. cbn [find_nl]. destruct (Z.ltb_spec (rl_used b) 0); [lia|].
  assert (length (ztake (rl_used b) (rl_buf b)) = Z.to_nat (rl_used b)) as HA by (unfold ztake; rewrite length_take; lia).
  destruct (if rl_used b =? 0 then None else index_of LF (ztake (rl_used b) (rl_buf b))) as [n|] eqn:Ei.
  - destruct (Z.eqb_spec (rl_used b) 0); [done|].
    pose proof (index_of_app_l _ _ content _ Ei) as Ei'. fold (rl_pending b content) in Ei'. rewrite Hp in Ei'.
    destruct Ht as [->|[rest ->]].
    { rewrite app_nil_r in Ei'. apply index_of_None in Hl. congruence. }
    rewrite index_of_app in Ei' by done. simplify_eq.
    apply index_of_Some in Ei as [Ei _]. apply lookup_lt_Some in Ei.
    eexists b, content, or. split_and!; [done|done|done|lia|done|intros; lia].
  - assert (LF ∉ ztake (rl_used b) (rl_buf b)) as HnA.
    { destruct (Z.eqb_spec (rl_used b) 0) as [->|]; [unfold ztake; simpl; set_solver|]. by apply index_of_None. }
    clear Ei. unfold rl_pending in Hp.
    assert (∃ l2, l = ztake (rl_used b) (rl_buf b) ++ l2 ∧ content = l2 ++ tail) as (l2 & -> & ->).
    { destruct (app_eq_inv _ _ _ _ Hp) as [(k & H1 & H2)|(k & H1 & H2)]; [|by exists k].
      destruct Ht as [->|[rest ->]].
      - apply eq_sym, app_eq_nil in H2 as [-> ->]. rewrite app_nil_r in H1. exists []. by rewrite app_nil_r, H1.
      - destruct k as [|c k]; [simpl in H2; subst; exists []; rewrite app_nil_r in *; by rewrite H1|].
        simplify_eq/=. exfalso. apply HnA. rewrite H1. set_solver. }
    rewrite length_app, HA in Hlen. unfold rl_size.
    destruct (Z.eqb_spec 512 (rl_used b)); [lia|].
    rewrite run_bind, run_read by (done || lia).
    destruct (file_read _ _) as [data [content' or']] eqn:Er.
    apply file_read_app in Er as (Hsplit & Hdl & Hne); [|lia]. simpl in Hsplit. cbn.
    destruct (Z.eqb_spec (Z.of_nat (length data)) 0) as [Hz|Hz].
    + assert (data = []) as -> by (destruct data; [done|simpl in Hz; lia]).
      destruct (l2 ++ tail) as [|c k] eqn:E; [|by destruct Hne].
      apply app_eq_nil in E as [-> ->]. rewrite app_nil_r in *. simpl in Hsplit. subst.
      destruct (Z.eqb_spec (rl_used b) 0); [simpl in *; lia|]. rewrite HA.
      eexists b, [], or'. split_and!; [done|done|by unfold rl_pending; rewrite app_nil_r|lia|intros; split; [lia|done]|done].
    + destruct (rl_read_wf b data) as [Hwf' Hpend']; [done|lia|].
      eapply IH; [exact Hwf'|done| | |done|done|rewrite length_app, HA; lia].
      * rewrite Hsplit in Hf. rewrite length_app in Hf. lia.
      * rewrite Hpend', <- Hsplit. unfold rl_pending. by rewrite app_assoc.
Qed.

Lemma rl_take_line b content l tail max_out :
  rl_wf b -> rl_pending b content = l ++ tail -> line_end tail -> (0 < length l)%nat ->
  Z.of_nat (length l) <= max_out - 1 -> Z.of_nat (length l) <= rl_used b ->
  (tail = [] -> rl_used b = Z.of_nat (length l) ∧ content = []) ->
  (tail ≠ [] -> Z.of_nat (length l) < rl_used b) ->
  ∃ b', take_line (length l) b max_out = (RL_line l, b') ∧ rl_wf b' ∧ rl_pending b' content = drop 1 tail.
Proof.
  intros [Hbl Hu] Hp Ht Hl Hm Hle He Hn. unfold take_line.
  destruct (Nat.eqb_spec (length l) 0); [lia|]. rewrite Z.min_r by lia.
  assert (ztake (Z.of_nat (length l)) (rl_buf b) = l) as ->.
  { unfold rl_pending in Hp. apply (f_equal (take (length l))) in Hp. unfold ztake in *.
    rewrite take_app_le, take_app_length, take_take in Hp by (rewrite length_take; lia).
    rewrite Nat2Z.id. rewrite <- Hp at 2. f_equal. lia. }
  destruct Ht as [->|[rest ->]].
  - destruct He as [He ->]; [done|]. rewrite He, Z.sub_diag. simpl. eexists. split; [done|].
    split; [split; simpl; lia|]. done.
  - specialize (Hn ltac:(done)). destruct (Z.eqb_spec (rl_used b - Z.of_nat (length l)) 0); [lia|].
    assert (take (Z.to_nat (rl_used b - Z.of_nat (length l) - 1)) (drop (length l + 1) (rl_buf b)) ++ content = rest) as Hrest.
    { unfold rl_pending, ztake in Hp. apply (f_equal (drop (length l + 1))) in Hp.
      rewrite (cons_middle LF), (app_assoc l [LF] rest) in Hp. rewrite drop_app_le in Hp by (rewrite length_take; lia).
      rewrite (drop_app_length' (l ++ [LF])) in Hp by (rewrite length_app; done). rewrite <- Hp. f_equal.
      rewrite take_drop_commute. f_equal. f_equal. lia. }
    destruct (Z.eqb_spec (rl_used b - Z.of_nat (length l) - 1) 0) as [Hz|Hz].
    + eexists. split; [done|]. split; [split; simpl; lia|]. rewrite Hz in *. done.
    + destruct (Z.ltb_spec (rl_used b - Z.of_nat (length l) - 1) 0); [lia|].
      destruct (Z.ltb_spec rl_size (Z.of_nat (length l) + 1 + (rl_used b - Z.of_nat (length l) - 1)));
        [unfold rl_size in *; lia|]. cbn [orb].
      eexists. split; [done|].
      assert (length (ztake (rl_used b - Z.of_nat (length l) - 1) (drop (length l + 1) (rl_buf b)))
              = Z.to_nat (rl_used b - Z.of_nat (length l) - 1)) as Hlen
        by (unfold ztake; rewrite length_take, length_drop; lia).
      split; [split; simpl; [rewrite write_at_length; lia|lia]|].
      unfold rl_pending. simpl. unfold ztake at 1. rewrite <- Hlen.
      rewrite write_at_take0 by lia. done.
Qed.

Lemma find_nl_eof fuel fd g b or :
  rl_wf b -> g_uses_threads g = false -> (0 < fuel)%nat -> rl_pending b [] = [] ->
  ∃ or', run file_host (find_nl fuel fd b) g ([], or) = Some (Found_null, b, g, ([], or')).
Proof.
  intros [Hbl Hu] Hg Hf Hp. destruct fuel as [|fuel]; [lia|]. unfold rl_pending, ztake in Hp.
  apply app_eq_nil in Hp as [Hp _]. apply (f_equal length) in Hp. rewrite length_take in Hp. simpl in Hp.
  assert (rl_used b = 0) as Hz by lia. cbn [find_nl]. rewrite Hz. simpl.
  rewrite run_bind, run_read by (done || unfold rl_size; lia). unfold file_read. simpl.
  rewrite take_nil, drop_nil. simpl. eauto.
Qed.

Section Lines.
Context `{LoopFuel}.

Lemma simple_readline_run fd g b content or l tail max_out :
  rl_wf b -> g_uses_threads g = false -> (length content < loop_fuel)%nat ->
  rl_pending b content = l ++ tail -> line_end tail -> LF ∉ l -> (0 < length l <= 511)%nat ->
  Z.of_nat (length l) <= max_out - 1 ->
  ∃ b' content' or',
    run file_host (__simple_readline fd b max_out) g (content, or) = Some (RL_line l, b', g, (content', or')) ∧
    rl_wf b' ∧ rl_pending b' content' = drop 1 tail.
Proof.
  intros Hwf Hg Hf Hp Ht Hl Hlen Hm.
  destruct (find_nl_run loop_fuel fd g b content or l tail) as (b1 & c1 & or1 & Hrun & Hwf1 & Hp1 & Hu1 & He1 & Hn1);
    [done..|].
  destruct (rl_take_line b1 c1 l tail max_out) as (b2 & Htk & Hwf2 & Hp2); [done..|lia|done|done|done|done|].
  exists b2, c1, or1. unfold __simple_readline. rewrite run_bind, Hrun.
  split; [|done]. cbn. by rewrite Htk.
Qed.

(** For a file made of non-empty lines of at most 511 characters, the
    callers' loop over [__simple_readline] with a 512-byte line buffer returns
    exactly the lines of the file, however the kernel splits it into reads. *)
Theorem simple_readline_all_lines fd g b or ls fuel :
  length (rl_buf b) = 512%nat -> g_uses_threads g = false ->
  Forall (λ l, (LF ∉ l) ∧ (0 < length l <= 511)%nat) ls ->
  let content := concat ((λ l, l ++ [LF]) <$> ls) in
  (length content < loop_fuel)%nat -> (length ls < fuel)%nat ->
  ∃ s', run file_host (simple_read_lines fuel fd (__simple_readline_init b) 512) g (content, or)
        = Some (ls, g, s').
Proof.
  intros Hb Hg Hls content Hf Hfuel.
  assert (∀ b content, rl_wf b -> rl_pending b content = concat ((λ l, l ++ [LF]) <$> ls) ->
    (length (rl_pending b content) < loop_fuel)%nat -> ∀ or,
    ∃ s', run file_host (simple_read_lines fuel fd b 512) g (content, or) = Some (ls, g, s')) as Hgen.
  { clear b Hb or content Hf. revert fuel Hfuel. induction Hls as [|l ls [Hl Hlen] Hls IH];
      intros fuel Hfuel b content Hwf Hp Hf or; (destruct fuel as [|fuel]; [simpl in Hfuel; lia|]).
    - csimpl in Hp. assert (content = []) as -> by (unfold rl_pending in Hp; by apply app_eq_nil in Hp as [_ ?]).
      destruct (find_nl_eof loop_fuel fd g b or) as [or' Hrun]; [done|done|lia|done|].
      eexists. cbn [simple_read_lines]. rewrite run_bind. unfold __simple_readline. rewrite run_bind, Hrun. done.
    - csimpl in Hp. rewrite <- app_assoc in Hp.
      destruct (simple_readline_run fd g b content or l ([LF] ++ concat ((λ l, l ++ [LF]) <$> ls)) 512)
        as (b' & c' & or' & Hrun & Hwf' & Hp'); [done|done| |done|right; by eexists|done|done|lia|].
      { unfold rl_pending in Hf. rewrite length_app in Hf. lia. }
      cbn [app] in Hp'. rewrite skipn_cons, drop_0 in Hp'. destruct (IH fuel ltac:(simpl in Hfuel; lia) b' c' Hwf') with or' as [s' Hs'].
      { done. }
      { rewrite Hp'. rewrite Hp, !length_app in Hf. eapply Nat.le_lt_trans; [|exact Hf]. lia. }
      exists s'. cbn [simple_read_lines]. rewrite run_bind, Hrun, run_bind, Hs'. done. }
  apply Hgen; [split; simpl; [done|lia]|done|done].
Qed.
End Lines.

Lemma simple_readline_all_lines_witness :
  ∃ s', run file_host (@simple_read_lines 99%nat 9 5 (__simple_readline_init (SimpleReadlineBuf (replicate 512 NUL) 7)) 512)
          init_gstate (s2c "ab" ++ [LF] ++ s2c "c" ++ [LF], [1; 3]%nat) = Some ([s2c "ab"; s2c "c"], init_gstate, s').
Proof.
  apply (@simple_readline_all_lines 99%nat 5 init_gstate (SimpleReadlineBuf (replicate 512 NUL) 7) [1; 3]%nat
           [s2c "ab"; s2c "c"] 9); [reflexivity|reflexivity| |vm_compute; lia|simpl; lia].
  repeat constructor; try (by apply index_of_None); simpl; lia.
Defined.

(** ** Memory safety of the line buffer *)

(** read(2) succeeds and stores at most what was asked for. *)
Definition read_ok (n : Z) (r : Z * list ascii) : Prop := r.1 = Z.of_nat (length r.2) ∧ r.1 <= n.

Definition reads_host : protocol := Protocol
  (λ X e, True)
  (λ X e,
    match e in linuxE X return X -> Prop with
    | SysOut _ _ o => match o in outk Y return Z * Y -> Prop with OBytes n => read_ok n | _ => λ _, True end
    | _ => λ _, True
    end)
  True.

Lemma sys_read_wp fd n g (Q : Z * list ascii -> gstate -> Prop) :
  0 <= n <= 4096 -> g_uses_threads g = false ->
  (∀ data, Z.of_nat (length data) <= n -> Q (Z.of_nat (length data), data) g) ->
  wp reads_host (sys_read fd n) g Q.
Proof.
  intros Hn Hg HQ. unfold sys_read, CANCELATION_POINT, sys_pthread_canceled. wp_step. wp_step. wp_step.
  rewrite Hg. change ((0 =? 0) && negb false) with true. cbn iota. wp_step.
  change (- EINVAL =? 0) with false. cbn iota. unfold sys_read_nocancel. wp_step. apply wp_syscall_int_out; [done|].
  intros r data [Hr Hle]. simpl in Hr, Hle. subst r. rewrite s32_id by (unfold INT_MIN, INT_MAX; lia).
  destruct (Z.ltb_spec (Z.of_nat (length data)) 0); [lia|]. wp_step.
  unfold ztake. rewrite Nat2Z.id, take_ge by lia. by apply HQ.
Qed.

Lemma find_nl_wp fuel fd b g :
  rl_wf b -> g_uses_threads g = false ->
  wp reads_host (find_nl fuel fd b) g
    (λ r g', g' = g ∧ rl_wf r.2 ∧
       match r.1 with Found_at nl => Z.of_nat nl <= rl_used r.2 | Found_null => True | Found_undefined => False end).
Proof.
  revert b. induction fuel as [|fuel IH]; intros b Hwf Hg; [done|]. pose proof Hwf as [Hbl Hu]. cbn [find_nl].
  destruct (Z.ltb_spec (rl_used b) 0); [lia|].
  destruct (if rl_used b =? 0 then None else index_of LF (ztake (rl_used b) (rl_buf b))) as [n|] eqn:Ei.
  - wp_step. split; [done|]. split; [done|]. simpl. destruct (_ =? _); [done|].
    apply index_of_Some in Ei as [Ei _]. apply lookup_lt_Some in Ei. unfold ztake in Ei. rewrite length_take in Ei. lia.
  - unfold rl_size. destruct (Z.eqb_spec 512 (rl_used b)); [wp_step; split; [done|]; split; [done|]; simpl; lia|].
    wp_step. apply sys_read_wp; [lia|done|]. intros data Hd. destruct (Z.eqb_spec (Z.of_nat (length data)) 0).
    + destruct (_ =? _); wp_step; (split; [done|]); (split; [done|]); simpl; [done|lia].
    + apply IH; [|done]. by apply rl_read_wf; [|lia].
Qed.

Lemma take_line_wf nl b :
  rl_wf b -> Z.of_nat nl <= rl_used b ->
  match take_line nl b 512 with
  | (RL_undefined, _) => False
  | (RL_line l, b') => rl_wf b' ∧ (length l <= 511)%nat
  | (RL_null, b') => rl_wf b'
  end.
Proof.
  intros [Hbl Hu] Hnl. unfold take_line. destruct (Nat.eqb_spec nl 0); [done|].
  set (len := Z.min (512 - 1) (Z.of_nat nl)). set (used := if rl_used b - len =? 0 then rl_used b - len else rl_used b - len - 1).
  assert (0 <= used ∧ (used ≠ 0 -> len = Z.of_nat nl ∧ used = rl_used b - len - 1)) as [Hpos Hcase].
  { subst used len. destruct (Z.eqb_spec (rl_used b - Z.min (512 - 1) (Z.of_nat nl)) 0); lia. }
  assert (length (ztake len (rl_buf b)) <= 511)%nat by (unfold ztake; rewrite length_take; subst len; lia).
  destruct (Z.eqb_spec used 0) as [Hz|Hnz]; [split; [split; simpl; lia|done]|].
  destruct (Hcase Hnz) as [Hl ->]. unfold rl_size. destruct (Z.ltb_spec (rl_used b - len - 1) 0); [lia|].
  destruct (Z.ltb_spec 512 (Z.of_nat nl + 1 + (rl_used b - len - 1))); [lia|]. simpl. split; [|done].
  split; simpl; [|lia]. rewrite write_at_length; [done|]. unfold ztake. rewrite length_take, length_drop. lia.
Qed.

Lemma simple_readline_wp `{LoopFuel} fd b g :
  rl_wf b -> g_uses_threads g = false ->
  wp reads_host (__simple_readline fd b 512) g
    (λ r g', g' = g ∧ rl_wf r.2 ∧
       match r.1 with RL_line l => (length l <= 511)%nat | RL_null => True | RL_undefined => False end).
Proof.
  intros Hwf Hg. unfold __simple_readline. wp_step. eapply wp_mono; [by apply find_nl_wp|].
  intros [found b'] g' (-> & Hwf' & Hf). simpl in *. wp_step. split; [done|].
  destruct found as [|nl|]; [done| |done]. pose proof (take_line_wf nl b' Hwf' Hf) as Ht.
  destruct (take_line nl b' 512) as [[] ?]; simpl; naive_solver.
Qed.

(** Memory safety of [__simple_readline] with 512-byte buffers, for any
    file contents and any way the kernel splits them: no access outside the
    buffers, the buffer stays well formed, and a returned line leaves room for
    its terminator. *)
Theorem simple_readline_safe `{LoopFuel} fd b g :
  length (rl_buf b) = 512%nat -> 0 <= rl_used b <= 512 -> g_uses_threads g = false ->
  wp reads_host (__simple_readline fd b 512) g
    (λ r g', length (rl_buf r.2) = 512%nat ∧ 0 <= rl_used r.2 <= 512 ∧
       match r.1 with RL_line l => strlen l < 512 | RL_null => True | RL_undefined => False end).
Proof.
  intros Hb Hu Hg. eapply wp_mono; [by apply simple_readline_wp|]. intros [r b'] g' (_ & [? ?] & Hr). simpl in *.
  split; [done|]. split; [done|]. destruct r; [done| |done]. unfold strlen. lia.
Qed.

Lemma simple_readline_safe_witness :
  wp reads_host (@__simple_readline 3%nat 4 (SimpleReadlineBuf (replicate 512 "x"%char) 512) 512) init_gstate
    (λ r g', length (rl_buf r.2) = 512%nat ∧ 0 <= rl_used r.2 <= 512 ∧
       match r.1 with RL_line l => strlen l < 512 | RL_null => True | RL_undefined => False end).
Proof. apply (@simple_readline_safe 3%nat 4); by vm_compute. Defined.
