(* ===== verification/Vchroot.v ===== *)
(** * vchroot_userspace.c: path resolution inside the Darling prefix

    Every path of an application is resolved by [vchroot_expand] against the
    prefix directory, following symbolic links itself, before it reaches a
    Linux system call; [vchroot_unexpand] and [vchroot_fdpath] translate back.
    fdpath.c is included. *)
From S2P Require Import Prelude Abi Linux Errno Base Simple.

Definition SLASH : ascii := "/"%char.
Definition EXIT_PATH : cstr := s2c "/Volumes/SystemRoot".
(** [sizeof(EXIT_PATH)], the terminator included. *)
Definition sizeof_EXIT_PATH : Z := 20.
Definition MAX_SYMLINK_DEPTH : Z := 10.
Definition PATH_SIZE : Z := 4096.
Definition LINUX_S_IFMT : Z := 0xF000.
Definition LINUX_S_IFLNK : Z := 0xA000.

(** [struct vchroot_expand_args]; the flag word only carries
    [VCHROOT_FOLLOW]. *)
Record vchroot_expand_args := VchrootExpandArgs { vc_path : cstr; vc_dfd : Z; vc_follow : bool }.

(** [struct context]; a string buffer is the string stored in it. *)
Record context := Context_ {
  cx_root : cstr; cx_root_len : Z;
  cx_path : cstr; cx_path_len : Z;
  cx_depth : Z; cx_unknown : bool; cx_follow : bool }.

Definition set_path (p : cstr) (n : Z) (cx : context) : context :=
  Context_ (cx_root cx) (cx_root_len cx) p n (cx_depth cx) (cx_unknown cx) (cx_follow cx).
Definition set_root (r : cstr) (n : Z) (cx : context) : context :=
  Context_ r n (cx_path cx) (cx_path_len cx) (cx_depth cx) (cx_unknown cx) (cx_follow cx).
Definition set_unknown (b : bool) (cx : context) : context :=
  Context_ (cx_root cx) (cx_root_len cx) (cx_path cx) (cx_path_len cx) (cx_depth cx) b (cx_follow cx).
Definition set_link_state (depth : Z) (follow : bool) (cx : context) : context :=
  Context_ (cx_root cx) (cx_root_len cx) (cx_path cx) (cx_path_len cx) depth (cx_unknown cx) follow.

(** ** Scanning the input path *)

(** The component at the start of [from], and the rest ([*end]). *)
Fixpoint next_component (from : cstr) : cstr * cstr :=
  match from with
  | [] => ([], [])
  | c :: r => if ascii_dec c SLASH then ([], from) else let '(comp, e) := next_component r in (c :: comp, e)
  end.

Fixpoint skip_slashes (p : cstr) : cstr :=
  match p with
  | c :: r => if ascii_dec c SLASH then skip_slashes r else p
  | [] => []
  end.

(** ** The ".." component *)

(** The backwards scan [while (true) { if ( *p == '/') ... p--; }] from index
    [i]: the position of the slash. *)
Fixpoint last_slash (path : cstr) (i : nat) : option nat :=
  match path !! i with
  | Some c => if ascii_dec c SLASH then Some i else match i with O => None | S i => last_slash path i end
  | None => match i with O => None | S i => last_slash path i end
  end.

(** The path with '/' appended is [cx_path cx]; the prefix is given.  [None]
    when a store, or the scan for a slash, leaves the buffer. *)
Definition dotdot (prefix_path : cstr) (prefix_path_len : Z) (cx : context) : option (Z * context) :=
  let len := prefix_path_len + sizeof_EXIT_PATH in
  if (cx_path_len cx <=? 1) && (PATH_SIZE <=? len) then None else
  let cx :=
    if cx_path_len cx <=? 1 then
      set_root prefix_path prefix_path_len
        (set_path (ztake (len - 1) (prefix_path ++ EXIT_PATH) ++ [SLASH]) len cx)
    else cx in
  match (if 2 <=? cx_path_len cx then last_slash (cx_path cx) (Z.to_nat (cx_path_len cx - 2)) else None) with
  | None => None
  | Some p =>
    let cx := set_path (take p (cx_path cx)) (Z.of_nat p) cx in
    if cx_path_len cx <? cx_root_len cx then Some (- LINUX_ENOENT, cx) else Some (0, cx)
  end.

(** ** Case-insensitive lookup *)

(** Entries of one getdents64 batch of [len] bytes, from offset [pos]. *)
Fixpoint scan_dirents (des : list linux_dirent64) (pos len : Z) (name : cstr) : option cstr :=
  match des with
  | [] => None
  | de :: des =>
    if pos <? len then
      if strcaseeq (ld_name de) name then Some (ld_name de)
      else scan_dirents des (pos + ld_reclen de) len name
    else None
  end.

Fixpoint find_icase (fuel : nat) (dfd : Z) (name : cstr) : M (option cstr) :=
  match fuel with
  | O => out_of_fuel
  | S fuel =>
    '(len, des) ← syscall_int_out __NR_getdents64 [AInt dfd; AInt 4096] (ODirents 4096);
    if 0 <? len then
      match scan_dirents des 0 len name with
      | Some n => mret (Some n)
      | None => find_icase fuel dfd name
      end
    else mret None
  end.

(** The code between [lstat] failing with ENOENT and [close(dfd)]. *)
Definition icase_lookup `{LoopFuel} (prevlen : Z) (cx : context) : M context :=
  let dir := ztake (prevlen - 1) (cx_path cx) in
  let name := zdrop prevlen (cx_path cx) in
  dfd ← syscall_int __NR_open [AStr (if 1 <? prevlen then dir else s2c "/"); AInt LINUX_O_RDONLY];
  cx ← (if dfd <? 0 then mret (set_unknown true cx)
        else
          found ← find_icase loop_fuel dfd name;
          mret (match found with
                | Some n => set_path (ztake prevlen (cx_path cx) ++ n) (cx_path_len cx) cx
                | None => set_unknown true cx
                end));
  LINUX_SYSCALL __NR_close [AInt dfd];;
  mret cx.

(** ** One component *)

(** After the label [ignore_symlink]: leaving through the exit path. *)
Definition check_exit (cx : context) : context :=
  if (0 <? cx_root_len cx) && (cx_path_len cx - cx_root_len cx =? sizeof_EXIT_PATH - 1) then
    if strncaseeq (zdrop (cx_root_len cx) (cx_path cx)) EXIT_PATH 19
    then set_root [] 0 (set_path [] 0 cx) else cx
  else cx.

(** What one step of the loop does next: go on, or return from the function. *)
Inductive outcome :=
| Continue (cx : context)
| Return (rv : Z) (cx : context).

Section Run.
Context `{LoopFuel, IcaseEnabled}.
Variable prefix_path : cstr.
Variable prefix_path_len : Z.

(** Following the symbolic link at [cx_path cx]; [run] is [vchroot_run]. *)
Definition follow_symlink (run : cstr -> context -> M (Z * context)) (prevlen : Z) (cx : context) : M outcome :=
  '(rv, data) ← syscall_int_out __NR_readlink [AStr (cx_path cx); AInt 511] (OBytes 511);
  if rv <? 0 then mret (Return rv cx)
  else
    let link := c_str (ztake rv data) in
    if strneq (cx_path cx) (s2c "/proc") 5 && bool_decide (":"%char ∈ link)
    then mret (Continue (check_exit cx))
    else
      let absolute := match link with c :: _ => if ascii_dec c SLASH then true else false | [] => false end in
      let cx := if absolute then cx else set_path (ztake (prevlen - 1) (cx_path cx)) (prevlen - 1) cx in
      let orig_follow := cx_follow cx in
      let cx := set_link_state (cx_depth cx + 1) true cx in
      let cx := if absolute then set_root prefix_path prefix_path_len cx else cx in
      '(rv, cx) ← run link cx;
      let cx := set_link_state (cx_depth cx - 1) orig_follow cx in
      if rv =? 0 then mret (Continue (check_exit cx)) else mret (Return rv cx).

Definition is_dot (comp : cstr) : bool := streq comp (s2c ".") || streq comp [].
Definition is_dotdot (comp : cstr) : bool := streq comp (s2c "..").

(** The loop body of [vchroot_run] for the component [comp]; [more] is
    [*end != 0].  The slash and the terminator behind it are stored before
    any test: on a path of 4095 characters, which [readlink] can give for the
    working directory, the terminator is stored behind the buffer. *)
Definition run_component (run : cstr -> context -> M (Z * context)) (comp : cstr) (more : bool) (cx : context)
    : M outcome :=
  if is_dot comp then mret (Continue cx)
  else
    let cx := set_path (ztake (cx_path_len cx) (cx_path cx) ++ [SLASH]) (cx_path_len cx + 1) cx in
    if PATH_SIZE <=? cx_path_len cx then undefined else
    if is_dotdot comp then
      match dotdot prefix_path prefix_path_len cx with
      | None => undefined
      | Some (rv, cx) => mret (if rv =? 0 then Continue cx else Return rv cx)
      end
    else
      let len := strlen comp in
      if PATH_SIZE <? len + cx_path_len cx + 2 then mret (Return (- LINUX_ENOENT) cx)
      else
        let prevlen := cx_path_len cx in
        let cx := set_path (ztake prevlen (cx_path cx) ++ comp) (prevlen + len) cx in
        if cx_unknown cx then mret (Continue (check_exit cx))
        else
          '(status, st) ← syscall_int_out __NR_lstat [AStr (cx_path cx)] OStat;
          if icase_enabled && (status =? - LINUX_ENOENT) then
            cx ← icase_lookup prevlen cx; mret (Continue (check_exit cx))
          else if (status =? 0) && (Z.land (lst_mode st) LINUX_S_IFMT =? LINUX_S_IFLNK) then
            if cx_follow cx || more then follow_symlink run prevlen cx
            else mret (Continue (check_exit cx))
          else mret (Continue (check_exit cx)).

(** The [while (next_component(...))] loop.  [n] bounds the characters left;
    it starts above the length of the path, so it is never used up. *)
Fixpoint components_loop (run : cstr -> context -> M (Z * context)) (n : nat) (input : cstr) (cx : context)
    : M (Z * context) :=
  match n with
  | O => undefined
  | S n =>
    match input with
    | [] => mret (0, cx)
    | _ =>
      let '(comp, e) := next_component input in
      o ← run_component run comp (negb (bool_decide (e = []))) cx;
      match o with
      | Return rv cx => mret (rv, cx)
      | Continue cx => components_loop run n (skip_slashes e) cx
      end
    end
  end.

(** [d] bounds the nesting of symbolic links; [MAX_SYMLINK_DEPTH + 2] levels
    are never used up. *)
Fixpoint vchroot_run (d : nat) (input : cstr) (cx : context) : M (Z * context) :=
  match d with
  | O => undefined
  | S d =>
    if MAX_SYMLINK_DEPTH <? cx_depth cx then mret (- LINUX_ELOOP, cx)
    else
      match input with
      | c :: rest =>
        if ascii_dec c SLASH
        then components_loop (vchroot_run d) (S (length rest)) rest
               (set_path (cx_root cx) (strlen (cx_root cx)) cx)
        else components_loop (vchroot_run d) (S (length input)) input cx
      | [] => components_loop (vchroot_run d) 1 [] cx
      end
  end.
End Run.

(** ** Entry points *)

Definition init_vchroot_path : M unit :=
  '(_, path) ← lkm_call (NR_vchroot_expand (s2c "/") (-100));
  let path := match last path with
              | Some c => if ascii_dec c SLASH then take (length path - 1) path else path
              | None => path
              end in
  modify_state (set_prefix path (strlen path)).

Definition ensure_prefix : M gstate :=
  g ← get_state;
  if g_prefix_path_len g =? -1 then init_vchroot_path;; get_state else mret g.

(** [sprintf(buf, "/proc/self/fd/%d", fd)] with [char buf[50]].  The number
    INT_MIN, which no descriptor has, makes the conversion overflow; the text
    is that of the machine's negation, and such an entry does not exist. *)
Definition proc_fd_path (fd : Z) : cstr :=
  match __simple_sprintf (s2c "/proc/self/fd/%d") [VNum fd] 50 with Some (_, s) => s | None => s2c "/proc/self/fd/-8" end.

Definition readlink_4096 (path : cstr) : M (Z * list ascii) :=
  syscall_int_out __NR_readlink [AStr path; AInt (PATH_SIZE - 1)] (OBytes (PATH_SIZE - 1)).

Definition vchroot_depth : nat := 12.

Section Entry.
Context `{LoopFuel, IcaseEnabled}.

(** The result and [args] with the expanded path. *)
Definition vchroot_expand (args : vchroot_expand_args) : M (Z * vchroot_expand_args) :=
  g ← ensure_prefix;
  let prefix := g_prefix_path g in
  let prefix_len := g_prefix_path_len g in
  let cx := Context_ prefix prefix_len [] 0 0 false (vc_follow args) in
  let finish (r : Z * context) : M (Z * vchroot_expand_args) :=
    mret (r.1, VchrootExpandArgs (if 0 <? cx_path_len r.2 then cx_path r.2 else s2c "/")
                                 (vc_dfd args) (vc_follow args)) in
  match vc_path args with
  | [] => mret (- LINUX_ENOENT, args)
  | c :: _ =>
    if ascii_dec c SLASH then
      r ← vchroot_run prefix prefix_len vchroot_depth (vc_path args) cx; finish r
    else
      '(rv, data) ← readlink_4096 (if vc_dfd args =? -100 then s2c "/proc/self/cwd" else proc_fd_path (vc_dfd args));
      if rv <? 0 then mret (rv, args)
      else
        let cx := if (rv =? 1) && streq (c_str (ztake 1 data)) (s2c "/") then set_path [] 0 cx
                  else set_path (c_str (ztake rv data)) rv cx in
        let cx := if (cx_path_len cx <? cx_root_len cx)
                     || negb (strneq (cx_path cx) (cx_root cx) (Z.to_nat (cx_root_len cx)))
                  then set_root [] 0 cx else cx in
        r ← vchroot_run prefix prefix_len vchroot_depth (vc_path args) cx; finish r
  end.

Definition __darling_vchroot_expand (path : cstr) : M (Z * cstr) :=
  '(rv, a) ← vchroot_expand (VchrootExpandArgs path (-100) false); mret (rv, vc_path a).

(** [None] for the path: the buffer of the caller is left alone. *)
Definition vchroot_fdpath (fd maxlen : Z) : M (Z * option cstr) :=
  g ← ensure_prefix;
  '(rv, data) ← readlink_4096 (proc_fd_path fd);
  if rv <? 0 then mret (rv, None)
  else
    let link := c_str (ztake rv data) in
    if (g_prefix_path_len g <=? rv) && strneq link (g_prefix_path g) (Z.to_nat (g_prefix_path_len g)) then
      if maxlen - 1 <? rv - g_prefix_path_len g then mret (- LINUX_ENAMETOOLONG, None)
      else
        let path := zdrop (g_prefix_path_len g) link in
        mret (0, Some (match path with [] => s2c "/" | _ => path end))
    else if maxlen <? sizeof_EXIT_PATH + rv then mret (- LINUX_ENAMETOOLONG, None)
    else mret (0, Some (EXIT_PATH ++ link)).

Definition fdpath (fd bufsiz : Z) : M (Z * option cstr) := vchroot_fdpath fd bufsiz.
End Entry.

Definition vchroot_unexpand (path : cstr) : M (Z * cstr) :=
  g ← get_state;
  if g_prefix_path_len g <? 0 then undefined
  else if strneq path (g_prefix_path g) (Z.to_nat (g_prefix_path_len g)) then
    let path := zdrop (g_prefix_path_len g) path in
    mret (0, match path with [] => s2c "/" | _ => path end)
  else mret (0, EXIT_PATH ++ path).

(** Setting the prefix from a directory descriptor.  A failing [readlink]
    makes the code index the buffer with a negative number. *)
Definition __darling_vchroot (dfd : Z) : M Z :=
  '(rv, _) ← lkm_call (NR_vchroot dfd);
  if negb (rv =? 0) then mret rv
  else
    '(rv, data) ← readlink_4096 (proc_fd_path dfd);
    if rv <? 0 then undefined
    else modify_state (set_prefix (c_str (ztake rv data)) rv);; mret 0.
