(* ===== verification/VchrootProofs.v ===== *)
(** * vchroot_userspace.c: invariants of path resolution

    The resolution state stays well formed and inside its buffer, recursion
    and loops end, and a resolution that does not name the exit path never
    looks at, or returns, a path outside the prefix, whatever symbolic links
    the host file system contains. *)
From S2P Require Import Prelude Abi Linux Errno Base Simple Vchroot.

(** ** Paths and components *)

(** All components of a path, split at the slashes. *)
Fixpoint components (p : cstr) : list cstr :=
  match p with
  | [] => [[]]
  | c :: r =>
    if ascii_dec c SLASH then [] :: components r
    else match components r with h :: t => (c :: h) :: t | [] => [[c]] end
  end.

Definition is_exit_name (c : cstr) : bool := strcaseeq c (s2c "SystemRoot").

(** A path that names no component "SystemRoot", in any case. *)
Definition no_exit (p : cstr) : Prop := Forall (λ c, is_exit_name c = false) (components p).

Definition ends_component (q : cstr) : Prop := q = [] ∨ ∃ r, q = SLASH :: r.

(** No initial part of [q], cut at a component boundary, is the exit path. *)
Definition exit_free (q : cstr) : Prop :=
  ∀ q1 q2, q = q1 ++ q2 -> ends_component q2 -> strcaseeq q1 EXIT_PATH = false.

(** [p] is the prefix directory or below it. *)
Definition under (prefix p : cstr) : Prop := ∃ q, p = prefix ++ q ∧ ends_component q.

Definition absolute (p : cstr) : Prop := ∃ r, p = SLASH :: r.

(** What a prefix directory looks like: no trailing slash ("/" is stored as
    the empty string), and room for the exit path in a path buffer. *)
Definition prefix_ok (prefix : cstr) : Prop := ends_component prefix ∧ strlen prefix <= 4075.

(** ** The resolution state *)

(** With [x] set, additionally: the resolution is inside the prefix and not on
    its way out. *)
Record cx_ok (x : bool) (prefix : cstr) (cx : context) : Prop := {
  ok_plen : cx_path_len cx = strlen (cx_path cx);
  ok_rlen : cx_root_len cx = strlen (cx_root cx);
  ok_root : cx_root cx = prefix ∨ cx_root cx = [];
  ok_pre : cx_root cx `prefix_of` cx_path cx;
  ok_abs : ends_component (cx_path cx);
  ok_bound : cx_path_len cx <= 4094;
  ok_exit : x = true -> cx_root cx = prefix ∧ ∃ q, cx_path cx = prefix ++ q ∧ ends_component q ∧ exit_free q }.

(** What holds of the state even when the resolution fails: the path string
    fits its buffer. *)
Definition cx_fits (cx : context) : Prop := cx_path_len cx = strlen (cx_path cx) ∧ cx_path_len cx <= 4095.

(** ** The host during a resolution *)

(** Paths given to the kernel are absolute and, with [x], in the prefix. *)
Definition call_path_ok (x : bool) (prefix p : cstr) : Prop := absolute p ∧ (x = true -> under prefix p).

Definition proc_self (p : cstr) : Prop := s2c "/proc/self/" `prefix_of` p.

Definition arg_ok (x : bool) (prefix : cstr) (a : arg) : Prop :=
  match a with AStr p => proc_self p ∨ call_path_ok x prefix p | _ => True end.

(** readlink(2) returns an error or the number of bytes it stored, none of
    which is NUL. *)
Definition readlink_result (n : Z) (r : Z * list ascii) : Prop :=
  INT_MIN <= r.1 < 0 ∨ (r.1 = strlen r.2 ∧ r.1 <= n ∧ Forall (.≠ NUL) r.2).

(** The working directory, or the directory of a descriptor, that a relative
    path starts from.  One byte of the path buffer is left for the slash. *)
Definition cwd_ok (x : bool) (prefix d : cstr) : Prop :=
  absolute d ∧ strlen d <= 4094 ∧
  (x = true -> ∃ q, d = prefix ++ q ∧ ends_component q ∧ exit_free q).

(** The kernel module answers "/" with the prefix directory, with or without
    a trailing slash. *)
Definition prefix_answer (prefix path : cstr) : Prop := path = prefix ∨ path = prefix ++ [SLASH].

(** Only the directory scan of the case-insensitive lookup depends on the
    kernel for its end. *)
Definition vchroot_host `{IcaseEnabled} (x : bool) (prefix : cstr) : protocol := Protocol
  (λ X e,
    match e with
    | Sys _ args | SysOut _ args _ => Forall (arg_ok x prefix) args
    | Lkm _ => True
    end)
  (λ X e,
    match e in linuxE X return X -> Prop with
    | SysOut _ _ o =>
      match o in outk Y return Z * Y -> Prop with
      | OBytes n => λ r, readlink_result n r ∧ (x = true -> n = 511 -> no_exit r.2) ∧
                       (n = 4095 -> 0 <= r.1 -> cwd_ok x prefix r.2)
      | _ => λ _, True
      end
    | Lkm c =>
      match c in lkm_nr Y return Z * Y -> Prop with
      | NR_vchroot_expand _ _ => λ r, prefix_answer prefix r.2
      | _ => λ _, True
      end
    | _ => λ _, True
    end)
  (icase_enabled = true).

(** ** Lemmas on components *)

Lemma tolower_slash c : tolower c = SLASH <-> c = SLASH.
Proof.
  unfold tolower. destruct (_ && _) eqn:E; [|tauto]. pose proof (byte_val_range c). split.
  - intros H0%(f_equal byte_val). rewrite byte_val_of, u8_id in H0 by lia.
    change (byte_val SLASH) with 47 in H0. lia.
  - intros ->. by vm_compute in E.
Qed.

Lemma strcaseeq_slash a b : strcaseeq a b = true -> SLASH ∉ a -> SLASH ∉ b.
Proof.
  unfold strcaseeq. rewrite streq_true. intros Heq Ha Hb. apply Ha.
  assert (SLASH ∈ tolower <$> b) as Hin by (apply list_elem_of_fmap; exists SLASH; split; [by vm_compute|done]).
  rewrite <- Heq in Hin. apply list_elem_of_fmap in Hin as (c & Hc & ?). symmetry in Hc.
  apply (proj1 (tolower_slash c)) in Hc. by subst.
Qed.

Lemma strcaseeq_sym a b : strcaseeq a b = strcaseeq b a.
Proof. unfold strcaseeq, streq. apply bool_decide_ext. split; by intros ->. Qed.

Lemma strcaseeq_trans_false a b c : strcaseeq a b = true -> strcaseeq b c = false -> strcaseeq a c = false.
Proof. unfold strcaseeq. rewrite streq_true. by intros ->. Qed.

Lemma next_component_spec p comp e :
  next_component p = (comp, e) -> p = comp ++ e ∧ (SLASH ∉ comp) ∧ ends_component e.
Proof.
  revert comp e. induction p as [|c p IH]; simpl; intros comp e Heq; simplify_eq.
  { split; [done|]. split; [set_solver|]. by left. }
  destruct (ascii_dec c SLASH) as [->|Hne]; simplify_eq.
  { split; [done|]. split; [set_solver|]. right. by eexists. }
  destruct (next_component p) as [comp' e'] eqn:E. simplify_eq. destruct (IH _ _ eq_refl) as (-> & ? & ?).
  split; [done|]. split; [set_solver|done].
Qed.

Lemma components_app_slash a b : SLASH ∉ a -> components (a ++ SLASH :: b) = a :: components b.
Proof.
  induction a as [|c a IH]; simpl; intros Ha; [done|].
  destruct ascii_dec; [set_solver|]. rewrite IH by set_solver. done.
Qed.

Lemma components_single a : SLASH ∉ a -> components a = [a].
Proof.
  induction a as [|c a IH]; simpl; intros Ha; [done|].
  destruct ascii_dec; [set_solver|]. rewrite IH by set_solver. done.
Qed.

Lemma no_exit_next p comp e :
  no_exit p -> next_component p = (comp, e) -> is_exit_name comp = false ∧ no_exit (skip_slashes e).
Proof.
  intros Hn Heq. apply next_component_spec in Heq as (-> & Hc & [->|[r ->]]).
  - unfold no_exit in *. rewrite app_nil_r, components_single in Hn by done.
    apply Forall_cons in Hn as [? _]. split; [done|]. repeat constructor.
  - unfold no_exit in *. rewrite components_app_slash in Hn by done. apply Forall_cons in Hn as [? Hn].
    split; [done|]. clear -Hn. simpl. revert Hn. induction r as [|c r IH]; simpl; [done|].
    destruct (ascii_dec c SLASH) eqn:E; [|simpl; by rewrite E].
    intros Hn. apply Forall_cons in Hn as [_ ?]. auto.
Qed.

Lemma skip_slashes_length p : (length (skip_slashes p) <= length p)%nat.
Proof. induction p as [|c p IH]; simpl; [done|]. destruct ascii_dec; simpl; lia. Qed.

(** ** Lemmas on the exit path *)

Lemma strcaseeq_app_exit a comp :
  SLASH ∉ comp -> strcaseeq (a ++ SLASH :: comp) EXIT_PATH = true -> is_exit_name comp = true.
Proof.
  unfold is_exit_name, strcaseeq. rewrite !streq_true, fmap_app, fmap_cons. intros Hc Heq.
  change (tolower <$> EXIT_PATH) with (s2c "/volumes" ++ SLASH :: s2c "systemroot") in Heq.
  change (tolower <$> s2c "SystemRoot") with (s2c "systemroot").
  change (tolower SLASH) with SLASH in Heq.
  assert (SLASH ∉ (tolower <$> comp)) as Hc'.
  { intros Hin. apply list_elem_of_fmap in Hin as (c & Hs & ?). symmetry in Hs. apply (proj1 (tolower_slash c)) in Hs. by subst. }
  assert (SLASH ∉ s2c "systemroot") as Hs by (apply index_of_None; reflexivity).
  revert Heq Hc' Hs. generalize (s2c "systemroot"), (s2c "/volumes"), (tolower <$> a), (tolower <$> comp). clear.
  intros s v t k Heq Hk Hs. apply app_eq_inv in Heq as [(w & -> & Hw)|(w & -> & Hw)];
    destruct w as [|c w]; simplify_eq/=; try done; [exfalso; apply Hs|exfalso; apply Hk]; set_solver.
Qed.

Lemma exit_free_nil : exit_free [].
Proof. intros q1 q2 Hq _. symmetry in Hq. apply app_eq_nil in Hq as [-> _]. done. Qed.

Lemma exit_free_cut q r : exit_free (q ++ SLASH :: r) -> exit_free q.
Proof.
  intros Hq q1 q2 -> [->|[s ->]]; [apply (Hq _ (SLASH :: r)); [by rewrite app_nil_r|right; by eexists]|].
  eapply (Hq q1 (SLASH :: s ++ SLASH :: r)); [by rewrite <- app_assoc|right; by eexists].
Qed.

Lemma exit_free_append q comp :
  exit_free q -> SLASH ∉ comp -> is_exit_name comp = false -> exit_free (q ++ SLASH :: comp).
Proof.
  intros Hq Hc He q1 q2 Heq [->|[s ->]].
  - rewrite app_nil_r in Heq. subst q1. apply not_true_iff_false. intros Ht.
    apply strcaseeq_app_exit in Ht; [congruence|done].
  - apply app_eq_inv in Heq as [(w & -> & Hw)|(w & -> & Hw)].
    + destruct w as [|c w]; simplify_eq/=.
      * apply (Hq _ []); [done|by left].
      * apply (Hq _ (SLASH :: w)); [done|right; by eexists].
    + destruct w as [|c w]; simplify_eq/=.
      * apply (Hq _ []); [by rewrite !app_nil_r|by left].
      * exfalso. apply Hc. set_solver.
Qed.

Lemma last_slash_spec path i p :
  last_slash path i = Some p -> (p <= i)%nat ∧ path !! p = Some SLASH.
Proof.
  induction i as [|i IH]; cbn [last_slash].
  - destruct (path !! 0%nat) as [c|] eqn:E; [destruct (ascii_dec c SLASH)|]; intros; simplify_eq. done.
  - destruct (path !! S i) as [c|] eqn:E; [destruct (ascii_dec c SLASH)|]; intros; simplify_eq; [done|..];
      destruct IH; try done; split; try done; lia.
Qed.

Lemma last_slash_exists i r : ∃ p, last_slash (SLASH :: r) i = Some p.
Proof.
  induction i as [|i IH]; [by eexists|]. cbn [last_slash].
  destruct ((SLASH :: r) !! S i) as [c|]; [destruct (ascii_dec c SLASH); [by eexists|]|]; done.
Qed.

Lemma last_slash_at path i : path !! i = Some SLASH -> last_slash path i = Some i.
Proof. intros H. destruct i; cbn [last_slash]; rewrite H; by destruct (ascii_dec SLASH SLASH). Qed.

Lemma last_slash_skip path i c :
  path !! S i = Some c -> c ≠ SLASH -> last_slash path (S i) = last_slash path i.
Proof. intros H Hc. cbn [last_slash]. rewrite H. by destruct (ascii_dec c SLASH). Qed.

(** The scan from inside a component finds the slash before it. *)
Lemma last_slash_component a comp t :
  SLASH ∉ comp -> last_slash (a ++ SLASH :: comp ++ t) (length a + length comp) = Some (length a).
Proof.
  intros Hc. assert (∀ k, (k <= length comp)%nat ->
    last_slash (a ++ SLASH :: comp ++ t) (length a + k) = Some (length a)) as Hk; [|by apply Hk].
  induction k as [|k IH]; intros Hk.
  - rewrite Nat.add_0_r. apply last_slash_at. by rewrite list_lookup_middle.
  - destruct (lookup_lt_is_Some_2 comp k) as [c Hck]; [lia|].
    rewrite Nat.add_succ_r, (last_slash_skip _ _ c); [apply IH; lia| |].
    + rewrite lookup_app_r by lia. replace (S (length a + k) - length a)%nat with (S k) by lia.
      simpl. by apply lookup_app_l_Some.
    + intros ->. apply Hc. by apply (list_elem_of_lookup_2 comp k).
Qed.

Lemma take_lookup_split {A} (l : list A) p c : l !! p = Some c -> l = take p l ++ c :: drop (S p) l.
Proof. intros H. by rewrite take_drop_middle. Qed.

(** ** State lemmas *)

Lemma ztake_strlen (s : cstr) n : n = strlen s -> ztake n s = s.
Proof. intros ->. unfold ztake, strlen. rewrite Nat2Z.id. apply take_ge. lia. Qed.

Lemma ztake_strlen_app (s t : cstr) n : n = strlen s -> ztake n (s ++ t) = s.
Proof. intros ->. unfold ztake, strlen. rewrite Nat2Z.id. by rewrite take_app_length. Qed.

Lemma zdrop_strlen_app (s t : cstr) n : n = strlen s -> zdrop n (s ++ t) = t.
Proof. intros ->. unfold zdrop, strlen. rewrite Nat2Z.id. by rewrite drop_app_length. Qed.

Lemma strlen_cons c s : strlen (c :: s) = 1 + strlen s.
Proof. unfold strlen. simpl. lia. Qed.

(** The state after the slash of the next component was appended. *)
Definition with_slash (cx : context) : context :=
  set_path (ztake (cx_path_len cx) (cx_path cx) ++ [SLASH]) (cx_path_len cx + 1) cx.

Section States.
Context (x : bool) (prefix : cstr).
Hypothesis Hprefix : prefix_ok prefix.

Lemma with_slash_path cx : cx_ok x prefix cx ->
  cx_path (with_slash cx) = cx_path cx ++ [SLASH] ∧ cx_path_len (with_slash cx) = strlen (cx_path cx) + 1.
Proof. intros H. simpl. rewrite ztake_strlen by apply H. by rewrite (ok_plen _ _ _ H). Qed.

(** Cutting the path at one of its slashes, not below the root. *)
Lemma cx_ok_cut cx p :
  cx_ok x prefix cx -> cx_path cx !! p = Some SLASH -> cx_root_len cx <= Z.of_nat p ->
  cx_ok x prefix (set_path (take p (cx_path cx)) (Z.of_nat p) cx).
Proof.
  intros Hok Hp Hr. pose proof (lookup_lt_Some _ _ _ Hp). pose proof (take_lookup_split _ _ _ Hp) as Hsplit.
  destruct Hok as [H1 H2 H3 [q Hq] H5 H6 H7]. split; simpl; [|done|done| | |unfold strlen in *; lia|].
  - unfold strlen. rewrite length_take. lia.
  - rewrite H2 in Hr. exists (take (p - length (cx_root cx)) q). rewrite Hq.
    rewrite take_app_ge by (unfold strlen in Hr; lia). done.
  - destruct H5 as [->|[r ->]]; [left; apply take_nil|]. destruct p; [by left|right; by eexists].
  - intros Hx. destruct (H7 Hx) as (Hroot & q' & Hq' & Hc & Hf). split; [done|].
    rewrite Hroot in H2. assert (length prefix <= p)%nat by (unfold strlen in *; lia).
    exists (take (p - length prefix) q'). rewrite Hq', take_app_ge by done. split; [done|].
    assert (q' = take (p - length prefix) q' ++ SLASH :: drop (S (p - length prefix)) q') as Hs.
    { apply take_lookup_split. rewrite Hq', lookup_app_r in Hp by lia. done. }
    split; [|rewrite Hs in Hf; by apply exit_free_cut in Hf].
    destruct Hc as [->|[r ->]]; [left; apply take_nil|]. destruct (p - length prefix)%nat; [by left|right; by eexists].
Qed.

Lemma cx_ok_append cx comp :
  cx_ok x prefix cx -> (SLASH ∉ comp) -> (x = true -> is_exit_name comp = false) ->
  strlen (cx_path cx) + 1 + strlen comp <= 4094 ->
  cx_ok x prefix (set_path (cx_path cx ++ SLASH :: comp) (strlen (cx_path cx) + 1 + strlen comp) cx).
Proof.
  intros [H1 H2 H3 [q Hq] H5 H6 H7] Hc He Hb.
  split; simpl; [rewrite strlen_app, strlen_cons; lia|done|done| | |done|].
  - exists (q ++ SLASH :: comp). by rewrite Hq, app_assoc.
  - right. destruct H5 as [->|[r ->]]; by eexists.
  - intros Hx. destruct (H7 Hx) as (? & q' & -> & Hq' & ?). split; [done|]. exists (q' ++ SLASH :: comp).
    split; [by rewrite app_assoc|]. split; [|apply exit_free_append; auto].
    right. destruct Hq' as [->|[r ->]]; by eexists.
Qed.

Lemma check_exit_ok cx : cx_ok x prefix cx -> cx_ok x prefix (check_exit cx).
Proof.
  intros Hok. unfold check_exit. destruct (_ && _) eqn:E; [|done].
  destruct (strncaseeq _ _ _) eqn:Ex; [|done]. split; simpl; [done|done|by right|by exists []|by left|lia|].
  intros Hx. exfalso. destruct Hok as [H1 H2 H3 H4 H5 H6 H7]. destruct (H7 Hx) as (Hroot & q & Hq & Hc & Hf).
  rewrite Hroot in *. rewrite H1, H2, Hq, strlen_app in E. unfold sizeof_EXIT_PATH in E.
  assert (strlen q = 19) as Hlen by lia. rewrite Hq, zdrop_strlen_app in Ex by done.
  unfold strncaseeq in Ex. rewrite (take_ge q), (take_ge EXIT_PATH) in Ex by (unfold strlen in Hlen; simpl; lia).
  rewrite (Hf q []) in Ex; [done|by rewrite app_nil_r|by left].
Qed.

Lemma check_exit_depth cx : cx_depth (check_exit cx) = cx_depth cx ∧ cx_follow (check_exit cx) = cx_follow cx.
Proof. unfold check_exit. destruct (_ && _); [destruct (strncaseeq _ _ _)|]; done. Qed.

Lemma cx_ok_volumes cx :
  cx_ok x prefix cx -> cx_path cx = [] ->
  cx_ok x prefix (set_root prefix (strlen prefix)
    (set_path (prefix ++ s2c "/Volumes") (Z.of_nat (length (prefix ++ s2c "/Volumes"))) cx)).
Proof.
  intros Hok Hnil. destruct Hprefix as [Hpc Hpl]. split; simpl; [done|done|by left|by exists (s2c "/Volumes")| | |].
  - right. destruct Hpc as [->|[r ->]]; by eexists.
  - rewrite length_app. unfold strlen in Hpl. simpl. lia.
  - intros Hx. split; [done|]. exists (s2c "/Volumes"). split; [done|]. split; [right; by eexists|].
    intros q1 q2 Hq _. apply not_true_iff_false. intros Ht%strcaseeq_length.
    apply (f_equal length) in Hq. rewrite length_app in Hq. simpl in *. lia.
Qed.

Lemma dotdot_ok cx :
  cx_ok x prefix cx ->
  ∃ rv cx', dotdot prefix (strlen prefix) (with_slash cx) = Some (rv, cx') ∧
    (rv = 0 ∧ cx_ok x prefix cx' ∨ rv = - LINUX_ENOENT) ∧ cx_fits cx' ∧
    cx_depth cx' = cx_depth cx ∧ cx_follow cx' = cx_follow cx.
Proof.
  intros Hok. destruct (with_slash_path cx Hok) as [Hp Hl].
  unfold dotdot. rewrite Hl. pose proof (strlen_nonneg (cx_path cx)). cbv zeta.
  rewrite (proj2 (Z.leb_gt PATH_SIZE (strlen prefix + sizeof_EXIT_PATH))), andb_false_r
    by (destruct Hprefix; unfold PATH_SIZE, sizeof_EXIT_PATH; lia).
  destruct (Z.leb_spec (strlen (cx_path cx) + 1) 1) as [Hsmall|Hbig].
  - assert (cx_path cx = []) as Hnil by (destruct (cx_path cx); [done|unfold strlen in *; simpl in *; lia]).
    pose proof (strlen_nonneg prefix). unfold sizeof_EXIT_PATH. cbn [cx_path_len cx_path set_root set_path].
    destruct (Z.leb_spec 2 (strlen prefix + 20)); [|lia].
    rewrite (ztake_strlen (prefix ++ EXIT_PATH)) by (rewrite strlen_app; change (strlen EXIT_PATH) with 19; lia).
    replace (((prefix ++ EXIT_PATH) ++ [SLASH])) with ((prefix ++ s2c "/Volumes") ++ SLASH :: s2c "SystemRoot" ++ [SLASH])
      by (rewrite <- !app_assoc; done).
    replace (Z.to_nat (strlen prefix + 20 - 2)) with (length (prefix ++ s2c "/Volumes") + length (s2c "SystemRoot"))%nat
      by (rewrite length_app; unfold strlen; simpl; lia).
    rewrite last_slash_component by (apply index_of_None; reflexivity).
    rewrite take_app_length. cbn [cx_path_len cx_root_len set_path set_root].
    destruct (Z.ltb_spec (Z.of_nat (length (prefix ++ s2c "/Volumes"))) (strlen prefix)) as [Hlt|_];
      [rewrite length_app in Hlt; unfold strlen in Hlt; lia|].
    pose proof (cx_ok_volumes cx Hok Hnil) as Hv. eexists _, _. split; [done|].
    split; [left; split; [done|]; exact Hv|]. split; [|done]. split; [done|]. pose proof (ok_bound _ _ _ Hv). simpl in *. lia.
  - pose proof (ok_bound _ _ _ Hok) as Hb. rewrite (ok_plen _ _ _ Hok) in Hb.
    destruct (Z.leb_spec 2 (cx_path_len (with_slash cx))) as [_|]; [|lia]. rewrite Hp, Hl.
    destruct (ok_abs _ _ _ Hok) as [Hn|[r Hr]]; [rewrite Hn in Hbig; unfold strlen in Hbig; simpl in Hbig; lia|].
    destruct (last_slash_exists (Z.to_nat (strlen (cx_path cx) + 1 - 2)) (r ++ [SLASH])) as [p Hls].
    rewrite Hr in *. cbn [app]. rewrite Hls. apply last_slash_spec in Hls as [Hple Hpl]. rewrite <- Hr in *.
    change (SLASH :: r ++ [SLASH]) with ((SLASH :: r) ++ [SLASH]) in *. rewrite <- Hr in *.
    assert (p < length (cx_path cx))%nat as Hplt by (unfold strlen in *; lia).
    rewrite lookup_app_l in Hpl by done. rewrite take_app_le by lia.
    assert (cx_fits (set_path (take p (cx_path cx)) (Z.of_nat p) (with_slash cx))) as Hfits.
    { split; simpl; [unfold strlen; rewrite length_take; lia|unfold strlen in *; lia]. }
    cbn [cx_path_len cx_root_len set_path]. destruct (Z.ltb_spec (Z.of_nat p) (cx_root_len (with_slash cx))) as [Hlt|Hge].
    + eexists _, _. split; [done|]. split; [by right|]. done.
    + eexists _, _. split; [done|]. split; [|done]. left. split; [done|]. by apply (cx_ok_cut cx p).
Qed.
End States.

Section Resolve.
Context `{LoopFuel, IcaseEnabled}.
Context (x : bool) (prefix : cstr).
Hypothesis Hprefix : prefix_ok prefix.

Lemma call_path_cx cx :
  cx_ok x prefix cx -> cx_path cx ≠ [] -> call_path_ok x prefix (cx_path cx).
Proof.
  intros Hok Hne. split; [by destruct (ok_abs _ _ _ Hok)|].
  intros Hx. destruct (ok_exit _ _ _ Hok Hx) as (_ & q & ? & ? & _). by exists q.
Qed.

Lemma path_arg_ok p args :
  proc_self p ∨ call_path_ok x prefix p -> Forall (arg_ok x prefix) args -> Forall (arg_ok x prefix) (AStr p :: args).
Proof. by constructor. Qed.

Lemma scan_dirents_name des pos len name n : scan_dirents des pos len name = Some n -> strcaseeq n name = true.
Proof.
  revert pos. induction des as [|de des IH]; intros pos; simpl; [done|].
  destruct (_ <? _); [|done]. destruct (strcaseeq (ld_name de) name) eqn:E; [|apply IH]. intros. by simplify_eq.
Qed.

Lemma find_icase_wp fuel dfd name g :
  icase_enabled = true ->
  wp (vchroot_host x prefix) (find_icase fuel dfd name) g
    (λ r g', g' = g ∧ match r with Some n => strcaseeq n name = true | None => True end).
Proof.
  intros Hicase. induction fuel as [|fuel IH]; [exact Hicase|]. cbn [find_icase]. wp_step.
  apply wp_syscall_int_out; [repeat constructor|]. intros r des _. destruct (0 <? s32 r); [|wp_step; done].
  destruct (scan_dirents des 0 (s32 r) name) as [n|] eqn:E; [|done]. wp_step.
  split; [done|]. by apply scan_dirents_name in E.
Qed.

(** Case-insensitive lookup replaces the component by a name that is equal
    up to case, or gives up. *)
Lemma icase_lookup_wp cx comp g :
  icase_enabled = true ->
  cx_ok x prefix cx -> (SLASH ∉ comp) -> (x = true -> is_exit_name comp = false) ->
  strlen (cx_path cx) + 1 + strlen comp <= 4094 ->
  let cx1 := set_path (cx_path cx ++ SLASH :: comp) (strlen (cx_path cx) + 1 + strlen comp) cx in
  wp (vchroot_host x prefix) (icase_lookup (strlen (cx_path cx) + 1) cx1) g
    (λ cx' g', g' = g ∧ cx_ok x prefix cx' ∧ cx_depth cx' = cx_depth cx ∧ cx_follow cx' = cx_follow cx).
Proof.
  intros Hicase Hok Hc He Hb cx1. unfold icase_lookup. pose proof (strlen_nonneg (cx_path cx)).
  assert (cx_ok x prefix cx1) as Hok1 by by apply cx_ok_append.
  assert (ztake (strlen (cx_path cx) + 1 - 1) (cx_path cx1) = cx_path cx) as ->
    by (subst cx1; simpl; apply ztake_strlen_app; lia).
  assert (zdrop (strlen (cx_path cx) + 1) (cx_path cx1) = comp) as ->.
  { subst cx1. simpl. rewrite (cons_middle SLASH), app_assoc. apply zdrop_strlen_app. by rewrite strlen_app. }
  assert (ztake (strlen (cx_path cx) + 1) (cx_path cx1) = cx_path cx ++ [SLASH]) as Htk.
  { subst cx1. simpl. rewrite (cons_middle SLASH), app_assoc. apply ztake_strlen_app. by rewrite strlen_app. }
  wp_step. apply wp_syscall_int.
  { apply path_arg_ok; [right|repeat constructor]. destruct (Z.ltb_spec 1 (strlen (cx_path cx) + 1)).
    - apply call_path_cx; [done|]. intros Hn. rewrite Hn in *. unfold strlen in *. simpl in *. lia.
    - assert (cx_path cx = []) as Hn by (destruct (cx_path cx); [done|unfold strlen in *; simpl in *; lia]).
      split; [by eexists|]. intros Hx. destruct (ok_exit _ _ _ Hok Hx) as (_ & q & Hq & _).
      rewrite Hn in Hq. symmetry in Hq. apply app_eq_nil in Hq as [-> _]. exists (s2c "/"). split; [done|]. right. by eexists. }
  intros dfd _. wp_step. rewrite Htk.
  apply (wp_mono _ _ _ (λ cx' g', g' = g ∧ cx_ok x prefix cx' ∧ cx_depth cx' = cx_depth cx ∧ cx_follow cx' = cx_follow cx)).
  - destruct (s32 dfd <? 0).
    + wp_step. split; [done|]. split; [|done]. by destruct Hok1.
    + wp_step. eapply wp_mono; [by apply find_icase_wp|]. intros [n|] g' [-> Hn]; wp_step; (split; [done|]); (split; [|done]).
      * pose proof (strcaseeq_length _ _ Hn) as Hlen.
        rewrite <- app_assoc. cbn [app]. replace (cx_path_len cx1) with (strlen (cx_path cx) + 1 + strlen n)
          by (subst cx1; simpl; unfold strlen; lia).
        apply (cx_ok_append x prefix cx n Hok); [by eapply strcaseeq_slash; [rewrite strcaseeq_sym|]| |unfold strlen in *; lia].
        intros Hx. eapply strcaseeq_trans_false; [exact Hn|]. by apply He.
      * by destruct Hok1.
  - intros cx' g' (-> & ? & ? & ?). wp_step. wp_step; [repeat constructor|]. intros. wp_step. done.
Qed.

(** ** Specification of a resolution *)

(** A resolution can start in a good state, or anywhere on an absolute path,
    which first goes back to the root. *)
Definition start_ok (input : cstr) (cx : context) : Prop :=
  cx_fits cx ∧
  (cx_ok x prefix cx ∨
   absolute input ∧ cx_root_len cx = strlen (cx_root cx) ∧ (cx_root cx = prefix ∨ cx_root cx = []) ∧
   (x = true -> cx_root cx = prefix)).

Definition same_mode (cx cx' : context) : Prop := cx_depth cx' = cx_depth cx ∧ cx_follow cx' = cx_follow cx.

Definition run_post (cx : context) (g : gstate) (r : Z * context) (g' : gstate) : Prop :=
  g' = g ∧ cx_fits r.2 ∧ same_mode cx r.2 ∧ (r.1 = 0 ∧ cx_ok x prefix r.2 ∨ r.1 < 0).

Definition outcome_post (cx : context) (g : gstate) (o : outcome) (g' : gstate) : Prop :=
  g' = g ∧
  match o with
  | Continue cx' => cx_ok x prefix cx' ∧ same_mode cx cx'
  | Return rv cx' => rv < 0 ∧ cx_fits cx' ∧ same_mode cx cx'
  end.

Definition run_spec (run : cstr -> context -> M (Z * context)) (depth : Z) : Prop :=
  ∀ input cx g, start_ok input cx -> (x = true -> no_exit input) -> cx_depth cx = depth ->
    wp (vchroot_host x prefix) (run input cx) g (run_post cx g).

Lemma cx_ok_fits cx : cx_ok x prefix cx -> cx_fits cx.
Proof. intros Hok. split; [apply Hok|]. pose proof (ok_bound _ _ _ Hok). lia. Qed.

Lemma continue_check_exit cx cx' g :
  cx_ok x prefix cx' -> same_mode cx cx' -> outcome_post cx g (Continue (check_exit cx')) g.
Proof.
  intros Hok [Hd Hf]. split; [done|]. destruct (check_exit_depth cx') as [Hd' Hf'].
  split; [by apply check_exit_ok|]. split; congruence.
Qed.

(** The string a successful [readlink] leaves in the buffer. *)
Lemma readlink_result_cases n r data :
  0 <= n <= 4096 -> readlink_result n (r, data) ->
  (s32 r < 0 ∧ s32 r = r) ∨ (s32 r = strlen data ∧ s32 r <= n ∧ c_str (ztake (s32 r) data) = data).
Proof.
  intros Hn [Hr|(Hr & Hrn & Hnul)]; simpl in *.
  - left. rewrite s32_id by (unfold INT_MAX, INT_MIN in *; lia). lia.
  - right. pose proof (strlen_nonneg data). rewrite s32_id by (unfold INT_MAX, INT_MIN in *; lia).
    split; [done|]. split; [done|]. rewrite ztake_strlen by done. by apply c_str_id.
Qed.

Lemma follow_symlink_wp run cx comp g :
  cx_ok x prefix cx -> (SLASH ∉ comp) -> (x = true -> is_exit_name comp = false) ->
  strlen (cx_path cx) + 1 + strlen comp <= 4094 -> run_spec run (cx_depth cx + 1) ->
  let cx1 := set_path (cx_path cx ++ SLASH :: comp) (strlen (cx_path cx) + 1 + strlen comp) cx in
  wp (vchroot_host x prefix) (follow_symlink prefix (strlen prefix) run (strlen (cx_path cx) + 1) cx1) g
     (outcome_post cx g).
Proof.
  intros Hok Hc He Hb Hrun cx1. unfold follow_symlink.
  assert (cx_ok x prefix cx1) as Hok1 by by apply cx_ok_append.
  wp_step. apply wp_syscall_int_out.
  { apply path_arg_ok; [|repeat constructor]. right. apply call_path_cx; [done|]. subst cx1. simpl. by destruct (cx_path cx). }
  intros r data (Hr & Hlink & _). apply readlink_result_cases in Hr; [|lia].
  destruct Hr as [[Hneg Heq]|(Hlen & Hle & Hstr)].
  { destruct (Z.ltb_spec (s32 r) 0); [|lia]. wp_step. split; [done|]. split; [done|]. by split; [apply cx_ok_fits|]. }
  pose proof (strlen_nonneg data). destruct (Z.ltb_spec (s32 r) 0); [lia|]. rewrite Hstr.
  destruct (_ && _); [wp_step; by apply continue_check_exit|].
  set (absb := match data with c :: _ => if ascii_dec c SLASH then true else false | [] => false end).
  wp_step. eapply wp_mono.
  - apply Hrun; [|by intros Hx; apply Hlink|by destruct absb].
    destruct absb eqn:Eabs.
    + split; [by apply cx_ok_fits in Hok1|]. right. split; [|by split_and!; [..|left|]].
      subst absb. destruct data as [|c data]; [done|]. destruct (ascii_dec c SLASH) as [->|]; [by eexists|done].
    + assert (ztake (strlen (cx_path cx) + 1 - 1) (cx_path cx1) = cx_path cx) as -> by (subst cx1; simpl; apply ztake_strlen_app; lia).
      assert (cx_ok x prefix (set_link_state (cx_depth cx + 1) true (set_path (cx_path cx) (strlen (cx_path cx) + 1 - 1) cx1))) as Hr2.
      { destruct Hok as [? ? ? ? ? ? ?]. subst cx1. split; simpl; try done; lia. }
      split; [|by left]. by apply cx_ok_fits in Hr2.
  - intros [rv cx'] g' (-> & Hfit & [Hd Hf] & Hres). simpl in *.
    assert (same_mode cx (set_link_state (cx_depth cx' - 1) (cx_follow cx) cx')) as Hmode.
    { split; simpl; [|done]. rewrite Hd. by destruct absb; simpl; lia. }
    replace (cx_follow (if absb then cx1 else _)) with (cx_follow cx) by by destruct absb.
    destruct (Z.eqb_spec rv 0) as [->|Hne]; wp_step.
    + apply continue_check_exit; [|done]. destruct Hres as [[_ Hok']|]; [|lia]. by destruct Hok'.
    + split; [done|]. split; [destruct Hres as [[]|]; [done|lia]|]. split; [|done]. done.
Qed.

Lemma run_component_wp run cx comp more g :
  cx_ok x prefix cx -> (SLASH ∉ comp) -> (x = true -> is_exit_name comp = false) ->
  run_spec run (cx_depth cx + 1) ->
  wp (vchroot_host x prefix) (run_component prefix (strlen prefix) run comp more cx) g (outcome_post cx g).
Proof.
  intros Hok Hc He Hrun. unfold run_component. fold (with_slash cx).
  destruct (is_dot comp); [wp_step; by split|].
  destruct (with_slash_path _ _ cx Hok) as [Hp Hl]. cbv zeta.
  rewrite (proj2 (Z.leb_gt PATH_SIZE (cx_path_len (with_slash cx))))
    by (pose proof (ok_bound _ _ _ Hok) as Hb; rewrite (ok_plen _ _ _ Hok) in Hb; rewrite Hl; unfold PATH_SIZE; lia).
  destruct (is_dotdot comp).
  { destruct (dotdot_ok x prefix Hprefix cx Hok) as (rv & cx' & -> & Hrv & Hfit & Hmode). wp_step.
    destruct (Z.eqb_spec rv 0) as [->|Hne]; (split; [done|]).
    - destruct Hrv as [[_ ?]|?]; [done|discriminate].
    - destruct Hrv as [[]| ->]; [done|]. done. }
  cbv zeta. rewrite Hl, Hp. unfold PATH_SIZE. destruct (Z.ltb_spec 4096 (strlen comp + (strlen (cx_path cx) + 1) + 2)) as [Hbig|Hfit].
  { wp_step. split; [done|]. split; [done|]. split; [|done]. split; [rewrite Hp, Hl, strlen_app; done|].
    rewrite Hl. pose proof (ok_bound _ _ _ Hok) as Hb. rewrite (ok_plen _ _ _ Hok) in Hb. lia. }
  rewrite ztake_strlen by (rewrite strlen_app; done). rewrite <- app_assoc. cbn [app].
  change (set_path (cx_path cx ++ SLASH :: comp) (strlen (cx_path cx) + 1 + strlen comp) (with_slash cx))
    with (set_path (cx_path cx ++ SLASH :: comp) (strlen (cx_path cx) + 1 + strlen comp) cx).
  set (cx1 := set_path (cx_path cx ++ SLASH :: comp) (strlen (cx_path cx) + 1 + strlen comp) cx).
  assert (cx_ok x prefix cx1) as Hok1 by (apply cx_ok_append; [done..|lia]).
  assert (outcome_post cx g (Continue (check_exit cx1)) g) as Hdone by by apply continue_check_exit.
  destruct (cx_unknown cx1); [by wp_step|].
  wp_step. apply wp_syscall_int_out.
  { apply path_arg_ok; [|repeat constructor]. right. apply call_path_cx; [done|]. subst cx1. simpl. by destruct (cx_path cx). }
  intros r st _. destruct (icase_enabled && _) eqn:Eicase.
  { apply andb_true_iff in Eicase as [Eicase _]. wp_step. eapply wp_mono; [by apply icase_lookup_wp; [..|lia]|].
    intros cx' g' (-> & ? & ? & ?). wp_step. by apply continue_check_exit. }
  clear Eicase. destruct (_ && _); [|by wp_step]. destruct (_ || _); [|by wp_step].
  apply follow_symlink_wp; [done..|lia|done].
Qed.

Lemma components_loop_wp run n input cx g :
  (length input < n)%nat -> cx_ok x prefix cx -> (x = true -> no_exit input) ->
  run_spec run (cx_depth cx + 1) ->
  wp (vchroot_host x prefix) (components_loop prefix (strlen prefix) run n input cx) g (run_post cx g).
Proof.
  revert input cx. induction n as [|n IH]; intros input cx Hn Hok Hx Hrun; [lia|]. cbn [components_loop].
  destruct input as [|c input'] eqn:Ein.
  { wp_step. split; [done|]. split; [by apply cx_ok_fits|]. split; [done|]. by left. }
  rewrite <- Ein in *. destruct (next_component input) as [comp e] eqn:Enc.
  pose proof (next_component_spec _ _ _ Enc) as (Hsplit & Hns & Hec).
  assert (length (skip_slashes e) < length input)%nat as Hlt.
  { pose proof (skip_slashes_length e). rewrite Hsplit, length_app. destruct Hec as [->|[r ->]].
    - destruct comp as [|c0 comp]; [|simpl; lia]. exfalso. rewrite Hsplit in Ein. done.
    - simpl. pose proof (skip_slashes_length r). lia. }
  wp_step. eapply wp_mono; [apply run_component_wp; [done|done| |done]|].
  { intros Hx'. by apply (no_exit_next _ _ _ (Hx Hx') Enc). }
  intros [cx'|rv cx'] g' [-> Hpost].
  - destruct Hpost as [Hok' [Hd Hf]]. eapply wp_mono.
    + apply IH; [lia|done| |by rewrite Hd]. intros Hx'. by apply (no_exit_next _ _ _ (Hx Hx') Enc).
    + intros [rv cx''] g' (-> & ? & [? ?] & ?). split; [done|]. split; [done|]. split; [|done]. split; simpl in *; congruence.
  - wp_step. destruct Hpost as (? & ? & ?). split; [done|]. split; [done|]. split; [done|]. by right.
Qed.

(** Twelve levels are enough for any nesting of symbolic links. *)
Lemma vchroot_run_wp d depth :
  (0 < d)%nat -> depth + Z.of_nat d = 12 -> run_spec (vchroot_run prefix (strlen prefix) d) depth.
Proof.
  revert depth. induction d as [|d IH]; intros depth Hd Hdepth input cx g [Hfit Hst] Hx Hcd; [lia|].
  cbn [vchroot_run]. destruct (Z.ltb_spec MAX_SYMLINK_DEPTH (cx_depth cx)) as [Hdeep|Hok].
  { wp_step. split; [done|]. split; [done|]. split; [done|]. by right. }
  assert (run_spec (vchroot_run prefix (strlen prefix) d) (cx_depth cx + 1)) as Hrec
    by (apply IH; unfold MAX_SYMLINK_DEPTH in Hok; lia).
  assert (∀ rest, input = SLASH :: rest -> cx_ok x prefix (set_path (cx_root cx) (strlen (cx_root cx)) cx)) as Hreset.
  { intros rest ->. destruct Hprefix as [Hpc Hpl].
    assert (cx_root_len cx = strlen (cx_root cx) ∧ (cx_root cx = prefix ∨ cx_root cx = []) ∧ (x = true -> cx_root cx = prefix))
      as (H1 & H2 & H3). { destruct Hst as [[]|(_ & ? & ? & ?)]; split_and!; try done. naive_solver. }
    split; simpl; [done|done|done|done| | |].
    - destruct H2 as [->| ->]; [done|by left].
    - destruct H2 as [->| ->]; [lia|done].
    - intros Hx'. split; [auto|]. exists []. rewrite app_nil_r. split; [auto|]. split; [by left|apply exit_free_nil]. }
  destruct input as [|c rest].
  - apply components_loop_wp; [simpl; lia| |done|done]. destruct Hst as [?|([? ?] & _)]; done.
  - destruct (ascii_dec c SLASH) as [->|Hns].
    + eapply wp_mono; [apply components_loop_wp; [simpl; lia|by apply (Hreset rest)| |done]|].
      * intros Hx'. specialize (Hx Hx'). unfold no_exit in *. simpl in Hx. by apply Forall_cons in Hx as [_ ?].
      * done.
    + apply components_loop_wp; [simpl; lia| |done|done]. destruct Hst as [?|([? ?] & _)]; [done|]. by simplify_eq.
Qed.
End Resolve.

(** ** Entry points *)

Definition knows_prefix (prefix : cstr) (g : gstate) : Prop :=
  g_prefix_path g = prefix ∧ g_prefix_path_len g = strlen prefix.

(** The prefix is known, or will be asked for on first use. *)
Definition prefix_state (prefix : cstr) (g : gstate) : Prop :=
  knows_prefix prefix g ∨ g_prefix_path_len g = -1.

Definition prefix_dir (prefix : cstr) : Prop := prefix_ok prefix ∧ last prefix ≠ Some SLASH.

(** The descriptor path is the text it should be. *)
Lemma proc_fd_path_eq fd : s32 fd ≠ INT_MIN ->
  ∃ d, conversion "d"%char [VNum fd] = Some (d, []) ∧ proc_fd_path fd = s2c "/proc/self/fd/" ++ d.
Proof.
  intros Hfd. destruct (conversion_d_text fd Hfd) as (d & Hd & Hnul & Hlen). exists d. split; [done|].
  unfold proc_fd_path. rewrite (sprintf_text _ _ _ (s2c "/proc/self/fd/" ++ d)).
  - done.
  - rewrite (format_text_literal (s2c "/proc/self/fd/") (s2c "%d" ++ [])), format_text_d, Hd by (repeat constructor; discriminate). simpl. by rewrite app_nil_r.
  - apply Forall_app. split; [|done]. repeat constructor; by vm_compute.
  - rewrite strlen_app. unfold strlen, INT_MAX. simpl. lia.
  - rewrite length_app. simpl. lia.
Qed.

Lemma proc_fd_path_self fd : proc_self (proc_fd_path fd).
Proof.
  destruct (decide (s32 fd = INT_MIN)) as [Hmin|Hfd].
  - unfold proc_fd_path, __simple_sprintf, __simple_vsprintf, __simple_vsnprintf. rewrite vformat_format_text.
    rewrite (format_text_literal (s2c "/proc/self/fd/") (s2c "%d" ++ [])), format_text_d by (repeat constructor; discriminate).
    cbn [conversion]. rewrite Hmin, Z.eqb_refl. by exists (s2c "fd/-8").
  - destruct (proc_fd_path_eq fd Hfd) as (d & _ & ->). by exists (s2c "fd/" ++ d).
Qed.

(** [ensure_prefix] only needs the kernel module's answer. *)
Lemma ensure_prefix_answer Ψ prefix g :
  prefix_dir prefix -> prefix_state prefix g ->
  may_call Ψ (Lkm (NR_vchroot_expand (s2c "/") (-100))) ->
  (∀ r path, responds Ψ (Lkm (NR_vchroot_expand (s2c "/") (-100))) (r, path) -> prefix_answer prefix path) ->
  wp Ψ ensure_prefix g (λ g0 g', g0 = g' ∧ knows_prefix prefix g').
Proof.
  intros [_ Hlast] Hg Hcall Hans. unfold ensure_prefix. wp_step. wp_step.
  destruct (Z.eqb_spec (g_prefix_path_len g) (-1)) as [Heq|Hne].
  - wp_step. unfold init_vchroot_path. wp_step. apply wp_lkm_call; [done|]. intros r path Hp%Hans. wp_step. wp_step.
    split; [done|]. destruct Hp as [->| ->].
    + destruct (last prefix) as [c|] eqn:El; [|done]. destruct (ascii_dec c SLASH) as [->|]; [by destruct Hlast|done].
    + rewrite last_snoc. simpl. rewrite length_app, Nat.add_sub, take_app_length. done.
  - wp_step. split; [done|]. by destruct Hg.
Qed.

Section Expand.
Context `{LoopFuel, IcaseEnabled}.
Context (x : bool) (prefix : cstr).
Hypothesis Hprefix : prefix_dir prefix.

Lemma ensure_prefix_wp g :
  prefix_state prefix g ->
  wp (vchroot_host x prefix) ensure_prefix g (λ g0 g', g0 = g' ∧ knows_prefix prefix g').
Proof. intros Hg. by apply (ensure_prefix_answer _ prefix); [..|intros r path Hr]. Qed.

Definition expand_post (args : vchroot_expand_args) (r : Z * vchroot_expand_args) (g' : gstate) : Prop :=
  knows_prefix prefix g' ∧
  (r.1 = 0 ∧ absolute (vc_path r.2) ∧ strlen (vc_path r.2) <= 4094 ∧ (x = true -> under prefix (vc_path r.2)) ∨
   r.1 < 0 ∧ (r.2 = args ∨ strlen (vc_path r.2) <= 4095)).

Lemma finish_post args g r g' cx :
  knows_prefix prefix g -> run_post x prefix cx g r g' ->
  expand_post args (r.1, VchrootExpandArgs (if 0 <? cx_path_len r.2 then cx_path r.2 else s2c "/") (vc_dfd args) (vc_follow args)) g'.
Proof.
  intros Hk (-> & [Hl Hf] & _ & Hres). split; [done|]. simpl. destruct Hres as [[-> Hok]|Hneg].
  - left. split; [done|]. destruct (Z.ltb_spec 0 (cx_path_len r.2)) as [Hpos|Hz].
    + assert (cx_path r.2 ≠ []) as Hne by (intros Hn; rewrite Hl, Hn in Hpos; by vm_compute in Hpos).
      destruct (call_path_cx _ _ _ Hok Hne) as [Ha Hu]. split; [done|]. split; [|done].
      pose proof (ok_bound _ _ _ Hok). lia.
    + split; [by eexists|]. split; [by vm_compute|]. intros Hx.
      destruct (ok_exit _ _ _ Hok Hx) as (_ & q & Hq & _). assert (cx_path r.2 = []) as Hn.
      { destruct (cx_path r.2); [done|]. rewrite strlen_cons in Hl. pose proof (strlen_nonneg l). lia. }
      rewrite Hn in Hq. symmetry in Hq. apply app_eq_nil in Hq as [-> _]. exists (s2c "/"). split; [done|]. right. by eexists.
  - right. split; [done|]. right. destruct (_ <? _); [lia|by vm_compute].
Qed.

(** The state a relative path starts in. *)
Lemma cwd_start d follow :
  cwd_ok x prefix d ->
  let cx := Context_ prefix (strlen prefix) [] 0 0 false follow in
  let cx := if (strlen d =? 1) && streq (c_str (ztake 1 d)) (s2c "/") then set_path [] 0 cx
            else set_path d (strlen d) cx in
  let cx := if (cx_path_len cx <? cx_root_len cx)
               || negb (strneq (cx_path cx) (cx_root cx) (Z.to_nat (cx_root_len cx)))
            then set_root [] 0 cx else cx in
  cx_ok x prefix cx ∧ cx_depth cx = 0.
Proof.
  intros ([r ->] & Hlen & Hx). destruct Hprefix as [[Hpc Hpl] Hlast]. cbv zeta.
  set (d := SLASH :: r) in *.
  set (p := if (strlen d =? 1) && streq (c_str (ztake 1 d)) (s2c "/") then [] else d).
  assert (ends_component p ∧ strlen p <= 4094 ∧
    (x = true -> ∃ q, p = prefix ++ q ∧ ends_component q ∧ exit_free q)) as (Hp & Hpb & Hpx).
  { subst p. destruct (_ && _) eqn:E; [|split; [right; by eexists|done]].
    split; [by left|]. split; [done|]. intros Hx'. destruct (Hx Hx') as (q & Hq & Hqc & Hqf).
    assert (r = []) as -> by (destruct r; [done|]; subst d; rewrite !strlen_cons in E; pose proof (strlen_nonneg r); lia).
    exists []. split; [|split; [by left|apply exit_free_nil]]. destruct prefix as [|c pr]; [done|].
    subst d. simplify_eq/=. destruct pr; done. }
  replace (if (strlen d =? 1) && _ then _ else _) with (set_path p (strlen p) (Context_ prefix (strlen prefix) [] 0 0 false follow))
    by (subst p; by destruct (_ && _)).
  cbn [cx_path_len cx_path cx_root cx_root_len set_path].
  replace (Z.to_nat (strlen prefix)) with (length prefix) by (unfold strlen; lia).
  destruct (_ || _) eqn:E; (split; [|done]).
  - split; simpl; [done|done|by right|apply prefix_nil|done|done|].
    intros Hx'. exfalso. destruct (Hpx Hx') as (q & -> & _). rewrite strlen_app in E. pose proof (strlen_nonneg q).
    rewrite (proj2 (strneq_prefix _ _)) in E by by eexists. lia.
  - apply orb_false_iff in E as [_ E]. apply negb_false_iff in E. rewrite strneq_prefix in E.
    split; simpl; [done|done|by left|done|done|done|]. by intros ?; split; auto.
Qed.

Lemma vchroot_expand_wp args g :
  prefix_state prefix g -> (x = true -> no_exit (vc_path args)) ->
  wp (vchroot_host x prefix) (vchroot_expand args) g (expand_post args).
Proof.
  intros Hg Hx. unfold vchroot_expand. wp_step. eapply wp_mono; [by apply ensure_prefix_wp|].
  intros g0 g' [-> Hk]. pose proof Hk as [Hk1 Hk2]. rewrite Hk1, Hk2.
  assert (∀ cx, start_ok x prefix (vc_path args) cx -> cx_depth cx = 0 ->
    wp (vchroot_host x prefix) (r ← vchroot_run prefix (strlen prefix) vchroot_depth (vc_path args) cx;
      mret (r.1, VchrootExpandArgs (if 0 <? cx_path_len r.2 then cx_path r.2 else s2c "/") (vc_dfd args) (vc_follow args)))
      g' (expand_post args)) as Hrun.
  { intros cx Hst Hd. wp_step. eapply wp_mono.
    - apply (vchroot_run_wp x prefix (proj1 Hprefix) vchroot_depth 0); [unfold vchroot_depth; lia|done|done|done|done].
    - intros r g'' Hpost. wp_step. by eapply finish_post. }
  destruct (vc_path args) as [|c rest] eqn:Epath.
  { wp_step. split; [done|]. right. split; [done|]. by left. }
  destruct (ascii_dec c SLASH) as [->|Hc]; [|].
  - apply Hrun; [|done]. split; [done|]. right. split; [by eexists|]. split; [done|]. split; [by left|done].
  - wp_step. unfold readlink_4096. apply wp_syscall_int_out.
    { apply path_arg_ok; [left|repeat constructor]. destruct (_ =? _); [by exists (s2c "cwd")|apply proc_fd_path_self]. }
    intros r data (Hr & _ & Hcwd). apply readlink_result_cases in Hr as Hcase; [|by vm_compute].
    destruct Hcase as [[Hneg Heq]|(Hlen & Hle & Hstr)].
    { destruct (Z.ltb_spec (s32 r) 0); [|lia]. wp_step. split; [done|]. right. split; [done|]. by left. }
    pose proof (strlen_nonneg data). destruct (Z.ltb_spec (s32 r) 0); [lia|]. rewrite Hstr, Hlen.
    assert (cwd_ok x prefix data) as Hok. { apply Hcwd; [reflexivity|]. unfold readlink_result in Hr. cbn [fst snd] in Hr |- *. destruct Hr as [Hr|(Hr & _)]; [|lia].
      rewrite s32_id in Hlen by (unfold INT_MIN, INT_MAX in *; lia). lia. }
    destruct (cwd_start data (vc_follow args) Hok) as [Hst Hd]. apply Hrun; [|done].
    split; [by eapply cx_ok_fits|by left].
Qed.
End Expand.

(** ** Reference: lexical normalisation *)

(** "." and "" are ignored, ".." removes the last name and fails at the
    root, anything else is appended. *)
Definition norm_step (st : option (list cstr)) (c : cstr) : option (list cstr) :=
  l ← st;
  if decide (c = [] ∨ c = s2c ".") then Some l
  else if decide (c = s2c "..") then match last l with None => None | Some _ => Some (removelast l) end
  else Some (l ++ [c]).

Definition normalize (path : cstr) : option (list cstr) := foldl norm_step (Some []) (components path).

Definition join (prefix : cstr) (l : list cstr) : cstr := prefix ++ concat ((λ c, SLASH :: c) <$> l).

(** A host on which every path exists and is not a symbolic link. *)
Definition dir_host (prefix : cstr) : protocol := Protocol
  (λ X e, True)
  (λ X e,
    match e in linuxE X return X -> Prop with
    | SysOut _ _ o =>
      match o in outk Y return Z * Y -> Prop with
      | OStat => λ r, s32 r.1 ≠ - LINUX_ENOENT ∧ (s32 r.1 = 0 -> Z.land (lst_mode r.2) LINUX_S_IFMT ≠ LINUX_S_IFLNK)
      | _ => λ _, True
      end
    | Lkm c =>
      match c in lkm_nr Y return Z * Y -> Prop with
      | NR_vchroot_expand _ _ => λ r, prefix_answer prefix r.2
      | _ => λ _, True
      end
    | _ => λ _, True
    end)
  False.

(** What the lookups of such a host rely on. *)
Record plain_lookups (Ψ : protocol) (prefix : cstr) : Prop := {
  pl_stat_call : ∀ nr args, may_call Ψ (SysOut nr args OStat);
  pl_prefix_call : may_call Ψ (Lkm (NR_vchroot_expand (s2c "/") (-100)));
  pl_stat : ∀ nr args r, responds Ψ (SysOut nr args OStat) r ->
    s32 r.1 ≠ - LINUX_ENOENT ∧ (s32 r.1 = 0 -> Z.land (lst_mode r.2) LINUX_S_IFMT ≠ LINUX_S_IFLNK);
  pl_prefix : ∀ r path, responds Ψ (Lkm (NR_vchroot_expand (s2c "/") (-100))) (r, path) -> prefix_answer prefix path }.

Lemma dir_host_lookups prefix : plain_lookups (dir_host prefix) prefix.
Proof. split; [done|done|by intros nr args r|by intros r path]. Qed.

Lemma join_snoc prefix l c : join prefix (l ++ [c]) = join prefix l ++ SLASH :: c.
Proof. unfold join. rewrite fmap_app, concat_app. simpl. by rewrite app_nil_r, app_assoc. Qed.

Lemma is_dot_spec c : is_dot c = true <-> c = [] ∨ c = s2c ".".
Proof. unfold is_dot. rewrite orb_true_iff, !streq_true. tauto. Qed.

Lemma norm_step_unfold l c :
  norm_step (Some l) c =
  if is_dot c then Some l
  else if is_dotdot c then match last l with None => None | Some _ => Some (removelast l) end
  else Some (l ++ [c]).
Proof.
  unfold norm_step. cbn [mbind option_bind]. destruct (decide (c = [] ∨ c = s2c ".")) as [Hd|Hd].
  - apply is_dot_spec in Hd. by rewrite Hd.
  - rewrite <- is_dot_spec in Hd. apply not_true_is_false in Hd. rewrite Hd. unfold is_dotdot.
    destruct (decide (c = s2c "..")) as [->|Hdd]; [done|]. rewrite <- streq_true in Hdd. apply not_true_is_false in Hdd. by rewrite Hdd.
Qed.

Lemma foldl_norm_skip st p : foldl norm_step st (components (skip_slashes p)) = foldl norm_step st (components p).
Proof.
  revert st. induction p as [|c p IH]; intros st; [done|]. simpl. destruct (ascii_dec c SLASH) eqn:E; [|simpl; by rewrite E].
  rewrite IH. simpl. by destruct st.
Qed.

Lemma foldl_norm_next st p comp e :
  next_component p = (comp, e) ->
  foldl norm_step st (components p) = foldl norm_step (norm_step st comp) (components (skip_slashes e)).
Proof.
  intros Heq. apply next_component_spec in Heq as (-> & Hc & [->|[r ->]]).
  - rewrite app_nil_r, components_single by done. simpl. by destruct (norm_step st comp).
  - rewrite components_app_slash by done. rewrite foldl_norm_skip. simpl. by destruct (norm_step st comp).
Qed.

Lemma foldl_norm_None cs : foldl norm_step None cs = None.
Proof. by induction cs. Qed.

Lemma check_exit_id prefix cx : cx_ok true prefix cx -> check_exit cx = cx.
Proof.
  intros Hok. pose proof (check_exit_ok _ _ _ Hok) as Hok'. unfold check_exit in *.
  destruct (_ && _) eqn:E; [|done]. destruct (strncaseeq _ _ _); [|done]. exfalso.
  destruct (ok_exit _ _ _ Hok' eq_refl) as [Hr _]. destruct (ok_exit _ _ _ Hok eq_refl) as [Hr0 _]. simpl in Hr.
  apply andb_true_iff in E as [E _]. rewrite (ok_rlen _ _ _ Hok), Hr0, <- Hr in E. done.
Qed.

Section Lexical.
Context `{LoopFuel, IcaseEnabled}.
Context (prefix : cstr).
Hypothesis Hprefix : prefix_dir prefix.
Hypothesis Hne : prefix ≠ [].
Context (Ψ : protocol).
Hypothesis Hhost : plain_lookups Ψ prefix.

Record at_stack (l : list cstr) (cx : context) : Prop := {
  as_ok : cx_ok true prefix cx;
  as_path : cx_path cx = join prefix l;
  as_names : Forall (λ c, SLASH ∉ c) l;
  as_known : cx_unknown cx = false }.

Lemma dotdot_stack l cx :
  at_stack l cx ->
  match dotdot prefix (strlen prefix) (with_slash cx) with
  | Some (rv, cx') =>
    match norm_step (Some l) (s2c "..") with
    | Some l' => rv = 0 ∧ at_stack l' cx'
    | None => rv = - LINUX_ENOENT
    end
  | None => False
  end.
Proof.
  intros [Hok Hpath Hns Hunk]. destruct (with_slash_path _ _ cx Hok) as [Hp Hl].
  destruct (dotdot_ok true prefix (proj1 Hprefix) cx Hok) as (rv & cx' & Heq & Hrv & _). rewrite Heq.
  assert (∃ r, prefix = SLASH :: r) as [pr Hpr] by (destruct Hprefix as [[[?|?] _] _]; done).
  destruct (ok_exit _ _ _ Hok eq_refl) as [Hroot _]. pose proof (ok_rlen _ _ _ Hok) as Hrl. rewrite Hroot in Hrl.
  unfold dotdot in Heq. rewrite Hl in Heq. cbv zeta in Heq.
  rewrite (proj2 (Z.leb_gt PATH_SIZE (strlen prefix + sizeof_EXIT_PATH))), andb_false_r in Heq
    by (destruct Hprefix as [[_ Hpl] _]; unfold PATH_SIZE, sizeof_EXIT_PATH; lia).
  assert (0 < strlen prefix) by (rewrite Hpr, strlen_cons; pose proof (strlen_nonneg pr); lia).
  assert (strlen (cx_path cx) = strlen prefix + strlen (concat ((λ c, SLASH :: c) <$> l))) as Hlen
    by by rewrite Hpath; unfold join; rewrite strlen_app.
  pose proof (strlen_nonneg (concat ((λ c, SLASH :: c) <$> l))).
  destruct (Z.leb_spec (strlen (cx_path cx) + 1) 1); [lia|]. rewrite Hl, Hp in Heq.
  destruct (Z.leb_spec 2 (strlen (cx_path cx) + 1)); [|lia]. rewrite norm_step_unfold. cbn [mbind option_bind].
  change (is_dot (s2c "..")) with false. change (is_dotdot (s2c "..")) with true. cbn iota.
  destruct l as [|c l _] using rev_ind.
  - cbn [last]. destruct (last_slash _ _) as [p|] eqn:Els; [|done]. apply last_slash_spec in Els as [Hple _].
    cbn [cx_path_len set_path cx_root_len] in Heq. unfold join in Hpath. rewrite app_nil_r in Hpath. rewrite Hpath in Hple.
    destruct (Z.ltb_spec (Z.of_nat p) (cx_root_len (with_slash cx))) as [_|Hge]; [by simplify_eq|].
    simpl in Hge. rewrite Hrl in Hge. unfold strlen in *. lia.
  - rewrite last_snoc, removelast_last. rewrite Hpath, join_snoc in Heq.
    apply Forall_app in Hns as [Hns Hc]. rewrite Forall_singleton in Hc.
    replace (Z.to_nat (strlen (join prefix l ++ SLASH :: c) + 1 - 2)) with (length (join prefix l) + length c)%nat in Heq
      by (rewrite strlen_app, strlen_cons; unfold strlen; lia).
    rewrite <- app_assoc in Heq. cbn [app] in Heq. rewrite (last_slash_component _ c [SLASH]), take_app_length in Heq by exact Hc.
    cbn [cx_path_len set_path cx_root_len] in Heq. change (cx_root_len (with_slash cx)) with (cx_root_len cx) in Heq. rewrite Hrl in Heq.
    destruct (Z.ltb_spec (Z.of_nat (length (join prefix l))) (strlen prefix)) as [Hlt|_].
    { unfold join in Hlt. rewrite length_app in Hlt. unfold strlen in Hlt. lia. }
    simplify_eq. split; [done|]. destruct Hrv as [[_ Hok']|]; [|done]. by split.
Qed.

Lemma component_stack run l cx comp more g :
  at_stack l cx -> (SLASH ∉ comp) -> is_exit_name comp = false ->
  strlen (cx_path cx) + 1 + strlen comp <= 4094 ->
  wp Ψ (run_component prefix (strlen prefix) run comp more cx) g
    (λ o g', g' = g ∧
      match norm_step (Some l) comp with
      | Some l' => ∃ cx', o = Continue cx' ∧ at_stack l' cx' ∧ strlen (cx_path cx') <= strlen (cx_path cx) + 1 + strlen comp
      | None => ∃ cx', o = Return (- LINUX_ENOENT) cx'
      end).
Proof.
  intros Hst Hc He Hb. pose proof (strlen_nonneg comp). unfold run_component. fold (with_slash cx).
  destruct (is_dot comp) eqn:Edot.
  { wp_step. split; [done|]. rewrite norm_step_unfold, Edot. eexists. split; [done|]. split; [done|lia]. }
  destruct (with_slash_path _ _ cx (as_ok _ _ Hst)) as [Hp Hl]. cbv zeta.
  rewrite (proj2 (Z.leb_gt PATH_SIZE (cx_path_len (with_slash cx)))) by (rewrite Hl; unfold PATH_SIZE; lia).
  destruct (is_dotdot comp) eqn:Edd.
  { apply streq_true in Edd. subst comp. pose proof (dotdot_stack l cx Hst) as Hd.
    destruct (dotdot prefix (strlen prefix) (with_slash cx)) as [[rv cx']|]; [|done]. wp_step. split; [done|].
    destruct (norm_step (Some l) (s2c "..")) as [l'|] eqn:En.
    - destruct Hd as [-> Hst']. exists cx'. split; [done|]. split; [done|].
      rewrite (as_path _ _ Hst'), (as_path _ _ Hst). rewrite norm_step_unfold in En. change (is_dot (s2c "..")) with false in En. change (is_dotdot (s2c "..")) with true in En. cbv iota in En.
      destruct l as [|c l _] using rev_ind; [done|]. rewrite last_snoc, removelast_last in En. simplify_eq.
      rewrite join_snoc, strlen_app, strlen_cons. pose proof (strlen_nonneg c). lia.
    - subst rv. by eexists. }
  cbv zeta. rewrite Hl, Hp. unfold PATH_SIZE. destruct (Z.ltb_spec 4096 (strlen comp + (strlen (cx_path cx) + 1) + 2)); [lia|].
  rewrite ztake_strlen by (rewrite strlen_app; done). rewrite <- app_assoc. cbn [app].
  change (set_path ?a ?b (with_slash cx)) with (set_path a b cx).
  set (cx1 := set_path (cx_path cx ++ SLASH :: comp) (strlen (cx_path cx) + 1 + strlen comp) cx).
  assert (cx_ok true prefix cx1) as Hok1 by (apply cx_ok_append; [apply Hst|done|done|lia]).
  change (cx_unknown cx1) with (cx_unknown cx). rewrite (as_known _ _ Hst).
  assert (∃ cx', Continue (check_exit cx1) = Continue cx' ∧ at_stack (l ++ [comp]) cx' ∧
    strlen (cx_path cx') <= strlen (cx_path cx) + 1 + strlen comp) as Hdone.
  { rewrite (check_exit_id prefix) by done. exists cx1. split; [done|]. destruct Hst as [? Hpath ? ?]. split.
    - split; [done| |by apply Forall_app; split; [|apply Forall_singleton]|done]. simpl. by rewrite Hpath, join_snoc.
    - simpl. rewrite strlen_app, strlen_cons. lia. }
  assert (norm_step (Some l) comp = Some (l ++ [comp])) as -> by by rewrite norm_step_unfold, Edot, Edd.
  wp_step. apply wp_syscall_int_out; [apply Hhost|]. intros r st [Hr Hs]%(pl_stat _ _ Hhost). cbn [fst snd] in Hr, Hs.
  destruct (Z.eqb_spec (s32 r) (- LINUX_ENOENT)); [done|]. rewrite andb_false_r.
  destruct (Z.eqb_spec (s32 r) 0) as [Hz|]; cbn [andb]; [|by wp_step].
  destruct (Z.eqb_spec (Z.land (lst_mode st) LINUX_S_IFMT) LINUX_S_IFLNK); [by destruct (Hs Hz)|]. by wp_step.
Qed.

Lemma components_stack run n input l cx g :
  (length input < n)%nat -> at_stack l cx -> no_exit input -> strlen (cx_path cx) + 1 + strlen input <= 4094 ->
  wp Ψ (components_loop prefix (strlen prefix) run n input cx) g
    (λ r g', g' = g ∧
      match foldl norm_step (Some l) (components input) with
      | Some l' => r.1 = 0 ∧ at_stack l' r.2
      | None => r.1 = - LINUX_ENOENT
      end).
Proof.
  revert input l cx. induction n as [|n IH]; intros input l cx Hn Hst Hx Hb; [lia|]. cbn [components_loop].
  destruct input as [|c input'] eqn:Ein; [by wp_step|].
  rewrite <- Ein in *. destruct (next_component input) as [comp e] eqn:Enc.
  pose proof (next_component_spec _ _ _ Enc) as (Hsplit & Hns & Hec).
  destruct (no_exit_next _ _ _ Hx Enc) as [He Hx'].
  pose proof (skip_slashes_length e) as Hskip.
  assert (e = [] ∨ 1 + length (skip_slashes e) <= length e)%nat as Hcase.
  { destruct Hec as [->|[r ->]]; [by left|right]. simpl. pose proof (skip_slashes_length r). lia. }
  assert (strlen input = strlen comp + strlen e) as Hlen by by rewrite Hsplit, strlen_app.
  rewrite (foldl_norm_next _ _ _ _ Enc). wp_step. eapply wp_mono.
  { apply component_stack; [done..|]. pose proof (strlen_nonneg e). lia. }
  intros o g' [-> Ho]. destruct (norm_step (Some l) comp) as [l'|].
  - destruct Ho as (cx' & -> & Hst' & Hb'). destruct (decide (e = [])) as [->|He'].
    + destruct n as [|n]; [rewrite Ein in Hn; simpl in Hn; lia|]. cbn [skip_slashes components_loop]. by wp_step.
    + destruct Hcase as [|Hcase]; [done|]. apply IH; [|done|done|unfold strlen in *; lia].
      rewrite Hsplit, length_app in Hn. lia.
  - destruct Ho as [cx' ->]. wp_step. rewrite foldl_norm_None. done.
Qed.
End Lexical.

(** ** Translating back *)

(** What an application sees for a host path. *)
Definition visible (prefix p : cstr) : cstr :=
  if decide (prefix `prefix_of` p) then match drop (length prefix) p with [] => s2c "/" | q => q end
  else EXIT_PATH ++ p.

Lemma visible_join prefix l : visible prefix (join prefix l) = match join [] l with [] => s2c "/" | q => q end.
Proof.
  unfold visible, join. rewrite decide_True by by eexists. by rewrite drop_app_length.
Qed.

Lemma vchroot_unexpand_visible Ψ prefix p g :
  knows_prefix prefix g -> wp Ψ (vchroot_unexpand p) g (λ r g', g' = g ∧ r = (0, visible prefix p)).
Proof.
  intros [Hp Hl]. unfold vchroot_unexpand. wp_step. wp_step. rewrite Hp, Hl.
  pose proof (strlen_nonneg prefix). destruct (Z.ltb_spec (strlen prefix) 0); [lia|].
  unfold visible, zdrop, strlen. rewrite Nat2Z.id. destruct (strneq p prefix (length prefix)) eqn:E.
  - apply strneq_prefix in E. rewrite decide_True by done. wp_step. by destruct (drop (length prefix) p).
  - rewrite decide_False by (rewrite <- strneq_prefix; congruence). wp_step. done.
Qed.

(** A host that answers every [readlink] with [link], truncated like
    readlink(2) does. *)
Definition link_host (prefix link : cstr) : protocol := Protocol
  (λ X e, match e with SysOut _ (AStr p :: _) _ => proc_self p | _ => True end)
  (λ X e,
    match e in linuxE X return X -> Prop with
    | SysOut _ _ o =>
      match o in outk Y return Z * Y -> Prop with
      | OBytes n => λ r, r = (strlen (ztake n link), ztake n link)
      | _ => λ _, True
      end
    | Lkm c =>
      match c in lkm_nr Y return Z * Y -> Prop with
      | NR_vchroot_expand _ _ => λ r, prefix_answer prefix r.2
      | _ => λ _, True
      end
    | _ => λ _, True
    end)
  False.

Lemma ztake_id {A} n (l : list A) : Z.of_nat (length l) <= n -> ztake n l = l.
Proof. intros ?. unfold ztake. apply take_ge. lia. Qed.

(** ** Termination

    Only the scan of a directory depends on the kernel for its end.  A host
    whose directories end gives, after each batch of entries, fewer batches
    than before. *)
Section Termination.
Context `{LoopFuel, IcaseEnabled} {K : Type} (h : handler K) (left : K -> nat).

Record directories_end : Prop := {
  de_bound : ∀ s, (left s < loop_fuel)%nat;
  de_batch : ∀ nr args n s, 0 < s32 (h _ (SysOut nr args (ODirents n)) s).1.1 ->
    (left (h _ (SysOut nr args (ODirents n)) s).2 < left s)%nat }.

(** The execution does not use up the fuel of a loop. *)
Fixpoint ends_prog {A} (p : prog A) (s : K) : Prop :=
  match p with
  | Ret _ => True
  | Vis e k => ends_prog (k (h _ e s).1) (h _ e s).2
  | Stuck NoFuel => False
  | Stuck Undefined => True
  end.

Definition ends {A} (m : M A) : Prop := ∀ g s, ends_prog (m g) s.

Lemma ends_prog_bind {A B} (f : A -> prog B) p s :
  ends_prog p s -> (∀ a s', ends_prog (f a) s') -> ends_prog (prog_bind f p) s.
Proof.
  intros Hp Hf. revert s Hp. induction p as [a|X e k IH|[]]; intros s; simpl; [intros _; apply Hf|apply IH|done|done].
Qed.

Lemma ends_bind {A B} (m : M A) (f : A -> M B) : ends m -> (∀ a, ends (f a)) -> ends (m ≫= f).
Proof. intros Hm Hf g s. apply ends_prog_bind; [apply Hm|]. intros [a g'] s'. apply Hf. Qed.

Lemma ends_ret {A} (a : A) : ends (mret a).
Proof. done. Qed.
Lemma ends_undefined {A} : ends (@undefined A).
Proof. done. Qed.
Lemma ends_trigger {X : Set} (e : linuxE X) : ends (trigger e).
Proof. done. Qed.

(** A program that is correct for hosts that follow a protocol and ends on
    this one has a result. *)
Lemma ends_run {A} Ψ (m : M A) g Q s :
  follows h Ψ -> wp Ψ m g Q -> ends m -> ∃ a g' s', run h m g s = Some (a, g', s') ∧ Q a g'.
Proof.
  intros Hh Hw Hm. specialize (Hm g s). revert Hw Hm. unfold wp, run. generalize (m g). intros p. revert s.
  induction p as [[a g']|X e k IH|[]]; simpl; intros s Hw Hm; [by eauto| |done|done].
  destruct Hw as [Hc Hk]. specialize (Hh X e s Hc). destruct (h X e s) as [x s']. simpl in *. eauto.
Qed.

Hypothesis Hdir : directories_end.

Ltac ends_step :=
  first [apply ends_bind; [|intros ?] | apply ends_ret | apply ends_undefined | apply ends_trigger
        | case_match | progress cbv beta iota zeta].

Lemma find_icase_ends fuel dfd name s g : (left s < fuel)%nat -> ends_prog (find_icase fuel dfd name g) s.
Proof.
  revert s g. induction fuel as [|fuel IH]; intros s g Hs; [lia|]. simpl.
  destruct (h _ (SysOut __NR_getdents64 [AInt dfd; AInt 4096] (ODirents 4096)) s) as [[r des] s'] eqn:E. simpl.
  destruct (Z.ltb_spec 0 (s32 r)) as [Hr|]; [|done]. destruct (scan_dirents des 0 (s32 r) name); [done|]. apply IH.
  pose proof (de_batch Hdir __NR_getdents64 [AInt dfd; AInt 4096] 4096 s) as Hb. rewrite E in Hb. specialize (Hb Hr). simpl in Hb. lia.
Qed.

Lemma icase_lookup_ends prevlen cx : ends (icase_lookup prevlen cx).
Proof.
  unfold icase_lookup, syscall_int, LINUX_SYSCALL. repeat ends_step. intros g s. apply find_icase_ends, (de_bound Hdir).
Qed.

Lemma run_component_ends prefix n run comp more cx :
  (∀ input cx, ends (run input cx)) -> ends (run_component prefix n run comp more cx).
Proof.
  intros Hrun. unfold run_component, follow_symlink, syscall_int_out, LINUX_SYSCALL_out. cbv zeta.
  repeat first [apply Hrun | apply icase_lookup_ends | ends_step].
Qed.

Lemma components_loop_ends prefix n run k input cx :
  (∀ input cx, ends (run input cx)) -> ends (components_loop prefix n run k input cx).
Proof.
  intros Hrun. revert input cx. induction k as [|k IH]; intros input cx; [done|]. cbn [components_loop].
  destruct input as [|c input]; [done|]. destruct (next_component (c :: input)) as [comp e].
  apply ends_bind; [by apply run_component_ends|]. intros [cx'|rv cx']; [apply IH|done].
Qed.

Lemma vchroot_run_ends prefix n d input cx : ends (vchroot_run prefix n d input cx).
Proof.
  revert input cx. induction d as [|d IH]; intros input cx; [done|]. cbn [vchroot_run].
  repeat first [apply components_loop_ends, IH | ends_step].
Qed.

Lemma vchroot_expand_ends args : ends (vchroot_expand args).
Proof.
  unfold vchroot_expand, ensure_prefix, init_vchroot_path, lkm_call, readlink_4096, syscall_int_out, LINUX_SYSCALL_out. cbv zeta.
  repeat first [apply vchroot_run_ends | done | ends_step].
Qed.
End Termination.

(** ** Properties *)

Section Properties.
Context `{LoopFuel, IcaseEnabled}.

Lemma vchroot_run_abs prefix n d rest cx :
  cx_depth cx = 0 ->
  vchroot_run prefix n (S d) (SLASH :: rest) cx =
  components_loop prefix n (vchroot_run prefix n d) (S (length rest)) rest (set_path (cx_root cx) (strlen (cx_root cx)) cx).
Proof. intros Hd. cbn [vchroot_run]. rewrite Hd. by destruct (ascii_dec SLASH SLASH). Qed.

(** C1: confinement.  When neither the given path, nor the working directory,
    nor the target of any symbolic link names a component "SystemRoot", path
    resolution never shows the kernel a path outside the prefix (other than
    /proc/self entries), whatever links and "..", and a successful result is
    the prefix directory or below it. *)
Theorem vchroot_confined prefix args g :
  prefix_dir prefix -> prefix_state prefix g -> no_exit (vc_path args) ->
  wp (vchroot_host true prefix) (vchroot_expand args) g
    (λ r g', knows_prefix prefix g' ∧ (r.1 = 0 ∧ under prefix (vc_path r.2) ∨ r.1 < 0)).
Proof.
  intros Hp Hg Hx. eapply wp_mono; [by apply vchroot_expand_wp|].
  intros r g' [Hk [(? & _ & _ & ?)|[? _]]]; (split; [done|]); auto.
Qed.

(** Whatever the answers, a resolution has no undefined behaviour, and its
    result is an error or an absolute path that fits. *)
Lemma vchroot_expand_defined prefix args g :
  prefix_dir prefix -> prefix_state prefix g ->
  wp (vchroot_host false prefix) (vchroot_expand args) g
    (λ r g', r.1 = 0 ∧ absolute (vc_path r.2) ∧ strlen (vc_path r.2) <= 4094 ∨
             r.1 < 0 ∧ (r.2 = args ∨ strlen (vc_path r.2) <= 4095)).
Proof.
  intros Hp Hg. eapply wp_mono; [by apply vchroot_expand_wp|].
  intros r g' [Hk [(? & ? & ? & _)|[? ?]]]; auto.
Qed.

(** C4: memory safety and termination.  The prefix has at most 4075
    characters and no slash at its end, the working directory (or the
    directory of the descriptor) an absolute name of at most 4094, [readlink]
    stores no NUL, and directories end.  Then, whatever the path, the symbolic
    links and their targets, the errors and the case of names, with and
    without the case-insensitive lookup, the resolution has no undefined
    behaviour and returns: an error, or an absolute path of at most 4094
    characters, which with its terminator fits the buffer of 4096 bytes. *)
Theorem vchroot_expand_safe {K} (h : handler K) left prefix args g s :
  prefix_dir prefix -> prefix_state prefix g ->
  follows h (vchroot_host false prefix) -> directories_end h left ->
  ∃ r g' s', run h (vchroot_expand args) g s = Some (r, g', s') ∧
    (r.1 = 0 ∧ absolute (vc_path r.2) ∧ strlen (vc_path r.2) <= 4094 ∨
     r.1 < 0 ∧ (r.2 = args ∨ strlen (vc_path r.2) <= 4095)).
Proof.
  intros Hp Hg Hh Hd. apply (ends_run h (vchroot_host false prefix) (vchroot_expand args) g _ s Hh); [by apply vchroot_expand_defined|].
  by apply (vchroot_expand_ends h left).
Qed.

(** The path of [a] is replaced. *)
Definition with_path (a : vchroot_expand_args) (p : cstr) : vchroot_expand_args :=
  VchrootExpandArgs p (vc_dfd a) (vc_follow a).

Lemma vchroot_expand_dirs Ψ prefix args g :
  plain_lookups Ψ prefix ->
  prefix_dir prefix -> prefix ≠ [] -> prefix_state prefix g ->
  absolute (vc_path args) -> no_exit (vc_path args) -> strlen prefix + strlen (vc_path args) <= 4094 ->
  wp Ψ (vchroot_expand args) g
    (λ r g', knows_prefix prefix g' ∧
      match normalize (vc_path args) with
      | Some l => r = (0, with_path args (join prefix l))
      | None => r.1 = - LINUX_ENOENT
      end).
Proof.
  intros HΨ Hp Hne Hg [rest Hrest] Hx Hb. unfold vchroot_expand. wp_step.
  eapply wp_mono; [apply (ensure_prefix_answer _ prefix); [done|done|apply HΨ|apply HΨ]|].
  intros g0 g' [-> Hk]. pose proof Hk as [Hk1 Hk2]. rewrite Hk1, Hk2, Hrest. destruct (ascii_dec SLASH SLASH); [|done].
  wp_step. change vchroot_depth with (S 11). rewrite vchroot_run_abs by done. cbn [cx_root set_path].
  rewrite Hrest, strlen_cons in Hb. rewrite Hrest in Hx. unfold no_exit in Hx. simpl in Hx. apply Forall_cons in Hx as [_ Hx].
  eapply wp_mono.
  { apply (components_stack prefix Hp Hne Ψ HΨ _ _ _ []); [lia| |done|simpl; lia].
    destruct Hp as [[Hpc Hpl] _]. split; [|simpl; unfold join; by rewrite app_nil_r|done|done].
    split; simpl; [done|done|by left|done|done|lia|]. intros _. split; [done|]. exists [].
    rewrite app_nil_r. split; [done|]. split; [by left|apply exit_free_nil]. }
  intros [rv cx'] g'' [-> Hres]. wp_step. split; [done|]. unfold normalize.
  change (components (SLASH :: rest)) with ([] :: components rest). cbn [foldl].
  change (norm_step (Some []) []) with (Some (@nil cstr)).
  destruct (foldl norm_step (Some []) (components rest)) as [l|]; [|done].
  cbn [fst snd] in *. destruct Hres as [-> [Hok Hpath _ _]]. unfold with_path. rewrite (ok_plen _ _ _ Hok), Hpath.
  destruct (Z.ltb_spec 0 (strlen (join prefix l))) as [|Hz]; [done|].
  destruct prefix as [|c pr]; [done|]. unfold join in Hz. simpl in Hz. rewrite strlen_cons in Hz.
  pose proof (strlen_nonneg (pr ++ concat ((λ c, SLASH :: c) <$> l))). lia.
Qed.

(** C5: lexical normalisation.  The path is absolute, does not name the exit
    directory, and with the prefix (which is not the root directory) has at
    most 4094 characters; each name that is looked up exists as it is spelled,
    so that no case-insensitive search is made, and is not a symbolic link.
    Then the path resolves to its lexical normalisation: ".", "//" and
    trailing slashes disappear, ".." removes the name before it and fails with
    ENOENT at the root, and the remaining names are appended to the prefix. *)
Theorem vchroot_expand_lexical prefix args g :
  prefix_dir prefix -> prefix ≠ [] -> prefix_state prefix g ->
  absolute (vc_path args) -> no_exit (vc_path args) -> strlen prefix + strlen (vc_path args) <= 4094 ->
  wp (dir_host prefix) (vchroot_expand args) g
    (λ r g', match normalize (vc_path args) with
             | Some l => r = (0, with_path args (join prefix l))
             | None => r.1 = - LINUX_ENOENT
             end).
Proof. intros. eapply wp_mono; [by apply vchroot_expand_dirs; [apply dir_host_lookups|..]|]. by intros r g' [_ ?]. Qed.

(** C6: under the conditions of the lexical normalisation (names that exist,
    no symbolic links, no exit directory, an absolute path that fits behind
    a prefix other than the root directory), [vchroot_unexpand] inverts
    [vchroot_expand]: translating the resolved path back gives the normalised
    path, "/" for the root. *)
Theorem vchroot_expand_unexpand prefix args l g :
  prefix_dir prefix -> prefix ≠ [] -> prefix_state prefix g ->
  absolute (vc_path args) -> no_exit (vc_path args) -> strlen prefix + strlen (vc_path args) <= 4094 ->
  normalize (vc_path args) = Some l ->
  wp (dir_host prefix) ('(_, a) ← vchroot_expand args; vchroot_unexpand (vc_path a)) g
    (λ r g', r = (0, match join [] l with [] => s2c "/" | p => p end)).
Proof.
  intros ?????? Hn. wp_step. eapply wp_mono; [by apply vchroot_expand_dirs; [apply dir_host_lookups|..]|]. intros [rv a] g' [Hk Hr].
  rewrite Hn in Hr. simplify_eq. eapply wp_mono; [by apply vchroot_unexpand_visible|].
  intros r g'' [_ ->]. cbn [vc_path with_path]. by rewrite visible_join.
Qed.

(** [vchroot_fdpath] stores exactly the visible name of what a descriptor
    refers to, fails with ENAMETOOLONG exactly when the name and its
    terminator do not fit, and asks only /proc/self. *)
Theorem vchroot_fdpath_visible prefix link fd maxlen g :
  prefix_dir prefix -> prefix_state prefix g ->
  Forall (.≠ NUL) link -> strlen link <= 4095 -> 2 <= maxlen ->
  wp (link_host prefix link) (vchroot_fdpath fd maxlen) g
    (λ r g', r = if strlen (visible prefix link) <? maxlen then (0, Some (visible prefix link))
                 else (- LINUX_ENAMETOOLONG, None)).
Proof.
  intros Hp Hg Hnul Hlen Hmax. unfold vchroot_fdpath. wp_step.
  eapply wp_mono; [apply (ensure_prefix_answer _ prefix); [done|done|done|by intros r path Hr]|].
  intros g0 g' [-> [Hk1 Hk2]]. rewrite Hk1, Hk2. wp_step. unfold readlink_4096.
  apply wp_syscall_int_out; [apply proc_fd_path_self|]. intros r data Hr. cbn [responds link_host] in Hr.
  rewrite ztake_id in Hr by (unfold strlen, PATH_SIZE in *; lia). injection Hr as -> ->. pose proof (strlen_nonneg link).
  rewrite s32_id by (unfold INT_MIN, INT_MAX; lia). destruct (Z.ltb_spec (strlen link) 0); [lia|].
  rewrite (ztake_strlen link), c_str_id by done. unfold visible.
  replace (Z.to_nat (strlen prefix)) with (length prefix) by (unfold strlen; lia).
  destruct (strneq link prefix (length prefix)) eqn:E.
  - apply strneq_prefix in E. rewrite decide_True by done. destruct E as [q ->].
    rewrite strlen_app. pose proof (strlen_nonneg q). destruct (Z.leb_spec (strlen prefix) (strlen prefix + strlen q)); [|lia].
    cbn [andb]. rewrite drop_app_length. rewrite zdrop_strlen_app by done. destruct q as [|c q].
    + change (strlen []) with 0. change (strlen (s2c "/")) with 1.
      destruct (Z.ltb_spec (maxlen - 1) (strlen prefix + 0 - strlen prefix)); [lia|]. destruct (Z.ltb_spec 1 maxlen); [|lia]. by wp_step.
    + destruct (Z.ltb_spec (maxlen - 1) (strlen prefix + strlen (c :: q) - strlen prefix)), (Z.ltb_spec (strlen (c :: q)) maxlen);
        try lia; by wp_step.
  - rewrite decide_False by (rewrite <- strneq_prefix; congruence). rewrite andb_false_r, strlen_app.
    change (strlen EXIT_PATH) with 19. unfold sizeof_EXIT_PATH.
    destruct (Z.ltb_spec maxlen (20 + strlen link)), (Z.ltb_spec (19 + strlen link) maxlen); try lia; by wp_step.
Qed.
End Properties.

(** ** A concrete host

    A prefix with two symbolic links, used to run the definitions. *)
Module Toy.
Definition prefix : cstr := s2c "/p".
Definition cwd : cstr := s2c "/p/Users/me".
Definition links : list (cstr * cstr) :=
  [ (s2c "/p/tmp", s2c "/private/tmp"); (s2c "/p/var", s2c "private/var") ].

Definition target (args : list arg) : option cstr :=
  match args with
  | AStr p :: _ => snd <$> find (λ e, streq e.1 p) links
  | _ => None
  end.

Definition stat_mode (mode : Z) : linux_stat := LinuxStat 0 0 0 mode 0 0 0 0 0 0 0 0 0 0 0 0.

Definition host : handler unit := λ X e s,
  (match e in linuxE X return X with
   | Sys _ _ => 0
   | SysOut _ args o =>
     match o in outk Y return Z * Y with
     | OBytes n =>
       if n =? 4095 then (strlen cwd, cwd)
       else match target args with
            | Some t => if strlen t <=? n then (strlen t, t) else (- LINUX_EINVAL, [])
            | None => (- LINUX_EINVAL, [])
            end
     | OStat => (0, stat_mode (match target args with Some _ => LINUX_S_IFLNK | None => 0x4000 end))
     | o => (0, zero_out o)
     end
   | Lkm c => (0, match c in lkm_nr Y return Y with NR_vchroot_expand _ _ => prefix | c => zero_lkm c end)
   end, s).

#[export] Instance fuel : LoopFuel := 10%nat.
(** The copy of the code that is linked into dyld. *)
#[export] Instance icase : IcaseEnabled := false.

Lemma prefix_is_dir : prefix_dir prefix.
Proof. split; [|by vm_compute]. split; [right; by eexists|by vm_compute]. Qed.

Lemma exit_free_check q :
  forallb (λ n, negb (strcaseeq (take n q) EXIT_PATH)) (seq 0 (S (length q))) = true -> exit_free q.
Proof.
  intros Hall q1 q2 -> _. rewrite forallb_forall in Hall. specialize (Hall (length q1)).
  rewrite take_app_length, negb_true_iff in Hall. apply Hall, in_seq. rewrite length_app. lia.
Qed.

Lemma no_exit_check p : forallb (λ c, negb (is_exit_name c)) (components p) = true -> no_exit p.
Proof.
  intros Hall. apply Forall_forall. intros c Hc. rewrite forallb_forall in Hall.
  apply negb_true_iff, Hall. by apply list_elem_of_In.
Qed.

Lemma target_links args t :
  target args = Some t -> Forall (.≠ NUL) t ∧ no_exit t.
Proof.
  unfold target. destruct args as [|[] args]; try done. destruct (find _ links) as [[p t']|] eqn:E; [|done].
  intros [= <-]. apply find_some in E as [Hin _].
  destruct Hin as [[= <- <-]|[[= <- <-]|[]]]; (split; [repeat constructor; by vm_compute|]);
    apply no_exit_check; by vm_compute.
Qed.

Lemma no_link n :
  readlink_result n (- LINUX_EINVAL, []) ∧ (true = true -> n = 511 -> no_exit []) ∧
  (n = 4095 -> 0 <= - LINUX_EINVAL -> cwd_ok true prefix []).
Proof.
  split; [left; by vm_compute|]. split; [intros; by apply no_exit_check|]. intros _ H. by vm_compute in H.
Qed.

Lemma host_follows : follows host (vchroot_host true prefix).
Proof.
  intros X e s Hcall. destruct e as [nr args|Y nr args o|Y c]; [done| |].
  - destruct o; try done. rename size into n. simpl. destruct (Z.eqb_spec n 4095) as [->|Hn]; simpl.
    + split; [right; split; [done|]; split; [by vm_compute|]; repeat constructor; by vm_compute|].
      split; [done|]. intros _ _. split; [by eexists|]. split; [by vm_compute|]. intros _. exists (s2c "/Users/me").
      split; [done|]. split; [right; by eexists|]. by apply exit_free_check.
    + destruct (target args) as [t|] eqn:Et; [|apply no_link]. apply target_links in Et as [Hnul Hx].
      destruct (Z.leb_spec (strlen t) n); [|apply no_link]. split; [by right|]. by split.
  - destruct c; try done. by left.
Qed.
End Toy.

#[local] Existing Instance Toy.fuel.
#[local] Existing Instance Toy.icase.

Definition toy_args : vchroot_expand_args := VchrootExpandArgs (s2c "/tmp/../var/./db") (-100) true.

Lemma toy_no_exit : no_exit (vc_path toy_args).
Proof. by apply Toy.no_exit_check. Qed.

Lemma vchroot_confined_witness :
  ∃ r g', run Toy.host (vchroot_expand toy_args) init_gstate tt = Some (r, g', tt) ∧
    r = (0, with_path toy_args (s2c "/p/private/var/db")) ∧ under Toy.prefix (vc_path r.2).
Proof.
  destruct (wp_run Toy.host (vchroot_host true Toy.prefix) (vchroot_expand toy_args) init_gstate _ tt
    (λ H, diff_false_true H) Toy.host_follows
    (vchroot_confined Toy.prefix toy_args init_gstate Toy.prefix_is_dir (or_intror eq_refl) toy_no_exit))
    as (r & g' & [] & Hrun & _ & Hres).
  exists r, g'. split; [exact Hrun|]. vm_compute in Hrun. injection Hrun as <- <-. split; [reflexivity|].
  destruct Hres as [[_ H]|H]; [exact H|by vm_compute in H].
Defined.

(** A directory with one entry, "tmp", in one batch; "Tmp" does not exist.  The
    state says whether the batch is still to be read. *)
Definition scan_host : handler bool := λ X e s,
  match e in linuxE X return X * bool with
  | Sys nr args => ((Toy.host _ (Sys nr args) tt).1, if nr =? __NR_open then true else s)
  | SysOut nr args o =>
    match o in outk Y return (Z * Y) * bool with
    | ODirents _ => if s then ((24, [LinuxDirent64 1 1 24 4 (s2c "tmp")]), false) else ((0, []), false)
    | OStat =>
      if match args with [AStr p] => streq p (s2c "/p/Users/me/Tmp") | _ => false end then ((- LINUX_ENOENT, Toy.stat_mode 0), s)
      else ((0, Toy.stat_mode 0x4000), s)
    | o => ((Toy.host _ (SysOut nr args o) tt).1, s)
    end
  | Lkm c => ((Toy.host _ (Lkm c) tt).1, s)
  end.

Lemma scan_host_follows : follows scan_host (vchroot_host false Toy.prefix).
Proof.
  intros X e s Hcall. destruct e as [nr args|Y nr args o|Y c]; [done| |].
  - destruct o; try done. rename size into n. simpl.
    destruct (Z.eqb_spec n 4095) as [->|Hn]; simpl.
    + split; [right; split; [done|]; split; [by vm_compute|]; repeat constructor; by vm_compute|].
      split; [done|]. intros _ _. split; [by eexists|]. by split; [by vm_compute|].
    + destruct (Toy.target args) as [t|] eqn:Et; [|by split; [left; vm_compute|]]. apply Toy.target_links in Et as [Hnul Hx].
      destruct (Z.leb_spec (strlen t) n); [|by split; [left; vm_compute|]]. by split; [right|].
  - destruct c; try done. by left.
Qed.

Lemma scan_host_ends : directories_end scan_host (λ s, if s then 1%nat else 0%nat).
Proof. split; [by intros []; vm_compute; lia|]. intros nr args n [] Hr; [by vm_compute; lia|by vm_compute in Hr]. Qed.

Lemma vchroot_expand_safe_witness :
  ∃ r g' s', run scan_host (vchroot_expand (H0 := true) (VchrootExpandArgs (s2c "Tmp/x") 7 false)) init_gstate false = Some (r, g', s') ∧
    r = (0, VchrootExpandArgs (s2c "/p/Users/me/tmp/x") 7 false) ∧ strlen (vc_path r.2) <= 4094.
Proof.
  destruct (vchroot_expand_safe (H0 := true) scan_host (λ s, if s then 1%nat else 0%nat) Toy.prefix
    (VchrootExpandArgs (s2c "Tmp/x") 7 false) init_gstate false Toy.prefix_is_dir (or_intror eq_refl) scan_host_follows scan_host_ends)
    as (r & g' & s' & Hrun & Hres).
  exists r, g', s'. split; [exact Hrun|]. vm_compute in Hrun. injection Hrun as <- <- <-. split; [reflexivity|].
  destruct Hres as [(_ & _ & H)|[H _]]; [exact H|by vm_compute in H].
Defined.

(** [readlink] may store 4095 characters of the name of the working
    directory; the slash behind it takes the last byte of the buffer, and the
    terminator is stored behind the end. *)
Definition long_cwd_host : handler unit := λ X e s,
  (match e in linuxE X return X with
   | SysOut nr args o =>
     match o in outk Y return Z * Y with
     | OBytes n => (n, SLASH :: replicate (Z.to_nat n - 1) "a"%char)
     | o => (Toy.host _ (SysOut nr args o) s).1
     end
   | e => (Toy.host _ e s).1
   end, s).

Theorem long_cwd_overruns :
  readlink_result (PATH_SIZE - 1) (long_cwd_host _ (SysOut __NR_readlink [] (OBytes (PATH_SIZE - 1))) tt).1 ∧
  run long_cwd_host (vchroot_expand (VchrootExpandArgs (s2c "x") (-100) false)) init_gstate tt = None.
Proof.
  split; [|by vm_compute]. right. split; [by vm_compute|]. split; [by vm_compute|].
  apply (bool_decide_unpack _). by vm_compute.
Qed.

Lemma vchroot_expand_lexical_witness :
  wp (dir_host Toy.prefix) (vchroot_expand toy_args) init_gstate
    (λ r _, r = (0, with_path toy_args (s2c "/p/var/db"))).
Proof.
  apply (vchroot_expand_lexical Toy.prefix toy_args init_gstate Toy.prefix_is_dir); [done|by right|by eexists| |by vm_compute].
  exact toy_no_exit.
Defined.

Lemma vchroot_expand_unexpand_witness :
  wp (dir_host Toy.prefix) ('(_, a) ← vchroot_expand toy_args; vchroot_unexpand (vc_path a)) init_gstate
    (λ r _, r = (0, s2c "/var/db")).
Proof.
  apply (vchroot_expand_unexpand Toy.prefix toy_args [s2c "var"; s2c "db"] init_gstate Toy.prefix_is_dir);
    [done|by right|by eexists|exact toy_no_exit|by vm_compute|by vm_compute].
Defined.

Lemma vchroot_fdpath_visible_witness :
  wp (link_host Toy.prefix (s2c "/p/etc/hosts")) (vchroot_fdpath 3 11) init_gstate
    (λ r _, r = (0, Some (s2c "/etc/hosts"))) ∧
  wp (link_host Toy.prefix (s2c "/dev/pts/0")) (vchroot_fdpath 3 11) init_gstate
    (λ r _, r = (- LINUX_ENAMETOOLONG, None)).
Proof.
  split.
  - apply (vchroot_fdpath_visible Toy.prefix (s2c "/p/etc/hosts") 3 11 init_gstate Toy.prefix_is_dir);
      [by right|repeat constructor; by vm_compute|by vm_compute|by vm_compute].
  - apply (vchroot_fdpath_visible Toy.prefix (s2c "/dev/pts/0") 3 11 init_gstate Toy.prefix_is_dir);
      [by right|repeat constructor; by vm_compute|by vm_compute|by vm_compute].
Defined.
