(* ===== verification/Signals.v ===== *)
(** * signal/: signal numbers, signal sets, dispositions and delivery

    duct_signals.c, sigaction.c, sigprocmask.c, kill.c, sigsuspend.c,
    sigaltstack.c, sigpending.c and sigwait.c. *)
From S2P Require Import Prelude Abi Linux Errno Base.

(** ** Signal numbers *)

Definition signum_l2b_tbl : list (Z * Z) := [
  (LINUX_SIGHUP, SIGHUP); (LINUX_SIGINT, SIGINT); (LINUX_SIGQUIT, SIGQUIT); (LINUX_SIGILL, SIGILL);
  (LINUX_SIGTRAP, SIGTRAP); (LINUX_SIGABRT, SIGABRT); (LINUX_SIGFPE, SIGFPE); (LINUX_SIGKILL, SIGKILL);
  (LINUX_SIGBUS, SIGBUS); (LINUX_SIGSEGV, SIGSEGV); (LINUX_SIGSYS, SIGSYS); (LINUX_SIGPIPE, SIGPIPE);
  (LINUX_SIGALRM, SIGALRM); (LINUX_SIGTERM, SIGTERM); (LINUX_SIGURG, SIGURG); (LINUX_SIGSTOP, SIGSTOP);
  (LINUX_SIGTSTP, SIGTSTP); (LINUX_SIGCONT, SIGCONT); (LINUX_SIGCHLD, SIGCHLD); (LINUX_SIGTTIN, SIGTTIN);
  (LINUX_SIGTTOU, SIGTTOU); (LINUX_SIGIO, SIGIO); (LINUX_SIGXCPU, SIGXCPU); (LINUX_SIGXFSZ, SIGXFSZ);
  (LINUX_SIGVTALRM, SIGVTALRM); (LINUX_SIGPROF, SIGPROF); (LINUX_SIGWINCH, SIGWINCH);
  (LINUX_SIGUSR1, SIGUSR1); (LINUX_SIGUSR2, SIGUSR2); (LINUX_SIGSTKFLT, SIGSTOP) ].

Definition signum_linux_to_bsd (signum : Z) : Z := switch signum_l2b_tbl 0 signum.

Definition signum_b2l_tbl : list (Z * Z) := [
  (SIGHUP, LINUX_SIGHUP); (SIGINT, LINUX_SIGINT); (SIGQUIT, LINUX_SIGQUIT); (SIGILL, LINUX_SIGILL);
  (SIGTRAP, LINUX_SIGTRAP); (SIGABRT, LINUX_SIGABRT); (SIGFPE, LINUX_SIGFPE); (SIGKILL, LINUX_SIGKILL);
  (SIGBUS, LINUX_SIGBUS); (SIGSEGV, LINUX_SIGSEGV); (SIGSYS, LINUX_SIGSYS); (SIGPIPE, LINUX_SIGPIPE);
  (SIGALRM, LINUX_SIGALRM); (SIGTERM, LINUX_SIGTERM); (SIGURG, LINUX_SIGURG); (SIGSTOP, LINUX_SIGSTKFLT);
  (SIGTSTP, LINUX_SIGTSTP); (SIGCONT, LINUX_SIGCONT); (SIGCHLD, LINUX_SIGCHLD); (SIGTTIN, LINUX_SIGTTIN);
  (SIGTTOU, LINUX_SIGTTOU); (SIGIO, LINUX_SIGIO); (SIGXCPU, LINUX_SIGXCPU); (SIGXFSZ, LINUX_SIGXFSZ);
  (SIGVTALRM, LINUX_SIGVTALRM); (SIGPROF, LINUX_SIGPROF); (SIGWINCH, LINUX_SIGWINCH);
  (SIGUSR1, LINUX_SIGUSR1); (SIGUSR2, LINUX_SIGUSR2); (SIGINFO, LINUX_SIGPWR) ].

Definition signum_bsd_to_linux (signum : Z) : Z := switch signum_b2l_tbl 0 signum.

(** ** Signal sets: bit [n - 1] stands for signal [n] *)

(** One round of the loop over the 64 bits. *)
Definition sigset_step (signum : Z -> Z) (set acc : Z) (i : nat) : Z :=
  if has set (Z.shiftl 1 (Z.of_nat i)) then
    let num := signum (Z.of_nat i + 1) in
    if num =? 0 then acc else Z.lor acc (Z.shiftl 1 (num - 1))
  else acc.

Definition sigset_linux_to_bsd (linux : Z) : Z := foldl (sigset_step signum_linux_to_bsd linux) 0 (seq 0 64).
Definition sigset_bsd_to_linux (bsd : Z) : Z := foldl (sigset_step signum_bsd_to_linux bsd) 0 (seq 0 64).

(** ** Flags of a disposition *)

Definition sigflags_b2l_tbl : list (Z * Z) := [
  (BSD_SA_NOCLDSTOP, LINUX_SA_NOCLDSTOP); (BSD_SA_NOCLDWAIT, LINUX_SA_NOCLDWAIT);
  (BSD_SA_ONSTACK, LINUX_SA_ONSTACK); (BSD_SA_NODEFER, LINUX_SA_NODEFER);
  (BSD_SA_RESETHAND, LINUX_SA_RESETHAND); (BSD_SA_RESTART, LINUX_SA_RESTART) ].

(** The Linux flags are unsigned constants stored in an [int]. *)
Definition sigflags_bsd_to_linux (flags : Z) : Z := s32 (translate_from LINUX_SA_SIGINFO sigflags_b2l_tbl flags).

Definition sigflags_l2b_tbl : list (Z * Z) := [
  (LINUX_SA_NOCLDSTOP, BSD_SA_NOCLDSTOP); (LINUX_SA_NOCLDWAIT, BSD_SA_NOCLDWAIT);
  (LINUX_SA_ONSTACK, BSD_SA_ONSTACK); (LINUX_SA_NODEFER, BSD_SA_NODEFER);
  (LINUX_SA_RESETHAND, BSD_SA_RESETHAND); (LINUX_SA_RESTART, BSD_SA_RESTART) ].

Definition sigflags_linux_to_bsd (flags : Z) : Z := translate sigflags_l2b_tbl flags.

(** ** sigaction *)

Definition SIG_DFL : Z := 0.
Definition SIG_IGN : Z := 1.
Definition SIG_ERR : Z := -1.

Record bsd_sigaction := BsdSigaction { sa_sigaction : Z; sa_mask : Z; sa_flags : Z }.

(** [struct bsd___sigaction] adds the trampoline. *)
Record bsd___sigaction := Bsd__Sigaction { nsa_action : bsd_sigaction; nsa_tramp : Z }.

(** [sig_handlers[n] = ...; sig_flags[n] = ...; sig_masks[n] = ...;] *)
Definition save_action (n : Z) (a : bsd_sigaction) (g : gstate) : gstate :=
  set_signals (g_sa_tramp g) (zset (g_sig_handlers g) n (sa_sigaction a))
    (zset (g_sig_flags g) n (sa_flags a)) (zset (g_sig_masks g) n (sa_mask a)) g.

Definition set_tramp (t : Z) (g : gstate) : gstate :=
  set_signals t (g_sig_handlers g) (g_sig_flags g) (g_sig_masks g) g.

Definition set_handler (n h : Z) (g : gstate) : gstate :=
  set_signals (g_sa_tramp g) (zset (g_sig_handlers g) n h) (g_sig_flags g) (g_sig_masks g) g.

(** The disposition the library keeps for a Linux signal number. *)
Definition saved_action (n : Z) (g : gstate) : bsd_sigaction :=
  BsdSigaction (zget (g_sig_handlers g) n) (zget (g_sig_masks g) n) (zget (g_sig_flags g) n).

Section Sigaction.
(** Addresses of [handler_linux_to_bsd] and of the assembly routine
    [sig_restorer]. *)
Variable handler_addr restorer_addr : Z.

(** The kernel half of [sys_sigaction], for the signals whose disposition
    the kernel must know. *)
Definition kernel_sigaction (linux_signum : Z) (nsa : bsd___sigaction) : M (Z * bsd_sigaction) :=
  let a := nsa_action nsa in
  modify_state (set_tramp (nsa_tramp nsa));;
  let action :=
    if negb (sa_sigaction a =? SIG_DFL) && negb (sa_sigaction a =? SIG_IGN) && negb (sa_sigaction a =? SIG_ERR)
    then handler_addr else sa_sigaction a in
  let sa := LinuxSigaction action (Z.lor (sigflags_bsd_to_linux (sa_flags a)) LINUX_SA_RESTORER)
              restorer_addr (sigset_bsd_to_linux (sa_mask a)) in
  '(ret, olsa) ← syscall_int_out __NR_rt_sigaction [AInt linux_signum; ASigaction sa; AInt 8] OSigaction;
  g ← get_state;
  mret (ret, BsdSigaction
    (if la_sigaction olsa =? handler_addr then zget (g_sig_handlers g) linux_signum else la_sigaction olsa)
    (sigset_linux_to_bsd (la_mask olsa)) (sigflags_linux_to_bsd (la_flags olsa))).

(** [nsa] is [None] for a null pointer.  The second result is what is stored
    at [osa] when it is not null, [None] when nothing is stored. *)
Definition sys_sigaction (signum : Z) (nsa : option bsd___sigaction) : M (Z * option bsd_sigaction) :=
  let linux_signum := signum_bsd_to_linux signum in
  if linux_signum =? 0 then mret (0, Some (BsdSigaction 0 0 0))
  else
    '(ret, osa) ←
      (match nsa with
       | Some nsa =>
         if (linux_signum =? LINUX_SIGCHLD) || (linux_signum =? LINUX_SIGTTOU)
         then kernel_sigaction linux_signum nsa
         else g ← get_state; mret (0, saved_action linux_signum g)
       | None => g ← get_state; mret (0, saved_action linux_signum g)
       end);
    if ret <? 0 then mret (errno_linux_to_bsd ret, None)
    else
      match nsa with Some nsa => modify_state (save_action linux_signum (nsa_action nsa)) | None => mret tt end;;
      mret (0, Some osa).
End Sigaction.

(** ** Delivery *)

Record linux_gregset := LinuxGregset {
  lg_r8 : Z; lg_r9 : Z; lg_r10 : Z; lg_r11 : Z; lg_r12 : Z; lg_r13 : Z; lg_r14 : Z; lg_r15 : Z;
  lg_rdi : Z; lg_rsi : Z; lg_rbp : Z; lg_rbx : Z; lg_rdx : Z; lg_rax : Z; lg_rcx : Z; lg_rsp : Z;
  lg_rip : Z; lg_efl : Z; lg_cs : Z; lg_gs : Z; lg_fs : Z; lg_err : Z; lg_trapno : Z;
  lg_oldmask : Z; lg_cr2 : Z }.

Record linux_ucontext := LinuxUcontext { luc_stack : linux_stack; luc_gregs : linux_gregset; luc_sigmask : Z }.

Record bsd_exception_state := BsdExceptionState { es_trapno : Z; es_cpu : Z; es_err : Z; es_faultvaddr : Z }.

Record bsd_mcontext := BsdMcontext { bm_es : bsd_exception_state; bm_ss : bsd_thread_state }.

Record bsd_stack := BsdStack { bs_sp : Z; bs_size : Z; bs_flags : Z }.

(** Without the link, which only the outermost context has. *)
Record bsd_ucontext := BsdUcontext {
  bu_onstack : Z; bu_sigmask : Z; bu_stack : bsd_stack; bu_mcontext : bsd_mcontext }.

Definition ucontext_linux_to_bsd (lc : linux_ucontext) : bsd_ucontext :=
  let r := luc_gregs lc in
  BsdUcontext 1 (sigset_linux_to_bsd (luc_sigmask lc))
    (BsdStack (lk_sp (luc_stack lc)) (lk_size (luc_stack lc)) (lk_flags (luc_stack lc)))
    (BsdMcontext (BsdExceptionState (u16 (lg_trapno r)) 0 (u32 (lg_err r)) (u64 (lg_rip r)))
      (BsdThreadState (lg_rax r) (lg_rbx r) (lg_rcx r) (lg_rdx r) (lg_rdi r) (lg_rsi r) (lg_rbp r) (lg_rsp r)
         (lg_r8 r) (lg_r9 r) (lg_r10 r) (lg_r11 r) (lg_r12 r) (lg_r13 r) (lg_r14 r) (lg_r15 r)
         (lg_rip r) (lg_efl r) (lg_cs r) (lg_fs r) (lg_gs r))).

Definition mcontext_bsd_to_linux (bm : bsd_mcontext) (lm : linux_gregset) : linux_gregset :=
  let s := bm_ss bm in
  LinuxGregset (ss_r8 s) (ss_r9 s) (ss_r10 s) (ss_r11 s) (ss_r12 s) (ss_r13 s) (ss_r14 s) (ss_r15 s)
    (ss_rdi s) (ss_rsi s) (ss_rbp s) (ss_rbx s) (ss_rdx s) (ss_rax s) (ss_rcx s) (ss_rsp s)
    (ss_rip s) (ss_rflags s) (s16 (ss_cs s)) (s16 (ss_gs s)) (s16 (ss_fs s))
    (lg_err lm) (lg_trapno lm) (lg_oldmask lm) (lg_cr2 lm).

Definition lsi_pid (i : linux_siginfo) : Z := s32 (lsi_addr i).
Definition lsi_uid (i : linux_siginfo) : Z := s32 (Z.shiftr (lsi_addr i) 32).

Record bsd_siginfo := BsdSiginfo {
  si_signo : Z; si_errno : Z; si_code : Z; si_pid : Z; si_uid : Z; si_status : Z;
  si_addr : Z; si_val_ptr : Z; si_band : Z }.

Definition siginfo_linux_to_bsd (info : linux_siginfo) : bsd_siginfo :=
  BsdSiginfo (signum_linux_to_bsd (lsi_signo info)) (errno_linux_to_bsd (lsi_errno info)) (lsi_code info)
    (u32 (lsi_pid info)) (u32 (lsi_uid info)) 0 (lsi_addr info) (lsi_value info) 0.

Section Delivery.
(** The application's handler at an address: it gets the signal number, the
    information and the context with its link, and leaves a machine context
    behind. *)
Variable call_handler :
  Z -> Z -> option bsd_siginfo -> option (bsd_ucontext * option bsd_ucontext) -> M bsd_mcontext.

Definition default_action (linux_signum : Z) : Z :=
  if (linux_signum =? LINUX_SIGWINCH) || (linux_signum =? LINUX_SIGCHLD) || (linux_signum =? LINUX_SIGURG)
  then SIG_IGN else SIG_DFL.

(** [ctxt] is the context of the interrupted code and its [uc_link].  The
    result is the register set that is restored when the handler returns. *)
Definition handler_linux_to_bsd (linux_signum : Z) (info : option linux_siginfo)
    (ctxt : option (linux_ucontext * option linux_ucontext)) : M (option linux_gregset) :=
  let bsd_signum := signum_linux_to_bsd linux_signum in
  let binfo := option_map siginfo_linux_to_bsd info in
  let bc := option_map (λ c, (ucontext_linux_to_bsd c.1, option_map ucontext_linux_to_bsd c.2)) ctxt in
  g ← get_state;
  let handler := zget (g_sig_handlers g) linux_signum in
  (if has (zget (g_sig_flags g) linux_signum) LINUX_SA_RESETHAND
   then modify_state (set_handler linux_signum (default_action linux_signum)) else mret tt);;
  bm ← call_handler handler bsd_signum binfo bc;
  mret (option_map (λ c, mcontext_bsd_to_linux bm (luc_gregs c.1)) ctxt).
End Delivery.

(** ** The other system calls *)

Definition spchow_bsd_to_linux (how : Z) : Z := how - 1.

(** The result and the set stored at [oldset], if any. *)
Definition sys_sigprocmask (how : Z) (set : option Z) : M (Z * option Z) :=
  let linux_how := spchow_bsd_to_linux how in
  '(ret, out) ← syscall_int_out __NR_rt_sigprocmask
    [AInt linux_how; match set with Some s => ASigset (sigset_bsd_to_linux s) | None => ANull end; AInt 8] OSigset;
  if ret <? 0 then mret (errno_linux_to_bsd ret, None) else mret (ret, Some (sigset_linux_to_bsd out)).

Definition sys_kill (pid signum posix : Z) : M Z :=
  let linux_signum := signum_bsd_to_linux signum in
  if negb (signum =? 0) && (linux_signum =? 0) then mret (- EINVAL)
  else ret ← syscall_int __NR_kill [AInt pid; AInt linux_signum]; mret (bsd_ret ret).

Definition sys_sigsuspend_nocancel (set : Z) : M Z :=
  ret ← syscall_int __NR_rt_sigsuspend [ASigset (sigset_bsd_to_linux set); AInt 8]; mret (bsd_ret ret).

Definition sys_sigsuspend (set : Z) : M Z := CANCELATION_POINT (λ e, e) (sys_sigsuspend_nocancel set).

Definition sys_sigaltstack (ss : option bsd_stack) : M (Z * option bsd_stack) :=
  '(ret, loss) ← syscall_int_out __NR_sigaltstack
    [match ss with Some s => AStack (LinuxStack (bs_sp s) (bs_flags s) (bs_size s)) | None => ANull end] OStack;
  if ret <? 0 then mret (errno_linux_to_bsd ret, None)
  else mret (0, Some (BsdStack (lk_sp loss) (lk_size loss) (lk_flags loss))).

(** The set is passed by value: what the kernel writes is not seen by the
    caller. *)
Definition sys_sigpending (set : Z) : M Z :=
  '(ret, _) ← syscall_int_out __NR_rt_sigpending [ASigset (sigset_bsd_to_linux set); AInt 8] OSigset;
  mret (bsd_ret ret).

(** The result and the number stored at [sig]. *)
Definition sys_sigwait_nocancel (set : Z) : M (Z * option Z) :=
  '(ret, signo) ← syscall_int_out __NR_rt_sigtimedwait [ASigset (sigset_bsd_to_linux set); ANull; AInt 8] OInt;
  if ret <? 0 then mret (errno_linux_to_bsd ret, None) else mret (ret, Some (signum_linux_to_bsd signo)).

Definition sys_sigwait (set : Z) : M (Z * option Z) :=
  CANCELATION_POINT (λ e, (e, None)) (sys_sigwait_nocancel set).

(** ** Signal numbers: theorems *)

(** Darwin signals that exist on Linux and come back as themselves. *)
Definition supported (b : Z) : bool := negb (signum_bsd_to_linux b =? 0) && negb (b =? SIGINFO).

Lemma signum_b2l_range b : 0 <= signum_bsd_to_linux b <= 31.
Proof.
  pose proof (switch_forall (λ _ y, (0 <=? y) && (y <=? 31)) signum_b2l_tbl 0 b eq_refl eq_refl) as H.
  unfold signum_bsd_to_linux. cbv beta in H. lia.
Qed.

Lemma signum_l2b_range l : 0 <= signum_linux_to_bsd l <= 31.
Proof.
  pose proof (switch_forall (λ _ y, (0 <=? y) && (y <=? 31)) signum_l2b_tbl 0 l eq_refl eq_refl) as H.
  unfold signum_linux_to_bsd. cbv beta in H. lia.
Qed.

(** What a Darwin number becomes on the way there and back. *)
Lemma signum_back b :
  signum_bsd_to_linux b ≠ 0 ->
  signum_linux_to_bsd (signum_bsd_to_linux b) = if b =? SIGINFO then 0 else b.
Proof.
  intros Hne.
  pose proof (switch_forall (λ x y, (y =? 0) || (signum_linux_to_bsd y =? (if x =? SIGINFO then 0 else x)))
    signum_b2l_tbl 0 b eq_refl eq_refl) as H. fold (signum_bsd_to_linux b) in H. cbv beta in H. lia.
Qed.

Lemma signum_there l :
  signum_linux_to_bsd l ≠ 0 -> l ≠ LINUX_SIGSTOP -> signum_bsd_to_linux (signum_linux_to_bsd l) = l.
Proof.
  intros Hne Hstop.
  pose proof (switch_forall (λ x y, (y =? 0) || (x =? LINUX_SIGSTOP) || (signum_bsd_to_linux y =? x))
    signum_l2b_tbl 0 l eq_refl eq_refl) as H. fold (signum_linux_to_bsd l) in H. cbv beta in H. lia.
Qed.

(** Signal numbers.  Every Darwin signal the translation knows, except
    SIGINFO, and every Linux signal except the real SIGSTOP, which is replaced
    by SIGSTKFLT, survive a round trip; numbers stay within 0..31, the bounds
    of the disposition arrays. *)
Theorem signum_round_trip :
  (∀ b, supported b = true -> signum_linux_to_bsd (signum_bsd_to_linux b) = b) ∧
  (∀ l, signum_linux_to_bsd l ≠ 0 -> l ≠ LINUX_SIGSTOP -> signum_bsd_to_linux (signum_linux_to_bsd l) = l) ∧
  signum_linux_to_bsd (signum_bsd_to_linux SIGINFO) = 0 ∧
  signum_bsd_to_linux (signum_linux_to_bsd LINUX_SIGSTOP) = LINUX_SIGSTKFLT ∧
  ∀ n, 0 <= signum_bsd_to_linux n <= 31 ∧ 0 <= signum_linux_to_bsd n <= 31.
Proof.
  split; [|split; [exact signum_there|]].
  - intros b Hb. unfold supported in Hb. rewrite signum_back by lia. destruct (Z.eqb_spec b SIGINFO); [|done]. lia.
  - split; [done|]. split; [done|]. intros n. split; [apply signum_b2l_range|apply signum_l2b_range].
Qed.

(** ** Signal sets: theorems *)

Definition sig_in (n set : Z) : bool := Z.testbit set (n - 1).

Lemma testbit_one_shift a b : 0 <= a -> Z.testbit (Z.shiftl 1 a) b = (a =? b).
Proof. intros Ha. rewrite Z.shiftl_1_l. by apply Z.pow2_bits_eqb. Qed.

(** Membership after the loop over the first [k] bits. *)
Lemma sigset_fold_spec signum set k n :
  (∀ i, 0 <= signum i) -> 1 <= n ->
  sig_in n (foldl (sigset_step signum set) 0 (seq 0 k)) = true <->
  ∃ m, 1 <= m <= Z.of_nat k ∧ sig_in m set = true ∧ signum m = n.
Proof.
  intros Hpos Hn. unfold sig_in. induction k as [|k IH].
  { simpl. rewrite Z.testbit_0_l. split; [done|]. intros (m & ? & _). lia. }
  rewrite seq_S, foldl_app. cbn [foldl Nat.add]. unfold sigset_step at 1. rewrite Z.shiftl_1_l, has_pow2 by lia.
  destruct (Z.testbit set (Z.of_nat k)) eqn:Ek; [destruct (Z.eqb_spec (signum (Z.of_nat k + 1)) 0) as [Hz|Hz]|].
  - rewrite IH. split; intros (m & Hm & Hs & Hsig).
    + exists m. split; [lia|done].
    + exists m. split; [|done]. destruct (decide (m = Z.of_nat k + 1)) as [->|]; lia.
  - pose proof (Hpos (Z.of_nat k + 1)). rewrite Z.lor_spec, testbit_one_shift, orb_true_iff, IH by lia. split.
    + intros [(m & ? & ? & ?)|Heq]; [exists m; split; [lia|done]|]. exists (Z.of_nat k + 1). split; [lia|].
      split; [by replace (Z.of_nat k + 1 - 1) with (Z.of_nat k) by lia|lia].
    + intros (m & Hm & Hs & Hsig). destruct (decide (m = Z.of_nat k + 1)) as [->|]; [right; lia|left].
      exists m. split; [lia|done].
  - rewrite IH. split; intros (m & Hm & Hs & Hsig); exists m; (split; [|done]); [lia|].
    destruct (decide (m = Z.of_nat k + 1)) as [->|]; [|lia].
    replace (Z.of_nat k + 1 - 1) with (Z.of_nat k) in Hs by lia. congruence.
Qed.

Lemma sigset_b2l_spec set l :
  1 <= l -> sig_in l (sigset_bsd_to_linux set) = true <->
  ∃ b, 1 <= b <= 64 ∧ sig_in b set = true ∧ signum_bsd_to_linux b = l.
Proof.
  intros ?. unfold sigset_bsd_to_linux. change 64 with (Z.of_nat 64).
  apply sigset_fold_spec; [|done]. intros i. apply signum_b2l_range.
Qed.

Lemma sigset_l2b_spec set b :
  1 <= b -> sig_in b (sigset_linux_to_bsd set) = true <->
  ∃ l, 1 <= l <= 64 ∧ sig_in l set = true ∧ signum_linux_to_bsd l = b.
Proof.
  intros ?. unfold sigset_linux_to_bsd. change 64 with (Z.of_nat 64).
  apply sigset_fold_spec; [|done]. intros i. apply signum_l2b_range.
Qed.

(** Signal sets are translated member by member: a signal is in the
    translated set exactly when some signal of the original set translates to
    it; sets of known Darwin signals survive the round trip bit by bit. *)
Theorem sigset_members set :
  (∀ l, 1 <= l -> sig_in l (sigset_bsd_to_linux set) = true <->
     ∃ b, 1 <= b <= 64 ∧ sig_in b set = true ∧ signum_bsd_to_linux b = l) ∧
  (∀ b, 1 <= b -> sig_in b (sigset_linux_to_bsd set) = true <->
     ∃ l, 1 <= l <= 64 ∧ sig_in l set = true ∧ signum_linux_to_bsd l = b) ∧
  (∀ b, 1 <= b <= 32 -> sig_in b (sigset_linux_to_bsd (sigset_bsd_to_linux set)) = supported b && sig_in b set).
Proof.
  split; [exact (sigset_b2l_spec set)|]. split; [exact (sigset_l2b_spec set)|].
  intros b Hrange. apply eq_true_iff_eq. rewrite sigset_l2b_spec, andb_true_iff by lia. unfold supported. split.
  - intros (l & Hl1 & Hin & Hlb). apply sigset_b2l_spec in Hin as (b' & Hb' & Hin & Hbl); [|lia].
    assert (signum_bsd_to_linux b' ≠ 0) as Hne by lia. pose proof (signum_back b' Hne) as Hback. rewrite Hbl, Hlb in Hback.
    destruct (Z.eqb_spec b' SIGINFO); [lia|]. subst b'. split; [lia|done].
  - intros [Hs Hin]. exists (signum_bsd_to_linux b). pose proof (signum_b2l_range b). split; [lia|]. split.
    + apply sigset_b2l_spec; [lia|]. exists b. split; [lia|]. done.
    + rewrite signum_back by lia. destruct (Z.eqb_spec b SIGINFO); [lia|done].
Qed.

(** ** Dispositions: theorems *)

Definition signals_wf (g : gstate) : Prop :=
  length (g_sig_handlers g) = 32%nat ∧ length (g_sig_flags g) = 32%nat ∧ length (g_sig_masks g) = 32%nat.

(** No request to the outside at all. *)
Definition no_host : protocol := Protocol (λ _ _, False) (λ _ _ _, True) False.

Lemma saved_save_eq n a g :
  signals_wf g -> 0 <= n < 32 -> saved_action n (save_action n a g) = a.
Proof. intros (? & ? & ?) Hn. unfold saved_action. simpl. rewrite !zget_set_eq by lia. by destruct a. Qed.

Lemma saved_save_ne n n' a g :
  0 <= n -> 0 <= n' -> n ≠ n' -> saved_action n' (save_action n a g) = saved_action n' g.
Proof. intros ???. unfold saved_action. simpl. by rewrite !zget_set_ne. Qed.

Lemma save_wf n a g : signals_wf g -> signals_wf (save_action n a g).
Proof. intros (? & ? & ?). unfold signals_wf. simpl. by rewrite !zset_length. Qed.

#[export] Hint Resolve save_wf : darling.

Section SigactionProofs.
Context (ha ra : Z).

(** The dispositions kept for all signals are the same. *)
Definition same_actions (g g' : gstate) : Prop := ∀ n, saved_action n g' = saved_action n g.

(** The kernel is asked about this Linux signal, too. *)
Definition kernel_signal (n : Z) : bool := (n =? LINUX_SIGCHLD) || (n =? LINUX_SIGTTOU).

(** After a change of signal [n] for which the kernel would answer [ret]:
    stored and nothing else, or refused. *)
Definition set_post (ret n : Z) (a : bsd_sigaction) (g : gstate) (r : Z * option bsd_sigaction) (g' : gstate) : Prop :=
  signals_wf g' ∧
  if kernel_signal n && (ret <? 0) then r = (errno_linux_to_bsd ret, None) ∧ same_actions g g'
  else r.1 = 0 ∧ saved_action n g' = a ∧ ∀ n', 0 <= n' -> n' ≠ n -> saved_action n' g' = saved_action n' g.

Lemma set_post_saved ret n a g0 g osa :
  signals_wf g0 -> 0 <= n < 32 -> same_actions g g0 -> kernel_signal n && (ret <? 0) = false ->
  set_post ret n a g (0, osa) (save_action n a g0).
Proof.
  intros Hwf Hn Hsame Hk. split; [by apply save_wf|]. rewrite Hk. split; [done|]. split; [by apply saved_save_eq|].
  intros n' ??. rewrite saved_save_ne by lia. apply Hsame.
Qed.

(** rt_sigaction(2) answers [ret], whatever the previous disposition was. *)
Definition sigaction_host (ret : Z) : protocol := Protocol (λ _ _, True)
  (λ X e, match e in linuxE X return X -> Prop with
          | SysOut _ _ o => match o in outk Y return Z * Y -> Prop with OSigaction => λ r, r.1 = ret | _ => λ _, True end
          | _ => λ _, True
          end) False.

Lemma sigaction_set ret signum nsa g :
  signals_wf g -> signum_bsd_to_linux signum ≠ 0 -> INT_MIN <= ret <= INT_MAX ->
  wp (sigaction_host ret) (sys_sigaction ha ra signum (Some nsa)) g
    (set_post ret (signum_bsd_to_linux signum) (nsa_action nsa) g).
Proof.
  intros Hwf Hne Hret. unfold sys_sigaction. pose proof (signum_b2l_range signum).
  destruct (Z.eqb_spec (signum_bsd_to_linux signum) 0); [done|]. wp_step.
  fold (kernel_signal (signum_bsd_to_linux signum)).
  destruct (kernel_signal (signum_bsd_to_linux signum)) eqn:E.
  - unfold kernel_sigaction. wp_step. wp_step. wp_step. apply wp_syscall_int_out; [done|].
    intros r olsa Hr. cbn in Hr. subst r. rewrite s32_id by done. wp_step. wp_step. wp_step. destruct (Z.ltb_spec ret 0) as [Hlt|Hge].
    + wp_step. split; [done|]. rewrite E. by destruct (Z.ltb_spec ret 0); [|lia].
    + wp_step. wp_step. wp_step. apply set_post_saved; [done|lia|done|]. rewrite E. cbn [andb]. lia.
  - wp_step. wp_step. wp_step. simpl. wp_step. wp_step. wp_step. apply set_post_saved; [done|lia|done|]. by rewrite E.
Qed.

Lemma sigaction_get Ψ signum g :
  signum_bsd_to_linux signum ≠ 0 ->
  wp Ψ (sys_sigaction ha ra signum None) g
    (λ r g', g' = g ∧ r = (0, Some (saved_action (signum_bsd_to_linux signum) g))).
Proof.
  intros Hne. unfold sys_sigaction. destruct (Z.eqb_spec (signum_bsd_to_linux signum) 0); [done|].
  wp_step. wp_step. wp_step. wp_step. simpl. wp_step. wp_step. wp_step. done.
Qed.

(** C15: for a signal that has a Linux number (not SIGEMT and the
    numbers out of range, for which the call only pretends success),
    setting a disposition and reading it back gives exactly the handler, mask
    and flags that were set; only for SIGCHLD and SIGTTOU can the kernel
    refuse the change, and then its error is returned and the disposition
    read back is the previous one.  The library's arrays are only indexed
    inside their 32 elements. *)
Theorem sigaction_set_get ret signum nsa g :
  signals_wf g -> signum_bsd_to_linux signum ≠ 0 -> INT_MIN <= ret <= INT_MAX ->
  wp (sigaction_host ret)
    (r ← sys_sigaction ha ra signum (Some nsa); '(_, osa) ← sys_sigaction ha ra signum None; mret (r.1, osa)) g
    (λ r g', signals_wf g' ∧
      r = if kernel_signal (signum_bsd_to_linux signum) && (ret <? 0)
          then (errno_linux_to_bsd ret, Some (saved_action (signum_bsd_to_linux signum) g))
          else (0, Some (nsa_action nsa))).
Proof.
  intros Hwf Hne Hret. wp_step. eapply wp_mono; [by apply sigaction_set|]. intros [r1 osa] g' (Hwf' & Hres).
  wp_step. eapply wp_mono; [by apply sigaction_get|]. intros [r2 osa2] g'' [-> [= -> ->]]. wp_step. split; [done|].
  destruct (_ && _).
  - destruct Hres as [[= -> ->] Hsame]. simpl. do 2 f_equal. apply Hsame.
  - destruct Hres as (-> & -> & _). done.
Qed.

(** Signals are independent.  Changing the disposition of one signal
    leaves the disposition of every other signal alone, and for all signals
    but SIGCHLD and SIGTTOU succeeds without any request to the kernel. *)
Theorem sigaction_independent signum nsa g :
  signals_wf g -> signum_bsd_to_linux signum ≠ 0 -> signum ≠ SIGCHLD -> signum ≠ SIGTTOU ->
  wp no_host (sys_sigaction ha ra signum (Some nsa)) g
    (λ r g', r = (0, Some (saved_action (signum_bsd_to_linux signum) g)) ∧
      ∀ other, signum_bsd_to_linux other ≠ signum_bsd_to_linux signum ->
        saved_action (signum_bsd_to_linux other) g' = saved_action (signum_bsd_to_linux other) g).
Proof.
  intros Hwf Hne Hchld Httou. unfold sys_sigaction. pose proof (signum_back signum Hne) as Hback.
  assert ((signum_bsd_to_linux signum =? LINUX_SIGCHLD) || (signum_bsd_to_linux signum =? LINUX_SIGTTOU) = false) as ->.
  { apply orb_false_iff. split; apply Z.eqb_neq; intros Heq; rewrite Heq in Hback;
      destruct (Z.eqb_spec signum SIGINFO) as [->|]; vm_compute in Hback; try done; congruence. }
  destruct (Z.eqb_spec (signum_bsd_to_linux signum) 0); [done|].
  wp_step. wp_step. wp_step. wp_step. simpl. wp_step. wp_step. wp_step. split; [done|]. intros other Hother.
  apply saved_save_ne; [apply signum_b2l_range..|done].
Qed.
End SigactionProofs.

Definition example_action : bsd___sigaction :=
  Bsd__Sigaction (BsdSigaction 0x1000 (Z.shiftl 1 (SIGINT - 1)) BSD_SA_RESTART) 0x2000.

Lemma init_signals_wf : signals_wf init_gstate.
Proof. by vm_compute. Qed.

Lemma sigaction_set_get_witness :
  wp (sigaction_host 0)
    (r ← sys_sigaction 16 32 SIGCHLD (Some example_action); '(_, osa) ← sys_sigaction 16 32 SIGCHLD None; mret (r.1, osa))
    init_gstate (λ r g', signals_wf g' ∧ r = (0, Some (nsa_action example_action))).
Proof.
  apply (sigaction_set_get 16 32 0 SIGCHLD example_action init_gstate init_signals_wf); by vm_compute.
Defined.

Lemma sigaction_independent_witness :
  wp no_host (sys_sigaction 16 32 SIGUSR1 (Some example_action)) init_gstate
    (λ r g', r = (0, Some (BsdSigaction SIG_DFL 0 0)) ∧
      ∀ other, signum_bsd_to_linux other ≠ signum_bsd_to_linux SIGUSR1 ->
        saved_action (signum_bsd_to_linux other) g' = saved_action (signum_bsd_to_linux other) init_gstate).
Proof.
  apply (sigaction_independent 16 32 SIGUSR1 example_action init_gstate init_signals_wf); by vm_compute.
Defined.

(** ** Delivery: theorems *)

Definition shorts_ok (r : linux_gregset) : Prop :=
  (-32768 <= lg_cs r < 32768) ∧ (-32768 <= lg_gs r < 32768) ∧ (-32768 <= lg_fs r < 32768).

Lemma s16_id z : -32768 <= z < 32768 -> s16 z = z.
Proof. intros ?. unfold s16. rewrite Z.mod_small; lia. Qed.

Lemma mcontext_round_trip lc :
  shorts_ok (luc_gregs lc) ->
  mcontext_bsd_to_linux (bu_mcontext (ucontext_linux_to_bsd lc)) (luc_gregs lc) = luc_gregs lc.
Proof.
  destruct lc as [stack [] mask]. unfold shorts_ok, mcontext_bsd_to_linux. cbn. intros (? & ? & ?). by rewrite !s16_id.
Qed.

(** A signal is delivered to the handler that was installed, under its
    Darwin number, with the context of the interrupted code; if the handler
    leaves the machine context alone, every register of the interrupted code
    is restored unchanged. *)
Theorem handler_restores_registers call_handler signum info lc link g :
  shorts_ok (luc_gregs lc) -> signum_bsd_to_linux signum ≠ 0 -> signum ≠ SIGINFO ->
  (∀ i c g0, call_handler (sa_sigaction (saved_action (signum_bsd_to_linux signum) g)) signum i (Some c) g0 =
             Ret (bu_mcontext c.1, g0)) ->
  wp no_host (handler_linux_to_bsd call_handler (signum_bsd_to_linux signum) info (Some (lc, link))) g
    (λ r g', r = Some (luc_gregs lc)).
Proof.
  intros Hs Hne Hinfo Hcall. pose proof (signum_back signum Hne) as Hback. unfold handler_linux_to_bsd.
  rewrite (proj2 (Z.eqb_neq _ _) Hinfo) in Hback. rewrite Hback. wp_step. wp_step. wp_step.
  assert (∀ g0, wp no_host (bm ← call_handler (zget (g_sig_handlers g) (signum_bsd_to_linux signum)) signum
      (option_map siginfo_linux_to_bsd info)
      (option_map (λ c, (ucontext_linux_to_bsd c.1, option_map ucontext_linux_to_bsd c.2)) (Some (lc, link)));
      mret (option_map (λ c : linux_ucontext * option linux_ucontext, mcontext_bsd_to_linux bm (luc_gregs c.1)) (Some (lc, link)))) g0
      (λ r _, r = Some (luc_gregs lc))) as Hrun.
  { intros g0. wp_step. unfold wp at 1. simpl in Hcall. cbn [option_map]. rewrite Hcall. cbn [wp_prog fst snd]. wp_step.
    f_equal. by apply mcontext_round_trip. }
  destruct (has _ _); wp_step; apply Hrun.
Qed.

Definition zero_mcontext : bsd_mcontext :=
  BsdMcontext (BsdExceptionState 0 0 0 0) (BsdThreadState 0 0 0 0 0 0 0 0 0 0 0 0 0 0 0 0 0 0 0 0 0).

Lemma handler_restores_registers_witness :
  wp no_host
    (handler_linux_to_bsd (λ _ _ _ c, mret (match c with Some c => bu_mcontext c.1
       | None => zero_mcontext end))
       LINUX_SIGUSR1 None
       (Some (LinuxUcontext (LinuxStack 0 0 0)
          (LinuxGregset 8 9 10 11 12 13 14 15 16 17 18 19 20 21 22 23 24 25 51 0 0 4 5 6 7) 0, None))) init_gstate
    (λ r _, r = Some (LinuxGregset 8 9 10 11 12 13 14 15 16 17 18 19 20 21 22 23 24 25 51 0 0 4 5 6 7)).
Proof.
  apply (handler_restores_registers _ SIGUSR1); [by vm_compute|by vm_compute|by vm_compute|done].
Defined.

(** SA_RESETHAND is not honoured.  The flags kept for a signal are Darwin
    flags, but delivery tests them for the Linux constant, which no
    non-negative Darwin flag word contains: the handler stays installed. *)
Theorem resethand_ignored call_handler bm n info ctxt g :
  0 <= zget (g_sig_flags g) n < 2 ^ 31 ->
  (∀ h s i c g0, call_handler h s i c g0 = Ret (bm, g0)) ->
  wp no_host (handler_linux_to_bsd call_handler n info ctxt) g (λ _ g', g' = g).
Proof.
  intros Hf Hcall. unfold handler_linux_to_bsd. wp_step. wp_step. wp_step.
  change LINUX_SA_RESETHAND with (2 ^ 31). rewrite has_pow2 by lia.
  assert (Z.testbit (zget (g_sig_flags g) n) 31 = false) as ->.
  { destruct (decide (zget (g_sig_flags g) n = 0)) as [->|]; [done|].
    apply Z.bits_above_log2; [lia|]. apply Z.log2_lt_pow2; lia. }
  wp_step. wp_step. unfold wp at 1. by rewrite Hcall.
Qed.

Lemma resethand_ignored_witness :
  wp no_host (handler_linux_to_bsd (λ _ _ _ _, mret zero_mcontext) LINUX_SIGUSR1 None None)
    (save_action LINUX_SIGUSR1 (BsdSigaction 0x1000 0 BSD_SA_RESETHAND) init_gstate)
    (λ _ g', saved_action LINUX_SIGUSR1 g' = BsdSigaction 0x1000 0 BSD_SA_RESETHAND).
Proof.
  eapply wp_mono; [apply (resethand_ignored _ zero_mcontext LINUX_SIGUSR1 None None); [by vm_compute|done]|].
  intros _ g' ->. reflexivity.
Defined.

(** ** The other calls: theorems *)

(** Kill(2) never reaches the kernel with a signal it does not know, asks
    for exactly the translated signal otherwise (0 stays the existence test),
    and reports errors under Darwin numbers. *)
Theorem kill_functional pid signum posix g :
  wp (Protocol (λ X e, match e with Sys nr args =>
         nr = __NR_kill ∧ args = [AInt pid; AInt (signum_bsd_to_linux signum)] ∧ (signum = 0 ∨ signum_bsd_to_linux signum ≠ 0)
       | _ => False end)
      (λ X e, match e in linuxE X return X -> Prop with Sys _ _ => λ r, -4095 <= r <= 0 | _ => λ _, True end) False)
    (sys_kill pid signum posix) g
    (λ r g', g' = g ∧ -4095 <= r <= 0 ∧ (signum ≠ 0 -> signum_bsd_to_linux signum = 0 -> r = - EINVAL)).
Proof.
  unfold sys_kill. destruct (_ && _) eqn:E.
  - wp_step. split; [done|]. done.
  - wp_step. apply wp_syscall_int.
    + split; [done|]. split; [done|]. lia.
    + intros r Hr. wp_step. split; [done|]. split; [by apply bsd_ret_range|lia].
Qed.
