(* ===== verification/Fcntl.v ===== *)
(** * fcntl/: descriptor flags, open flags and record locks

    fcntl.c, and the flag translations of open.c. *)
From S2P Require Import Prelude Abi Linux Errno Base Simple Vchroot.

Definition LINUX_O_PATH : Z := 0x200000.
Definition MAXPATHLEN : Z := 1024.

(** ** Open flags *)

Definition oflags_b2l_tbl : list (Z * Z) := [
  (BSD_O_RDONLY, LINUX_O_RDONLY); (BSD_O_WRONLY, LINUX_O_WRONLY); (BSD_O_RDWR, LINUX_O_RDWR);
  (BSD_O_NONBLOCK, LINUX_O_NONBLOCK); (BSD_O_APPEND, LINUX_O_APPEND); (BSD_O_CREAT, LINUX_O_CREAT);
  (BSD_O_TRUNC, LINUX_O_TRUNC); (BSD_O_EXCL, LINUX_O_EXCL); (BSD_O_CLOEXEC, LINUX_O_CLOEXEC);
  (Z.lor BSD_O_NOFOLLOW BSD_O_SYMLINK, LINUX_O_NOFOLLOW); (BSD_O_DIRECTORY, LINUX_O_DIRECTORY);
  (BSD_O_CLOEXEC, LINUX_O_CLOEXEC); (BSD_O_NOCTTY, LINUX_O_NOCTTY); (BSD_O_SYMLINK, LINUX_O_PATH) ].

Definition oflags_bsd_to_linux (flags : Z) : Z := translate oflags_b2l_tbl flags.

Definition oflags_l2b_tbl : list (Z * Z) := [
  (LINUX_O_RDONLY, BSD_O_RDONLY); (LINUX_O_WRONLY, BSD_O_WRONLY); (LINUX_O_RDWR, BSD_O_RDWR);
  (LINUX_O_NONBLOCK, BSD_O_NONBLOCK); (LINUX_O_APPEND, BSD_O_APPEND); (LINUX_O_CREAT, BSD_O_CREAT);
  (LINUX_O_TRUNC, BSD_O_TRUNC); (LINUX_O_EXCL, BSD_O_EXCL); (LINUX_O_CLOEXEC, BSD_O_CLOEXEC);
  (LINUX_O_NOFOLLOW, BSD_O_NOFOLLOW); (LINUX_O_DIRECTORY, BSD_O_DIRECTORY);
  (LINUX_O_CLOEXEC, BSD_O_CLOEXEC); (LINUX_O_NOCTTY, BSD_O_NOCTTY) ].

Definition oflags_linux_to_bsd (flags : Z) : Z := translate oflags_l2b_tbl flags.

(** ** Locks and commands *)

Definition flock_type_linux_to_bsd (linux : Z) : Z :=
  switch [(LINUX_F_RDLCK, F_RDLCK); (LINUX_F_WRLCK, F_WRLCK); (LINUX_F_UNLCK, F_UNLCK)] (-1) linux.

Definition flock_type_bsd_to_linux (bsd : Z) : Z :=
  switch [(F_RDLCK, LINUX_F_RDLCK); (F_WRLCK, LINUX_F_WRLCK); (F_UNLCK, LINUX_F_UNLCK)] (-1) bsd.

Definition cmd_tbl : list (Z * Z) := [
  (F_DUPFD, LINUX_F_DUPFD); (F_GETFD, LINUX_F_GETFD); (F_SETFD, LINUX_F_SETFD); (F_GETFL, LINUX_F_GETFL);
  (F_SETFL, LINUX_F_SETFL); (F_GETOWN, LINUX_F_GETOWN); (F_SETOWN, LINUX_F_SETOWN); (F_SETLK, LINUX_F_SETLK);
  (F_SETLKW, LINUX_F_SETLKW); (F_GETLK, LINUX_F_GETLK); (F_DUPFD_CLOEXEC, LINUX_F_DUPFD_CLOEXEC) ].

Definition cmd_bsd_to_linux (bsd : Z) : Z := switch cmd_tbl (-1) bsd.

Record bsd_flock := BsdFlock { l_start : Z; l_len : Z; l_pid : Z; l_type : Z; l_whence : Z }.

Definition flock_bsd_to_linux (b : bsd_flock) : linux_flock :=
  LinuxFlock (flock_type_bsd_to_linux (l_type b)) (l_whence b) (l_start b) (l_len b) (l_pid b).

Definition flock_linux_to_bsd (l : linux_flock) : bsd_flock :=
  BsdFlock (ll_start l) (ll_len l) (ll_pid l) (flock_type_linux_to_bsd (ll_type l)) (ll_whence l).

(** The third argument of fcntl: a number, a pointer to a lock, or a pointer
    to a path buffer of [MAXPATHLEN] bytes. *)
Inductive fcntl_arg := FInt (arg : Z) | FLock (l : bsd_flock) | FBuf.

(** What is stored through the argument. *)
Inductive fcntl_out := ONothing | OLock (l : bsd_flock) | OPath (p : cstr).

Definition is_lock_cmd (cmd : Z) : bool := (cmd =? F_SETLK) || (cmd =? F_SETLKW) || (cmd =? F_GETLK).

Section Fcntl.
Context `{LoopFuel, IcaseEnabled}.

(** The tail of [sys_fcntl_nocancel]: the system call with a number. *)
Definition fcntl_int (fd cmd arg : Z) : M (Z * fcntl_out) :=
  ret ← syscall_int __NR_fcntl [AInt fd; AInt (cmd_bsd_to_linux cmd); AInt arg];
  if ret <? 0 then mret (errno_linux_to_bsd ret, ONothing)
  else mret (if cmd =? F_GETFL then oflags_linux_to_bsd ret else ret, ONothing).

(** The same with a lock, which is translated back afterwards. *)
Definition fcntl_lock (fd cmd : Z) (l : bsd_flock) : M (Z * fcntl_out) :=
  '(ret, ll) ← syscall_int_out __NR_fcntl
    [AInt fd; AInt (cmd_bsd_to_linux cmd); AFlock (flock_bsd_to_linux l)] OFlock;
  if ret <? 0 then mret (errno_linux_to_bsd ret, ONothing) else mret (ret, OLock (flock_linux_to_bsd ll)).

(** An argument of the wrong kind is a wild pointer. *)
Definition sys_fcntl_nocancel (fd cmd : Z) (arg : fcntl_arg) : M (Z * fcntl_out) :=
  if cmd =? F_CHECK_LV then mret (0, ONothing)
  else if cmd =? F_SETFD then
    match arg with
    | FInt a => if has a (Z.lnot FD_CLOEXEC) then mret (- EINVAL, ONothing) else fcntl_int fd cmd a
    | _ => undefined
    end
  else if cmd =? F_SETFL then
    match arg with FInt a => fcntl_int fd cmd (oflags_bsd_to_linux (s32 a)) | _ => undefined end
  else if cmd =? F_GETPATH then
    match arg with
    | FBuf =>
      '(ret, path) ← fdpath fd MAXPATHLEN;
      if ret <? 0 then mret (errno_linux_to_bsd ret, ONothing)
      else mret (0, match path with Some p => OPath p | None => ONothing end)
    | _ => undefined
    end
  else if is_lock_cmd cmd then
    match arg with FLock l => fcntl_lock fd cmd l | _ => undefined end
  else if cmd =? F_FULLFSYNC then
    ret ← syscall_int __NR_fsync [AInt fd]; mret (0, ONothing)
  else if cmd_bsd_to_linux cmd =? -1 then mret (- EINVAL, ONothing)
  else match arg with FInt a => fcntl_int fd cmd a | _ => undefined end.

Definition sys_fcntl (fd cmd : Z) (arg : fcntl_arg) : M (Z * fcntl_out) :=
  CANCELATION_POINT (λ e, (e, ONothing)) (sys_fcntl_nocancel fd cmd arg).
End Fcntl.

(** ** Theorems *)

(** The flags both sides have. *)
Definition oflags_common : Z :=
  or_all [BSD_O_WRONLY; BSD_O_RDWR; BSD_O_NONBLOCK; BSD_O_APPEND; BSD_O_CREAT; BSD_O_TRUNC; BSD_O_EXCL;
          BSD_O_CLOEXEC; BSD_O_DIRECTORY; BSD_O_NOCTTY].

(** Open flags.  Translating to Linux and back keeps every flag both
    systems have; O_SYMLINK comes back as O_NOFOLLOW, flags without a Linux
    equivalent are dropped; the other direction keeps every Linux flag of the
    table. *)
Theorem oflags_round_trip flags :
  oflags_linux_to_bsd (oflags_bsd_to_linux flags) =
    Z.lor (Z.land flags oflags_common)
          (if has flags (Z.lor BSD_O_NOFOLLOW BSD_O_SYMLINK) then BSD_O_NOFOLLOW else 0) ∧
  oflags_bsd_to_linux (oflags_linux_to_bsd flags) = Z.land flags (or_all (oflags_l2b_tbl.*1)).
Proof.
  unfold oflags_linux_to_bsd, oflags_bsd_to_linux. split.
  - rewrite translate_compose by done. set (l := [BSD_O_WRONLY; BSD_O_RDWR; BSD_O_NONBLOCK; BSD_O_APPEND; BSD_O_CREAT;
      BSD_O_TRUNC; BSD_O_EXCL; BSD_O_CLOEXEC; BSD_O_DIRECTORY; BSD_O_NOCTTY]).
    rewrite (translate_equiv _ (diag_tbl l ++ [(Z.lor BSD_O_NOFOLLOW BSD_O_SYMLINK, BSD_O_NOFOLLOW)])) by by vm_compute.
    rewrite translate_snoc, translate_diag_single by done. done.
  - rewrite (translate_there_back _ _ (filter (λ z, z ≠ 0) (oflags_l2b_tbl.*1))) by by vm_compute. done.
Qed.

Lemma flock_round_trip_b l :
  l_type l ∈ [F_RDLCK; F_WRLCK; F_UNLCK] -> flock_linux_to_bsd (flock_bsd_to_linux l) = l.
Proof.
  destruct l as [s n p t w]. cbn [l_type]. unfold flock_linux_to_bsd, flock_bsd_to_linux. simpl. intros Ht.
  rewrite !elem_of_cons in Ht. by destruct Ht as [->|[->|[->|[]%not_elem_of_nil]]].
Qed.

Lemma flock_round_trip_l l :
  ll_type l ∈ [LINUX_F_RDLCK; LINUX_F_WRLCK; LINUX_F_UNLCK] -> flock_bsd_to_linux (flock_linux_to_bsd l) = l.
Proof.
  destruct l as [t w s n p]. cbn [ll_type]. unfold flock_linux_to_bsd, flock_bsd_to_linux. simpl. intros Ht.
  rewrite !elem_of_cons in Ht. by destruct Ht as [->|[->|[->|[]%not_elem_of_nil]]].
Qed.

(** Record locks and commands.  The three lock types and the commands are
    mapped one to one, and a lock survives translation to Linux and back. *)
Theorem flock_round_trip :
  (∀ l, l_type l ∈ [F_RDLCK; F_WRLCK; F_UNLCK] -> flock_linux_to_bsd (flock_bsd_to_linux l) = l) ∧
  (∀ l, ll_type l ∈ [LINUX_F_RDLCK; LINUX_F_WRLCK; LINUX_F_UNLCK] -> flock_bsd_to_linux (flock_linux_to_bsd l) = l) ∧
  (∀ c c', cmd_bsd_to_linux c = cmd_bsd_to_linux c' -> cmd_bsd_to_linux c ≠ -1 -> c = c').
Proof.
  split_and!.
  - exact flock_round_trip_b.
  - exact flock_round_trip_l.
  - intros c c' Heq Hne. by apply (switch_inj cmd_tbl (-1)).
Qed.

(** The kernel may only be asked about the lock [l], and answers with [ans]. *)
Definition getlk_host (fd : Z) (l : bsd_flock) (ans : Z * linux_flock) : protocol := Protocol
  (λ X e,
    match e with
    | SysOut nr args _ => nr = __NR_fcntl ∧ args = [AInt fd; AInt LINUX_F_GETLK; AFlock (flock_bsd_to_linux l)]
    | _ => False
    end)
  (λ X e,
    match e in linuxE X return X -> Prop with
    | SysOut _ _ o => match o in outk Y return Z * Y -> Prop with OFlock => λ r, r = ans | _ => λ _, True end
    | _ => λ _, True
    end)
  False.

Section FcntlProofs.
Context `{LoopFuel, IcaseEnabled}.

(** F_GETLK reports the kernel's answer in Darwin terms: the kernel's
    error number translated, or the lock the kernel describes, such that
    translating it back gives the kernel's lock; the request carries the
    caller's lock in Linux terms, from which the caller's lock can be
    recovered. *)
Theorem fcntl_getlk fd l ans g :
  l_type l ∈ [F_RDLCK; F_WRLCK; F_UNLCK] -> -4095 <= ans.1 <= 0 ->
  ll_type ans.2 ∈ [LINUX_F_RDLCK; LINUX_F_WRLCK; LINUX_F_UNLCK] ->
  flock_linux_to_bsd (flock_bsd_to_linux l) = l ∧
  wp (getlk_host fd l ans) (sys_fcntl_nocancel fd F_GETLK (FLock l)) g
     (λ r g', g' = g ∧
        if ans.1 <? 0 then r = (errno_linux_to_bsd ans.1, ONothing)
        else ∃ b, r = (0, OLock b) ∧ flock_bsd_to_linux b = ans.2).
Proof.
  intros Hl Hr Ht. split; [by apply flock_round_trip_b|].
  change (sys_fcntl_nocancel fd F_GETLK (FLock l)) with (fcntl_lock fd F_GETLK l). unfold fcntl_lock.
  wp_step. apply wp_syscall_int_out; [done|]. intros r ll Hx. cbn in Hx. subst ans. cbn [fst snd] in *.
  rewrite s32_id by (unfold INT_MIN, INT_MAX; lia). destruct (Z.ltb_spec r 0); wp_step; (split; [done|]); [done|].
  exists (flock_linux_to_bsd ll). split; [do 2 f_equal; lia|]. by apply flock_round_trip_l.
Qed.

(** Fcntl refuses what it cannot do before asking the kernel: close-on-exec
    is the only descriptor flag, and unknown commands are EINVAL. *)
Theorem fcntl_rejects fd cmd arg g :
  (cmd = F_SETFD ∧ (∃ a, arg = FInt a ∧ Z.land a (Z.lnot FD_CLOEXEC) ≠ 0)) ∨
  (cmd_bsd_to_linux cmd = -1 ∧ cmd ≠ F_CHECK_LV ∧ cmd ≠ F_GETPATH ∧ cmd ≠ F_FULLFSYNC) ->
  sys_fcntl_nocancel fd cmd arg g = Ret ((- EINVAL, ONothing), g).
Proof.
  intros [[-> (a & -> & Ha)]|(Hc & H1 & H2 & H3)].
  - unfold sys_fcntl_nocancel, has. simpl. by rewrite (proj2 (Z.eqb_neq _ _) Ha).
  - unfold sys_fcntl_nocancel, is_lock_cmd. rewrite Hc.
    assert (∀ k, cmd_bsd_to_linux k ≠ -1 -> (cmd =? k) = false) as Hk.
    { intros k Hk. apply Z.eqb_neq. intros ->. done. }
    rewrite (Hk F_SETFD), (Hk F_SETFL), (Hk F_SETLK), (Hk F_SETLKW), (Hk F_GETLK) by done.
    rewrite (proj2 (Z.eqb_neq cmd F_CHECK_LV)), (proj2 (Z.eqb_neq cmd F_GETPATH)),
      (proj2 (Z.eqb_neq cmd F_FULLFSYNC)) by done. done.
Qed.
End FcntlProofs.

#[local] Instance example_fuel : LoopFuel := 0%nat.
#[local] Instance example_icase : IcaseEnabled := true.

Lemma fcntl_getlk_witness :
  wp (getlk_host 5 (BsdFlock 0 100 0 F_WRLCK 0) (0, LinuxFlock LINUX_F_RDLCK 0 10 20 77))
     (sys_fcntl_nocancel 5 F_GETLK (FLock (BsdFlock 0 100 0 F_WRLCK 0))) init_gstate
     (λ r g', g' = init_gstate ∧ ∃ b, r = (0, OLock b) ∧ flock_bsd_to_linux b = LinuxFlock LINUX_F_RDLCK 0 10 20 77).
Proof.
  apply (fcntl_getlk 5 (BsdFlock 0 100 0 F_WRLCK 0) (0, LinuxFlock LINUX_F_RDLCK 0 10 20 77));
    [right; left|by vm_compute|left].
Defined.

Lemma fcntl_rejects_witness :
  sys_fcntl_nocancel 5 F_PREALLOCATE (FInt 0) init_gstate = Ret ((- EINVAL, ONothing), init_gstate) ∧
  sys_fcntl_nocancel 5 F_SETFD (FInt 3) init_gstate = Ret ((- EINVAL, ONothing), init_gstate).
Proof.
  split; apply fcntl_rejects; [right; by vm_compute|left]. split; [done|]. exists 3. split; [done|]. by vm_compute.
Defined.
