(* ===== verification/Paths.v ===== *)
(** * System calls that take a path

    fcntl/open.c and openat.c, stat/{common,stat,lstat,fstat,fstatat,*_extended,
    mkdir,mkdirat,rmdir,mkfifo}.c, the path calls of unistd/, time/utimes.c,
    xattr/{getxattr,listxattr}.c, ext/inotify_add_watch.c and
    bsdthread/pthread_{chdir,fchdir}.c.  Each resolves its paths with
    [vchroot_expand] before the Linux call; the main theorem says so for all
    of them at once. *)
From S2P Require Import Prelude Abi Linux Errno Base Simple Vchroot VchrootProofs Fcntl.

Definition XATTR_NOFOLLOW : Z := 1.
Definition LINUX_AT_EMPTY_PATH : Z := 0x1000.
Definition LINUX_S_IFIFO : Z := 0x1000.

(** [struct stat64] of Darwin; [struct stat] differs in the width of the
    inode number. *)
Record bsd_stat := BsdStat {
  st_dev : Z; st_mode : Z; st_nlink : Z; st_ino : Z; st_uid : Z; st_gid : Z; st_rdev : Z; st_size : Z;
  st_blksize : Z; st_blocks : Z; st_atimespec : timespec; st_mtimespec : timespec; st_ctimespec : timespec;
  st_flags : Z }.

Definition stat_fields (ino : Z) (uid gid : Z) (l : linux_stat) : bsd_stat :=
  BsdStat (s32 (lst_dev l)) (u16 (lst_mode l)) (u16 (lst_nlink l)) ino uid gid (s32 (lst_rdev l)) (lst_size l)
    (s32 (lst_blksize l)) (lst_blocks l) (Timespec (s64 (lst_atime l)) (s64 (lst_atime_nsec l)))
    (Timespec (s64 (lst_mtime l)) (s64 (lst_mtime_nsec l))) (Timespec (s64 (lst_ctime l)) (s64 (lst_ctime_nsec l))) 0.

Definition stat_linux_to_bsd (l : linux_stat) : M bsd_stat :=
  uid ← sys_getuid; gid ← sys_getgid; mret (stat_fields (u32 (lst_ino l)) uid gid l).

Definition stat_linux_to_bsd64 (l : linux_stat) : M bsd_stat :=
  uid ← sys_getuid; gid ← sys_getgid; mret (stat_fields (lst_ino l) uid gid l).

(** The end of every stat call: the error, or the converted structure. *)
Definition stat_result (conv : linux_stat -> M bsd_stat) (r : Z * linux_stat) : M (Z * option bsd_stat) :=
  if r.1 <? 0 then mret (errno_linux_to_bsd r.1, None) else s ← conv r.2; mret (0, Some s).

Definition sys_fstat (fd : Z) : M (Z * option bsd_stat) :=
  r ← syscall_int_out __NR_fstat [AInt fd] OStat; stat_result stat_linux_to_bsd r.
Definition sys_fstat64 (fd : Z) : M (Z * option bsd_stat) :=
  r ← syscall_int_out __NR_fstat [AInt fd] OStat; stat_result stat_linux_to_bsd64 r.
Definition sys_fstat64_extended (fd : Z) : M (Z * option bsd_stat) := sys_fstat64 fd.

(** ** Path calls

    A null path is [None]; the calls that do not test for it take a string. *)
Section Calls.
Context `{LoopFuel, IcaseEnabled}.

(** [vc.flags = ...; vc.dfd = ...; strcpy(vc.path, path); ret =
    vchroot_expand(&vc); if (ret < 0) return errno_linux_to_bsd(ret);] and
    then [k] with the members of [vc]. *)
Definition expanding {A} (fail : Z -> A) (follow : bool) (dfd : Z) (path : cstr) (k : Z -> cstr -> M A) : M A :=
  '(ret, vc) ← vchroot_expand (VchrootExpandArgs path dfd follow);
  if ret <? 0 then mret (fail (errno_linux_to_bsd ret)) else k (vc_dfd vc) (vc_path vc).

Definition nofollow (flag : Z) : bool := has flag BSD_AT_SYMLINK_NOFOLLOW.

Definition device_alias (filename : cstr) : cstr :=
  if streq filename (s2c "/dev/random") then s2c "/dev/urandom"
  else if streq filename (s2c "/dev/autofs_nowait") then s2c "/dev/null" else filename.

Definition sys_openat_nocancel (fd : Z) (filename : option cstr) (flags mode : Z) : M Z :=
  match filename with
  | None => mret (- EFAULT)
  | Some filename =>
    let linux_flags := oflags_bsd_to_linux flags in
    dfd ← atfd fd;
    expanding id (negb (has flags BSD_O_SYMLINK || has flags BSD_O_NOFOLLOW)) dfd (device_alias filename) (λ dfd path,
      ret ← syscall_int __NR_openat [AInt dfd; AStr path; AInt linux_flags; AInt mode]; mret (bsd_ret ret))
  end.

Definition sys_openat (fd : Z) (filename : option cstr) (flags mode : Z) : M Z :=
  CANCELATION_POINT id (sys_openat_nocancel fd filename flags mode).

Definition sys_open_nocancel (filename : option cstr) (flags mode : Z) : M Z :=
  wd ← get_perthread_wd; sys_openat_nocancel wd filename flags mode.

Definition sys_open (filename : option cstr) (flags mode : Z) : M Z :=
  CANCELATION_POINT id (sys_open_nocancel filename flags mode).

(** *** stat *)

Definition fstatat_with (conv : linux_stat -> M bsd_stat) (fd : Z) (path : option cstr) (flag : Z)
    : M (Z * option bsd_stat) :=
  match path with
  | None => mret (- EFAULT, None)
  | Some path =>
    dfd ← atfd fd;
    expanding (λ e, (e, None)) (negb (nofollow flag)) dfd path (λ dfd path,
      r ← syscall_int_out __NR_newfstatat [AInt dfd; AStr path; AInt (atflags_bsd_to_linux flag)] OStat;
      stat_result conv r)
  end.

Definition sys_fstatat : Z -> option cstr -> Z -> M (Z * option bsd_stat) := fstatat_with stat_linux_to_bsd.
Definition sys_fstatat64 : Z -> option cstr -> Z -> M (Z * option bsd_stat) := fstatat_with stat_linux_to_bsd64.

Definition sys_stat (path : option cstr) : M (Z * option bsd_stat) := wd ← get_perthread_wd; sys_fstatat wd path 0.
Definition sys_stat64 (path : option cstr) : M (Z * option bsd_stat) := wd ← get_perthread_wd; sys_fstatat64 wd path 0.
Definition sys_stat64_extended (path : option cstr) : M (Z * option bsd_stat) := sys_stat64 path.

Definition lstat_with (conv : linux_stat -> M bsd_stat) (path : cstr) : M (Z * option bsd_stat) :=
  wd ← get_perthread_wd;
  expanding (λ e, (e, None)) false wd path (λ _ path,
    r ← syscall_int_out __NR_lstat [AStr path] OStat; stat_result conv r).

Definition sys_lstat (path : option cstr) : M (Z * option bsd_stat) :=
  match path with None => mret (- EFAULT, None) | Some path => lstat_with stat_linux_to_bsd path end.
Definition sys_lstat64 (path : cstr) : M (Z * option bsd_stat) := lstat_with stat_linux_to_bsd64 path.
Definition sys_lstat64_extended (path : cstr) : M (Z * option bsd_stat) := sys_lstat64 path.

(** *** Creating and removing *)

(** [if (ret < 0) return errno_linux_to_bsd(ret); return 0;] *)
Definition zero_ret (ret : Z) : Z := if ret <? 0 then errno_linux_to_bsd ret else 0.

Definition sys_mkdirat (fd : Z) (path : option cstr) (mode : Z) : M Z :=
  match path with
  | None => mret (- EFAULT)
  | Some path =>
    dfd ← atfd fd;
    expanding id false dfd path (λ dfd path,
      ret ← syscall_int __NR_mkdirat [AInt dfd; AStr path; AInt mode]; mret (zero_ret ret))
  end.

Definition sys_mkdir (path : option cstr) (mode : Z) : M Z := wd ← get_perthread_wd; sys_mkdirat wd path mode.

Definition sys_rmdir (path : option cstr) : M Z :=
  match path with
  | None => mret (- EFAULT)
  | Some path =>
    wd ← get_perthread_wd;
    expanding id false wd path (λ dfd path,
      ret ← syscall_int __NR_unlinkat [AInt dfd; AStr path; AInt LINUX_AT_REMOVEDIR]; mret (zero_ret ret))
  end.

Definition sys_mkfifo (path : option cstr) (mode : Z) : M Z :=
  match path with
  | None => mret (- EFAULT)
  | Some path =>
    wd ← get_perthread_wd;
    expanding id false wd path (λ _ path,
      ret ← syscall_int __NR_mknod [AStr path; AInt (Z.lor mode LINUX_S_IFIFO); AInt 0]; mret (zero_ret ret))
  end.

Definition sys_mknod (path : cstr) (mode dev : Z) : M Z :=
  wd ← get_perthread_wd;
  expanding id false wd path (λ _ path,
    ret ← syscall_int __NR_mknod [AStr path; AInt mode; AInt dev]; mret (bsd_ret ret)).

Definition sys_unlinkat (fd : Z) (path : cstr) (flag : Z) : M Z :=
  dfd ← atfd fd;
  expanding id false dfd path (λ dfd path,
    ret ← syscall_int __NR_unlinkat [AInt dfd; AStr path; AInt (atflags_bsd_to_linux flag)]; mret (bsd_ret ret)).

Definition sys_unlink (path : cstr) : M Z := wd ← get_perthread_wd; sys_unlinkat wd path 0.

(** The contents of the new link are not a path of this process; the
    descriptor argument is not used. *)
Definition sys_symlinkat (path : cstr) (fd : Z) (link : cstr) : M Z :=
  wd ← get_perthread_wd;
  expanding id false wd link (λ dfd link,
    ret ← syscall_int __NR_symlinkat [ABuf path; AInt dfd; AStr link]; mret (bsd_ret ret)).

Definition sys_symlink (path link : cstr) : M Z := wd ← get_perthread_wd; sys_symlinkat path wd link.

Definition sys_linkat (fd : Z) (path : cstr) (fdlink : Z) (link : cstr) (flag : Z) : M Z :=
  dfd ← atfd fd; dfdlink ← atfd fdlink;
  expanding id (has flag BSD_AT_SYMLINK_FOLLOW) dfd path (λ dfd path,
  expanding id false dfdlink link (λ dfdlink link,
    ret ← syscall_int __NR_linkat
      [AInt dfd; AStr path; AInt dfdlink; AStr link; AInt (atflags_bsd_to_linux flag)]; mret (bsd_ret ret))).

Definition sys_link (path link : cstr) : M Z := fd ← get_perthread_wd; sys_linkat fd path fd link 0.

Definition sys_renameat (oldfd : Z) (oldpath : cstr) (newfd : Z) (newpath : cstr) : M Z :=
  dfd ← atfd oldfd; dfd2 ← atfd newfd;
  expanding id false dfd oldpath (λ dfd oldpath,
  expanding id false dfd2 newpath (λ dfd2 newpath,
    ret ← syscall_int __NR_renameat [AInt dfd; AStr oldpath; AInt dfd2; AStr newpath]; mret (zero_ret ret))).

Definition sys_rename (oldpath newpath : cstr) : M Z := fd ← get_perthread_wd; sys_renameat fd oldpath fd newpath.

(** *** Attributes *)

(** [buf] is the caller's buffer. *)
Definition sys_readlinkat (fd : Z) (path : cstr) (buf count : Z) : M Z :=
  dfd ← atfd fd;
  expanding id false dfd path (λ dfd path,
    ret ← syscall_int __NR_readlinkat [AInt dfd; AStr path; AInt buf; AInt count]; mret (bsd_ret ret)).

Definition sys_readlink (path : cstr) (buf count : Z) : M Z := wd ← get_perthread_wd; sys_readlinkat wd path buf count.

Definition sys_faccessat (fd : Z) (filename : cstr) (amode flag : Z) : M Z :=
  dfd ← atfd fd;
  expanding id (negb (nofollow flag)) dfd filename (λ dfd path,
    ret ← syscall_int __NR_faccessat [AInt dfd; AStr path; AInt amode; AInt (atflags_bsd_to_linux flag)];
    mret (bsd_ret ret)).

Definition sys_access (filename : cstr) (amode : Z) : M Z := wd ← get_perthread_wd; sys_faccessat wd filename amode 0.

(** Linux cannot change the mode of a symbolic link. *)
Definition do_linux_fchmodat (fd : Z) (path : cstr) (mode flag : Z) : M Z :=
  if flag =? 0 then syscall_int __NR_fchmodat [AInt fd; AStr path; AInt mode]
  else
    '(r, st) ← LINUX_SYSCALL_out __NR_newfstatat
      [AInt fd; AStr path; AInt (Z.lor LINUX_AT_EMPTY_PATH LINUX_AT_SYMLINK_NOFOLLOW)] OStat;
    if negb (r =? 0) then mret (-1)
    else if Z.land (lst_mode st) LINUX_S_IFMT =? LINUX_S_IFLNK then mret 0
    else syscall_int __NR_fchmodat [AInt fd; AStr path; AInt mode].

Definition sys_fchmodat (fd : Z) (path : cstr) (mode flag : Z) : M Z :=
  dfd ← atfd fd;
  expanding id (negb (nofollow flag)) dfd path (λ dfd path,
    ret ← do_linux_fchmodat dfd path mode (atflags_bsd_to_linux flag); mret (bsd_ret ret)).

Definition sys_chmod (path : cstr) (mode : Z) : M Z := wd ← get_perthread_wd; sys_fchmodat wd path mode 0.

Definition sys_chmod_extended (path : cstr) (uid gid mode : Z) : M Z :=
  wd ← get_perthread_wd;
  expanding id true wd path (λ _ path,
    ret ← syscall_int __NR_chmod [AStr path; AInt mode];
    if ret <? 0 then mret (errno_linux_to_bsd ret)
    else ret ← syscall_int __NR_chown [AStr path; AInt uid; AInt gid]; mret (bsd_ret ret)).

(** Ownership is kept by the kernel module; these do nothing. *)
Definition sys_fchownat (fd : Z) (path : cstr) (uid gid flag : Z) : M Z := mret 0.
Definition sys_chown (path : cstr) (uid gid : Z) : M Z := wd ← get_perthread_wd; sys_fchownat wd path uid gid 0.
Definition sys_lchown (path : cstr) (uid gid : Z) : M Z := mret 0.

Definition sys_truncate (path : cstr) (length : Z) : M Z :=
  wd ← get_perthread_wd;
  expanding id true wd path (λ _ path,
    ret ← syscall_int __NR_truncate [AStr path; AInt length]; mret (bsd_ret ret)).

Definition sys_utimes (path : cstr) (tv : option (timeval * timeval)) : M Z :=
  wd ← get_perthread_wd;
  expanding id true wd path (λ _ path,
    ret ← syscall_int __NR_utimes
      (AStr path :: match tv with Some (a, b) => [ATimeval a; ATimeval b] | None => [ANull] end); mret (bsd_ret ret)).

Definition sys_getxattr (path : cstr) (name : cstr) (value size pos options : Z) : M Z :=
  if negb (pos =? 0) then mret (- ERANGE)
  else
    wd ← get_perthread_wd;
    expanding id (negb (has options XATTR_NOFOLLOW)) wd path (λ _ path,
      ret ← syscall_int __NR_getxattr [AStr path; ABuf name; AInt value; AInt size]; mret (zero_ret ret)).

(** The resolved path is not the one that is passed on. *)
Definition sys_listxattr (path : cstr) (namebuf size options : Z) : M Z :=
  wd ← get_perthread_wd;
  expanding id (negb (has options XATTR_NOFOLLOW)) wd path (λ _ _,
    ret ← syscall_int (if has options XATTR_NOFOLLOW then __NR_llistxattr else __NR_listxattr)
            [AStr path; AInt namebuf; AInt size]; mret (bsd_ret ret)).

(** The result and the new [errno], if the call sets it. *)
Definition inotify_add_watch (fd : Z) (name : option cstr) (mask : Z) : M (Z * option Z) :=
  match name with
  | None => mret (- EFAULT, None)
  | Some name =>
    wd ← get_perthread_wd;
    expanding (λ e, (e, None)) false wd name (λ _ path,
      rv ← syscall_int __NR_inotify_add_watch [AInt fd; AStr path; AInt mask];
      if rv <? 0 then mret (-1, Some (errno_linux_to_bsd (- rv))) else mret (rv, None))
  end.

(** *** Working directories *)

Definition sys_chdir (path : cstr) : M Z :=
  wd ← get_perthread_wd;
  expanding id true wd path (λ _ path, ret ← syscall_int __NR_chdir [AStr path]; mret (bsd_ret ret)).

Definition set_wd (fd : Z) (g : gstate) : gstate :=
  GState (g_prefix_path g) (g_prefix_path_len g) (Some fd) (g_uses_threads g) (g_driver_fd g) (g_sa_tramp g)
         (g_sig_handlers g) (g_sig_flags g) (g_sig_masks g) (g_caches g).

Definition set_perthread_wd (fd : Z) : M unit := modify_state (set_wd fd).

Definition sys_dup (fd : Z) : M Z := ret ← syscall_int __NR_dup [AInt fd]; mret (bsd_ret ret).

Definition close_old_wd (fd : Z) : M unit :=
  if fd =? LINUX_AT_FDCWD then mret tt else close_internal fd;; mret tt.

Definition sys_pthread_chdir (path : option cstr) : M Z :=
  newfd ← sys_open path (or_all [BSD_O_RDONLY; BSD_O_DIRECTORY; BSD_O_CLOEXEC]) 0;
  if newfd <? 0 then mret newfd
  else
    oldfd ← get_perthread_wd; close_old_wd oldfd;;
    set_perthread_wd newfd;; mret 0.

Definition sys_pthread_fchdir (newfd : Z) : M Z :=
  fd ← get_perthread_wd; close_old_wd fd;;
  if newfd =? -1 then set_perthread_wd LINUX_AT_FDCWD;; mret 0
  else
    newfd ← sys_dup newfd;
    if newfd <? 0 then mret newfd
    else sys_fcntl newfd F_SETFD (FInt FD_CLOEXEC);; set_perthread_wd newfd;; mret 0.
End Calls.

(** ** Confinement of every path call *)

Inductive path_call :=
| COpenat (fd : Z) (filename : option cstr) (flags mode : Z)
| COpen (filename : option cstr) (flags mode : Z)
| CFstatat (fd : Z) (path : option cstr) (flag : Z)
| CFstatat64 (fd : Z) (path : option cstr) (flag : Z)
| CLstat (path : option cstr)
| CLstat64 (path : cstr)
| CMkdirat (fd : Z) (path : option cstr) (mode : Z)
| CRmdir (path : option cstr)
| CMkfifo (path : option cstr) (mode : Z)
| CMknod (path : cstr) (mode dev : Z)
| CUnlinkat (fd : Z) (path : cstr) (flag : Z)
| CSymlinkat (path : cstr) (fd : Z) (link : cstr)
| CLinkat (fd : Z) (path : cstr) (fdlink : Z) (link : cstr) (flag : Z)
| CRenameat (oldfd : Z) (oldpath : cstr) (newfd : Z) (newpath : cstr)
| CReadlinkat (fd : Z) (path : cstr) (buf count : Z)
| CFaccessat (fd : Z) (filename : cstr) (amode flag : Z)
| CFchmodat (fd : Z) (path : cstr) (mode flag : Z)
| CChmod_extended (path : cstr) (uid gid mode : Z)
| CTruncate (path : cstr) (length : Z)
| CUtimes (path : cstr) (tv : option (timeval * timeval))
| CGetxattr (path name : cstr) (value size pos options : Z)
| CInotify_add_watch (fd : Z) (name : option cstr) (mask : Z)
| CChdir (path : cstr)
| CPthread_chdir (path : option cstr).

Definition opt_path (p : option cstr) : list cstr := match p with Some p => [p] | None => [] end.

(** The paths of a call. *)
Definition call_paths (c : path_call) : list cstr :=
  match c with
  | COpenat _ p _ _ | COpen p _ _ | CFstatat _ p _ | CFstatat64 _ p _ | CLstat p | CMkdirat _ p _
  | CRmdir p | CMkfifo p _ | CInotify_add_watch _ p _ | CPthread_chdir p => opt_path p
  | CLstat64 p | CMknod p _ _ | CUnlinkat _ p _ | CSymlinkat _ _ p | CReadlinkat _ p _ _
  | CFaccessat _ p _ _ | CFchmodat _ p _ _ | CChmod_extended p _ _ _ | CTruncate p _ | CUtimes p _
  | CGetxattr p _ _ _ _ _ | CChdir p => [p]
  | CLinkat _ p _ q _ | CRenameat _ p _ q => [p; q]
  end.

Section Confined.
Context `{LoopFuel, IcaseEnabled}.

Definition drop_out {A} (m : M (Z * A)) : M Z := '(r, _) ← m; mret r.

Definition exec_call (c : path_call) : M Z :=
  match c with
  | COpenat fd p flags mode => sys_openat fd p flags mode
  | COpen p flags mode => sys_open p flags mode
  | CFstatat fd p flag => drop_out (sys_fstatat fd p flag)
  | CFstatat64 fd p flag => drop_out (sys_fstatat64 fd p flag)
  | CLstat p => drop_out (sys_lstat p)
  | CLstat64 p => drop_out (sys_lstat64 p)
  | CMkdirat fd p mode => sys_mkdirat fd p mode
  | CRmdir p => sys_rmdir p
  | CMkfifo p mode => sys_mkfifo p mode
  | CMknod p mode dev => sys_mknod p mode dev
  | CUnlinkat fd p flag => sys_unlinkat fd p flag
  | CSymlinkat p fd l => sys_symlinkat p fd l
  | CLinkat fd p fdl l flag => sys_linkat fd p fdl l flag
  | CRenameat fd p fd2 q => sys_renameat fd p fd2 q
  | CReadlinkat fd p b n => sys_readlinkat fd p b n
  | CFaccessat fd p m flag => sys_faccessat fd p m flag
  | CFchmodat fd p m flag => sys_fchmodat fd p m flag
  | CChmod_extended p u gi m => sys_chmod_extended p u gi m
  | CTruncate p n => sys_truncate p n
  | CUtimes p tv => sys_utimes p tv
  | CGetxattr p n v s pos o => sys_getxattr p n v s pos o
  | CInotify_add_watch fd p m => drop_out (inotify_add_watch fd p m)
  | CChdir p => sys_chdir p
  | CPthread_chdir p => sys_pthread_chdir p
  end.

Context (prefix : cstr).
Hypothesis Hprefix : prefix_dir prefix.

Abbreviation host := (vchroot_host true prefix).

(** Continuing after a resolution: the path is in the prefix. *)
Lemma expanding_wp {A} (fail : Z -> A) follow dfd path (k : Z -> cstr -> M A) g (Q : A -> gstate -> Prop) :
  prefix_state prefix g -> no_exit path ->
  (∀ e g', knows_prefix prefix g' -> Q (fail e) g') ->
  (∀ d p g', knows_prefix prefix g' -> arg_ok true prefix (AStr p) -> wp host (k d p) g' Q) ->
  wp host (expanding fail follow dfd path k) g Q.
Proof.
  intros Hg Hx Hfail Hk. unfold expanding. wp_step.
  eapply wp_mono; [by apply (vchroot_expand_wp true prefix Hprefix)|]. intros [ret vc] g' [Hkn Hres]. simpl in Hres.
  destruct (Z.ltb_spec ret 0); [wp_step; by apply Hfail|].
  destruct Hres as [(_ & Habs & _ & Hu)|[? _]]; [|lia]. apply Hk; [done|]. right. by split; [|auto].
Qed.

Lemma getid_wp (m : M Z) g (Q : Z -> gstate -> Prop) :
  m = sys_getuid ∨ m = sys_getgid -> (∀ z, Q z g) -> wp host m g Q.
Proof.
  intros [->| ->] HQ; (unfold sys_getuid || unfold sys_getgid); wp_step; apply wp_lkm_call; [done| |done|];
    intros r [u gi] _; wp_step; apply HQ.
Qed.

Lemma stat_result_wp conv r g (Q : Z * option bsd_stat -> gstate -> Prop) :
  conv = stat_linux_to_bsd ∨ conv = stat_linux_to_bsd64 -> (∀ x, Q x g) -> wp host (stat_result conv r) g Q.
Proof.
  intros Hconv HQ. unfold stat_result. destruct (_ <? _); [by wp_step|].
  destruct Hconv as [->| ->]; [unfold stat_linux_to_bsd|unfold stat_linux_to_bsd64];
    wp_step; wp_step; (apply getid_wp; [by left|]); intros u; wp_step; (apply getid_wp; [by right|]); intros gi;
    wp_step; wp_step; apply HQ.
Qed.

Lemma cancel_wp {A} (early : Z -> A) (m : M A) g (Q : A -> gstate -> Prop) :
  (∀ e, Q (early e) g) -> wp host m g Q -> wp host (CANCELATION_POINT early m) g Q.
Proof.
  intros He Hm. unfold CANCELATION_POINT, sys_pthread_canceled. wp_step. wp_step. wp_step.
  destruct (_ && _); [by wp_step|]. wp_step. apply wp_lkm_call; [done|]. intros r [] _. wp_step.
  destruct (_ =? _); [by wp_step|done].
Qed.

Lemma atfd_wp Ψ fd g (Q : Z -> gstate -> Prop) : (∀ d, Q d g) -> wp Ψ (atfd fd) g Q.
Proof. intros HQ. unfold atfd. destruct (_ =? _); [apply wp_get_perthread_wd|wp_step]; apply HQ. Qed.

(** All arguments of a request are numbers, data, or resolved paths. *)
Ltac args_ok :=
  repeat first [apply Forall_nil_2 | apply Forall_cons_2; [first [assumption | exact I]|]].

(** A step of a path call, with the proof obligations that are the same for
    all of them. *)
Ltac path_step :=
  cbv beta iota;
  match goal with
  | |- wp _ (match ?x with (_, _) => _ end) _ _ => destruct x
  | |- wp _ (atfd _ ≫= _) _ _ => apply wp_bind; apply atfd_wp; intros ?
  | |- wp _ (get_perthread_wd ≫= _) _ _ => apply wp_bind; apply wp_get_perthread_wd
  | |- wp _ (expanding _ _ _ _ _) _ _ =>
      apply expanding_wp; [done || by left|done|intros ? ? ?|intros ? ? ? ? ?]
  | |- wp _ (syscall_int _ _ ≫= _) _ _ => apply wp_bind; apply wp_syscall_int; [args_ok|intros ? _]
  | |- wp _ (syscall_int _ _) _ _ => apply wp_syscall_int; [args_ok|intros ? _]
  | |- wp _ (syscall_int_out _ _ _ ≫= _) _ _ =>
      apply wp_bind; apply wp_syscall_int_out; [args_ok|intros ? ? _]
  | |- wp _ (LINUX_SYSCALL_out _ _ _ ≫= _) _ _ =>
      apply wp_bind; apply wp_trigger; [args_ok|intros [? ?] _]
  | |- wp _ (stat_result _ _) _ _ => apply stat_result_wp; [by auto|intros ?]
  | |- wp _ (CANCELATION_POINT _ _) _ _ => apply cancel_wp; [intros ?|]
  | |- wp _ (mret _) _ _ => apply wp_ret
  | |- wp _ (if ?b then _ else _) _ _ => destruct b
  | |- wp _ (drop_out _) _ _ => unfold drop_out; apply wp_bind
  | |- wp _ (_ ≫= _) _ _ => apply wp_bind
  end.

Lemma openat_confined fd filename flags mode g :
  prefix_state prefix g -> Forall no_exit (opt_path filename) ->
  wp host (sys_openat_nocancel fd filename flags mode) g (λ _ g', prefix_state prefix g').
Proof.
  intros Hg Hx. destruct filename as [p|]; unfold sys_openat_nocancel; [|by wp_step].
  cbn [opt_path] in Hx. rewrite Forall_singleton in Hx.
  assert (no_exit (device_alias p)) as Hx'.
  { unfold device_alias. destruct (streq p _); [by apply Toy.no_exit_check|]. destruct (streq p _); [by apply Toy.no_exit_check|done]. }
  path_step. apply expanding_wp; [done|done|by left|]. intros d2 q g' Hk Hq. path_step. path_step. by left.
Qed.

Lemma open_confined filename flags mode g :
  prefix_state prefix g -> Forall no_exit (opt_path filename) ->
  wp host (sys_open filename flags mode) g (λ _ g', prefix_state prefix g').
Proof. intros Hg Hx. apply cancel_wp; [done|]. unfold sys_open_nocancel. path_step. by apply openat_confined. Qed.

Lemma pthread_chdir_confined filename g :
  prefix_state prefix g -> Forall no_exit (opt_path filename) ->
  wp host (sys_pthread_chdir filename) g (λ _ g', prefix_state prefix g').
Proof.
  intros Hg Hx. unfold sys_pthread_chdir. wp_step. eapply wp_mono; [by apply open_confined|]. intros newfd g' Hg'.
  destruct (_ <? _); [by wp_step|]. path_step. wp_step. unfold close_old_wd, close_internal, set_perthread_wd.
  destruct (_ =? LINUX_AT_FDCWD); repeat path_step; by apply wp_modify.
Qed.

(** C2: path calls are confined.  If neither the paths given to one of the
    24 calls nor the target of any symbolic link names the exit directory
    "SystemRoot", and the working directory (or the directory of the
    descriptor) lies inside the prefix and has at most 4094 characters, then
    every path in every request to the kernel, during resolution and in the
    final call, lies inside the prefix or is an entry of /proc/self. *)
Theorem path_calls_confined c g :
  prefix_state prefix g -> Forall no_exit (call_paths c) ->
  wp host (exec_call c) g (λ _ g', prefix_state prefix g').
Proof.
  intros Hg Hx.
  destruct c as [fd [p|] flags mode|[p|] flags mode|fd [p|] flag|fd [p|] flag|[p|]|p|fd [p|] mode|[p|]|[p|] mode|p mode dev
    |fd p flag|p fd l|fd p fdl l flag|fd p fd2 q|fd p b n|fd p m flag|fd p m flag|p u gi m|p n|p tv|p n v s pos o
    |fd [p|] m|p|op];
    cbn [call_paths opt_path exec_call] in *; rewrite ?Forall_cons, ?Forall_nil in Hx; break_and.
  all: try by (unfold sys_fstatat, sys_fstatat64, fstatat_with, sys_lstat, sys_lstat64, lstat_with, sys_mkdirat,
    sys_rmdir, sys_mkfifo, sys_mknod, sys_unlinkat, sys_symlinkat, sys_linkat, sys_renameat, sys_readlinkat,
    sys_faccessat, sys_fchmodat, do_linux_fchmodat, sys_chmod_extended, sys_truncate, sys_utimes, sys_getxattr,
    inotify_add_watch, sys_chdir; repeat path_step; first [done | by left]).
  all: try by apply cancel_wp; [done|apply openat_confined; [done|by repeat constructor]].
  all: try by apply open_confined; [done|by repeat constructor].
  - destruct tv as [[]|]; unfold sys_utimes; repeat path_step; by left.
  - by apply pthread_chdir_confined.
Qed.
End Confined.

#[local] Existing Instance Toy.fuel.
#[local] Existing Instance Toy.icase.

Lemma path_calls_confined_witness :
  wp (vchroot_host true Toy.prefix)
    (exec_call (CRenameat BSD_AT_FDCWD (s2c "../../etc/motd") 5 (s2c "/private/motd"))) init_gstate
    (λ _ g', prefix_state Toy.prefix g').
Proof.
  apply (path_calls_confined Toy.prefix Toy.prefix_is_dir); [by right|].
  repeat constructor; by apply Toy.no_exit_check.
Defined.

(** ** Concrete runs *)

(** The host of [Toy], recording number and path of every plain request. *)
Definition recorder : handler (list (Z * cstr)) := λ X e log,
  ((Toy.host X e tt).1,
   match e with
   | Sys nr (AStr p :: _) | Sys nr (AInt _ :: AStr p :: _) => log ++ [(nr, p)]
   | _ => log
   end).

(** Listxattr(2) resolves its path and then hands the kernel the path it
    was given: inside a prefix "/p", the attributes of the host's /etc are
    listed, where getxattr(2) asks about "/p/etc". *)
Theorem listxattr_unresolved :
  (∃ g', run recorder (sys_listxattr (s2c "/etc") 0 0 0) init_gstate [] = Some (0, g', [(__NR_listxattr, s2c "/etc")])) ∧
  (∃ g', run recorder (sys_getxattr (s2c "/etc") (s2c "user.x") 0 0 0 0) init_gstate [] =
         Some (0, g', [(__NR_getxattr, s2c "/p/etc")])).
Proof. split; eexists; by vm_compute. Qed.

(** Symlinkat(2) ignores its directory descriptor: a relative link name is
    resolved against the working directory whatever the descriptor is. *)
Theorem symlinkat_ignores_fd `{LoopFuel, IcaseEnabled} path fd fd' link g :
  sys_symlinkat path fd link g = sys_symlinkat path fd' link g.
Proof. done. Qed.

(** ** The per-thread working directory *)

Section Wd.
Context `{LoopFuel, IcaseEnabled}.

Lemma cancel_any {A} (early : Z -> A) (m : M A) g (Q : A -> gstate -> Prop) :
  (∀ e, Q (early e) g) -> wp any_host_total m g Q -> wp any_host_total (CANCELATION_POINT early m) g Q.
Proof.
  intros He Hm. unfold CANCELATION_POINT, sys_pthread_canceled. wp_step. wp_step. wp_step.
  destruct (_ && _); [by wp_step|]. wp_step. apply wp_lkm_call; [done|]. intros r [] _. wp_step.
  destruct (_ =? _); [by wp_step|done].
Qed.

Lemma close_old_wd_any fd g (Q : unit -> gstate -> Prop) :
  Q tt g -> wp any_host_total (close_old_wd fd) g Q.
Proof.
  intros HQ. unfold close_old_wd, close_internal. destruct (_ =? _); [by wp_step|].
  wp_step. wp_step. apply wp_syscall_int; [done|]. intros r _. wp_step. by wp_step.
Qed.

(** Switching the working directory of a thread.  On success the thread's
    directory is a fresh descriptor, or the process directory for -1; on
    failure the recorded directory is unchanged (although its descriptor has
    been closed already). *)
Theorem pthread_fchdir_functional newfd g :
  wp any_host_total (sys_pthread_fchdir newfd) g
    (λ r g', r = 0 ∧ newfd = -1 ∧ g_wd g' = Some LINUX_AT_FDCWD ∨
             r = 0 ∧ newfd ≠ -1 ∧ (∃ d, 0 <= d ∧ g_wd g' = Some d) ∨
             r < 0 ∧ newfd ≠ -1 ∧ g' = g).
Proof.
  unfold sys_pthread_fchdir. wp_step. apply wp_get_perthread_wd. wp_step. apply close_old_wd_any.
  destruct (Z.eqb_spec newfd (-1)) as [->|Hne].
  - wp_step. apply wp_modify. wp_step. by left.
  - wp_step. unfold sys_dup. wp_step. apply wp_syscall_int; [done|]. intros r _. wp_step.
    pose proof (bsd_ret_neg (s32 r)) as Hneg. pose proof (s32_range r).
    destruct (Z.ltb_spec (bsd_ret (s32 r)) 0) as [Hlt|Hge].
    + wp_step. right. right. done.
    + wp_step. apply cancel_any.
      * intros e. wp_step. apply wp_modify. wp_step. right. left. split; [done|]. split; [done|].
        exists (bsd_ret (s32 r)). split; [lia|done].
      * change (sys_fcntl_nocancel (bsd_ret (s32 r)) F_SETFD (FInt FD_CLOEXEC)) with (fcntl_int (bsd_ret (s32 r)) F_SETFD FD_CLOEXEC).
        unfold fcntl_int. wp_step. apply wp_syscall_int; [done|]. intros r2 _.
        destruct (_ <? _); wp_step; wp_step; apply wp_modify; wp_step; right; left; (split; [done|]); (split; [done|]);
          exists (bsd_ret (s32 r)); (split; [lia|done]).
Qed.
End Wd.
