(* ===== verification/Mounts.v ===== *)
(** * Mounted file systems: stat/{statfs,fstatfs,getfsstat}.c

    The mount table is read from /proc/self/mounts line by line; statfs and
    fstatfs look for the mount point a path belongs to. *)
From S2P Require Import Prelude Abi Linux Errno Base Simple Readline Vchroot VchrootProofs Fcntl Paths.

Record bsd_statfs64 := BsdStatfs64 {
  f_bsize : Z; f_iosize : Z; f_blocks : Z; f_bfree : Z; f_bavail : Z; f_files : Z; f_ffree : Z; f_fsid : Z;
  f_type : Z; f_flags : Z; f_fstypename : cstr; f_mntonname : cstr; f_mntfromname : cstr }.

Definition sizeof_bsd_statfs64 : Z := 2168.
Definition SPACE : ascii := " "%char.

(** The numeric fields; names and [f_iosize] are those of [old]. *)
Definition statfs_linux_to_bsd64 (l : linux_statfs64) (old : bsd_statfs64) : bsd_statfs64 :=
  BsdStatfs64 (u32 (lf_bsize l)) (f_iosize old) (s64 (lf_blocks l)) (s64 (lf_bfree l)) (s64 (lf_bavail l))
    (s64 (lf_files l)) (s64 (lf_ffree l)) (lf_fsid l) (u32 (lf_type l)) (u32 (lf_flags l))
    (f_fstypename old) (f_mntonname old) (f_mntfromname old).

Definition set_names (onname fstype from : cstr) (b : bsd_statfs64) : bsd_statfs64 :=
  BsdStatfs64 (f_bsize b) (f_iosize b) (f_blocks b) (f_bfree b) (f_bavail b) (f_files b) (f_ffree b) (f_fsid b)
    (f_type b) (f_flags b) fstype onname from.

Definition set_iosize (n : Z) (b : bsd_statfs64) : bsd_statfs64 :=
  BsdStatfs64 (f_bsize b) n (f_blocks b) (f_bfree b) (f_bavail b) (f_files b) (f_ffree b) (f_fsid b)
    (f_type b) (f_flags b) (f_fstypename b) (f_mntonname b) (f_mntfromname b).

(** ** Tokens *)

Fixpoint skip_spaces (s : cstr) : cstr :=
  match s with
  | c :: r => if ascii_dec c SPACE then skip_spaces r else s
  | [] => []
  end.

Fixpoint until_space (s : cstr) : cstr * cstr :=
  match s with
  | [] => ([], [])
  | c :: r => if ascii_dec c SPACE then ([], r) else let '(t, e) := until_space r in (c :: t, e)
  end.

(** [strtok_r(_, " ", &saveptr)]: the next token and what follows it. *)
Definition strtok_r (s : cstr) : option (cstr * cstr) :=
  match skip_spaces s with [] => None | s => Some (until_space s) end.

Definition strlcpy (src : cstr) (size : Z) : cstr := ztake (size - 1) src.

(** ** Looking for a mount point *)

(** The variables of the loop: [max_len] and the three names. *)
Record mount_st := MountSt { mt_max_len : Z; mt_on : cstr; mt_type : cstr; mt_from : cstr }.

(** The body of the loop for one line. *)
Definition mount_step (path : cstr) (st : mount_st) (line : cstr) : mount_st :=
  match strtok_r line with
  | None => st
  | Some (mntfrom, rest) =>
    match strtok_r rest with
    | None => st
    | Some (p, rest) =>
      let len := strlen p in
      if negb (strneq p path (length p)) || (len <? mt_max_len st) then st
      else
        let st := MountSt len (strlcpy p 1024) (mt_type st) (mt_from st) in
        match strtok_r rest with
        | None => st
        | Some (fstype, _) => MountSt len (mt_on st) (strlcpy fstype 16) (strlcpy mntfrom 1024)
        end
    end
  end.

Definition find_mount (path : cstr) (lines : list cstr) : mount_st :=
  foldl (mount_step path) (MountSt 0 [] [] []) lines.

Section Statfs.
Context `{LoopFuel, IcaseEnabled}.

(** Contents of a local buffer before it is filled. *)
Variable uninit : simple_readline_buf.

Definition sys_statfs64 (path : cstr) (buf : bsd_statfs64) : M (Z * bsd_statfs64) :=
  wd ← get_perthread_wd;
  expanding (λ e, (e, buf)) false wd path (λ _ path,
    '(ret, lbuf) ← syscall_int_out __NR_statfs [AStr path] OStatfs;
    if ret <? 0 then mret (errno_linux_to_bsd ret, buf)
    else
      let buf := statfs_linux_to_bsd64 lbuf buf in
      fd ← sys_open (Some (s2c "/proc/self/mounts")) BSD_O_RDONLY 0;
      if fd <? 0 then mret (fd, buf)
      else
        lines ← simple_read_lines loop_fuel fd (__simple_readline_init uninit) 512;
        let st := find_mount path lines in
        close_internal fd;;
        mret (0, set_names (mt_on st) (mt_type st) (mt_from st) buf)).

Definition sys_statfs (path : cstr) (buf : bsd_statfs64) : M (Z * bsd_statfs64) := sys_statfs64 path buf.

(** The path that is looked up is the one the application sees; the mount
    table holds paths of the host.  The error of [fdpath] is passed on
    untranslated. *)
Definition sys_fstatfs64 (fd : Z) (buf : bsd_statfs64) : M (Z * bsd_statfs64) :=
  '(ret, lbuf) ← syscall_int_out __NR_fstatfs [AInt fd] OStatfs;
  if ret <? 0 then mret (errno_linux_to_bsd ret, buf)
  else
    let buf := statfs_linux_to_bsd64 lbuf buf in
    '(ret, path) ← fdpath fd 1024;
    if ret <? 0 then mret (ret, buf)
    else
      fd_m ← sys_open (Some (s2c "/proc/self/mounts")) BSD_O_RDONLY 0;
      if fd_m <? 0 then mret (fd_m, buf)
      else
        lines ← simple_read_lines loop_fuel fd_m (__simple_readline_init uninit) 512;
        let st := find_mount (default [] path) lines in
        close_internal fd_m;;
        mret (0, set_names (mt_on st) (mt_type st) (mt_from st) (set_iosize 512 buf)).

Definition sys_fstatfs (fd : Z) (buf : bsd_statfs64) : M (Z * bsd_statfs64) := sys_fstatfs64 fd buf.

(** ** All mounts *)

(** One entry of the caller's array; [None] when the line or the mount point
    is skipped. *)
Definition mount_entry (line : cstr) (old : bsd_statfs64) : M (option bsd_statfs64) :=
  match strtok_r line with
  | None => mret None
  | Some (from, rest) =>
    match strtok_r rest with
    | None => mret None
    | Some (onname, rest) =>
      match strtok_r rest with
      | None => mret None
      | Some (fstype, _) =>
        let b := set_names (strlcpy onname 1024) (strlcpy fstype 16) (strlcpy from 1024) old in
        '(ret, lbuf) ← LINUX_SYSCALL_out __NR_statfs [AStr (f_mntonname b)] OStatfs;
        mret (if ret <? 0 then None else Some (statfs_linux_to_bsd64 lbuf b))
      end
    end
  end.

(** The loop over the lines; [buf] tells whether there is an array, [acc] are
    the entries filled in so far. *)
Fixpoint getfsstat_loop (fuel : nat) (fd : Z) (b : simple_readline_buf) (buf : option bsd_statfs64) (bufsize : Z)
    (count : Z) (acc : list bsd_statfs64) : M (Z * list bsd_statfs64) :=
  match fuel with
  | O => out_of_fuel
  | S fuel =>
    '(r, b) ← __simple_readline fd b 512;
    match r with
    | RL_undefined => undefined
    | RL_null => mret (count, acc)
    | RL_line line =>
      match buf with
      | None => getfsstat_loop fuel fd b buf bufsize (count + 1) acc
      | Some old =>
        if u64 bufsize <? sizeof_bsd_statfs64 * (count + 1) then mret (count, acc)
        else
          e ← mount_entry line old;
          match e with
          | None => getfsstat_loop fuel fd b buf bufsize count acc
          | Some e => getfsstat_loop fuel fd b buf bufsize (count + 1) (acc ++ [e])
          end
      end
    end
  end.

Definition sys_getfsstat64 (buf : option bsd_statfs64) (bufsize flags : Z) : M (Z * list bsd_statfs64) :=
  fd ← sys_open (Some (s2c "/proc/self/mounts")) BSD_O_RDONLY 0;
  if fd <? 0 then mret (errno_linux_to_bsd fd, [])
  else
    '(count, entries) ← getfsstat_loop loop_fuel fd (__simple_readline_init uninit) buf bufsize 0 [];
    close_internal fd;;
    mret (count, entries).

Definition sys_getfsstat (buf : option bsd_statfs64) (bufsize flags : Z) : M (Z * list bsd_statfs64) :=
  sys_getfsstat64 buf bufsize flags.
End Statfs.

(** ** Theorems *)

(** A line of the table: what is mounted, where, and the type. *)
Record mount := Mount { m_from : cstr; m_on : cstr; m_type : cstr }.

Definition word (s : cstr) : Prop := s ≠ [] ∧ SPACE ∉ s.
Definition mount_wf (m : mount) : Prop := word (m_from m) ∧ word (m_on m) ∧ word (m_type m).

(** The line of a mount; options and the two numbers follow. *)
Definition mount_line (m : mount) (opts : cstr) : cstr :=
  m_from m ++ SPACE :: m_on m ++ SPACE :: m_type m ++ SPACE :: opts.

Lemma until_space_word w r : SPACE ∉ w -> until_space (w ++ SPACE :: r) = (w, r).
Proof.
  induction w as [|c w IH]; simpl; intros Hw; [done|]. destruct ascii_dec; [set_solver|]. rewrite IH by set_solver. done.
Qed.

Lemma strtok_word w r : word w -> strtok_r (w ++ SPACE :: r) = Some (w, r).
Proof.
  intros [Hne Hw]. unfold strtok_r. destruct w as [|c w]; [done|]. simpl.
  destruct (ascii_dec c SPACE) as [->|Hc]; [set_solver|]. cbn [until_space]. destruct (ascii_dec c SPACE); [done|].
  by rewrite until_space_word by set_solver.
Qed.

(** What a mount contributes. *)
Definition mount_found (m : mount) : mount_st :=
  MountSt (strlen (m_on m)) (strlcpy (m_on m) 1024) (strlcpy (m_type m) 16) (strlcpy (m_from m) 1024).

Lemma mount_step_line path st m opts :
  mount_wf m ->
  mount_step path st (mount_line m opts) =
  if decide (m_on m `prefix_of` path) then if strlen (m_on m) <? mt_max_len st then st else mount_found m else st.
Proof.
  intros (Hf & Ho & Ht). unfold mount_step, mount_line. rewrite !strtok_word by done.
  assert (strneq (m_on m) path (length (m_on m)) = bool_decide (m_on m `prefix_of` path)) as ->.
  { apply eq_true_iff_eq. rewrite bool_decide_eq_true, <- strneq_prefix. unfold strneq. rewrite !streq_true. naive_solver. }
  destruct (decide (m_on m `prefix_of` path)) as [Hp|Hp].
  - rewrite bool_decide_true by done. simpl. by destruct (_ <? _).
  - by rewrite bool_decide_false.
Qed.

(** Statfs(2) reports the longest matching mount.  For a mount table of
    well-formed lines, the reported mount point is that of some entry whose
    mount point is a string prefix of the path, no matching entry is longer,
    and the reported type and device are those of the same entry; without a
    matching entry all three names are empty. *)
Theorem find_mount_longest path (ms : list (mount * cstr)) :
  Forall (λ e, mount_wf e.1) ms ->
  let st := find_mount path ((λ e, mount_line e.1 e.2) <$> ms) in
  (st = MountSt 0 [] [] [] ∧ ∀ m o, (m, o) ∈ ms -> ¬ m_on m `prefix_of` path) ∨
  (∃ m o, (m, o) ∈ ms ∧ m_on m `prefix_of` path ∧ st = mount_found m ∧
    ∀ m' o', (m', o') ∈ ms -> m_on m' `prefix_of` path -> strlen (m_on m') <= strlen (m_on m)).
Proof.
  intros Hwf. unfold find_mount. induction ms as [|[m o] ms IH] using rev_ind; [left; split; [done|]; set_solver|].
  apply Forall_app in Hwf as [Hwf Hm]. rewrite Forall_singleton in Hm. simpl in Hm. specialize (IH Hwf).
  cbv zeta. rewrite fmap_app, foldl_app. cbn [fmap list_fmap foldl fst snd]. rewrite mount_step_line by done.
  cbv zeta in IH. set (st := foldl _ _ _) in *.
  destruct (decide (m_on m `prefix_of` path)) as [Hp|Hp].
  - right. destruct (Z.ltb_spec (strlen (m_on m)) (mt_max_len st)) as [Hlt|Hge].
    + destruct IH as [[Hst _]|(m0 & o0 & Hin & Hp0 & Hst & Hmax)].
      { rewrite Hst in Hlt. simpl in Hlt. pose proof (strlen_nonneg (m_on m)). lia. }
      exists m0, o0. split; [set_solver|]. split; [done|]. split; [done|].
      rewrite Hst in Hlt. simpl in Hlt. intros m' o' [Hin'|Hin']%elem_of_app Hp'; [by apply (Hmax _ o')|].
      apply list_elem_of_singleton in Hin'. simplify_eq. lia.
    + exists m, o. split; [set_solver|]. split; [done|]. split; [done|].
      intros m' o' [Hin'|Hin']%elem_of_app Hp'; [|apply list_elem_of_singleton in Hin'; by simplify_eq].
      destruct IH as [[_ Hnone]|(m0 & o0 & Hin & Hp0 & Hst & Hmax)]; [by destruct (Hnone _ _ Hin')|].
      rewrite Hst in Hge. simpl in Hge. specialize (Hmax _ _ Hin' Hp'). lia.
  - destruct IH as [[Hst Hnone]|(m0 & o0 & Hin & Hp0 & Hst & Hmax)].
    + left. split; [done|]. intros m' o' [Hin'|Hin']%elem_of_app; [by apply (Hnone _ o')|].
      apply list_elem_of_singleton in Hin'. by simplify_eq.
    + right. exists m0, o0. split; [set_solver|]. split; [done|]. split; [done|].
      intros m' o' [Hin'|Hin']%elem_of_app Hp'; [by apply (Hmax _ o')|]. apply list_elem_of_singleton in Hin'. by simplify_eq.
Qed.

Definition root_mount : mount := Mount (s2c "/dev/sda1") (s2c "/") (s2c "ext4").
Definition tmp_mount : mount := Mount (s2c "tmpfs") (s2c "/p/tmp") (s2c "tmpfs").
Definition example_mounts : list (mount * cstr) := [(tmp_mount, s2c "rw 0 0"); (root_mount, s2c "rw 0 0")].

Lemma word_check s : s ≠ [] -> index_of SPACE s = None -> word s.
Proof. intros ? ?. split; [done|]. by apply index_of_None. Qed.

Lemma example_mounts_wf : Forall (λ e, mount_wf e.1) example_mounts.
Proof. repeat apply Forall_cons_2; [..|apply Forall_nil_2]; (split; [|split]); by apply word_check. Qed.

Lemma find_mount_longest_witness :
  ∃ m o, (m, o) ∈ example_mounts ∧ m_on m `prefix_of` s2c "/p/tmp/x" ∧
    find_mount (s2c "/p/tmp/x") ((λ e, mount_line e.1 e.2) <$> example_mounts) = mount_found m.
Proof.
  destruct (find_mount_longest (s2c "/p/tmp/x") example_mounts example_mounts_wf) as [[_ Hnone]|(m & o & H1 & H2 & H3 & _)].
  - exfalso. apply (Hnone root_mount (s2c "rw 0 0")); [right; left|by eexists].
  - exists m, o. split; [exact H1|]. split; [exact H2|exact H3].
Defined.

(** The match is textual: a mount point is reported for a path that only
    shares its first characters. *)
Theorem find_mount_no_boundary :
  find_mount (s2c "/home2/x") [mount_line (Mount (s2c "/dev/sdb1") (s2c "/home") (s2c "xfs")) (s2c "rw 0 0")] =
  MountSt 5 (s2c "/home") (s2c "xfs") (s2c "/dev/sdb1").
Proof. by vm_compute. Qed.

Lemma mount_entry_wp line old g (Q : option bsd_statfs64 -> gstate -> Prop) :
  (∀ e, Q e g) -> wp reads_host (mount_entry line old) g Q.
Proof.
  intros HQ. unfold mount_entry. destruct (strtok_r line) as [[from r1]|]; [|by wp_step].
  destruct (strtok_r r1) as [[onname r2]|]; [|by wp_step]. destruct (strtok_r r2) as [[fstype r3]|]; [|by wp_step].
  wp_step. wp_step; [done|]. intros [ret lbuf] _. by wp_step.
Qed.

(** Getfsstat(2) never writes past the caller's array: the entries it
    fills in fit in [bufsize] bytes, and the result is their number. *)
Theorem getfsstat_bounds `{LoopFuel} fuel fd b old bufsize g :
  rl_wf b -> g_uses_threads g = false -> 0 <= bufsize <= INT_MAX ->
  wp reads_host (getfsstat_loop fuel fd b (Some old) bufsize 0 []) g
    (λ r g', r.1 = Z.of_nat (length r.2) ∧ sizeof_bsd_statfs64 * Z.of_nat (length r.2) <= bufsize).
Proof.
  intros Hwf Hg Hb.
  assert (∀ fuel b acc, rl_wf b -> sizeof_bsd_statfs64 * Z.of_nat (length acc) <= bufsize ->
    wp reads_host (getfsstat_loop fuel fd b (Some old) bufsize (Z.of_nat (length acc)) acc) g
    (λ r g', r.1 = Z.of_nat (length r.2) ∧ sizeof_bsd_statfs64 * Z.of_nat (length r.2) <= bufsize)) as Hgen;
    [|apply (Hgen fuel b []); [done|simpl; lia]].
  clear fuel b Hwf. induction fuel as [|fuel IH]; intros b acc Hwf Hacc; [done|]. cbn [getfsstat_loop].
  wp_step. eapply wp_mono; [by apply simple_readline_wp|]. intros [r b'] g' (-> & Hwf' & Hr). simpl in Hwf', Hr.
  destruct r as [|line|]; [by wp_step| |done]. rewrite u64_id by (unfold INT_MAX in *; lia).
  destruct (Z.ltb_spec bufsize (sizeof_bsd_statfs64 * (Z.of_nat (length acc) + 1))); [by wp_step|].
  wp_step. apply mount_entry_wp. intros [e|]; [|by apply IH].
  replace (Z.of_nat (length acc) + 1) with (Z.of_nat (length (acc ++ [e]))) by (rewrite length_app; simpl; lia).
  apply IH; [done|]. rewrite length_app. simpl. lia.
Qed.

Lemma getfsstat_bounds_witness :
  wp reads_host (@getfsstat_loop 9%nat 9 3 (SimpleReadlineBuf (replicate 512 NUL) 0)
     (Some (BsdStatfs64 0 0 0 0 0 0 0 0 0 0 [] [] [])) 5000 0 []) init_gstate
    (λ r _, r.1 = Z.of_nat (length r.2) ∧ sizeof_bsd_statfs64 * Z.of_nat (length r.2) <= 5000).
Proof. apply (@getfsstat_bounds 9%nat 9 3); by vm_compute. Defined.
