(* ===== verification/Dirent.v ===== *)
(** * dirent/getdirentries.c: directory entries

    One getdents64 batch is converted to Darwin's directory entries, in
    either of its two layouts. *)
From S2P Require Import Prelude Abi Linux Errno Base.

Definition sizeof_linux_dirent64 : Z := 24.
Definition sizeof_bsd_dirent : Z := 8.
Definition sizeof_bsd_dirent64 : Z := 24.

Definition ALIGN (x a : Z) : Z := Z.land (x + (a - 1)) (Z.lnot (a - 1)).
Definition BSD_DIRENT_MIN_SIZE : Z := ALIGN (sizeof_bsd_dirent + 2) 4.
Definition BSD_DIRENT64_MIN_SIZE : Z := ALIGN (sizeof_bsd_dirent64 + 2) 4.
Definition LINUX_DIRENT64_MIN_SIZE : Z := ALIGN (sizeof_linux_dirent64 + 2) 8.

(** Both Darwin layouts; [bd_seekoff] is absent in the old one. *)
Record bsd_dirent := BsdDirent {
  bd_ino : Z; bd_seekoff : Z; bd_reclen : Z; bd_namlen : Z; bd_type : Z; bd_name : cstr }.

(** On an [unsigned short]. *)
Definition round_to_4 (reclen : Z) : Z :=
  if has reclen 3 then u16 (u16 (u16 (reclen + 3) / 4) * 4) else reclen.

Definition to_bsd (l : linux_dirent64) : bsd_dirent :=
  let slen := strlen (ld_name l) in
  BsdDirent (u32 (ld_ino l)) 0 (round_to_4 (u16 (sizeof_bsd_dirent + slen + 1))) (u8 slen) (ld_type l) (ld_name l).

Definition to_bsd64 (l : linux_dirent64) : bsd_dirent :=
  let slen := strlen (ld_name l) in
  BsdDirent (ld_ino l) 0 (round_to_4 (u16 (sizeof_bsd_dirent64 + slen + 1))) (u16 slen) (ld_type l) (ld_name l).

(** The loop: the final [opos] and the entries stored.  [des] are the entries
    in the kernel's buffer from position [bpos] on; [None] is a read past the
    last of them. *)
Fixpoint convert_loop (hdr : Z) (conv : linux_dirent64 -> bsd_dirent) (des : list linux_dirent64)
    (bpos ret opos len : Z) : option (Z * list bsd_dirent) :=
  if (bpos <? ret) && (u32 opos <? len) then
    match des with
    | [] => None
    | de :: des =>
      let slen := strlen (ld_name de) in
      if u32 (len - opos) <? hdr + slen + 1 then Some (opos, [])
      else
        let b := conv de in
        '(opos, out) ← convert_loop hdr conv des (bpos + ld_reclen de) ret (opos + bd_reclen b) len;
        Some (opos, b :: out)
    end
  else Some (opos, []).

(** The size of the kernel buffer for an output buffer of [len] bytes. *)
Definition batch_size (min_size len : Z) : Z :=
  let max_entry_count := len / min_size in
  let max_entry_count := if 20 <? max_entry_count then 20 else max_entry_count in
  max_entry_count * LINUX_DIRENT64_MIN_SIZE.

Definition getdirentries_with (min_size hdr : Z) (conv : linux_dirent64 -> bsd_dirent) (fd len : Z)
    : M (Z * list bsd_dirent) :=
  let size := batch_size min_size len in
  '(ret, des) ← syscall_int_out __NR_getdents64 [AInt fd; AInt size] (ODirents size);
  if ret <? 0 then mret (errno_linux_to_bsd ret, [])
  else match convert_loop hdr conv des 0 ret 0 len with Some r => mret r | None => undefined end.

Definition sys_getdirentries : Z -> Z -> M (Z * list bsd_dirent) :=
  getdirentries_with BSD_DIRENT_MIN_SIZE sizeof_bsd_dirent to_bsd.
Definition sys_getdirentries64 : Z -> Z -> M (Z * list bsd_dirent) :=
  getdirentries_with BSD_DIRENT64_MIN_SIZE sizeof_bsd_dirent64 to_bsd64.

(** ** The kernel's side *)

(** An entry as getdents64(2) stores it: 19 bytes of header, the name and its
    terminator, padded to eight bytes. *)
Definition linux_reclen (l : linux_dirent64) : Z := (19 + strlen (ld_name l) + 1 + 7) / 8 * 8.

Definition linux_entry_ok (l : linux_dirent64) : Prop :=
  ld_reclen l = linux_reclen l ∧ 1 <= strlen (ld_name l) <= 255.

Definition sum_reclen (des : list linux_dirent64) : Z := foldr (λ d acc, ld_reclen d + acc) 0 des.
Definition sum_bsd (out : list bsd_dirent) : Z := foldr (λ d acc, bd_reclen d + acc) 0 out.

(** An error, or whole entries that fit the buffer. *)
Definition getdents_result (size : Z) (r : Z * list linux_dirent64) : Prop :=
  INT_MIN <= r.1 < 0 ∨ (r.1 = sum_reclen r.2 ∧ r.1 <= size ∧ Forall linux_entry_ok r.2).

(** The kernel answers with [ans]. *)
Definition dirent_host (ans : Z * list linux_dirent64) : protocol := Protocol
  (λ X e, match e with SysOut nr _ _ => nr = __NR_getdents64 | _ => False end)
  (λ X e,
    match e in linuxE X return X -> Prop with
    | SysOut _ _ o => match o in outk Y return Z * Y -> Prop with ODirents n => λ r, r = ans | _ => λ _, True end
    | _ => λ _, True
    end)
  False.

(** ** Lemmas *)

Lemma round_to_4_spec n :
  0 <= n < 60000 -> round_to_4 n = (n + 3) / 4 * 4.
Proof.
  intros Hn. unfold round_to_4, has. change 3 with (Z.ones 2) at 1. rewrite Z.land_ones by lia. change (2 ^ 2) with 4.
  pose proof (Z.mod_pos_bound n 4). pose proof (Z.div_mod n 4).
  destruct (Z.eqb_spec (n mod 4) 0) as [Hz|Hz]; simpl.
  - replace (n + 3) with (n / 4 * 4 + 3) by lia. rewrite Z.div_add_l by lia. change (3 / 4) with 0. lia.
  - pose proof (Z.div_pos (n + 3) 4). assert ((n + 3) / 4 <= 15001) by (apply Z.div_le_upper_bound; lia).
    rewrite (u16_id (n + 3)), (u16_id ((n + 3) / 4)), u16_id by lia. done.
Qed.

Lemma batch_size_range min_size len :
  0 < min_size -> 0 <= len -> 0 <= batch_size min_size len <= 640.
Proof.
  intros Hm Hl. unfold batch_size. change LINUX_DIRENT64_MIN_SIZE with 32. pose proof (Z.div_pos len min_size).
  destruct (Z.ltb_spec 20 (len / min_size)); lia.
Qed.

(** What the two layouts have in common. *)
Record layout (hdr : Z) (conv : linux_dirent64 -> bsd_dirent) : Prop := {
  lay_hdr : 0 <= hdr <= 24;
  lay_reclen : ∀ l, 1 <= strlen (ld_name l) <= 255 ->
    bd_reclen (conv l) = (hdr + strlen (ld_name l) + 1 + 3) / 4 * 4;
  lay_name : ∀ l, bd_name (conv l) = ld_name l ∧ bd_type (conv l) = ld_type l }.

Lemma layout_old : layout sizeof_bsd_dirent to_bsd.
Proof.
  split; [by vm_compute| |done]. intros l Hl. simpl. unfold sizeof_bsd_dirent.
  rewrite u16_id, round_to_4_spec by lia. done.
Qed.

Lemma layout_64 : layout sizeof_bsd_dirent64 to_bsd64.
Proof.
  split; [by vm_compute| |done]. intros l Hl. simpl. unfold sizeof_bsd_dirent64.
  rewrite u16_id, round_to_4_spec by lia. done.
Qed.

Section Layout.
Context (hdr : Z) (conv : linux_dirent64 -> bsd_dirent).
Hypothesis Hlay : layout hdr conv.

Lemma reclen_bounds l :
  linux_entry_ok l ->
  hdr + strlen (ld_name l) + 1 <= bd_reclen (conv l) <= hdr + strlen (ld_name l) + 4 ∧
  (4 | bd_reclen (conv l)) ∧ 3 * bd_reclen (conv l) <= 4 * ld_reclen l ∧ 24 <= ld_reclen l.
Proof.
  intros [Hr Hn]. destruct Hlay as [Hh Hrec _]. rewrite Hrec by done. rewrite Hr. unfold linux_reclen.
  set (s := strlen (ld_name l)) in *. pose proof (Z.div_mod (hdr + s + 1 + 3) 4). pose proof (Z.mod_pos_bound (hdr + s + 1 + 3) 4).
  pose proof (Z.div_mod (19 + s + 1 + 7) 8). pose proof (Z.mod_pos_bound (19 + s + 1 + 7) 8).
  split; [lia|]. split; [by exists ((hdr + s + 1 + 3) / 4)|]. lia.
Qed.

(** The name and its terminator of every entry end inside the buffer. *)
Fixpoint entries_fit (out : list bsd_dirent) (pos len : Z) : Prop :=
  match out with
  | [] => True
  | b :: out => pos + hdr + strlen (bd_name b) + 1 <= len ∧ entries_fit out (pos + bd_reclen b) len
  end.

Lemma convert_loop_spec des ret bpos opos len :
  Forall linux_entry_ok des -> ret = bpos + sum_reclen des -> 0 <= opos <= len + 3 -> len < 2 ^ 31 - 1000 ->
  ∃ out, convert_loop hdr conv des bpos ret opos len = Some (opos + sum_bsd out, out) ∧
    out `prefix_of` (conv <$> des) ∧ entries_fit out opos len ∧ opos + sum_bsd out <= len + 3 ∧
    (3 * (len - opos) >= 4 * sum_reclen des -> out = conv <$> des).
Proof.
  intros Hok. revert bpos opos. induction Hok as [|de des Hde Hdes IH]; intros bpos opos Hret Hopos Hlen; simpl in *.
  - exists []. destruct (Z.ltb_spec bpos ret); [lia|]. simpl. rewrite Z.add_0_r. repeat split; [by exists []|lia].
  - destruct (reclen_bounds de Hde) as (Hb & Hdiv & H43 & H24).
    assert (0 <= sum_reclen des) as Hnn.
    { clear -Hdes. induction Hdes as [|d ds Hd _ IH]; simpl; [lia|]. destruct Hd as [Hd ?]. rewrite Hd. unfold linux_reclen.
      pose proof (Z.div_pos (19 + strlen (ld_name d) + 1 + 7) 8). lia. }
    rewrite u32_id by lia. destruct (Z.ltb_spec bpos ret); [|lia]. destruct Hlay as [Hh Hrec Hname].
    pose proof (strlen_nonneg (ld_name de)).
    destruct (Z.ltb_spec opos len) as [Hlt|Hge]; simpl.
    + rewrite u32_id by lia. destruct (Z.ltb_spec (len - opos) (hdr + strlen (ld_name de) + 1)) as [Hbreak|Hfit].
      * exists []. simpl. rewrite Z.add_0_r. split; [done|]. split; [apply prefix_nil|]. split; [done|]. split; [lia|]. lia.
      * destruct (IH (bpos + ld_reclen de) (opos + bd_reclen (conv de))) as (out & -> & Hpre & Hfits & Hle & Hall);
          [lia|lia|done|]. simpl. exists (conv de :: out). simpl. split; [f_equal; f_equal; lia|].
        split; [by apply prefix_cons|]. split; [split; [rewrite (proj1 (Hname de)); lia|done]|]. split; [lia|].
        intros Hbig. f_equal. apply Hall. lia.
    + exists []. simpl. rewrite Z.add_0_r. split; [done|]. split; [apply prefix_nil|]. split; [done|]. split; [lia|]. lia.
Qed.
End Layout.

(** ** Properties *)

Lemma sum_reclen_nonneg des : Forall linux_entry_ok des -> 0 <= sum_reclen des.
Proof.
  induction 1 as [|d ds [Hd Hn] _ IH]; simpl; [lia|]. rewrite Hd. unfold linux_reclen.
  pose proof (Z.div_pos (19 + strlen (ld_name d) + 1 + 7) 8). lia.
Qed.

Lemma getdirentries_wp min_size hdr conv ans fd len g :
  layout hdr conv -> 0 < min_size -> 0 <= len < 2 ^ 31 - 1000 -> getdents_result (batch_size min_size len) ans ->
  wp (dirent_host ans) (getdirentries_with min_size hdr conv fd len) g
    (λ r g', g' = g ∧
      if ans.1 <? 0 then r = (errno_linux_to_bsd ans.1, [])
      else r.2 `prefix_of` (conv <$> ans.2) ∧ r.1 = sum_bsd r.2 ∧ entries_fit hdr r.2 0 len ∧
           (854 <= len -> r.2 = conv <$> ans.2)).
Proof.
  intros Hlay Hm Hlen Hans. unfold getdirentries_with. pose proof (batch_size_range min_size len Hm ltac:(lia)) as Hbs.
  wp_step. apply wp_syscall_int_out; [done|]. intros r des Hres. cbn in Hres. subst ans. cbn [fst snd] in *.
  destruct Hans as [Hneg|(Heq & Hle & Hok)]; cbn [fst snd] in *.
  - rewrite s32_id by (unfold INT_MIN, INT_MAX in *; lia). destruct (Z.ltb_spec r 0); [|lia]. wp_step. done.
  - pose proof (sum_reclen_nonneg des Hok).
    rewrite s32_id by (unfold INT_MIN, INT_MAX in *; lia). destruct (Z.ltb_spec r 0); [lia|].
    destruct (convert_loop_spec hdr conv Hlay des r 0 0 len) as (out & -> & Hpre & Hfits & Hb & Hall); [done|lia|lia|lia|].
    wp_step. split; [done|]. simpl. split; [done|]. split; [lia|]. split; [done|]. intros ?. apply Hall. lia.
Qed.

(** C40: getdirentries64, the layout with 64-bit inode numbers, stays inside the
    caller's buffer.  Whatever entries the kernel returns, an error is passed
    on translated; otherwise the caller gets a prefix of the kernel's entries
    in order, the bytes of every entry lie within [len], and the record
    lengths are multiples of four that add up to the result, which with the
    padding of the last entry may exceed [len] by up to 3. *)
Theorem getdirentries_bounds ans fd len g :
  0 <= len < 2 ^ 31 - 1000 -> getdents_result (batch_size BSD_DIRENT64_MIN_SIZE len) ans ->
  wp (dirent_host ans) (sys_getdirentries64 fd len) g
    (λ r g',
      if ans.1 <? 0 then r = (errno_linux_to_bsd ans.1, [])
      else bd_name <$> r.2 `prefix_of` ld_name <$> ans.2 ∧
           r.1 = sum_bsd r.2 ∧ entries_fit sizeof_bsd_dirent64 r.2 0 len ∧
           Forall (λ b, (4 | bd_reclen b) ∧ strlen (bd_name b) = bd_namlen b) r.2).
Proof.
  intros Hlen Hans. eapply wp_mono; [by apply getdirentries_wp; [apply layout_64|by vm_compute|..]|].
  intros [rv out] g' [_ Hr]. destruct (Z.ltb_spec ans.1 0) as [|Hpos]; [done|]. cbn [fst snd] in *.
  destruct Hr as (Hpre & Hsum & Hfit & _). destruct Hans as [?|(_ & _ & Hok)]; [lia|]. destruct Hpre as [k Hk].
  split; [|split; [done|]; split; [done|]].
  - exists (bd_name <$> k). rewrite <- fmap_app, <- Hk, <- list_fmap_compose. done.
  - assert (Forall (λ b, (4 | bd_reclen b) ∧ strlen (bd_name b) = bd_namlen b) (to_bsd64 <$> ans.2)) as Hall.
    { apply Forall_fmap. eapply Forall_impl; [exact Hok|]. intros l Hl. simpl. split.
      - by destruct (reclen_bounds _ _ layout_64 l Hl) as (_ & ? & _).
      - destruct Hl as [_ Hl]. simpl. by rewrite u16_id by lia. }
    rewrite Hk in Hall. by apply Forall_app in Hall as [? _].
Qed.

(** A directory entry named [name]. *)
Definition entry (name : string) : linux_dirent64 :=
  LinuxDirent64 7 0 ((19 + strlen (s2c name) + 1 + 7) / 8 * 8) 8 (s2c name).

Definition three_entries : list linux_dirent64 := [entry "."; entry ".."; entry "a-longer-name"].

Lemma three_entries_ok size : 80 + 8 <= size -> getdents_result size (88, three_entries).
Proof. intros ?. right. split; [by vm_compute|]. split; [simpl; lia|]. repeat constructor; by vm_compute. Qed.

Lemma getdirentries_bounds_witness :
  wp (dirent_host (88, three_entries)) (sys_getdirentries64 3 100) init_gstate
    (λ r g', bd_name <$> r.2 `prefix_of` ld_name <$> three_entries ∧
           r.1 = sum_bsd r.2 ∧ entries_fit sizeof_bsd_dirent64 r.2 0 100 ∧
           Forall (λ b, (4 | bd_reclen b) ∧ strlen (bd_name b) = bd_namlen b) r.2).
Proof. apply (getdirentries_bounds (88, three_entries) 3 100); [by vm_compute|]. by apply three_entries_ok. Defined.

(** C22: no entry is lost with a buffer of at least 854 bytes: everything the
    kernel returned, and so consumed from the directory stream, is handed to
    the caller with its name, type and inode number (of which the old layout
    keeps 32 bits). *)
Theorem getdirentries_complete ans fd len g :
  854 <= len < 2 ^ 31 - 1000 -> 0 <= ans.1 ->
  getdents_result (batch_size BSD_DIRENT64_MIN_SIZE len) ans -> getdents_result (batch_size BSD_DIRENT_MIN_SIZE len) ans ->
  wp (dirent_host ans) (sys_getdirentries64 fd len) g
    (λ r g', r.1 = sum_bsd r.2 ∧ (λ b, (bd_name b, bd_type b, bd_ino b)) <$> r.2 =
                                 (λ l, (ld_name l, ld_type l, ld_ino l)) <$> ans.2) ∧
  wp (dirent_host ans) (sys_getdirentries fd len) g
    (λ r g', r.1 = sum_bsd r.2 ∧ (λ b, (bd_name b, bd_type b, bd_ino b)) <$> r.2 =
                                 (λ l, (ld_name l, ld_type l, u32 (ld_ino l))) <$> ans.2).
Proof.
  intros Hlen Hpos H64 Hold. split.
  - eapply wp_mono; [apply getdirentries_wp; [apply layout_64|by vm_compute|lia|done]|].
    intros [rv out] g' [_ Hr]. destruct (Z.ltb_spec ans.1 0); [lia|]. destruct Hr as (_ & Hsum & _ & Hall).
    split; [done|]. cbn [snd] in *. rewrite Hall by lia. by rewrite <- list_fmap_compose.
  - eapply wp_mono; [apply getdirentries_wp; [apply layout_old|by vm_compute|lia|done]|].
    intros [rv out] g' [_ Hr]. destruct (Z.ltb_spec ans.1 0); [lia|]. destruct Hr as (_ & Hsum & _ & Hall).
    split; [done|]. cbn [snd] in *. rewrite Hall by lia. by rewrite <- list_fmap_compose.
Qed.

Lemma getdirentries_complete_witness :
  wp (dirent_host (88, three_entries)) (sys_getdirentries64 3 1024) init_gstate
    (λ r g', r.1 = sum_bsd r.2 ∧ (λ b, (bd_name b, bd_type b, bd_ino b)) <$> r.2 =
                                 (λ l, (ld_name l, ld_type l, ld_ino l)) <$> three_entries).
Proof.
  apply (getdirentries_complete (88, three_entries) 3 1024); [by vm_compute|by vm_compute|by apply three_entries_ok|].
  by apply three_entries_ok.
Defined.

(** A directory with four entries of one character. *)
Definition four_entries : list linux_dirent64 :=
  (λ c, LinuxDirent64 7 0 24 8 [c]) <$> ["a"; "b"; "c"; "d"]%char.

Definition four_host : handler unit := λ X e s,
  (match e in linuxE X return X with
   | Sys _ _ => 0
   | SysOut _ _ o =>
     match o in outk Y return Z * Y with ODirents n => (sum_reclen four_entries, four_entries) | o => (0, zero_out o) end
   | Lkm c => (0, zero_lkm c)
   end, s).

(** With a small buffer entries are lost: four entries fit the 96 bytes the
    call asks the kernel for, but only three fit the caller's 84 bytes, and
    the fourth, already consumed, is dropped. *)
Theorem getdirentries_loses_entries :
  batch_size BSD_DIRENT64_MIN_SIZE 84 = sum_reclen four_entries ∧ Forall linux_entry_ok four_entries ∧
  run four_host (sys_getdirentries64 3 84) init_gstate tt =
    Some (84, to_bsd64 <$> take 3 four_entries, init_gstate, tt).
Proof. split; [by vm_compute|]. split; [repeat constructor; by vm_compute|by vm_compute]. Qed.
