(* ===== verification/Termios.v ===== *)
(** * ioctl/: dispatch, terminals, files and sockets

    ioctl.c, termios.c, filio.c and socket.c. *)
From S2P Require Import Prelude Abi Linux Errno Base Simple Vchroot.

(** ** Flag words, control characters and speeds of a terminal *)

Record bsd_termios := BsdTermios {
  c_iflag : Z; c_oflag : Z; c_cflag : Z; c_lflag : Z; c_cc : list Z; c_ispeed : Z; c_ospeed : Z }.

Definition iflag_l2b_tbl : list (Z * Z) := [
  (LINUX_IGNBRK, BSD_IGNBRK); (LINUX_BRKINT, BSD_BRKINT); (LINUX_IGNPAR, BSD_IGNPAR); (LINUX_PARMRK, BSD_PARMRK);
  (LINUX_INPCK, BSD_INPCK); (LINUX_ISTRIP, BSD_ISTRIP); (LINUX_INLCR, BSD_INLCR); (LINUX_IGNCR, BSD_IGNCR);
  (LINUX_ICRNL, BSD_ICRNL); (LINUX_IXON, BSD_IXON); (LINUX_IXANY, BSD_IXANY); (LINUX_IXOFF, BSD_IXOFF);
  (LINUX_IMAXBEL, BSD_IMAXBEL); (LINUX_IUTF8, BSD_IUTF8) ].
Definition iflag_linux_to_bsd (l : Z) : Z := translate iflag_l2b_tbl l.

Definition iflag_b2l_tbl : list (Z * Z) := [
  (BSD_IGNBRK, LINUX_IGNBRK); (BSD_BRKINT, LINUX_BRKINT); (BSD_IGNPAR, LINUX_IGNPAR); (BSD_PARMRK, LINUX_PARMRK);
  (BSD_INPCK, LINUX_INPCK); (BSD_ISTRIP, LINUX_ISTRIP); (BSD_INLCR, LINUX_INLCR); (BSD_IGNCR, LINUX_IGNCR);
  (BSD_ICRNL, LINUX_ICRNL); (BSD_IXON, LINUX_IXON); (BSD_IXOFF, LINUX_IXOFF); (BSD_IXANY, LINUX_IXANY);
  (BSD_IMAXBEL, LINUX_IMAXBEL); (BSD_IUTF8, LINUX_IUTF8) ].
Definition iflag_bsd_to_linux (b : Z) : Z := translate iflag_b2l_tbl b.

Definition oflag_linux_to_bsd (l : Z) : Z :=
  translate [(LINUX_OPOST, BSD_OPOST); (LINUX_ONLCR, BSD_ONLCR); (LINUX_XTABS, BSD_OXTABS)] l.
Definition oflag_bsd_to_linux (b : Z) : Z :=
  translate [(BSD_OPOST, LINUX_OPOST); (BSD_ONLCR, LINUX_ONLCR); (BSD_OXTABS, LINUX_XTABS)] b.

Definition cflag_l2b_tbl : list (Z * Z) := [
  (LINUX_CSIZE, BSD_CSIZE); (LINUX_CS6, BSD_CS6); (LINUX_CS7, BSD_CS7); (LINUX_CS8, BSD_CS8);
  (LINUX_CSTOPB, BSD_CSTOPB); (LINUX_CREAD, BSD_CREAD); (LINUX_PARENB, BSD_PARENB); (LINUX_PARODD, BSD_PARODD);
  (LINUX_HUPCL, BSD_HUPCL); (LINUX_CLOCAL, BSD_CLOCAL) ].
Definition cflag_linux_to_bsd (l : Z) : Z := translate cflag_l2b_tbl l.

Definition cflag_b2l_tbl : list (Z * Z) := [
  (BSD_CSIZE, LINUX_CSIZE); (BSD_CS6, LINUX_CS6); (BSD_CS7, LINUX_CS7); (BSD_CS8, LINUX_CS8);
  (BSD_CSTOPB, LINUX_CSTOPB); (BSD_CREAD, LINUX_CREAD); (BSD_PARENB, LINUX_PARENB); (BSD_PARODD, LINUX_PARODD);
  (BSD_HUPCL, LINUX_HUPCL); (BSD_CLOCAL, LINUX_CLOCAL) ].
Definition cflag_bsd_to_linux (b : Z) : Z := translate cflag_b2l_tbl b.

Definition lflag_l2b_tbl : list (Z * Z) := [
  (LINUX_ISIG, BSD_ISIG); (LINUX_ICANON, BSD_ICANON); (LINUX_ECHO, BSD_ECHO); (LINUX_ECHOE, BSD_ECHOE);
  (LINUX_ECHOKE, BSD_ECHOKE); (LINUX_ECHOK, BSD_ECHOK); (LINUX_ECHONL, BSD_ECHONL); (LINUX_NOFLSH, BSD_NOFLSH);
  (LINUX_TOSTOP, BSD_TOSTOP); (LINUX_ECHOCTL, BSD_ECHOCTL); (LINUX_ECHOPRT, BSD_ECHOPRT);
  (LINUX_FLUSHO, BSD_FLUSHO); (LINUX_PENDIN, BSD_PENDIN); (LINUX_IEXTEN, BSD_IEXTEN); (LINUX_EXTPROC, BSD_EXTPROC) ].
Definition lflag_linux_to_bsd (l : Z) : Z := translate lflag_l2b_tbl l.

Definition lflag_b2l_tbl : list (Z * Z) := [
  (BSD_ISIG, LINUX_ISIG); (BSD_ICANON, LINUX_ICANON); (BSD_ECHO, LINUX_ECHO); (BSD_ECHOE, LINUX_ECHOE);
  (BSD_ECHOKE, LINUX_ECHOKE); (BSD_ECHOK, LINUX_ECHOK); (BSD_ECHONL, LINUX_ECHONL); (BSD_NOFLSH, LINUX_NOFLSH);
  (BSD_TOSTOP, LINUX_TOSTOP); (BSD_ECHOCTL, LINUX_ECHOCTL); (BSD_ECHOPRT, LINUX_ECHOPRT);
  (BSD_FLUSHO, LINUX_FLUSHO); (BSD_PENDIN, LINUX_PENDIN); (BSD_IEXTEN, LINUX_IEXTEN); (BSD_EXTPROC, LINUX_EXTPROC) ].
Definition lflag_bsd_to_linux (b : Z) : Z := translate lflag_b2l_tbl b.

Definition c_l2b (c : Z) : Z := if c =? LINUX_POSIX_VDISABLE then BSD_POSIX_VDISABLE else c.
Definition c_b2l (c : Z) : Z := if c =? BSD_POSIX_VDISABLE then LINUX_POSIX_VDISABLE else c.

(** The slots of both arrays, [(BSD, Linux)]. *)
Definition cc_slots : list (Z * Z) := [
  (BSD_VEOF, LINUX_VEOF); (BSD_VEOL, LINUX_VEOL); (BSD_VEOL2, LINUX_VEOL2); (BSD_VERASE, LINUX_VERASE);
  (BSD_VWERASE, LINUX_VWERASE); (BSD_VKILL, LINUX_VKILL); (BSD_VREPRINT, LINUX_VREPRINT); (BSD_VINTR, LINUX_VINTR);
  (BSD_VQUIT, LINUX_VQUIT); (BSD_VSUSP, LINUX_VSUSP); (BSD_VSTART, LINUX_VSTART); (BSD_VSTOP, LINUX_VSTOP);
  (BSD_VLNEXT, LINUX_VLNEXT); (BSD_VDISCARD, LINUX_VDISCARD); (BSD_VMIN, LINUX_VMIN); (BSD_VTIME, LINUX_VTIME) ].

Definition cc_linux_to_bsd (l b : list Z) : list Z :=
  foldl (λ b s, zset b s.1 (c_l2b (zget l s.2))) b cc_slots.
Definition cc_bsd_to_linux (b l : list Z) : list Z :=
  foldl (λ l s, zset l s.2 (c_b2l (zget b s.1))) l cc_slots.

Definition speed_l2b_tbl : list (Z * Z) := [
  (LINUX_B0, BSD_B0); (LINUX_B50, BSD_B50); (LINUX_B75, BSD_B75); (LINUX_B110, BSD_B110); (LINUX_B134, BSD_B134);
  (LINUX_B150, BSD_B150); (LINUX_B200, BSD_B200); (LINUX_B300, BSD_B300); (LINUX_B600, BSD_B600);
  (LINUX_B1200, BSD_B1200); (LINUX_B1800, BSD_B1800); (LINUX_B2400, BSD_B2400); (LINUX_B4800, BSD_B4800);
  (LINUX_B9600, BSD_B9600); (LINUX_B19200, BSD_B19200); (LINUX_B38400, BSD_B38400); (LINUX_B57600, BSD_B57600);
  (LINUX_B115200, BSD_B115200); (LINUX_B230400, BSD_B230400) ].
Definition speed_linux_to_bsd (l : Z) : Z := switch speed_l2b_tbl 0 l.

Definition speed_b2l_tbl : list (Z * Z) := [
  (BSD_B0, LINUX_B0); (BSD_B50, LINUX_B50); (BSD_B75, LINUX_B75); (BSD_B110, LINUX_B110); (BSD_B134, LINUX_B134);
  (BSD_B150, LINUX_B150); (BSD_B200, LINUX_B200); (BSD_B300, LINUX_B300); (BSD_B600, LINUX_B600);
  (BSD_B1200, LINUX_B1200); (BSD_B1800, LINUX_B1800); (BSD_B2400, LINUX_B2400); (BSD_B4800, LINUX_B4800);
  (BSD_B7200, LINUX_B4800); (BSD_B28800, LINUX_B9600); (BSD_B14400, LINUX_B9600); (BSD_B9600, LINUX_B9600);
  (BSD_B19200, LINUX_B19200); (BSD_B38400, LINUX_B38400); (BSD_B76800, LINUX_B57600); (BSD_B57600, LINUX_B57600);
  (BSD_B115200, LINUX_B115200); (BSD_B230400, LINUX_B230400) ].
Definition speed_bsd_to_linux (b : Z) : Z := switch speed_b2l_tbl 0 b.

(** ** The old terminal interface *)

(** The members are [char]s. *)
Record sgttyb := Sgttyb { sg_ispeed : Z; sg_ospeed : Z; sg_erase : Z; sg_kill : Z; sg_flags : Z }.
Record tchars := Tchars { t_intrc : Z; t_quitc : Z; t_startc : Z; t_stopc : Z; t_eofc : Z; t_brkc : Z }.
Record ltchars := Ltchars {
  t_suspc : Z; t_dsuspc : Z; t_rprntc : Z; t_flushc : Z; t_werasc : Z; t_lnextc : Z }.

Definition s8 (z : Z) : Z := (z + 128) mod 256 - 128.

Definition sgflag_linux_to_bsd (t : linux_termios) : Z :=
  let f := if has (lt_lflag t) LINUX_ICANON then 0
           else if has (lt_lflag t) LINUX_ISIG then 0x2 else 0x20 in
  let f := if has (lt_lflag t) LINUX_ECHO then Z.lor f 0x8 else f in
  if has (lt_oflag t) LINUX_OPOST then if has (lt_oflag t) LINUX_ONLCR then Z.lor f 0x10 else f else f.

Definition set_tty (iflag oflag lflag : Z) (cc : list Z) (t : linux_termios) : linux_termios :=
  LinuxTermios iflag oflag (lt_cflag t) lflag (lt_line t) cc (lt_ispeed t) (lt_ospeed t).

Definition echo_bits : Z :=
  or_all [LINUX_ECHO; LINUX_ECHOE; LINUX_ECHOK; LINUX_ECHOCTL; LINUX_ECHOKE; LINUX_IEXTEN].

Definition sgflag_bsd_to_linux (f : Z) (t : linux_termios) : linux_termios :=
  let iflag := Z.lor LINUX_ICRNL LINUX_IXON in
  let lflag := Z.lor LINUX_ISIG LINUX_ICANON in
  let '(iflag, lflag) := if has f 0x02 then (0, Z.land lflag LINUX_ICANON) else (iflag, lflag) in
  let lflag := if has f 0x08 then Z.lor lflag echo_bits else lflag in
  let oflag := if has f 0x10 then Z.lor LINUX_OPOST LINUX_ONLCR else 0 in
  let '(iflag, lflag) :=
    if has f 0x20 then (0, Z.land lflag (Z.lnot (Z.lor LINUX_ISIG LINUX_ICANON))) else (iflag, lflag) in
  let cc := if has lflag LINUX_ICANON then lt_cc t else zset (zset (lt_cc t) LINUX_VMIN 1) LINUX_VTIME 0 in
  set_tty iflag oflag lflag cc t.

(** ** Handlers *)

(** What the argument pointer of an ioctl refers to. *)
Inductive ioctl_arg :=
| IRaw (p : Z)
| ITermios (t : bsd_termios)
| ISgttyb (s : sgttyb)
| ITchars (t : tchars)
| ILtchars (t : ltchars)
| IInt (z : Z).

(** What is stored through it by the emulation layer. *)
Inductive ioctl_out :=
| INone
| OutTermios (t : bsd_termios)
| OutSgttyb (s : sgttyb)
| OutTchars (t : tchars)
| OutLtchars (t : ltchars)
| OutInt (z : Z)
| OutStr (s : cstr).

(** [IOCTL_PASS], or [IOCTL_HANDLED] with [*retval]. *)
Inductive handled := Pass | Handled (retval : Z) (out : ioctl_out).

(** The pointer handed on to the kernel; a structure of another request is
    opaque data. *)
Definition raw_arg (a : ioctl_arg) : arg := match a with IRaw p => AInt p | IInt z => ACell z | _ => ABuf [] end.

(** [*retval = __real_ioctl(fd, req, a); return IOCTL_HANDLED;] *)
Definition simple_ioctl (fd req : Z) (a : arg) : M handled :=
  ret ← __real_ioctl fd req a; mret (Handled ret INone).

Definition get_termios (fd : Z) : M (Z * linux_termios) := __real_ioctl_out fd LINUX_TCGETS OTermios.

Definition termios_linux_to_bsd (i : linux_termios) : bsd_termios :=
  let mask := Z.lor LINUX_CBAUD LINUX_CBAUDEX in
  let '(isp, osp) :=
    if negb (has (lt_cflag i) mask) then (speed_linux_to_bsd (lt_ispeed i), speed_linux_to_bsd (lt_ospeed i))
    else (speed_linux_to_bsd (Z.land (lt_cflag i) mask), speed_linux_to_bsd (Z.land (lt_cflag i) mask)) in
  BsdTermios (iflag_linux_to_bsd (lt_iflag i)) (oflag_linux_to_bsd (lt_oflag i)) (cflag_linux_to_bsd (lt_cflag i))
    (lflag_linux_to_bsd (lt_lflag i)) (cc_linux_to_bsd (lt_cc i) (replicate 20 0)) isp osp.

Definition termios_bsd_to_linux (t : bsd_termios) : linux_termios :=
  LinuxTermios (iflag_bsd_to_linux (c_iflag t)) (oflag_bsd_to_linux (c_oflag t)) (cflag_bsd_to_linux (c_cflag t))
    (lflag_bsd_to_linux (c_lflag t)) 0 (cc_bsd_to_linux (c_cc t) (replicate 32 0))
    (speed_bsd_to_linux (c_ispeed t)) (speed_bsd_to_linux (c_ospeed t)).

Definition set_cc (cc : list Z) (t : linux_termios) : linux_termios :=
  set_tty (lt_iflag t) (lt_oflag t) (lt_lflag t) cc t.

Definition set_speeds (i o : Z) (t : linux_termios) : linux_termios :=
  LinuxTermios (lt_iflag t) (lt_oflag t) (lt_cflag t) (lt_lflag t) (lt_line t) (lt_cc t) i o.

Definition cc_of (t : linux_termios) (slot : Z) : Z := zget (lt_cc t) slot.

(** Assignments to slots of [out.c_cc], in order; the values are [char]s
    stored as [unsigned char]. *)
Definition store_cc (t : linux_termios) (l : list (Z * Z)) : linux_termios :=
  set_cc (foldl (λ cc s, zset cc s.1 (u8 s.2)) (lt_cc t) l) t.

(** Requests that only differ in their number. *)
Definition pass_tbl : list (Z * Z) := [
  (BSD_TIOCGWINSZ, LINUX_TIOCGWINSZ); (BSD_TIOCSWINSZ, LINUX_TIOCSWINSZ); (BSD_TIOCGPGRP, LINUX_TIOCGPGRP);
  (BSD_TIOCSPGRP, LINUX_TIOCSPGRP); (BSD_TIOCGETD, LINUX_TIOCGETD); (BSD_TIOCSETD, LINUX_TIOCSETD);
  (BSD_TIOCOUTQ, 0x5411); (BSD_TIOCSCTTY, LINUX_TIOCSCTTY) ].

(** Requests without an argument. *)
Definition null_tbl : list (Z * Z) := [
  (BSD_TIOCSTOP, LINUX_TIOCSTOP); (BSD_TIOCSTART, LINUX_TIOCSTART); (BSD_TIOCSBRK, LINUX_TIOCSBRK);
  (BSD_TIOCCBRK, LINUX_TIOCCBRK); (BSD_TIOCCONS, LINUX_TIOCCONS) ].

Definition flush_queue (z : Z) : option Z :=
  case_of [(BSD_FREAD, LINUX_TCIFLUSH); (BSD_FWRITE, LINUX_TCOFLUSH); (Z.lor BSD_FREAD BSD_FWRITE, LINUX_TCIOFLUSH)] z.

Definition handle_setattr (fd cmd : Z) (t : bsd_termios) : M handled :=
  let op := if cmd =? BSD_TIOCSETA then LINUX_TCSETS else if cmd =? BSD_TIOCSETAW then LINUX_TCSETSW else LINUX_TCSETSF in
  simple_ioctl fd op (ATermios (termios_bsd_to_linux t)).

Definition handle_setp (fd : Z) (s : sgttyb) : M handled :=
  '(_, t) ← get_termios fd;
  let t := set_speeds (speed_bsd_to_linux (u64 (s8 (sg_ispeed s)))) (speed_bsd_to_linux (u64 (s8 (sg_ospeed s)))) t in
  let t := store_cc t [(LINUX_VERASE, sg_erase s); (LINUX_VKILL, sg_kill s)] in
  simple_ioctl fd LINUX_TCSETS (ATermios (sgflag_bsd_to_linux (sg_flags s) t)).

Definition handle_ixon (fd cmd : Z) : M handled :=
  '(ret, t) ← get_termios fd;
  if ret <? 0 then mret (Handled ret INone)
  else
    let c := cc_of t (if cmd =? BSD_TIOCIXON then LINUX_VSTART else LINUX_VSTOP) in
    if c =? LINUX_POSIX_VDISABLE then mret (Handled 0 INone)
    else ret ← sys_write fd [byte_of c] 1; mret (Handled ret INone).

Definition handle_termios (fd cmd : Z) (a : ioctl_arg) : M handled :=
  let getting (f : linux_termios -> ioctl_out) : M handled :=
    '(ret, t) ← get_termios fd; mret (Handled ret (f t)) in
  let storing (l : list (Z * Z)) : M handled :=
    '(_, t) ← get_termios fd; simple_ioctl fd LINUX_TCSETS (ATermios (store_cc t l)) in
  if cmd =? BSD_TIOCGETA then getting (λ t, OutTermios (termios_linux_to_bsd t))
  else if (cmd =? BSD_TIOCSETA) || (cmd =? BSD_TIOCSETAW) || (cmd =? BSD_TIOCSETAF) then
    match a with ITermios t => handle_setattr fd cmd t | _ => undefined end
  else if cmd =? BSD_TIOCGETP then
    getting (λ t, OutSgttyb (Sgttyb (s8 (speed_linux_to_bsd (lt_ispeed t))) (s8 (speed_linux_to_bsd (lt_ospeed t)))
      (s8 (cc_of t LINUX_VERASE)) (s8 (cc_of t LINUX_VKILL)) (sgflag_linux_to_bsd t)))
  else if cmd =? BSD_TIOCSETP then
    match a with ISgttyb s => handle_setp fd s | _ => undefined end
  else if cmd =? BSD_TIOCGETC then
    getting (λ t, OutTchars (Tchars (s8 (cc_of t LINUX_VINTR)) (s8 (cc_of t LINUX_VQUIT)) (s8 (cc_of t LINUX_VSTART))
      (s8 (cc_of t LINUX_VSTOP)) (s8 (cc_of t LINUX_VEOF)) (s8 (cc_of t LINUX_VEOL2))))
  else if cmd =? BSD_TIOCSETC then
    match a with
    | ITchars c => storing [(LINUX_VINTR, t_intrc c); (LINUX_VQUIT, t_quitc c); (LINUX_VSTART, t_startc c);
                            (LINUX_VSTOP, t_stopc c); (LINUX_VEOF, t_eofc c); (LINUX_VEOL2, t_brkc c)]
    | _ => undefined
    end
  else if cmd =? BSD_TIOCGLTC then
    getting (λ t, OutLtchars (Ltchars (s8 (cc_of t LINUX_VSUSP)) (s8 (cc_of t LINUX_VSUSP)) (s8 (cc_of t LINUX_VREPRINT))
      (s8 (cc_of t LINUX_VEOL2)) (s8 (cc_of t LINUX_VWERASE)) (s8 (cc_of t LINUX_VLNEXT))))
  else if cmd =? BSD_TIOCSLTC then
    match a with
    | ILtchars c => storing [(LINUX_VSUSP, t_suspc c); (LINUX_VREPRINT, t_rprntc c); (LINUX_VEOL2, t_flushc c);
                             (LINUX_VWERASE, t_werasc c); (LINUX_VLNEXT, t_lnextc c)]
    | _ => undefined
    end
  else if (cmd =? BSD_TIOCIXON) || (cmd =? BSD_TIOCIXOFF) then handle_ixon fd cmd
  else if cmd =? BSD_TIOCPTYUNLK then simple_ioctl fd LINUX_TIOCSPTLCK (ACell 0)
  else if cmd =? BSD_TIOCPTYGNAME then
    '(ret, ptyno) ← __real_ioctl_out fd LINUX_TIOCGPTN OInt;
    if ret =? 0 then
      match __simple_sprintf (s2c "/dev/pts/%d") [VNum ptyno] 128 with
      | Some (_, s) => mret (Handled ret (OutStr s))
      | None => undefined
      end
    else mret (Handled ret INone)
  else if cmd =? BSD_TIOCPTYGRANT then mret (Handled 0 INone)
  else if cmd =? BSD_TIOCFLUSH then
    match a with
    | IInt z =>
      match flush_queue z with
      | Some queue => simple_ioctl fd LINUX_TCFLSH (AInt queue)
      | None => mret (Handled (- EINVAL) INone)
      end
    | _ => undefined
    end
  else if cmd =? BSD_TIOCISATTY then
    '(ret, _) ← get_termios fd; mret (Handled (if ret =? 0 then 1 else 0) INone)
  else
    match case_of pass_tbl cmd, case_of null_tbl cmd with
    | Some req, _ => simple_ioctl fd req (raw_arg a)
    | None, Some req => simple_ioctl fd req ANull
    | None, None =>
      printed ← __simple_printf (s2c "Passing thru unhandled ioctl 0x%x on fd %d" ++ [byte_of 10]) [VNum cmd; VNum fd];
      defined printed;; mret Pass
    end.

(** ** Files and sockets *)

Definition D_TAPE : Z := 1.
Definition D_DISK : Z := 2.
Definition D_TTY : Z := 3.

Section Filio.
Context `{LoopFuel, IcaseEnabled}.

Definition get_fd_path (fd len : Z) : M (option cstr) :=
  '(ret, buf) ← fdpath fd len;
  if ret <? 0 then mret None
  else
    let buf := default [] buf in
    mret (Some (if strneq buf (s2c "/Volumes/SystemRoot/dev/") 24 then drop 19 buf else buf)).

Definition device_type (path : cstr) : Z :=
  if strneq path (s2c "/dev/pts") 8 || strneq path (s2c "/dev/tty") 8 then D_TTY
  else if strneq path (s2c "/dev/st") 7 || strneq path (s2c "/dev/nst") 8 then D_TAPE
  else D_DISK.

(** The requests and their Linux numbers. *)
Definition filio_tbl : list (Z * Z) := [
  (BSD_FIONBIO, 0x5421); (BSD_FIOASYNC, 0x5452); (BSD_FIOCLEX, 0x5451); (BSD_FIONCLEX, 0x5450);
  (BSD_FIONREAD, 0x541B); (BSD_FIOGETOWN, 0x8903); (BSD_FIOSETOWN, 0x8901) ].

Definition handle_filio (fd cmd : Z) (a : ioctl_arg) : M handled :=
  if cmd =? BSD_FIODTYPE then
    if match a with IRaw 0 => true | _ => false end then mret (Handled (- EFAULT) INone)
    else
      path ← get_fd_path fd 256;
      match path with
      | None => mret (Handled (- EBADF) INone)
      | Some path =>
        printed ← __simple_kprintf (s2c "dtype for fd %d -> %s" ++ [byte_of 10]) [VNum fd; VStr (Some path)];
        defined printed;;
        mret (Handled 0 (OutInt (device_type path)))
      end
  else
    match case_of filio_tbl cmd with
    | Some req =>
      ret ← __real_ioctl fd req (raw_arg a);
      mret (Handled (if ret <? 0 then errno_linux_to_bsd ret else ret) INone)
    | None => mret Pass
    end.

Definition handle_socket (fd cmd : Z) (a : ioctl_arg) : M handled :=
  if (cmd =? SIOCGIFFLAGS) || (cmd =? SIOCSIFFLAGS) || (cmd =? SIOCAIFADDR) || (cmd =? SIOCAIFADDR_IN6)
  then mret (Handled (- ENOTSUP) INone) else mret Pass.

(** [IOCTL_STEP(h); rest] *)
Definition IOCTL_STEP (h : M handled) (rest : M (Z * ioctl_out)) : M (Z * ioctl_out) :=
  r ← h; match r with Handled retval out => mret (retval, out) | Pass => rest end.

Definition sys_ioctl (fd cmd : Z) (a : ioctl_arg) : M (Z * ioctl_out) :=
  let cmd := u32 cmd in
  IOCTL_STEP (handle_filio fd cmd a)
  (IOCTL_STEP (handle_socket fd cmd a)
  (IOCTL_STEP (handle_termios fd cmd a)
  (ret ← __real_ioctl fd cmd (raw_arg a); mret (ret, INone)))).
End Filio.

(** ** Theorems *)

Definition iflag_known : list Z := iflag_b2l_tbl.*1.
Definition lflag_known : list Z := lflag_b2l_tbl.*1.
Definition oflag_known : list Z := [BSD_OPOST; BSD_ONLCR; BSD_OXTABS].
(** All control flags but the character size. *)
Definition cflag_known : list Z := [BSD_CSTOPB; BSD_CREAD; BSD_PARENB; BSD_PARODD; BSD_HUPCL; BSD_CLOCAL].

Lemma iflag_back b : iflag_linux_to_bsd (iflag_bsd_to_linux b) = Z.land b (or_all iflag_known).
Proof. apply translate_there_back; by vm_compute. Qed.

Lemma lflag_back b : lflag_linux_to_bsd (lflag_bsd_to_linux b) = Z.land b (or_all lflag_known).
Proof. apply translate_there_back; by vm_compute. Qed.

Lemma oflag_back b : oflag_linux_to_bsd (oflag_bsd_to_linux b) = Z.land b (or_all oflag_known).
Proof. apply translate_there_back; by vm_compute. Qed.

(** Any character size other than five bits comes back as eight bits. *)
Lemma cflag_back b :
  cflag_linux_to_bsd (cflag_bsd_to_linux b) =
  Z.lor (Z.land b (or_all cflag_known)) (if has b BSD_CSIZE then BSD_CS8 else 0).
Proof.
  unfold cflag_linux_to_bsd, cflag_bsd_to_linux. rewrite translate_compose by by vm_compute.
  rewrite (translate_equiv _ (diag_tbl cflag_known ++ [(BSD_CSIZE, BSD_CS8)])) by by vm_compute.
  by rewrite translate_snoc, translate_diag_single by by vm_compute.
Qed.

(** Terminal modes.  Input, output and local modes survive the round trip
    through Linux bit by bit for every mode in the tables; control modes do
    too, except that every character size other than five bits comes back as
    eight bits. *)
Theorem termios_flags_round_trip b :
  iflag_linux_to_bsd (iflag_bsd_to_linux b) = Z.land b (or_all iflag_known) ∧
  oflag_linux_to_bsd (oflag_bsd_to_linux b) = Z.land b (or_all oflag_known) ∧
  lflag_linux_to_bsd (lflag_bsd_to_linux b) = Z.land b (or_all lflag_known) ∧
  cflag_linux_to_bsd (cflag_bsd_to_linux b) =
    Z.lor (Z.land b (or_all cflag_known)) (if has b BSD_CSIZE then BSD_CS8 else 0) ∧
  iflag_bsd_to_linux (iflag_linux_to_bsd b) = Z.land b (or_all (iflag_l2b_tbl.*1)) ∧
  lflag_bsd_to_linux (lflag_linux_to_bsd b) = Z.land b (or_all (lflag_l2b_tbl.*1)).
Proof.
  split_and!; [apply iflag_back|apply oflag_back|apply lflag_back|apply cflag_back|
    apply translate_there_back; by vm_compute|apply translate_there_back; by vm_compute].
Qed.

(** The character size is lost: a terminal set to six or seven bits is
    reported, and set, as eight bits. *)
Theorem cflag_size_lost :
  cflag_linux_to_bsd LINUX_CS6 = BSD_CS8 ∧ cflag_linux_to_bsd LINUX_CS7 = BSD_CS8 ∧
  cflag_bsd_to_linux BSD_CS6 = LINUX_CS8 ∧ cflag_bsd_to_linux BSD_CS7 = LINUX_CS8.
Proof. by vm_compute. Qed.

(** *** Control characters *)

Lemma cc_l2b_slot l s : s ∈ cc_slots -> zget (cc_linux_to_bsd l (replicate 20 0)) s.1 = c_l2b (zget l s.2).
Proof.
  revert s. apply Forall_forall. unfold cc_slots. repeat (apply Forall_cons_2; [reflexivity|]). apply Forall_nil_2.
Qed.

Lemma cc_b2l_slot b s : s ∈ cc_slots -> zget (cc_bsd_to_linux b (replicate 32 0)) s.2 = c_b2l (zget b s.1).
Proof.
  revert s. apply Forall_forall. unfold cc_slots. repeat (apply Forall_cons_2; [reflexivity|]). apply Forall_nil_2.
Qed.

(** Control characters.  Setting the sixteen control characters and
    reading them back gives the same characters, except that the value zero
    comes back as 255, "disabled"; this includes the read timeout and minimum,
    for which zero is an ordinary value. *)
Theorem cc_round_trip b s :
  s ∈ cc_slots ->
  zget (cc_linux_to_bsd (cc_bsd_to_linux b (replicate 32 0)) (replicate 20 0)) s.1 =
  if zget b s.1 =? 0 then BSD_POSIX_VDISABLE else zget b s.1.
Proof.
  intros Hs. rewrite cc_l2b_slot, cc_b2l_slot by done. unfold c_l2b, c_b2l, LINUX_POSIX_VDISABLE, BSD_POSIX_VDISABLE.
  destruct (Z.eqb_spec (zget b s.1) 255) as [->|]; [done|]. done.
Qed.

Lemma cc_round_trip_witness :
  (BSD_VTIME, LINUX_VTIME) ∈ cc_slots ∧
  zget (cc_linux_to_bsd (cc_bsd_to_linux (replicate 20 0) (replicate 32 0)) (replicate 20 0)) BSD_VTIME = 255.
Proof.
  assert ((BSD_VTIME, LINUX_VTIME) ∈ cc_slots) as H by (unfold cc_slots; do 15 right; left).
  split; [exact H|]. exact (cc_round_trip (replicate 20 0) (BSD_VTIME, LINUX_VTIME) H).
Defined.

(** *** Speeds *)

Lemma speed_back b : b ∈ speed_l2b_tbl.*2 -> speed_linux_to_bsd (speed_bsd_to_linux b) = b.
Proof.
  revert b. apply Forall_forall. repeat (apply Forall_cons_2; [reflexivity|]). apply Forall_nil_2.
Qed.

(** Line speeds.  Every speed both systems have survives the round trip;
    a speed Linux lacks is replaced by a lower one, never by a higher one. *)
Theorem speed_round_trip b :
  (b ∈ speed_l2b_tbl.*2 -> speed_linux_to_bsd (speed_bsd_to_linux b) = b) ∧
  (0 <= b -> 0 <= speed_linux_to_bsd (speed_bsd_to_linux b) <= b).
Proof.
  split; [apply speed_back|]. intros Hb.
  pose proof (switch_forall (λ x y, (x <? 0) || ((0 <=? speed_linux_to_bsd y) && (speed_linux_to_bsd y <=? x)))
    speed_b2l_tbl 0 b eq_refl) as H. fold (speed_bsd_to_linux b) in H. cbv beta in H.
  change (speed_linux_to_bsd 0) with 0 in H. specialize (H ltac:(lia)). lia.
Qed.

(** *** Setting and getting the terminal *)

(** A terminal whose settings are the state of the host. *)
Definition tty_host : handler linux_termios := λ X e t,
  match e in linuxE X return X * linux_termios with
  | Sys nr args => (0, match args with [_; _; ATermios t'] => t' | _ => t end)
  | SysOut nr args o =>
    match o in outk Y return (Z * Y) * linux_termios with OTermios => ((0, t), t) | o => ((0, zero_out o), t) end
  | Lkm c => ((0, zero_lkm c), t)
  end.

(** The settings a terminal reports after [t] was set. *)
Definition reported (t : bsd_termios) : bsd_termios :=
  BsdTermios (Z.land (c_iflag t) (or_all iflag_known)) (Z.land (c_oflag t) (or_all oflag_known))
    (Z.lor (Z.land (c_cflag t) (or_all cflag_known)) (if has (c_cflag t) BSD_CSIZE then BSD_CS8 else 0))
    (Z.land (c_lflag t) (or_all lflag_known))
    (cc_linux_to_bsd (cc_bsd_to_linux (c_cc t) (replicate 32 0)) (replicate 20 0)) (c_ispeed t) (c_ospeed t).

(** The control modes never carry a speed. *)
Lemma cflag_no_speed b : has (cflag_bsd_to_linux b) (Z.lor LINUX_CBAUD LINUX_CBAUDEX) = false.
Proof.
  unfold cflag_bsd_to_linux. rewrite has_translate by by vm_compute. cbn [existsb cflag_b2l_tbl fst snd].
  rewrite !(proj2 (Bool.andb_false_iff _ _)) by (right; by vm_compute). done.
Qed.

(** Tcsetattr and tcgetattr agree.  After setting a terminal's attributes
    (at once, drained or flushed) with speeds both systems have, reading them
    back reports the same modes, control characters and speeds, up to the
    modes Linux does not have, the character size and zero characters. *)
Theorem termios_set_get fd cmd t g t0 :
  cmd ∈ [BSD_TIOCSETA; BSD_TIOCSETAW; BSD_TIOCSETAF] ->
  c_ispeed t ∈ speed_l2b_tbl.*2 -> c_ospeed t ∈ speed_l2b_tbl.*2 ->
  ∃ s, run tty_host (handle_termios fd cmd (ITermios t);; handle_termios fd BSD_TIOCGETA (IRaw 0)) g t0 =
       Some (Handled 0 (OutTermios (reported t)), g, s).
Proof.
  intros Hcmd Hi Ho. exists (termios_bsd_to_linux t). rewrite run_bind.
  assert (run tty_host (handle_termios fd cmd (ITermios t)) g t0 = Some (Handled 0 INone, g, termios_bsd_to_linux t)) as ->.
  { rewrite !elem_of_cons in Hcmd. by destruct Hcmd as [->|[->|[->|[]%not_elem_of_nil]]]. }
  assert (run tty_host (handle_termios fd BSD_TIOCGETA (IRaw 0)) g (termios_bsd_to_linux t) =
    Some (Handled 0 (OutTermios (termios_linux_to_bsd (termios_bsd_to_linux t))), g, termios_bsd_to_linux t)) as -> by reflexivity.
  do 4 f_equal. unfold termios_linux_to_bsd, termios_bsd_to_linux, reported. cbn [lt_cflag lt_iflag lt_oflag lt_lflag lt_cc lt_ispeed lt_ospeed].
  rewrite cflag_no_speed. cbn [negb]. by rewrite iflag_back, oflag_back, cflag_back, lflag_back, !speed_back.
Qed.

Definition example_termios : bsd_termios :=
  BsdTermios BSD_ICRNL BSD_OPOST (Z.lor BSD_CREAD BSD_CS8) (Z.lor BSD_ICANON BSD_ECHO) (replicate 20 3) BSD_B9600 BSD_B38400.

Lemma termios_set_get_witness :
  ∃ s, run tty_host (handle_termios 0 BSD_TIOCSETAW (ITermios example_termios);; handle_termios 0 BSD_TIOCGETA (IRaw 0))
         init_gstate (zero_out OTermios) = Some (Handled 0 (OutTermios (reported example_termios)), init_gstate, s).
Proof.
  apply (termios_set_get 0 BSD_TIOCSETAW example_termios init_gstate (zero_out OTermios)).
  - right. left.
  - do 13 right. left.
  - do 15 right. left.
Defined.

(** *** The old interface *)

(** Stty/gtty.  Raw mode, echo and CR mapping survive a round trip through
    the old terminal interface from any previous state; cbreak mode never
    does: setting it leaves canonical input on and turns signals off. *)
Theorem sgtty_round_trip f t :
  sgflag_linux_to_bsd (sgflag_bsd_to_linux f t) =
    Z.lor (Z.lor (if has f 0x20 then 0x20 else 0) (if has f 0x08 then 0x8 else 0)) (if has f 0x10 then 0x10 else 0) ∧
  (has f 0x02 = true -> has f 0x20 = false ->
   has (lt_lflag (sgflag_bsd_to_linux f t)) LINUX_ICANON = true ∧
   has (lt_lflag (sgflag_bsd_to_linux f t)) LINUX_ISIG = false).
Proof.
  unfold sgflag_bsd_to_linux. destruct (has f 0x02), (has f 0x08), (has f 0x10), (has f 0x20); by split; vm_compute.
Qed.

(** ** Files *)

(** The requests of filio.c translate error numbers twice: a kernel EAGAIN
    reaches the application as EDEADLK, where the terminal requests report
    EAGAIN. *)
Theorem filio_errors_translated_twice `{LoopFuel, IcaseEnabled} fd g (s : Z) :
  let failing : handler Z := λ X e s,
    (match e in linuxE X return X with
     | Sys _ _ => - LINUX_EAGAIN
     | SysOut _ _ o => (- LINUX_EAGAIN, zero_out o)
     | Lkm c => (0, zero_lkm c) end, s) in
  run failing (sys_ioctl fd BSD_FIONREAD (IRaw 1)) g s = Some (- EDEADLK, INone, g, s) ∧
  run failing (sys_ioctl fd BSD_TIOCGWINSZ (IRaw 1)) g s = Some (- EAGAIN, INone, g, s).
Proof. split; by vm_compute. Qed.

(** TIOCFLUSH accepts exactly the three queue selections and refuses
    anything else without asking the kernel. *)
Theorem tiocflush_queues fd z g :
  (z = BSD_FREAD ∧ flush_queue z = Some LINUX_TCIFLUSH) ∨ (z = BSD_FWRITE ∧ flush_queue z = Some LINUX_TCOFLUSH) ∨
  (z = Z.lor BSD_FREAD BSD_FWRITE ∧ flush_queue z = Some LINUX_TCIOFLUSH) ∨
  handle_termios fd BSD_TIOCFLUSH (IInt z) g = Ret (Handled (- EINVAL) INone, g).
Proof.
  destruct (decide (z = BSD_FREAD)) as [->|H1]; [by left|]. destruct (decide (z = BSD_FWRITE)) as [->|H2]; [by right; left|].
  destruct (decide (z = Z.lor BSD_FREAD BSD_FWRITE)) as [->|H3]; [by right; right; left|]. do 3 right.
  assert (flush_queue z = None) as Hq.
  { unfold flush_queue. cbn [case_of fst snd]. destruct (Z.eqb_spec z BSD_FREAD); [done|].
    destruct (Z.eqb_spec z BSD_FWRITE); [done|]. by destruct (Z.eqb_spec z (Z.lor BSD_FREAD BSD_FWRITE)). }
  change (handle_termios fd BSD_TIOCFLUSH (IInt z) g) with
    ((match flush_queue z with Some queue => simple_ioctl fd LINUX_TCFLSH (AInt queue) | None => mret (Handled (- EINVAL) INone) end) g).
  by rewrite Hq.
Qed.
