(* ===== verification/Network.v ===== *)
(** * network/: sockets and their addresses

    duct.c, socket.c, socketpair.c, bind.c, connect.c, accept.c, sendto.c,
    recvfrom.c, getsockname.c, getpeername.c, listen.c, shutdown.c *)
From S2P Require Import Prelude Abi Linux Errno Base Vchroot VchrootProofs Fcntl.

(** ** Translation tables of duct.c *)

Definition sfamily_l2b_tbl : list (Z * Z) := [
  (LINUX_PF_LOCAL, PF_LOCAL); (LINUX_PF_INET, PF_INET); (LINUX_PF_IPX, PF_IPX); (LINUX_PF_INET6, PF_INET6) ].
Definition sfamily_linux_to_bsd (family : Z) : Z := switch sfamily_l2b_tbl family family.

Definition sfamily_b2l_tbl : list (Z * Z) := [
  (PF_LOCAL, LINUX_PF_LOCAL); (PF_INET, LINUX_PF_INET); (PF_IPX, LINUX_PF_IPX); (PF_INET6, LINUX_PF_INET6) ].
Definition sfamily_bsd_to_linux (family : Z) : Z := switch sfamily_b2l_tbl family family.

Definition msgflags_b2l_tbl : list (Z * Z) := [
  (BSD_MSG_OOB, LINUX_MSG_OOB); (BSD_MSG_PEEK, LINUX_MSG_PEEK); (BSD_MSG_DONTROUTE, LINUX_MSG_DONTROUTE);
  (BSD_MSG_EOR, LINUX_MSG_EOR); (BSD_MSG_TRUNC, LINUX_MSG_TRUNC); (BSD_MSG_CTRUNC, LINUX_MSG_CTRUNC);
  (BSD_MSG_WAITALL, LINUX_MSG_WAITALL); (BSD_MSG_DONTWAIT, LINUX_MSG_DONTWAIT) ].
Definition msgflags_bsd_to_linux (flags : Z) : Z := translate msgflags_b2l_tbl flags.

Definition msgflags_l2b_tbl : list (Z * Z) := [
  (LINUX_MSG_OOB, BSD_MSG_OOB); (LINUX_MSG_PEEK, BSD_MSG_PEEK); (LINUX_MSG_DONTROUTE, BSD_MSG_DONTROUTE);
  (LINUX_MSG_EOR, BSD_MSG_EOR); (LINUX_MSG_TRUNC, BSD_MSG_TRUNC); (LINUX_MSG_CTRUNC, BSD_MSG_CTRUNC);
  (LINUX_MSG_WAITALL, BSD_MSG_WAITALL); (LINUX_MSG_DONTWAIT, BSD_MSG_DONTWAIT) ].
Definition msgflags_linux_to_bsd (flags : Z) : Z := translate msgflags_l2b_tbl flags.

(** ** Socket addresses

    [struct sockaddr_fixup] as its bytes: the 16-bit [linux_family] shares
    the bytes of [bsd_length] and [bsd_family] (little endian), [sun_path]
    follows. *)
Definition sizeof_sun_path : Z := 104.
Definition sizeof_sockaddr_fixup : Z := 106.

Definition byte_at (mem : list ascii) (i : nat) : Z := byte_val (default NUL (mem !! i)).
Definition bsd_family (mem : list ascii) : Z := byte_at mem 1.
Definition linux_family (mem : list ascii) : Z := byte_at mem 0 + 256 * byte_at mem 1.

Definition set_linux_family (f : Z) (mem : list ascii) : list ascii :=
  write_at mem 0 [byte_of f; byte_of (Z.shiftr f 8)].
Definition set_bsd_family (f : Z) (mem : list ascii) : list ascii := write_at mem 1 [byte_of f].
Definition set_bsd_length (n : Z) (mem : list ascii) : list ascii := write_at mem 0 [byte_of n].

(** [strncpy(sun_path, path, sizeof(sun_path) - 1)] and the terminator. *)
Definition sun_path_bytes (path : cstr) : list ascii :=
  ztake (sizeof_sun_path - 1) path ++
  replicate (Z.to_nat sizeof_sun_path - length (ztake (sizeof_sun_path - 1) path)) NUL.

(** A string that has its terminator inside the memory. *)
Definition terminated (mem : list ascii) : bool := Z.of_nat (length (c_str mem)) <? Z.of_nat (length mem).

Definition sockaddr_fixup_size_from_bsd (bsd_sockaddr : list ascii) (len : Z) : Z :=
  if bsd_family bsd_sockaddr =? PF_LOCAL then sizeof_sockaddr_fixup else len.

Section Addresses.
Context `{LoopFuel, IcaseEnabled}.

(** What the stack held where [alloca] takes memory. *)
Context (stack : nat -> ascii).

(** [out] is a block of [size] bytes; the memory at [bsd_sockaddr] is the
    caller's.  The result and the block. *)
Definition sockaddr_fixup_from_bsd (size : Z) (bsd_sockaddr : list ascii) (len : Z) : M (Z * list ascii) :=
  if (len <? 0) || (Z.of_nat (length bsd_sockaddr) <? len) || (size <? len) || (size <? 2) then undefined
  else
    let out := ztake len bsd_sockaddr ++ (stack <$> seq 0 (Z.to_nat (size - len))) in
    let out := set_linux_family (sfamily_bsd_to_linux (bsd_family out)) out in
    if linux_family out =? LINUX_PF_LOCAL then
      if (size <? sizeof_sockaddr_fixup) || negb (terminated (drop 2 out)) then undefined
      else
        dfd ← get_perthread_wd;
        '(ret, vc) ← vchroot_expand (VchrootExpandArgs (c_str (drop 2 out)) dfd true);
        if ret <? 0 then mret (errno_linux_to_bsd ret, out)
        else
          let out := write_at out 2 (sun_path_bytes (vc_path vc)) in
          mret (sizeof_sockaddr_fixup - sizeof_sun_path + strlen (c_str (drop 2 out)), out)
    else mret (len, out).

(** The callers pass the same memory as source and destination. *)
Definition sockaddr_fixup_from_linux (mem : list ascii) (len : Z) : M (Z * list ascii) :=
  if (len <? 0) || (Z.of_nat (length mem) <? len) || (Z.of_nat (length mem) <? 2) then undefined
  else
    let out := set_bsd_family (sfamily_linux_to_bsd (linux_family mem)) mem in
    let finish (ret : Z) (out : list ascii) : M (Z * list ascii) :=
      mret (ret, if 0 <=? ret then set_bsd_length ret out else out) in
    if bsd_family out =? PF_LOCAL then
      if negb (terminated (drop 2 out)) || (PATH_SIZE <=? strlen (c_str (drop 2 out))) then undefined
      else
        '(ret, path) ← vchroot_unexpand (c_str (drop 2 out));
        if ret <? 0 then mret (errno_linux_to_bsd ret, out)
        else if Z.of_nat (length out) <? sizeof_sockaddr_fixup then undefined
        else
          let out := write_at out 2 (sun_path_bytes path) in
          finish (sizeof_sockaddr_fixup - sizeof_sun_path + strlen (c_str (drop 2 out)) + 1) out
    else finish len out.

(** [fixed = alloca(sockaddr_fixup_size_from_bsd(name, socklen)); ret =
    socklen = sockaddr_fixup_from_bsd(fixed, name, socklen); if (ret < 0)
    return ret;] and then [k] with [fixed] and [socklen]. *)
Definition with_sockaddr (name : list ascii) (socklen : Z) (k : list ascii -> Z -> M Z) : M Z :=
  if Z.of_nat (length name) <? 2 then undefined
  else
    '(ret, fixed) ← sockaddr_fixup_from_bsd (sockaddr_fixup_size_from_bsd name socklen) name socklen;
    if ret <? 0 then mret ret else k fixed ret.

(** ** The calls *)

Definition domain_switch (domain : Z) (k : Z -> M Z) : M Z :=
  match case_of sfamily_b2l_tbl domain with Some d => k d | None => mret (- EINVAL) end.

Definition sys_socket (domain type protocol : Z) : M Z :=
  domain_switch domain (λ linux_domain,
    ret ← syscall_int __NR_socket [AInt linux_domain; AInt type; AInt protocol]; mret (bsd_ret ret)).

Definition sys_socketpair (domain type protocol sv : Z) : M Z :=
  domain_switch domain (λ linux_domain,
    ret ← syscall_int __NR_socketpair [AInt linux_domain; AInt type; AInt protocol; AInt sv]; mret (bsd_ret ret)).

Definition sys_bind (fd : Z) (name : list ascii) (socklen : Z) : M Z :=
  if 512 <? socklen then mret (- EINVAL)
  else with_sockaddr name socklen (λ fixed socklen,
    ret ← syscall_int __NR_bind [AInt fd; ABuf fixed; AInt socklen]; mret (bsd_ret ret)).

Definition sys_connect_nocancel (fd : Z) (name : list ascii) (socklen : Z) : M Z :=
  if 512 <? socklen then mret (- EINVAL)
  else with_sockaddr name socklen (λ fixed socklen,
    ret ← syscall_int __NR_connect [AInt fd; ABuf fixed; AInt socklen]; mret (bsd_ret ret)).

Definition sys_connect (fd : Z) (name : list ascii) (socklen : Z) : M Z :=
  CANCELATION_POINT id (sys_connect_nocancel fd name socklen).

Definition sys_sendto_nocancel (fd buffer length flags : Z) (sockaddr : option (list ascii)) (socklen : Z) : M Z :=
  let send (fixed : arg) (socklen : Z) : M Z :=
    ret ← syscall_int __NR_sendto
      [AInt fd; AInt buffer; AInt length; AInt (msgflags_bsd_to_linux flags); fixed; AInt socklen];
    mret (bsd_ret ret) in
  if 512 <? socklen then mret (- EINVAL)
  else match sockaddr with
       | Some name => with_sockaddr name socklen (λ fixed socklen, send (ABuf fixed) socklen)
       | None => send ANull socklen
       end.

Definition sys_sendto (fd buffer length flags : Z) (sockaddr : option (list ascii)) (socklen : Z) : M Z :=
  CANCELATION_POINT id (sys_sendto_nocancel fd buffer length flags sockaddr socklen).

Definition sys_shutdown (fd how : Z) : M Z :=
  ret ← syscall_int __NR_shutdown [AInt fd; AInt how]; mret (bsd_ret ret).

Definition sys_listen (fd backlog : Z) : M Z :=
  ret ← syscall_int __NR_listen [AInt fd; AInt backlog]; mret (bsd_ret ret).

(** Result, and the address memory and [*socklen] afterwards.  The kernel
    stores some bytes in the memory at [asa] and the new length. *)
Definition name_out : Type := Z * list ascii * Z.

Definition name_call (nr fd : Z) (asa : list ascii) (socklen : Z) : M name_out :=
  '(ret, (bytes, socklen')) ← syscall_int_out nr [AInt fd] (OSockaddr socklen);
  if ret <? 0 then mret (errno_linux_to_bsd ret, asa, socklen)
  else
    '(ret, asa') ← sockaddr_fixup_from_linux (write_at asa 0 bytes) socklen';
    mret (if 0 <? ret then 0 else ret, asa', ret).

Definition sys_getsockname : Z -> list ascii -> Z -> M name_out := name_call __NR_getsockname.
Definition sys_getpeername : Z -> list ascii -> Z -> M name_out := name_call __NR_getpeername.

(** Without an address buffer the code stores through a null pointer. *)
Definition sys_accept_nocancel (fd : Z) (from : option (list ascii)) (socklen : Z) : M (Z * option (list ascii) * Z) :=
  '(ret, (bytes, socklen')) ← syscall_int_out __NR_accept [AInt fd] (OSockaddr socklen);
  if ret <? 0 then mret (errno_linux_to_bsd ret, from, socklen)
  else match from with
  | None => undefined
  | Some mem =>
    let mem := write_at mem 0 bytes in
    if Z.of_nat (length mem) <? 2 then undefined
    else
      let mem := set_bsd_family (sfamily_linux_to_bsd (linux_family mem)) mem in
      let mem := set_bsd_length socklen' mem in
      '(parent_flags, _) ← sys_fcntl_nocancel fd F_GETFL (FInt 0);
      '(child_flags, _) ← sys_fcntl_nocancel ret F_GETFL (FInt 0);
      if (0 <=? parent_flags) && (0 <=? child_flags) && has parent_flags BSD_O_NONBLOCK then
        sys_fcntl_nocancel ret F_SETFL (FInt (Z.lor child_flags BSD_O_NONBLOCK));;
        mret (ret, Some mem, socklen')
      else mret (ret, Some mem, socklen')
  end.

Definition sys_accept (fd : Z) (from : option (list ascii)) (socklen : Z) : M (Z * option (list ascii) * Z) :=
  CANCELATION_POINT (λ e, (e, from, socklen)) (sys_accept_nocancel fd from socklen).

(** [linux_flags] is computed and not used: the kernel gets [flags]. *)
Definition sys_recvfrom_nocancel (fd buf len flags : Z) (from : option (list ascii)) (socklen : Z)
  : M (Z * option (list ascii) * Z) :=
  '(ret, (bytes, socklen')) ←
    syscall_int_out __NR_recvfrom [AInt fd; AInt buf; AInt len; AInt flags] (OSockaddr socklen);
  if ret <? 0 then mret (errno_linux_to_bsd ret, from, socklen)
  else match from with
  | None => mret (ret, None, socklen')
  | Some mem =>
    '(r, mem') ← sockaddr_fixup_from_linux (write_at mem 0 bytes) socklen';
    mret (if r <? 0 then r else ret, Some mem', r)
  end.

Definition sys_recvfrom (fd buf len flags : Z) (from : option (list ascii)) (socklen : Z)
  : M (Z * option (list ascii) * Z) :=
  CANCELATION_POINT (λ e, (e, from, socklen)) (sys_recvfrom_nocancel fd buf len flags from socklen).
End Addresses.

(** ** Theorems *)

Definition msgflags_known : Z := or_all (msgflags_b2l_tbl.*1).

(** The message flags that both systems have survive the translation to
    Linux and back, and every flag word reported by Linux translates to flags
    that translate back to the known part of it. *)
Theorem msgflags_round_trip flags :
  msgflags_linux_to_bsd (msgflags_bsd_to_linux flags) = Z.land flags msgflags_known ∧
  msgflags_bsd_to_linux (msgflags_linux_to_bsd flags) = Z.land flags (or_all (msgflags_l2b_tbl.*1)).
Proof. split; apply translate_there_back; by vm_compute. Qed.

(** *** Lemmas on address bytes *)

Lemma byte_val_NUL : byte_val NUL = 0.
Proof. done. Qed.

Lemma set_linux_family_cons f a b m :
  set_linux_family f (a :: b :: m) = byte_of f :: byte_of (Z.shiftr f 8) :: m.
Proof. done. Qed.

Lemma set_bsd_family_cons f a b m : set_bsd_family f (a :: b :: m) = a :: byte_of f :: m.
Proof. done. Qed.

Lemma set_bsd_length_cons n a m : set_bsd_length n (a :: m) = byte_of n :: m.
Proof. done. Qed.

Lemma linux_family_set f m :
  0 <= f < 256 -> (2 <= length m)%nat -> linux_family (set_linux_family f m) = f.
Proof.
  intros Hf Hm. destruct m as [|a [|b m]]; [simpl in Hm; lia..|]. rewrite set_linux_family_cons.
  unfold linux_family, byte_at. simpl. rewrite !byte_val_of, Z.shiftr_div_pow2 by lia.
  change (2 ^ 8) with 256. rewrite (Z.div_small f 256) by lia. rewrite u8_id by lia. unfold u8. rewrite Z.mod_0_l; lia.
Qed.

Lemma set_linux_family_length f m : (2 <= length m)%nat -> length (set_linux_family f m) = length m.
Proof. intros ?. apply write_at_length. simpl. lia. Qed.

Lemma sfamily_b2l_range f : 0 <= f < 256 -> 0 <= sfamily_bsd_to_linux f < 256.
Proof.
  intros Hf. assert ((0 <=? sfamily_bsd_to_linux f) && (sfamily_bsd_to_linux f <? 256) = true) as H; [|lia].
  apply (switch_forall (λ _ y, (0 <=? y) && (y <? 256))); [by vm_compute|lia].
Qed.

Lemma sfamily_there_back f :
  f ≠ LINUX_PF_IPX -> f ≠ LINUX_PF_INET6 -> sfamily_linux_to_bsd (sfamily_bsd_to_linux f) = f.
Proof.
  intros H1 H2. unfold sfamily_bsd_to_linux, switch. destruct (case_of sfamily_b2l_tbl f) as [y|] eqn:E; simpl.
  - apply case_of_Some in E. unfold sfamily_b2l_tbl in E. set_unfold. by destruct_or!; simplify_eq.
  - unfold sfamily_linux_to_bsd, switch. cbn in E |- *.
    unfold PF_LOCAL, PF_INET, PF_IPX, PF_INET6, LINUX_PF_LOCAL, LINUX_PF_INET, LINUX_PF_IPX, LINUX_PF_INET6 in *.
    repeat case_match; simplify_eq/=; lia.
Qed.

Lemma sfamily_not_local f :
  f ≠ PF_LOCAL -> sfamily_bsd_to_linux f ≠ LINUX_PF_LOCAL.
Proof.
  intros Hf. assert ((f =? PF_LOCAL) || negb (sfamily_bsd_to_linux f =? LINUX_PF_LOCAL) = true) as H; [|lia].
  apply (switch_forall (λ x y, (x =? PF_LOCAL) || negb (y =? LINUX_PF_LOCAL))); [by vm_compute|].
  change LINUX_PF_LOCAL with PF_LOCAL. lia.
Qed.

Lemma bsd_family_range m : 0 <= bsd_family m < 256.
Proof. apply byte_val_range. Qed.

Lemma bsd_family_take len m : 2 <= len -> bsd_family (ztake len m) = bsd_family m.
Proof. intros ?. unfold bsd_family, byte_at, ztake. by rewrite lookup_take_lt by lia. Qed.

(** A network address keeps its bytes.  Translating an address that is
    not a local one for Linux and back gives the same bytes, with the length
    byte set, without asking the kernel anything.  (4 and 10, which Linux
    uses for IPX and IPv6, are excluded.) *)
Theorem sockaddr_round_trip `{LoopFuel, IcaseEnabled} stack name len g :
  2 <= len <= Z.of_nat (length name) ->
  bsd_family name ∉ [PF_LOCAL; LINUX_PF_IPX; LINUX_PF_INET6] ->
  ('(ret, a) ← sockaddr_fixup_from_bsd stack (sockaddr_fixup_size_from_bsd name len) name len;
   sockaddr_fixup_from_linux a ret) g =
  Ret ((len, set_bsd_length len (ztake len name)), g).
Proof.
  intros Hlen Hf. unfold sockaddr_fixup_size_from_bsd, sockaddr_fixup_from_bsd.
  destruct (Z.eqb_spec (bsd_family name) PF_LOCAL); [set_solver|].
  replace (len - len) with 0 by lia. cbn [Z.to_nat seq fmap list_fmap]. rewrite app_nil_r, bsd_family_take by lia.
  pose proof (bsd_family_range name). pose proof (sfamily_b2l_range (bsd_family name)).
  assert (2 <= length (ztake len name))%nat by (unfold ztake; rewrite length_take; lia).
  rewrite linux_family_set by (done || lia).
  destruct (Z.eqb_spec (sfamily_bsd_to_linux (bsd_family name)) LINUX_PF_LOCAL); [exfalso; by eapply sfamily_not_local|].
  case_cmp; try lia; cbn [orb].
  unfold mbind, M_bind, mret, M_ret. cbn [prog_bind]. unfold sockaddr_fixup_from_linux.
  rewrite set_linux_family_length, linux_family_set, sfamily_there_back by (done || set_solver || lia).
  assert (length (ztake len name) = Z.to_nat len) as -> by (unfold ztake; rewrite length_take; lia).
  destruct name as [|a [|b name]]; [simpl in *; lia..|].
  assert (ztake len (a :: b :: name) = a :: b :: ztake (len - 2) name) as Ht.
  { unfold ztake. replace (Z.to_nat len) with (S (S (Z.to_nat (len - 2)))) by lia. done. }
  rewrite Ht, set_linux_family_cons, set_bsd_family_cons. change (bsd_family (a :: b :: name)) with (byte_val b) in *.
  rewrite byte_of_val. change (bsd_family (_ :: b :: _)) with (byte_val b).
  destruct (Z.eqb_spec (byte_val b) PF_LOCAL); [set_solver|]. rewrite !set_bsd_length_cons.
  case_cmp; try lia; cbn [orb]. done.
Qed.

#[local] Existing Instance Toy.fuel.
#[local] Existing Instance Toy.icase.

(** An IPv6 address as Darwin has it: length 28, family 30. *)
Definition example_sockaddr : list ascii := byte_of 28 :: byte_of PF_INET6 :: replicate 26 (byte_of 7).

Lemma sockaddr_round_trip_witness :
  ('(ret, a) ← sockaddr_fixup_from_bsd (λ _, NUL) 28 example_sockaddr 28; sockaddr_fixup_from_linux a ret) init_gstate =
  Ret ((28, example_sockaddr), init_gstate).
Proof.
  apply (sockaddr_round_trip (λ _, NUL) example_sockaddr 28 init_gstate); [by vm_compute|].
  change (bsd_family example_sockaddr) with PF_INET6. apply not_elem_of_cons. split; [done|].
  apply not_elem_of_cons. split; [done|]. apply not_elem_of_cons. split; [done|]. apply not_elem_of_nil.
Defined.

(** *** Local addresses *)

Lemma drop_set_linux_family f m : (2 <= length m)%nat -> drop 2 (set_linux_family f m) = drop 2 m.
Proof. intros Hm. destruct m as [|a [|b m]]; [simpl in Hm; lia..|]. done. Qed.

Lemma terminated_app s r : terminated s = true -> terminated (s ++ r) = true ∧ c_str (s ++ r) = c_str s.
Proof.
  unfold terminated. rewrite !Z.ltb_lt. induction s as [|c s IH]; simpl; [lia|].
  destruct (ascii_dec c NUL); simpl; [split; [lia|done]|]. intros Hs. destruct IH as [IH1 IH2]; [lia|]. rewrite IH2 in *. split; [lia|done].
Qed.

Lemma sun_path_bytes_length p : length (sun_path_bytes p) = 104%nat.
Proof.
  unfold sun_path_bytes. rewrite length_app, length_replicate. unfold ztake. rewrite length_take.
  change (Z.to_nat sizeof_sun_path) with 104%nat. change (Z.to_nat (sizeof_sun_path - 1)) with 103%nat. lia.
Qed.

Lemma c_str_replicate n : c_str (replicate n NUL) = [].
Proof. by destruct n. Qed.

Lemma c_str_app_nul s n : c_str (s ++ replicate n NUL) = c_str s.
Proof. induction s as [|c s IH]; simpl; [apply c_str_replicate|]. by rewrite IH. Qed.

Lemma sun_path_string p : c_str (sun_path_bytes p) = c_str (ztake 103 p).
Proof. apply c_str_app_nul. Qed.

Lemma write_sun_path m p : length m = 106%nat -> write_at m 2 (sun_path_bytes p) = take 2 m ++ sun_path_bytes p.
Proof. intros Hm. unfold write_at. rewrite sun_path_bytes_length, drop_ge by lia. by rewrite app_nil_r. Qed.

(** The address is a block of 106 bytes with Linux's family and the path
    that is passed to the resolution. *)
Lemma sockaddr_local_eq `{LoopFuel, IcaseEnabled} {K} (h : handler K) stack name len g s :
  2 <= len <= 106 -> len <= Z.of_nat (length name) -> bsd_family name = PF_LOCAL -> terminated (drop 2 (ztake len name)) = true ->
  ∃ m, length m = 106%nat ∧ linux_family m = LINUX_PF_LOCAL ∧
    run h (sockaddr_fixup_from_bsd stack (sockaddr_fixup_size_from_bsd name len) name len) g s =
    run h (dfd ← get_perthread_wd;
           '(ret, vc) ← vchroot_expand (VchrootExpandArgs (c_str (drop 2 (ztake len name))) dfd true);
           if ret <? 0 then mret (errno_linux_to_bsd ret, m)
           else mret (2 + strlen (c_str (ztake 103 (vc_path vc))), take 2 m ++ sun_path_bytes (vc_path vc))) g s.
Proof.
  intros Hlen Hname Hf Ht. unfold sockaddr_fixup_size_from_bsd, sockaddr_fixup_from_bsd. rewrite Hf, Z.eqb_refl.
  change (sizeof_sockaddr_fixup <? 2) with false.
  assert ((len <? 0) || (Z.of_nat (length name) <? len) || (sizeof_sockaddr_fixup <? len) || false = false) as ->
    by (unfold sizeof_sockaddr_fixup; lia).
  cbv zeta. set (m := ztake len name ++ _).
  assert (length (ztake len name) = Z.to_nat len) as Hl by (unfold ztake; rewrite length_take; lia).
  assert (length m = 106%nat) as Hm.
  { unfold m. rewrite length_app, length_fmap, length_seq, Hl. unfold sizeof_sockaddr_fixup. lia. }
  assert (bsd_family m = PF_LOCAL) as ->.
  { unfold m, bsd_family, byte_at. rewrite lookup_app_l by lia. by rewrite <- (bsd_family_take len) in Hf by lia. }
  change (sfamily_bsd_to_linux PF_LOCAL) with LINUX_PF_LOCAL.
  rewrite linux_family_set, Z.eqb_refl, drop_set_linux_family by (done || lia).
  assert (drop 2 m = drop 2 (ztake len name) ++ (stack <$> seq 0 (Z.to_nat (sizeof_sockaddr_fixup - len)))) as ->
    by (unfold m; by rewrite drop_app_le by lia).
  destruct (terminated_app _ (stack <$> seq 0 (Z.to_nat (sizeof_sockaddr_fixup - len))) Ht) as [-> ->].
  change ((sizeof_sockaddr_fixup <? sizeof_sockaddr_fixup) || negb true) with false. cbv iota.
  exists (set_linux_family LINUX_PF_LOCAL m). assert (length (set_linux_family LINUX_PF_LOCAL m) = 106%nat) as Hml by (rewrite set_linux_family_length; lia).
  split; [done|]. split; [by rewrite linux_family_set by (done || lia)|].
  assert (∀ p, write_at (set_linux_family LINUX_PF_LOCAL m) 2 (sun_path_bytes p) = take 2 (set_linux_family LINUX_PF_LOCAL m) ++ sun_path_bytes p ∧
    c_str (drop 2 (take 2 (set_linux_family LINUX_PF_LOCAL m) ++ sun_path_bytes p)) = c_str (ztake 103 p)) as Hw.
  { intros p. split; [by apply write_sun_path|]. rewrite drop_app_length' by (rewrite length_take; lia). apply sun_path_string. }
  rewrite !run_bind. destruct (run h get_perthread_wd g s) as [[[dfd g'] s']|]; [|done]. rewrite !run_bind.
  destruct (run h (vchroot_expand _) g' s') as [[[[ret vc] g''] s'']|]; [|done]. destruct (ret <? 0); [done|].
  destruct (Hw (vc_path vc)) as [-> ->]. done.
Qed.

(** C26: a local address is resolved.  For a terminated path that does not
    name the exit directory, in an address of at most 106 bytes, on a host as
    for the resolution of paths (a working directory inside the prefix, links
    that do not name the exit directory, directories that end), the
    translation has no undefined behaviour and does exactly what resolving
    the path of the address does.  It fails with the error of the resolution,
    or the resolved path lies inside the prefix and the address given to
    Linux has Linux's family, 104 path bytes that hold (the first 103
    characters of) the resolved path, and the length 2 + the length of that
    string. *)
Theorem sockaddr_local_confined `{LoopFuel, IcaseEnabled} {K} (h : handler K) left prefix stack name len g s :
  prefix_dir prefix -> prefix_state prefix g -> follows h (vchroot_host true prefix) -> directories_end h left ->
  2 <= len <= 106 -> len <= Z.of_nat (length name) -> bsd_family name = PF_LOCAL ->
  terminated (drop 2 (ztake len name)) = true -> no_exit (c_str (drop 2 (ztake len name))) ->
  let wd := match g_wd g with Some fd => fd | None => LINUX_AT_FDCWD end in
  ∃ ret vc r g' s',
    run h (vchroot_expand (VchrootExpandArgs (c_str (drop 2 (ztake len name))) wd true)) g s = Some ((ret, vc), g', s') ∧
    run h (sockaddr_fixup_from_bsd stack (sockaddr_fixup_size_from_bsd name len) name len) g s = Some (r, g', s') ∧
    (ret < 0 ∧ r.1 = errno_linux_to_bsd ret ∧ r.1 < 0 ∨
     ret = 0 ∧ under prefix (vc_path vc) ∧ drop 2 r.2 = sun_path_bytes (vc_path vc) ∧ linux_family r.2 = LINUX_PF_LOCAL ∧
       r.1 = 2 + strlen (c_str (ztake 103 (vc_path vc)))).
Proof.
  intros Hp Hg Hh Hd Hlen Hname Hf Ht Hx wd. destruct (sockaddr_local_eq h stack name len g s Hlen Hname Hf Ht) as (m & Hm & Hfam & ->).
  set (args := VchrootExpandArgs (c_str (drop 2 (ztake len name))) wd true).
  destruct (ends_run h (vchroot_host true prefix) (vchroot_expand args) g (expand_post true prefix args) s Hh) as ([ret vc] & g' & s' & Hrun & Hk & Hres);
    [by apply vchroot_expand_wp|by apply (vchroot_expand_ends h left)|].
  exists ret, vc. rewrite run_bind. change (run h get_perthread_wd g s) with (Some (wd, g, s)). cbv beta iota.
  rewrite run_bind. fold args. rewrite Hrun. cbv beta iota. cbn [fst snd] in Hres. destruct (Z.ltb_spec ret 0) as [Hneg|Hpos].
  - eexists _, g', s'. split; [done|]. split; [done|]. left. split; [done|]. split; [done|]. by apply errno_negative.
  - destruct Hres as [(-> & _ & _ & Hu)|[? _]]; [|lia]. eexists _, g', s'. split; [done|]. split; [done|]. right. split; [done|]. split; [auto|].
    cbn [fst snd]. rewrite drop_app_length' by (rewrite length_take; lia). split; [done|]. split; [|done].
    destruct m as [|a [|b m]]; [simpl in Hm; lia..|]. done.
Qed.

(** A local address with its terminator, as bind(2) gets it. *)
Definition local_sockaddr (path : cstr) : list ascii :=
  byte_of (2 + strlen path) :: byte_of PF_LOCAL :: path ++ [NUL].

Lemma toy_directories_end : directories_end Toy.host (λ _, 0%nat).
Proof. split; [intros []; vm_compute; lia|]. intros nr args n s Hr. by vm_compute in Hr. Qed.

Lemma sockaddr_local_confined_witness :
  ∃ vc r g', run Toy.host (vchroot_expand (VchrootExpandArgs (s2c "/tmp/s") LINUX_AT_FDCWD true)) init_gstate tt = Some ((0, vc), g', tt) ∧
    run Toy.host (sockaddr_fixup_from_bsd (λ _, NUL) 106 (local_sockaddr (s2c "/tmp/s")) 9) init_gstate tt = Some (r, g', tt) ∧
    vc_path vc = s2c "/p/private/tmp/s" ∧ drop 2 r.2 = sun_path_bytes (vc_path vc) ∧ r.1 = 18.
Proof.
  destruct (sockaddr_local_confined Toy.host (λ _, 0%nat) Toy.prefix (λ _, NUL) (local_sockaddr (s2c "/tmp/s")) 9 init_gstate tt
    Toy.prefix_is_dir (or_intror eq_refl) Toy.host_follows toy_directories_end) as (ret & vc & r & g' & [] & Hrun & Hrun' & Hres);
    [lia|by vm_compute|by vm_compute|by vm_compute|by apply Toy.no_exit_check|].
  pose proof Hrun as E. vm_compute in E. injection E as <- <- <-. eexists _, r, _. split; [exact Hrun|]. split; [exact Hrun'|]. split; [reflexivity|].
  destruct Hres as [[H _]|(_ & _ & H & _ & Hr)]; [discriminate H|]. split; [exact H|]. rewrite Hr. reflexivity.
Defined.

(** The address of a local socket as the kernel gets it, on [Toy.host]. *)
Definition bound_path (stack : nat -> ascii) (name : list ascii) (len : Z) : option cstr :=
  match run Toy.host (sockaddr_fixup_from_bsd stack (sockaddr_fixup_size_from_bsd name len) name len) init_gstate tt with
  | Some (ret, out, _, _) => if ret <? 0 then None else Some (c_str (drop 2 out))
  | None => None
  end.

(** The path of a local address is cut silently.  Two different socket
    names of 102 characters, which fit Darwin's sun_path, become the same
    Linux address once the prefix "/p" is put before them. *)
Theorem sockaddr_truncates :
  let name c := local_sockaddr (SLASH :: replicate 100 "a"%char ++ [c]) in
  bound_path (λ _, NUL) (name "x"%char) 105 = Some (s2c "/p/" ++ replicate 100 "a"%char) ∧
  bound_path (λ _, NUL) (name "y"%char) 105 = Some (s2c "/p/" ++ replicate 100 "a"%char).
Proof. split; by vm_compute. Qed.

(** An address whose length excludes the terminator, as SUN_LEN computes
    it, is read past its end: what the stack holds becomes part of the path. *)
Theorem sockaddr_reads_stack :
  let name := byte_of 8 :: byte_of PF_LOCAL :: s2c "/etc/s" in
  bound_path (λ _, NUL) name 8 = Some (s2c "/p/etc/s") ∧
  bound_path (λ i, if (i <? 2)%nat then "x"%char else NUL) name 8 = Some (s2c "/p/etc/sxx").
Proof. split; by vm_compute. Qed.

(** *** Receiving and accepting *)

(** Recvfrom(2) computes the translated flags and does not use them: the
    kernel is given Darwin's flag word, in which MSG_WAITALL is Linux's
    MSG_DONTWAIT; sendto(2) translates. *)
Theorem recvfrom_flags_untranslated fd buf len flags from n g :
  (∃ k, sys_recvfrom_nocancel fd buf len flags from n g =
        Vis (SysOut __NR_recvfrom [AInt fd; AInt buf; AInt len; AInt flags] (OSockaddr n)) k) ∧
  (∃ k, sys_sendto_nocancel (λ _, NUL) fd buf len flags None 0 g =
        Vis (Sys __NR_sendto [AInt fd; AInt buf; AInt len; AInt (msgflags_bsd_to_linux flags); ANull; AInt 0]) k) ∧
  BSD_MSG_WAITALL = LINUX_MSG_DONTWAIT ∧ msgflags_bsd_to_linux BSD_MSG_WAITALL = LINUX_MSG_WAITALL.
Proof. split; [by eexists|]. split; [by eexists|]. by split. Qed.

(** Accept(2) with a null address crashes: as soon as the kernel accepts
    the connection, the code stores through the pointer. *)
Theorem accept_null_address fd n g :
  ¬ wp any_host (sys_accept_nocancel fd None n) g (λ _ _, True).
Proof. intros [_ Hk]. by destruct (Hk (3, ([], 0)) I). Qed.

(** A host for accept(2): it accepts as descriptor [child], [fl] are the file
    status flags of the descriptors, and F_SETFL requests are recorded. *)
Definition accept_host (child : Z) (fl : Z -> Z) : handler (list (Z * Z)) := λ X e log,
  match e in linuxE X return X * list (Z * Z) with
  | Sys nr args =>
    match args with
    | [AInt fd; AInt cmd; AInt a] =>
      if nr =? __NR_fcntl then
        if cmd =? LINUX_F_GETFL then (fl fd, log) else if cmd =? LINUX_F_SETFL then (0, log ++ [(fd, a)]) else (0, log)
      else (0, log)
    | _ => (0, log)
    end
  | SysOut _ _ o => ((child, zero_out o), log)
  | Lkm c => ((0, zero_lkm c), log)
  end.

Lemma accept_getfl child fl fd g log :
  0 <= fl fd <= INT_MAX ->
  run (accept_host child fl) (sys_fcntl_nocancel fd F_GETFL (FInt 0)) g log =
  Some ((oflags_linux_to_bsd (fl fd), ONothing), g, log).
Proof.
  intros Hfl. change (sys_fcntl_nocancel fd F_GETFL (FInt 0)) with (fcntl_int fd F_GETFL 0).
  unfold fcntl_int. rewrite run_bind, run_syscall_int. cbn [accept_host].
  change (__NR_fcntl =? __NR_fcntl) with true. change (cmd_bsd_to_linux F_GETFL =? LINUX_F_GETFL) with true. cbv iota beta.
  rewrite s32_id by (unfold INT_MIN; lia). by destruct (Z.ltb_spec (fl fd) 0); [lia|].
Qed.

(** An accepted socket inherits O_NONBLOCK.  When the listening socket has
    O_NONBLOCK, exactly one F_SETFL is issued, on the new descriptor, with
    O_NONBLOCK added to its known flags; otherwise none is issued. *)
Theorem accept_inherits_nonblock fd child fl mem n g :
  0 <= child <= INT_MAX -> 0 <= fl fd <= INT_MAX -> 0 <= fl child <= INT_MAX -> (2 <= length mem)%nat ->
  ∃ out, run (accept_host child fl) (sys_accept_nocancel fd (Some mem) n) g [] =
    Some ((child, out, 0), g,
          if has (fl fd) LINUX_O_NONBLOCK
          then [(child, oflags_bsd_to_linux (Z.lor (oflags_linux_to_bsd (fl child)) BSD_O_NONBLOCK))] else []).
Proof.
  intros Hc Hp Hch Hm.
  assert (∀ x, 0 <= oflags_linux_to_bsd x < 2 ^ 31) as Hr by (intros x; by apply translate_range).
  unfold sys_accept_nocancel. rewrite run_bind, run_syscall_int_out. cbn [accept_host zero_out].
  rewrite s32_id by (unfold INT_MIN; lia). destruct (Z.ltb_spec child 0); [lia|].
  change (write_at mem 0 []) with mem. destruct (Z.ltb_spec (Z.of_nat (length mem)) 2); [lia|]. cbv zeta.
  rewrite run_bind, (accept_getfl child fl) by done. rewrite run_bind, (accept_getfl child fl) by done.
  pose proof (Hr (fl fd)). pose proof (Hr (fl child)).
  destruct (Z.leb_spec 0 (oflags_linux_to_bsd (fl fd))); [|lia].
  destruct (Z.leb_spec 0 (oflags_linux_to_bsd (fl child))); [|lia]. cbn [andb].
  assert (has (oflags_linux_to_bsd (fl fd)) BSD_O_NONBLOCK = has (fl fd) LINUX_O_NONBLOCK) as ->.
  { apply (has_translate_unique _ _ _ _ BSD_O_NONBLOCK); by vm_compute. }
  destruct (has (fl fd) LINUX_O_NONBLOCK); [|eexists; reflexivity].
  eexists. rewrite run_bind.
  change (sys_fcntl_nocancel child F_SETFL (FInt ?a)) with (fcntl_int child F_SETFL (oflags_bsd_to_linux (s32 a))).
  unfold fcntl_int. rewrite run_bind, run_syscall_int. cbn [accept_host].
  change (__NR_fcntl =? __NR_fcntl) with true. change (cmd_bsd_to_linux F_SETFL =? LINUX_F_GETFL) with false.
  change (cmd_bsd_to_linux F_SETFL =? LINUX_F_SETFL) with true. cbv iota beta. change (s32 0) with 0. cbn [Z.ltb Z.compare].
  rewrite s32_id; [reflexivity|]. pose proof (lor_range 31 (oflags_linux_to_bsd (fl child)) BSD_O_NONBLOCK).
  unfold INT_MIN, INT_MAX. unfold BSD_O_NONBLOCK in *. lia.
Qed.

Lemma accept_inherits_nonblock_witness :
  ∃ out, run (accept_host 7 (λ fd, if fd =? 3 then 0x802 else 2)) (sys_accept_nocancel 3 (Some (replicate 16 NUL)) 16)
    init_gstate [] = Some ((7, out, 0), init_gstate, [(7, 0x802)]).
Proof.
  apply (accept_inherits_nonblock 3 7 (λ fd, if fd =? 3 then 0x802 else 2) (replicate 16 NUL) 16 init_gstate);
    [by vm_compute|by vm_compute|by vm_compute|simpl; lia].
Defined.
