(* ===== verification/Sockmsg.v ===== *)
(** * network/: socket options and messages with control data

    getsockopt.c, setsockopt.c, sendmsg.c, recvmsg.c *)
From S2P Require Import Prelude Abi Linux Errno Base Network.

(** ** Socket options *)

Definition LINGER_TICKS_PER_SEC : Z := 100.

(** The value behind [optval]: an address that is passed on unread, or one of
    the structures the code looks into. *)
Inductive optval : Set :=
| VRaw (a : Z)
| VLinger (l_onoff l_linger : Z)
| VTimeval (tv_sec tv_usec : Z).

Definition optval_arg (v : optval) : arg :=
  match v with VRaw a => AInt a | VLinger o l => ALinger o l | VTimeval s u => ATimeval (Timeval s u) end.

(** What [sockopt_bsd_to_linux] leaves in [*level], [*optname] and [*optval],
    and whether it cleared a [struct xucred] in [optbuf]. *)
Record sockopt_res := SockoptRes {
  so_ret : Z; so_level : Z; so_optname : Z; so_optval : option optval; so_xucred : bool }.

Definition so_socket_tbl : list (Z * Z) := [
  (BSD_SO_DEBUG, LINUX_SO_DEBUG); (BSD_SO_ACCEPTCONN, LINUX_SO_ACCEPTCONN); (BSD_SO_REUSEADDR, LINUX_SO_REUSEADDR);
  (BSD_SO_KEEPALIVE, LINUX_SO_KEEPALIVE); (BSD_SO_DONTROUTE, LINUX_SO_DONTROUTE);
  (BSD_SO_BROADCAST, LINUX_SO_BROADCAST); (BSD_SO_TIMESTAMP, LINUX_SO_TIMESTAMP);
  (BSD_SO_OOBINLINE, LINUX_SO_OOBINLINE); (BSD_SO_REUSEPORT, LINUX_SO_REUSEPORT); (BSD_SO_SNDBUF, LINUX_SO_SNDBUF);
  (BSD_SO_RCVBUF, LINUX_SO_RCVBUF); (BSD_SO_SNDLOWAT, LINUX_SO_SNDLOWAT); (BSD_SO_RCVLOWAT, LINUX_SO_RCVLOWAT);
  (BSD_SO_SNDTIMEO, LINUX_SO_SNDTIMEO); (BSD_SO_RCVTIMEO, LINUX_SO_RCVTIMEO); (BSD_SO_ERROR, LINUX_SO_ERROR);
  (BSD_SO_TYPE, LINUX_SO_TYPE); (BSD_SO_LINGER_SEC, LINUX_SO_LINGER); (BSD_SO_NOSIGNAL, 0) ].

(** For the first two options the code leaves the number as it is. *)
Definition so_tcp_tbl : list (Z * Z) := [
  (BSD_TCP_NODELAY, BSD_TCP_NODELAY); (BSD_TCP_MAXSEG, BSD_TCP_MAXSEG); (BSD_TCP_KEEPALIVE, LINUX_TCP_KEEPIDLE);
  (BSD_TCP_KEEPINTVL, LINUX_TCP_KEEPINTVL); (BSD_TCP_KEEPCNT, LINUX_TCP_KEEPCNT) ].

Definition so_ip_tbl : list (Z * Z) := [
  (BSD_IP_OPTIONS, LINUX_IP_OPTIONS); (BSD_IP_HDRINCL, LINUX_IP_HDRINCL); (BSD_IP_TOS, LINUX_IP_TOS);
  (BSD_IP_TTL, LINUX_IP_TTL); (BSD_IP_RECVOPTS, LINUX_IP_RECVOPTS); (BSD_IP_RECVRETOPTS, LINUX_IP_RECVOPTS);
  (BSD_IP_RETOPTS, LINUX_IP_RETOPTS); (BSD_IP_MULTICAST_IF, LINUX_IP_MULTICAST_IF);
  (BSD_IP_MULTICAST_TTL, LINUX_IP_MULTICAST_TTL); (BSD_IP_MULTICAST_LOOP, LINUX_IP_MULTICAST_LOOP);
  (BSD_IP_ADD_MEMBERSHIP, LINUX_IP_ADD_MEMBERSHIP); (BSD_IP_DROP_MEMBERSHIP, LINUX_IP_DROP_MEMBERSHIP);
  (BSD_IP_RECVTTL, LINUX_IP_RECVTTL) ].

Definition so_ipv6_tbl : list (Z * Z) := [
  (BSD_IPV6_UNICAST_HOPS, LINUX_IPV6_UNICAST_HOPS); (BSD_IPV6_MULTICAST_IF, LINUX_IPV6_MULTICAST_IF);
  (BSD_IPV6_MULTICAST_HOPS, LINUX_IPV6_MULTICAST_HOPS); (BSD_IPV6_MULTICAST_LOOP, LINUX_IPV6_MULTICAST_LOOP);
  (BSD_IPV6_JOIN_GROUP, LINUX_IPV6_JOIN_GROUP); (BSD_IPV6_LEAVE_GROUP, LINUX_IPV6_LEAVE_GROUP);
  (BSD_IPV6_2292PKTINFO, LINUX_IPV6_2292PKTINFO); (BSD_IPV6_2292HOPLIMIT, LINUX_IPV6_2292HOPLIMIT);
  (BSD_IPV6_2292NEXTHOP, LINUX_IPV6_NEXTHOP); (BSD_IPV6_2292HOPOPTS, LINUX_IPV6_2292HOPOPTS);
  (BSD_IPV6_2292DSTOPTS, LINUX_IPV6_2292DSTOPTS); (BSD_IPV6_2292RTHDR, LINUX_IPV6_2292RTHDR);
  (BSD_IPV6_V6ONLY, LINUX_IPV6_V6ONLY) ].

(** The switch on [*optname]: the new name, or the error of the default case. *)
Definition opt_switch (tbl : list (Z * Z)) (err level optname : Z) (v : option optval) : sockopt_res :=
  match case_of tbl optname with
  | Some n => SockoptRes 0 level n v false
  | None => SockoptRes (- err) level optname v false
  end.

Definition in_int (z : Z) : bool := (INT_MIN <=? z) && (z <=? INT_MAX).

(** The conversion of a linger time from ticks to seconds when [optval] is
    given; a signed overflow or a wild pointer is undefined. *)
Definition linger_in (v : option optval) : M (option optval) :=
  match v with
  | None => mret None
  | Some (VLinger onoff l) =>
    if in_int (l + LINGER_TICKS_PER_SEC) then
      mret (Some (VLinger onoff (Z.quot (l + LINGER_TICKS_PER_SEC - 1) LINGER_TICKS_PER_SEC)))
    else undefined
  | Some _ => undefined
  end.

Definition sockopt_bsd_to_linux (level optname : Z) (v : option optval) : M sockopt_res :=
  if (optname =? LOCAL_PEERCRED) && (level =? IPPROTO_IP) then mret (SockoptRes 0 level 0 v true)
  else if level =? BSD_SOL_SOCKET then
    if optname =? BSD_SO_USELOOPBACK then mret (SockoptRes (- ENOTSUP) LINUX_SOL_SOCKET optname v false)
    else if optname =? BSD_SO_LINGER_TICKS then
      v ← linger_in v; mret (SockoptRes 0 LINUX_SOL_SOCKET LINUX_SO_LINGER v false)
    else mret (opt_switch so_socket_tbl EINVAL LINUX_SOL_SOCKET optname v)
  else if level =? IPPROTO_TCP then mret (opt_switch so_tcp_tbl ENOTSUP level optname v)
  else if level =? IPPROTO_IP then mret (opt_switch so_ip_tbl ENOTSUP level optname v)
  else if level =? IPPROTO_IPV6 then mret (opt_switch so_ipv6_tbl ENOTSUP level optname v)
  else mret (SockoptRes 0 level optname v false).

(** What is in the memory at [optval] after getsockopt: unknown to the
    emulation layer, or a structure it has stored there. *)
Inductive optval_out : Set := GRaw | GXucred0 | GLinger (l_onoff l_linger : Z) | GInt (z : Z) | GTimeval (tv_sec tv_usec : Z).

Definition sys_getsockopt (fd level optname optval optlen : Z) : M (Z * optval_out) :=
  r ← sockopt_bsd_to_linux level optname None;
  if negb (so_ret r =? 0) || (so_optname r =? 0) then mret (so_ret r, if so_xucred r then GXucred0 else GRaw)
  else
    let args := [AInt fd; AInt (so_level r); AInt (so_optname r); AInt optval; AInt optlen] in
    if (level =? BSD_SOL_SOCKET) && (optname =? BSD_SO_LINGER_TICKS) then
      '(ret, (onoff, l)) ← syscall_int_out __NR_getsockopt args OLinger;
      if ret <? 0 then mret (errno_linux_to_bsd ret, GRaw)
      else if in_int (l * LINGER_TICKS_PER_SEC) then mret (ret, GLinger onoff (l * LINGER_TICKS_PER_SEC)) else undefined
    else if (level =? BSD_SOL_SOCKET) && (optname =? BSD_SO_ERROR) then
      '(ret, err) ← syscall_int_out __NR_getsockopt args OInt;
      if ret <? 0 then mret (errno_linux_to_bsd ret, GRaw)
      else if negb (optval =? 0) && negb (err =? 0) then mret (ret, GInt (errno_linux_to_bsd err))
      else mret (ret, GInt err)
    else if (level =? BSD_SOL_SOCKET) && (optname =? BSD_SO_RCVTIMEO) then
      '(ret, ltv) ← syscall_int_out __NR_getsockopt args OTimeval;
      if ret <? 0 then mret (errno_linux_to_bsd ret, GRaw) else mret (ret, GTimeval (tv_s ltv) (s32 (tv_usec ltv)))
    else
      ret ← syscall_int __NR_getsockopt args; mret (bsd_ret ret, GRaw).

Definition sizeof_linux_timeval : Z := 16.

Definition sys_setsockopt (fd level optname : Z) (v : optval) (optlen : Z) : M Z :=
  r ← sockopt_bsd_to_linux level optname (Some v);
  if negb (so_ret r =? 0) || (so_optname r =? 0) then mret (so_ret r)
  else
    let call (a : arg) (optlen : Z) : M Z :=
      ret ← syscall_int __NR_setsockopt [AInt fd; AInt (so_level r); AInt (so_optname r); a; AInt optlen];
      mret (bsd_ret ret) in
    let v := default v (so_optval r) in
    if (level =? BSD_SOL_SOCKET) && (optname =? BSD_SO_RCVTIMEO) then
      match v with VTimeval _ _ => call (optval_arg v) sizeof_linux_timeval | _ => undefined end
    else call (optval_arg v) optlen.

(** ** Messages *)

Definition socket_level_bsd_to_linux (level : Z) : Z := switch [(BSD_SOL_SOCKET, LINUX_SOL_SOCKET)] level level.
Definition socket_level_linux_to_bsd (level : Z) : Z := switch [(LINUX_SOL_SOCKET, BSD_SOL_SOCKET)] level level.

Definition sizeof_bsd_cmsghdr : Z := 12.
Definition sizeof_linux_cmsghdr : Z := 16.
Definition LINUX_BSD_CMSGHDR_SIZE_DIFFERENCE : Z := sizeof_linux_cmsghdr - sizeof_bsd_cmsghdr.

Definition ALIGN (what how : Z) : Z := Z.land (what + how - 1) (Z.lnot (how - 1)).
Definition BSD_CMSG_ALIGN (len : Z) : Z := ALIGN len 4.
Definition LINUX_CMSG_ALIGN (len : Z) : Z := ALIGN len 8.
Definition BSD_CMSG_SPACE (len : Z) : Z := BSD_CMSG_ALIGN sizeof_bsd_cmsghdr + BSD_CMSG_ALIGN len.
Definition LINUX_CMSG_SPACE (len : Z) : Z := LINUX_CMSG_ALIGN sizeof_linux_cmsghdr + LINUX_CMSG_ALIGN len.

Record bsd_cmsghdr := BsdCmsghdr { bc_len : Z; bc_level : Z; bc_type : Z; bc_data : list ascii }.

(** Control data is the sequence of its headers; [bm_iov] is an address. *)
Record bsd_msghdr := BsdMsghdr {
  bm_name : option (list ascii); bm_namelen : Z; bm_iov : Z; bm_iovlen : Z;
  bm_control : option (list bsd_cmsghdr); bm_controllen : Z; bm_flags : Z }.

(** The name for the kernel.  [uninit] is what [lmsg.msg_name] held before:
    it is not assigned when there is no name. *)
Definition sendmsg_name (uninit : option (list ascii)) (msg : bsd_msghdr) : M (option (list ascii)) :=
  match bm_name msg with
  | Some name =>
    if 0 <? bm_namelen msg then
      if (Z.of_nat (length name) <? bm_namelen msg) || (bm_namelen msg <? 2) then undefined
      else let saddr := ztake (bm_namelen msg) name in
           mret (Some (set_linux_family (sfamily_bsd_to_linux (bsd_family saddr)) saddr))
    else mret uninit
  | None => mret uninit
  end.

(** The control data for the kernel: the first header only.  The rest of the
    allocated block is not written. *)
Definition sendmsg_control (msg : bsd_msghdr) : M (option (list linux_cmsghdr) * Z) :=
  match bm_control msg with
  | Some hdrs =>
    if 0 <? bm_controllen msg then
      let controllen := LINUX_CMSG_ALIGN (bm_controllen msg + LINUX_BSD_CMSGHDR_SIZE_DIFFERENCE) in
      match hdrs with
      | [] => undefined
      | b :: _ =>
        let n := bc_len b - sizeof_bsd_cmsghdr in
        if (n <? 0) || (Z.of_nat (length (bc_data b)) <? n) || (controllen <? sizeof_linux_cmsghdr + n) then undefined
        else mret (Some [LinuxCmsghdr (bc_len b + LINUX_BSD_CMSGHDR_SIZE_DIFFERENCE)
                           (socket_level_bsd_to_linux (bc_level b)) (bc_type b) (ztake n (bc_data b))], controllen)
      end
    else mret (None, 0)
  | None => mret (None, 0)
  end.

Definition sys_sendmsg_nocancel (uninit : option (list ascii)) (socket : Z) (msg : bsd_msghdr) (flags : Z) : M Z :=
  name ← sendmsg_name uninit msg;
  '(control, controllen) ← sendmsg_control msg;
  let lmsg := LinuxMsghdr name (bm_namelen msg) (bm_iov msg) (bm_iovlen msg) control controllen 0 in
  ret ← syscall_int __NR_sendmsg [AInt socket; AMsghdr lmsg; AInt (msgflags_bsd_to_linux flags)];
  mret (bsd_ret ret).

Definition sys_sendmsg (uninit : option (list ascii)) (socket : Z) (msg : bsd_msghdr) (flags : Z) : M Z :=
  CANCELATION_POINT id (sys_sendmsg_nocancel uninit socket msg flags).

(** The conversion loop of recvmsg: the headers stored in the caller's
    control buffer with their offsets, and the new [msg_controllen].  Reading
    past the headers the kernel stored is undefined, and so is storing a
    header or its data behind the [size] bytes of the caller's buffer. *)
Fixpoint control_loop (size total : Z) (l : list linux_cmsghdr) (lpos bpos controllen : Z)
  : M (list (Z * bsd_cmsghdr) * Z) :=
  if lpos <? total then
    match l with
    | [] => undefined
    | lnext :: l =>
      let n := lc_len lnext - sizeof_linux_cmsghdr in
      if (n <? 0) || (Z.of_nat (length (lc_data lnext)) <? n) then undefined
      else
        let bnext := BsdCmsghdr (lc_len lnext - LINUX_BSD_CMSGHDR_SIZE_DIFFERENCE)
                       (socket_level_linux_to_bsd (lc_level lnext)) (lc_type lnext) (ztake n (lc_data lnext)) in
        if size <? bpos + bc_len bnext then undefined else
        '(out, c) ← control_loop size total l (lpos + ALIGN (lc_len lnext) 8) (bpos + ALIGN (bc_len bnext) 4)
                      (u32 (controllen - (LINUX_CMSG_SPACE n - BSD_CMSG_SPACE n)));
        mret ((bpos, bnext) :: out, c)
    end
  else mret ([], controllen).

(** The result, and the caller's header with what was stored through it: the
    control headers with their offsets are returned beside it. *)
Definition sys_recvmsg_nocancel (socket : Z) (msg : bsd_msghdr) (flags : Z)
  : M (Z * bsd_msghdr * list (Z * bsd_cmsghdr)) :=
  let has_control := match bm_control msg with Some _ => 0 <? bm_controllen msg | None => false end in
  let lmsg := LinuxMsghdr (bm_name msg) (bm_namelen msg) (bm_iov msg) (bm_iovlen msg)
    (if has_control then Some [] else None)
    (if has_control then LINUX_CMSG_ALIGN (bm_controllen msg + LINUX_BSD_CMSGHDR_SIZE_DIFFERENCE) else 0) 0 in
  '(ret, lmsg) ← syscall_int_out __NR_recvmsg [AInt socket; AMsghdr lmsg; AInt (msgflags_bsd_to_linux flags)] OMsghdr;
  if ret <? 0 then mret (errno_linux_to_bsd ret, msg, [])
  else
    '(hdrs, controllen) ←
      match bm_control msg with
      | Some _ => control_loop (bm_controllen msg) (lm_controllen lmsg) (default [] (lm_control lmsg)) 0 0 (u32 (lm_controllen lmsg))
      | None => mret ([], bm_controllen msg)
      end;
    name ←
      match lm_name lmsg with
      | Some saddr =>
        if 0 <? lm_namelen lmsg then
          if Z.of_nat (length saddr) <? 2 then undefined
          else mret (Some (set_bsd_family (sfamily_linux_to_bsd (linux_family saddr)) saddr))
        else mret (Some saddr)
      | None => mret None
      end;
    mret (ret, BsdMsghdr name (lm_namelen lmsg) (bm_iov msg) (bm_iovlen msg) (bm_control msg) controllen
                 (msgflags_linux_to_bsd (lm_flags lmsg)), hdrs).

Definition sys_recvmsg (socket : Z) (msg : bsd_msghdr) (flags : Z) : M (Z * bsd_msghdr * list (Z * bsd_cmsghdr)) :=
  CANCELATION_POINT (λ e, (e, msg, [])) (sys_recvmsg_nocancel socket msg flags).

(** ** Theorems: options *)

(** A host that keeps the linger option of one socket. *)
Definition linger_host : handler (Z * Z) := λ X e s,
  match e in linuxE X return X * (Z * Z) with
  | Sys nr args => match args with [_; _; _; ALinger o l; _] => (0, (o, l)) | _ => (0, s) end
  | SysOut nr args o =>
    match o in outk Y return (Z * Y) * (Z * Z) with OLinger => ((0, s), s) | o => ((0, zero_out o), s) end
  | Lkm c => ((0, zero_lkm c), s)
  end.

Lemma run_set_linger fd onoff t n s g :
  in_int (t + LINGER_TICKS_PER_SEC) = true ->
  run linger_host (sys_setsockopt fd BSD_SOL_SOCKET BSD_SO_LINGER_TICKS (VLinger onoff t) n) g s =
  Some (0, g, (onoff, Z.quot (t + LINGER_TICKS_PER_SEC - 1) LINGER_TICKS_PER_SEC)).
Proof.
  intros Ht. unfold sys_setsockopt. rewrite run_bind.
  change (sockopt_bsd_to_linux BSD_SOL_SOCKET BSD_SO_LINGER_TICKS (Some (VLinger onoff t))) with
    (v ← linger_in (Some (VLinger onoff t)); mret (SockoptRes 0 LINUX_SOL_SOCKET LINUX_SO_LINGER v false)).
  unfold linger_in. rewrite Ht. reflexivity.
Qed.

Lemma run_get_linger fd a n s g :
  in_int (s.2 * LINGER_TICKS_PER_SEC) = true ->
  run linger_host (sys_getsockopt fd BSD_SOL_SOCKET BSD_SO_LINGER_TICKS a n) g s =
  Some ((0, GLinger s.1 (s.2 * LINGER_TICKS_PER_SEC)), g, s).
Proof.
  intros Ht. unfold sys_getsockopt. rewrite run_bind.
  change (sockopt_bsd_to_linux BSD_SOL_SOCKET BSD_SO_LINGER_TICKS None) with
    (mret (SockoptRes 0 LINUX_SOL_SOCKET LINUX_SO_LINGER None false) : M sockopt_res).
  change (run linger_host (mret ?r) g s) with (Some (r, g, s)). cbv iota beta.
  change (negb _ || _) with false. cbn [so_level so_optname]. rewrite !Z.eqb_refl. cbn [andb].
  rewrite run_bind, run_syscall_int_out. cbn [linger_host]. destruct s as [o l]. cbn [fst snd] in *.
  change (s32 0) with 0. change (0 <? 0) with false. cbv iota. by rewrite Ht.
Qed.

(** A linger time set in ticks is never shortened.  Linux gets whole
    seconds; reading the option back gives at least the time that was set,
    and less than a second more. *)
Theorem linger_ticks_round_trip fd onoff t n s g :
  0 <= t <= INT_MAX - 200 ->
  ∃ t', run linger_host (sys_setsockopt fd BSD_SOL_SOCKET BSD_SO_LINGER_TICKS (VLinger onoff t) n;;
                         sys_getsockopt fd BSD_SOL_SOCKET BSD_SO_LINGER_TICKS 1 1) g s =
        Some ((0, GLinger onoff t'), g, (onoff, t' / LINGER_TICKS_PER_SEC)) ∧
        t <= t' < t + LINGER_TICKS_PER_SEC.
Proof.
  unfold INT_MAX. intros Ht. unfold LINGER_TICKS_PER_SEC. set (q := (t + 99) / 100).
  assert (100 * q <= t + 99 < 100 * q + 100) as Hq.
  { unfold q. pose proof (Z.div_mod (t + 99) 100). pose proof (Z.mod_pos_bound (t + 99) 100). lia. }
  exists (q * 100). split; [|lia]. rewrite run_bind, run_set_linger.
  - replace (t + LINGER_TICKS_PER_SEC - 1) with (t + 99) by (unfold LINGER_TICKS_PER_SEC; lia).
    rewrite Z.quot_div_nonneg by (unfold LINGER_TICKS_PER_SEC; lia). rewrite run_get_linger.
    + cbn [fst snd]. unfold LINGER_TICKS_PER_SEC. fold q. by rewrite Z.div_mul by lia.
    + cbn [snd]. unfold in_int, INT_MIN, INT_MAX, LINGER_TICKS_PER_SEC. fold q. lia.
  - unfold in_int, INT_MIN, INT_MAX, LINGER_TICKS_PER_SEC. lia.
Qed.

Lemma linger_ticks_round_trip_witness :
  run linger_host (sys_setsockopt 3 BSD_SOL_SOCKET BSD_SO_LINGER_TICKS (VLinger 1 150) 8;;
                   sys_getsockopt 3 BSD_SOL_SOCKET BSD_SO_LINGER_TICKS 1 1) init_gstate (0, 0) =
    Some ((0, GLinger 1 200), init_gstate, (1, 2)) ∧ 150 <= 200 < 150 + LINGER_TICKS_PER_SEC.
Proof.
  destruct (linger_ticks_round_trip 3 1 150 8 (0, 0) init_gstate) as (t' & Hrun & Ht); [by vm_compute|].
  vm_compute in Hrun. injection Hrun as <-. split; [reflexivity|exact Ht].
Defined.

Definition so_level_tbl (level : Z) : option (list (Z * Z) * Z) :=
  if level =? BSD_SOL_SOCKET then
    Some ((BSD_SO_LINGER_TICKS, LINUX_SO_LINGER) :: so_socket_tbl, EINVAL)
  else if level =? IPPROTO_TCP then Some (so_tcp_tbl, ENOTSUP)
  else if level =? IPPROTO_IP then Some ((LOCAL_PEERCRED, 0) :: so_ip_tbl, ENOTSUP)
  else if level =? IPPROTO_IPV6 then Some (so_ipv6_tbl, ENOTSUP)
  else None.

(** Options without a Linux equivalent are rejected.  At the four known
    levels, setsockopt(2) and getsockopt(2) of an option that is not in the
    table return the error of that level and never reach the kernel. *)
Theorem sockopt_rejects fd level optname v a n tbl err g :
  so_level_tbl level = Some (tbl, err) -> case_of tbl optname = None -> optname ≠ BSD_SO_USELOOPBACK ->
  sys_setsockopt fd level optname v n g = Ret (- err, g) ∧
  sys_getsockopt fd level optname a n g = Ret ((- err, GRaw), g).
Proof.
  intros Hl Hc Hu. unfold so_level_tbl in Hl.
  assert (∀ w, sockopt_bsd_to_linux level optname w g =
    Ret (SockoptRes (- err) (if level =? BSD_SOL_SOCKET then LINUX_SOL_SOCKET else level) optname w false, g)
    ∧ 0 < err) as Hs.
  { intros w. unfold sockopt_bsd_to_linux, opt_switch.
    destruct (Z.eqb_spec level BSD_SOL_SOCKET) as [->|]; [|destruct (Z.eqb_spec level IPPROTO_TCP) as [->|];
      [|destruct (Z.eqb_spec level IPPROTO_IP) as [->|]; [|destruct (Z.eqb_spec level IPPROTO_IPV6) as [->|]; [|done]]]];
    injection Hl as <- <-.
    - change (BSD_SOL_SOCKET =? IPPROTO_IP) with false. rewrite andb_false_r. cbn [case_of fst snd] in Hc.
      destruct (Z.eqb_spec optname BSD_SO_LINGER_TICKS); [done|]. destruct (Z.eqb_spec optname BSD_SO_USELOOPBACK); [done|].
      by rewrite Hc.
    - change (IPPROTO_TCP =? IPPROTO_IP) with false. rewrite andb_false_r. by rewrite Hc.
    - cbn [case_of fst snd] in Hc. destruct (Z.eqb_spec optname LOCAL_PEERCRED); [done|]. cbn [andb]. by rewrite Hc.
    - change (IPPROTO_IPV6 =? IPPROTO_IP) with false. rewrite andb_false_r. by rewrite Hc. }
  unfold sys_setsockopt, sys_getsockopt, mbind, M_bind.
  destruct (Hs (Some v)) as [-> He]. destruct (Hs None) as [-> _]. cbn [prog_bind so_ret so_optname so_xucred].
  destruct (Z.eqb_spec (- err) 0); [lia|]. done.
Qed.

Lemma sockopt_rejects_witness :
  sys_setsockopt 3 BSD_SOL_SOCKET 0x1234 (VRaw 0) 4 init_gstate = Ret (- EINVAL, init_gstate) ∧
  sys_getsockopt 3 BSD_SOL_SOCKET 0x1234 0 4 init_gstate = Ret ((- EINVAL, GRaw), init_gstate).
Proof.
  apply (sockopt_rejects 3 BSD_SOL_SOCKET 0x1234 (VRaw 0) 0 4 ((BSD_SO_LINGER_TICKS, LINUX_SO_LINGER) :: so_socket_tbl));
    by vm_compute.
Defined.

(** IP_OPTIONS cannot be reached: the test for LOCAL_PEERCRED comes first
    and has the same level and number, so reading the options of a socket
    succeeds with zeroes without asking the kernel, although the switch has a
    case for it. *)
Theorem ip_options_shadowed fd a n v g :
  sys_getsockopt fd IPPROTO_IP BSD_IP_OPTIONS a n g = Ret ((0, GXucred0), g) ∧
  sys_setsockopt fd IPPROTO_IP BSD_IP_OPTIONS v n g = Ret (0, g) ∧
  case_of so_ip_tbl BSD_IP_OPTIONS = Some LINUX_IP_OPTIONS.
Proof. done. Qed.

(** ** Theorems: control data *)

Lemma ALIGN_spec x k : 0 <= k -> ALIGN x (2 ^ k) = (x + 2 ^ k - 1) / 2 ^ k * 2 ^ k.
Proof.
  intros Hk. unfold ALIGN. replace (2 ^ k - 1) with (Z.ones k) by (rewrite Z.ones_equiv; lia).
  rewrite <- Z.ldiff_land, Z.ldiff_ones_r, Z.shiftl_mul_pow2, Z.shiftr_div_pow2 by lia. done.
Qed.

Lemma align8_spec x : LINUX_CMSG_ALIGN x = (x + 7) / 8 * 8.
Proof. unfold LINUX_CMSG_ALIGN. change 8 with (2 ^ 3) at 1. rewrite ALIGN_spec by lia. change (2 ^ 3) with 8. do 2 f_equal. lia. Qed.

Lemma align4_spec x : BSD_CMSG_ALIGN x = (x + 3) / 4 * 4.
Proof. unfold BSD_CMSG_ALIGN. change 4 with (2 ^ 2) at 1. rewrite ALIGN_spec by lia. change (2 ^ 2) with 4. do 2 f_equal. lia. Qed.

Lemma linux_space_spec n : LINUX_CMSG_SPACE n = 16 + (n + 7) / 8 * 8 ∧ ALIGN (16 + n) 8 = LINUX_CMSG_SPACE n.
Proof.
  unfold LINUX_CMSG_SPACE. change (ALIGN (16 + n) 8) with (LINUX_CMSG_ALIGN (16 + n)). rewrite !align8_spec.
  unfold sizeof_linux_cmsghdr. change ((16 + 7) / 8 * 8) with 16. replace (16 + n + 7) with (n + 7 + 2 * 8) by lia.
  rewrite Z.div_add by lia. lia.
Qed.

Lemma bsd_space_spec n : BSD_CMSG_SPACE n = 12 + (n + 3) / 4 * 4 ∧ ALIGN (12 + n) 4 = BSD_CMSG_SPACE n.
Proof.
  unfold BSD_CMSG_SPACE. change (ALIGN (12 + n) 4) with (BSD_CMSG_ALIGN (12 + n)). rewrite !align4_spec.
  unfold sizeof_bsd_cmsghdr. change ((12 + 3) / 4 * 4) with 12. replace (12 + n + 3) with (n + 3 + 3 * 4) by lia.
  rewrite Z.div_add by lia. lia.
Qed.

Lemma space_difference n : 0 <= n -> 0 < BSD_CMSG_SPACE n ∧ BSD_CMSG_SPACE n + 4 <= LINUX_CMSG_SPACE n.
Proof. intros ?. destruct (linux_space_spec n) as [-> _], (bsd_space_spec n) as [-> _]. Z.to_euclidean_division_equations. lia. Qed.

(** A header as the kernel stores it. *)
Definition linux_cmsg_ok (c : linux_cmsghdr) : Prop := lc_len c = sizeof_linux_cmsghdr + Z.of_nat (length (lc_data c)).

(** The same message for Darwin, and where its headers go: each follows the
    one before it, padded to 4 bytes. *)
Definition cmsg_data_len (c : linux_cmsghdr) : Z := Z.of_nat (length (lc_data c)).
Definition bsd_of (c : linux_cmsghdr) : bsd_cmsghdr :=
  BsdCmsghdr (sizeof_bsd_cmsghdr + cmsg_data_len c) (socket_level_linux_to_bsd (lc_level c)) (lc_type c) (lc_data c).
Definition linux_total (l : list linux_cmsghdr) : Z := foldr (λ c s, LINUX_CMSG_SPACE (cmsg_data_len c) + s) 0 l.
Definition bsd_total (l : list linux_cmsghdr) : Z := foldr (λ c s, BSD_CMSG_SPACE (cmsg_data_len c) + s) 0 l.
Fixpoint layout_at (pos : Z) (l : list linux_cmsghdr) : list (Z * bsd_cmsghdr) :=
  match l with
  | [] => []
  | c :: l => (pos, bsd_of c) :: layout_at (pos + BSD_CMSG_SPACE (cmsg_data_len c)) l
  end.

Lemma totals l : 0 <= bsd_total l ∧ bsd_total l + 4 * Z.of_nat (length l) <= linux_total l.
Proof.
  induction l as [|c l IH]; simpl; [lia|]. pose proof (space_difference (cmsg_data_len c)).
  unfold cmsg_data_len in *. lia.
Qed.

(** Every header with its data lies inside of a buffer of [size] bytes. *)
Definition stored_in (size : Z) (out : list (Z * bsd_cmsghdr)) : Prop := Forall (λ e, 0 <= e.1 ∧ e.1 + bc_len e.2 <= size) out.

Lemma layout_in pos l size : 0 <= pos -> pos + bsd_total l <= size -> stored_in size (layout_at pos l).
Proof.
  revert pos. induction l as [|c l IH]; intros pos Hp Hs; simpl in *; [constructor|]. pose proof (totals l) as [Hl _].
  assert (0 <= cmsg_data_len c) by (unfold cmsg_data_len; lia). destruct (bsd_space_spec (cmsg_data_len c)) as [Hb _].
  constructor; [|apply IH; Z.to_euclidean_division_equations; lia].
  simpl. unfold sizeof_bsd_cmsghdr. Z.to_euclidean_division_equations. lia.
Qed.

Lemma control_loop_layout size total l : ∀ lpos bpos c g,
  stored_in size (layout_at bpos l) ->
  Forall linux_cmsg_ok l -> total = lpos + linux_total l -> linux_total l <= c < 2 ^ 32 ->
  control_loop size total l lpos bpos c g = Ret ((layout_at bpos l, c - (linux_total l - bsd_total l)), g).
Proof.
  induction l as [|h l IH]; intros lpos bpos c g Hin Hok Htot Hc; simpl in *.
  - destruct (Z.ltb_spec lpos total); [lia|]. unfold mret, M_ret. do 3 f_equal. lia.
  - apply Forall_cons in Hok as [Hh Hok]. unfold linux_cmsg_ok in Hh. rewrite Hh. fold (cmsg_data_len h) in *.
    set (n := cmsg_data_len h) in *. assert (0 <= n) by (unfold n, cmsg_data_len; lia).
    pose proof (space_difference n ltac:(done)). pose proof (totals l).
    destruct (Z.ltb_spec lpos total); [|lia]. replace (sizeof_linux_cmsghdr + n - sizeof_linux_cmsghdr) with n by lia.
    change (Z.of_nat (length (lc_data h))) with n. destruct (Z.ltb_spec n 0); [lia|]. rewrite Z.ltb_irrefl. cbn [orb].
    replace (sizeof_linux_cmsghdr + n - LINUX_BSD_CMSGHDR_SIZE_DIFFERENCE) with (sizeof_bsd_cmsghdr + n)
      by (unfold LINUX_BSD_CMSGHDR_SIZE_DIFFERENCE; lia).
    cbn [bc_len]. change sizeof_linux_cmsghdr with 16. rewrite (proj2 (linux_space_spec n)).
    change (ALIGN (sizeof_bsd_cmsghdr + n) 4) with (ALIGN (12 + n) 4). rewrite (proj2 (bsd_space_spec n)).
    apply Forall_cons in Hin as [[_ Hfit] Hin]. cbn [fst snd bsd_of bc_len] in Hfit. fold n in Hfit.
    destruct (Z.ltb_spec size (bpos + (sizeof_bsd_cmsghdr + n))); [lia|].
    rewrite u32_id by lia. unfold mbind, M_bind. rewrite IH by (done || lia). cbn [prog_bind]. unfold mret, M_ret.
    assert (ztake n (lc_data h) = lc_data h) as -> by (unfold ztake, n, cmsg_data_len; rewrite Nat2Z.id; by apply take_ge).
    do 3 f_equal. lia.
Qed.

(** The kernel answers recvmsg(2) with complete headers that fit the space
    it was offered. *)
Definition control_host (offered : Z) (l : list linux_cmsghdr) : protocol := Protocol
  (λ X e, match e with SysOut nr [_; AMsghdr m; _] _ => nr = __NR_recvmsg ∧ lm_controllen m = offered | _ => False end)
  (λ X e, match e in linuxE X return X -> Prop with
          | SysOut nr args o =>
            match o in outk Y return Z * Y -> Prop with
            | OMsghdr => λ r, 0 <= r.1 <= INT_MAX ∧ lm_name r.2 = None ∧ lm_control r.2 = Some l ∧
                              lm_controllen r.2 = linux_total l
            | _ => λ _, True
            end
          | _ => λ _, True
          end) False.


Definition one_fd : linux_cmsghdr := LinuxCmsghdr 20 LINUX_SOL_SOCKET 1 (replicate 4 NUL).


(** Two descriptors in one message. *)
Definition two_fds : linux_cmsghdr := LinuxCmsghdr 24 LINUX_SOL_SOCKET 1 (replicate 8 NUL).

(** The caller's control buffer can be overrun.  A buffer of 16 bytes has
    room for one descriptor on Darwin; the kernel is offered 24 bytes, which
    is room for two, and when it stores two, 20 bytes are written to the
    caller's 16. *)
Theorem recvmsg_control_overrun socket g :
  let msg := BsdMsghdr None 0 0 1 (Some []) (BSD_CMSG_SPACE 4) 0 in
  bm_controllen msg = 16 ∧ linux_total [two_fds] = 24 ∧
  ∃ lmsg k, lm_controllen lmsg = 24 ∧
    sys_recvmsg_nocancel socket msg 0 g = Vis (SysOut __NR_recvmsg [AInt socket; AMsghdr lmsg; AInt 0] OMsghdr) k ∧
    ∀ r lm, 0 <= r <= INT_MAX -> lm_control lm = Some [two_fds] -> lm_controllen lm = 24 -> k (r, lm) = Stuck Undefined.
Proof.
  split; [by vm_compute|]. split; [by vm_compute|]. eexists _, _. split; [|split; [reflexivity|]]; [by vm_compute|].
  intros r lm Hr Hctl Hlen. cbn -[s32 control_loop Z.ltb]. rewrite s32_id by (unfold INT_MIN; lia).
  destruct (Z.ltb_spec r 0); [lia|]. unfold mbind, M_bind. rewrite Hctl, Hlen. done.
Qed.
