(* ===== verification/Mman.v ===== *)
(** * mman/: mapping memory

    mman.c, madvise.c, msync.c *)
From S2P Require Import Prelude Abi Linux Errno Base.

Definition prot_tbl : list (Z * Z) := [
  (PROT_READ, LINUX_PROT_READ); (PROT_WRITE, LINUX_PROT_WRITE); (PROT_EXEC, LINUX_PROT_EXEC) ].
Definition prot_bsd_to_linux (prot : Z) : Z := translate prot_tbl prot.

Definition mmap_flags_tbl : list (Z * Z) := [
  (MAP_ANON, LINUX_MAP_ANONYMOUS); (MAP_FIXED, LINUX_MAP_FIXED); (MAP_SHARED, LINUX_MAP_SHARED);
  (MAP_PRIVATE, LINUX_MAP_PRIVATE) ].

(** [MAP_FAILED] tests are made on the unsigned value of the pointer. *)
Definition sys_mmap (start len prot flags fd pos : Z) : M Z :=
  let linux_prot := prot_bsd_to_linux prot in
  let linux_flags := translate mmap_flags_tbl flags in
  ret ← LINUX_SYSCALL __NR_mmap [AInt start; AInt len; AInt linux_prot; AInt linux_flags; AInt fd; AInt pos];
  if u64 (-4096) <? u64 ret then mret (u64 (errno_linux_to_bsd (s32 ret))) else mret (u64 ret).

Definition sys_munmap (addr len : Z) : M Z :=
  ret ← syscall_int __NR_munmap [AInt addr; AInt len]; mret (bsd_ret ret).

Definition sys_mprotect (addr len prot : Z) : M Z :=
  ret ← syscall_int __NR_mprotect [AInt addr; AInt len; AInt (prot_bsd_to_linux prot)]; mret (bsd_ret ret).

Definition sys_mincore (addr len vec : Z) : M Z :=
  ret ← syscall_int __NR_mincore [AInt addr; AInt len; AInt vec]; mret (bsd_ret ret).

Definition MADV_FREE : Z := 5.
Definition MADV_FREE_REUSABLE : Z := 7.
Definition MADV_FREE_REUSE : Z := 8.

Definition sys_madvise (addr len advice : Z) : M Z :=
  let advice := if (advice =? MADV_FREE_REUSABLE) || (advice =? MADV_FREE_REUSE) then MADV_FREE else advice in
  if 5 <=? advice then mret 0
  else ret ← syscall_int __NR_madvise [AInt addr; AInt len; AInt advice]; mret (bsd_ret ret).

Definition msync_tbl : list (Z * Z) := [
  (BSD_MS_ASYNC, LINUX_MS_ASYNC); (BSD_MS_SYNC, LINUX_MS_SYNC); (BSD_MS_INVALIDATE, LINUX_MS_INVALIDATE) ].
Definition msync_flags_bsd_to_linux (flags : Z) : Z := translate msync_tbl flags.

Definition sys_msync_nocancel (addr len flags : Z) : M Z :=
  ret ← syscall_int __NR_msync [AInt addr; AInt len; AInt (msync_flags_bsd_to_linux flags)]; mret (bsd_ret ret).

Definition sys_msync (addr len flags : Z) : M Z := CANCELATION_POINT id (sys_msync_nocancel addr len flags).

(** ** Theorems *)

(** Mmap(2) returns what the kernel returned.  An address is passed
    through bit for bit, also one in the upper half of the address space, and
    an error in -4095..-1 becomes the translated error, again in that range:
    the caller sees a failure exactly when the kernel reported one. *)
Theorem mmap_result start len prot flags fd pos r g :
  - 2 ^ 63 <= r < 2 ^ 63 ->
  wp (answers r) (sys_mmap start len prot flags fd pos) g
    (λ v _, (-4095 <= r <= -1 -> s64 v = errno_linux_to_bsd r ∧ -4095 <= s64 v <= -1) ∧
            (¬ -4095 <= r <= -1 -> s64 v = r)).
Proof.
  intros Hr. unfold sys_mmap. cbv zeta. wp_step. wp_step; [done|]. intros x Hx. cbn in Hx. subst x.
  assert (∀ z, - 2 ^ 63 <= z < 2 ^ 63 -> s64 (u64 z) = z) as Hs.
  { intros z Hz. unfold s64, u64. rewrite Zplus_mod_idemp_l, Z.mod_small; lia. }
  change (u64 (-4096)) with (2 ^ 64 - 4096).
  assert (-4095 <= r <= -1 <-> 2 ^ 64 - 4096 < u64 r) as Hfail.
  { unfold u64. destruct (Z.leb_spec 0 r); [rewrite Z.mod_small; lia|].
    rewrite <- (Z.mod_unique r (2 ^ 64) (-1) (r + 2 ^ 64)); lia. }
  destruct (Z.ltb_spec (2 ^ 64 - 4096) (u64 r)) as [Hlt|Hge]; wp_step.
  - apply Hfail in Hlt. split; [|done]. intros _. rewrite s32_id by (unfold INT_MIN, INT_MAX; lia).
    pose proof (errno_range r). rewrite Hs; lia.
  - split; [|intros _; by apply Hs]. intros Hf. apply Hfail in Hf. lia.
Qed.

Lemma mmap_result_witness :
  wp (answers (- LINUX_EAGAIN)) (sys_mmap 0 4096 3 MAP_ANON (-1) 0) init_gstate (λ v _, s64 v = - EAGAIN) ∧
  wp (answers (- 2 ^ 40)) (sys_mmap 0 4096 3 MAP_ANON (-1) 0) init_gstate (λ v _, s64 v = - 2 ^ 40).
Proof.
  split; (eapply wp_mono; [apply (mmap_result 0 4096 3 MAP_ANON (-1) 0); by vm_compute|]); intros v _ [H1 H2].
  - destruct H1 as [-> _]; [by vm_compute|reflexivity].
  - apply H2. intros [Ha Hb]. by vm_compute in Ha.
Defined.

(** Protection and synchronisation flags.  The protection bits are passed
    on unchanged (and no others), mprotect(2) and mmap(2) agree on them; the
    three msync flags are mapped one to one. *)
Theorem prot_and_msync_flags prot flags :
  prot_bsd_to_linux prot = Z.land prot 7 ∧
  (∀ b l, (b, l) ∈ msync_tbl -> has (msync_flags_bsd_to_linux flags) l = has flags b).
Proof.
  split.
  - by apply (translate_diag_single [PROT_READ; PROT_WRITE; PROT_EXEC] prot).
  - intros b l Hin. by apply has_translate_hit.
Qed.
