(* ===== verification/Psynch.v ===== *)
(** * psynch/: ulock_wait and ulock_wake on top of futexes

    ulock_wait.c, ulock_wake.c *)
From S2P Require Import Prelude Abi Linux Errno Base.

(** The timeout, in microseconds, as the code converts it. *)
Definition ulock_timeout (timeout : Z) : timespec :=
  Timespec (timeout / 1000 * 1000) (u32 (timeout mod (1000 * 1000) * 1000)).

Definition ulock_op (operation : Z) : Z := Z.land operation UL_OPCODE_MASK.
Definition ulock_op_known (operation : Z) : bool :=
  (ulock_op operation =? UL_COMPARE_AND_WAIT) || (ulock_op operation =? UL_UNFAIR_LOCK).

(** The errors of both calls. *)
Definition ulock_einval (no_errno : bool) : Z := if no_errno then - Z.lor EINVAL 0x800 else - EINVAL.
Definition ulock_error (no_errno : bool) (ret : Z) : Z :=
  let ret := errno_linux_to_bsd ret in if no_errno then Z.land ret (Z.lnot 0x800) else ret.

Definition sys_ulock_wait (operation addr value timeout : Z) : M Z :=
  let no_errno := has operation ULF_NO_ERRNO in
  if ulock_op_known operation then
    ret ← syscall_int __NR_futex [AInt addr; AInt (Z.lor FUTEX_WAIT FUTEX_PRIVATE_FLAG); AInt value;
      if timeout =? 0 then ANull else ATimespec (ulock_timeout timeout)];
    let ret := if (ret =? 0) || (ret =? - LINUX_EAGAIN) then 1 else ret in
    mret (if ret <? 0 then ulock_error no_errno ret else ret)
  else mret (ulock_einval no_errno).

Definition sys_ulock_wake (operation addr wake_value : Z) : M Z :=
  let no_errno := has operation ULF_NO_ERRNO in
  if ulock_op_known operation then
    let value := if has operation ULF_WAKE_ALL then INT_MAX
                 else if has operation ULF_WAKE_THREAD then INT_MAX else 1 in
    ret ← syscall_int __NR_futex [AInt addr; AInt (Z.lor FUTEX_WAKE FUTEX_PRIVATE_FLAG); AInt value];
    mret (if ret <? 0 then ulock_error no_errno ret else 0)
  else mret (ulock_einval no_errno).

(** ** Theorems *)

(** Clearing bit 11 of a small negative number. *)
Lemma land_lnot_0x800 e : 0 < e < 0x800 -> Z.land (- e) (Z.lnot 0x800) = - Z.lor e 0x800.
Proof.
  intros He. rewrite <- Z.ldiff_land.
  assert (Z.lor e 0x800 = e + 0x800) as ->.
  { symmetry. apply Z.add_nocarry_lor. apply Z.bits_inj'. intros i Hi. rewrite Z.land_spec, Z.bits_0.
    change 0x800 with (2 ^ 11). rewrite Z.pow2_bits_eqb by lia. destruct (Z.eqb_spec 11 i) as [<-|]; [|apply andb_false_r].
    rewrite andb_true_r. apply Z.bits_above_log2; [lia|]. apply Z.log2_lt_pow2; lia. }
  rewrite <- Z.sub_nocarry_ldiff; [lia|]. apply Z.bits_inj'. intros i Hi. rewrite Z.ldiff_spec, Z.bits_0.
  change 0x800 with (2 ^ 11). rewrite Z.pow2_bits_eqb by lia. destruct (Z.eqb_spec 11 i) as [<-|]; [|done].
  replace (- e) with (Z.lnot (e - 1)) by (unfold Z.lnot; lia). rewrite Z.lnot_spec by lia.
  rewrite (Z.bits_above_log2 (e - 1)); [done|lia|]. destruct (decide (e = 1)) as [->|]; [done|apply Z.log2_lt_pow2; lia].
Qed.

(** What a caller of ulock_wait gets for each answer of the kernel. *)
Definition ulock_wait_result (no_errno : bool) (r : Z) : Z :=
  if (r =? 0) || (r =? - LINUX_EAGAIN) then 1
  else if r <? 0 then (let e := errno_linux_to_bsd (- r) in - (if no_errno then Z.lor e 0x800 else e)) else r.

Lemma ulock_error_encoding no_errno r :
  -0x800 < r < 0 -> errno_linux_to_bsd (- r) < 0x800 ->
  ulock_error no_errno r = - (if no_errno then Z.lor (errno_linux_to_bsd (- r)) 0x800 else errno_linux_to_bsd (- r)).
Proof.
  intros Hr He. unfold ulock_error. rewrite errno_unfold_neg by (unfold INT_MIN; lia).
  pose proof (errno_pos (- r)). destruct no_errno; [|done]. apply land_lnot_0x800. lia.
Qed.

Lemma errno_below_0x800 r : 0 < r < 0x800 -> errno_linux_to_bsd r < 0x800.
Proof.
  intros Hr. unfold errno_linux_to_bsd. destruct (Z.ltb_spec r 0); [lia|].
  destruct (array_get_in linux_to_darwin r) as [->|Hin]; [rewrite andb_false_r; lia|].
  assert (forallb (λ e, e.2 <? 0x800) linux_to_darwin = true) as Hall by by vm_compute.
  rewrite forallb_forall in Hall. apply list_elem_of_In, Hall in Hin. simpl in Hin. destruct (_ && _); lia.
Qed.

(** The results of ulock_wait.  A wake-up and a changed value both report
    that other waiters may exist; every error is the translated one, with the
    marker bit 0x800 added to its number exactly when the caller set
    ULF_NO_ERRNO, also for an unknown operation. *)
Theorem ulock_wait_functional operation addr value timeout r g :
  -0x800 < r <= INT_MAX ->
  wp (answers r) (sys_ulock_wait operation addr value timeout) g
    (λ v _, let no_errno := has operation ULF_NO_ERRNO in
            v = if ulock_op_known operation then ulock_wait_result no_errno r
                else - (if no_errno then Z.lor EINVAL 0x800 else EINVAL)).
Proof.
  intros Hr. unfold sys_ulock_wait. destruct (ulock_op_known operation); cbv zeta;
    [|wp_step; unfold ulock_einval; by destruct (has _ _)].
  wp_step. apply wp_syscall_int; [done|]. intros x Hx. cbn in Hx. subst x. rewrite s32_id by (unfold INT_MIN; lia).
  wp_step. unfold ulock_wait_result. destruct (_ || _); [done|]. destruct (Z.ltb_spec r 0); [|done].
  apply ulock_error_encoding; [lia|]. apply errno_below_0x800. lia.
Qed.

Lemma ulock_wait_functional_witness :
  wp (answers (- LINUX_ETIMEDOUT)) (sys_ulock_wait (Z.lor UL_UNFAIR_LOCK ULF_NO_ERRNO) 0x1000 1 500) init_gstate
    (λ v _, v = - (ETIMEDOUT + 0x800)).
Proof. apply (ulock_wait_functional (Z.lor UL_UNFAIR_LOCK ULF_NO_ERRNO) 0x1000 1 500); by vm_compute. Defined.

Definition timespec_us (t : timespec) : Z := tv_sec t * 1000000 + tv_nsec t / 1000.

(** A timeout of a millisecond or more is far too long: the seconds are
    computed as (timeout / 1000) * 1000 from microseconds.  Timeouts below
    1000 us are converted exactly; from 1000 us on, the wait is longer than
    requested, and a second becomes eleven days. *)
Theorem ulock_timeout_wrong timeout :
  (0 <= timeout < 1000 -> timespec_us (ulock_timeout timeout) = timeout) ∧
  (1000 <= timeout < 2 ^ 32 -> 1000 * timeout <= timespec_us (ulock_timeout timeout)) ∧
  tv_sec (ulock_timeout 1000000) = 1000000.
Proof.
  unfold timespec_us, ulock_timeout. cbn [tv_sec tv_nsec].
  pose proof (Z.mod_pos_bound timeout (1000 * 1000)). rewrite u32_id by lia. rewrite Z.div_mul by lia.
  split; [|split; [|done]]; intros Ht.
  - rewrite Z.mod_small by lia. rewrite (Z.div_small timeout 1000); lia.
  - pose proof (Z.div_mod timeout 1000). pose proof (Z.mod_pos_bound timeout 1000). lia.
Qed.
