(* ===== verification/Process.v ===== *)
(** * process/: waiting, executing and forking

    wait4.c, execve.c, fork.c, vfork.c *)
From S2P Require Import Prelude Abi Linux Errno Base Simple Vchroot VchrootProofs Signals Paths.

(** ** wait4.c *)

Definition waitopts_tbl : list (Z * Z) := [
  (BSD_WNOHANG, LINUX_WNOHANG); (BSD_WUNTRACED, LINUX_WUNTRACED); (BSD_WEXITED, LINUX_WEXITED);
  (BSD_WSTOPPED, LINUX_WSTOPPED); (BSD_WCONTINUED, LINUX_WCONTINUED); (BSD_WNOWAIT, LINUX_WNOWAIT) ].
Definition waitopts_bsd_to_linux (options : Z) : Z := translate waitopts_tbl options.

(** The rewriting of [*status]. *)
Definition wait_status (status : Z) : Z :=
  if negb (Z.land status 0x7f =? 0x7f) then
    let signum := Z.land status 0x7f in
    let status := Z.land status (Z.lnot 0x7f) in
    Z.lor status (signum_linux_to_bsd signum)
  else if status =? 0xffff then Z.lor 0x7f (Z.shiftl 0x13 8)
  else if Z.land status 0x7f =? 0x7f then
    let signal := Z.shiftr status 8 in
    let signal := signum_linux_to_bsd signal in
    Z.lor (Z.land status 0x7f) (Z.shiftl signal 8)
  else status.

(** The result and the status word, wherever it is stored: with a null
    [status] the code uses a variable of its own.  Without a child to report
    the kernel leaves the word alone, and the code rewrites it all the same. *)
Definition sys_wait4_nocancel (pid status options rusage : Z) : M (Z * option Z) :=
  '(ret, st) ← syscall_int_out __NR_wait4
    [AInt pid; AInt status; AInt (waitopts_bsd_to_linux options); AInt rusage] OInt;
  if ret <? 0 then mret (errno_linux_to_bsd ret, None) else mret (ret, Some (wait_status st)).

Definition sys_wait4 (pid status options rusage : Z) : M (Z * option Z) :=
  CANCELATION_POINT (λ e, (e, None)) (sys_wait4_nocancel pid status options rusage).

(** ** fork.c, vfork.c *)

Definition sys_fork : M Z :=
  wdfd ← get_perthread_wd;
  ret ← syscall_int __NR_clone [AInt LINUX_SIGCHLD; AInt 0];
  if ret <? 0 then mret (errno_linux_to_bsd ret)
  else if ret =? 0 then
    if 0 <=? wdfd then sys_fchdir wdfd;; mret ret else mret ret
  else mret ret.

Definition sys_vfork : M Z :=
  ret ← syscall_int __NR_clone [AInt LINUX_SIGCHLD; AInt 0]; mret (bsd_ret ret).

(** ** execve.c *)

Definition istext (c : ascii) : bool := (0x20 <=? byte_val c) && (byte_val c <? 0x7f).

(** The standard library's [isspace] in the C locale. *)
Definition isspace (c : ascii) : bool :=
  (byte_val c =? 32) || ((9 <=? byte_val c) && (byte_val c <=? 13)).

Definition NEWLINE : ascii := "010"%char.
Definition sizeof_shebang : Z := 256.
Definition BIN_SH : cstr := s2c "#!/bin/sh" ++ [NEWLINE].

(** Whether the file is a script, and the buffer [shebang] after the test:
    [shebang] holds the [ret] bytes read and whatever follows them. *)
Definition script_test (shebang : list ascii) (ret : Z) : option (list ascii) :=
  match shebang with
  | c0 :: c1 :: c2 :: c3 :: _ =>
    if 4 <=? ret then
      if bool_decide (c0 = "#"%char) && bool_decide (c1 = "!"%char) then Some shebang
      else if istext c0 && istext c1 && istext c2 && istext c3 then Some (write_at shebang 0 (BIN_SH ++ [NUL]))
      else None
    else None
  | _ => None
  end.

Fixpoint skip_space (s : cstr) : cstr :=
  match s with
  | c :: r => if isspace c then skip_space r else s
  | [] => []
  end.

(** The characters up to the next space, and the rest. *)
Fixpoint word_end (s : cstr) : cstr * cstr :=
  match s with
  | c :: r => if isspace c then ([], s) else let '(w, r) := word_end r in (c :: w, r)
  | [] => ([], [])
  end.

(** [interp] and [arg], from the line after "#!". *)
Definition parse_line (line : cstr) : cstr * option cstr :=
  let '(interp, rest) := word_end (skip_space line) in
  match rest with
  | [] => (interp, None)
  | _ :: arg => match skip_space arg with [] => (interp, None) | a => (interp, Some a) end
  end.

(** [memchr(shebang, '\n', ret)], the termination of the line there, and the
    interpreter and its argument. *)
Definition parse_shebang (shebang : list ascii) (ret : Z) : option (cstr * option cstr) :=
  match index_of NEWLINE (ztake ret shebang) with
  | None => None
  | Some nl => Some (parse_line (c_str (drop 2 (take nl shebang))))
  end.

(** The new argument vector, slot by slot; [None] is a null pointer.  The
    memory at [argvp] is the arguments, the terminator, and [beyond], which
    the loop copies, too.  [sys_execve] is undefined when there are more slots
    than [alloca] was asked for. *)
Definition argv_memory (argv : list cstr) (beyond : option cstr) : list (option cstr) :=
  (Some <$> argv) ++ [None; beyond].

Definition mod_argv (interp : cstr) (arg : option cstr) (fname : cstr) (argv : list cstr) (beyond : option cstr)
  : list (option cstr) :=
  let len := S (length argv) in
  Some interp :: match arg with Some a => [Some a] | None => [] end ++
  Some fname :: ((λ j, default None (argv_memory argv beyond !! j)) <$> seq 1 len).

(** The slots [alloca] was asked for. *)
Definition mod_argv_allocated (argv : list cstr) : nat := S (length argv) + 2.

(** The vector as the kernel reads it, up to the first null pointer. *)
Fixpoint until_null (slots : list (option cstr)) : option (list cstr) :=
  match slots with
  | [] => None
  | None :: _ => Some []
  | Some s :: r => cons s <$> until_null r
  end.

Section Execve.
Context `{LoopFuel, IcaseEnabled}.

(** LINUX_SIGRTMIN comes from a header that the build generates; [stack] is
    what the unwritten part of [shebang] holds. *)
Context (LINUX_SIGRTMIN : Z) (stack : list ascii).

Definition execve_final (path : cstr) (argv : list cstr) (envp : arg) : M Z :=
  let set := Z.shiftl 1 (LINUX_SIGRTMIN - 1) in
  LINUX_SYSCALL __NR_rt_sigprocmask [AInt 0; ASigset set; ANull; AInt 8];;
  ret ← syscall_int __NR_execve [AStr path; AArgv argv; envp];
  LINUX_SYSCALL __NR_rt_sigprocmask [AInt 1; ASigset set; ANull; AInt 8];;
  mret (bsd_ret ret).

Definition sys_execve (fname : cstr) (argv : list cstr) (beyond : option cstr) (envp : arg) : M Z :=
  dfd ← get_perthread_wd;
  '(ret, vc) ← vchroot_expand (VchrootExpandArgs fname dfd true);
  printed ← __simple_kprintf (s2c "execve expand %s -> %s, ret %d") [VStr (Some fname); VStr (Some (vc_path vc)); VNum ret];
  defined printed;;
  if ret <? 0 then mret (errno_linux_to_bsd ret)
  else
    fd ← sys_open (Some fname) BSD_O_RDONLY 0;
    if fd <? 0 then mret fd
    else
      '(ret, data) ← sys_read fd sizeof_shebang;
      if ret <? 0 then mret ret
      else
        close_internal fd;;
        match script_test (ztake sizeof_shebang (data ++ stack)) ret with
        | None => execve_final (vc_path vc) argv envp
        | Some shebang =>
          match parse_shebang shebang ret with
          | None => mret (- ENOEXEC)
          | Some (interp, arg) =>
            let slots := mod_argv interp arg fname argv beyond in
            match until_null slots with
            | None => undefined
            | Some argv' =>
              if (mod_argv_allocated argv <? length slots)%nat then undefined else
              '(ret, vc) ← vchroot_expand (VchrootExpandArgs interp dfd true);
              if ret <? 0 then mret ret else execve_final (vc_path vc) argv' envp
            end
          end
        end.
End Execve.

(** ** Theorems: wait status *)

(** What happened to a child, Linux's encoding of it, and what a Darwin program
    reads in a status word: the macros of <sys/wait.h>, WIFEXITED and
    WEXITSTATUS, WIFSIGNALED, WTERMSIG and WCOREDUMP, WIFSTOPPED and WSTOPSIG,
    WIFCONTINUED. *)
Inductive child_event := Exited (code : Z) | Signaled (sig : Z) (core : bool) | Stopped (sig : Z) | Continued.

Definition linux_status (e : child_event) : Z :=
  match e with
  | Exited c => Z.shiftl c 8
  | Signaled s core => Z.lor s (if core then 0x80 else 0)
  | Stopped s => Z.lor (Z.shiftl s 8) 0x7f
  | Continued => 0xffff
  end.

Definition darwin_reads (status : Z) : child_event :=
  if Z.land status 0x7f =? 0 then Exited (Z.land (Z.shiftr status 8) 0xff)
  else if negb (Z.land status 0x7f =? 0x7f) then Signaled (Z.land status 0x7f) (negb (Z.land status 0x80 =? 0))
  else if Z.shiftr status 8 =? 0x13 then Continued else Stopped (Z.shiftr status 8).

#[export] Instance child_event_eq_dec : EqDecision child_event.
Proof. solve_decision. Defined.

(** The signals that both systems know, with their numbers: signal(7) of Linux
    on x86_64 and <sys/signal.h> of Darwin. *)
Definition signal_numbers : list (string * (Z * Z)) := [
  ("SIGHUP", (1, 1)); ("SIGINT", (2, 2)); ("SIGQUIT", (3, 3)); ("SIGILL", (4, 4));
  ("SIGTRAP", (5, 5)); ("SIGABRT", (6, 6)); ("SIGBUS", (7, 10)); ("SIGFPE", (8, 8));
  ("SIGKILL", (9, 9)); ("SIGUSR1", (10, 30)); ("SIGSEGV", (11, 11)); ("SIGUSR2", (12, 31));
  ("SIGPIPE", (13, 13)); ("SIGALRM", (14, 14)); ("SIGTERM", (15, 15)); ("SIGCHLD", (17, 20));
  ("SIGCONT", (18, 19)); ("SIGSTOP", (19, 17)); ("SIGTSTP", (20, 18)); ("SIGTTIN", (21, 21));
  ("SIGTTOU", (22, 22)); ("SIGURG", (23, 16)); ("SIGXCPU", (24, 24)); ("SIGXFSZ", (25, 25));
  ("SIGVTALRM", (26, 26)); ("SIGPROF", (27, 27)); ("SIGWINCH", (28, 28)); ("SIGIO", (29, 23));
  ("SIGSYS", (31, 12))].

(** The event of Linux on the left is that of Darwin on the right. *)
Inductive same_event : child_event -> child_event -> Prop :=
| se_exited c : 0 <= c < 256 -> same_event (Exited c) (Exited c)
| se_signaled name l d core : (name, (l, d)) ∈ signal_numbers -> same_event (Signaled l core) (Signaled d core)
| se_stopped name l d : (name, (l, d)) ∈ signal_numbers -> name ≠ "SIGCONT"%string -> same_event (Stopped l) (Stopped d)
| se_continued : same_event Continued Continued.

Lemma all_below n (P : Z -> bool) z :
  forallb (λ i, P (Z.of_nat i)) (seq 0 n) = true -> 0 <= z < Z.of_nat n -> P z = true.
Proof.
  intros Hall Hz. rewrite forallb_forall in Hall. specialize (Hall (Z.to_nat z)). rewrite Z2Nat.id in Hall by lia.
  apply Hall, in_seq. lia.
Qed.

Definition reads_as (e e' : child_event) : bool := bool_decide (darwin_reads (wait_status (linux_status e)) = e').

Lemma signal_rows_check :
  forallb (λ r : string * (Z * Z), reads_as (Signaled r.2.1 true) (Signaled r.2.2 true) && reads_as (Signaled r.2.1 false) (Signaled r.2.2 false) &&
    (String.eqb r.1 "SIGCONT" || reads_as (Stopped r.2.1) (Stopped r.2.2))) signal_numbers = true.
Proof. by vm_compute. Qed.

(** C25: the status of a child means the same after translation.  For an exit
    with any code, a fatal signal with or without a core dump, a stop and a
    continuation, the macros of Darwin read in the rewritten status word
    exactly that event, with Darwin's number of the signal of the same name.
    The signal is one of the 29 that both systems have (the others are in
    [untranslated_signal_status]), and a stop is not by SIGCONT (Darwin has no
    encoding for it). *)
Theorem wait_status_meaning e e' : same_event e e' -> darwin_reads (wait_status (linux_status e)) = e'.
Proof.
  intros Hsame. apply (bool_decide_eq_true _). fold (reads_as e e').
  pose proof signal_rows_check as Hall. rewrite forallb_forall in Hall.
  destruct Hsame as [c Hc|name l d core Hin%list_elem_of_In|name l d Hin%list_elem_of_In Hname|].
  - apply (all_below 256 (λ c, reads_as (Exited c) (Exited c))); [by vm_compute|done].
  - apply Hall in Hin. cbn [fst snd] in Hin. rewrite !andb_true_iff in Hin. destruct Hin as [[? ?] _]. by destruct core.
  - apply Hall in Hin. cbn [fst snd] in Hin. apply andb_true_iff in Hin as [_ [Hn|Hs]%orb_true_iff]; [|done].
    by apply String.eqb_eq in Hn.
  - by vm_compute.
Qed.

Lemma wait_status_meaning_witness :
  darwin_reads (wait_status (linux_status (Signaled LINUX_SIGBUS true))) = Signaled SIGBUS true.
Proof.
  apply (wait_status_meaning (Signaled LINUX_SIGBUS true) (Signaled SIGBUS true)).
  apply (se_signaled "SIGBUS"). apply (bool_decide_unpack _). by vm_compute.
Defined.

(** A child that was killed by a signal Darwin does not have (SIGPWR or a
    realtime signal) is reported as one that exited with status 0, one that
    was killed by SIGSTKFLT as one killed by SIGSTOP. *)
Theorem untranslated_signal_status :
  (∀ sig, sig = LINUX_SIGPWR ∨ 32 <= sig <= 64 -> darwin_reads (wait_status (linux_status (Signaled sig false))) = Exited 0) ∧
  darwin_reads (wait_status (linux_status (Signaled LINUX_SIGSTKFLT false))) = Signaled SIGSTOP false.
Proof.
  split; [|by vm_compute]. intros sig Hsig.
  apply (bool_decide_eq_true _). fold (reads_as (Signaled sig false) (Exited 0)).
  destruct Hsig as [->|Hsig]; [by vm_compute|].
  replace sig with (sig - 32 + 32) by lia.
  apply (all_below 33 (λ s, reads_as (Signaled (s + 32) false) (Exited 0))); [by vm_compute|lia].
Qed.

(** ** Theorems: scripts *)

Definition print_shebang (interp : cstr) (arg : option cstr) : list ascii :=
  s2c "#!" ++ interp ++ match arg with Some a => " "%char :: a | None => [] end ++ [NEWLINE].

Definition is_word (w : cstr) : Prop := w ≠ [] ∧ Forall (λ c, isspace c = false ∧ c ≠ NUL) w.
Definition is_arg (a : cstr) : Prop :=
  Forall (λ c, c ≠ NUL ∧ c ≠ NEWLINE) a ∧ match a with c :: _ => isspace c = false | [] => False end.

Lemma skip_space_word c w : isspace c = false -> skip_space (c :: w) = c :: w.
Proof. intros Hc. simpl. by rewrite Hc. Qed.

Lemma word_end_app w r : Forall (λ c, isspace c = false ∧ c ≠ NUL) w ->
  match r with [] => True | c :: _ => isspace c = true end -> word_end (w ++ r) = (w, r).
Proof.
  induction 1 as [|c w [Hc _] _ IH]; simpl; intros Hr.
  - destruct r as [|c r]; [done|]. simpl. by rewrite Hr.
  - by rewrite Hc, IH.
Qed.

Lemma parse_line_print interp arg :
  is_word interp -> match arg with Some a => is_arg a | None => True end ->
  parse_line (interp ++ match arg with Some a => " "%char :: a | None => [] end) = (interp, arg).
Proof.
  intros [Hne Hw] Ha. unfold parse_line. destruct interp as [|c interp]; [done|].
  assert (isspace c = false) as Hc by by apply Forall_cons in Hw as [[? _] _].
  cbn [app]. rewrite skip_space_word by done. change (c :: interp ++ ?r) with ((c :: interp) ++ r).
  rewrite word_end_app by (done || by destruct arg). destruct arg as [[|a arg]|]; [by destruct Ha| |done].
  destruct Ha as [_ Hsp]. by rewrite skip_space_word.
Qed.

Lemma shebang_parses interp arg rest ret :
  is_word interp -> match arg with Some a => is_arg a | None => True end ->
  Z.of_nat (length (print_shebang interp arg)) <= ret ->
  script_test (print_shebang interp arg ++ rest) ret = Some (print_shebang interp arg ++ rest) ∧
  parse_shebang (print_shebang interp arg ++ rest) ret = Some (interp, arg).
Proof.
  intros Hw Ha Hret. set (body := interp ++ match arg with Some a => " "%char :: a | None => [] end).
  assert (print_shebang interp arg = s2c "#!" ++ body ++ [NEWLINE]) as Hp.
  { unfold print_shebang, body. by rewrite <- !app_assoc. }
  assert (Forall (λ c, c ≠ NUL ∧ c ≠ NEWLINE) body) as Hbody.
  { apply Forall_app. split.
    - eapply Forall_impl; [apply Hw|]. intros c [Hc ?]. split; [done|]. by intros ->.
    - destruct arg as [a|]; [|done]. apply Forall_cons. split; [done|apply Ha]. }
  rewrite Hp in *. rewrite !length_app in Hret. cbn [length s2c String.list_ascii_of_string] in Hret. split.
  - destruct Hw as [Hne _]. unfold script_test. destruct interp as [|c interp]; [done|]. unfold body in *. cbn [app] in *.
    assert (4 <= ret) by (cbn [length] in Hret; lia). destruct (Z.leb_spec 4 ret); [|lia].
    cbn. by destruct ((interp ++ _) ++ [NEWLINE]) as [|c3 r] eqn:E; [destruct (interp ++ _)|].
  - unfold parse_shebang. replace (s2c "#!" ++ body ++ [NEWLINE]) with ((s2c "#!" ++ body) ++ [NEWLINE]) by by rewrite app_assoc.
    rewrite <- app_assoc. cbn [app]. unfold ztake. rewrite take_app_ge by (rewrite length_app; simpl; lia).
    destruct (Z.to_nat ret - length (s2c "#!" ++ body))%nat as [|n] eqn:En.
    { rewrite length_app in En. simpl in En. lia. }
    cbn [take]. rewrite index_of_app.
    + rewrite take_app_length. change (drop 2 (s2c "#!" ++ body)) with body. rewrite c_str_id.
      * unfold body. by rewrite parse_line_print.
      * eapply Forall_impl; [exact Hbody|]. by intros c [? _].
    + intros Hin. apply elem_of_app in Hin as [Hin|Hin].
      * by repeat (apply elem_of_cons in Hin as [Hin|Hin]; [done|]); apply not_elem_of_nil in Hin.
      * rewrite Forall_forall in Hbody. by apply Hbody in Hin as [_ ?].
Qed.

(** Reading the first line of a script gives the interpreter and argument
    that were written there: any interpreter without spaces, and any single
    argument line, whatever follows in the file. *)
Theorem shebang_round_trip interp arg rest ret :
  is_word interp -> match arg with Some a => is_arg a | None => True end ->
  Z.of_nat (length (print_shebang interp arg)) <= ret ->
  script_test (print_shebang interp arg ++ rest) ret = Some (print_shebang interp arg ++ rest) ∧
  parse_shebang (print_shebang interp arg ++ rest) ret = Some (interp, arg).
Proof. apply shebang_parses. Qed.

Lemma shebang_round_trip_witness :
  script_test (s2c "#!/usr/bin/env python -u" ++ NEWLINE :: s2c "pass") 29 =
    Some (s2c "#!/usr/bin/env python -u" ++ NEWLINE :: s2c "pass") ∧
  parse_shebang (s2c "#!/usr/bin/env python -u" ++ NEWLINE :: s2c "pass") 29 =
    Some (s2c "/usr/bin/env", Some (s2c "python -u")).
Proof.
  apply (shebang_round_trip (s2c "/usr/bin/env") (Some (s2c "python -u")) (s2c "pass") 29).
  - split; [done|]. repeat constructor; by vm_compute.
  - split; [|done]. repeat constructor; by vm_compute.
  - by vm_compute.
Defined.

(** A script without "#!" that starts with four printable characters is
    run by /bin/sh, but only when ten bytes or more were read: the newline of
    the substituted line is searched in the bytes that were read, so a file
    of four to nine bytes fails with ENOEXEC. *)
Theorem short_script_fails c0 c1 c2 c3 rest ret :
  forallb istext [c0; c1; c2; c3] = true -> c0 ≠ "#"%char -> 4 <= ret -> (252 <= length rest)%nat ->
  ∃ shebang, script_test (c0 :: c1 :: c2 :: c3 :: rest) ret = Some shebang ∧
    parse_shebang shebang ret = if 10 <=? ret then Some (s2c "/bin/sh", None) else None.
Proof.
  intros Ht Hc Hret Hlen. cbn [forallb] in Ht. break_and. unfold script_test.
  destruct (Z.leb_spec 4 ret); [|lia]. rewrite bool_decide_false by done. cbn [andb].
  repeat match goal with H : istext _ = true |- _ => rewrite H; clear H end. cbn [andb].
  do 7 (destruct rest as [|? rest]; [simpl in Hlen; lia|]). eexists. split; [reflexivity|].
  unfold write_at. change (length (BIN_SH ++ [NUL])) with 11%nat. cbn [take drop app Nat.add]. unfold BIN_SH.
  rewrite <- app_assoc. unfold parse_shebang, ztake. destruct (Z.leb_spec 10 ret) as [H10|H10].
  - replace (Z.to_nat ret) with (10 + Z.to_nat (ret - 10))%nat by lia. reflexivity.
  - assert (∃ n, (n < 6)%nat ∧ Z.to_nat ret = (4 + n)%nat) as (n & Hn & ->) by (exists (Z.to_nat (ret - 4)); lia).
    do 6 (destruct n as [|n]; [reflexivity|]). lia.
Qed.

Lemma short_script_fails_witness :
  ∃ shebang, script_test ("e"%char :: "c"%char :: "h"%char :: "o"%char :: replicate 252 NUL) 7 = Some shebang ∧
    parse_shebang shebang 7 = None.
Proof.
  apply (short_script_fails "e"%char "c"%char "h"%char "o"%char (replicate 252 NUL) 7);
    [by vm_compute|done|lia|by rewrite length_replicate].
Defined.

Lemma mod_argv_slots interp arg fname a0 argv beyond :
  mod_argv interp arg fname (a0 :: argv) beyond =
  Some interp :: (Some <$> match arg with Some a => [a] | None => [] end) ++ Some fname :: (Some <$> argv) ++ [None; beyond].
Proof.
  unfold mod_argv. assert ((λ j, default None (argv_memory (a0 :: argv) beyond !! j)) <$> seq 1 (S (length (a0 :: argv))) =
    (Some <$> argv) ++ [None; beyond]) as ->.
  { rewrite <- fmap_S_seq, <- list_fmap_compose.
    change (argv_memory (a0 :: argv) beyond) with (Some a0 :: argv_memory argv beyond).
    change ((λ j, default None ((Some a0 :: argv_memory argv beyond) !! j)) ∘ S) with
      (λ j, default None (argv_memory argv beyond !! j)).
    apply list_eq. intros i. rewrite list_lookup_fmap. fold (argv_memory argv beyond).
    destruct (decide (i < S (length (a0 :: argv)))%nat) as [Hi|Hi].
    - rewrite lookup_seq_lt by done. simpl.
      destruct (argv_memory argv beyond !! i) eqn:E; [done|]. apply lookup_ge_None in E. exfalso.
      unfold argv_memory in E. rewrite length_app, length_fmap in E. simpl in *. lia.
    - rewrite lookup_seq_ge by lia. simpl. symmetry. apply lookup_ge_None.
      unfold argv_memory. rewrite length_app, length_fmap. simpl in *. lia. }
  by destruct arg.
Qed.

Lemma until_null_app l r : until_null ((Some <$> l) ++ None :: r) = Some l.
Proof. induction l as [|s l IH]; csimpl; [done|]. by rewrite IH. Qed.

Lemma script_argv_built interp arg fname a0 argv beyond :
  until_null (mod_argv interp arg fname (a0 :: argv) beyond) =
    Some (interp :: match arg with Some a => [a] | None => [] end ++ fname :: argv) ∧
  length (mod_argv interp arg fname (a0 :: argv) beyond) =
    (mod_argv_allocated (a0 :: argv) + match arg with Some _ => 1 | None => 0 end)%nat.
Proof.
  rewrite mod_argv_slots. split.
  - change (Some interp :: (Some <$> ?l) ++ Some fname :: (Some <$> argv) ++ [None; beyond]) with
      ((Some <$> (interp :: l)) ++ (Some <$> (fname :: argv)) ++ [None; beyond]).
    rewrite app_assoc, <- fmap_app, until_null_app. done.
  - unfold mod_argv_allocated. cbn [length]. rewrite !length_app. cbn [length]. rewrite length_app, !length_fmap.
    destruct arg; simpl; lia.
Qed.

(** The arguments of the interpreter.  The kernel sees the interpreter,
    its argument if there is one, the script, and the caller's arguments from
    the second on.  With an argument of the interpreter, one slot more than
    was allocated is written (what lies beyond the caller's terminator is
    copied as well). *)
Theorem script_argv interp arg fname a0 argv beyond :
  until_null (mod_argv interp arg fname (a0 :: argv) beyond) =
    Some (interp :: match arg with Some a => [a] | None => [] end ++ fname :: argv) ∧
  length (mod_argv interp arg fname (a0 :: argv) beyond) =
    (mod_argv_allocated (a0 :: argv) + match arg with Some _ => 1 | None => 0 end)%nat.
Proof. apply script_argv_built. Qed.

(** A host without symbolic links on which open(2) gives [fd], read(2) gives
    [data], no thread is cancelled, and the only execve(2) that may be asked
    for has the arguments [args]; it fails with [r]. *)
Definition exec_host (prefix : cstr) (fd : Z) (data : list ascii) (args : list arg) (r : Z) : protocol := Protocol
  (λ X e, match e with Sys nr a => nr = __NR_execve -> a = args | _ => True end)
  (λ X e,
    match e in linuxE X return X -> Prop with
    | Sys nr _ => λ x, (nr = __NR_openat -> x = fd) ∧ (nr = __NR_execve -> x = r)
    | SysOut _ _ o =>
      match o in outk Y return Z * Y -> Prop with
      | OStat => λ r, s32 r.1 ≠ - LINUX_ENOENT ∧ (s32 r.1 = 0 -> Z.land (lst_mode r.2) LINUX_S_IFMT ≠ LINUX_S_IFLNK)
      | OBytes _ => λ r, r = (strlen data, data)
      | _ => λ _, True
      end
    | Lkm c =>
      match c in lkm_nr Y return Z * Y -> Prop with
      | NR_vchroot_expand _ _ => λ r, prefix_answer prefix r.2
      | NR_pthread_canceled _ => λ r, s32 r.1 < 0
      | _ => λ _, True
      end
    end) False.

Section ExecveProofs.
Context `{LoopFuel, IcaseEnabled}.
Context (prefix : cstr) (fd : Z) (data : list ascii) (args : list arg) (r : Z).
Hypothesis Hprefix : prefix_dir prefix.
Hypothesis Hne : prefix ≠ [].

Abbreviation host := (exec_host prefix fd data args r).

Lemma exec_host_lookups : plain_lookups host prefix.
Proof. split; [done|done|by intros nr a x|by intros x path]. Qed.

(** A path that [vchroot_expand] resolves to [l] below the prefix. *)
Definition resolves (path : cstr) (l : list cstr) : Prop :=
  absolute path ∧ no_exit path ∧ strlen prefix + strlen path <= 4094 ∧ normalize path = Some l.

Lemma expand_resolves path l dfd g (Q : Z * vchroot_expand_args -> gstate -> Prop) :
  prefix_state prefix g -> resolves path l ->
  (∀ g', knows_prefix prefix g' -> Q (0, VchrootExpandArgs (join prefix l) dfd true) g') ->
  wp host (vchroot_expand (VchrootExpandArgs path dfd true)) g Q.
Proof.
  intros Hg (Ha & Hx & Hlen & Hn) HQ. eapply wp_mono; [by apply vchroot_expand_dirs; [apply exec_host_lookups|..]|].
  intros x g' [Hk Hx']. cbn [vc_path] in Hx'. rewrite Hn in Hx'. subst x. by apply HQ.
Qed.

Lemma exec_cancel {A} (early : Z -> A) (m : M A) g (Q : A -> gstate -> Prop) :
  wp host m g Q -> wp host (CANCELATION_POINT early m) g Q.
Proof.
  intros Hm. unfold CANCELATION_POINT, sys_pthread_canceled. wp_step. wp_step. wp_step.
  destruct (_ && _); [by wp_step|]. wp_step. apply wp_lkm_call; [done|]. intros x [] Hx. wp_step. cbn in Hx.
  assert (bsd_ret (bsd_ret (s32 x)) < 0) as Hlt.
  { unfold bsd_ret at 2. rewrite (proj2 (Z.ltb_lt _ _) Hx). pose proof (errno_negative _ Hx) as He.
    unfold bsd_ret. rewrite (proj2 (Z.ltb_lt _ _) He). by apply errno_negative. }
  destruct (Z.eqb_spec (bsd_ret (bsd_ret (s32 x))) 0); [lia|done].
Qed.

Lemma exec_open fname l g (Q : Z -> gstate -> Prop) :
  prefix_state prefix g -> resolves fname l -> device_alias fname = fname -> 0 <= fd <= INT_MAX ->
  (∀ g', knows_prefix prefix g' -> Q fd g') ->
  wp host (sys_open (Some fname) BSD_O_RDONLY 0) g Q.
Proof.
  intros Hg Hr Hd Hfd HQ. apply exec_cancel. unfold sys_open_nocancel. wp_step. apply wp_get_perthread_wd.
  unfold sys_openat_nocancel. rewrite Hd. wp_step. apply atfd_wp. intros d. unfold expanding. wp_step.
  change (negb _) with true. eapply expand_resolves; [done|done|]. intros g' Hk. cbn [Z.ltb Z.compare].
  wp_step. apply wp_syscall_int; [done|]. intros x [Hx _]. rewrite Hx by done. wp_step.
  rewrite s32_id by (unfold INT_MIN; lia). rewrite bsd_ret_nonneg by lia. by apply HQ.
Qed.

Lemma exec_read g (Q : Z * list ascii -> gstate -> Prop) :
  strlen data <= sizeof_shebang -> Q (strlen data, data) g -> wp host (sys_read fd sizeof_shebang) g Q.
Proof.
  intros Hlen HQ. apply exec_cancel. unfold sys_read_nocancel. wp_step. apply wp_syscall_int_out; [done|].
  intros x d Hx. cbn in Hx. injection Hx as -> ->. pose proof (strlen_nonneg data). unfold sizeof_shebang in *.
  rewrite s32_id by (unfold INT_MIN, INT_MAX; lia). destruct (Z.ltb_spec (strlen data) 0); [lia|]. wp_step.
  unfold ztake, strlen. rewrite Nat2Z.id, take_ge by lia. done.
Qed.

Lemma exec_kprintf {A} fmt vl text (k : M A) g (Q : A -> gstate -> Prop) :
  format_text fmt vl = Some text -> wp host k g Q -> wp host (printed ← __simple_kprintf fmt vl; defined printed;; k) g Q.
Proof.
  intros Ht HQ. unfold __simple_kprintf. destruct (format_512_defined fmt vl text Ht) as [b ->]. wp_step.
  wp_step. apply wp_lkm_call; [done|]. intros x [] _. wp_step. by eapply wp_bind_defined.
Qed.

Lemma exec_final sigrtmin path argv envp g :
  args = [AStr path; AArgv argv; envp] -> -4095 <= r < 0 ->
  wp host (execve_final sigrtmin path argv envp) g (λ v _, v = errno_linux_to_bsd r).
Proof.
  intros Ha Hr. unfold execve_final. cbv zeta. wp_step. wp_step; [done|]. intros x1 _.
  wp_step. apply wp_syscall_int; [by cbn; intros _|]. intros x [_ Hx]. rewrite Hx by done. wp_step. wp_step; [done|].
  intros x2 _. wp_step. rewrite s32_id by (unfold INT_MIN, INT_MAX; lia). unfold bsd_ret.
  by destruct (Z.ltb_spec r 0); [|lia].
Qed.
End ExecveProofs.

(** The common part of a script's execution, up to the argument vector. *)
Definition script_host (prefix : cstr) (fd : Z) (interp : cstr) (li : list cstr) (arg : option cstr) (rest : list ascii) (fname : cstr)
    (argv : list cstr) (envp : Linux.arg) (r : Z) : protocol :=
  exec_host prefix fd (print_shebang interp arg ++ rest)
    [AStr (join prefix li); AArgv (interp :: match arg with Some a => [a] | None => [] end ++ fname :: argv); envp] r.

(** C10: executing a script.  The script and its interpreter are named by
    absolute paths that exist and involve no symbolic link and no exit
    directory, and fit the path buffer with the prefix; the script's first
    line, within the 256 bytes that are read, names the interpreter alone
    (with an argument the code overruns its argument vector,
    [script_argument_overruns]); open and read succeed, the thread is not
    cancelled, and the caller passes at least argv[0].  Then the kernel is
    asked to execute the interpreter's path inside the prefix with the
    arguments interpreter, the script as the caller named it, and the
    caller's arguments from the second on, no other program can be started,
    and an error of the kernel comes back translated. *)
Theorem execve_script `{LoopFuel, IcaseEnabled} prefix sigrtmin stack fname lf interp li rest a0 argv beyond envp fd r g :
  prefix_dir prefix -> prefix ≠ [] -> prefix_state prefix g ->
  resolves prefix fname lf -> device_alias fname = fname -> resolves prefix interp li ->
  is_word interp -> strlen (print_shebang interp None ++ rest) <= sizeof_shebang -> 0 <= fd <= INT_MAX -> -4095 <= r < 0 ->
  wp (script_host prefix fd interp li None rest fname argv envp r)
    (sys_execve sigrtmin stack fname (a0 :: argv) beyond envp) g (λ v _, v = errno_linux_to_bsd r).
Proof.
  intros Hp Hne Hg Hf Hd Hi Hw Hlen Hfd Hr. unfold script_host. remember (@None cstr) as arg eqn:Harg.
  assert (match arg with Some a => is_arg a | None => True end) as Ha by by rewrite Harg.
  unfold sys_execve. wp_step. apply wp_get_perthread_wd. wp_step.
  eapply expand_resolves; [done|done|done|done|]. intros g1 Hg1. cbn [vc_path].
  eapply exec_kprintf; [reflexivity|]. cbn [Z.ltb Z.compare].
  wp_step. eapply exec_open; [done|done|by left|done|done|done|]. intros g2 Hg2.
  destruct (Z.ltb_spec fd 0); [lia|]. wp_step. apply exec_read; [done|]. pose proof (strlen_nonneg (print_shebang interp arg ++ rest)).
  destruct (Z.ltb_spec (strlen (print_shebang interp arg ++ rest)) 0); [lia|]. wp_step.
  unfold close_internal. wp_step. apply wp_syscall_int; [done|]. intros x _. wp_step.
  assert (ztake sizeof_shebang ((print_shebang interp arg ++ rest) ++ stack) =
    print_shebang interp arg ++ (rest ++ ztake (sizeof_shebang - strlen (print_shebang interp arg ++ rest)) stack)) as ->.
  { unfold ztake. rewrite take_app_ge by (unfold strlen in *; lia). rewrite <- app_assoc. do 3 f_equal. unfold strlen in *. lia. }
  destruct (shebang_parses interp arg (rest ++ ztake (sizeof_shebang - strlen (print_shebang interp arg ++ rest)) stack)
    (strlen (print_shebang interp arg ++ rest))) as [-> ->]; [done|done|unfold strlen; rewrite length_app; lia|].
  cbv zeta. destruct (script_argv_built interp arg fname a0 argv beyond) as [-> ->].
  rewrite (proj2 (Nat.ltb_ge _ _)) by (rewrite Harg; lia). wp_step. eapply expand_resolves; [done|done|by left|done|]. intros g3 Hg3. cbn [Z.ltb Z.compare].
  apply exec_final; [|done]. by rewrite Harg.
Qed.

#[local] Existing Instance Toy.fuel.
#[local] Existing Instance Toy.icase.

Lemma execve_script_witness :
  wp (script_host Toy.prefix 5 (s2c "/bin/sh") [s2c "bin"; s2c "sh"] None (s2c "true") (s2c "/opt/run") [s2c "x"] (AInt 0) (- LINUX_ENOENT))
    (sys_execve 34 [] (s2c "/opt/run") [s2c "run"; s2c "x"] None (AInt 0)) init_gstate (λ v _, v = - ENOENT).
Proof.
  apply (execve_script Toy.prefix 34 [] (s2c "/opt/run") [s2c "opt"; s2c "run"] (s2c "/bin/sh") [s2c "bin"; s2c "sh"]
    (s2c "true") (s2c "run") [s2c "x"] None (AInt 0) 5 (- LINUX_ENOENT) init_gstate Toy.prefix_is_dir);
    [done|by right| |by vm_compute| | |by vm_compute|by vm_compute|by vm_compute].
  - split; [by eexists|]. split; [by apply Toy.no_exit_check|]. by split; vm_compute.
  - split; [by eexists|]. split; [by apply Toy.no_exit_check|]. by split; vm_compute.
  - split; [done|]. repeat constructor; by vm_compute.
Defined.

(** The host of [Toy] with a script in every file. *)
Definition script_file (data : list ascii) : handler unit := λ X e s,
  match e in linuxE X return X * unit with
  | Sys nr _ => (if nr =? __NR_execve then - LINUX_ENOENT else 5, s)
  | SysOut nr args o =>
    match o in outk Y return (Z * Y) * unit with
    | OBytes n => if n =? sizeof_shebang then ((strlen data, data), s) else Toy.host _ (SysOut nr args (OBytes n)) s
    | o => Toy.host _ (SysOut nr args o) s
    end
  | Lkm c =>
    match c in lkm_nr Y return (Z * Y) * unit with
    | NR_pthread_canceled _ => ((-1, tt), s)
    | c => Toy.host _ (Lkm c) s
    end
  end.

(** With an argument for the interpreter, one more slot is written than was
    allocated: "#!/bin/sh -e" is undefined where "#!/bin/sh" is not. *)
Theorem script_argument_overruns :
  run (script_file (print_shebang (s2c "/bin/sh") (Some (s2c "-e")))) (sys_execve 34 [] (s2c "/opt/run") [s2c "run"] None (AInt 0)) init_gstate tt = None ∧
  (∃ g, run (script_file (print_shebang (s2c "/bin/sh") None)) (sys_execve 34 [] (s2c "/opt/run") [s2c "run"] None (AInt 0)) init_gstate tt =
    Some (- ENOENT, g, tt)).
Proof. split; [by vm_compute|]. eexists. by vm_compute. Qed.
