(* ===== verification/Unistd.v ===== *)
(** * System calls without a path

    The files of unistd/ and sysv_sem/ whose work is one request to Linux or
    to the kernel module and the translation of its result, with the ones that
    do more: close, dup2, getppid, getdtablesize, issetugid. *)
From S2P Require Import Prelude Abi Linux Errno Base Simple Paths.

(** One request, and the usual end of a system call. *)
Definition plain (nr : Z) (args : list arg) : M Z := ret ← syscall_int nr args; mret (bsd_ret ret).

(** ** unistd/ *)

Definition sys_fchmod (fd mode : Z) : M Z := plain __NR_fchmod [AInt fd; AInt mode].
Definition sys_fdatasync (fd : Z) : M Z := plain __NR_fdatasync [AInt fd].
Definition sys_flock (fd op : Z) : M Z := plain __NR_flock [AInt fd; AInt op].
Definition sys_ftruncate (fd length : Z) : M Z := plain __NR_ftruncate [AInt fd; AInt length].
Definition sys_getpgid (pid : Z) : M Z := plain __NR_getpgid [AInt pid].
Definition sys_getpgrp : M Z := plain __NR_getpgrp [].
Definition sys_getpid : M Z := plain __NR_getpid [].
Definition sys_getsid (pid : Z) : M Z := plain __NR_getsid [AInt pid].
Definition sys_setpgid (pid pgid : Z) : M Z := plain __NR_setpgid [AInt pid; AInt pgid].
Definition sys_setsid : M Z := plain __NR_setsid [].
Definition sys_sync : M Z := plain __NR_sync [].
Definition sys_umask (newmask : Z) : M Z := plain __NR_umask [AInt newmask].
Definition sys_setgroups (size gidset : Z) : M Z := plain __NR_setgroups [AInt size; AInt gidset].
Definition sys_initgroups (size gidset gmuid : Z) : M Z := sys_setgroups size gidset.
Definition sys_chroot (path : cstr) : M Z := plain __NR_chroot [AStr path].
Definition sys_getrusage (who rusage : Z) : M Z := plain __NR_getrusage [AInt who; AInt rusage].
Definition sys_thread_selfid : M Z := plain __NR_gettid [].

Definition sys_pread_nocancel (fd mem len ofs : Z) : M Z := plain __NR_pread64 [AInt fd; AInt mem; AInt len; AInt ofs].
Definition sys_pread (fd mem len ofs : Z) : M Z := CANCELATION_POINT id (sys_pread_nocancel fd mem len ofs).
Definition sys_pwrite_nocancel (fd mem len ofs : Z) : M Z := plain __NR_pwrite64 [AInt fd; AInt mem; AInt len; AInt ofs].
Definition sys_pwrite (fd mem len ofs : Z) : M Z := CANCELATION_POINT id (sys_pwrite_nocancel fd mem len ofs).
Definition sys_readv_nocancel (fd iovp len : Z) : M Z := plain __NR_readv [AInt fd; AInt iovp; AInt len].
Definition sys_readv (fd iovp len : Z) : M Z := CANCELATION_POINT id (sys_readv_nocancel fd iovp len).
Definition sys_writev_nocancel (fd iovp len : Z) : M Z := plain __NR_writev [AInt fd; AInt iovp; AInt len].
Definition sys_writev (fd iovp len : Z) : M Z := CANCELATION_POINT id (sys_writev_nocancel fd iovp len).

(** The offset is 64 bits wide. *)
Definition sys_lseek (fd offset whence : Z) : M Z :=
  ret ← LINUX_SYSCALL __NR_lseek [AInt fd; AInt offset; AInt whence];
  mret (if ret <? 0 then errno_linux_to_bsd ret else ret).

(** The second descriptor is returned in a register. *)
Definition sys_pipe : M (Z * list Z) :=
  '(ret, fds) ← syscall_int_out __NR_pipe [] (OBytes 8);
  if ret <? 0 then mret (errno_linux_to_bsd ret, [])
  else
    let int_at i := s32 (foldr (λ c acc, byte_val c + 256 * acc) 0 (take 4 (drop i fds))) in
    mret (int_at 0%nat, [int_at 0%nat; int_at 4%nat]).

Definition sys_getppid : M Z :=
  ret ← syscall_int __NR_getppid [];
  let ret := bsd_ret ret in
  mret (if ret =? 0 then 1 else ret).

(** File flags and ownership are not supported, and say so or pretend to be. *)
Definition sys_chflags (file : cstr) (flags : Z) : M Z := mret (- ENOTSUP).
Definition sys_fchflags (fd flags : Z) : M Z := mret (- ENOTSUP).
Definition sys_fchown (fd uid gid : Z) : M Z := mret 0.

(** Darwin's [~(uid_t)0 - 100]. *)
Definition KAUTH_UID_NONE : Z := 4294967195.
Definition KAUTH_GID_NONE : Z := 4294967195.

Definition sys_fchmod_extended (fd uid gid mode : Z) : M Z :=
  if (u32 uid =? KAUTH_UID_NONE) || (u32 gid =? KAUTH_GID_NONE) || (mode =? -1) then mret 0
  else
    ret ← syscall_int __NR_fchmod [AInt fd; AInt mode];
    if ret <? 0 then mret (errno_linux_to_bsd ret)
    else ret ← syscall_int __NR_fchown [AInt fd; AInt uid; AInt gid]; mret (bsd_ret ret).

(** *** Identities, which the kernel module keeps *)

Definition sys_geteuid : M Z := '(_, ug) ← lkm_call NR_getuidgid; mret ug.1.
Definition sys_getegid : M Z := '(_, ug) ← lkm_call NR_getuidgid; mret ug.2.
Definition sys_gettid : M (Z * Z * Z) := '(_, ug) ← lkm_call NR_getuidgid; mret (0, ug.1, ug.2).
Definition setuidgid (uid gid : Z) : M Z := '(ret, _) ← lkm_call (NR_trap "setuidgid" [uid; gid]); mret ret.
Definition sys_setuid (uid : Z) : M Z := setuidgid uid (-1).
Definition sys_seteuid (euid : Z) : M Z := setuidgid euid (-1).
Definition sys_setgid (gid : Z) : M Z := setuidgid (-1) gid.
Definition sys_setegid (egid : Z) : M Z := setuidgid (-1) egid.
Definition sys_settid (uid gid : Z) : M Z := setuidgid uid gid.

(** [sys_getuid() != sys_geteuid() || sys_getgid() != sys_getegid()] *)
Definition sys_issetugid : M Z :=
  uid ← sys_getuid; euid ← sys_geteuid;
  if negb (uid =? euid) then mret 1
  else gid ← sys_getgid; egid ← sys_getegid; mret (if gid =? egid then 0 else 1).

(** [fake] says whether __FAKE_SETGID_ROOT is in the environment. *)
Definition sys_getgroups (fake : bool) (size gidset : Z) : M (Z * option Z) :=
  if fake && (1 <=? size) then mret (1, Some 0)
  else ret ← plain __NR_getgroups [AInt size; AInt gidset]; mret (ret, None).

(** *** Closing descriptors *)

Definition sys_close_nocancel (fd : Z) : M Z :=
  driver ← mach_driver_get_fd;
  if fd =? driver then
    __simple_kprintf (s2c "*** Someone tried to close the special LKM fd! ***") [];; mret 0
  else
    lkm_call (NR_closing_descriptor fd);;
    ret ← syscall_int __NR_close [AInt fd]; mret (bsd_ret ret).

Definition sys_close (fd : Z) : M Z := CANCELATION_POINT id (sys_close_nocancel fd).

Definition sys_dup2 (fd_from fd_to : Z) : M Z :=
  (if fd_from =? fd_to then mret tt else lkm_call (NR_closing_descriptor fd_to);; mret tt);;
  ret ← syscall_int __NR_dup2 [AInt fd_from; AInt fd_to]; mret (bsd_ret ret).

(** The process ends: [native_exit] is the host C library's. *)
Definition sys_exit (native_exit : Z -> M unit) (status : Z) : M Z :=
  native_exit status;; plain __NR_exit_group [AInt status].

(** ** guarded/ and hfs/: guards are ignored *)
Section Guarded.
Context `{LoopFuel, IcaseEnabled}.
Definition sys_guarded_open_np (filename : option cstr) (guardflags flags mode : Z) : M (Z * Z) :=
  fd ← sys_open filename flags mode; mret (fd, 0).
Definition sys_guarded_close_np (fd : Z) : M (Z * Z) := ret ← sys_close fd; mret (ret, 0).
Definition sys_open_dprotected_np (path : option cstr) (flags class dpflags mode : Z) : M Z := sys_open path flags mode.
End Guarded.

(** ** sysv_sem/ *)

Definition sys_semget (key n fl : Z) : M Z :=
  ret ← syscall_int __NR_semget [AInt key; AInt n; AInt fl];
  mret (if ret <? 0 then errno_linux_to_bsd ret else 0).

Definition sys_semop (semid sops nsops : Z) : M Z :=
  ret ← syscall_int __NR_semop [AInt semid; AInt sops; AInt nsops];
  mret (if ret <? 0 then errno_linux_to_bsd ret else 0).

(** ** Theorems *)

(** A host on which the driver's descriptor must not be closed. *)
Definition driver_host (fd : Z) : protocol := Protocol
  (λ X e, match e with Sys nr args => (nr, args) ≠ (__NR_close, [AInt fd]) | _ => True end) (λ _ _ _, True) False.

(** No program can close the descriptor of the kernel
    module: asked to, close reports success and only writes a message; for any
    other descriptor the module is told before Linux closes it. *)
Theorem close_keeps_driver fd g :
  wp (driver_host (g_driver_fd g)) (sys_close fd) g (λ r g', g' = g ∧ (fd = g_driver_fd g -> r = 0 ∨ r = - EINTR)).
Proof.
  unfold sys_close, CANCELATION_POINT, sys_pthread_canceled. wp_step. wp_step. wp_step.
  assert (wp (driver_host (g_driver_fd g)) (sys_close_nocancel fd) g (λ r g', g' = g ∧ (fd = g_driver_fd g -> r = 0 ∨ r = - EINTR))) as Hc.
  { unfold sys_close_nocancel, mach_driver_get_fd. wp_step. wp_step. wp_step. wp_step. destruct (Z.eqb_spec fd (g_driver_fd g)) as [->|Hne].
    - wp_step. unfold __simple_kprintf. destruct (format_512 _ _).
      + wp_step. apply wp_lkm_call; [done|]. intros r [] _. wp_step. wp_step. auto.
      + wp_step. wp_step. auto.
    - wp_step. apply wp_lkm_call; [done|]. intros r [] _. wp_step. apply wp_syscall_int; [simpl; congruence|].
      intros r' _. wp_step. done. }
  destruct (_ && _).
  - wp_step. exact Hc.
  - wp_step. apply wp_lkm_call; [done|]. intros r [] _. wp_step. destruct (_ =? 0); [wp_step; auto|exact Hc].
Qed.

(** Duplicating onto the driver's descriptor is not refused. *)
Lemma dup2_replaces_driver g fd r :
  fd ≠ g_driver_fd g -> ∃ k k', sys_dup2 fd (g_driver_fd g) g = Vis (Lkm (NR_closing_descriptor (g_driver_fd g))) k ∧
  k (r, tt) = Vis (Sys __NR_dup2 [AInt fd; AInt (g_driver_fd g)]) k'.
Proof.
  intros Hne. unfold sys_dup2. rewrite (proj2 (Z.eqb_neq _ _)) by done. do 2 eexists. split; reflexivity.
Qed.

(** semget reports success without the identifier of the set. *)
Lemma semget_loses_id key n fl g :
  ∃ k, sys_semget key n fl g = Vis (Sys __NR_semget [AInt key; AInt n; AInt fl]) k ∧ ∀ id, 0 <= id <= INT_MAX -> k id = Ret (0, g).
Proof.
  eexists. split; [reflexivity|]. intros id Hid. simpl. rewrite s32_id by (unfold INT_MIN, INT_MAX in *; lia).
  by rewrite (proj2 (Z.ltb_ge _ _)) by lia.
Qed.
