(* ===== verification/Misc.v ===== *)
(** * Limits, timers and other small calls

    misc/{getrlimit,setrlimit,getentropy,gethostuuid,csops,csrctl,fileport_*,
    reboot,abort_with_payload,...}.c, time/{gettimeofday,setitimer,getitimer,
    futimes}.c, select/, process/{getpriority,setpriority,waitid}.c,
    ext/{sysinfo,uname}.c and audit/. *)
From S2P Require Import Prelude Abi Linux Errno Base Simple Vchroot VchrootProofs Signals Fcntl Paths Process Unistd.

(** ** Resource limits *)

Definition rlimit_bsd_to_linux (which : Z) : Z :=
  switch [(BSD_RLIMIT_CPU, LINUX_RLIMIT_CPU); (BSD_RLIMIT_FSIZE, LINUX_RLIMIT_FSIZE); (BSD_RLIMIT_DATA, LINUX_RLIMIT_DATA);
          (BSD_RLIMIT_STACK, LINUX_RLIMIT_STACK); (BSD_RLIMIT_CORE, LINUX_RLIMIT_CORE); (BSD_RLIMIT_AS, LINUX_RLIMIT_AS);
          (BSD_RLIMIT_MEMLOCK, LINUX_RLIMIT_MEMLOCK); (BSD_RLIMIT_NPROC, LINUX_RLIMIT_NPROC);
          (BSD_RLIMIT_NOFILE, LINUX_RLIMIT_NOFILE)] (2 ^ 32 - 1) (Z.land (u32 which) (Z.lxor (2 ^ 32 - 1) BSD_RLIMIT_POSIX)).

(** The result and the limits stored for the caller. *)
Definition sys_getrlimit (which : Z) : M (Z * option (Z * Z)) :=
  let which := rlimit_bsd_to_linux which in
  if which =? 2 ^ 32 - 1 then mret (- EINVAL, None)
  else
    '(ret, (cur, max)) ← syscall_int_out __NR_prlimit64 [AInt 0; AInt which; AInt 0] ORlimit;
    mret (bsd_ret ret, Some (if which =? LINUX_RLIMIT_NOFILE then (u64 (cur - 1), u64 (max - 1)) else (cur, max))).

Definition sys_setrlimit (which rlim_cur rlim_max : Z) : M Z :=
  let which := rlimit_bsd_to_linux which in
  if which =? 2 ^ 32 - 1 then mret (- EINVAL)
  else
    let '(cur, max) := if which =? LINUX_RLIMIT_NOFILE then (u64 (rlim_cur + 1), u64 (rlim_max + 1)) else (rlim_cur, rlim_max) in
    plain __NR_prlimit64 [AInt 0; AInt which; ARlimit cur max; AInt 0].

(** [min(lim.rlim_cur, INT_MAX)] *)
Definition sys_getdtablesize : M Z :=
  '(ret, lim) ← sys_getrlimit BSD_RLIMIT_NOFILE;
  if ret <? 0 then mret ret
  else '(cur, _) ← defined lim; mret (if cur <? INT_MAX then cur else INT_MAX).

(** ** Time *)

(** [tv_usec] of Darwin is 32 bits wide. *)
Definition timeval_to_bsd (t : timeval) : timeval := Timeval (tv_s t) (s32 (tv_usec t)).

Definition sys_gettimeofday (tz : Z) : M (Z * option timeval) :=
  '(ret, ltv) ← syscall_int_out __NR_gettimeofday [AInt tz] OTimeval;
  mret (if ret <? 0 then (errno_linux_to_bsd ret, None) else (ret, Some (timeval_to_bsd ltv))).

Definition itimer_to_bsd (i : itimerval) : itimerval := Itimerval (timeval_to_bsd (it_interval i)) (timeval_to_bsd (it_value i)).

(** [want] says whether the old value is asked for. *)
Definition sys_setitimer (which : Z) (itv : option itimerval) (want : bool) : M (Z * option itimerval) :=
  match itv with
  | None => mret (- EFAULT, None)
  | Some itv =>
    '(ret, old) ← syscall_int_out __NR_setitimer [AInt which; AItimerval itv] OItimerval;
    mret (if ret <? 0 then (errno_linux_to_bsd ret, None) else (ret, if want then Some (itimer_to_bsd old) else None))
  end.

Definition sys_getitimer (which : Z) (oitv : bool) : M (Z * option itimerval) :=
  if negb oitv then mret (- EFAULT, None)
  else
    '(ret, i) ← syscall_int_out __NR_getitimer [AInt which] OItimerval;
    mret (if ret <? 0 then (errno_linux_to_bsd ret, None) else (ret, Some (itimer_to_bsd i))).

(** utimensat(2) takes seconds and nanoseconds; the two structures of the
    caller hold seconds and microseconds, and are passed member by member. *)
Definition sys_futimes (fd : Z) (atime mtime : timeval) : M Z :=
  plain __NR_utimensat [AInt fd; ANull; ATimespec (Timespec (tv_s atime) (tv_usec atime));
                        ATimespec (Timespec (tv_s mtime) (tv_usec mtime)); AInt 0].

(** ** Waiting *)

Definition opt_timeval (t : option timeval) : arg := match t with Some t => ATimeval t | None => ANull end.

Definition sys_select_nocancel (nfds rfds wfds efds : Z) (timeout : option timeval) : M Z :=
  plain __NR_select [AInt nfds; AInt rfds; AInt wfds; AInt efds; opt_timeval timeout].
Definition sys_select (nfds rfds wfds efds : Z) (timeout : option timeval) : M Z :=
  CANCELATION_POINT id (sys_select_nocancel nfds rfds wfds efds timeout).

Definition sys_poll_nocancel (fds nfds timeout : Z) : M Z := plain __NR_poll [AInt fds; AInt nfds; AInt timeout].
Definition sys_poll (fds nfds timeout : Z) : M Z := CANCELATION_POINT id (sys_poll_nocancel fds nfds timeout).

(** pselect6(2) takes nanoseconds, and the address and the size of a signal
    set; the code passes the microseconds and the set itself. *)
Definition sys_pselect_nocancel (nfds rfds wfds efds : Z) (timeout : option timeval) (mask : option Z) : M Z :=
  plain __NR_pselect6 ([AInt nfds; AInt rfds; AInt wfds; AInt efds;
    match timeout with Some t => ATimespec (Timespec (tv_s t) (tv_usec t)) | None => ANull end] ++
    match mask with Some m => [AInt (sigset_bsd_to_linux m); AInt (65 / 8)] | None => [ANull] end).
Definition sys_pselect (nfds rfds wfds efds : Z) (timeout : option timeval) (mask : option Z) : M Z :=
  CANCELATION_POINT id (sys_pselect_nocancel nfds rfds wfds efds timeout mask).

(** The members of [struct simple_siginfo] that are translated. *)
Definition sys_waitid (idtype ident : Z) (si : bool) (options : Z) : M (Z * option (Z * Z)) :=
  let linux_options := waitopts_bsd_to_linux options in
  '(ret, (signo, err)) ← syscall_int_out __NR_waitid [AInt idtype; AInt ident; AInt linux_options] OSiginfo;
  if ret <? 0 then mret (errno_linux_to_bsd ret, None)
  else mret (ret, if si then Some (signum_linux_to_bsd signo, errno_linux_to_bsd err) else None).

(** Errors are passed on as Linux reports them. *)
Definition sys_getpriority (which who : Z) : M Z := syscall_int __NR_getpriority [AInt which; AInt who].
Definition sys_setpriority (which who prio : Z) : M Z := syscall_int __NR_setpriority [AInt which; AInt who; AInt prio].

(** ** Random bytes and the host's identifier *)

(** [int ret; unsigned long size; ... if (ret < size) return -EIO;]: the
    comparison is made in unsigned arithmetic. *)
Definition sys_getentropy (size : Z) : M (Z * list ascii) :=
  '(ret, data) ← syscall_int_out __NR_getrandom [AInt size; AInt 0] (OBytes size);
  let ret' := bsd_ret ret in
  mret (if u64 ret' <? size then - EIO else 0, if ret <? 0 then [] else ztake ret data).

Definition hvalue (c : ascii) : Z :=
  let b := byte_val c in
  if (48 <=? b) && (b <=? 57) then b - 48
  else if (65 <=? b) && (b <=? 70) then 10 + (b - 65)
  else if (97 <=? b) && (b <=? 102) then 10 + (b - 97)
  else 0.

(** Sixteen bytes from the first 32 characters; [None] past the end. *)
Fixpoint hex2bin (n : nat) (str : list ascii) : option (list ascii) :=
  match n with
  | O => Some []
  | S n =>
    match str with
    | a :: b :: str => rest ← hex2bin n str; Some (byte_of (Z.lor (u8 (Z.shiftl (hvalue a) 4)) (hvalue b)) :: rest)
    | _ => None
    end
  end.

Section Files.
Context `{LoopFuel, IcaseEnabled}.

Definition sys_gethostuuid : M (Z * option (list ascii)) :=
  fd ← sys_open (Some (s2c "/Volumes/SystemRoot/etc/machine-id")) BSD_O_RDONLY 0;
  if fd <? 0 then mret (fd, None)
  else
    '(ret, buf) ← sys_read fd 32;
    close_internal fd;;
    if ret <? 0 then mret (ret, None)
    else if negb (ret =? 32) then mret (- ENOSYS, None)
    else uuid ← defined (hex2bin 16 buf); mret (0, Some uuid).
End Files.

(** ** Linux's system information *)

(** The result, [errno] when the result is -1, and the uptime. *)
Definition __linux_sysinfo : M (Z * Z * Z) :=
  '(rv, uptime) ← syscall_int_out __NR_sysinfo [] OUptime;
  mret (if rv <? 0 then -1 else rv, errno_linux_to_bsd (- rv), uptime).

Definition __linux_uname : M (Z * linux_utsname) :=
  '(rv, u) ← syscall_int_out __NR_uname [] OUtsname; mret (if rv <? 0 then -1 else rv, u).

(** ** Stubs with a result *)

Definition CS_OPS_STATUS : Z := 0.
Definition CS_OPS_ENTITLEMENTS_BLOB : Z := 7.
Definition CS_OPS_BLOB : Z := 10.
Definition CS_OPS_IDENTITY : Z := 11.
Definition CS_VALID : Z := 1.
Definition CSR_SYSCALL_CHECK : Z := 0.
Definition CSR_SYSCALL_GET_ACTIVE_CONFIG : Z := 1.

(** The result and the bytes stored at the caller's address. *)
Definition sys_csops (pid ops usersize : Z) : M (Z * list ascii) :=
  mret (if ops =? CS_OPS_STATUS then (0, [byte_of CS_VALID; NUL; NUL; NUL])
        else if (ops =? CS_OPS_BLOB) || (ops =? CS_OPS_ENTITLEMENTS_BLOB) || (ops =? CS_OPS_IDENTITY)
        then (0, replicate (Z.to_nat usersize) NUL) else (- ENOSYS, [])).
Definition sys_csops_audittoken (pid ops usersize : Z) : M (Z * list ascii) := sys_csops pid ops usersize.

(** [valid] is Darwin's [CSR_VALID_FLAGS].  The error number is positive. *)
Definition sys_csrctl (valid op : Z) : M (Z * option Z) :=
  mret (if op =? CSR_SYSCALL_CHECK then (0, None)
        else if op =? CSR_SYSCALL_GET_ACTIVE_CONFIG then (0, Some valid) else (ENOSYS, None)).

Definition sys_setlogin (buf : cstr) : M Z := mret 0.
Definition sys_iopolicysys (cmd : Z) : M Z := mret 0.
Definition sys_fsgetpath : M Z := mret (- ENOTSUP).
Definition sys_clonefileat : M Z := mret (- ENOSYS).
Definition sys_fclonefileat : M Z := mret (- ENOSYS).
Definition sys_shared_region_check_np : M Z := mret (- EINVAL).

(** [user] is the value of USER in the environment; the result and the string
    stored ([strlcpy] returns the length of the source). *)
Definition sys_getlogin (user : option cstr) (len : Z) : M (Z * option cstr) :=
  match user with
  | Some e => mret (strlen e, if len =? 0 then None else Some (ztake (len - 1) e))
  | None => mret (0, Some [])
  end.

(** The kernel module's file ports: [lkm_call] has translated the error
    already, and it is translated once more. *)
Definition sys_fileport_makefd (port : Z) : M Z :=
  '(ret, _) ← lkm_call (NR_trap "fileport_makefd" [port]); mret (if ret <? 0 then errno_linux_to_bsd ret else ret).
Definition sys_fileport_makeport (fd : Z) : M (Z * option Z) :=
  '(ret, args) ← lkm_call (NR_trap "fileport_makeport" [fd; 0]);
  if ret <? 0 then mret (errno_linux_to_bsd ret, None)
  else port ← defined (args !! 1%nat); mret (0, Some port).

(** The format has two conversions and one argument, the command. *)
Definition sys_reboot (native_exit : Z -> M unit) (opt : Z) (cmd : cstr) : M Z :=
  r ← __simple_printf (s2c "ALERT: The process has asked for system reboot with opt %d and cmd '%s' - terminating" ++ ["010"%char]) [VStr (Some cmd)];
  defined r;; sys_exit native_exit 1;; mret (- ENOTSUP).

Definition sys_abort_with_payload (reason_code : Z) (reason_string : option cstr) : M Z :=
  r ← __simple_printf (s2c "abort_with_payload: reason: %s; code: %lu" ++ ["010"%char]) [VStr reason_string; VNum reason_code];
  defined r;; sys_kill 0 SIGABRT 1;; mret 0.

(** ** Theorems *)

(** *** Limits *)

(** A kernel that keeps the limits of every resource. *)
Definition limits : Type := Z -> Z * Z.

Definition limits_host : handler limits := λ X e s,
  match e in linuxE X return X * limits with
  | Sys nr [AInt _; AInt which; ARlimit cur max; AInt _] =>
    if nr =? __NR_prlimit64 then (0, λ w, if w =? which then (cur, max) else s w) else (0, s)
  | Sys _ _ => (0, s)
  | SysOut nr args o =>
    match o in outk Y return (Z * Y) * limits with
    | ORlimit => match args with [AInt _; AInt which; AInt _] => ((0, s which), s) | _ => ((0, (0, 0)), s) end
    | o => ((0, zero_out o), s)
    end
  | Lkm c => ((0, zero_lkm c), s)
  end.

Lemma limit_shift c : 0 <= c < 2 ^ 64 -> u64 (u64 (c + 1) - 1) = c.
Proof. intros Hc. unfold u64. rewrite Zminus_mod_idemp_l. replace (c + 1 - 1) with c by lia. by rewrite Z.mod_small. Qed.

(** A resource limit that was set is read back as it
    was set, for all nine resources of Darwin, with or without the POSIX flag;
    the number of descriptors is one larger for Linux on the way there and one
    smaller on the way back. *)
Theorem rlimit_set_get which cur max g s :
  rlimit_bsd_to_linux which ≠ 2 ^ 32 - 1 -> 0 <= cur < 2 ^ 64 -> 0 <= max < 2 ^ 64 ->
  ∃ s', run limits_host (sys_setrlimit which cur max) g s = Some (0, g, s') ∧
        run limits_host (sys_getrlimit which) g s' = Some ((0, Some (cur, max)), g, s').
Proof.
  intros Hw Hc Hm. unfold sys_setrlimit, sys_getrlimit. rewrite (proj2 (Z.eqb_neq _ _)) by done.
  destruct (Z.eqb_spec (rlimit_bsd_to_linux which) LINUX_RLIMIT_NOFILE) as [Hn|Hn].
  - eexists. split; [reflexivity|]. unfold run. simpl. rewrite Z.eqb_refl. simpl. by rewrite !limit_shift.
  - eexists. split; [reflexivity|]. unfold run. simpl. by rewrite Z.eqb_refl.
Qed.

Lemma rlimit_set_get_witness :
  ∃ s', run limits_host (sys_setrlimit (Z.lor BSD_RLIMIT_NOFILE BSD_RLIMIT_POSIX) 256 1024) init_gstate (λ _, (0, 0)) = Some (0, init_gstate, s') ∧
        run limits_host (sys_getrlimit (Z.lor BSD_RLIMIT_NOFILE BSD_RLIMIT_POSIX)) init_gstate s' = Some ((0, Some (256, 1024)), init_gstate, s').
Proof. apply (rlimit_set_get (Z.lor BSD_RLIMIT_NOFILE BSD_RLIMIT_POSIX) 256 1024 init_gstate (λ _, (0, 0))); [by vm_compute|lia|lia]. Defined.

(** *** Random bytes *)

(** A failing getrandom(2) is reported as success, with nothing stored. *)
Theorem getentropy_hides_errors size r data g :
  0 <= size <= 256 -> -4096 < r < 0 ->
  ∃ k, sys_getentropy size g = Vis (SysOut __NR_getrandom [AInt size; AInt 0] (OBytes size)) k ∧ k (r, data) = Ret ((0, []), g).
Proof.
  intros Hs Hr. eexists. split; [reflexivity|]. simpl. rewrite s32_id by (unfold INT_MIN, INT_MAX; lia).
  unfold bsd_ret. rewrite (proj2 (Z.ltb_lt r 0)) by lia. pose proof (errno_range r Hr).
  assert (u64 (errno_linux_to_bsd r) = errno_linux_to_bsd r + 2 ^ 64) as -> by
    (unfold u64; symmetry; apply (Z.mod_unique _ (2 ^ 64) (-1)); lia).
  by rewrite (proj2 (Z.ltb_ge _ _)) by lia.
Qed.

Lemma getentropy_hides_errors_witness :
  ∃ k, sys_getentropy 16 init_gstate = Vis (SysOut __NR_getrandom [AInt 16; AInt 0] (OBytes 16)) k ∧
       k (- LINUX_EFAULT, []) = Ret ((0, []), init_gstate).
Proof. apply (getentropy_hides_errors 16 (- LINUX_EFAULT) [] init_gstate); [lia|by vm_compute]. Defined.

(** *** The host's identifier *)

(** Hexadecimal text in small letters, as /etc/machine-id holds it. *)
Definition hex_lower (d : Z) : ascii := if d <? 10 then byte_of (48 + d) else byte_of (87 + d).
Definition machine_id (uuid : list ascii) : list ascii :=
  uuid ≫= (λ c, [hex_lower (byte_val c / 16); hex_lower (byte_val c mod 16)]).

Lemma hvalue_lower d : 0 <= d < 16 -> hvalue (hex_lower d) = d.
Proof.
  intros Hd. assert (forallb (λ n, hvalue (hex_lower (Z.of_nat n)) =? Z.of_nat n) (seq 0 16) = true) as Hall by by vm_compute.
  rewrite forallb_forall in Hall. specialize (Hall (Z.to_nat d)). rewrite Z2Nat.id in Hall by lia.
  apply Z.eqb_eq, Hall. apply in_seq. lia.
Qed.

Lemma nibbles b : 0 <= b < 256 -> Z.lor (u8 (Z.shiftl (b / 16) 4)) (b mod 16) = b.
Proof.
  intros Hb. assert (forallb (λ n, let b := Z.of_nat n in Z.lor (u8 (Z.shiftl (b / 16) 4)) (b mod 16) =? b) (seq 0 256) = true) as Hall
    by by vm_compute.
  rewrite forallb_forall in Hall. specialize (Hall (Z.to_nat b)). rewrite Z2Nat.id in Hall by lia.
  apply Z.eqb_eq, Hall. apply in_seq. lia.
Qed.

(** The host's identifier is the 16 bytes whose
    hexadecimal text /etc/machine-id holds. *)
Theorem hostuuid_round_trip uuid rest : hex2bin (length uuid) (machine_id uuid ++ rest) = Some uuid.
Proof.
  induction uuid as [|c uuid IH]; [done|]. change (machine_id (c :: uuid)) with
    ([hex_lower (byte_val c / 16); hex_lower (byte_val c mod 16)] ++ machine_id uuid). cbn [length app hex2bin]. rewrite IH. simpl.
  pose proof (byte_val_range c). rewrite !hvalue_lower by (split; [apply Z.div_pos || apply Z.mod_pos_bound; lia|
    apply Z.div_lt_upper_bound || apply Z.mod_pos_bound; lia]).
  by rewrite nibbles, byte_of_val.
Qed.
