(* ===== verification/Xattr.v ===== *)
(** * Extended attributes and attribute lists

    xattr/: the calls of the setxattr family, and getattrlist and setattrlist
    with their variants, which getattrlist_generic.c and setattrlist_generic.c
    define twice, for a path and for a descriptor. *)
From S2P Require Import Prelude Abi Linux Errno Base Simple Vchroot VchrootProofs Fcntl Paths Dirent Unistd.

Definition ATTR_BIT_MAP_COUNT : Z := 5.
Definition ATTR_CMN_OBJTAG : Z := 0x10.
Definition ATTR_CMN_CRTIME : Z := 0x200.
Definition ATTR_CMN_MODTIME : Z := 0x400.
Definition ATTR_CMN_CHGTIME : Z := 0x800.
Definition ATTR_CMN_ACCTIME : Z := 0x1000.
Definition ATTR_CMN_FNDRINFO : Z := 0x4000.
Definition ATTR_CMN_ACCESSMASK : Z := 0x20000.
Definition ATTR_DIR_ENTRYCOUNT : Z := 0x2.
Definition ATTR_FILE_RSRCLENGTH : Z := 0x1000.
Definition FSOPT_NOFOLLOW : Z := 1.
Definition FSOPT_REPORT_FULLSIZE : Z := 4.
Definition VT_HFS : Z := 16.
Definition LINUX_UTIME_OMIT : Z := 2 ^ 30 - 2.
Definition XATTR_FINDER_INFO : cstr := s2c "com.apple.FinderInfo".

(** ** The setxattr family *)

Definition sys_fgetxattr (fd : Z) (name : cstr) (value size pos options : Z) : M Z :=
  if negb (pos =? 0) then mret (- ERANGE) else plain __NR_fgetxattr [AInt fd; ABuf name; AInt value; AInt size].

Definition sys_fsetxattr (fd : Z) (name : cstr) (value size pos options : Z) : M Z :=
  if negb (pos =? 0) then mret (- ERANGE) else plain __NR_fsetxattr [AInt fd; ABuf name; AInt value; AInt size].

Definition sys_fremovexattr (fd : Z) (name : cstr) (options : Z) : M Z := plain __NR_fremovexattr [AInt fd; ABuf name].

(** The path is passed on as it is. *)
Definition sys_setxattr (path name : cstr) (value size pos options : Z) : M Z :=
  if negb (pos =? 0) then mret (- ERANGE)
  else plain (if has options XATTR_NOFOLLOW then __NR_lsetxattr else __NR_setxattr) [AStr path; ABuf name; AInt value; AInt size].

Definition sys_removexattr (path name : cstr) (options : Z) : M Z :=
  plain (if has options XATTR_NOFOLLOW then __NR_lremovexattr else __NR_removexattr) [AStr path; ABuf name].

(** Links are listed by the path that /proc has for the descriptor. *)
Definition sys_flistxattr (fd namebuf size options : Z) : M Z :=
  '(ret, st) ← syscall_int_out __NR_fstat [AInt fd] OStat;
  if ret <? 0 then mret (errno_linux_to_bsd ret)
  else if Z.land (lst_mode st) LINUX_S_IFMT =? LINUX_S_IFLNK then
    '(ret, data) ← syscall_int_out __NR_readlink [AStr (proc_fd_path fd); AInt 4095] (OBytes 4095);
    if ret <? 0 then mret (errno_linux_to_bsd ret)
    else plain __NR_llistxattr [AStr (c_str (ztake ret data)); AInt namebuf; AInt size]
  else plain __NR_flistxattr [AInt fd; AInt namebuf; AInt size].

(** ** Attribute lists *)

Record attrlist := Attrlist {
  bitmapcount : Z; commonattr : Z; volattr : Z; dirattr : Z; fileattr : Z; forkattr : Z }.

(** What the call works on: HAS_PATH is 0 or 1. *)
Inductive attr_target : Set := OnFd (fd : Z) | OnPath (dfd : Z) (path : cstr).

(** [(attr & supported) != attr] does not hold for any of the five groups. *)
Definition attrs_supported (common vol dir file fork : Z) (a : attrlist) : bool :=
  (ATTR_BIT_MAP_COUNT <=? bitmapcount a) && (Z.land (commonattr a) common =? commonattr a) && (Z.land (volattr a) vol =? volattr a) &&
  (Z.land (dirattr a) dir =? dirattr a) && (Z.land (fileattr a) file =? fileattr a) && (Z.land (forkattr a) fork =? forkattr a).

Definition get_supported : attrlist -> bool :=
  attrs_supported (Z.lor ATTR_CMN_FNDRINFO ATTR_CMN_OBJTAG) 0 ATTR_DIR_ENTRYCOUNT ATTR_FILE_RSRCLENGTH 0.

Definition set_supported : attrlist -> bool :=
  attrs_supported (or_all [ATTR_CMN_MODTIME; ATTR_CMN_ACCTIME; ATTR_CMN_ACCESSMASK]) 0 0 0 0.

Definition wants (mask bit : Z) (size : Z) : Z := if has mask bit then size else 0.

Definition spaceNeeded (a : attrlist) : Z :=
  4 + wants (commonattr a) ATTR_CMN_FNDRINFO 32 + wants (fileattr a) ATTR_FILE_RSRCLENGTH 8 +
  wants (commonattr a) ATTR_CMN_OBJTAG 4 + wants (dirattr a) ATTR_DIR_ENTRYCOUNT 4.

Section Attrs.
Context `{LoopFuel, IcaseEnabled}.
(** The memory [alloca] returns. *)
Context (stack : nat -> ascii).

Definition finder_info (t : attr_target) (size : Z) : M (Z * list ascii) :=
  match t with
  | OnPath _ path => syscall_int_out __NR_getxattr [AStr path; ABuf XATTR_FINDER_INFO; AInt size] (OXattr size)
  | OnFd fd => syscall_int_out __NR_fgetxattr [AInt fd; ABuf XATTR_FINDER_INFO; AInt size] (OXattr size)
  end.

(** [for (iter = buf; iter < buf + rv; iter += d_reclen) ++count] *)
Fixpoint count_batch (des : list linux_dirent64) (pos rv count : Z) : M Z :=
  if pos <? rv then
    match des with
    | [] => undefined
    | de :: des => count_batch des (pos + ld_reclen de) rv (u32 (count + 1))
    end
  else mret count.

Fixpoint count_entries (fuel : nat) (fd count : Z) : M Z :=
  match fuel with
  | O => out_of_fuel
  | S fuel =>
    '(rv, des) ← syscall_int_out __NR_getdents64 [AInt fd; AInt 1024] (ODirents 1024);
    if rv <=? 0 then mret count
    else count ← count_batch des 0 rv count; count_entries fuel fd count
  end.

(** Errors leave what was counted so far. *)
Definition entry_count (t : attr_target) : M Z :=
  fd ← match t with
       | OnPath dfd path => syscall_int __NR_openat [AInt dfd; AStr path; AInt (Z.lor LINUX_O_RDONLY LINUX_O_DIRECTORY); AInt 0]
       | OnFd fd => sys_dup fd
       end;
  if fd <? 0 then mret 0 else count ← count_entries loop_fuel fd 0; close_internal fd;; mret count.

(** [ourBuffer] and the offset [next]. *)
Definition cursor : Type := list ascii * nat.

Definition put_attr (data : list ascii) (skip : nat) (c : cursor) : cursor := (write_at c.1 c.2 data, (c.2 + skip)%nat).

Definition get_attributes (t : attr_target) (a : attrlist) : M (list ascii) :=
  let c : cursor := (stack <$> seq 0 (Z.to_nat (spaceNeeded a)), 4%nat) in
  c ← (if has (commonattr a) ATTR_CMN_FNDRINFO then
         '(rv, data) ← finder_info t 32;
         mret (put_attr (if rv <? 0 then replicate 32 NUL else ztake rv data) 32 c)
       else mret c);
  c ← (if has (fileattr a) ATTR_FILE_RSRCLENGTH then
         '(rv, _) ← finder_info t 0; mret (put_attr (int_bytes (if rv <? 0 then 0 else rv)) 4 c)
       else mret c);
  let c := if has (commonattr a) ATTR_CMN_OBJTAG then put_attr (int_bytes VT_HFS) 4 c else c in
  c ← (if has (dirattr a) ATTR_DIR_ENTRYCOUNT then count ← entry_count t; mret (put_attr (int_bytes count) 4 c) else mret c);
  mret c.1.

(** After the path: the result, and the caller's memory [mem] at
    [attributeBuffer]. *)
Definition getattrlist_body (t : attr_target) (a : attrlist) (mem : list ascii) (bufferSize options : Z) : M (Z * list ascii) :=
  if negb (get_supported a) then mret (- EINVAL, mem)
  else
    ourBuffer ← get_attributes t a;
    let bufferSize := if negb (has options FSOPT_REPORT_FULLSIZE) && (bufferSize <? spaceNeeded a) then spaceNeeded a else bufferSize in
    let ourBuffer := write_at ourBuffer 0 (int_bytes bufferSize) in
    let n := Z.min bufferSize (spaceNeeded a) in
    if Z.of_nat (length mem) <? n then undefined else mret (0, write_at mem 0 (ztake n ourBuffer)).

(** [None] for a null pointer.  The error of the resolution is returned as
    Linux numbers it. *)
Definition sys_fgetattrlist (fd : Z) (a : option attrlist) (mem : list ascii) (bufferSize options : Z) : M (Z * list ascii) :=
  match a with None => mret (- EFAULT, mem) | Some a => getattrlist_body (OnFd fd) a mem bufferSize options end.

Definition on_path {A} (fail : Z -> A) (fd : Z) (path : option cstr) (options : Z) (k : attr_target -> M A) : M A :=
  match path with
  | None => mret (fail (- EFAULT))
  | Some path =>
    dfd ← atfd fd;
    '(rv, vc) ← vchroot_expand (VchrootExpandArgs path dfd (negb (has options FSOPT_NOFOLLOW)));
    if rv <? 0 then mret (fail rv) else k (OnPath (vc_dfd vc) (vc_path vc))
  end.

Definition sys_getattrlistat (fd : Z) (path : option cstr) (a : option attrlist) (mem : list ascii) (bufferSize options : Z)
    : M (Z * list ascii) :=
  match a with
  | None => mret (- EFAULT, mem)
  | Some a => on_path (λ e, (e, mem)) fd path options (λ t, getattrlist_body t a mem bufferSize options)
  end.

Definition sys_getattrlist (path : option cstr) (a : option attrlist) (mem : list ascii) (bufferSize options : Z) : M (Z * list ascii) :=
  wd ← get_perthread_wd; sys_getattrlistat wd path a mem bufferSize options.

Definition sys_getattrlistbulk : M Z := mret (- ENOTSUP).

(** *** Setting *)

(** Reading 16 or 4 bytes of the caller's memory. *)
Definition read_at (mem : list ascii) (off n : nat) : option Z :=
  if (off + n <=? length mem)%nat then Some (bytes_value (take n (drop off mem))) else None.

Definition timespec_at (mem : list ascii) (off : nat) : option timespec :=
  sec ← read_at mem off 8; nsec ← read_at mem (off + 8) 8; Some (Timespec (s64 sec) (s64 nsec)).

Definition omit : timespec := Timespec LINUX_UTIME_OMIT LINUX_UTIME_OMIT.

Definition set_times (t : attr_target) (atime mtime : timespec) (flag : Z) : M Z :=
  match t with
  | OnPath _ path => syscall_int __NR_utimensat [AInt LINUX_AT_FDCWD; AStr path; ATimespec atime; ATimespec mtime; AInt flag]
  | OnFd fd => syscall_int __NR_utimensat [AInt fd; ANull; ATimespec atime; ATimespec mtime; AInt flag]
  end.

Definition set_mode (t : attr_target) (perms flag : Z) : M Z :=
  match t with
  | OnPath _ path => do_linux_fchmodat LINUX_AT_FDCWD path perms flag
  | OnFd fd => syscall_int __NR_fchmod [AInt fd; AInt perms]
  end.

(** [if (alist->commonattr & bit) { ...; if (rv < 0) return ...; next += skip; }] *)
Definition attr_step (a : attrlist) (bit : Z) (skip : nat) (act : nat -> M Z) (next : nat) (k : nat -> M Z) : M Z :=
  if has (commonattr a) bit then
    rv ← act next; if rv <? 0 then mret (errno_linux_to_bsd rv) else k (next + skip)%nat
  else k next.

Definition setattrlist_body (t : attr_target) (a : attrlist) (mem : list ascii) (options : Z) : M Z :=
  let flag := if has options FSOPT_NOFOLLOW then LINUX_AT_SYMLINK_NOFOLLOW else 0 in
  if negb (set_supported a) then mret (- EINVAL)
  else
    attr_step a ATTR_CMN_CRTIME 16 (λ _, mret 0) 0 (λ next,
    attr_step a ATTR_CMN_MODTIME 16 (λ off, ts ← defined (timespec_at mem off); set_times t omit ts flag) next (λ next,
    attr_step a ATTR_CMN_CHGTIME 16 (λ _, mret 0) next (λ next,
    attr_step a ATTR_CMN_ACCTIME 16 (λ off, ts ← defined (timespec_at mem off); set_times t ts omit flag) next (λ next,
    attr_step a ATTR_CMN_ACCESSMASK 4 (λ off, perms ← defined (read_at mem off 4); set_mode t (s32 perms) flag) next (λ _,
    mret 0))))).

Definition sys_fsetattrlist (fd : Z) (a : option attrlist) (mem : list ascii) (bufferSize options : Z) : M Z :=
  match a with None => mret (- EFAULT) | Some a => setattrlist_body (OnFd fd) a mem options end.

Definition sys_setattrlistat (fd : Z) (path : option cstr) (a : option attrlist) (mem : list ascii) (bufferSize options : Z) : M Z :=
  match a with
  | None => mret (- EFAULT)
  | Some a => on_path id fd path options (λ t, setattrlist_body t a mem options)
  end.

Definition sys_setattrlist (path : option cstr) (a : option attrlist) (mem : list ascii) (bufferSize options : Z) : M Z :=
  wd ← get_perthread_wd; sys_setattrlistat wd path a mem bufferSize options.
End Attrs.

(** ** The layout of the answer *)

(** A host: what it answers to getxattr, and the batches of directory entries
    it has left. *)
Definition attr_host (info : Z * list ascii) : handler (list (list linux_dirent64)) := λ X e batches,
  match e in linuxE X return X * list (list linux_dirent64) with
  | Sys nr _ => (if (nr =? __NR_dup) || (nr =? __NR_openat) then 7 else 0, batches)
  | SysOut _ _ o =>
    match o in outk Y return (Z * Y) * list (list linux_dirent64) with
    | OXattr _ => (info, batches)
    | ODirents _ => match batches with des :: batches => ((sum_reclen des, des), batches) | [] => ((0, []), []) end
    | o => ((0, zero_out o), batches)
    end
  | Lkm c => ((0, zero_lkm c), batches)
  end.

(** Batches of at least one entry each, in a buffer of 1024 bytes. *)
Definition batch_ok (des : list linux_dirent64) : Prop :=
  des ≠ [] ∧ Forall linux_entry_ok des ∧ sum_reclen des <= 1024.

(** The attribute is there, with all its 32 bytes, or it is not. *)
Definition info_ok (info : Z * list ascii) : Prop := (info.1 = 32 ∧ length info.2 = 32%nat) ∨ INT_MIN <= info.1 < 0.

Definition info_bytes (info : Z * list ascii) : list ascii := if info.1 <? 0 then replicate 32 NUL else info.2.

Definition when (b : bool) (bytes : list ascii) : list ascii := if b then bytes else [].

(** The attributes that were asked for, in the order of their bits. *)
Definition attr_bytes (info : Z * list ascii) (entries : Z) (a : attrlist) : list ascii :=
  when (has (commonattr a) ATTR_CMN_FNDRINFO) (info_bytes info) ++ when (has (commonattr a) ATTR_CMN_OBJTAG) (int_bytes VT_HFS) ++
  when (has (dirattr a) ATTR_DIR_ENTRYCOUNT) (int_bytes entries).

Lemma put_attr_app pre rest data skip :
  length data = skip -> put_attr data skip (pre ++ rest, length pre) = ((pre ++ data) ++ drop skip rest, length (pre ++ data)).
Proof.
  intros <-. unfold put_attr, write_at. cbn [fst snd]. by rewrite take_app_length, <- drop_drop, drop_app_length, length_app, app_assoc.
Qed.

Lemma count_batch_run {K} (h : handler K) g s des pos rv count : Forall linux_entry_ok des -> rv = pos + sum_reclen des ->
  0 <= count -> count + Z.of_nat (length des) < 2 ^ 32 ->
  run h (count_batch des pos rv count) g s = Some (count + Z.of_nat (length des), g, s).
Proof.
  intros Hok. revert pos count. induction Hok as [|d des Hd Hdes IH]; intros pos count Hrv Hc Hl; cbn [count_batch sum_reclen foldr length] in *.
  - rewrite (proj2 (Z.ltb_ge _ _)) by lia. unfold run. simpl. rewrite Z.add_0_r. done.
  - fold (sum_reclen des) in Hrv. pose proof (sum_reclen_nonneg des Hdes). assert (24 <= ld_reclen d).
    { destruct Hd as [-> Hn]. unfold linux_reclen. Z.to_euclidean_division_equations. lia. }
    rewrite (proj2 (Z.ltb_lt _ _)) by lia. rewrite u32_id by lia. rewrite IH by lia. do 3 f_equal. lia.
Qed.

Section Layout.
Context `{LoopFuel, IcaseEnabled} (stack : nat -> ascii) (info : Z * list ascii) (Hinfo : info_ok info).

Lemma count_entries_run fuel fd g batches count : Forall batch_ok batches -> (length batches < fuel)%nat ->
  0 <= count -> count + Z.of_nat (length (mjoin batches)) < 2 ^ 32 ->
  run (attr_host info) (count_entries fuel fd count) g batches = Some (count + Z.of_nat (length (mjoin batches)), g, []).
Proof.
  intros Hb. revert fuel count. induction Hb as [|des batches (Hne & Hok & Hsum) _ IH]; intros [|fuel] count Hf Hc Hl;
    simpl length in *; try lia; cbn [count_entries]; rewrite run_bind, run_syscall_int_out; cbn [attr_host].
  - rewrite s32_id by (unfold INT_MIN, INT_MAX; lia). rewrite (proj2 (Z.leb_le _ _)) by lia. unfold run. simpl. by rewrite Z.add_0_r.
  - change (mjoin (des :: batches)) with (des ++ mjoin batches) in *. rewrite length_app in *.
    assert (0 < sum_reclen des).
    { destruct Hok as [|d ds [Hd Hn] Hds]; [done|]. simpl. pose proof (sum_reclen_nonneg ds Hds). fold (sum_reclen ds).
      rewrite Hd. unfold linux_reclen. Z.to_euclidean_division_equations. lia. }
    rewrite s32_id by (unfold INT_MIN, INT_MAX; lia). rewrite (proj2 (Z.leb_gt _ _)) by lia.
    rewrite run_bind, count_batch_run by (done || lia). rewrite IH by lia. do 3 f_equal. lia.
Qed.

Lemma entry_count_run t g batches : Forall batch_ok batches -> (length batches < loop_fuel)%nat ->
  Z.of_nat (length (mjoin batches)) < 2 ^ 32 ->
  run (attr_host info) (entry_count t) g batches = Some (Z.of_nat (length (mjoin batches)), g, []).
Proof.
  intros Hb Hf Hl. unfold entry_count. rewrite run_bind.
  assert (run (attr_host info) (match t with
       | OnPath dfd path => syscall_int __NR_openat [AInt dfd; AStr path; AInt (Z.lor LINUX_O_RDONLY LINUX_O_DIRECTORY); AInt 0]
       | OnFd fd => sys_dup fd end) g batches = Some (7, g, batches)) as ->.
  { destruct t; [unfold sys_dup; rewrite run_bind|]; by rewrite run_syscall_int. }
  change (7 <? 0) with false. cbv iota. rewrite run_bind, count_entries_run by (done || lia). rewrite run_bind. unfold close_internal.
  rewrite run_bind, run_syscall_int. done.
Qed.

Lemma finder_info_run t size g batches :
  run (attr_host info) (finder_info t size) g batches = Some ((s32 info.1, info.2), g, batches).
Proof. destruct t; unfold finder_info; rewrite run_syscall_int_out; destruct info as [r d]; done. Qed.

Lemma info_stored : (if s32 info.1 <? 0 then replicate 32 NUL else ztake (s32 info.1) info.2) = info_bytes info ∧ length (info_bytes info) = 32%nat.
Proof.
  unfold info_bytes. destruct Hinfo as [[Hr Hl]|Hneg].
  - rewrite Hr. change (s32 32) with 32. change (32 <? 0) with false. cbv iota. split; [|done]. unfold ztake. rewrite take_ge; [done|]. rewrite Hl. simpl. lia.
  - rewrite s32_id by (unfold INT_MIN, INT_MAX in *; lia). rewrite (proj2 (Z.ltb_lt _ _)) by lia. done.
Qed.
Definition space (a : attrlist) : nat := Z.to_nat (spaceNeeded a).

Lemma attr_bytes_length entries a : has (fileattr a) ATTR_FILE_RSRCLENGTH = false -> space a = (4 + length (attr_bytes info entries a))%nat.
Proof.
  intros Hf. unfold space, spaceNeeded, attr_bytes, wants, when. rewrite Hf, !length_app. destruct info_stored as [_ Hl].
  repeat case_match; rewrite ?Hl; simpl; lia.
Qed.

Lemma attr_host_attributes t a g batches : has (fileattr a) ATTR_FILE_RSRCLENGTH = false -> Forall batch_ok batches ->
  (length batches < loop_fuel)%nat -> Z.of_nat (length (mjoin batches)) < 2 ^ 32 ->
  run (attr_host info) (get_attributes stack t a) g batches =
  Some ((stack <$> seq 0 4) ++ attr_bytes info (Z.of_nat (length (mjoin batches))) a, g,
        if has (dirattr a) ATTR_DIR_ENTRYCOUNT then [] else batches).
Proof.
  intros Hf Hb Hn Hl. unfold get_attributes. fold (space a). rewrite (attr_bytes_length (Z.of_nat (length (mjoin batches))) a Hf).
  rewrite Hf, seq_app, fmap_app. unfold attr_bytes, when. destruct info_stored as [Hs Hi].
  set (pre := stack <$> seq 0 4). set (rest := stack <$> _). assert (length pre = 4%nat) as Hp by done.
  assert (length rest = length (attr_bytes info (Z.of_nat (length (mjoin batches))) a)) as Hr by (unfold rest; by rewrite length_fmap, length_seq).
  clearbody pre rest. unfold attr_bytes, when in Hr. rewrite !length_app in Hr. replace (pre ++ rest, 4%nat) with (pre ++ rest, length pre) by (by rewrite Hp). cbv zeta.
  destruct (has (commonattr a) ATTR_CMN_FNDRINFO), (has (commonattr a) ATTR_CMN_OBJTAG), (has (dirattr a) ATTR_DIR_ENTRYCOUNT);
    rewrite ?Hi in Hr; simpl length in Hr;
    repeat first [rewrite run_bind|rewrite finder_info_run|rewrite entry_count_run by done|rewrite run_ret];
    rewrite ?Hs, ?put_attr_app by done; cbn [fst app]; rewrite <- ?app_assoc, ?drop_drop, ?(drop_ge rest), ?app_nil_r by lia; try done.
  by rewrite (nil_length_inv rest Hr), app_nil_r.
Qed.
End Layout.

Lemma write_at_prefix (mem data : list ascii) : write_at mem 0 data = data ++ drop (length data) mem.
Proof. done. Qed.


(** A directory of three entries, in two batches, without Finder
    information. *)
Module Folder.
Definition entry (name : string) : linux_dirent64 := LinuxDirent64 1 0 24 8 (s2c name).
Definition batches : list (list linux_dirent64) := [[entry "."; entry ".."]; [entry "a"]].
Definition all : attrlist := Attrlist 5 (Z.lor ATTR_CMN_FNDRINFO ATTR_CMN_OBJTAG) 0 ATTR_DIR_ENTRYCOUNT 0 0.
End Folder.


(** *** What it leaves out *)

(** A buffer that is too small is overrun, unless FSOPT_REPORT_FULLSIZE is
    given: the size is raised to the space needed and the whole answer is
    copied. *)
Theorem getattrlist_overruns :
  let F : LoopFuel := 1%nat in
  let a := Attrlist 5 ATTR_CMN_FNDRINFO 0 0 0 0 in
  run (attr_host (- 61, [])) (getattrlist_body (λ _, NUL) (OnFd 4) a (replicate 8 NUL) 8 0) init_gstate [] = None ∧
  run (attr_host (- 61, [])) (getattrlist_body (λ _, NUL) (OnFd 4) a (replicate 8 NUL) 8 FSOPT_REPORT_FULLSIZE) init_gstate [] =
  Some ((0, int_bytes 8 ++ replicate 4 NUL), init_gstate, []).
Proof. by vm_compute. Qed.

(** The length of the resource fork is the length of the Finder information,
    in four bytes of the eight it has: what follows moves four bytes down and
    the last four bytes are left of the stack. *)
Theorem resource_length_misplaced x :
  let F : LoopFuel := 1%nat in
  run (attr_host (32, replicate 32 NUL)) (getattrlist_body (λ _, x) (OnFd 4) (Attrlist 5 ATTR_CMN_OBJTAG 0 0 ATTR_FILE_RSRCLENGTH 0)
         (replicate 16 NUL) 16 0) init_gstate [] =
  Some ((0, int_bytes 16 ++ int_bytes 32 ++ int_bytes VT_HFS ++ replicate 4 x), init_gstate, []).
Proof. by vm_compute. Qed.

(** So does a Finder information of less than 32 bytes. *)
Theorem short_info_leaks x :
  let F : LoopFuel := 1%nat in
  run (attr_host (8, replicate 8 NUL)) (getattrlist_body (λ _, x) (OnFd 4) (Attrlist 5 ATTR_CMN_FNDRINFO 0 0 0 0)
         (replicate 36 NUL) 36 0) init_gstate [] =
  Some ((0, int_bytes 36 ++ replicate 8 NUL ++ replicate 24 x), init_gstate, []).
Proof. by vm_compute. Qed.

(** Setxattr(2) and removexattr(2) work on the host's file of that path. *)
Theorem setxattr_unresolved :
  (∃ g', run recorder (sys_setxattr (s2c "/etc") (s2c "user.x") 0 0 0 0) init_gstate [] = Some (0, g', [(__NR_setxattr, s2c "/etc")])) ∧
  (∃ g', run recorder (sys_removexattr (s2c "/etc") (s2c "user.x") 0) init_gstate [] = Some (0, g', [(__NR_removexattr, s2c "/etc")])).
Proof. split; eexists; by vm_compute. Qed.

(** ** What setattrlist asks for *)

(** Issue the requests in order, up to the first that fails. *)
Fixpoint issue (reqs : list (Z * list arg)) (s : list Z * list (Z * list arg)) : Z * (list Z * list (Z * list arg)) :=
  match reqs with
  | [] => (0, s)
  | req :: reqs =>
    let s' := (tl s.1, s.2 ++ [req]) in
    let r := s32 (hd 0 s.1) in
    if r <? 0 then (errno_linux_to_bsd r, s') else issue reqs s'
  end.

Definition long_bytes (z : Z) : list ascii := int_bytes z ++ int_bytes (z / 2 ^ 32).
Definition timespec_bytes (ts : timespec) : list ascii := long_bytes (tv_sec ts) ++ long_bytes (tv_nsec ts).
Definition timespec_ok (ts : timespec) : Prop := - 2 ^ 63 <= tv_sec ts < 2 ^ 63 ∧ - 2 ^ 63 <= tv_nsec ts < 2 ^ 63.

(** New values for the attributes, and what the caller passes for them. *)
Record new_attrs := NewAttrs { n_mtime : option timespec; n_atime : option timespec; n_perms : option Z }.

Definition attrs_ok (n : new_attrs) : Prop :=
  from_option timespec_ok True (n_mtime n) ∧ from_option timespec_ok True (n_atime n) ∧
  from_option (λ p, INT_MIN <= p <= INT_MAX) True (n_perms n).

Definition some_bit {A} (o : option A) (bit : Z) : Z := match o with Some _ => bit | None => 0 end.

Definition attrs_mask (n : new_attrs) : attrlist := Attrlist ATTR_BIT_MAP_COUNT
  (or_all [some_bit (n_mtime n) ATTR_CMN_MODTIME; some_bit (n_atime n) ATTR_CMN_ACCTIME; some_bit (n_perms n) ATTR_CMN_ACCESSMASK]) 0 0 0 0.

Definition attrs_buffer (n : new_attrs) : list ascii :=
  from_option timespec_bytes [] (n_mtime n) ++ from_option timespec_bytes [] (n_atime n) ++ from_option int_bytes [] (n_perms n).

Definition attrs_requests (fd flag : Z) (n : new_attrs) : list (Z * list arg) :=
  from_option (λ ts, [(__NR_utimensat, [AInt fd; ANull; ATimespec omit; ATimespec ts; AInt flag])]) [] (n_mtime n) ++
  from_option (λ ts, [(__NR_utimensat, [AInt fd; ANull; ATimespec ts; ATimespec omit; AInt flag])]) [] (n_atime n) ++
  from_option (λ p, [(__NR_fchmod, [AInt fd; AInt p])]) [] (n_perms n).

Lemma s64_mod z : s64 (z mod 2 ^ 64) = s64 z.
Proof. unfold s64. by rewrite Zplus_mod_idemp_l. Qed.

Lemma long_value z : bytes_value (long_bytes z) = z mod 2 ^ 64.
Proof.
  unfold long_bytes, int_bytes. simpl bytes_value. rewrite !byte_val_of. unfold u8. Z.to_euclidean_division_equations. lia.
Qed.

Lemma read_at_app (pre data rest : list ascii) off n : off = length pre -> n = length data ->
  read_at (pre ++ data ++ rest) off n = Some (bytes_value data).
Proof.
  intros -> ->. unfold read_at. rewrite (proj2 (Nat.leb_le _ _)) by (rewrite !length_app; lia). by rewrite drop_app_length, take_app_length.
Qed.

Lemma timespec_at_app pre ts rest off : off = length pre -> timespec_ok ts -> timespec_at (pre ++ timespec_bytes ts ++ rest) off = Some ts.
Proof.
  intros -> [Hs Hn]. destruct ts as [sec nsec]. unfold timespec_at, timespec_bytes. cbn [tv_sec tv_nsec] in *. rewrite <- app_assoc.
  rewrite (read_at_app pre (long_bytes sec) _ (length pre)) by done. rewrite (app_assoc pre), read_at_app by (try rewrite length_app; done).
  cbn [mbind option_bind]. by rewrite !long_value, !s64_mod, !s64_id.
Qed.

(** One attribute of the buffer. *)
Lemma attr_step_run {A} (o : option A) (req : A -> Z * list arg) a bit skip act (k : nat -> M Z) off reqs g s :
  has (commonattr a) bit = bool_decide (is_Some o) ->
  (∀ x, o = Some x -> act off = syscall_int (req x).1 (req x).2) ->
  (∀ s, run scripted (k (off + if o is Some _ then skip else 0)%nat) g s = Some ((issue reqs s).1, g, (issue reqs s).2)) ->
  run scripted (attr_step a bit skip act off k) g s =
  let r := issue (from_option (λ x, [req x]) [] o ++ reqs) s in Some (r.1, g, r.2).
Proof.
  intros Hbit Hact Hk. unfold attr_step. rewrite Hbit. destruct o as [x|]; simpl.
  - rewrite (Hact x eq_refl), run_bind, run_syscall_int. cbn [scripted]. destruct (req x) as [nr args]; simpl.
    destruct (s32 (hd 0 s.1) <? 0); [done|apply Hk].
  - rewrite Nat.add_0_r in Hk. apply Hk.
Qed.

(** Fsetattrlist(2), for the attributes it supports: it reads the values
    one after the other from the caller's buffer, each at the place where the
    attributes before it end, and asks Linux for exactly the changes they
    stand for, modification time first, then access time (leaving the other
    of the two times as it is), then mode; the first request that fails ends
    the call with its error as Darwin numbers it, and no later request is
    made. *)
Theorem setattrlist_requests fd n rest size options g ans :
  attrs_ok n ->
  let flag := if has options FSOPT_NOFOLLOW then LINUX_AT_SYMLINK_NOFOLLOW else 0 in
  let r := issue (attrs_requests fd flag n) (ans, []) in
  run scripted (sys_fsetattrlist fd (Some (attrs_mask n)) (attrs_buffer n ++ rest) size options) g (ans, []) = Some (r.1, g, r.2).
Proof.
  intros (Hm & Ha & Hp) flag. unfold sys_fsetattrlist, setattrlist_body. fold flag.
  assert (set_supported (attrs_mask n) = true) as -> by (destruct n as [[] [] []]; done). cbn [negb].
  unfold attr_step at 1. replace (has _ ATTR_CMN_CRTIME) with false by (destruct n as [[] [] []]; done).
  unfold attrs_requests. apply (attr_step_run _ (λ ts, (__NR_utimensat, [AInt fd; ANull; ATimespec omit; ATimespec ts; AInt flag])));
    [destruct n as [[] [] []]; done| |].
  { intros ts E. cbn. unfold attrs_buffer. rewrite E in *. simpl from_option. rewrite <- app_assoc. 
    pose proof (timespec_at_app [] ts) as Hat. cbn [app length] in Hat. by rewrite Hat. }
  intros s. unfold attr_step at 1. replace (has _ ATTR_CMN_CHGTIME) with false by (destruct n as [[] [] []]; done).
  apply (attr_step_run _ (λ ts, (__NR_utimensat, [AInt fd; ANull; ATimespec ts; ATimespec omit; AInt flag])));
    [destruct n as [[] [] []]; done| |].
  { intros ts E. cbn. unfold attrs_buffer. rewrite E in *. simpl from_option. rewrite <- !app_assoc.
    rewrite timespec_at_app; [done| |done]. by destruct (n_mtime n). }
  intros s'. rewrite <- (app_nil_r (from_option _ _ (n_perms n))). apply (attr_step_run _ (λ p, (__NR_fchmod, [AInt fd; AInt p])));
    [destruct n as [[] [] []]; done| |done].
  intros p E. cbn. unfold attrs_buffer. rewrite E in *. simpl from_option. rewrite <- !app_assoc, (app_assoc (from_option _ _ (n_mtime n))).
  rewrite (read_at_app _ (int_bytes p)); [|by destruct n as [[] [] []]|done].
  rewrite int_value. change (syscall_int __NR_fchmod [AInt fd; AInt (s32 (u32 p))] = syscall_int __NR_fchmod [AInt fd; AInt p]).
  by rewrite s32_u32, s32_id.
Qed.

(** Both times and a mode; the second request fails. *)
Lemma setattrlist_requests_witness :
  run scripted (sys_fsetattrlist 5 (Some (attrs_mask (NewAttrs (Some (Timespec 7 (-1))) (Some (Timespec 8 9)) (Some 420))))
      (attrs_buffer (NewAttrs (Some (Timespec 7 (-1))) (Some (Timespec 8 9)) (Some 420))) 36 0) init_gstate ([0; - LINUX_EPERM], []) =
  Some (- EPERM, init_gstate, ([], [
    (__NR_utimensat, [AInt 5; ANull; ATimespec omit; ATimespec (Timespec 7 (-1)); AInt 0]);
    (__NR_utimensat, [AInt 5; ANull; ATimespec (Timespec 8 9); ATimespec omit; AInt 0])])).
Proof.
  apply (setattrlist_requests 5 (NewAttrs (Some (Timespec 7 (-1))) (Some (Timespec 8 9)) (Some 420)) [] 36 0 init_gstate [0; - LINUX_EPERM]).
  split_and!; repeat split; vm_compute; congruence.
Defined.
