(* ===== verification/Sigexc.v ===== *)
(** * Signals that a debugger may see first

    signal/sigexc.c and misc/ptrace.c, for x86-64.  Every signal of a process
    arrives in [sigexc_handler], which tells the kernel module about it, with
    the registers of the interrupted code, and then does what the program
    wants: the messages that [kern_printf] writes to the kernel's log are left
    out. *)
From S2P Require Import Prelude Abi Linux Errno Base Simple Signals Mman Unistd.

(** ** Registers *)

(** [struct _fpstate]: the memory of [_st] and [_xmm] as bytes. *)
Record fpstate := Fpstate {
  fx_cwd : Z; fx_swd : Z; fx_ftw : Z; fx_fop : Z; fx_rip : Z; fx_rdp : Z; fx_mxcsr : Z; fx_mxcr_mask : Z;
  fx_st : list ascii; fx_xmm : list ascii }.

(** The widths in bits that Mach's header gives to some fields of the
    structure. *)
Record float_widths := FloatWidths { w_ftw : Z; w_ip : Z; w_dp : Z }.

Definition wrap (bits z : Z) : Z := z mod 2 ^ bits.

(** The fields of [x86_thread_state64_t] are unsigned; a [short] is extended
    with its sign. *)
Definition mcontext_to_thread_state (r : linux_gregset) : bsd_thread_state :=
  BsdThreadState (u64 (lg_rax r)) (u64 (lg_rbx r)) (u64 (lg_rcx r)) (u64 (lg_rdx r)) (u64 (lg_rdi r)) (u64 (lg_rsi r))
    (u64 (lg_rbp r)) (u64 (lg_rsp r)) (u64 (lg_r8 r)) (u64 (lg_r9 r)) (u64 (lg_r10 r)) (u64 (lg_r11 r)) (u64 (lg_r12 r))
    (u64 (lg_r13 r)) (u64 (lg_r14 r)) (u64 (lg_r15 r)) (u64 (lg_rip r)) (u64 (lg_efl r)) (u64 (lg_cs r)) (u64 (lg_fs r))
    (u64 (lg_gs r)).

Definition thread_state_to_mcontext (s : bsd_thread_state) (r : linux_gregset) : linux_gregset :=
  LinuxGregset (s64 (ss_r8 s)) (s64 (ss_r9 s)) (s64 (ss_r10 s)) (s64 (ss_r11 s)) (s64 (ss_r12 s)) (s64 (ss_r13 s))
    (s64 (ss_r14 s)) (s64 (ss_r15 s)) (s64 (ss_rdi s)) (s64 (ss_rsi s)) (s64 (ss_rbp s)) (s64 (ss_rbx s)) (s64 (ss_rdx s))
    (s64 (ss_rax s)) (s64 (ss_rcx s)) (s64 (ss_rsp s)) (s64 (ss_rip s)) (s64 (ss_rflags s)) (s16 (ss_cs s)) (s16 (ss_gs s))
    (s16 (ss_fs s)) (lg_err r) (lg_trapno r) (lg_oldmask r) (lg_cr2 r).

Section Widths.
Context (w : float_widths).

Definition mcontext_to_float_state (fx : fpstate) : x86_float_state64_t :=
  FloatState (fx_cwd fx) (fx_swd fx) (wrap (w_ftw w) (fx_ftw fx)) (fx_fop fx) (wrap (w_ip w) (fx_rip fx)) 0 (wrap (w_dp w) (fx_rdp fx)) 0
    (fx_mxcsr fx) (fx_mxcr_mask fx) (take 128 (fx_st fx)) (take 256 (fx_xmm fx)).

Definition float_state_to_mcontext (s : x86_float_state64_t) : fpstate :=
  Fpstate (u16 (fpu_fcw s)) (u16 (fpu_fsw s)) (fpu_ftw s) (fpu_fop s) (fpu_ip s) (fpu_dp s) (fpu_mxcsr s) (fpu_mxcsrmask s)
    (fpu_stmm0 s) (fpu_xmm0 s).

(** [struct linux_ucontext] with its link and with what [fpregs] points to. *)
Record context := Context_ { cx_uc : linux_ucontext; cx_link : option linux_ucontext; cx_fp : fpstate }.

Definition set_regs (r : linux_gregset) (c : context) : context :=
  Context_ (LinuxUcontext (luc_stack (cx_uc c)) r (luc_sigmask (cx_uc c))) (cx_link c) (cx_fp c).

Definition state_to_kernel (c : context) : thread_state :=
  (mcontext_to_thread_state (luc_gregs (cx_uc c)), mcontext_to_float_state (cx_fp c)).

Definition state_from_kernel (s : thread_state) (c : context) : context :=
  let c := set_regs (thread_state_to_mcontext s.1 (luc_gregs (cx_uc c))) c in
  Context_ (cx_uc c) (cx_link c) (float_state_to_mcontext s.2).

Definition mach_thread_self : M Z := '(port, _) ← lkm_call (NR_trap "thread_self_trap" []); mret port.

(** ** Handlers *)

(** The addresses of the two handlers and of [sig_restorer], the first real
    time signal, and the program's handlers. *)
Context (handler_addr rt_addr restorer_addr LINUX_SIGRTMIN : Z).
Context (call_handler : Z -> Z -> option bsd_siginfo -> option (bsd_ucontext * option bsd_ucontext) -> M bsd_mcontext).

Definition SIGNAL_SIGEXC_SUSPEND : Z := LINUX_SIGRTMIN.
Definition suspend_bit : Z := Z.shiftl 1 (SIGNAL_SIGEXC_SUSPEND - 1).
Definition handler_flags : Z := or_all [LINUX_SA_RESTORER; LINUX_SA_SIGINFO; LINUX_SA_RESTART; LINUX_SA_ONSTACK].

(** The thread is suspended: the module lets the call return when it is
    resumed. *)
Definition sigrt_handler (c : context) : M context :=
  mach_thread_self;;
  '(_, st) ← lkm_call (NR_thread_suspended (state_to_kernel c));
  mret (state_from_kernel st c).

(** [sig_handlers], [sig_masks] and [sig_flags] at a Linux signal number. *)
Definition sigexc_dispatch (signum : Z) (info : linux_siginfo) (c : context) : M context :=
  let linux_signum := signum_bsd_to_linux signum in
  g ← get_state;
  let handler := zget (g_sig_handlers g) linux_signum in
  if handler =? SIG_IGN then mret c
  else if negb (handler =? SIG_DFL) then
    let set := zget (g_sig_masks g) linux_signum in
    let set := if has (zget (g_sig_flags g) linux_signum) LINUX_SA_NODEFER then set else Z.lor set (Z.shiftl 1 (linux_signum - 1)) in
    LINUX_SYSCALL __NR_rt_sigprocmask [AInt 2; ASigset set; ANull; AInt 8];;
    regs ← handler_linux_to_bsd call_handler linux_signum (Some info) (Some (cx_uc c, cx_link c));
    mret (match regs with Some r => set_regs r c | None => c end)
  else if (signum =? SIGTSTP) || (signum =? SIGSTOP) then LINUX_SYSCALL __NR_kill [AInt 0; AInt LINUX_SIGSTOP];; mret c
  else
    LINUX_SYSCALL __NR_rt_sigaction [AInt linux_signum; ASigaction (LinuxSigaction SIG_DFL handler_flags restorer_addr 0x7fffffff); ANull; AInt 8];;
    LINUX_SYSCALL __NR_kill [AInt 0; AInt linux_signum];;
    mret c.

Definition sigexc_handler (linux_signum : Z) (info : linux_siginfo) (c : context) : M context :=
  if linux_signum =? LINUX_SIGCONT then mret c
  else
    let bsd_signum := signum_linux_to_bsd linux_signum in
    if bsd_signum <=? 0 then mret c
    else
      mach_thread_self;;
      '(_, args) ← lkm_call (NR_sigprocess (bsd_signum, info, state_to_kernel c));
      let '(signum, _, st) := args in
      let c := state_from_kernel st c in
      if signum =? 0 then mret c else sigexc_dispatch signum info c.

(** ** Setup *)

Definition handle_rt_signal (signum : Z) : M unit :=
  LINUX_SYSCALL __NR_rt_sigaction
    [AInt signum; ASigaction (LinuxSigaction rt_addr handler_flags restorer_addr suspend_bit); ANull; AInt 8];; mret tt.

Definition sigexc_setup1 : M unit := handle_rt_signal SIGNAL_SIGEXC_SUSPEND.

Definition sigexc_setup2 : M unit :=
  LINUX_SYSCALL __NR_rt_sigprocmask [AInt 1; ASigset suspend_bit; ANull; AInt 8];; mret tt.

(** [for (int i = 1; i <= 31; i++)] *)
Fixpoint sigexc_loop (n : nat) (i : Z) : M unit :=
  match n with
  | O => mret tt
  | S n =>
    (if (i =? LINUX_SIGSTOP) || (i =? LINUX_SIGKILL) || (i =? LINUX_SIGCHLD) then mret tt
     else
       LINUX_SYSCALL __NR_rt_sigaction
         [AInt i; ASigaction (LinuxSigaction handler_addr handler_flags restorer_addr (Z.lor 0x7fffffff suspend_bit)); ANull; AInt 8];;
       mret tt);;
    sigexc_loop n (i + 1)
  end.

(** The size of the static array [sigexc_altstack]. *)
Definition ALTSTACK_SIZE : Z := 8 * 1024.

(** The flag [am_i_ptraced], which nothing reads, is left out. *)
Definition darling_sigexc_self (altstack : Z) : M unit :=
  __simple_kprintf (s2c "darling_sigexc_self()" ++ [byte_of 10]) [];;
  sigexc_loop 31 1;;
  sys_sigaltstack (Some (BsdStack altstack ALTSTACK_SIZE 0));;
  mret tt.

(** In dyld, [suspend] stands for [task_suspend] on the task itself. *)
Definition sigexc_setup (variant_dyld : bool) (suspend : M unit) (altstack : Z) : M unit :=
  darling_sigexc_self altstack;; sigexc_setup1;; sigexc_setup2;;
  if variant_dyld then
    '(started, _) ← lkm_call (NR_trap "started_suspended" []);
    if negb (started =? 0) then suspend
    else
      '(tracer, _) ← lkm_call (NR_trap "get_tracer" []);
      if negb (tracer =? 0) then sys_kill 0 SIGTRAP 0;; mret tt else mret tt
  else mret tt.

Definition sigexc_thread_setup : M unit :=
  sp ← sys_mmap 0 ALTSTACK_SIZE (Z.lor PROT_READ PROT_WRITE) (Z.lor MAP_ANON MAP_PRIVATE) (-1) 0;
  sys_sigaltstack (Some (BsdStack sp ALTSTACK_SIZE 0));; mret tt.

(** The stack is read back: [None] when that fails, and the variable stays
    uninitialised. *)
Definition sigexc_thread_exit : M unit :=
  '(_, old) ← sys_sigaltstack None;
  old ← defined old;
  sys_munmap (bs_sp old) (bs_flags old);; mret tt.

(** ** ptrace *)

Definition PT_PTRACE_ME : Z := 0.
Definition PT_CONTINUE : Z := 7.
Definition PT_KILL : Z := 8.
Definition PT_ATTACH : Z := 10.
Definition PT_DETACH : Z := 11.
Definition PT_SIGEXC : Z := 12.
Definition PT_THUPDATE : Z := 13.
Definition PT_ATTACHEXC : Z := 14.

Definition set_tracer (target tracer : Z) : M Z :=
  '(ret, _) ← lkm_call (NR_trap "set_tracer" [target; tracer]); mret (bsd_ret ret).

Definition ptrace_sigexc (pid sigexc : Z) : M Z := '(ret, _) ← lkm_call (NR_trap "ptrace_sigexc" [pid; sigexc]); mret ret.

(** [ptrace() req=%s, ret=%d], as a format of its own. *)
Definition ptrace_message (text : option (Z * cstr)) : M unit :=
  text ← defined text; __simple_kprintf text.2 [];; mret tt.

(** [getpid] is libc's.  [None]: the request is not known. *)
Definition ptrace_request (getpid : M Z) (request pid addr data : Z) : option (string * M Z) :=
  if request =? PT_PTRACE_ME then Some ("PT_PTRACE_ME", ppid ← sys_getppid; set_tracer 0 ppid)
  else if request =? PT_KILL then Some ("PT_KILL", sys_kill pid SIGKILL 1)
  else if request =? PT_ATTACHEXC then
    Some ("PT_ATTACHEXC", me ← getpid; set_tracer pid me;; sys_kill pid SIGSTOP 1;; ptrace_sigexc pid 1)
  else if request =? PT_ATTACH then Some ("PT_ATTACH", mret (- ENOSYS))
  else if request =? PT_DETACH then Some ("PT_DETACH", ptrace_sigexc pid 0)
  else if request =? PT_SIGEXC then
    Some ("PT_SIGEXC", __simple_kprintf (s2c "sigexc: self via ptrace" ++ [byte_of 10]) [];; me ← getpid; ptrace_sigexc me 1)
  else if request =? PT_CONTINUE then Some ("PT_CONTINUE", sys_kill pid SIGCONT 1)
  else None.

Definition ptrace_thupdate (tid data : Z) : M Z :=
  '(ret, _) ← lkm_call (NR_trap "ptrace_thupdate" [tid; data]); mret (bsd_ret ret).

(** An unknown request returns what the variable [ret] happens to hold. *)
Definition sys_ptrace (getpid : M Z) (request pid addr data : Z) : M Z :=
  let finish cmd ret :=
    ptrace_message (__simple_sprintf (s2c "ptrace() req=%s, ret=%d" ++ [byte_of 10]) [VStr (Some (s2c cmd)); VNum ret] 128);; mret ret in
  match ptrace_request getpid request pid addr data with
  | Some (cmd, m) => ret ← m; finish cmd ret
  | None =>
    if request =? PT_THUPDATE then
      '(tid, _) ← lkm_call (NR_trap "tid_for_thread" [addr]);
      if tid <? 0 then mret (- ESRCH) else ret ← ptrace_thupdate tid data; finish "PT_THUPDATE" ret
    else ptrace_message (__simple_sprintf (s2c "ptrace() req=%d" ++ [byte_of 10]) [VNum request] 128);; undefined
  end.
End Widths.

(** ** What the debugger sees and sets *)

Definition in64 (z : Z) : Prop := - 2 ^ 63 <= z < 2 ^ 63.
Definition inu64 (z : Z) : Prop := 0 <= z < 2 ^ 64.
(** A [short] extended to 64 bits. *)
Definition segment (z : Z) : Prop := 0 <= z < 2 ^ 15 ∨ 2 ^ 64 - 2 ^ 15 <= z < 2 ^ 64.

Definition regs_ok (r : linux_gregset) : Prop :=
  Forall in64 [lg_r8 r; lg_r9 r; lg_r10 r; lg_r11 r; lg_r12 r; lg_r13 r; lg_r14 r; lg_r15 r; lg_rdi r; lg_rsi r; lg_rbp r; lg_rbx r;
    lg_rdx r; lg_rax r; lg_rcx r; lg_rsp r; lg_rip r; lg_efl r] ∧ shorts_ok r.

Definition thread_ok (s : bsd_thread_state) : Prop :=
  Forall inu64 [ss_rax s; ss_rbx s; ss_rcx s; ss_rdx s; ss_rdi s; ss_rsi s; ss_rbp s; ss_rsp s; ss_r8 s; ss_r9 s; ss_r10 s; ss_r11 s;
    ss_r12 s; ss_r13 s; ss_r14 s; ss_r15 s; ss_rip s; ss_rflags s] ∧ segment (ss_cs s) ∧ segment (ss_fs s) ∧ segment (ss_gs s).

Definition float_ok (w : float_widths) (s : x86_float_state64_t) : Prop :=
  0 <= fpu_fcw s < 2 ^ 16 ∧ 0 <= fpu_fsw s < 2 ^ 16 ∧ 0 <= fpu_ftw s < 2 ^ w_ftw w ∧ 0 <= fpu_ip s < 2 ^ w_ip w ∧
  0 <= fpu_dp s < 2 ^ w_dp w ∧ fpu_cs s = 0 ∧ fpu_ds s = 0 ∧ length (fpu_stmm0 s) = 128%nat ∧ length (fpu_xmm0 s) = 256%nat.

(** What the registers do not include. *)
Definition same_rest (c c' : context) : Prop :=
  luc_stack (cx_uc c') = luc_stack (cx_uc c) ∧ luc_sigmask (cx_uc c') = luc_sigmask (cx_uc c) ∧ cx_link c' = cx_link c ∧
  (lg_err (luc_gregs (cx_uc c')), lg_trapno (luc_gregs (cx_uc c')), lg_oldmask (luc_gregs (cx_uc c')), lg_cr2 (luc_gregs (cx_uc c'))) =
  (lg_err (luc_gregs (cx_uc c)), lg_trapno (luc_gregs (cx_uc c)), lg_oldmask (luc_gregs (cx_uc c)), lg_cr2 (luc_gregs (cx_uc c))).

Lemma u64_s64 z : inu64 z -> u64 (s64 z) = z.
Proof. unfold inu64, u64, s64. intros Hz. rewrite Zminus_mod_idemp_l, Z.add_simpl_r. by apply Z.mod_small. Qed.

Lemma s64_u64 z : in64 z -> s64 (u64 z) = z.
Proof. unfold in64, u64. intros Hz. unfold s64. rewrite Zplus_mod_idemp_l, Z.mod_small; lia. Qed.

Lemma segment_back z : segment z -> u64 (s16 z) = z.
Proof.
  unfold segment, u64, s16. intros [Hz|Hz].
  - rewrite (Z.mod_small (z + _)) by lia. rewrite Z.mod_small; lia.
  - replace (z + 2 ^ 15) with (z + 2 ^ 15 - 2 ^ 64 + 2 ^ 48 * 2 ^ 16) by lia. rewrite Z_mod_plus_full, (Z.mod_small (_ - 2 ^ 64)) by lia.
    replace (z + 2 ^ 15 - 2 ^ 64 - 2 ^ 15) with (z + (-1) * 2 ^ 64) by lia. rewrite Z_mod_plus_full, Z.mod_small; lia.
Qed.

Lemma s16_u64 z : -32768 <= z < 32768 -> s16 (u64 z) = z.
Proof.
  intros Hz. unfold s16, u64. rewrite <- (Z.mod_mod_divide (z mod 2 ^ 64 + 2 ^ 15) (2 ^ 64) (2 ^ 16)) by (by exists (2 ^ 48)).
  rewrite Zplus_mod_idemp_l, (Z.mod_mod_divide _ (2 ^ 64)) by (by exists (2 ^ 48)). rewrite Z.mod_small; lia.
Qed.

Lemma thread_state_back s r : thread_ok s -> mcontext_to_thread_state (thread_state_to_mcontext s r) = s.
Proof.
  intros [Hs (Hc & Hf & Hg)]. rewrite !Forall_cons in Hs. destruct s, r; unfold mcontext_to_thread_state, thread_state_to_mcontext; cbn in *.
  rewrite !u64_s64, !segment_back by tauto. done.
Qed.

Lemma mcontext_back r : regs_ok r -> thread_state_to_mcontext (mcontext_to_thread_state r) r = r.
Proof.
  intros [Hs (Hc & Hf & Hg)]. rewrite !Forall_cons in Hs. destruct r; unfold mcontext_to_thread_state, thread_state_to_mcontext; cbn in *.
  rewrite !s64_u64, !s16_u64 by tauto. done.
Qed.

Lemma float_state_back w s : float_ok w s -> mcontext_to_float_state w (float_state_to_mcontext s) = s.
Proof.
  intros (Hc & Hs & Ht & Hi & Hd & Hcs & Hds & Lst & Lxmm). destruct s; unfold mcontext_to_float_state, float_state_to_mcontext, wrap; cbn in *.
  rewrite !u16_id, !Z.mod_small, !take_ge by (lia || done). by subst.
Qed.

Lemma state_back w st c : thread_ok st.1 -> float_ok w st.2 -> state_to_kernel w (state_from_kernel st c) = st.
Proof. intros Ht Hf. unfold state_to_kernel, state_from_kernel. cbn. rewrite thread_state_back, float_state_back by done. by destruct st. Qed.

Lemma s16_range z : -32768 <= s16 z < 32768.
Proof. unfold s16. pose proof (Z.mod_pos_bound (z + 2 ^ 15) (2 ^ 16)). lia. Qed.

Lemma from_kernel_shorts st c : shorts_ok (luc_gregs (cx_uc (state_from_kernel st c))).
Proof. unfold shorts_ok. cbn. split_and!; apply s16_range. Qed.

Lemma set_regs_same c : set_regs (luc_gregs (cx_uc c)) c = c.
Proof. by destruct c as [[] ? ?]. Qed.

(** A host to which no signal is reported; all its answers are free. *)
Definition unreported : protocol := Protocol
  (λ X e, match e with Lkm c => match c with NR_sigprocess _ => False | _ => True end | _ => True end) (λ _ _ _, True) False.

(** The program asks for its thread, then tells the kernel module about the
    signal as [report] says; the module answers [answer], and from there on
    the program makes no other report and its results satisfy [Q]. *)
Definition reports_once {A} (report answer : sigprocess_args) (m : M A) (g : gstate) (Q : A -> Prop) : Prop :=
  ∃ k, m g = Vis (Lkm (NR_trap "thread_self_trap" [])) k ∧
  ∀ port, ∃ k', k port = Vis (Lkm (NR_sigprocess report)) k' ∧
  ∀ rv, wp_prog unreported (k' (rv, answer)) (λ '(a, _), Q a).

Section Debugger.
Context (w : float_widths) (restorer : Z).
Context (call_handler : Z -> Z -> option bsd_siginfo -> option (bsd_ucontext * option bsd_ucontext) -> M bsd_mcontext).
(** The program's handlers leave their context alone. *)
Hypothesis Hcall : ∀ h s i c g0, wp unreported (call_handler h s i (Some c)) g0 (λ bm _, bm = bu_mcontext c.1).

Lemma forwarded_same n info lc link g :
  shorts_ok (luc_gregs lc) ->
  wp unreported (handler_linux_to_bsd call_handler n info (Some (lc, link))) g (λ r _, r = Some (luc_gregs lc)).
Proof.
  intros Hs. unfold handler_linux_to_bsd. wp_step. wp_step. wp_step.
  apply (wp_mono _ _ _ (λ _ _, True)); [by destruct (has _ _); wp_step|]. intros [] g' _. wp_step.
  eapply wp_mono; [apply Hcall|]. intros bm g2 ->. wp_step. simpl. f_equal. by apply mcontext_round_trip.
Qed.

Lemma dispatch_same signum info c g : shorts_ok (luc_gregs (cx_uc c)) ->
  wp unreported (sigexc_dispatch restorer call_handler signum info c) g (λ c' _, c' = c).
Proof.
  intros Hs. unfold sigexc_dispatch. wp_step. wp_step. destruct (_ =? SIG_IGN); [by wp_step|]. destruct (negb _).
  - wp_step. wp_step; [done|]. intros _ _. wp_step. eapply wp_mono; [by apply forwarded_same|]. intros r g' ->. wp_step. apply set_regs_same.
  - destruct (_ || _); [wp_step; wp_step; [done|]; intros _ _; by wp_step|].
    wp_step. wp_step; [done|]. intros _ _. wp_step. wp_step; [done|]. intros _ _. by wp_step.
Qed.
End Debugger.

(** C16: a signal that reaches the hook, other than SIGCONT and the signals
    without a Darwin number, is told to the kernel module exactly once, under
    its Darwin number and with the registers of the interrupted code.  When
    the answer holds values that fit the registers, the interrupted code
    resumes with exactly these, integer and floating point: reading them back
    gives what the debugger set, nothing else of the context changes, and
    when the debugger changed nothing every integer register is as it was.
    This holds whether the signal is then dropped, ignored, stops the process,
    takes its default effect, or goes to a handler of the program, provided
    the handler leaves its context alone. *)
Theorem sigexc_resumes w restorer call_handler n info c g signum info' st :
  n ≠ LINUX_SIGCONT -> signum_linux_to_bsd n ≠ 0 -> thread_ok st.1 -> float_ok w st.2 ->
  (∀ h s i c g0, wp unreported (call_handler h s i (Some c)) g0 (λ bm _, bm = bu_mcontext c.1)) ->
  reports_once (signum_linux_to_bsd n, info, state_to_kernel w c) (signum, info', st)
    (sigexc_handler w restorer call_handler n info c) g
    (λ c', state_to_kernel w c' = st ∧ same_rest c c' ∧
       (st = state_to_kernel w c -> regs_ok (luc_gregs (cx_uc c)) -> luc_gregs (cx_uc c') = luc_gregs (cx_uc c))).
Proof.
  intros Hcont Hne Ht Hf Hcall. unfold reports_once, sigexc_handler. pose proof (signum_l2b_range n).
  rewrite (proj2 (Z.eqb_neq _ _)) by done. rewrite (proj2 (Z.leb_gt _ _)) by lia.
  eexists. split; [reflexivity|]. intros [port ports]. eexists. split; [reflexivity|]. intros rv. cbn -[state_to_kernel sigexc_dispatch state_from_kernel].
  assert (let c' := state_from_kernel st c in state_to_kernel w c' = st ∧ same_rest c c' ∧
       (st = state_to_kernel w c -> regs_ok (luc_gregs (cx_uc c)) -> luc_gregs (cx_uc c') = luc_gregs (cx_uc c))) as Hres.
  { cbv zeta. split; [by apply state_back|]. split; [done|]. intros Heq Hr. cbn. rewrite Heq. cbn. by apply mcontext_back. }
  destruct (signum =? 0); [exact Hres|].
  eapply (wp_mono unreported (sigexc_dispatch restorer call_handler signum info (state_from_kernel st c)) g);
    [apply dispatch_same; [exact Hcall|apply from_kernel_shorts]|].
  by intros c' g' ->.
Qed.

(** A thread stopped at a breakpoint; the debugger drops the signal and moves
    the instruction pointer. *)
Module Breakpoint.
Definition widths : float_widths := FloatWidths 8 32 32.
Definition regs : linux_gregset := LinuxGregset 8 9 10 11 12 13 14 15 16 17 18 19 20 21 22 0x7ffe00001000 0x401001 0x246 0x33 0 0 0 3 0 0.
Definition fp : fpstate := Fpstate 0x37f 0 0 0 0 0 0x1f80 0xffff (replicate 128 NUL) (replicate 256 NUL).
Definition stopped : context := Context_ (LinuxUcontext (LinuxStack 0 0 0) regs 0) None fp.
Definition info : linux_siginfo := LinuxSiginfo LINUX_SIGTRAP 0 128 0 0.
Definition state : thread_state := state_to_kernel widths stopped.
Definition moved : thread_state :=
  state_to_kernel widths (set_regs (LinuxGregset 8 9 10 11 12 13 14 15 16 17 18 19 20 21 22 0x7ffe00001000 0x401000 0x246 0x33 0 0 0 3 0 0) stopped).
Definition leave (h s : Z) (i : option bsd_siginfo) (c : option (bsd_ucontext * option bsd_ucontext)) : M bsd_mcontext :=
  mret (match c with Some c => bu_mcontext c.1 | None => zero_mcontext end).
End Breakpoint.

Lemma sigexc_resumes_witness :
  reports_once (SIGTRAP, Breakpoint.info, Breakpoint.state) (0, Breakpoint.info, Breakpoint.moved)
    (sigexc_handler Breakpoint.widths 0 Breakpoint.leave LINUX_SIGTRAP Breakpoint.info Breakpoint.stopped) init_gstate
    (λ c', state_to_kernel Breakpoint.widths c' = Breakpoint.moved ∧ same_rest Breakpoint.stopped c' ∧
       (Breakpoint.moved = Breakpoint.state -> regs_ok Breakpoint.regs -> luc_gregs (cx_uc c') = Breakpoint.regs)).
Proof.
  apply (sigexc_resumes Breakpoint.widths 0 Breakpoint.leave LINUX_SIGTRAP Breakpoint.info Breakpoint.stopped init_gstate 0
    Breakpoint.info Breakpoint.moved); [by vm_compute|by vm_compute| | |done].
  - split; [repeat (constructor; [vm_compute; split; congruence|]); constructor|]. split_and!; left; vm_compute; split; congruence.
  - split_and!; vm_compute; congruence.
Defined.

(** *** The floating point state of an untraced process *)

(** Without a debugger the x87 pointers come back in as many bits as Mach's
    structure has for them: 32 where its header has 32, of the 64 that the
    processor saved; everything else survives. *)
Theorem fp_round_trip w fx :
  0 <= fx_cwd fx < 2 ^ 16 -> 0 <= fx_swd fx < 2 ^ 16 -> length (fx_st fx) = 128%nat -> length (fx_xmm fx) = 256%nat ->
  float_state_to_mcontext (mcontext_to_float_state w fx) =
  Fpstate (fx_cwd fx) (fx_swd fx) (wrap (w_ftw w) (fx_ftw fx)) (fx_fop fx) (wrap (w_ip w) (fx_rip fx)) (wrap (w_dp w) (fx_rdp fx))
    (fx_mxcsr fx) (fx_mxcr_mask fx) (fx_st fx) (fx_xmm fx).
Proof. intros ????. unfold float_state_to_mcontext, mcontext_to_float_state. cbn. by rewrite !u16_id, !take_ge by lia. Qed.

(** *** The mask of a handler *)

(** The mask that is installed before a handler is called is the Darwin mask
    of its disposition, and the flag that would keep the signal itself
    unblocked is looked for where Linux has it: a handler that wants SIGUSR1
    blocked (10 on Linux) and its own signal not gets SIGPWR (30) and its own
    signal blocked. *)
Theorem forwarded_mask_darwin :
  let g := save_action LINUX_SIGUSR2 (BsdSigaction 0x1000 (Z.shiftl 1 (SIGUSR1 - 1)) BSD_SA_NODEFER) init_gstate in
  ∃ g', run scripted (sigexc_dispatch 0 Breakpoint.leave SIGUSR2 Breakpoint.info Breakpoint.stopped) g ([], []) =
    Some (Breakpoint.stopped, g', ([], [(__NR_rt_sigprocmask,
      [AInt 2; ASigset (Z.lor (Z.shiftl 1 (LINUX_SIGPWR - 1)) (Z.shiftl 1 (LINUX_SIGUSR2 - 1))); ANull; AInt 8])])).
Proof. eexists. by vm_compute. Qed.

(** *** Setup *)

Definition spared (i : Z) : bool := (i =? LINUX_SIGSTOP) || (i =? LINUX_SIGKILL) || (i =? LINUX_SIGCHLD).

Lemma sigexc_loop_run handler restorer rtmin n i g log :
  let act := ASigaction (LinuxSigaction handler handler_flags restorer (Z.lor 0x7fffffff (suspend_bit rtmin))) in
  run scripted (sigexc_loop handler restorer rtmin n i) g ([], log) =
  Some (tt, g, ([], log ++ ((λ i, (__NR_rt_sigaction, [AInt i; act; ANull; AInt 8])) <$>
    List.filter (λ i, negb (spared i)) ((λ k, i + Z.of_nat k) <$> seq 0 n)))).
Proof.
  intros act. revert i log. induction n as [|n IH]; intros i log; cbn [sigexc_loop]; [by rewrite app_nil_r|].
  rewrite run_bind. cbn [seq fmap list_fmap List.filter]. rewrite Z.add_0_r. fold (spared i).
  replace ((λ k, i + Z.of_nat k) <$> seq 1 n) with ((λ k, i + 1 + Z.of_nat k) <$> seq 0 n).
  2:{ rewrite <- fmap_S_seq, <- list_fmap_compose. apply list_fmap_ext. intros ???. simpl. lia. }
  destruct (spared i); cbn [negb]; [by rewrite run_ret, IH|]. rewrite run_bind.
  match goal with |- context [run scripted (LINUX_SYSCALL ?nr ?args) g ?s] =>
    change (run scripted (LINUX_SYSCALL nr args) g s) with (Some (0, g, (@nil Z, log ++ [(nr, args)]))) end.
  cbv beta iota. rewrite run_ret, IH. cbn [fmap list_fmap]. by rewrite <- app_assoc.
Qed.

(** Every signal from 1 to 31 gets the handler, except the two that cannot
    be caught and SIGCHLD. *)
Theorem sigexc_self_covers handler restorer rtmin altstack g :
  let act := ASigaction (LinuxSigaction handler handler_flags restorer (Z.lor 0x7fffffff (suspend_bit rtmin))) in
  run scripted (darling_sigexc_self handler restorer rtmin altstack) g ([], []) =
  Some (tt, g, ([], (λ i, (__NR_rt_sigaction, [AInt i; act; ANull; AInt 8])) <$>
    List.filter (λ i, negb (spared i)) (Z.of_nat <$> seq 1 31))).
Proof.
  unfold darling_sigexc_self. rewrite run_bind.
  assert (run scripted (__simple_kprintf (s2c "darling_sigexc_self()" ++ [byte_of 10]) []) g ([], []) = Some (Some tt, g, ([], []))) as -> by done.
  rewrite run_bind, sigexc_loop_run. done.
Qed.

(** A thread that ends asks for the length of its signal stack to be
    unmapped, and gives the flags for it: with no flags set nothing is
    unmapped, and the 8 KiB of every thread stay. *)
Theorem thread_exit_keeps_stack sp size g :
  wp (Protocol (λ X e, match e with Sys nr args => nr = __NR_munmap ∧ args = [AInt sp; AInt 0] | _ => True end)
        (λ X e, match e in linuxE X return X -> Prop with
                | SysOut _ _ o => match o in outk Y return Z * Y -> Prop with OStack => λ r, r = (0, LinuxStack sp 0 size) | _ => λ _, True end
                | _ => λ _, True
                end) False)
    sigexc_thread_exit g (λ _ g', g' = g).
Proof.
  unfold sigexc_thread_exit, sys_sigaltstack. wp_step. wp_step. apply wp_syscall_int_out; [done|]. intros r x Hx. cbn in Hx. simplify_eq.
  change (s32 0 <? 0) with false. split; done.
Qed.

(** *** ptrace *)

(** A module that refuses to make the caller the tracer, and allows the rest. *)
Definition refusing : handler unit := λ X e s,
  (match e in linuxE X return X with
   | Sys _ _ => 0
   | SysOut _ _ o => (0, zero_out o)
   | Lkm c => match c in lkm_nr Y return Z * Y with
              | NR_trap name args => (if decide (name = "set_tracer") then - LINUX_EPERM else 0, args)
              | c => (0, zero_lkm c)
              end
   end, s).

(** PT_ATTACHEXC succeeds although the process could not be made the tracer,
    where PT_PTRACE_ME says so; a request that is not known returns an
    uninitialised variable. *)
Theorem attach_error_lost addr data :
  run refusing (sys_ptrace (mret 5) PT_ATTACHEXC 7 addr data) init_gstate tt = Some (0, init_gstate, tt) ∧
  run refusing (sys_ptrace (mret 5) PT_PTRACE_ME 7 addr data) init_gstate tt = Some (- EPERM, init_gstate, tt) ∧
  run refusing (sys_ptrace (mret 5) 3 7 addr data) init_gstate tt = None.
Proof. by vm_compute. Qed.
