(* ===== verification/Threads.v ===== *)
(** * Creating and ending threads

    libelfloader/native/threads.c, which builds Darwin threads on those of the
    host's C library, and its callers bsdthread_create.c, bsdthread_register.c
    and bsdthread_terminate.c.

    A thread is created with its arguments in a structure on the stack of the
    creator, which waits until the new thread has copied it.  The machine
    interleaves any number of threads that create others, at the granularity
    of the accesses to that structure. *)
From S2P Require Import Prelude Abi Linux Errno Base Conc Signals Mman Sigexc.

(** ** [struct _dthread] *)

Definition DTHREAD_TSD_SLOT_PTHREAD_SELF : Z := 0.
Definition DTHREAD_TSD_SLOT_ERRNO : Z := 1.
Definition DTHREAD_TSD_SLOT_MACH_THREAD_SELF : Z := 3.
Definition DTHREAD_TSD_SLOT_PTHREAD_QOS_CLASS : Z := 4.
Definition DTHREAD_TSD_SLOT_PTR_MUNGE : Z := 7.
Definition DTHREAD_START_TSD_BASE_SET : Z := 0x10000000.
Definition DWQ_FLAG_THREAD_TSD_BASE_SET : Z := 0x00200000.
Definition DTHREAD_CANCEL_ENABLE : Z := 1.
Definition DTHREAD_CANCEL_DEFERRED : Z := 2.
Definition DTHREAD_INHERIT_SCHED : Z := 1.
Definition DARWIN_POLICY_TIMESHARE : Z := 1.
Definition DTHREAD_DEFAULT_PRIORITY : Z := Z.lor (Z.shiftl 1 (4 - 1 + 8)) (Z.land (u8 (-1)) 0xff).
Definition DEFAULT_DTHREAD_GUARD_SIZE : Z := 0x1000.

(** Of the members, those that are assigned; the others are zero.  The
    offsets are those of the declaration on x86-64. *)
Record dthread := Dthread {
  d_sig : Z; d_policy : Z; d_joinable : Z; d_custom_stack : Z; d_lock : Z; d_inherit : Z; d_cancel_state : Z;
  d_stackaddr : Z; d_stackbottom : Z; d_freeaddr : Z; d_freesize : Z; d_guardsize : Z; d_tsd : gmap Z Z }.

Definition offset_err_no : Z := 172.
Definition offset_tsd : Z := 224.
Definition sizeof_dthread : Z := offset_tsd + 8 * (512 + 256).

(** [self] is the address of the structure. *)
Definition dthread_structure_init (self guard_size stack_addr stack_size base_addr total_size : Z) : dthread :=
  Dthread self DARWIN_POLICY_TIMESHARE 1 0 0 DTHREAD_INHERIT_SCHED (Z.lor DTHREAD_CANCEL_ENABLE DTHREAD_CANCEL_DEFERRED)
    stack_addr (stack_addr - stack_size) base_addr total_size guard_size
    (<[DTHREAD_TSD_SLOT_PTHREAD_SELF := self]> (<[DTHREAD_TSD_SLOT_ERRNO := self + offset_err_no]>
     (<[DTHREAD_TSD_SLOT_PTHREAD_QOS_CLASS := DTHREAD_DEFAULT_PRIORITY]> (<[DTHREAD_TSD_SLOT_PTR_MUNGE := 0]> ∅)))).

(** What mmap(2) was asked for, and the structure, its address and the top of
    the stack when it answers with [base_addr].  The guard page is the first
    [guard_size] bytes; that it is made inaccessible is not part of the
    state. *)
Definition total_size (stack_size guard_size : Z) : Z := guard_size + stack_size + sizeof_dthread.

Definition dthread_structure_allocate (stack_size guard_size base_addr : Z) : Z * dthread * Z :=
  let stack_addr := base_addr + stack_size + guard_size in
  (stack_addr, dthread_structure_init stack_addr guard_size stack_addr stack_size base_addr (total_size stack_size guard_size), stack_addr).

(** ** Arguments *)

Record arg_struct := ArgStruct {
  entry_point : Z; real_entry_point : Z; arg1 : Z; arg2 : Z; arg3 : Z; port : Z; pth_obj_size : Z; pth : Z;
  stack_bottom : Z; stack_addr : Z; is_workqueue : bool }.

Definition set_pth (p : Z) (a : arg_struct) : arg_struct :=
  ArgStruct (entry_point a) (real_entry_point a) (arg1 a) (arg2 a) (arg3 a) (port a) (pth_obj_size a) p (stack_bottom a) (stack_addr a)
    (is_workqueue a).

Definition set_flags (a : arg_struct) : arg_struct :=
  let arg2' := if is_workqueue a then Z.lor (arg2 a) DWQ_FLAG_THREAD_TSD_BASE_SET else arg2 a in
  let arg3' := if is_workqueue a then arg3 a else Z.lor (arg3 a) DTHREAD_START_TSD_BASE_SET in
  ArgStruct (entry_point a) (real_entry_point a) (arg1 a) arg2' arg3' (port a) (pth_obj_size a) (pth a) (stack_bottom a) (stack_addr a)
    (is_workqueue a).

Definition set_port (p : Z) (a : arg_struct) : arg_struct :=
  ArgStruct (entry_point a) (real_entry_point a) (arg1 a) (arg2 a) (arg3 a) p (pth_obj_size a) (pth a) (stack_bottom a) (stack_addr a)
    (is_workqueue a).

(** The registers the assembly code jumps with.  [sp] is the stack pointer
    after the two words it pushes. *)
Record registers := Registers { rip : Z; rdi : Z; rsi : Z; rdx : Z; rcx : Z; r8 : Z; r9 : Z; rsp : Z }.

Definition entry_registers (a : arg_struct) : registers :=
  Registers (entry_point a) (pth a) (port a) (if real_entry_point a =? 0 then stack_bottom a else real_entry_point a)
    (arg1 a) (arg2 a) (arg3 a) (Z.land (stack_addr a) (-0x10) - 8 - 8).

(** The parameters of [__darling_thread_create]; the callbacks are those of
    the emulation layer. *)
Record create := Create {
  c_stack_size : Z; c_pth_obj_size : Z; c_entry_point : Z; c_real_entry_point : Z; c_arg1 : Z; c_arg2 : Z; c_arg3 : Z; c_pth : Z }.

(** Up to [pthread_create]: the structure on the stack, and the [_dthread]
    that was initialised, if one was.  [base] is mmap's answer. *)
Definition create_args (p : create) (base : Z) : arg_struct * option (Z * dthread) :=
  let is_workqueue := c_real_entry_point p =? 0 in
  let '(pth, stack_addr, new) :=
    if (c_pth p =? 0) || is_workqueue then
      let '(d, init, top) := dthread_structure_allocate (c_stack_size p) DEFAULT_DTHREAD_GUARD_SIZE base in (d, top, Some (d, init))
    else (c_pth p, c_arg2 p, None) in
  (ArgStruct (c_entry_point p) (c_real_entry_point p) (c_arg1 p) (c_arg2 p) (c_arg3 p) 0 (c_pth_obj_size p) pth
     (u64 (stack_addr - c_stack_size p)) stack_addr is_workqueue, new).

(** ** The machine *)

Inductive pc : Set :=
| Running                                (* code of the program *)
| Creating                               (* before pthread_create *)
| Yielding (created : bool)              (* while (args.pth != NULL); what pthread_create said *)
| Entering (c : nat)                     (* memcpy(&args, in_args, ...); in_args is in the frame of c *)
| Basing (c : nat) (a : arg_struct)      (* thread_set_tsd_base, *flags |= ... *)
| Trapping (c : nat) (a : arg_struct)    (* args.port = ... = thread_self_trap() *)
| Releasing (c : nat) (a : arg_struct)   (* in_args->pth = NULL *)
| Jumping (a : arg_struct)               (* setjmp, the jump *)
| Unmapping (addr size : Z)              (* after longjmp *)
| Finished
| Suspended                              (* the main thread, for ever *)
| Crashed.                               (* memset on memory that mmap did not give *)

(** The local variables of [__darling_thread_create], and what it was called
    with. *)
Record frame := Frame { f_args : arg_struct; f_pth : Z; f_call : create * Z }.

Record state := State {
  threads : list pc;
  frames : gmap nat frame;           (* of __darling_thread_create, by creator *)
  gs_base : gmap nat Z;              (* what thread_set_tsd_base was called with *)
  dthreads : gmap Z dthread;         (* the structures at their addresses *)
  ports : gmap Z Z;                  (* tsd[DTHREAD_TSD_SLOT_MACH_THREAD_SELF], by address of the structure *)
  born : gmap nat (create * Z);      (* the call that created a thread, and mmap's answer in it *)
  entered : gmap nat registers;      (* the registers it jumped with *)
  returned : gmap nat Z;             (* the last result of __darling_thread_create *)
  traps : gmap nat Z;                (* what thread_self_trap answered a thread *)
  unmapped : list (Z * Z);
  dangling : bool }.                 (* a frame was used after its function had returned *)

Definition set_threads l s := State l (frames s) (gs_base s) (dthreads s) (ports s) (born s) (entered s) (returned s) (traps s) (unmapped s) (dangling s).
Definition set_frames f s := State (threads s) f (gs_base s) (dthreads s) (ports s) (born s) (entered s) (returned s) (traps s) (unmapped s) (dangling s).
Definition at_pc t p s := set_threads (<[t := p]> (threads s)) s.
Definition fault s :=
  State (threads s) (frames s) (gs_base s) (dthreads s) (ports s) (born s) (entered s) (returned s) (traps s) (unmapped s) true.

Inductive action : Set :=
| Call (t : nat) (p : create) (base : option Z)
| PthreadCreate (t : nat) (ok : bool)
| Yield (t : nat)
| Enter (t : nat) (trap : Z)
| Terminate (t : nat) (main : bool) (addr size : Z)
| Exit (t : nat).

(** A mapping of that size inside the address space. *)
Definition mmap_ok (size base : Z) : bool := (0 <? base) && (base + size <=? 2 ^ 64).

(** [__darling_thread_create]; [base] is mmap's answer, [None] when it fails,
    which is not checked. *)
Definition call_step (t : nat) (p : create) (base : option Z) (s : state) : option state :=
  match threads s !! t with
  | Some Running =>
    let go base :=
      let '(a, new) := create_args p base in
      Some (State (<[t := Creating]> (threads s)) (<[t := Frame a (pth a) (p, base)]> (frames s)) (gs_base s)
              (match new with Some (d, init) => <[d := init]> (dthreads s) | None => dthreads s end)
              (ports s) (born s) (entered s) (returned s) (traps s) (unmapped s) (dangling s)) in
    if (c_pth p =? 0) || (c_real_entry_point p =? 0) then
      match base with
      | Some base =>
        if (0 <=? c_stack_size p) && mmap_ok (total_size (c_stack_size p) DEFAULT_DTHREAD_GUARD_SIZE) base then go base else None
      | None => Some (at_pc t Crashed s)
      end
    else go 0
  | _ => None
  end.

(** The result of [pthread_create] is not looked at. *)
Definition pthread_create_step (t : nat) (ok : bool) (s : state) : option state :=
  match threads s !! t, frames s !! t with
  | Some Creating, Some f =>
    if ok then
      let u := length (threads s) in
      Some (State (<[t := Yielding true]> (threads s) ++ [Entering t]) (frames s) (gs_base s) (dthreads s) (ports s)
              (<[u := f_call f]> (born s)) (entered s) (returned s) (traps s) (unmapped s) (dangling s))
    else Some (at_pc t (Yielding false) s)
  | _, _ => None
  end.

Definition yield_step (t : nat) (s : state) : option state :=
  match threads s !! t, frames s !! t with
  | Some (Yielding _), Some f =>
    if pth (f_args f) =? 0 then
      Some (State (<[t := Running]> (threads s)) (delete t (frames s)) (gs_base s) (dthreads s) (ports s) (born s) (entered s)
              (<[t := f_pth f]> (returned s)) (traps s) (unmapped s) (dangling s))
    else Some s
  | _, _ => None
  end.

(** [darling_thread_entry]; [trap] is the port the trap answers with. *)
Definition enter_step (t : nat) (trap : Z) (s : state) : option state :=
  match threads s !! t with
  | Some (Entering c) =>
    match frames s !! c with Some f => Some (at_pc t (Basing c (f_args f)) s) | None => Some (fault s) end
  | Some (Basing c a) =>
    (* the callbacks are in a frame below that of the creator *)
    match frames s !! c with
    | Some _ => Some (State (<[t := Trapping c (set_flags a)]> (threads s)) (frames s) (<[t := pth a + offset_tsd]> (gs_base s)) (dthreads s)
                        (ports s) (born s) (entered s) (returned s) (traps s) (unmapped s) (dangling s))
    | None => Some (fault s)
    end
  | Some (Trapping c a) =>
    match frames s !! c with
    | Some _ => Some (State (<[t := Releasing c (set_port trap a)]> (threads s)) (frames s) (gs_base s) (dthreads s) (<[pth a := trap]> (ports s))
                        (born s) (entered s) (returned s) (<[t := trap]> (traps s)) (unmapped s) (dangling s))
    | None => Some (fault s)
    end
  | Some (Releasing c a) =>
    match frames s !! c with
    | Some f => Some (set_frames (<[c := Frame (set_pth 0 (f_args f)) (f_pth f) (f_call f)]> (frames s)) (at_pc t (Jumping a) s))
    | None => Some (fault s)
    end
  | Some (Jumping a) =>
    Some (State (<[t := Running]> (threads s)) (frames s) (gs_base s) (dthreads s) (ports s) (born s) (<[t := entry_registers a]> (entered s))
            (returned s) (traps s) (unmapped s) (dangling s))
  | _ => None
  end.

(** [__darling_thread_terminate]; [main] is [getpid() == gettid()]. *)
Definition terminate_step (t : nat) (main : bool) (addr size : Z) (s : state) : option state :=
  match threads s !! t with
  | Some Running => Some (at_pc t (if main then Suspended else Unmapping addr size) s)
  | _ => None
  end.

(** [if (setjmp(t_jmpbuf))] *)
Definition exit_step (t : nat) (s : state) : option state :=
  match threads s !! t with
  | Some (Unmapping addr size) =>
    Some (State (<[t := Finished]> (threads s)) (frames s) (gs_base s) (dthreads s) (ports s) (born s) (entered s) (returned s)
            (traps s) (unmapped s ++ [(addr, size)]) (dangling s))
  | _ => None
  end.

Definition step (a : action) (s : state) : option state :=
  match a with
  | Call t p base => call_step t p base s
  | PthreadCreate t ok => pthread_create_step t ok s
  | Yield t => yield_step t s
  | Enter t trap => enter_step t trap s
  | Terminate t main addr size => terminate_step t main addr size s
  | Exit t => exit_step t s
  end.

Definition initial : state := State [Running] ∅ ∅ ∅ ∅ ∅ ∅ ∅ ∅ [] false.

(** ** The handshake: invariant *)

(** The creator whose frame a thread still uses. *)
Definition in_args (p : pc) : option nat :=
  match p with Entering c | Basing c _ | Trapping c _ | Releasing c _ => Some c | _ => None end.

(** The structure a call builds. *)
Definition args_of (b : create * Z) : arg_struct := (create_args b.1 b.2).1.

(** Its own copy, compared with the arguments it was created with and the
    answer of the trap. *)
Definition prepared (p : pc) (b : create * Z) (trap : option Z) : Prop :=
  match p with
  | Basing _ a => a = args_of b
  | Trapping _ a => a = set_flags (args_of b)
  | Releasing _ a | Jumping a => ∃ port, trap = Some port ∧ a = set_port port (set_flags (args_of b))
  | _ => True
  end.

(** It has set its thread-specific data. *)
Definition based (p : pc) : bool := match p with Trapping _ _ | Releasing _ _ | Jumping _ => true | _ => false end.

Definition creator (p : pc) : bool := match p with Creating | Yielding _ => true | _ => false end.

(** It has not jumped yet. *)
Definition starting (p : pc) : bool := match p with Entering _ | Basing _ _ | Trapping _ _ | Releasing _ _ | Jumping _ => true | _ => false end.

(** The frame of [c] waits for thread [u]. *)
Definition waits_for (s : state) (c u : nat) (p : pc) : Prop :=
  threads s !! c = Some (Yielding true) ∧
  ∃ f, frames s !! c = Some f ∧ pth (f_args f) ≠ 0 ∧ f_args f = args_of (f_call f) ∧ born s !! u = Some (f_call f).

Record inv (s : state) : Prop := Inv {
  i_dangling : dangling s = false;
  i_frame t p : threads s !! t = Some p -> creator p = true -> ∃ f, frames s !! t = Some f ∧ (pth (f_args f) = 0 ∨ pth (f_args f) = f_pth f) ∧
    f_pth f = pth (args_of (f_call f));
  i_creating t f : threads s !! t = Some Creating -> frames s !! t = Some f -> pth (f_args f) ≠ 0 ∧ f_args f = args_of (f_call f);
  i_start u p c : threads s !! u = Some p -> in_args p = Some c -> waits_for s c u p;
  i_unique u u' p p' c : threads s !! u = Some p -> threads s !! u' = Some p' -> in_args p = Some c -> in_args p' = Some c -> u = u';
  i_waits c f : threads s !! c = Some (Yielding true) -> frames s !! c = Some f -> pth (f_args f) ≠ 0 ->
    ∃ u p, threads s !! u = Some p ∧ in_args p = Some c;
  i_prepared u p b : threads s !! u = Some p -> born s !! u = Some b -> prepared p b (traps s !! u);
  i_based u p : threads s !! u = Some p -> based p = true -> ∃ b, born s !! u = Some b ∧ gs_base s !! u = Some (pth (args_of b) + offset_tsd);
  i_entered u r : entered s !! u = Some r -> ∃ b port,
    born s !! u = Some b ∧ gs_base s !! u = Some (pth (args_of b) + offset_tsd) ∧ traps s !! u = Some port ∧
    r = entry_registers (set_port port (set_flags (args_of b)));
  i_fresh u p : threads s !! u = Some p -> starting p = true -> entered s !! u = None;
  i_born u b : born s !! u = Some b -> (u < length (threads s))%nat }.

(** Positions that the invariant says nothing about. *)
Definition plain (p : pc) : bool := match p with Running | Unmapping _ _ | Finished | Suspended | Crashed => true | _ => false end.

Lemma plain_none p : plain p = true -> in_args p = None ∧ creator p = false ∧ based p = false ∧ starting p = false ∧ ∀ b t, prepared p b t.
Proof. by destruct p. Qed.

Lemma moved_none (t : nat) p q (l : list pc) u c : l !! t = Some p -> in_args p = None -> l !! u = Some q -> in_args q = Some c -> t ≠ u.
Proof. intros ???? ->. congruence. Qed.

Lemma plain_inv t p q s : inv s -> threads s !! t = Some p -> plain p = true -> plain q = true -> inv (at_pc t q s).
Proof.
  intros I Et Hp Hq. apply plain_none in Hp as (Hp1 & Hp2 & Hp3 & Hp5 & Hp4). apply plain_none in Hq as (Hq1 & Hq2 & Hq3 & Hq5 & Hq4).
  destruct I. split; simpl; try done.
  - intros u r Hu Hr. thread_cases; try congruence; eauto.
  - intros u f Hu Hf. thread_cases. eauto.
  - intros u r c Hu Hr. thread_cases; try congruence. destruct (i_start0 u r c) as [Hc Hf]; [done..|].
    split; [|done]. simpl. rewrite thread_other; [done|]. intros ->. rewrite Et in Hc. by simplify_eq.
  - intros u u' r r' c Hu Hu' ??. thread_cases; try congruence. eauto.
  - intros c f Hc Hf Hne. thread_cases. destruct (i_waits0 c f) as (u & r & Hu & Hr); [done..|].
    exists u, r. rewrite thread_other; [done|]. by eapply moved_none.
  - intros u r b Hu Hb. thread_cases; [done|]. eauto.
  - intros u r Hu Hr. thread_cases; try congruence; eauto.
  - intros u r Hu Hr. thread_cases; try congruence; eauto.
  - intros u b Hb. rewrite length_insert. eauto.
Qed.

Lemma create_args_pth p base :
  (c_pth p =? 0) || (c_real_entry_point p =? 0) = false ∨ (0 < base ∧ 0 <= c_stack_size p) -> pth (create_args p base).1 ≠ 0.
Proof.
  intros H. unfold create_args, dthread_structure_allocate. destruct (_ || _) eqn:E; cbn; [|lia].
  unfold DEFAULT_DTHREAD_GUARD_SIZE. lia.
Qed.

Lemma call_go_inv t a cb d s : inv s -> threads s !! t = Some Running -> pth a ≠ 0 -> a = args_of cb ->
  inv (State (<[t := Creating]> (threads s)) (<[t := Frame a (pth a) cb]> (frames s)) (gs_base s) d
              (ports s) (born s) (entered s) (returned s) (traps s) (unmapped s) (dangling s)).
Proof.
  intros I Et Hp ->. destruct I. split; simpl; try done.
  - intros u q Hu Hq. thread_cases; [eexists; rewrite lookup_insert_eq; split; [done|]; split; [by right|done]|].
    rewrite lookup_insert_ne by done. eauto.
  - intros u f Hu Hf. thread_cases; [by rewrite lookup_insert_eq in Hf; simplify_eq/=|]. rewrite lookup_insert_ne in Hf by done. eauto.
  - intros u q c Hu Hq. thread_cases. destruct (i_start0 u q c) as [Hc (f & Hf)]; [done..|].
    assert (t ≠ c) by congruence. unfold waits_for. simpl. rewrite thread_other, lookup_insert_ne by done. split; [done|]. by exists f.
  - intros u u' q q' c Hu Hu' ??. thread_cases. eauto.
  - intros c f Hc Hf Hne. thread_cases. rewrite lookup_insert_ne in Hf by done. destruct (i_waits0 c f) as (u & q & Hu & Hq); [done..|].
    exists u, q. rewrite thread_other; [done|]. by eapply moved_none.
  - intros u q b Hu Hb. thread_cases; [done|]. eauto.
  - intros u q Hu Hq. thread_cases. eauto.
  - intros u q Hu Hq. thread_cases. eauto.
  - intros u b Hb. rewrite length_insert. eauto.
Qed.

Lemma call_inv t p base s s' : inv s -> call_step t p base s = Some s' -> inv s'.
Proof.
  intros I Hs. unfold call_step in Hs. destruct (threads s !! t) as [[]|] eqn:Et; try done.
  pose proof (create_args_pth p). destruct (_ || _) eqn:Eor.
  - destruct base as [base|]; [|simplify_eq; by eapply plain_inv].
    unfold mmap_ok in Hs. destruct (_ && _) eqn:Em; [|done]. specialize (H base ltac:(lia)).
    destruct (create_args p base) as [a new] eqn:Ea. simplify_eq. apply call_go_inv; [done..|]. unfold args_of. simpl. by rewrite Ea.
  - specialize (H 0 ltac:(by left)). destruct (create_args p 0) as [a new] eqn:Ea. simplify_eq. apply call_go_inv; [done..|]. unfold args_of. simpl. by rewrite Ea.
Qed.

Lemma pthread_create_inv t ok s s' : inv s -> pthread_create_step t ok s = Some s' -> inv s'.
Proof.
  intros I Hs. unfold pthread_create_step in Hs. destruct (threads s !! t) as [[]|] eqn:Et; try done.
  destruct (frames s !! t) as [f|] eqn:Ef; [|done]. pose proof (i_creating s I t f Et Ef) as [Hne Hargs].
  destruct ok; simplify_eq.
  - assert (t < length (threads s))%nat as Hlt by (by eapply lookup_lt_Some).
    assert (∀ u q, (<[t := Yielding true]> (threads s) ++ [Entering t]) !! u = Some q ->
      (u = length (threads s) ∧ q = Entering t) ∨ (u ≠ length (threads s) ∧ u = t ∧ q = Yielding true) ∨
      (u ≠ length (threads s) ∧ u ≠ t ∧ threads s !! u = Some q)) as Hcases.
    { intros u q [Hu|[Hu Hq]]%lookup_app_Some.
      - assert (u ≠ length (threads s)). { intros ->. apply lookup_lt_Some in Hu. rewrite length_insert in Hu. lia. } thread_cases; auto.
      - rewrite length_insert in *. apply list_lookup_singleton_Some in Hq as [? <-]. left. split; [lia|done]. }
    destruct I. split; simpl; try done.
    + intros u q Hu Hq. destruct (Hcases u q Hu) as [[-> ->]|[(_ & -> & ->)|(_ & _ & H)]]; [done| |by eauto]. eauto.
    + intros u g Hu Hg. destruct (Hcases u _ Hu) as [[-> ?]|[(_ & -> & ?)|(_ & _ & H)]]; [done|done|by eauto].
    + intros u q c Hu Hq. destruct (Hcases u q Hu) as [[-> ->]|[(_ & -> & ->)|(Hl & Hn & H)]]; [|done|].
      * simplify_eq/=. split; simpl; [by rewrite lookup_app_l, thread_at by (rewrite ?length_insert; eauto)|].
        exists f. by rewrite lookup_insert_eq.
      * destruct (i_start0 u q c) as [Hc Hf]; [done..|]. split; simpl.
        -- rewrite lookup_app_l by (rewrite length_insert; by eapply lookup_lt_Some). rewrite thread_other; [done|]. congruence.
        -- by rewrite lookup_insert_ne.
    + intros u u' q q' c Hu Hu' Hq Hq'.
      destruct (Hcases u q Hu) as [[-> ->]|[(_ & -> & ->)|(Hl & Hn & H)]], (Hcases u' q' Hu') as [[-> ->]|[(_ & -> & ->)|(Hl' & Hn' & H')]];
        simplify_eq/=; eauto.
      * destruct (i_start0 u' q' c) as [? _]; [done..|]. congruence.
      * destruct (i_start0 u q c) as [? _]; [done..|]. congruence.
    + intros c g Hc Hg Hn. destruct (Hcases c _ Hc) as [[-> ?]|[(_ & -> & _)|(Hl & Hct & H)]]; [done| |].
      * exists (length (threads s)), (Entering t). split; [|done]. rewrite lookup_app_r by (by rewrite length_insert). by rewrite length_insert, Nat.sub_diag.
      * destruct (i_waits0 c g) as (u & q & Hu & Hq); [done..|]. exists u, q. split; [|done].
        rewrite lookup_app_l by (rewrite length_insert; by eapply lookup_lt_Some). rewrite thread_other; [done|]. by eapply moved_none.
    + intros u q b Hu Hb. destruct (Hcases u q Hu) as [[-> ->]|[(_ & -> & ->)|(Hl & Hn & H)]]; [done|done|].
      rewrite lookup_insert_ne in Hb by done. eauto.
    + intros u q Hu Hq. destruct (Hcases u q Hu) as [[-> ->]|[(_ & -> & ->)|(Hl & Hn & H)]]; [done|done|]. rewrite lookup_insert_ne by done. eauto.
    + intros u r Hr. destruct (i_entered0 u r Hr) as (b & prt & Hb & ?). exists b, prt. rewrite lookup_insert_ne; [done|].
      intros <-. apply i_born0 in Hb. lia.
    + intros u q Hu Hq. destruct (Hcases u q Hu) as [[-> ->]|[(_ & -> & ->)|(Hl & Hn & H)]]; [|done|by eauto].
      destruct (entered s !! length (threads s)) as [r|] eqn:Er; [|done]. destruct (i_entered0 _ r Er) as (b & prt & Hb & _).
      apply i_born0 in Hb. lia.
    + intros u b Hb. rewrite length_app, length_insert. simpl. apply lookup_insert_Some in Hb as [[<- _]|[_ Hb]]; [lia|]. apply i_born0 in Hb. lia.
  - destruct I. split; simpl; try done.
    + intros u q Hu Hq. thread_cases; eauto.
    + intros u g Hu Hg. thread_cases. eauto.
    + intros u q c Hu Hq. thread_cases. destruct (i_start0 u q c) as [Hc Hf]; [done..|]. split; [|done]. simpl. rewrite thread_other; [done|]. congruence.
    + intros u u' q q' c Hu Hu' ??. thread_cases. eauto.
    + intros c g Hc Hg Hn. thread_cases. destruct (i_waits0 c g) as (u & q & Hu & Hq); [done..|]. exists u, q. rewrite thread_other; [done|]. by eapply moved_none.
    + intros u q b Hu Hb. thread_cases; [done|]. eauto.
    + intros u q Hu Hq. thread_cases. eauto.
    + intros u q Hu Hq. thread_cases. eauto.
    + intros u b Hb. rewrite length_insert. eauto.
Qed.

(** The invariant does not depend on the other members of the state. *)
Lemma inv_same s s' : threads s' = threads s -> frames s' = frames s -> gs_base s' = gs_base s -> born s' = born s ->
  entered s' = entered s -> traps s' = traps s -> dangling s' = dangling s -> inv s -> inv s'.
Proof. destruct s, s'. simpl. intros -> -> -> -> -> -> -> []. by split. Qed.

Lemma yield_inv t s s' : inv s -> yield_step t s = Some s' -> inv s'.
Proof.
  intros I Hs. unfold yield_step in Hs. destruct (threads s !! t) as [[]|] eqn:Et; try done. destruct (frames s !! t) as [f|] eqn:Ef; [|done].
  destruct (Z.eqb_spec (pth (f_args f)) 0) as [Hz|]; simplify_eq; [|done]. destruct I. split; simpl; try done.
  - intros u q Hu Hq. thread_cases. rewrite lookup_delete_ne by done. eauto.
  - intros u g Hu Hg. thread_cases. rewrite lookup_delete_ne in Hg by done. eauto.
  - intros u q c Hu Hq. thread_cases. destruct (i_start0 u q c) as [Hc (g & Hg & Hne & Hb)]; [done..|].
    assert (t ≠ c) by (intros <-; congruence). split; simpl; [by rewrite thread_other|]. exists g. by rewrite lookup_delete_ne.
  - intros u u' q q' c Hu Hu' ??. thread_cases. eauto.
  - intros c g Hc Hg Hn. thread_cases. rewrite lookup_delete_ne in Hg by done. destruct (i_waits0 c g) as (u & q & Hu & Hq); [done..|].
    exists u, q. rewrite thread_other; [done|]. by eapply moved_none.
  - intros u q b Hu Hb. thread_cases; [done|]. eauto.
  - intros u q Hu Hq. thread_cases. eauto.
  - intros u q Hu Hq. thread_cases. eauto.
  - intros u b Hb. rewrite length_insert. eauto.
Qed.

(** A new thread goes from one position to the next and still uses the frame. *)
Lemma advance_inv t c p q gs po tr s : inv s -> threads s !! t = Some p -> in_args p = Some c -> in_args q = Some c ->
  (∀ b, born s !! t = Some b -> prepared q b (tr !! t)) ->
  (∀ u, t ≠ u -> gs !! u = gs_base s !! u ∧ tr !! u = traps s !! u) ->
  (based q = true -> ∀ b, born s !! t = Some b -> gs !! t = Some (pth (args_of b) + offset_tsd)) ->
  inv (State (<[t := q]> (threads s)) (frames s) gs (dthreads s) po (born s) (entered s) (returned s) tr (unmapped s) (dangling s)).
Proof.
  intros I Et Hp Hq Hprep Hgs Hb. assert (creator p = false ∧ creator q = false) as [Hcp Hcq] by (by destruct p, q).
  assert (starting p = true ∧ starting q = true) as [Hsp Hsq] by (by destruct p, q). pose proof (i_fresh s I t p Et Hsp) as Hfresh.
  destruct (i_start s I t p c Et Hp) as [Hc (f & Hf & Hne & Hargs & Hborn)]. assert (t ≠ c) by (intros <-; rewrite Et in Hc; simplify_eq).
  destruct I. split; simpl; try done.
  - intros u r Hu Hr. thread_cases; try congruence. eauto.
  - intros u g Hu Hg. thread_cases; eauto.
  - intros u r c' Hu Hr. assert (c ≠ t) by done. thread_cases.
    + split; simpl; [by rewrite thread_other|]. by exists f.
    + destruct (i_start0 u r c') as [Hc' Hf']; [done..|]. split; [|done]. simpl. rewrite thread_other; [done|].
      intros ->. rewrite Et in Hc'. by simplify_eq.
  - intros u u' r r' c' Hu Hu' ??. thread_cases; eauto.
  - intros c' g Hc' Hg Hn. apply thread_moved in Hc' as [(<- & Hx & _)|[Htc Hc']]; [by rewrite <- Hx in Hq|].
    destruct (i_waits0 c' g) as (u & r & Hu & Hr); [done..|]. destruct (decide (t = u)) as [<-|].
    + exists t, q. rewrite thread_at by eauto. split; [done|]. congruence.
    + exists u, r. by rewrite thread_other.
  - intros u r b Hu Hbu. thread_cases; [by eauto|]. rewrite (proj2 (Hgs u ltac:(done))). eauto.
  - intros u r Hu Hr. thread_cases; [|rewrite (proj1 (Hgs u ltac:(done))); eauto]. exists (f_call f). split; [done|]. by apply Hb.
  - intros u r Hr. destruct (decide (t = u)) as [<-|]; [by rewrite Hfresh in Hr|]. destruct (Hgs u) as [-> ->]; [done|]. eauto.
  - intros u r Hu Hr. thread_cases; eauto.
  - intros u b Hbu. rewrite length_insert. eauto.
Qed.

Lemma release_inv t c a f s : inv s -> threads s !! t = Some (Releasing c a) -> frames s !! c = Some f ->
  inv (set_frames (<[c := Frame (set_pth 0 (f_args f)) (f_pth f) (f_call f)]> (frames s)) (at_pc t (Jumping a) s)).
Proof.
  intros I Et Hf. destruct (i_start s I t _ c Et eq_refl) as [Hc (f' & Hf' & Hne & Hargs & Hborn)]. assert (t ≠ c) by congruence. simplify_eq.
  destruct I. split; simpl; try done.
  - intros u q Hu Hq. thread_cases. destruct (decide (c = u)) as [<-|]; [eexists; rewrite lookup_insert_eq; split; [done|]; split; [by left|]; destruct (i_frame0 c _ Hc eq_refl) as (? & ? & ? & ?); by simplify_eq|].
    rewrite lookup_insert_ne by done. eauto.
  - intros u g Hu Hg. thread_cases. rewrite lookup_insert_ne in Hg by congruence. eauto.
  - intros u q c' Hu Hq. thread_cases. assert (c ≠ c'). { intros <-. by assert (t = u) by (by eapply i_unique0). }
    destruct (i_start0 u q c') as [Hc' Hg]; [done..|]. split; simpl; [|by rewrite lookup_insert_ne]. rewrite thread_other; [done|]. congruence.
  - intros u u' q q' c' Hu Hu' ??. thread_cases. eauto.
  - intros c' g Hc' Hg Hn. apply lookup_insert_Some in Hg as [[<- <-]|[Hcc Hg]]; [done|]. apply thread_moved in Hc' as [(<- & ? & _)|[Htc Hc']]; [done|].
    destruct (i_waits0 c' g) as (u & q & Hu & Hq); [done..|]. exists u, q. rewrite thread_other; [done|]. intros <-. rewrite Et in Hu. by simplify_eq/=.
  - intros u q b Hu Hb. thread_cases; [|by eauto]. exact (i_prepared0 _ _ _ Et Hborn).
  - intros u q Hu Hq. thread_cases; [|by eauto]. exact (i_based0 _ _ Et eq_refl).
  - intros u q Hu Hq. thread_cases; [|by eauto]. exact (i_fresh0 _ _ Et eq_refl).
  - intros u b Hb. rewrite length_insert. eauto.
Qed.

Lemma jump_inv t a s : inv s -> threads s !! t = Some (Jumping a) ->
  inv (State (<[t := Running]> (threads s)) (frames s) (gs_base s) (dthreads s) (ports s) (born s) (<[t := entry_registers a]> (entered s))
            (returned s) (traps s) (unmapped s) (dangling s)).
Proof.
  intros I Et. destruct (i_based s I _ _ Et eq_refl) as (b & Hb & Hgs). destruct (i_prepared s I _ _ b Et Hb) as (prt & Htr & ->).
  destruct I. split; simpl; try done.
  - intros u q Hu Hq. thread_cases. eauto.
  - intros u g Hu Hg. thread_cases. eauto.
  - intros u q c Hu Hq. thread_cases. destruct (i_start0 u q c) as [Hc Hf]; [done..|]. split; [|done]. simpl. rewrite thread_other; [done|]. congruence.
  - intros u u' q q' c Hu Hu' ??. thread_cases. eauto.
  - intros c g Hc Hg Hn. thread_cases. destruct (i_waits0 c g) as (u & q & Hu & Hq); [done..|]. exists u, q. rewrite thread_other; [done|]. by eapply moved_none.
  - intros u q b' Hu Hb'. thread_cases; [done|]. eauto.
  - intros u q Hu Hq. thread_cases. eauto.
  - intros u r Hr. apply lookup_insert_Some in Hr as [[<- <-]|[_ Hr]]; [by exists b, prt|]. eauto.
  - intros u q Hu Hq. thread_cases. rewrite lookup_insert_ne by done. eauto.
  - intros u b' Hb'. rewrite length_insert. eauto.
Qed.

Lemma enter_inv t trap s s' : inv s -> enter_step t trap s = Some s' -> inv s'.
Proof.
  intros I Hs. unfold enter_step in Hs. destruct (threads s !! t) as [p|] eqn:Et; [|done].
  destruct (in_args p) as [c|] eqn:Ep.
  - destruct (i_start s I t p c Et Ep) as [Hc (f & Hf & Hne & Hargs & Hb)]. pose proof (i_prepared s I t p _ Et Hb) as Hprep.
    destruct p; simplify_eq/=; rewrite Hf in Hs; simplify_eq.
    + apply (advance_inv t c (Entering c)); [done..| |done|done]. intros b ?. by simplify_eq/=.
    + apply (advance_inv t c (Basing c (args_of (f_call f)))); [done..| | |].
      * intros b ?. by simplify_eq/=.
      * intros u Hu. by rewrite lookup_insert_ne.
      * intros _ b ?. simplify_eq. by rewrite lookup_insert_eq.
    + apply (advance_inv t c (Trapping c (set_flags (args_of (f_call f))))); [done..| | |].
      * intros b ?. simplify_eq/=. exists trap. by rewrite lookup_insert_eq.
      * intros u Hu. by rewrite lookup_insert_ne.
      * intros _ b ?. simplify_eq. destruct (i_based s I _ _ Et eq_refl) as (b' & ? & ->). by simplify_eq.
    + by apply release_inv.
  - destruct p; simplify_eq/=. by apply jump_inv.
Qed.

Lemma step_inv a s s' : inv s -> step a s = Some s' -> inv s'.
Proof.
  intros I. destruct a as [t p base|t ok|t|t trap|t main addr size|t]; simpl; intros Hs.
  - by eapply call_inv.
  - by eapply pthread_create_inv.
  - by eapply yield_inv.
  - by eapply enter_inv.
  - unfold terminate_step in Hs. destruct (threads s !! t) as [[]|] eqn:Et; simplify_eq. eapply plain_inv; [done..|]. by destruct main.
  - unfold exit_step in Hs. destruct (threads s !! t) as [[]|] eqn:Et; simplify_eq.
    eapply (inv_same (at_pc t Finished s)); [done..|]. by eapply plain_inv.
Qed.

Lemma initial_inv : inv initial.
Proof.
  split; simpl; try done.
  - intros [|t] p ?; simplify_eq/=. done.
  - intros [|u] p c ?; simplify_eq/=. done.
  - intros [|u] [|u'] p p' c ??; by simplify_eq/=.
  - intros [|u] p ?; by simplify_eq/=.
Qed.

Abbreviation reachable := (Conc.reachable step (eq initial)).

Lemma reachable_inv s : reachable s -> inv s.
Proof. apply reachable_invariant; [intros ? <-; apply initial_inv|intros a s0 s' ??; by eapply step_inv]. Qed.

(** ** The handshake: theorems *)

(** Steps until the creator is released. *)
Definition remaining (p : pc) : nat :=
  match p with Entering _ => 3 | Basing _ _ => 2 | Trapping _ _ => 1 | _ => 0 end.

Lemma enter_moves u p c s : inv s -> threads s !! u = Some p -> in_args p = Some c -> (0 < remaining p)%nat ->
  ∃ s' q, step (Enter u 0) s = Some s' ∧ inv s' ∧ threads s' !! u = Some q ∧ in_args q = Some c ∧ S (remaining q) = remaining p ∧
    frames s' = frames s.
Proof.
  intros I Eu Hp Hk. destruct (i_start s I u p c Eu Hp) as [_ (f & Hf & _)].
  assert (∃ s' q, step (Enter u 0) s = Some s' ∧ threads s' !! u = Some q ∧ in_args q = Some c ∧ S (remaining q) = remaining p ∧ frames s' = frames s)
    as (s' & q & Hs & Hq); [|exists s', q; split; [done|]; split; [by eapply step_inv|done]].
  simpl. unfold enter_step. rewrite Eu. destruct p; simplify_eq/=; try lia; rewrite Hf; eexists _, _; (split; [done|]); simpl;
    rewrite thread_at by eauto; done.
Qed.

Lemma creation_finishes k s c u p f : remaining p = k -> inv s -> threads s !! u = Some p -> in_args p = Some c -> frames s !! c = Some f ->
  ∃ l s', exec step l s = Some s' ∧ threads s' !! c = Some Running ∧ returned s' !! c = Some (f_pth f).
Proof.
  revert s p. induction k as [|k IH]; intros s p Hk I Eu Hp Hf.
  - destruct p; simplify_eq/=. destruct (i_start s I u _ c Eu eq_refl) as [Hc _]. assert (u ≠ c) by congruence.
    exists [Enter u 0; Yield c]. simpl. unfold enter_step. rewrite Eu, Hf. simpl. unfold yield_step. simpl.
    rewrite thread_other, Hc, lookup_insert_eq by done. simpl. eexists. split; [done|]. simpl. rewrite thread_at by (rewrite thread_other by done; eauto).
    by rewrite lookup_insert_eq.
  - destruct (enter_moves u p c s) as (s1 & q & Hs & I1 & Eq & Hq & Hr & Hfr); [done|done|done|lia|].
    destruct (IH s1 q) as (l & s' & Hl & Hres); [lia|done|done|done|by rewrite Hfr|]. exists (Enter u 0 :: l), s'. split; [|done].
    change (exec step (Enter u 0 :: l) s) with (step (Enter u 0) s ≫= exec step l). by rewrite Hs.
Qed.

(** ** What a thread is to start with

    Of a call of [__darling_thread_create] with parameters [p], in which mmap
    answered [base] (if it was asked): the thread's structure and the top of
    its stack are the caller's, or lie after a guard page and the stack in the
    mapping. *)
Definition gets_memory (p : create) : Prop := c_pth p = 0 ∨ c_real_entry_point p = 0.

Definition thread_top (p : create) (base top : Z) : Prop :=
  gets_memory p ∧ top = base + 4096 + c_stack_size p ∨ ~ gets_memory p ∧ top = c_arg2 p.

Definition thread_self (p : create) (base self : Z) : Prop :=
  gets_memory p ∧ self = base + 4096 + c_stack_size p ∨ ~ gets_memory p ∧ self = c_pth p.

(** The registers of a start routine: of a worker (no routine of its own) the
    bottom of the stack, the event list, the flags with
    WQ_FLAG_THREAD_TSD_BASE_SET and the number of events; of another thread
    its routine, argument, stack and the flags with
    PTHREAD_START_TSD_BASE_SET.  The stack pointer is the highest multiple of
    16 that leaves two words below the top. *)
Record starts_with (p : create) (base port : Z) (r : registers) (gs : Z) : Prop := {
  sw_rip : rip r = c_entry_point p;
  sw_rdi : thread_self p base (rdi r);
  sw_rsi : rsi r = port;
  sw_rcx : rcx r = c_arg1 p;
  sw_thread : c_real_entry_point p ≠ 0 ->
    rdx r = c_real_entry_point p ∧ r8 r = c_arg2 p ∧ r9 r = Z.lor (c_arg3 p) 0x10000000;
  sw_worker : c_real_entry_point p = 0 ->
    rdx r = u64 (base + 4096) ∧ r8 r = Z.lor (c_arg2 p) 0x200000 ∧ r9 r = c_arg3 p;
  sw_rsp : ∃ top, thread_top p base top ∧ (16 | rsp r) ∧ rsp r <= top - 16 < rsp r + 16;
  sw_gs : gs = rdi r + 224 }.

Lemma args_starts_with p base port :
  let a := args_of (p, base) in starts_with p base port (entry_registers (set_port port (set_flags a))) (pth a + offset_tsd).
Proof.
  assert (∀ top, (16 | Z.land top (-0x10) - 8 - 8) ∧ Z.land top (-0x10) - 8 - 8 <= top - 16 < Z.land top (-0x10) - 8 - 8 + 16) as Hsp.
  { intros top. change (-16) with (Z.lnot (Z.ones 4)). rewrite <- Z.ldiff_land, Z.ldiff_ones_r, Z.shiftl_mul_pow2, Z.shiftr_div_pow2 by lia.
    change (2 ^ 4) with 16. pose proof (Z.div_mod top 16 ltac:(lia)). pose proof (Z.mod_pos_bound top 16 ltac:(lia)).
    split; [|lia]. exists (top / 16 - 1). lia. }
  unfold args_of, create_args, dthread_structure_allocate, entry_registers, offset_tsd, DEFAULT_DTHREAD_GUARD_SIZE,
    DTHREAD_START_TSD_BASE_SET, DWQ_FLAG_THREAD_TSD_BASE_SET, set_flags, set_port. cbn [fst snd].
  destruct (Z.eqb_spec (c_pth p) 0), (Z.eqb_spec (c_real_entry_point p) 0); cbn [orb fst snd]; split; cbn;
    unfold thread_self, thread_top, gets_memory;
    repeat match goal with H : c_real_entry_point p = 0 |- _ => rewrite H end;
    rewrite ?(proj2 (Z.eqb_neq (c_real_entry_point p) 0)) by done; try done; try lia.
  all: first [ intros; split; [f_equal; lia|done] | eexists; split; [|apply Hsp]; lia ].
Qed.

(** C14: creating threads, for any interleaving of any number of threads that
    create and end threads.  The arguments on the creator's stack are never
    used after the creating function has returned; a thread that has jumped
    to its start routine did so with the registers that the call that created
    it asks for ([starts_with]: its structure, its port as the trap answered
    it, its routine, arguments and stack in the registers of the calling
    convention, and the flag that says that its thread-specific data is set),
    and that base is the array at offset 224 of its own structure; and a
    creator that is waiting for a thread that the C library did create can
    always return, with the address of the new thread's structure. *)
Theorem threads_created s : reachable s ->
  dangling s = false ∧
  (∀ u r, entered s !! u = Some r -> ∃ p base port gs, born s !! u = Some (p, base) ∧ traps s !! u = Some port ∧
     gs_base s !! u = Some gs ∧ starts_with p base port r gs) ∧
  (∀ c, threads s !! c = Some (Yielding true) -> ∃ f self l s', frames s !! c = Some f ∧ exec step l s = Some s' ∧
     threads s' !! c = Some Running ∧ returned s' !! c = Some self ∧ thread_self (f_call f).1 (f_call f).2 self).
Proof.
  intros Hs. apply reachable_inv in Hs as I. split_and!; [by destruct I| |].
  - intros u r Hr. destruct (i_entered s I u r Hr) as ([p base] & prt & ? & ? & ? & ->). exists p, base, prt, (pth (args_of (p, base)) + offset_tsd).
    split_and!; [done..|]. apply args_starts_with.
  - intros c Hc. destruct (i_frame s I c _ Hc eq_refl) as (f & Hf & Hor & Hpth). exists f, (f_pth f).
    assert (thread_self (f_call f).1 (f_call f).2 (f_pth f)) as Hself.
    { rewrite Hpth. destruct (f_call f) as [p base]. exact (sw_rdi _ _ _ _ _ (args_starts_with p base 0)). }
    destruct (decide (pth (f_args f) = 0)) as [Hz|Hne].
    + eexists [Yield c], _. simpl. unfold yield_step. rewrite Hc, Hf, (proj2 (Z.eqb_eq _ _) Hz). simpl. split; [done|]. split; [done|].
      simpl. rewrite thread_at by eauto. by rewrite lookup_insert_eq.
    + destruct (i_waits s I c f Hc Hf Hne) as (u & p & Hu & Hp).
      destruct (creation_finishes (remaining p) s c u p f) as (l & s' & Hl & Hrun & Hret); [done..|]. by exists l, s'.
Qed.

(** A pthread_create that fails is not noticed: the creator yields for ever,
    whatever the other threads do. *)
Definition spins (t : nat) (s : state) : Prop :=
  inv s ∧ threads s !! t = Some (Yielding false) ∧ ∃ f, frames s !! t = Some f ∧ pth (f_args f) ≠ 0.

Lemma spins_step t a s s' : spins t s -> step a s = Some s' -> spins t s'.
Proof.
  intros (I & Ht & f & Hf & Hne) Hs. split; [by eapply step_inv|]. assert (t < length (threads s))%nat by (by eapply lookup_lt_Some).
  assert (∀ u p, threads s !! u = Some p -> p ≠ Yielding false -> u ≠ t) as Hother by (intros u p ?? ->; congruence).
  enough (threads s' !! t = Some (Yielding false) ∧ frames s' !! t = Some f) by naive_solver.
  destruct a as [u p base|u ok|u|u trap|u main addr size|u]; simpl in Hs;
    [unfold call_step in Hs|unfold pthread_create_step in Hs|unfold yield_step in Hs|unfold enter_step in Hs|unfold terminate_step in Hs|unfold exit_step in Hs].
  all: destruct (threads s !! u) as [q|] eqn:Eu; [|done].
  all: destruct q; try done; try (assert (u ≠ t) by (by eapply Hother)).
  - destruct (_ || _); [destruct base; [destruct (_ && _); [|done]|]|]; try destruct (create_args _ _); simplify_eq; simpl;
      by rewrite thread_other, ?lookup_insert_ne by done.
  - destruct (frames s !! u); [|done]. destruct ok; simplify_eq; simpl; rewrite ?lookup_app_l by (by rewrite length_insert); by rewrite thread_other.
  - destruct (decide (u = t)) as [->|].
    + rewrite Hf, (proj2 (Z.eqb_neq _ _) Hne) in Hs. by simplify_eq.
    + destruct (frames s !! u); [|done]. destruct (_ =? 0); simplify_eq; simpl; [|done]. by rewrite thread_other, lookup_delete_ne.
  - destruct (frames s !! c); simplify_eq; simpl; [|done]. by rewrite thread_other.
  - destruct (frames s !! c); simplify_eq; simpl; [|done]. by rewrite thread_other.
  - destruct (frames s !! c); simplify_eq; simpl; [|done]. by rewrite thread_other.
  - destruct (i_start s I u _ c Eu eq_refl) as [Hc _]. assert (c ≠ t) by congruence.
    destruct (frames s !! c); simplify_eq; simpl; [|done]. by rewrite thread_other, lookup_insert_ne.
  - simplify_eq; simpl. by rewrite thread_other.
  - simplify_eq; simpl. by rewrite thread_other.
  - simplify_eq; simpl. by rewrite thread_other.
Qed.

(** When the C library cannot create the thread, the creator waits for ever:
    in every continuation it is still in its loop. *)
Theorem failed_create_spins t s s1 l s' : reachable s -> step (PthreadCreate t false) s = Some s1 -> exec step l s1 = Some s' ->
  threads s' !! t = Some (Yielding false).
Proof.
  intros Hr Hs Hl. apply reachable_inv in Hr as I. assert (spins t s1) as Hspin.
  { split; [by eapply step_inv|]. simpl in Hs. unfold pthread_create_step in Hs. destruct (threads s !! t) as [[]|] eqn:Et; try done.
    destruct (frames s !! t) as [f|] eqn:Ef; simplify_eq. simpl. rewrite thread_at by eauto. split; [done|]. exists f.
    split; [done|]. by eapply (i_creating s I t f). }
  clear Hs Hr I s. revert s1 Hspin Hl. induction l as [|a l IH]; intros s1 Hspin Hl; simpl in Hl; [simplify_eq; by apply Hspin|].
  destruct (step a s1) as [s2|] eqn:E; [|done]. simpl in Hl. eapply IH; [|exact Hl]. by eapply spins_step.
Qed.

(** The main thread creates a thread with a structure and a stack of its
    own, and the thread enters and ends. *)
Module Demo.
Definition call : create := Create 0x70000 6368 0x1000 0x2000 5 0x70000 0 0x71000.
Definition created : list action := [Call 0 call None; PthreadCreate 0 true].
Definition all : list action := created ++ [Yield 0; Enter 1 0; Enter 1 0; Enter 1 0x707; Enter 1 0; Yield 0; Enter 1 0; Terminate 1 false 0x60000 0x18000; Exit 1].
Definition run (l : list action) : state := default initial (exec step l initial).
End Demo.

Lemma demo_reachable l s : exec step l initial = Some s -> reachable s.
Proof. intros H. eapply exec_reachable; [by apply reach_init|exact H]. Qed.

Lemma threads_created_witness :
  (∃ gs, starts_with Demo.call 0 0x707 (Registers 0x1000 0x71000 0x707 0x2000 5 0x70000 0x10000000 0x6fff0) gs) ∧
  (∃ l s', exec step l (Demo.run Demo.created) = Some s' ∧ threads s' !! 0%nat = Some Running ∧ returned s' !! 0%nat = Some 0x71000) ∧
  dangling (Demo.run Demo.all) = false.
Proof.
  destruct (threads_created (Demo.run Demo.all)) as (Hd & He & _); [apply (demo_reachable Demo.all); vm_compute; reflexivity|].
  destruct (threads_created (Demo.run Demo.created)) as (_ & _ & H); [apply (demo_reachable Demo.created); vm_compute; reflexivity|].
  split_and!; [| |exact Hd].
  - destruct (He 1%nat (Registers 0x1000 0x71000 0x707 0x2000 5 0x70000 0x10000000 0x6fff0)) as (p & base & port & gs & Hb & Hp & Hg & Hw);
      [vm_compute; reflexivity|]. assert (born (Demo.run Demo.all) !! 1%nat = Some (Demo.call, 0)) as Hb' by (vm_compute; reflexivity).
    assert (traps (Demo.run Demo.all) !! 1%nat = Some 0x707) as Hp' by (vm_compute; reflexivity).
    rewrite Hb' in Hb. rewrite Hp' in Hp. injection Hb as <- <-. injection Hp as <-. exists gs. exact Hw.
  - destruct (H 0%nat) as (f & self & l & s' & Hf & Hl & Hrun & Hret & Hself); [vm_compute; reflexivity|]. exists l, s'. split; [exact Hl|]. split; [exact Hrun|].
    assert (frames (Demo.run Demo.created) !! 0%nat = Some (Frame (args_of (Demo.call, 0)) 0x71000 (Demo.call, 0))) as Hf' by (vm_compute; reflexivity).
    rewrite Hf' in Hf. injection Hf as <-. rewrite Hret. destruct Hself as [[[Hz|Hz] _]|[_ Hz]]; [discriminate Hz|discriminate Hz|]. rewrite Hz. reflexivity.
Defined.

Lemma failed_create_spins_witness l s' :
  exec step l (Demo.run [Call 0 Demo.call None; PthreadCreate 0 false]) = Some s' -> threads s' !! 0%nat = Some (Yielding false).
Proof.
  apply (failed_create_spins 0 (Demo.run [Call 0 Demo.call None])); [|vm_compute; reflexivity].
  apply (demo_reachable [Call 0 Demo.call None]). vm_compute. reflexivity.
Qed.

(** ** The memory of a thread *)

(** The mapping is the guard, the stack and the structure, one after the
    other and nothing else: the stack grows down from the structure to the
    guard, and the structure records where they are. *)
Theorem dthread_layout stack_size guard_size base :
  let '(self, d, top) := dthread_structure_allocate stack_size guard_size base in
  d_sig d = self ∧ d_stackaddr d = top ∧ self = top ∧ d_stackbottom d = base + guard_size ∧ d_guardsize d = guard_size ∧
  d_freeaddr d = base ∧ top - d_stackbottom d = stack_size ∧ self + sizeof_dthread = d_freeaddr d + d_freesize d ∧
  d_tsd d !! DTHREAD_TSD_SLOT_PTHREAD_SELF = Some self ∧
  (∃ e, d_tsd d !! DTHREAD_TSD_SLOT_ERRNO = Some e ∧ self <= e ∧ e + 4 <= self + offset_tsd).
Proof.
  unfold dthread_structure_allocate, dthread_structure_init, total_size. cbn. split_and!; try lia; [done|].
  exists (base + stack_size + guard_size + offset_err_no). split; [done|]. unfold offset_err_no, offset_tsd. lia.
Qed.

(** ** The callers *)

Definition STACK_GUARD_SIZE : Z := 4096.
Definition ARCH_SET_GS : Z := 0x1001.
Definition __NR_arch_prctl : Z := 158.

Definition sys_thread_set_tsd_base (ptr : Z) : M unit := LINUX_SYSCALL __NR_arch_prctl [AInt ARCH_SET_GS; AInt ptr];; mret tt.

(** What [sys_bsdthread_register] keeps: [tsd_offset] and
    [dispatch_queue_offset] are of the structure it is given. *)
Record registration := Registration {
  pthread_obj_size : Z; pthread_entry_point : Z; wqueue_entry_point : Z; reg_tsd_offset : Z; reg_dispatch_queue_offset : Z }.

(** [struct set_thread_handles_args] *)
Definition set_thread_handles (r : registration) (self : Z) : M unit :=
  lkm_call (NR_trap "set_thread_handles" [self; u64 (self + reg_tsd_offset r + reg_dispatch_queue_offset r)]);; mret tt.

(** [self] is the first slot of the thread-specific data. *)
Definition sys_bsdthread_register (self thread_start wqthread pthsize tsd_offset dispatch_queue_offset : Z) : M (Z * registration) :=
  let r := Registration pthsize thread_start wqthread tsd_offset dispatch_queue_offset in
  set_thread_handles r self;; mret (0, r).

(** [call] jumps to an address of the program with six arguments. *)
Definition pthread_entry_point_wrapper (call : Z -> list Z -> M unit) (r : registration) (self thread_port funptr funarg stack_addr flags : Z) : M unit :=
  sigexc_thread_setup;; set_thread_handles r self;; call (pthread_entry_point r) [self; thread_port; funptr; funarg; stack_addr; flags].

Definition wqueue_entry_point_wrapper (call : Z -> list Z -> M unit) (r : registration) (self thread_port stackaddr item reuse nevents : Z) : M unit :=
  sigexc_thread_setup;; call (wqueue_entry_point r) [self; thread_port; stackaddr; item; reuse; nevents].

Definition set_uses_threads (g : gstate) : gstate :=
  GState (g_prefix_path g) (g_prefix_path_len g) (g_wd g) true (g_driver_fd g) (g_sa_tramp g) (g_sig_handlers g) (g_sig_flags g) (g_sig_masks g)
    (g_caches g).

(** The stack's address is passed as its size, too. *)
Definition bsdthread_create_args (r : registration) (wrapper thread_start arg stack pthread flags : Z) : create :=
  Create stack (pthread_obj_size r) wrapper thread_start arg stack flags pthread.

(** [create] is [__darling_thread_create]. *)
Definition sys_bsdthread_create (create : create -> M Z) (r : registration) (wrapper thread_start arg stack pthread flags : Z) : M Z :=
  modify_state set_uses_threads;; create (bsdthread_create_args r wrapper thread_start arg stack pthread flags).

(** [terminate] is [__darling_thread_terminate]. *)
Definition sys_bsdthread_terminate (terminate : Z -> Z -> M Z) (stackaddr freesize port join_sem : Z) : M Z :=
  lkm_call (NR_trap "semaphore_signal_trap" [join_sem]);;
  lkm_call (NR_trap "thread_death_announce" []);;
  terminate stackaddr freesize.

Definition thread_stack_allocate (r : registration) (stacksize : Z) : M (option Z) :=
  let allocsize := stacksize + pthread_obj_size r + STACK_GUARD_SIZE in
  let allocsize := Z.land (allocsize + 4095) (Z.lnot 4095) in
  stack ← sys_mmap 0 allocsize (Z.lor PROT_READ PROT_WRITE) (Z.lor MAP_ANON MAP_PRIVATE) (-1) 0;
  sys_mprotect stack STACK_GUARD_SIZE 0;;
  mret (if (s64 stack <? 0) && (-4095 <=? s64 stack) then None else Some (stack + stacksize + STACK_GUARD_SIZE)).

Definition sys_bsdthread_ctl (command a1 a2 a3 : Z) : M Z := mret 0.

(** A thread of pthread_create(3): its start routine, argument, structure,
    stack and flags reach the wrapper in the places of its parameters. *)
Theorem bsdthread_create_enters r wrapper thread_start arg stack pthread flags port :
  thread_start ≠ 0 -> pthread ≠ 0 ->
  let a := (create_args (bsdthread_create_args r wrapper thread_start arg stack pthread flags) 0).1 in
  entry_registers (set_port port (set_flags a)) =
  Registers wrapper pthread port thread_start arg stack (Z.lor flags DTHREAD_START_TSD_BASE_SET) (Z.land stack (-16) - 16).
Proof.
  intros Hs Hp. unfold create_args, bsdthread_create_args. cbn. rewrite !(proj2 (Z.eqb_neq _ _)) by done. cbn.
  unfold entry_registers. cbn. rewrite (proj2 (Z.eqb_neq _ _)) by done. f_equal. lia.
Qed.

(** Where the calling convention has the stack pointer of a function at its
    first instruction eight bytes off a multiple of 16, a thread starts on
    one. *)
Theorem entry_stack_aligned a : (16 | rsp (entry_registers a)).
Proof.
  unfold entry_registers. cbn. replace (Z.land (stack_addr a) (-16) - 8 - 8) with (Z.land (stack_addr a) (-16) + (-1) * 16) by lia.
  apply Z.divide_add_r; [|by exists (-1)]. change (-16) with (Z.lnot (Z.ones 4)). rewrite <- Z.ldiff_land, Z.ldiff_ones_r by lia.
  rewrite Z.shiftl_mul_pow2 by lia. by exists (Z.shiftr (stack_addr a) 4).
Qed.
