(* ===== verification/MachTraps.v ===== *)
(** * Mach traps

    mach/mach_traps.c, mach_time.c and mach_table.c.  Ports, messages,
    semaphores and timers are the kernel module's; memory of the own task is
    mapped with the calls of the host, which know no alignment. *)
From S2P Require Import Prelude Abi Linux Errno Base Simple Mman.

Definition KERN_SUCCESS : Z := 0.
Definition KERN_FAILURE : Z := 5.
Definition VM_PROT_READ : Z := 1.
Definition VM_PROT_WRITE : Z := 2.
Definition VM_PROT_EXECUTE : Z := 4.
Definition VM_FLAGS_ANYWHERE : Z := 1.
Definition VM_MEMORY_REALLOC : Z := 6.
Definition NSEC_PER_SEC : Z := 1000000000.
Definition CLOCK_MONOTONIC : Z := 1.
Definition TIMER_ABSTIME : Z := 1.

(** [lkm_call(NR_..., &args)] with a structure of integers; pointers the
    module stores through are addresses of the caller. *)
Definition trap (name : string) (args : list Z) : M Z := '(ret, _) ← lkm_call (NR_trap name args); mret ret.

(** [UNIMPLEMENTED_TRAP(); return KERN_FAILURE;] with [__FUNCTION__]. *)
Definition UNIMPLEMENTED_TRAP (func : string) : M unit :=
  let msg := s2c "Called unimplemented Mach trap: " in
  sys_write 2 msg (strlen msg);; sys_write 2 (s2c func) (strlen (s2c func));; sys_write 2 [byte_of 10] 1;; mret tt.

Definition unimplemented (func : string) : M Z := UNIMPLEMENTED_TRAP func;; mret KERN_FAILURE.

(** ** Ports and messages *)

Definition mach_reply_port_impl : M Z := trap "mach_reply_port" [].
Definition thread_self_trap_impl : M Z := trap "thread_self_trap" [].
Definition host_self_trap_impl : M Z := trap "host_self_trap" [].
Definition task_self_trap_impl : M Z := trap "task_self_trap" [].

Definition mach_msg_overwrite_trap_impl (msg option send_size rcv_size rcv_name timeout notify rcv_msg rcv_limit : Z) : M Z :=
  trap "mach_msg_overwrite_trap" [msg; option; send_size; rcv_size; rcv_name; timeout; notify; rcv_msg; rcv_limit].

Definition mach_msg_trap_impl (msg option send_size rcv_size rcv_name timeout notify : Z) : M Z :=
  mach_msg_overwrite_trap_impl msg option send_size rcv_size rcv_name timeout notify msg 0.

Definition _kernelrpc_mach_port_allocate_trap_impl (target right name : Z) : M Z := trap "_kernelrpc_mach_port_allocate" [target; right; name].
Definition _kernelrpc_mach_port_destroy_trap_impl (target name : Z) : M Z := trap "_kernelrpc_mach_port_destroy" [target; name].
Definition _kernelrpc_mach_port_deallocate_trap_impl (target name : Z) : M Z := trap "_kernelrpc_mach_port_deallocate" [target; name].
Definition _kernelrpc_mach_port_mod_refs_trap_impl (target name right delta : Z) : M Z :=
  trap "_kernelrpc_mach_port_mod_refs" [target; name; right; delta].
Definition _kernelrpc_mach_port_move_member_trap_impl (target member after : Z) : M Z :=
  trap "_kernelrpc_mach_port_move_member_trap" [target; member; after].
Definition _kernelrpc_mach_port_insert_right_trap_impl (target name poly polyPoly : Z) : M Z :=
  trap "_kernelrpc_mach_port_insert_right_trap" [target; name; poly; polyPoly].
Definition _kernelrpc_mach_port_insert_member_trap_impl (target name pset : Z) : M Z :=
  trap "_kernelrpc_mach_port_insert_member_trap" [target; name; pset].
Definition _kernelrpc_mach_port_extract_member_trap_impl (target name pset : Z) : M Z :=
  trap "_kernelrpc_mach_port_extract_member_trap" [target; name; pset].
Definition _kernelrpc_mach_port_construct_trap_impl (target options context name : Z) : M Z :=
  trap "_kernelrpc_mach_port_construct_trap" [target; options; context; name].
Definition _kernelrpc_mach_port_destruct_trap_impl (target name srdelta guard : Z) : M Z :=
  trap "_kernelrpc_mach_port_destruct_trap" [target; name; srdelta; guard].
Definition _kernelrpc_mach_port_guard_trap_impl (target name guard strict : Z) : M Z :=
  trap "_kernelrpc_mach_port_guard_trap" [target; name; guard; strict].
Definition _kernelrpc_mach_port_unguard_trap_impl (target name guard : Z) : M Z :=
  trap "_kernelrpc_mach_port_unguard_trap" [target; name; guard].
Definition thread_get_special_reply_port_impl : M Z := trap "thread_get_special_reply_port" [].
Definition _kernelrpc_mach_port_request_notification_impl (task name msgid sync notify notifyPoly previous : Z) : M Z :=
  trap "_kernelrpc_mach_port_request_notification_trap" [task; name; msgid; sync; notify; notifyPoly; previous].
Definition _kernelrpc_mach_port_get_attributes_impl (target name flavor port_info_out port_info_outCnt : Z) : M Z :=
  trap "_kernelrpc_mach_port_get_attributes_trap" [target; name; flavor; port_info_out; port_info_outCnt].
Definition _kernelrpc_mach_port_type_impl (task name ptype : Z) : M Z := trap "_kernelrpc_mach_port_type_trap" [task; name; ptype].

Definition task_for_pid_impl (target_tport pid t : Z) : M Z := trap "task_for_pid_trap" [pid; t].

(** The second result is what is stored at [tn], if anything. *)
Definition task_name_for_pid_impl (target_tport pid : Z) : M (Z * option Z) :=
  '(rv, args) ← lkm_call (NR_trap "task_name_for_pid_trap" [target_tport; pid; 0]);
  mret (rv, if rv =? KERN_SUCCESS then args !! 2%nat else None).

Definition pid_for_task_impl (t x : Z) : M Z := trap "pid_for_task_trap" [t; x].
Definition bsdthread_terminate_trap_impl (stackaddr freesize thread sem : Z) : M Z :=
  trap "bsdthread_terminate_trap" [stackaddr; freesize; thread; sem].

(** ** Semaphores and timers *)

Definition semaphore_signal_trap_impl (signal_name : Z) : M Z := trap "semaphore_signal_trap" [signal_name].
Definition semaphore_signal_all_trap_impl (signal_name : Z) : M Z := trap "semaphore_signal_all_trap" [signal_name].
Definition semaphore_signal_thread_trap_impl (signal_name thread_name : Z) : M Z := unimplemented "semaphore_signal_thread_trap_impl".
Definition semaphore_wait_trap_impl (wait_name : Z) : M Z := trap "semaphore_wait_trap" [wait_name].
Definition semaphore_wait_signal_trap_impl (wait_name signal_name : Z) : M Z := trap "semaphore_wait_signal_trap" [signal_name; wait_name].
Definition semaphore_timedwait_trap_impl (wait_name sec nsec : Z) : M Z := trap "semaphore_timedwait_trap" [wait_name; u32 sec; s32 nsec].
Definition semaphore_timedwait_signal_trap_impl (wait_name signal_name sec nsec : Z) : M Z :=
  trap "semaphore_timedwait_signal_trap" [wait_name; signal_name; u32 sec; s32 nsec].

Definition mk_timer_create_impl : M Z := trap "mk_timer_create_trap" [].
Definition mk_timer_destroy_impl (name : Z) : M Z := trap "mk_timer_destroy_trap" [name].
Definition mk_timer_arm_impl (name expire_time : Z) : M Z := trap "mk_timer_arm_trap" [name; expire_time].
Definition mk_timer_cancel_impl (name result_time : Z) : M Z := trap "mk_timer_cancel_trap" [name; result_time].

Definition clock_sleep_trap_impl : M Z := unimplemented "clock_sleep_trap_impl".
Definition macx_swapon_impl : M Z := unimplemented "macx_swapon_impl".
Definition macx_swapoff_impl : M Z := unimplemented "macx_swapoff_impl".
Definition macx_triggers_impl : M Z := unimplemented "macx_triggers_impl".
Definition macx_backing_store_suspend_impl : M Z := unimplemented "macx_backing_store_suspend_impl".
Definition macx_backing_store_recovery_impl : M Z := unimplemented "macx_backing_store_recovery_impl".
Definition mach_generate_activity_id_impl : M Z := unimplemented "mach_generate_activity_id_impl".

(** ** Scheduling and time *)

Definition __linux_sched_yield : M unit := LINUX_SYSCALL __NR_sched_yield [];; mret tt.

(** [None]: the error went to errno. *)
Definition __linux_nanosleep (ts : timespec) : M (option Z) :=
  rv ← syscall_int __NR_nanosleep [ATimespec ts]; mret (if rv <? 0 then None else Some rv).

Definition swtch_pri_impl (pri : Z) : M Z := __linux_sched_yield;; mret 0.
Definition swtch_impl : M Z := __linux_sched_yield;; mret 0.

Definition syscall_thread_switch_impl (thread_name option option_time : Z) : M Z :=
  __linux_nanosleep (Timespec 0 1000000);; mret KERN_SUCCESS.

(** [info->numer] and [info->denom]. *)
Definition mach_timebase_info_trap_impl : M (Z * (Z * Z)) := mret (KERN_SUCCESS, (1, 1)).

(** The error number that goes to errno, if any. *)
Definition clock_nanosleep (clockid flags : Z) (req : timespec) : M (option Z) :=
  rv ← syscall_int __NR_clock_nanosleep [AInt clockid; AInt flags; ATimespec req];
  mret (if rv <? 0 then Some (errno_linux_to_bsd (- rv)) else None).

Fixpoint mach_wait_until_impl (fuel : nat) (deadline : Z) : M Z :=
  match fuel with
  | O => out_of_fuel
  | S fuel =>
    err ← clock_nanosleep CLOCK_MONOTONIC TIMER_ABSTIME (Timespec (deadline / NSEC_PER_SEC) (deadline mod NSEC_PER_SEC));
    match err with
    | Some e => if e =? EINTR then mach_wait_until_impl fuel deadline else mret KERN_FAILURE
    | None => mret KERN_SUCCESS
    end
  end.

(** [ts] is what clock_gettime(CLOCK_MONOTONIC) stored. *)
Definition mach_absolute_time (ts : timespec) : Z := u64 (u64 (tv_nsec ts) + u64 (tv_sec ts * NSEC_PER_SEC)).

(** ** Memory *)

Definition vm_prot_tbl : list (Z * Z) := [(VM_PROT_READ, PROT_READ); (VM_PROT_WRITE, PROT_WRITE); (VM_PROT_EXECUTE, PROT_EXEC)].

(** The C library's functions: [None] is MAP_FAILED, or -1. *)
Definition libc_mmap (addr size prot flags : Z) : M (option Z) :=
  r ← sys_mmap addr size prot flags (-1) 0; mret (if (-4095 <=? s64 r) && (s64 r <? 0) then None else Some r).

Definition libc_munmap (addr size : Z) : M Z := r ← sys_munmap addr size; mret (if r <? 0 then -1 else r).
Definition libc_mprotect (addr size prot : Z) : M Z := r ← sys_mprotect addr size prot; mret (if r <? 0 then -1 else r).

Definition __linux_mremap (old_addr old_size new_size flags new_address : Z) : M (option Z) :=
  rv ← LINUX_SYSCALL __NR_mremap [AInt old_addr; AInt old_size; AInt new_size; AInt flags; AInt new_address];
  mret (if (rv <? 0) && (-4095 <=? rv) then None else Some rv).

Section Task.
(** [mach_task_self()] *)
Context (mach_task_self : Z).

Definition other_task (target : Z) : bool := negb (target =? 0) && negb (target =? mach_task_self).

(** The second attempt, for an alignment that the first did not have. *)
Definition map_aligned (address size mask prot posix_flags addr : Z) : M (Z * Z) :=
  libc_munmap addr size;;
  let boundary := u64 (mask + 1) in
  iaddr ← libc_mmap address (u64 (size + boundary)) prot posix_flags;
  match iaddr with
  | None => mret (KERN_FAILURE, address)
  | Some iaddr =>
    (* a mask of all ones makes the boundary 0 *)
    if boundary =? 0 then undefined
    else
      let q := u64 (iaddr + (boundary - 1)) / boundary * boundary in
      let diff := u64 (q - iaddr) in
      (if 0 <? diff then libc_munmap iaddr diff;; mret tt else mret tt);;
      (if 0 <? u64 (boundary - diff) then libc_munmap (u64 (q + size)) (u64 (boundary - diff));; mret tt else mret tt);;
      mret (KERN_SUCCESS, q)
  end.

(** The result and [*address] afterwards. *)
Definition _kernelrpc_mach_vm_map_trap_impl (target address size mask flags cur_protection : Z) : M (Z * Z) :=
  if other_task target then mret (KERN_FAILURE, address)
  else
    let prot := translate vm_prot_tbl cur_protection in
    let posix_flags := Z.lor MAP_ANON MAP_PRIVATE in
    let posix_flags := if has flags VM_FLAGS_ANYWHERE then posix_flags else Z.lor posix_flags MAP_FIXED in
    addr ← (if Z.shiftr flags 24 =? VM_MEMORY_REALLOC then __linux_mremap (address - 0x1000) 0x1000 (0x1000 + size) 0 0
            else libc_mmap address size prot posix_flags);
    match addr with
    | None => mret (KERN_FAILURE, address)
    | Some addr =>
      if negb (mask =? 0) && negb (Z.land addr mask =? 0) then map_aligned address size mask prot posix_flags addr
      else mret (KERN_SUCCESS, addr)
    end.

Definition _kernelrpc_mach_vm_allocate_trap_impl (target addr size flags : Z) : M (Z * Z) :=
  if other_task target then
    '(rv, args) ← lkm_call (NR_trap "_kernelrpc_mach_vm_allocate_trap" [target; addr; size; flags]);
    mret (rv, if rv =? KERN_SUCCESS then default addr (args !! 1%nat) else addr)
  else _kernelrpc_mach_vm_map_trap_impl target addr size 0 flags (Z.lor VM_PROT_READ VM_PROT_WRITE).

Definition _kernelrpc_mach_vm_deallocate_trap_impl (target address size : Z) : M Z :=
  if other_task target then trap "_kernelrpc_mach_vm_deallocate_trap" [target; address; size]
  else ret ← libc_munmap address size; mret (if ret =? -1 then KERN_FAILURE else KERN_SUCCESS).

Definition _kernelrpc_mach_vm_protect_trap_impl (target address size set_maximum new_protection : Z) : M Z :=
  if other_task target then mret KERN_SUCCESS
  else ret ← libc_mprotect address size (translate vm_prot_tbl new_protection); mret (if ret =? -1 then KERN_FAILURE else KERN_SUCCESS).
End Task.

(** ** Aligned mappings

    What is mapped, address by address. *)

Definition PAGE : Z := 4096.
Definition page_round (size : Z) : Z := (size + (PAGE - 1)) / PAGE * PAGE.
Definition in_range (base size z : Z) : bool := (base <=? z) && (z <? base + size).
Definition vmspace : Type := Z -> bool.

(** [munmap] of whole pages: they are gone, or, where failures are possible,
    nothing has changed. *)
Definition unmapped (reliable : bool) (a size : Z) (k k' : vmspace) : Prop :=
  (∀ z, k' z = k z && negb (in_range a size z)) ∨ (reliable = false ∧ ∀ z, k' z = k z).

(** The rules of mmap(2) and munmap(2): an anonymous mapping without an
    address fails, or is made of whole pages that were free, at the address
    that is returned; unmapping whole pages succeeds on a [reliable] host, and
    can fail elsewhere, for lack of memory. *)
Record vm_rules (reliable : bool) (H : ∀ X : Set, linuxE X -> vmspace -> X -> vmspace -> Prop) : Prop := VmRules {
  vr_mmap : ∀ a size prot flags k x k', H Z (Sys __NR_mmap [AInt a; AInt size; AInt prot; AInt flags; AInt (-1); AInt 0]) k x k' ->
    has flags LINUX_MAP_FIXED = false -> 0 < size ->
    (-4095 <= x < 0 ∧ ∀ z, k' z = k z) ∨
    (0 < x ∧ (PAGE | x) ∧ x + page_round size < 2 ^ 63 ∧ (∀ z, in_range x (page_round size) z = true -> k z = false) ∧
     ∀ z, k' z = k z || in_range x (page_round size) z);
  vr_munmap : ∀ a size k x k', H Z (Sys __NR_munmap [AInt a; AInt size]) k x k' -> (PAGE | a) -> 0 < size ->
    unmapped reliable a (page_round size) k k' }.

Lemma page_round_id size : (PAGE | size) -> page_round size = size.
Proof.
  intros [n ->]. unfold page_round, PAGE. rewrite Z.add_comm, Z.div_add by lia. change ((4096 - 1) / 4096) with 0. lia.
Qed.

Section Aligned.
Context (reliable : bool) (H : ∀ X : Set, linuxE X -> vmspace -> X -> vmspace -> Prop) (R : vm_rules reliable H).

Definition anon_flags : Z := Z.lor MAP_ANON MAP_PRIVATE.

Lemma mmap_hoare a size prot g k (Q : option Z -> gstate -> vmspace -> Prop) :
  (PAGE | size) -> 0 < size ->
  (∀ k', (∀ z, k' z = k z) -> Q None g k') ->
  (∀ x k', 0 < x -> x + size < 2 ^ 63 -> (PAGE | x) -> (∀ z, in_range x size z = true -> k z = false) -> (∀ z, k' z = k z || in_range x size z) -> Q (Some x) g k') ->
  hoare H (libc_mmap a size prot anon_flags) g k Q.
Proof.
  intros Hsz Hpos HN HS. unfold libc_mmap, sys_mmap. apply hoare_bind, hoare_bind, hoare_trigger. intros x k' Hx.
  destruct (vr_mmap reliable H R _ _ _ _ _ _ _ Hx eq_refl Hpos) as [[Hr Hk]|(H0 & Hp & H63 & Hfree & Hk)].
  - assert ((u64 (-4096) <? u64 x) = true) as ->.
    { change (u64 (-4096)) with (2 ^ 64 - 4096). unfold u64. replace (x mod 2 ^ 64) with (x + 2 ^ 64); [lia|]. apply (Zmod_unique _ _ (-1)); lia. }
    apply hoare_ret, hoare_ret. assert (-4095 <= errno_linux_to_bsd (s32 x) < 0) as He.
    { rewrite s32_id by (unfold INT_MIN, INT_MAX; lia). pose proof (errno_range x). lia. }
    replace (s64 (u64 _)) with (errno_linux_to_bsd (s32 x)).
    2:{ unfold u64, s64. rewrite Zplus_mod_idemp_l, Z.mod_small; lia. }
    rewrite (proj2 (andb_true_iff _ _)) by lia. by apply HN.
  - rewrite page_round_id in * by done. assert (u64 x = x) as Hu by (unfold u64; apply Z.mod_small; lia). rewrite Hu.
    rewrite (proj2 (Z.ltb_ge _ _)) by (change (u64 (-4096)) with (2 ^ 64 - 4096); lia). apply hoare_ret, hoare_ret.
    rewrite s64_id by lia. rewrite (proj2 (Z.ltb_ge x 0)), andb_false_r by lia. by apply HS.
Qed.

Lemma munmap_hoare a size g k (Q : Z -> gstate -> vmspace -> Prop) : (PAGE | a) -> (PAGE | size) -> 0 < size ->
  (∀ r k', unmapped reliable a size k k' -> Q r g k') -> hoare H (libc_munmap a size) g k Q.
Proof.
  intros Ha Hs Hpos HQ. unfold libc_munmap, sys_munmap. apply hoare_bind, hoare_bind, hoare_syscall_int. intros x k' Hx.
  apply hoare_ret, hoare_ret, HQ. pose proof (vr_munmap reliable H R _ _ _ _ _ Hx Ha Hpos) as Hk. by rewrite page_round_id in Hk.
Qed.

Lemma unmapped_keeps a size k k' z : unmapped reliable a size k k' -> in_range a size z = false -> k' z = k z.
Proof. intros [Hk|[_ Hk]] Hz; rewrite Hk; [|done]. by rewrite Hz, andb_true_r. Qed.

Lemma unmapped_exact a size k k' : unmapped reliable a size k k' -> reliable = true -> ∀ z, k' z = k z && negb (in_range a size z).
Proof. by intros [Hk|[-> _]]. Qed.

(** An outcome of mapping [size] bytes where [k] was mapped: what was mapped
    still is, and when no call to unmap fails nothing else is. *)
Definition mapped (mask address size : Z) (k : vmspace) (r : Z * Z) (k' : vmspace) : Prop :=
  (r = (KERN_FAILURE, address) ∧ (∀ z, k z = true -> k' z = true) ∧ (reliable = true -> ∀ z, k' z = k z)) ∨
  (∃ addr, r = (KERN_SUCCESS, addr) ∧ Z.land addr mask = 0 ∧ (∀ z, in_range addr size z = true -> k z = false) ∧
   (∀ z, k z || in_range addr size z = true -> k' z = true) ∧
   (reliable = true -> ∀ z, k' z = k z || in_range addr size z)).

Lemma land_mask x n : 0 <= n -> Z.land x (2 ^ n - 1) = x mod 2 ^ n.
Proof. intros Hn. rewrite <- Z.land_ones by done. by rewrite Z.ones_equiv. Qed.

Lemma misaligned_large x n : 0 <= n -> (PAGE | x) -> Z.land x (2 ^ n - 1) ≠ 0 -> (PAGE | 2 ^ n).
Proof.
  intros Hn [m ->] Hne. unfold PAGE in *. rewrite land_mask in Hne by done. destruct (decide (12 <= n)).
  - exists (2 ^ (n - 12)). change 4096 with (2 ^ 12). rewrite <- Z.pow_add_r by lia. f_equal. lia.
  - destruct Hne. change 4096 with (2 ^ 12). replace 12 with (12 - n + n) by lia. rewrite Z.pow_add_r, Z.mul_assoc by lia. apply Z.mod_mul. lia.
Qed.

(** The first multiple of [b] from [x] on. *)
Lemma next_multiple_spec x b : 0 < b -> let q := (x + (b - 1)) / b * b in x <= q < x + b ∧ (b | q).
Proof.
  intros Hb q. pose proof (Z.div_mod (x + (b - 1)) b). pose proof (Z.mod_pos_bound (x + (b - 1)) b Hb). split; [unfold q; lia|].
  by exists ((x + (b - 1)) / b).
Qed.

Lemma trimmed k x q size b z : x <= q < x + b -> 0 < size ->
  (in_range x (size + b) z = true -> k z = false) ->
  ((k z || in_range x (size + b) z) && negb (in_range x (q - x) z)) && negb (in_range (q + size) (b - (q - x)) z) = k z || in_range q size z.
Proof. intros Hq Hs. unfold in_range. destruct (k z); lia. Qed.

(** What is mapped survives the two cuts. *)
Lemma trimmed_keeps k2 k3 k4 k5 x q size b z : x <= q < x + b -> 0 < size ->
  (in_range x (size + b) z = true -> k2 z = false) -> k3 z = k2 z || in_range x (size + b) z ->
  unmapped reliable x (q - x) k3 k4 -> unmapped reliable (q + size) (b - (q - x)) k4 k5 ->
  k2 z || in_range q size z = true -> k5 z = true.
Proof.
  intros Hq Hs Hfree Hk3 H4 H5 Hz. assert (in_range x (q - x) z = false ∧ in_range (q + size) (b - (q - x)) z = false) as [Ho1 Ho2].
  { destruct (k2 z); [destruct (in_range x (size + b) z) eqn:E; [by specialize (Hfree eq_refl)|]|]; unfold in_range in *; simpl in *; lia. }
  rewrite (unmapped_keeps _ _ _ _ _ H5 Ho2), (unmapped_keeps _ _ _ _ _ H4 Ho1), Hk3.
  destruct (k2 z); [done|]. simpl in *. unfold in_range in *. lia.
Qed.

(** The second mapping is cut to size. *)
Lemma cut_hoare address size n k k2 k3 x g : 0 <= n < 63 -> (PAGE | 2 ^ n) -> (PAGE | size) -> 0 < size ->
  (∀ z, k z = true -> k2 z = true) -> (reliable = true -> ∀ z, k2 z = k z) ->
  0 < x -> x + (size + 2 ^ n) < 2 ^ 63 -> (PAGE | x) ->
  (∀ z, in_range x (size + 2 ^ n) z = true -> k2 z = false) -> (∀ z, k3 z = k2 z || in_range x (size + 2 ^ n) z) ->
  let q := (x + (2 ^ n - 1)) / 2 ^ n * 2 ^ n in
  hoare H ((if 0 <? q - x then libc_munmap x (q - x);; mret tt else mret tt);;
           (if 0 <? 2 ^ n - (q - x) then libc_munmap (q + size) (2 ^ n - (q - x));; mret tt else mret tt);;
           mret (KERN_SUCCESS, q)) g k3 (λ r g' k', g' = g ∧ mapped (2 ^ n - 1) address size k r k').
Proof.
  intros Hn Hpb Hps Hs Hk2 Hk2e Hx Hend Hpx Hfree Hk3 q. pose proof (Z.pow_pos_nonneg 2 n) as Hb0.
  destruct (next_multiple_spec x (2 ^ n) ltac:(lia)) as [Hq Hbq]. fold q in Hq, Hbq.
  assert (PAGE | q) as Hpq by (by apply (Z.divide_trans _ (2 ^ n))).
  assert (∀ k4, unmapped reliable x (q - x) k3 k4 -> hoare H
    ((if 0 <? 2 ^ n - (q - x) then libc_munmap (q + size) (2 ^ n - (q - x));; mret tt else mret tt);; mret (KERN_SUCCESS, q)) g k4
    (λ r g' k', g' = g ∧ mapped (2 ^ n - 1) address size k r k')) as Htail.
  { intros k4 Hk4. rewrite (proj2 (Z.ltb_lt _ _)) by lia. apply hoare_bind, hoare_bind, munmap_hoare; [by apply Z.divide_add_r| |lia|].
    { apply Z.divide_sub_r; [done|]. by apply Z.divide_sub_r. }
    intros _ k5 Hk5. apply hoare_ret, hoare_ret. split; [done|]. right. exists q. split_and!; [done| | | |].
    - rewrite land_mask by lia. by apply Z.mod_divide; [lia|].
    - intros z Hz. destruct (k z) eqn:E; [|done]. apply Hk2 in E. rewrite Hfree in E; [done|]. unfold in_range in *. lia.
    - intros z Hz. apply (trimmed_keeps k2 k3 k4 k5 x q size (2 ^ n) z Hq Hs (Hfree z) (Hk3 z) Hk4 Hk5).
      destruct (k z) eqn:E; [by rewrite (Hk2 z E)|]. simpl in Hz. rewrite Hz. apply orb_true_r.
    - intros Hrel z. rewrite (unmapped_exact _ _ _ _ Hk5 Hrel), (unmapped_exact _ _ _ _ Hk4 Hrel), Hk3, (Hk2e Hrel).
      apply trimmed; [done|done|]. intros Hz. rewrite <- (Hk2e Hrel). by apply Hfree. }
  apply hoare_bind. destruct (Z.ltb_spec 0 (q - x)).
  - apply hoare_bind, munmap_hoare; [done|by apply Z.divide_sub_r|done|]. intros _ k4 Hk4. by apply hoare_ret, Htail.
  - apply hoare_ret, Htail. left. intros z. unfold in_range. replace (q - x) with 0 by lia. destruct (k3 z); simpl; [|done]. lia.
Qed.

Lemma map_aligned_hoare address size n prot addr g k k1 : 0 <= n < 63 -> size < 2 ^ 63 -> (PAGE | size) -> 0 < size -> (PAGE | addr) ->
  Z.land addr (2 ^ n - 1) ≠ 0 -> (∀ z, in_range addr size z = true -> k z = false) -> (∀ z, k1 z = k z || in_range addr size z) ->
  hoare H (map_aligned address size (2 ^ n - 1) prot anon_flags addr) g k1 (λ r g' k', g' = g ∧ mapped (2 ^ n - 1) address size k r k').
Proof.
  intros [Hn Hn63] Hsz Hps Hs Ha Hmis Hfree Hk1. pose proof (misaligned_large _ _ Hn Ha Hmis) as Hpb. unfold map_aligned.
  pose proof (Z.pow_pos_nonneg 2 n). assert (2 ^ n < 2 ^ 63) as Hb by (apply Z.pow_lt_mono_r; lia).
  replace (2 ^ n - 1 + 1) with (2 ^ n) by lia. rewrite !(u64_id (2 ^ n)), (u64_id (size + 2 ^ n)) by lia. cbv zeta.
  apply hoare_bind, munmap_hoare; [done..|]. intros _ k2 Hk2.
  assert (∀ z, k z = true -> k2 z = true) as Hk20.
  { intros z Hz. rewrite (unmapped_keeps _ _ _ _ _ Hk2), Hk1, Hz; [done|]. destruct (in_range addr size z) eqn:E; [|done]. by rewrite (Hfree z E) in Hz. }
  assert (reliable = true -> ∀ z, k2 z = k z) as Hk2e.
  { intros Hrel z. rewrite (unmapped_exact _ _ _ _ Hk2 Hrel), Hk1. pose proof (Hfree z) as Hz. destruct (k z), (in_range addr size z); simpl; auto; by specialize (Hz eq_refl). }
  apply hoare_bind, mmap_hoare; [by apply Z.divide_add_r|lia| |].
  - intros k3 Hk3. apply hoare_ret. split; [done|]. left. split_and!; [done| |].
    + intros z Hz. rewrite Hk3. by apply Hk20.
    + intros Hrel z. rewrite Hk3. by apply Hk2e.
  - intros x k3 Hx Hend Hpx Hfree3 Hk3. destruct (next_multiple_spec x (2 ^ n) ltac:(lia)) as [Hq _].
    rewrite (proj2 (Z.eqb_neq (2 ^ n) 0)), (u64_id (x + _)) by lia. set (q := (x + (2 ^ n - 1)) / 2 ^ n * 2 ^ n) in *.
    rewrite !(u64_id (q - x)), (u64_id (2 ^ n - _)), (u64_id (q + size)) by lia.
    by apply (cut_hoare address size n k k2 k3 x g).
Qed.
End Aligned.

(** C24: memory of whole pages that a task maps for itself anywhere, without
    the tag for growing a mapping, with a mask for the alignment of one less
    than a power of two.  When the call succeeds, the address has the
    alignment, and the pages from it on are mapped and were free; whatever it
    returns, what was mapped before still is.  When, moreover, no call to
    unmap fails (the code ignores its result), exactly those pages were
    added, so that of a larger mapping that had to be made for the alignment
    nothing is left before or after, and a call that fails changes nothing. *)
Theorem vm_map_aligned reliable H self address size n flags prot g k :
  vm_rules reliable H -> 0 <= n < 63 -> (PAGE | size) -> 0 < size -> has flags VM_FLAGS_ANYWHERE = true -> Z.shiftr flags 24 ≠ VM_MEMORY_REALLOC ->
  hoare H (_kernelrpc_mach_vm_map_trap_impl self self address size (2 ^ n - 1) flags prot) g k
    (λ r g' k', g' = g ∧ mapped reliable (2 ^ n - 1) address size k r k').
Proof.
  intros R Hn Hps Hs Hany Hre. unfold _kernelrpc_mach_vm_map_trap_impl, other_task. rewrite Z.eqb_refl, andb_false_r, Hany.
  rewrite (proj2 (Z.eqb_neq _ _) Hre). cbv zeta. apply hoare_bind, (mmap_hoare reliable H R); [done|done| |].
  - intros k' Hk'. apply hoare_ret. split; [done|]. left. split_and!; [done|intros z; by rewrite Hk'|done].
  - intros x k' Hx Hend Hpx Hfree Hk'. destruct (_ && _) eqn:E.
    + apply (map_aligned_hoare reliable H R); try done; lia.
    + apply hoare_ret. split; [done|]. right. exists x. split_and!; [done| |done|intros z; by rewrite Hk'|done].
      destruct (Z.eqb_spec (2 ^ n - 1) 0) as [Hz|]; [rewrite Hz; apply Z.land_0_r|]. cbn in E. lia.
Qed.

(** A host that does what the rules say, and whatever they allow. *)
Module AnyVm.
Definition host (X : Set) (e : linuxE X) (k : vmspace) (x : X) (k' : vmspace) : Prop :=
  match e in linuxE X return X -> Prop with
  | Sys nr args => λ x,
    match args with
    | [AInt a; AInt size; AInt prot; AInt flags; AInt (-1); AInt 0] => nr = __NR_mmap ∧
      ((-4095 <= x < 0 ∧ ∀ z, k' z = k z) ∨
       (0 < x ∧ (PAGE | x) ∧ x + page_round size < 2 ^ 63 ∧ (∀ z, in_range x (page_round size) z = true -> k z = false) ∧
        ∀ z, k' z = k z || in_range x (page_round size) z))
    | [AInt a; AInt size] => nr = __NR_munmap ∧
      ((x = 0 ∧ ∀ z, k' z = k z && negb (in_range a (page_round size) z)) ∨ (x = -12 ∧ ∀ z, k' z = k z))
    | _ => False
    end
  | _ => λ _, False
  end x.

Lemma any_vm_rules : vm_rules false host.
Proof.
  split; [intros a size prot flags k x k' [_ Hx] _ _; exact Hx|].
  intros a size k x k' (_ & [[_ Hk]|[_ Hk]]) _ _; [by left|by right].
Qed.
End AnyVm.

(** Two pages at a multiple of 64 KiB, in an empty address space. *)
Lemma vm_map_aligned_witness :
  hoare AnyVm.host (_kernelrpc_mach_vm_map_trap_impl 259 259 0 0x2000 (2 ^ 16 - 1) VM_FLAGS_ANYWHERE 3) init_gstate (λ _, false)
    (λ r g' k', g' = init_gstate ∧ mapped false (2 ^ 16 - 1) 0 0x2000 (λ _, false) r k').
Proof.
  apply (vm_map_aligned false AnyVm.host 259 0 0x2000 16 VM_FLAGS_ANYWHERE 3 init_gstate (λ _, false)); [exact AnyVm.any_vm_rules|lia| |lia|reflexivity|].
  - exists 2. reflexivity.
  - vm_compute. congruence.
Defined.

(** The requests of that call when the first mapping is at 0x1001000. *)
Lemma vm_map_trims :
  run scripted (_kernelrpc_mach_vm_map_trap_impl 259 259 0 0x2000 0xffff VM_FLAGS_ANYWHERE 3) init_gstate ([0x1001000; 0; 0x1001000], []) =
  Some ((KERN_SUCCESS, 0x1010000), init_gstate, ([], [
    (__NR_mmap, [AInt 0; AInt 0x2000; AInt 3; AInt 0x22; AInt (-1); AInt 0]);
    (__NR_munmap, [AInt 0x1001000; AInt 0x2000]);
    (__NR_mmap, [AInt 0; AInt 0x12000; AInt 3; AInt 0x22; AInt (-1); AInt 0]);
    (__NR_munmap, [AInt 0x1001000; AInt 0xf000]);
    (__NR_munmap, [AInt 0x1012000; AInt 0x1000])])).
Proof. by vm_compute. Qed.

(** With a fixed address that does not have the alignment, the second mapping
    is made at that address, too, and replaces what the program has in the
    next pages, before those are unmapped; the address that is returned is
    not the one that was asked for. *)
Theorem fixed_map_clobbers :
  run scripted (_kernelrpc_mach_vm_map_trap_impl 259 259 0x1001000 0x2000 0xffff 0 3) init_gstate ([0x1001000; 0; 0x1001000], []) =
  Some ((KERN_SUCCESS, 0x1010000), init_gstate, ([], [
    (__NR_mmap, [AInt 0x1001000; AInt 0x2000; AInt 3; AInt 0x32; AInt (-1); AInt 0]);
    (__NR_munmap, [AInt 0x1001000; AInt 0x2000]);
    (__NR_mmap, [AInt 0x1001000; AInt 0x12000; AInt 3; AInt 0x32; AInt (-1); AInt 0]);
    (__NR_munmap, [AInt 0x1001000; AInt 0xf000]);
    (__NR_munmap, [AInt 0x1012000; AInt 0x1000])])).
Proof. by vm_compute. Qed.

(** A size that is not a multiple of the page size: the rest is unmapped from
    an address inside a page, which munmap(2) refuses. *)
Theorem odd_size_keeps_rest :
  ∃ r g' s log, run scripted (_kernelrpc_mach_vm_map_trap_impl 259 259 0 0x1800 0xffff VM_FLAGS_ANYWHERE 3) init_gstate ([0x1001000; 0; 0x1001000], []) =
    Some (r, g', (s, log)) ∧ last log = Some (__NR_munmap, [AInt 0x1011800; AInt 0x1000]) ∧ ¬ (PAGE | 0x1011800).
Proof. do 4 eexists. split; [by vm_compute|]. split; [by vm_compute|]. intros [n Hn]. unfold PAGE in Hn. lia. Qed.

(** Growing a mapping in place reports the page before it as its address. *)
Theorem realloc_address :
  ∃ g' s, run scripted (_kernelrpc_mach_vm_map_trap_impl 259 259 0x5001000 0x3000 0 (Z.shiftl VM_MEMORY_REALLOC 24) 3) init_gstate ([0x5000000], []) =
    Some ((KERN_SUCCESS, 0x5000000), g', s).
Proof. do 2 eexists. by vm_compute. Qed.

(** ** Time *)

(** mach_absolute_time counts the nanoseconds of the monotonic clock. *)
Theorem absolute_time_nanoseconds ts : 0 <= tv_sec ts < 2 ^ 33 -> 0 <= tv_nsec ts < NSEC_PER_SEC ->
  mach_absolute_time ts = tv_sec ts * NSEC_PER_SEC + tv_nsec ts ∧
  tv_sec ts = mach_absolute_time ts / NSEC_PER_SEC ∧ tv_nsec ts = mach_absolute_time ts mod NSEC_PER_SEC.
Proof.
  intros Hs Hn. assert (mach_absolute_time ts = tv_sec ts * NSEC_PER_SEC + tv_nsec ts) as E.
  { unfold mach_absolute_time, NSEC_PER_SEC in *. unfold u64. rewrite !(Z.mod_small (tv_nsec ts)), !(Z.mod_small (_ * _)), Z.mod_small by lia. lia. }
  rewrite E. split; [done|]. unfold NSEC_PER_SEC in *. Z.to_euclidean_division_equations. lia.
Qed.
