(* ===== verification/Ipc.v ===== *)
(** * Waiting and events

    psynch/ (the calls behind libpthread's mutexes, conditions and locks),
    synch/semwait_signal.c, sysv_sem/semctl.c, kqueue/, the POSIX semaphores
    and shared memory of wrapped/, conf/ and audit/audit_addr.c. *)
From S2P Require Import Prelude Abi Linux Errno Base Simple Fcntl Misc MachTraps.

(** ** psynch *)

(** The low eight bits are an error, the others are data. *)
Definition psynch_errno (rv : Z) : Z :=
  if 0 <=? rv then rv
  else
    let rv := - rv in
    let top := Z.land rv 0xffffff00 in
    - Z.lor (errno_linux_to_bsd (Z.land rv 0xff)) top.

(** [lkm_call_raw]: without translation. *)
Definition psynch (name : string) (args : list Z) : M Z := '(rv, _) ← trigger (Lkm (NR_trap name args)); mret (psynch_errno (s32 rv)).

Definition sys_psynch_mutexwait (mutex mgen ugen tid flags : Z) : M Z := psynch "psynch_mutexwait_trap" [mutex; mgen; ugen; tid; flags].
Definition sys_psynch_mutexdrop (mutex mgen ugen tid flags : Z) : M Z := psynch "psynch_mutexdrop_trap" [mutex; mgen; ugen; tid; flags].
Definition sys_psynch_cvwait (cv cvlsgen cvugen mutex mugen flags sec nsec : Z) : M Z :=
  psynch "psynch_cvwait_trap" [cv; cvlsgen; cvugen; mutex; mugen; flags; sec; nsec].
Definition sys_psynch_cvsignal (cv cvlsgen cvugen thread_port mutex mugen tid flags : Z) : M Z :=
  psynch "psynch_cvsignal_trap" [cv; cvlsgen; cvugen; mutex; mugen; tid; thread_port; flags].
Definition sys_psynch_cvbroad (cv cvlsgen cvudgen flags mutex mugen tid : Z) : M Z :=
  psynch "psynch_cvbroad_trap" [cv; cvlsgen; cvudgen; mutex; mugen; tid; flags].
Definition sys_psynch_cvclrprepost (cv cvgen cvugen cvsgen prepocnt preposeq flags : Z) : M Z :=
  psynch "psynch_cvclrprepost" [cv; cvgen; cvugen; cvsgen; prepocnt; preposeq; flags].
Definition sys_psynch_rw_rdlock (rwlock lgenval ugenval rw_wc flags : Z) : M Z := psynch "psynch_rw_rdlock" [rwlock; lgenval; ugenval; rw_wc; flags].
Definition sys_psynch_rw_wrlock (rwlock lgenval ugenval rw_wc flags : Z) : M Z := psynch "psynch_rw_wrlock" [rwlock; lgenval; ugenval; rw_wc; flags].
Definition sys_psynch_rw_unlock (rwlock lgenval ugenval rw_wc flags : Z) : M Z := psynch "psynch_rw_unlock" [rwlock; lgenval; ugenval; rw_wc; flags].

(** ** Waiting for a Mach semaphore *)

Definition KERN_ABORTED : Z := 14.
Definition KERN_OPERATION_TIMED_OUT : Z := 49.

(** The time left until a deadline, in the types of the variables. *)
Definition time_left (tv : timeval) (tv_sec tv_nsec : Z) : Z * Z :=
  let '(sec, nsec) :=
    if tv_usec tv * 1000 <? tv_nsec then (tv_sec, s32 (tv_nsec - tv_usec tv * 1000))
    else (s64 (tv_sec - 1), s32 (u64 (1000000000 + tv_nsec - tv_usec tv * 1000))) in
  (s64 (sec - tv_s tv), nsec).

Definition kr_errno (kr : Z) : Z :=
  if kr =? KERN_ABORTED then - EINTR
  else if kr =? KERN_OPERATION_TIMED_OUT then - ETIMEDOUT
  else if negb (kr =? KERN_SUCCESS) then - EINVAL else 0.

Definition sys_semwait_signal_nocancel (cond_sem mutex_sem timeout relative tv_sec tv_nsec : Z) : M Z :=
  kr ← (if negb (timeout =? 0) then
          '(sec, nsec) ← (if relative =? 0 then
                            '(_, tv) ← sys_gettimeofday 0; tv ← defined tv; mret (time_left tv tv_sec tv_nsec)
                          else mret (tv_sec, tv_nsec));
          if negb (mutex_sem =? 0) then semaphore_timedwait_signal_trap_impl cond_sem mutex_sem sec nsec
          else semaphore_timedwait_trap_impl cond_sem sec nsec
        else if negb (mutex_sem =? 0) then semaphore_wait_signal_trap_impl cond_sem mutex_sem
        else semaphore_wait_trap_impl cond_sem);
  mret (kr_errno kr).

Definition sys_semwait_signal (cond_sem mutex_sem timeout relative tv_sec tv_nsec : Z) : M Z :=
  CANCELATION_POINT id (sys_semwait_signal_nocancel cond_sem mutex_sem timeout relative tv_sec tv_nsec).

(** ** System V semaphores *)

Definition IPC_SET : Z := 1.
Definition IPC_STAT : Z := 2.
Definition cmd_map : list Z := [0; 1; 2; 14; 11; 12; 13; 15; 16; 17].

(** [struct linux_semid_ds] as the source declares it, at its offsets. *)
Record linux_semid_ds := LinuxSemidDs {
  lsem_uid : Z; lsem_gid : Z; lsem_cuid : Z; lsem_cgid : Z; lsem_mode : Z; lsem_otime : Z; lsem_ctime : Z; lsem_nsems : Z }.

Record bsd_semid_ds := BsdSemidDs {
  bsem_uid : Z; bsem_gid : Z; bsem_cuid : Z; bsem_cgid : Z; bsem_mode : Z; bsem_base : Z; bsem_nsems : Z; bsem_otime : Z; bsem_ctime : Z }.

Definition bytes_at (mem : list ascii) (off n : nat) : Z := bytes_value (take n (drop off mem)).

Definition decode_semid (mem : list ascii) : linux_semid_ds :=
  LinuxSemidDs (bytes_at mem 4 4) (bytes_at mem 8 4) (bytes_at mem 12 4) (bytes_at mem 16 4) (s16 (bytes_at mem 20 2))
    (bytes_at mem 24 8) (bytes_at mem 32 8) (bytes_at mem 40 8).

Definition semid_linux_to_bsd (l : linux_semid_ds) : bsd_semid_ds :=
  BsdSemidDs (lsem_uid l) (lsem_gid l) (lsem_cuid l) (lsem_cgid l) (lsem_mode l) 0 (u16 (lsem_nsems l)) (lsem_otime l) (lsem_ctime l).

(** [buf] are the bytes at [arg.buf], which is passed on as it is; the result
    and, for IPC_SET and IPC_STAT, what is stored there. *)
Definition sys_semctl (semid semnum cmd : Z) (buf : list ascii) : M (Z * option bsd_semid_ds) :=
  match cmd_map !! Z.to_nat cmd with
  | Some linux_cmd =>
    if cmd <? 0 then mret (- EINVAL, None)
    else
      '(ret, mem) ← syscall_int_out __NR_semctl [AInt semid; AInt semnum; AInt linux_cmd; ABuf buf] (OBytes 104);
      if ret <? 0 then mret (errno_linux_to_bsd ret, None)
      else mret (0, if (cmd =? IPC_SET) || (cmd =? IPC_STAT) then Some (semid_linux_to_bsd (decode_semid mem)) else None)
  | None => mret (- EINVAL, None)
  end.

(** ** Event queues *)

Definition KEVENT_FLAG_WORKQ : Z := 0x20.
Definition KEVENT_FLAG_IMMEDIATE : Z := 0x1.

Record kevent64_s := Kevent64 {
  k64_ident : Z; k64_filter : Z; k64_flags : Z; k64_fflags : Z; k64_data : Z; k64_udata : Z; k64_ext0 : Z; k64_ext1 : Z }.

Record kevent_qos_s := KeventQos {
  kq_ident : Z; kq_filter : Z; kq_flags : Z; kq_qos : Z; kq_udata : Z; kq_fflags : Z; kq_data : Z;
  kq_ext0 : Z; kq_ext1 : Z; kq_ext2 : Z; kq_ext3 : Z }.

Definition kevent_qos_to_64 (e : kevent_qos_s) : kevent64_s :=
  Kevent64 (kq_ident e) (kq_filter e) (kq_flags e) (kq_fflags e) (kq_data e) (kq_udata e) (kq_ext0 e) (kq_ext1 e).

Definition kevent_64_to_qos (e : kevent64_s) : kevent_qos_s :=
  KeventQos (k64_ident e) (k64_filter e) (k64_flags e) 0 (k64_udata e) (k64_fflags e) (k64_data e) (k64_ext0 e) (k64_ext1 e) 0 0.

Definition sys_kqueue : M Z := trap "kqueue_create" [].
Definition sys_guarded_kqueue_np (guardflags : Z) : M (Z * Z) := ret ← sys_kqueue; mret (ret, 0).
Definition sys_kevent (kq changelist nchanges eventlist nevents timeout : Z) : M Z :=
  trap "kevent" [kq; changelist; nchanges; eventlist; nevents; timeout].

Definition kevent64_words (e : kevent64_s) : list Z :=
  [k64_ident e; k64_filter e; k64_flags e; k64_fflags e; k64_data e; k64_udata e; k64_ext0 e; k64_ext1 e].

Fixpoint words_kevent64 (n : nat) (l : list Z) : option (list kevent64_s) :=
  match n, l with
  | O, _ => Some []
  | S n, a :: b :: c :: d :: e :: f :: g :: h :: l => r ← words_kevent64 n l; Some (Kevent64 a b c d e f g h :: r)
  | _, _ => None
  end.

(** The changes are read and the events written by the module: the answer
    starts with the words of the events. *)
Definition sys_kevent64 (kq : Z) (changes : list kevent64_s) (nevents flags : Z) (poll : bool) : M (Z * list Z) :=
  lkm_call (NR_trap "kevent64" ([kq; Z.of_nat (length changes); nevents; flags; if poll then 1 else 0] ++ (changes ≫= kevent64_words))).

Definition set_default_kq (kq : Z) (g : gstate) : gstate :=
  let c := g_caches g in set_caches (Caches (c_lu c) (c_hinfo c) (c_proc_ids c) (c_info_ids c) kq) g.

(** [workq events nevents]: the request for a thread with these events, the
    wait for it, and what the thread left in [wq_kevent]. *)
Definition sys_kevent_qos (workq : list kevent_qos_s -> Z -> M (list kevent_qos_s)) (kq : Z) (changelist : list kevent_qos_s) (nevents flags : Z)
    : M (Z * list kevent_qos_s) :=
  if negb (eqb (kq =? -1) (has flags KEVENT_FLAG_WORKQ)) then mret (- EINVAL, [])
  else
    kq ← (if kq <? 0 then
            g ← get_state;
            (if c_default_kq (g_caches g) =? -1 then kq ← sys_kqueue; modify_state (set_default_kq kq) else mret tt);;
            g ← get_state; mret (c_default_kq (g_caches g))
          else mret kq);
    let own := (nevents =? 0) && has flags KEVENT_FLAG_WORKQ in
    '(rv, out) ← sys_kevent64 kq (kevent_qos_to_64 <$> changelist) (if own then 1 else nevents) flags (has flags KEVENT_FLAG_IMMEDIATE);
    (* the list of one event of its own is made with no memory at all *)
    events ← (if 0 <? rv then if own then undefined else evs ← defined (words_kevent64 (Z.to_nat rv) out); mret (kevent_64_to_qos <$> evs) else mret []);
    if has flags KEVENT_FLAG_WORKQ then events ← workq events rv; mret (Z.of_nat (length events), events)
    else mret (rv, events).

(** ** POSIX semaphores and shared memory of the host's C library *)

(** The functions behind [elfcalls()], and the errno they leave. *)
Record elf_sems := ElfSems {
  elf_sem_open : cstr -> Z -> Z -> Z -> M Z; elf_sem_wait : Z -> M Z; elf_sem_trywait : Z -> M Z; elf_sem_post : Z -> M Z;
  elf_sem_close : Z -> M Z; elf_sem_unlink : cstr -> M Z; elf_shm_open : cstr -> Z -> Z -> M Z; elf_shm_unlink : cstr -> M Z;
  elf_get_errno : M Z }.

Section Wrapped.
Context (elfcalls : elf_sems).

(** [if (ret == -1) ret = -errno_linux_to_bsd(elfcalls()->get_errno());] *)
Definition wrapped (m : M Z) : M Z :=
  ret ← m; if ret =? -1 then e ← elf_get_errno elfcalls; mret (- errno_linux_to_bsd e) else mret ret.

Definition sys_sem_open (name : cstr) (oflag mode value : Z) : M Z :=
  ptr ← elf_sem_open elfcalls name (oflags_bsd_to_linux oflag) mode value;
  if ptr =? 0 then e ← elf_get_errno elfcalls; mret (- errno_linux_to_bsd e) else mret ptr.

(** The parameter is an [int]. *)
Definition sys_sem_close (sem : Z) : M Z := wrapped (elf_sem_close elfcalls (s32 sem)).
Definition sys_sem_post (sem : Z) : M Z := wrapped (elf_sem_post elfcalls sem).
Definition sys_sem_trywait (sem : Z) : M Z := wrapped (elf_sem_trywait elfcalls sem).
Definition sys_sem_unlink (name : cstr) : M Z := wrapped (elf_sem_unlink elfcalls name).
Definition sys_sem_wait_nocancel (sem : Z) : M Z := wrapped (elf_sem_wait elfcalls sem).
Definition sys_sem_wait (sem : Z) : M Z := CANCELATION_POINT id (sys_sem_wait_nocancel sem).
Definition sys_shm_open (name : cstr) (oflag mode : Z) : M Z := wrapped (elf_shm_open elfcalls name (oflags_bsd_to_linux oflag) mode).
Definition sys_shm_unlink (name : cstr) : M Z := wrapped (elf_shm_unlink elfcalls name).
End Wrapped.

(** ** Limits of files *)

(** [values], whose first element is not named. *)
Definition pathconf_values : list Z := [0; 8; 255; 255; 255; 4096; 4096; 1; 1; 0].

Definition sys_fpathconf (fd name : Z) : M Z :=
  mret (if (name <? 1) || (10 <=? name) then - EINVAL else default 0 (pathconf_values !! Z.to_nat name)).

Definition sys_pathconf (file : cstr) (name : Z) : M Z := sys_fpathconf (-1) name.

(** ** Audit information *)

(** The static [info], as bytes; [asid_off] is the offset of [ai_asid] in it. *)
Section Audit.
Context (asid_off : nat) (AU_ASSIGN_ASID : Z).

Definition sys_getaudit_addr (info : list ascii) (buf : list ascii) (length : Z) : Z * list ascii :=
  (0, write_at buf 0 (ztake (Z.min (u64 length) (Z.of_nat (List.length info))) info)).

Definition sys_setaudit_addr (info : list ascii) (buf : list ascii) (length : Z) : M (Z * list ascii) :=
  let info := write_at info 0 (ztake (Z.min (u64 length) (Z.of_nat (List.length info))) buf) in
  if s32 (bytes_at info asid_off 4) =? AU_ASSIGN_ASID then
    '(_, data) ← sys_getentropy 4; mret (0, write_at info asid_off data)
  else mret (0, info).
End Audit.

(** ** Theorems *)

(** A number of two parts, the lower of [k] bits. *)
Lemma land_high x m k : 0 <= k -> Z.land x (Z.shiftl m k) = Z.shiftl (Z.land (Z.shiftr x k) m) k.
Proof.
  intros Hk. apply Z.bits_inj'. intros i Hi. rewrite Z.land_spec. destruct (decide (i < k)).
  - by rewrite !Z.shiftl_spec_low, andb_false_r by lia.
  - rewrite !Z.shiftl_spec, Z.land_spec, Z.shiftr_spec by lia. by replace (i - k + k) with i by lia.
Qed.

Lemma lor_high lo hi k : 0 <= k -> 0 <= lo < 2 ^ k -> Z.lor lo (Z.shiftl hi k) = Z.shiftl hi k + lo.
Proof.
  intros Hk Hlo. assert (Z.land (Z.shiftl hi k) lo = 0) as Hz.
  { rewrite Z.land_comm, land_high by done. rewrite Z.shiftr_div_pow2, Z.div_small by lia. by rewrite Z.land_0_l, Z.shiftl_0_l. }
  by rewrite Z.add_nocarry_lxor, Z.lxor_lor, Z.lor_comm.
Qed.

(** The error of a psynch call is translated and the other 24 bits are kept:
    the caller finds both where Darwin has them. *)
Theorem psynch_errno_split count e : 0 <= count < 2 ^ 23 -> 0 < e < 256 ->
  psynch_errno (- (Z.shiftl count 8 + e)) = - (Z.shiftl count 8 + errno_linux_to_bsd e) ∧ 0 < errno_linux_to_bsd e < 256.
Proof.
  intros Hc He. assert (0 < errno_linux_to_bsd e < 256) as Hr.
  { assert (forallb (λ n, let r := errno_linux_to_bsd (Z.of_nat n) in (0 <? r) && (r <? 256)) (seq 1 255) = true) as Hall by (by vm_compute).
    rewrite forallb_forall in Hall. specialize (Hall (Z.to_nat e)). rewrite Z2Nat.id in Hall by lia.
    assert (In (Z.to_nat e) (seq 1 255)) as Hin by (apply in_seq; lia). specialize (Hall Hin). cbv zeta in Hall. lia. }
  split; [|done]. pose proof (Z.shiftl_nonneg count 8). unfold psynch_errno. rewrite (proj2 (Z.leb_gt _ _)) by lia. rewrite Z.opp_involutive.
  assert (Z.shiftl count 8 = count * 2 ^ 8) as Hsh by (by rewrite Z.shiftl_mul_pow2).
  change 0xff with (Z.ones 8). change 0xffffff00 with (Z.shiftl (Z.ones 24) 8). rewrite land_high, !Z.land_ones by lia.
  rewrite Z.shiftr_div_pow2, Hsh by lia. rewrite Z.div_add_l, Z.div_small, Z.add_0_r, (Z.mod_small count) by lia.
  rewrite (Z.add_comm _ e), Z_mod_plus_full, (Z.mod_small e) by lia. rewrite lor_high by lia. by rewrite Hsh.
Qed.

(** An absolute deadline that has not passed is turned into the time left,
    to the nanosecond of the clock; the seconds fit the trap's argument. *)
Theorem deadline_time_left tv sec nsec : 0 <= tv_s tv < 2 ^ 33 -> 0 <= tv_usec tv < 1000000 -> 0 <= nsec < NSEC_PER_SEC ->
  tv_s tv * NSEC_PER_SEC + tv_usec tv * 1000 < sec * NSEC_PER_SEC + nsec -> sec < tv_s tv + 2 ^ 32 ->
  let '(s, n) := time_left tv sec nsec in
  s * NSEC_PER_SEC + n = sec * NSEC_PER_SEC + nsec - (tv_s tv * NSEC_PER_SEC + tv_usec tv * 1000) ∧ 0 <= n <= NSEC_PER_SEC ∧ 0 <= s < 2 ^ 32.
Proof.
  unfold NSEC_PER_SEC, time_left. intros Hs Hu Hn Hle Hlt. destruct (Z.ltb_spec (tv_usec tv * 1000) nsec).
  - rewrite s32_id, s64_id by (unfold INT_MIN, INT_MAX; lia). lia.
  - assert (u64 (1000000000 + nsec - tv_usec tv * 1000) = 1000000000 + nsec - tv_usec tv * 1000) as -> by (unfold u64; apply Z.mod_small; lia).
    rewrite s32_id, (s64_id (sec - 1)), s64_id by (unfold INT_MIN, INT_MAX; lia). lia.
Qed.

(** A deadline that has passed is not: the negative number of seconds becomes
    an unsigned one, and the thread sleeps for 136 years instead of finding
    that the time is over. *)
Theorem past_deadline_sleeps :
  let now := Timeval 1000 0 in
  time_left now 999 500000000 = (-1, 500000000) ∧
  ∃ k, semaphore_timedwait_trap_impl 7 (-1) 500000000 init_gstate =
    Vis (Lkm (NR_trap "semaphore_timedwait_trap" [7; 4294967295; 500000000])) k.
Proof. split; [by vm_compute|]. by eexists. Qed.

(** Events survive the way to the module and back, except for the members
    that the module's structure does not have. *)
Theorem kevent_round_trip :
  (∀ e, kevent_qos_to_64 (kevent_64_to_qos e) = e) ∧
  (∀ e, kq_qos e = 0 -> kq_ext2 e = 0 -> kq_ext3 e = 0 -> kevent_64_to_qos (kevent_qos_to_64 e) = e) ∧
  ∀ l, words_kevent64 (length l) (l ≫= kevent64_words) = Some l.
Proof.
  split_and!; [by intros []|by intros []; simpl; intros -> -> ->|].
  intros l. induction l as [|e l IH]; [done|]. change ((e :: l) ≫= kevent64_words) with (kevent64_words e ++ (l ≫= kevent64_words)).
  cbn [length kevent64_words app words_kevent64]. rewrite IH. by destruct e.
Qed.

(** A module with one event ready. *)
Definition one_event : handler unit := λ X e s,
  (match e in linuxE X return X with
   | Sys _ _ => 0
   | SysOut _ _ o => (0, zero_out o)
   | Lkm c => match c in lkm_nr Y return Z * Y with
              | NR_trap name args => if decide (name = "kevent64") then (1, kevent64_words (Kevent64 5 (-1) 1 0 64 0 0 0)) else (3, args)
              | c => (0, zero_lkm c)
              end
   end, s).

(** The event that a work queue asks for without a list is stored in a list
    of no bytes. *)
Theorem workq_event_overflows workq :
  run one_event (sys_kevent_qos workq (-1) [] 0 KEVENT_FLAG_WORKQ) init_gstate tt = None ∧
  run one_event (sys_kevent_qos workq 3 [] 1 0) init_gstate tt = Some ((1, [KeventQos 5 (-1) 1 0 0 0 64 0 0 0 0]), init_gstate, tt).
Proof. by vm_compute. Qed.

(** Closing a semaphore passes the low half of its address. *)
Theorem sem_close_truncates calls sem g : 2 ^ 32 <= sem < 2 ^ 47 ->
  sys_sem_close calls sem g = wrapped calls (elf_sem_close calls (s32 sem)) g ∧ s32 sem ≠ sem.
Proof. intros Hs. split; [done|]. unfold s32. pose proof (Z.mod_pos_bound (sem + 2 ^ 31) (2 ^ 32)). lia. Qed.

(** The members of Darwin's structure, as the caller has them in memory. *)
Definition encode_semid (b : bsd_semid_ds) : list ascii :=
  int_bytes (bsem_uid b) ++ int_bytes (bsem_gid b) ++ int_bytes (bsem_cuid b) ++ int_bytes (bsem_cgid b) ++
  short_bytes (bsem_mode b) ++ [NUL; NUL] ++ int_bytes (bsem_base b) ++ short_bytes (bsem_nsems b).

(** IPC_SET hands Darwin's structure to Linux, whose structure has another
    member in front: the group becomes the owner, and the creator the group. *)
Theorem semctl_set_shifted b : 0 <= bsem_gid b < 2 ^ 32 -> 0 <= bsem_cuid b < 2 ^ 32 ->
  (∀ semid semnum g, ∃ k, sys_semctl semid semnum IPC_SET (encode_semid b) g =
     Vis (SysOut __NR_semctl [AInt semid; AInt semnum; AInt 1; ABuf (encode_semid b)] (OBytes 104)) k) ∧
  lsem_uid (decode_semid (encode_semid b)) = bsem_gid b ∧ lsem_gid (decode_semid (encode_semid b)) = bsem_cuid b.
Proof.
  intros Hg Hc. split; [by eexists|]. unfold decode_semid. cbn [lsem_uid lsem_gid].
  change (bytes_at (encode_semid b) 4 4) with (bytes_value (int_bytes (bsem_gid b))).
  change (bytes_at (encode_semid b) 8 4) with (bytes_value (int_bytes (bsem_cuid b))). rewrite !int_value, !u32_id by lia. done.
Qed.
