(* ===== verification/Handles.v ===== *)
(** * File handles

    ext/file_handle.c: a reference to a file that survives renaming, made of
    Linux's file handles.  Where the file system has none, the path is saved
    in a table of 200 entries, and the handle names the entry. *)
From S2P Require Import Prelude Abi Linux Errno Base Simple Readline Vchroot VchrootProofs Fcntl Paths Mounts.

Definition MOUNT_ID_SAVED : Z := -100.
Definition SAVED_REFS : Z := 200.

(** [RefData]: [handle_bytes] shares its place with [index], [handle_type]
    with [gen]. *)
Record RefData := MkRef { mount_id : Z; handle_bytes : Z; handle_type : Z; f_handle : list ascii }.

(** [struct SavedRef]; no path is the null pointer. *)
Record SavedRef := MkSaved { sr_path : option cstr; sr_gen : Z }.

(** [g_savedRefs], [g_nextSavedRef] and [g_nextGen]. *)
Record saved := Saved { g_savedRefs : list SavedRef; g_nextSavedRef : Z; g_nextGen : Z }.

Definition no_refs : saved := Saved (replicate 200 (MkSaved None 0)) 0 0.

(** What is done while the lock is held: the entry, its generation, and the
    table. *)
Definition save_ref (name : cstr) (s : saved) : Z * Z * saved :=
  let gen := g_nextGen s in
  (g_nextSavedRef s, gen,
   Saved (<[Z.to_nat (g_nextSavedRef s) := MkSaved (Some name) gen]> (g_savedRefs s)) ((g_nextSavedRef s + 1) mod SAVED_REFS) (s32 (gen + 1))).

Inductive found : Set := Stale | Found (path : cstr) | Invalid.

(** Neither the index nor the pointer is checked. *)
Definition saved_name (ref : RefData) (s : saved) : found :=
  if (0 <=? handle_bytes ref) && (handle_bytes ref <? SAVED_REFS) then
    match g_savedRefs s !! Z.to_nat (handle_bytes ref) with
    | Some r =>
      if sr_gen r =? handle_type ref then match sr_path r with Some p => Found (strlcpy p 4096) | None => Invalid end else Stale
    | None => Invalid
    end
  else Invalid.

(** [sizeof(RefData) - offsetof(RefData, fh.f_handle)] *)
Definition HANDLE_BYTES : Z := 80 - 12.

(** The 80 bytes of a [RefData] as name_to_handle_at(2) leaves them. *)
Definition decode_ref (mem : list ascii) : RefData :=
  let word off := s32 (bytes_value (take 4 (drop off mem))) in MkRef (word 0%nat) (word 4%nat) (word 8%nat) (drop 12 mem).

Section Handles.
Context `{LoopFuel, IcaseEnabled}.
(** Contents of a local buffer before it is filled. *)
Variable uninit : simple_readline_buf.

(** The result, the reference and the table. *)
Definition sys_name_to_handle (name : cstr) (ref : RefData) (follow : bool) (s : saved) : M (Z * RefData * saved) :=
  wd ← get_perthread_wd;
  '(ret, vc) ← vchroot_expand (VchrootExpandArgs name wd follow);
  if ret <? 0 then mret (errno_linux_to_bsd ret, ref, s)
  else
    let ref := MkRef (mount_id ref) HANDLE_BYTES (handle_type ref) (f_handle ref) in
    '(ret, mem) ← syscall_int_out __NR_name_to_handle_at [AInt LINUX_AT_FDCWD; AStr (vc_path vc); AInt HANDLE_BYTES; AInt 0] (OBytes 80);
    if ret =? - LINUX_EOPNOTSUPP then
      acc ← sys_access name 0;
      if acc =? 0 then
        let '(index, gen, s) := save_ref name s in mret (0, MkRef MOUNT_ID_SAVED index gen (f_handle ref), s)
      else mret (errno_linux_to_bsd ret, ref, s)
    else if ret <? 0 then mret (errno_linux_to_bsd ret, ref, s)
    else mret (ret, decode_ref mem, s).

(** The fifth token of a line of mountinfo, if the first is the number:
    [inl] an error that ends the search. *)
Definition mountinfo_line (id : Z) (line : cstr) : option (Z + cstr) :=
  match strtok_r line with
  | None => None
  | Some (p, rest) =>
    if negb ((__simple_atoi p).1 =? u64 id) then None
    else
      match strtok_r rest with
      | None => Some (inl (- ENOENT))
      | Some (_, rest) =>
        match strtok_r rest with
        | None => Some (inl (- ENOENT))
        | Some (_, rest) =>
          match strtok_r rest with
          | None => Some (inl (- ENOENT))
          | Some (_, rest) => match strtok_r rest with None => Some (inl (- ENOENT)) | Some (p, _) => Some (inr p) end
          end
        end
      end
  end.

(** The loop over the lines, read with a buffer of 1024 bytes. *)
Fixpoint mountinfo_loop (fuel : nat) (fd : Z) (b : simple_readline_buf) (id : Z) : M (Z + cstr) :=
  match fuel with
  | O => out_of_fuel
  | S fuel =>
    '(r, b) ← __simple_readline fd b 1024;
    match r with
    | RL_line line => match mountinfo_line id line with Some res => mret res | None => mountinfo_loop fuel fd b id end
    | RL_null => mret (inl (- ENOENT))
    | RL_undefined => undefined
    end
  end.

(** Find the mount point, and go on with it. *)
Definition with_mount {A} (fail : Z -> A) (id : Z) (k : cstr -> M A) : M A :=
  fd_m ← sys_open (Some (s2c "/proc/self/mountinfo")) BSD_O_RDONLY 0;
  if fd_m <? 0 then mret (fail fd_m)
  else
    res ← mountinfo_loop loop_fuel fd_m (__simple_readline_init uninit) id;
    close_internal fd_m;;
    match res with inl e => mret (fail e) | inr path => k path end.

(** The path the module answers with, byte by byte. *)
Definition handle_to_path (mfd : Z) (ref : RefData) : M (Z * cstr) :=
  '(ret, bytes) ← lkm_call (NR_trap "handle_to_path" ([mfd; handle_bytes ref; handle_type ref] ++ (byte_val <$> f_handle ref)));
  mret (ret, c_str (byte_of <$> bytes)).

(** The result and what is stored at [name]. *)
Definition sys_handle_to_name (ref : RefData) (s : saved) : M (Z * option cstr) :=
  if mount_id ref =? MOUNT_ID_SAVED then
    match saved_name ref s with
    | Found name => ret ← sys_access name 0; mret (ret, Some name)
    | Stale => mret (- ENOENT, None)
    | Invalid => undefined
    end
  else
    with_mount (λ e, (e, None)) (mount_id ref) (λ mount_path,
      fd_m ← syscall_int __NR_open [AStr mount_path; AInt LINUX_O_RDONLY; AInt 0];
      if fd_m <? 0 then mret (fd_m, None)
      else
        '(ret, path) ← handle_to_path fd_m ref;
        close_internal fd_m;;
        if ret <? 0 then mret (errno_linux_to_bsd ret, None)
        else
          '(ret, path) ← vchroot_unexpand path;
          if ret <? 0 then mret (errno_linux_to_bsd ret, None) else mret (0, Some path)).

Definition sys_open_by_handle (ref : RefData) (flags : Z) : M Z :=
  let linux_flags := oflags_bsd_to_linux flags in
  with_mount id (mount_id ref) (λ mount_path,
    fd_m ← sys_open (Some mount_path) BSD_O_RDONLY 0;
    if fd_m <? 0 then mret fd_m
    else
      ret ← syscall_int __NR_open_by_handle_at
        [AInt fd_m; ABuf (int_bytes (handle_bytes ref) ++ int_bytes (handle_type ref) ++ f_handle ref); AInt linux_flags];
      close_internal fd_m;;
      mret (bsd_ret ret)).
End Handles.

(** ** Saved paths *)

(** The table after paths were saved one after the other, and the reference
    that the [j]th of them got. *)
Definition save_all (names : list cstr) : saved := foldl (λ s name, (save_ref name s).2) no_refs names.

Definition nth_ref (names : list cstr) (j : nat) (h : list ascii) : RefData :=
  let '(index, gen, _) := save_ref (default [] (names !! j)) (save_all (take j names)) in MkRef MOUNT_ID_SAVED index gen h.

Record table_of (names : list cstr) (s : saved) : Prop := TableOf {
  to_length : length (g_savedRefs s) = 200%nat;
  to_next : g_nextSavedRef s = Z.of_nat (length names) mod 200;
  to_gen : g_nextGen s = Z.of_nat (length names);
  to_entry : ∀ j name, names !! j = Some name -> (length names - j <= 200)%nat ->
    g_savedRefs s !! (j mod 200)%nat = Some (MkSaved (Some name) (Z.of_nat j)) }.

Lemma mod_index j : Z.to_nat (Z.of_nat j mod 200) = (j mod 200)%nat.
Proof. change 200 with (Z.of_nat 200) at 1. rewrite <- Nat2Z.inj_mod. apply Nat2Z.id. Qed.

Lemma mod_differs i j : (i < j)%nat -> (j - i < 200)%nat -> (i mod 200 ≠ j mod 200)%nat.
Proof.
  intros Hlt Hd E. pose proof (Nat.div_mod_eq i 200) as Hi. pose proof (Nat.div_mod_eq j 200) as Hj. rewrite E in Hi.
  assert (i / 200 <= j / 200)%nat by (apply Nat.Div0.div_le_mono; lia). assert (i / 200 = j / 200)%nat by nia. lia.
Qed.

Lemma save_all_table names : Z.of_nat (length names) <= INT_MAX -> table_of names (save_all names).
Proof.
  unfold INT_MAX. induction names as [|name names IH] using rev_ind; intros Hl; [split; done|]. rewrite length_app in Hl. simpl in Hl.
  destruct IH as [Hlen Hnext Hgen Hent]; [lia|]. unfold save_all in *. rewrite foldl_app. cbn [foldl]. set (s := foldl _ no_refs names) in *.
  split; cbn [save_ref snd g_savedRefs g_nextSavedRef g_nextGen].
  - by rewrite length_insert.
  - rewrite Hnext, length_app. unfold SAVED_REFS. simpl length. rewrite Zplus_mod_idemp_l. f_equal. lia.
  - rewrite Hgen, length_app. simpl. rewrite s32_id by (unfold INT_MIN, INT_MAX; lia). lia.
  - intros j name' Hj Hd. rewrite length_app in Hd. simpl in Hd. rewrite Hnext, mod_index, Hgen.
    apply lookup_app_Some in Hj as [Hj|[Hge Hj]].
    + assert (j < length names)%nat by (by eapply lookup_lt_Some). rewrite list_lookup_insert_ne; [apply Hent; [done|lia]|].
      intros E. eapply mod_differs; [| |symmetry; exact E]; lia.
    + apply list_lookup_singleton_Some in Hj as [Hz <-]. replace j with (length names) by lia. apply list_lookup_insert_eq.
      rewrite Hlen. by apply Nat.mod_upper_bound.
Qed.

Lemma nth_ref_eq names j h : (j < length names)%nat -> Z.of_nat (length names) <= INT_MAX ->
  nth_ref names j h = MkRef MOUNT_ID_SAVED (Z.of_nat j mod 200) (Z.of_nat j) h.
Proof.
  intros Hj Hl. unfold nth_ref. cbn [save_ref]. destruct (save_all_table (take j names)) as [_ -> -> _]; [rewrite length_take; lia|].
  by rewrite length_take_le by lia.
Qed.

(** C37: a path that was saved because its file system has no handles is found
    under its handle, cut to what the caller's buffer holds, until 200 more
    paths have been saved, and from then on the handle is known to be stale:
    it never finds the path of another file, although the entry is used
    again.  (One thread at a time saves paths, at most INT_MAX of them.) *)
Theorem saved_ref_lifetime names j name h : Z.of_nat (length names) <= INT_MAX -> names !! j = Some name ->
  saved_name (nth_ref names j h) (save_all names) = if (length names - j <=? 200)%nat then Found (strlcpy name 4096) else Stale.
Proof.
  intros Hl Hj. assert (j < length names)%nat as Hlt by (by eapply lookup_lt_Some). rewrite nth_ref_eq by done.
  destruct (save_all_table names Hl) as [Hlen Hnext Hgen Hent]. unfold saved_name, SAVED_REFS. cbn [handle_bytes handle_type].
  pose proof (Z.mod_pos_bound (Z.of_nat j) 200). rewrite (proj2 (andb_true_iff _ _)) by lia. rewrite mod_index.
  destruct (Nat.leb_spec (length names - j) 200) as [Hd|Hd].
  - rewrite (Hent j name) by done. cbn. by rewrite Z.eqb_refl.
  - set (i := (length names - 1 - (length names - 1 - j) mod 200)%nat).
    pose proof (Nat.mod_upper_bound (length names - 1 - j) 200 ltac:(lia)). pose proof (Nat.div_mod_eq (length names - 1 - j) 200) as Hdm.
    assert (i mod 200 = j mod 200)%nat as Hij.
    { replace i with (j + (length names - 1 - j) / 200 * 200)%nat by lia. by rewrite Nat.Div0.mod_add. }
    destruct (lookup_lt_is_Some_2 names i) as [other Hi]; [lia|]. rewrite <- Hij, (Hent i other) by (done || lia). cbn.
    rewrite (proj2 (Z.eqb_neq _ _)) by lia. done.
Qed.

Lemma saved_ref_lifetime_witness :
  saved_name (nth_ref [s2c "/a"; s2c "/b"; s2c "/a"] 1 []) (save_all [s2c "/a"; s2c "/b"; s2c "/a"]) = Found (s2c "/b") ∧
  saved_name (nth_ref (replicate 201 (s2c "/a")) 0 []) (save_all (replicate 201 (s2c "/a"))) = Stale.
Proof.
  split; [apply (saved_ref_lifetime [s2c "/a"; s2c "/b"; s2c "/a"] 1 (s2c "/b") []); [vm_compute; congruence|reflexivity]|].
  apply (saved_ref_lifetime (replicate 201 (s2c "/a")) 0 (s2c "/a") []); [vm_compute; congruence|reflexivity].
Defined.

(** An entry that was never used has generation 0 and no path: a handle that
    says so is followed to the null pointer. *)
Theorem unused_ref_invalid : saved_name (MkRef MOUNT_ID_SAVED 5 0 []) (save_all [s2c "/a"]) = Invalid.
Proof. by vm_compute. Qed.
