(* ===== verification/Spawn.v ===== *)
(** * posix_spawn

    process/posix_spawn.c and the part of mach/lkm.c a new process goes
    through.  The call forks; the child applies attributes and file actions
    and executes the program, and reports a failure to the parent as four
    bytes in a pipe.  With POSIX_SPAWN_SETEXEC there is no fork.

    The properties are about descriptors, so that the host has state here:
    [hoare] is the partial correctness logic of programs on a host that is a
    relation between requests, responses and states. *)
From S2P Require Import Prelude Abi Linux Errno Base Simple Vchroot VchrootProofs Signals Fcntl Paths Process Unistd.

Definition POSIX_SPAWN_RESETIDS : Z := 0x0001.
Definition POSIX_SPAWN_SETPGROUP : Z := 0x0002.
Definition POSIX_SPAWN_SETSIGMASK : Z := 0x0008.
Definition POSIX_SPAWN_SETEXEC : Z := 0x0040.
Definition POSIX_SPAWN_START_SUSPENDED : Z := 0x0080.
Definition _POSIX_SPAWN_DISABLE_ASLR : Z := 0x0100.
Definition POSIX_SPAWN_CLOEXEC_DEFAULT : Z := 0x4000.
Definition LINUX_ADDR_NO_RANDOMIZE : Z := 0x40000.

Record posix_spawnattr := PosixSpawnattr {
  psa_flags : Z; psa_sigmask : Z; psa_pgroup : Z; psa_binprefs : Z * Z * Z * Z }.

(** One action; [filedes] is the member that shares its place with the port.
    [PSFA_other] stands for PSFA_FILEPORT_DUP2 and unknown types. *)
Inductive psfa_action : Set :=
| PSFA_OPEN (filedes oflag mode : Z) (path : cstr)
| PSFA_CLOSE (filedes : Z)
| PSFA_DUP2 (filedes newfiledes : Z)
| PSFA_INHERIT (filedes : Z)
| PSFA_CHDIR (filedes : Z) (path : cstr)
| PSFA_FCHDIR (filedes : Z)
| PSFA_other (filedes : Z).

Definition psfaa_filedes (act : psfa_action) : Z :=
  match act with
  | PSFA_OPEN fd _ _ _ | PSFA_CLOSE fd | PSFA_DUP2 fd _ | PSFA_INHERIT fd | PSFA_CHDIR fd _ | PSFA_FCHDIR fd | PSFA_other fd => fd
  end.

Record posix_spawn_args_desc := PosixSpawnArgsDesc { attrp : option posix_spawnattr; factp : option (list psfa_action) }.

(** ** mach/lkm.c: mach_driver_init(NULL)

    [dyld_fd] is the descriptor dyld keeps, [version] the one of lkm/api.h;
    [sys_kill] is declared with two parameters there and has a third. *)
Definition set_driver_fd (fd : Z) (g : gstate) : gstate :=
  GState (g_prefix_path g) (g_prefix_path_len g) (g_wd g) (g_uses_threads g) fd (g_sa_tramp g)
         (g_sig_handlers g) (g_sig_flags g) (g_sig_masks g) (g_caches g).

Definition api_message : cstr := s2c "Darling Mach kernel module reports different API level. Aborting." ++ [NEWLINE].

Definition mach_driver_init (dyld_fd version garbage : Z) : M unit :=
  modify_state (set_driver_fd dyld_fd);;
  '(v, _) ← lkm_call (NR_trap "get_api_version" []);
  if v =? version then mret tt
  else sys_write 2 api_message (strlen api_message);; sys_kill 0 6 garbage;; mret tt.

(** ** The child *)

Section Spawn.
Context `{LoopFuel, IcaseEnabled}.
(** As for [sys_execve], [mach_driver_init] and [sys_exit]. *)
Context (LINUX_SIGRTMIN : Z) (stack : list ascii) (dyld_fd version garbage : Z) (native_exit : Z -> M unit).

(** [goto fail] with a value of [ret], or going on. *)
Definition failing (ret : Z) (k : M (option Z)) : M (option Z) := if ret <? 0 then mret (Some ret) else k.

(** Set FD_CLOEXEC on the descriptors of one batch of entries. *)
Fixpoint cloexec_entries (dir : Z) (des : list linux_dirent64) (i len : Z) : M (option Z) :=
  if i <? len then
    match des with
    | [] => undefined
    | de :: des =>
      let next := cloexec_entries dir des (i + ld_reclen de) len in
      if bool_decide (head (ld_name de) = Some "."%char) then next
      else
        let fd := s32 (__simple_atoi (ld_name de)).1 in
        if fd =? 1023 then next
        else
          '(ret, _) ← sys_fcntl fd F_GETFD (FInt 0);
          if ret <? 0 then close_internal dir;; mret (Some ret)
          else
            '(ret, _) ← sys_fcntl fd F_SETFD (FInt (Z.lor ret FD_CLOEXEC));
            if ret <? 0 then close_internal dir;; mret (Some ret) else next
    end
  else mret None.

Fixpoint cloexec_loop (fuel : nat) (dir : Z) : M (option Z) :=
  match fuel with
  | O => out_of_fuel
  | S fuel =>
    '(len, des) ← syscall_int_out __NR_getdents64 [AInt dir; AInt 4096] (ODirents 4096);
    if 0 <? len then
      r ← cloexec_entries dir des 0 len;
      match r with Some ret => mret (Some ret) | None => cloexec_loop fuel dir end
    else close_internal dir;; if len <? 0 then mret (Some len) else mret None
  end.

Definition cloexec_default : M (option Z) :=
  dir ← sys_open (Some (s2c "/proc/self/fd")) BSD_O_RDONLY 0;
  if dir <? 0 then mret (Some dir) else cloexec_loop loop_fuel dir.

(** The attributes, in the order of the source. *)
Definition spawn_attributes (a : posix_spawnattr) : M (option Z) :=
  let flags := psa_flags a in
  (if has flags POSIX_SPAWN_RESETIDS
   then gid ← sys_getgid; sys_setgid gid;; uid ← sys_getuid; sys_setuid uid;; mret tt else mret tt);;
  ret ← (if has flags POSIX_SPAWN_SETPGROUP then sys_setpgid 0 (psa_pgroup a) else mret 0);
  if negb (ret =? 0) then mret (Some ret)
  else
    ret ← (if has flags POSIX_SPAWN_SETSIGMASK then '(ret, _) ← sys_sigprocmask 3 (Some (psa_sigmask a)); mret ret else mret 0);
    if negb (ret =? 0) then mret (Some ret)
    else
      (if has flags _POSIX_SPAWN_DISABLE_ASLR
       then
         pers ← LINUX_SYSCALL __NR_personality [AInt 0xffffffff];
         let pers := u32 pers in
         if has pers LINUX_ADDR_NO_RANDOMIZE then mret tt
         else LINUX_SYSCALL __NR_personality [AInt (Z.lor pers LINUX_ADDR_NO_RANDOMIZE)];; mret tt
       else mret tt);;
      (if has flags POSIX_SPAWN_START_SUSPENDED then lkm_call (NR_trap "stop_after_exec" []);; mret tt else mret tt);;
      if has flags POSIX_SPAWN_CLOEXEC_DEFAULT then cloexec_default else mret None.

(** Whether an action names the writing end of the pipe. *)
Definition names_pipe (act : psfa_action) (pipe1 : Z) : bool :=
  (psfaa_filedes act =? pipe1) || match act with PSFA_DUP2 _ new => new =? pipe1 | _ => false end.

Definition perform (act : psfa_action) : M (option Z) :=
  match act with
  | PSFA_CLOSE fd => ret ← close_internal fd; mret (if ret =? 0 then None else Some ret)
  | PSFA_DUP2 fd new => ret ← sys_dup2 fd new; failing ret (mret None)
  | PSFA_OPEN filedes oflag mode path =>
    ret ← sys_open (Some path) oflag mode;
    failing ret (
      if ret =? filedes then mret None
      else
        let fd := ret in
        ret ← sys_dup2 fd filedes;
        if ret <? 0 then close_internal fd;; mret (Some ret) else mret None)
  | PSFA_CHDIR _ path => ret ← sys_chdir path; failing ret (mret None)
  | PSFA_FCHDIR fd => ret ← sys_fchdir fd; failing ret (mret None)
  | PSFA_INHERIT fd =>
    '(ret, _) ← sys_fcntl fd F_GETFD (FInt 0);
    failing ret ('(ret, _) ← sys_fcntl fd F_SETFD (FInt (Z.ldiff ret FD_CLOEXEC)); failing ret (mret None))
  | PSFA_other _ => mret None
  end.

(** One turn of the loop: the writing end, and the error. *)
Definition file_action (pipe1 : Z) (act : psfa_action) : M (Z * option Z) :=
  if names_pipe act pipe1 then
    ret ← sys_dup pipe1;
    if ret <? 0 then mret (pipe1, Some ret)
    else close_internal pipe1;; r ← perform act; mret (ret, r)
  else r ← perform act; mret (pipe1, r).

Fixpoint file_actions (pipe1 : Z) (acts : list psfa_action) : M (Z * option Z) :=
  match acts with
  | [] => mret (pipe1, None)
  | act :: acts =>
    '(pipe1, r) ← file_action pipe1 act;
    match r with Some ret => mret (pipe1, Some ret) | None => file_actions pipe1 acts end
  end.

(** The environment with the preferred architectures, in an array of 64
    bytes. *)
Definition binprefs_text (p : Z * Z * Z * Z) : option cstr :=
  let '(a, b, c, d) := p in
  '(n, text) ← __simple_sprintf (s2c "__mldr_bprefs=%x,%x,%x,%x") [VNum a; VNum b; VNum c; VNum d] 128;
  if n <? 64 then Some text else None.

Definition spawn_env (a : option posix_spawnattr) (envp : list cstr) : M (list cstr) :=
  match a with
  | Some a =>
    if (psa_binprefs a).1.1.1 =? 0 then mret envp else text ← defined (binprefs_text (psa_binprefs a)); mret (text :: envp)
  | None => mret envp
  end.

(** From the label [no_fork] to the label [fail]: the writing end of the pipe
    and the value of [ret]. *)
Definition spawn_child (pipe1 : Z) (path : cstr) (desc : posix_spawn_args_desc) (argv : list cstr) (beyond : option cstr)
    (envp : list cstr) : M (Z * Z) :=
  r ← match attrp desc with Some a => spawn_attributes a | None => mret None end;
  match r with
  | Some ret => mret (pipe1, ret)
  | None =>
    '(pipe1, r) ← match factp desc with Some acts => file_actions pipe1 acts | None => mret (pipe1, None) end;
    match r with
    | Some ret => mret (pipe1, ret)
    | None =>
      env ← spawn_env (attrp desc) envp;
      ret ← sys_execve LINUX_SIGRTMIN stack path argv beyond (AArgv env);
      mret (pipe1, ret)
    end
  end.

(** [sys_write(pipe[1], &ret, sizeof(ret))] *)
Definition spawn_report (pipe1 ret : Z) : M Z := sys_write pipe1 (int_bytes ret) 4.

(** What the parent makes of the pipe. *)
Definition spawn_wait (pipe0 : Z) : M Z :=
  '(n, data) ← sys_read pipe0 4;
  mret (if n =? 4 then s32 (bytes_value (take 4 data)) else 0).

(** The call returns, with what it stores behind [pid], or the process has
    ended. *)
Inductive spawn_end : Set := Returned (ret : Z) (pid : option Z) | Ended.

Definition sys_posix_spawn (path : cstr) (desc : posix_spawn_args_desc) (argv : list cstr) (beyond : option cstr)
    (envp : list cstr) : M spawn_end :=
  if match attrp desc with Some a => has (psa_flags a) POSIX_SPAWN_SETEXEC | None => false end then
    '(_, ret) ← spawn_child (-1) path desc argv beyond envp;
    mret (Returned (errno_linux_to_bsd ret) None)
  else
    '(ret, fds) ← syscall_int_out __NR_pipe2 [AInt LINUX_O_CLOEXEC] (OBytes 8);
    if ret <? 0 then mret (Returned ret None)
    else
      let pipe0 := s32 (bytes_value (take 4 fds)) in
      let pipe1 := s32 (bytes_value (take 4 (drop 4 fds))) in
      my_pid ← sys_fork;
      if my_pid =? 0 then
        mach_driver_init dyld_fd version garbage;;
        close_internal pipe0;;
        '(pipe1, ret) ← spawn_child pipe1 path desc argv beyond envp;
        spawn_report pipe1 ret;;
        sys_exit native_exit 127;;
        mret Ended
      else
        close_internal pipe1;;
        if my_pid <? 0 then mret (Returned my_pid None)
        else
          ret ← spawn_wait pipe0;
          close_internal pipe0;;
          mret (Returned ret (Some my_pid)).
End Spawn.

(** ** Descriptors

    What each open descriptor refers to, and the bytes in one pipe. *)
Record fdstate := Fdstate { fds : Z -> option Z; pipe : list ascii }.

(** Requests that close, replace or write nothing. *)
Definition gentle {X : Set} (e : linuxE X) : bool :=
  match e with Sys nr _ => negb ((nr =? __NR_close) || (nr =? __NR_dup2) || (nr =? __NR_write)) | _ => true end.

(** The rules of a system where object [P] is the pipe and nobody cancels the
    thread: descriptors stay open until they are closed or replaced, new ones
    have unused numbers, dup2 needs an open source, and a write to the pipe
    appends to it. *)
Record fd_rules (P : Z) (H : ∀ X : Set, linuxE X -> fdstate -> X -> fdstate -> Prop) : Prop := FdRules {
  fr_gentle : ∀ (X : Set) (e : linuxE X) k x k', gentle e = true -> H X e k x k' ->
    pipe k' = pipe k ∧ ∀ fd, fds k fd ≠ None -> fds k' fd = fds k fd;
  fr_new : ∀ nr args k x k', nr = __NR_open ∨ nr = __NR_openat ∨ nr = __NR_dup -> H Z (Sys nr args) k x k' ->
    0 <= s32 x -> fds k (s32 x) = None;
  fr_dup : ∀ fd k x k', H Z (Sys __NR_dup [AInt fd]) k x k' -> 0 <= s32 x -> fds k' (s32 x) = fds k fd;
  fr_close : ∀ fd k x k', H Z (Sys __NR_close [AInt fd]) k x k' ->
    pipe k' = pipe k ∧ fds k' fd = None ∧ ∀ fd', fd' ≠ fd -> fds k' fd' = fds k fd';
  fr_dup2 : ∀ a b k x k', H Z (Sys __NR_dup2 [AInt a; AInt b]) k x k' ->
    pipe k' = pipe k ∧ ∀ fd, fd ≠ b ∨ fds k a = None -> fds k' fd = fds k fd;
  fr_write : ∀ fd buf n k x k', H Z (Sys __NR_write [AInt fd; ABuf buf; AInt n]) k x k' -> fds k fd = Some P ->
    pipe k' = pipe k ++ ztake n buf;
  fr_closing : ∀ fd k x k', H _ (Lkm (NR_closing_descriptor fd)) k x k' -> ∀ fd', fds k' fd' = fds k fd';
  fr_canceled : ∀ k r k', H _ (Lkm (NR_pthread_canceled 0)) k r k' -> bsd_ret (bsd_ret (s32 r.1)) ≠ 0 }.

Section Pipe.
Context (P : Z) (H : ∀ X : Set, linuxE X -> fdstate -> X -> fdstate -> Prop) (R : fd_rules P H).

(** Descriptor [w] is the pipe, which holds the bytes [c]. *)
Definition owns (w : Z) (c : list ascii) (k : fdstate) : Prop := 0 <= w ∧ fds k w = Some P ∧ pipe k = c.

(** A program that leaves the pipe alone, whatever its descriptor is. *)
Definition kept {A} (m : M A) : Prop := ∀ g k w c, owns w c k -> hoare H m g k (λ _ _ k', owns w c k').

Lemma kept_ret {A} (a : A) : kept (mret a).
Proof. by intros g k w c. Qed.

Lemma kept_bind {A B} (m : M A) (f : A -> M B) : kept m -> (∀ a, kept (f a)) -> kept (m ≫= f).
Proof. intros Hm Hf g k w c Hk. apply hoare_bind. eapply hoare_mono; [|by apply Hm]. intros a g' k' Hk'. by apply Hf. Qed.

Lemma gentle_owns {X : Set} (e : linuxE X) k x k' w c : gentle e = true -> H X e k x k' -> owns w c k -> owns w c k'.
Proof.
  intros He Hx (Hw0 & Hw & Hc). destruct (fr_gentle _ _ R X e k x k' He Hx) as [Hp Hf]. split_and!; [done|rewrite Hf; [done|by rewrite Hw]|by rewrite Hp].
Qed.

Lemma kept_trigger {X : Set} (e : linuxE X) : gentle e = true -> kept (trigger e).
Proof. intros He g k w c Hk. apply hoare_trigger. intros x k' Hx. by eapply gentle_owns. Qed.

Lemma kept_stuck {A} (s : stuck) : kept (λ _, Stuck s : prog (A * gstate)).
Proof. by intros g k w c. Qed.

Lemma kept_if {A} (b : bool) (m1 m2 : M A) : kept m1 -> kept m2 -> kept (if b then m1 else m2).
Proof. by destruct b. Qed.

Lemma kept_state : kept get_state.
Proof. by intros g k w c. Qed.

Lemma kept_modify f : kept (modify_state f).
Proof. by intros g k w c. Qed.

Lemma kept_defined {A} (o : option A) : kept (defined o).
Proof. destruct o; [apply kept_ret|apply kept_stuck]. Qed.

(** A new descriptor is not the pipe's; closing it is harmless. *)
Lemma open_owns nr args k x k' w c : nr = __NR_open ∨ nr = __NR_openat ∨ nr = __NR_dup -> H Z (Sys nr args) k x k' ->
  owns w c k -> owns w c k' ∧ s32 x ≠ w.
Proof.
  intros Hn Hx Hk. split; [eapply gentle_owns; [|exact Hx|done]; by destruct Hn as [->|[->| ->]]|].
  intros E. destruct Hk as (Hw & Hk & _). pose proof (fr_new _ _ R _ _ _ _ _ Hn Hx ltac:(lia)) as Hnew. rewrite E in Hnew. congruence.
Qed.

Lemma close_owns fd k x k' w c : H Z (Sys __NR_close [AInt fd]) k x k' -> fd ≠ w -> owns w c k -> owns w c k'.
Proof.
  intros Hx Hne (Hw0 & Hw & Hc). destruct (fr_close _ _ R _ _ _ _ Hx) as (Hp & _ & Hf). split_and!; [done|by rewrite Hf; auto|by rewrite Hp].
Qed.

Lemma close_hoare fd g k w c : owns w c k -> fd ≠ w -> hoare H (close_internal fd) g k (λ _ _ k', owns w c k').
Proof. intros Hk Hne. unfold close_internal, syscall_int. apply hoare_bind, hoare_bind, hoare_trigger. intros x k' Hx. by eapply close_owns. Qed.
End Pipe.

(** Decompose a program into its requests. *)
Ltac kept_step R :=
  lazymatch goal with
  | |- kept _ _ (mret _) => apply kept_ret
  | |- kept _ _ (_ ≫= _) => apply kept_bind; [|intros ?]
  | |- kept _ _ (trigger _) => apply (kept_trigger _ _ R); done
  | |- kept _ _ (LINUX_SYSCALL _ _) => apply (kept_trigger _ _ R); done
  | |- kept _ _ (LINUX_SYSCALL_out _ _ _) => apply (kept_trigger _ _ R); done
  | |- kept _ _ (syscall_int _ _) => unfold syscall_int
  | |- kept _ _ (syscall_int_out _ _ _) => unfold syscall_int_out
  | |- kept _ _ (lkm_call _) => unfold lkm_call
  | |- kept _ _ get_state => apply kept_state
  | |- kept _ _ (modify_state _) => apply kept_modify
  | |- kept _ _ undefined => apply kept_stuck
  | |- kept _ _ out_of_fuel => apply kept_stuck
  | |- kept _ _ (defined _) => apply kept_defined
  | |- kept _ _ (let '(_, _) := ?x in _) => destruct x
  | |- kept _ _ (if ?b then _ else _) => destruct b
  | |- kept _ _ (match ?x with _ => _ end) => destruct x
  | |- kept _ _ _ => fail
  end.
Ltac kept_auto R := repeat (cbv zeta; kept_step R).

(** It is enough that the program leaves the pipe alone. *)
Ltac by_kept := lazymatch goal with Hk : owns ?P _ _ ?k |- hoare ?H ?m _ ?k _ => let E := fresh in enough (kept P H m) as E by (by apply E) end.

Section Kept.
Context `{LoopFuel, IcaseEnabled}.
Context (P : Z) (H1 : ∀ X : Set, linuxE X -> fdstate -> X -> fdstate -> Prop) (R : fd_rules P H1).
Abbreviation keep := (kept P H1).

(** *** Path resolution *)

Lemma find_icase_kept fuel dfd name : keep (find_icase fuel dfd name).
Proof. induction fuel as [|fuel IH]; cbn [find_icase]; kept_auto R; done. Qed.

Lemma icase_lookup_kept prevlen cx : keep (icase_lookup prevlen cx).
Proof.
  intros g k w c Hk. unfold icase_lookup, syscall_int. apply hoare_bind, hoare_bind, hoare_trigger. intros x k' Hx.
  destruct (open_owns _ _ R _ _ _ _ _ w c (or_introl eq_refl) Hx Hk) as [Hk' Hne]. apply hoare_bind.
  eapply hoare_mono; [|apply (kept_if P H1); [apply kept_ret| |exact Hk']].
  2:{ apply kept_bind; [apply find_icase_kept|intros ?; apply kept_ret]. }
  intros cx' g' k2 Hk2. apply hoare_bind, hoare_trigger. intros y k3 Hy. by eapply close_owns.
Qed.

Lemma follow_symlink_kept pp pl run prevlen cx : (∀ p cx, keep (run p cx)) -> keep (follow_symlink pp pl run prevlen cx).
Proof. intros Hrun. unfold follow_symlink. kept_auto R; apply Hrun. Qed.

Lemma run_component_kept pp pl run comp more cx : (∀ p cx, keep (run p cx)) -> keep (run_component pp pl run comp more cx).
Proof. intros Hrun. unfold run_component. kept_auto R; [apply icase_lookup_kept|by apply follow_symlink_kept]. Qed.

Lemma components_loop_kept pp pl run n input cx : (∀ p cx, keep (run p cx)) -> keep (components_loop pp pl run n input cx).
Proof.
  intros Hrun. revert input cx. induction n as [|n IH]; intros input cx; cbn [components_loop]; kept_auto R; [by apply run_component_kept|apply IH].
Qed.

Lemma vchroot_run_kept pp pl d input cx : keep (vchroot_run pp pl d input cx).
Proof. revert input cx. induction d as [|d IH]; intros input cx; cbn [vchroot_run]; kept_auto R; by apply components_loop_kept. Qed.

Lemma vchroot_expand_kept args : keep (vchroot_expand args).
Proof. unfold vchroot_expand, ensure_prefix, init_vchroot_path, readlink_4096. kept_auto R; apply vchroot_run_kept. Qed.
End Kept.

Section Actions.
Context `{LoopFuel, IcaseEnabled}.
Context (P : Z) (H1 : ∀ X : Set, linuxE X -> fdstate -> X -> fdstate -> Prop) (R : fd_rules P H1).
Abbreviation keep := (kept P H1).

(** *** Calls of the child *)

(** The result is not the pipe's descriptor. *)
Definition news (m : M Z) : Prop := ∀ g k w c, owns P w c k -> hoare H1 m g k (λ r _ k', owns P w c k' ∧ r ≠ w).

Lemma news_bind {A} (m : M A) f : keep m -> (∀ a, news (f a)) -> news (m ≫= f).
Proof. intros Hm Hf g k w c Hk. apply hoare_bind. eapply hoare_mono; [|by apply Hm]. intros a g' k' Hk'. by apply Hf. Qed.

Lemma news_neg r : r < 0 -> news (mret r).
Proof. intros Hr g k w c Hk. split; [done|]. destruct Hk. lia. Qed.

Lemma news_open nr args : nr = __NR_open ∨ nr = __NR_openat ∨ nr = __NR_dup -> news (ret ← syscall_int nr args; mret (bsd_ret ret)).
Proof.
  intros Hn g k w c Hk. unfold syscall_int. apply hoare_bind, hoare_bind, hoare_trigger. intros x k' Hx.
  destruct (open_owns _ _ R _ _ _ _ _ w c Hn Hx Hk) as [Hk' Hne]. split; [done|]. unfold bsd_ret.
  destruct (Z.ltb_spec (s32 x) 0); [|done]. pose proof (errno_negative (s32 x)). destruct Hk. lia.
Qed.

Lemma kept_canceled : keep (sys_pthread_canceled 0).
Proof. unfold sys_pthread_canceled. kept_auto R. Qed.

Lemma news_cancelable (m : M Z) : news m -> news (CANCELATION_POINT id m).
Proof.
  intros Hm. unfold CANCELATION_POINT. apply news_bind; [apply kept_canceled|]. intros a. destruct (a =? 0); [by apply news_neg|done].
Qed.

Lemma sys_open_news path flags mode : news (sys_open path flags mode).
Proof.
  apply news_cancelable. unfold sys_open_nocancel, sys_openat_nocancel. apply news_bind; [unfold get_perthread_wd; kept_auto R|]. intros wd.
  destruct path as [path|]; [|by apply news_neg]. cbv zeta. apply news_bind; [unfold atfd, get_perthread_wd; kept_auto R|]. intros dfd.
  unfold expanding. apply news_bind; [by apply vchroot_expand_kept|]. intros [ret vc]. destruct (Z.ltb_spec ret 0); [apply news_neg, errno_negative; lia|].
  apply news_open. auto.
Qed.

Lemma fcntl_kept fd cmd a : keep (sys_fcntl fd cmd (FInt a)).
Proof.
  unfold sys_fcntl, CANCELATION_POINT, sys_fcntl_nocancel, fcntl_int. apply kept_bind; [apply kept_canceled|]. intros x. kept_auto R.
Qed.

Lemma dup2_hoare a b g k w c : owns P w c k -> b ≠ w ∨ fds k a = None ->
  hoare H1 (sys_dup2 a b) g k (λ _ _ k', owns P w c k').
Proof.
  intros Hk Hab.
  assert (∀ g k, owns P w c k -> b ≠ w ∨ fds k a = None ->
    hoare H1 (ret ← syscall_int __NR_dup2 [AInt a; AInt b]; mret (bsd_ret ret)) g k (λ _ _ k', owns P w c k')) as Hd.
  { clear g k Hk Hab. intros g k (Hw & Hf & Hp) Hab. unfold syscall_int. apply hoare_bind, hoare_bind, hoare_trigger. intros x k' Hx.
    destruct (fr_dup2 _ _ R _ _ _ _ _ Hx) as [Hp' Hf']. split_and!; [done|rewrite Hf'; [done|]|by rewrite Hp'].
    destruct Hab; [left; by intros ->|by right]. }
  unfold sys_dup2. apply hoare_bind. destruct (a =? b); [by apply Hd|].
  unfold lkm_call. apply hoare_bind, hoare_bind, hoare_trigger. intros x k' Hx. destruct x as [r []]. apply Hd.
  - by eapply (gentle_owns _ _ R); [|exact Hx|].
  - by rewrite (fr_closing _ _ R _ _ _ _ Hx).
Qed.

(** *** File actions *)

(** The action does not take the pipe's descriptor away. *)
Definition spares (act : psfa_action) (w : Z) (k : fdstate) : Prop :=
  match act with
  | PSFA_CLOSE fd | PSFA_OPEN fd _ _ _ => fd ≠ w
  | PSFA_DUP2 a b => b ≠ w ∨ fds k a = None
  | _ => True
  end.

Lemma failing_kept r m : keep m -> keep (failing r m).
Proof. intros Hm. unfold failing. destruct (r <? 0); [apply kept_ret|done]. Qed.

Lemma perform_hoare act g k w c : owns P w c k -> spares act w k -> hoare H1 (perform act) g k (λ _ _ k', owns P w c k').
Proof.
  intros Hk Hs. destruct act as [fd oflag mode path|fd|a b|fd|fd path|fd|fd]; simpl in Hs; cbn [perform].
  - apply hoare_bind. eapply hoare_mono; [|by apply sys_open_news]. intros r g' k' [Hk' Hne]. unfold failing.
    destruct (r <? 0); [done|]. destruct (r =? fd); [done|]. apply hoare_bind.
    eapply hoare_mono; [|apply dup2_hoare; [exact Hk'|by left]]. intros r2 g2 k2 Hk2. destruct (r2 <? 0); [|done].
    apply hoare_bind. eapply hoare_mono; [|by apply (close_hoare _ _ R _ _ _ w c)]. done.
  - apply hoare_bind. eapply hoare_mono; [|by apply (close_hoare _ _ R _ _ _ w c)]. done.
  - apply hoare_bind. eapply hoare_mono; [|by apply dup2_hoare]. intros r g' k' Hk'. unfold failing. by destruct (r <? 0).
  - by_kept. apply kept_bind; [apply fcntl_kept|]. intros [r o]. apply failing_kept. apply kept_bind; [apply fcntl_kept|]. intros [r' o']. apply failing_kept, kept_ret.
  - by_kept. apply kept_bind; [|intros r; apply failing_kept, kept_ret].
    unfold sys_chdir, expanding, get_perthread_wd. apply kept_bind; [kept_auto R|]. intros wd. apply kept_bind; [by apply vchroot_expand_kept|]. intros [r vc]. kept_auto R.
  - by_kept. apply kept_bind; [unfold sys_fchdir; kept_auto R|]. intros r. apply failing_kept, kept_ret.
  - done.
Qed.

(** The pipe has moved: dup gave it a new descriptor and the old one is
    closed. *)
Lemma file_action_hoare act g k w c : owns P w c k -> hoare H1 (file_action w act) g k (λ r _ k', owns P r.1 c k').
Proof.
  intros Hk. unfold file_action. destruct (names_pipe act w) eqn:Hn.
  - unfold sys_dup. apply hoare_bind, hoare_bind, hoare_syscall_int. intros x k1 Hx. apply hoare_ret.
    destruct (open_owns _ _ R _ _ _ _ _ w c (or_intror (or_intror eq_refl)) Hx Hk) as [Hk1 Hne].
    unfold bsd_ret. destruct (Z.ltb_spec (s32 x) 0) as [Hx0|Hx0].
    { pose proof (errno_negative (s32 x) Hx0). destruct (Z.ltb_spec (errno_linux_to_bsd (s32 x)) 0); [exact Hk1|lia]. }
    destruct (Z.ltb_spec (s32 x) 0) as [|_]; [lia|].
    assert (owns P (s32 x) c k1) as Hk1'.
    { destruct Hk as (_ & Hf & _), Hk1 as (_ & _ & Hp). split_and!; [done|by rewrite (fr_dup _ _ R _ _ _ _ Hx Hx0)|done]. }
    apply hoare_bind. unfold close_internal. apply hoare_bind, hoare_syscall_int. intros y k2 Hy. apply hoare_ret.
    pose proof (close_owns _ _ R _ _ _ _ _ _ Hy (not_eq_sym Hne) Hk1') as Hk2. destruct (fr_close _ _ R _ _ _ _ Hy) as (_ & Hclosed & _).
    apply hoare_bind. eapply hoare_mono; [|apply perform_hoare; [exact Hk2|]]; [done|].
    unfold names_pipe in Hn. apply orb_true_iff in Hn as [Hn%Z.eqb_eq|Hn].
    + destruct act; simpl in *; subst; auto.
    + destruct act; try discriminate. apply Z.eqb_eq in Hn. subst. by left.
  - apply hoare_bind. eapply hoare_mono; [|apply perform_hoare; [exact Hk|]]; [done|].
    unfold names_pipe in Hn. apply orb_false_iff in Hn as [Hn%Z.eqb_neq Hd]. destruct act; simpl in *; auto. left. by apply Z.eqb_neq.
Qed.

Lemma file_actions_hoare acts g k w c : owns P w c k -> hoare H1 (file_actions w acts) g k (λ r _ k', owns P r.1 c k').
Proof.
  revert g k w. induction acts as [|act acts IH]; intros g k w Hk; [done|]. cbn [file_actions]. apply hoare_bind.
  eapply hoare_mono; [|by apply file_action_hoare]. intros [w' [r|]] g' k' Hk'; [done|]. by apply IH.
Qed.
End Actions.

(** ** Reading the pipe *)

(** A system where reading gives [data] and nobody cancels the thread. *)
Definition pipe_reader (data : list ascii) : protocol := Protocol (λ _ _, True)
  (λ X e, match e in linuxE X return X -> Prop with
   | SysOut _ _ o => match o in outk Y return Z * Y -> Prop with
     | OBytes n => λ r, r = (Z.min n (Z.of_nat (length data)), ztake n data) | _ => λ _, True end
   | Lkm c => match c in lkm_nr Y return Z * Y -> Prop with
     | NR_pthread_canceled _ => λ r, bsd_ret (bsd_ret (s32 r.1)) ≠ 0 | _ => λ _, True end
   | _ => λ _, True end) False.

Lemma spawn_wait_ok pipe0 ret g : wp (pipe_reader (int_bytes ret)) (spawn_wait pipe0) g (λ v _, v = s32 ret).
Proof.
  assert (∀ g, wp (pipe_reader (int_bytes ret)) (sys_read_nocancel pipe0 4) g (λ r _, r = (4, int_bytes ret))) as Hr.
  { clear g. intros g. unfold sys_read_nocancel. wp_step. apply wp_syscall_int_out; [done|]. intros r x [= -> ->]. simpl. wp_step. done. }
  assert (∀ g, wp (pipe_reader (int_bytes ret)) (sys_read_nocancel pipe0 4) g
    (λ r g', wp (pipe_reader (int_bytes ret)) (let '(n, data) := r in mret (if n =? 4 then s32 (bytes_value (take 4 data)) else 0)) g' (λ v _, v = s32 ret))) as Hr'.
  { intros g'. eapply wp_mono; [apply Hr|]. intros r g2 ->. wp_step. simpl Z.eqb. cbv iota. change (take 4 (int_bytes ret)) with (int_bytes ret). by rewrite int_value, s32_u32. }
  unfold spawn_wait. wp_step. unfold sys_read, CANCELATION_POINT, sys_pthread_canceled. wp_step. wp_step. wp_step.
  destruct ((0 =? 0) && negb (g_uses_threads g)).
  - wp_step. simpl. apply Hr'.
  - wp_step. apply wp_lkm_call; [done|]. intros r [] Hc. wp_step. simpl in Hc. rewrite (proj2 (Z.eqb_neq _ _) Hc). apply Hr'.
Qed.

Section Child.
Context `{LoopFuel, IcaseEnabled}.
Context (P : Z) (H1 : ∀ X : Set, linuxE X -> fdstate -> X -> fdstate -> Prop) (R : fd_rules P H1).
Abbreviation keep := (kept P H1).

(** Work on a descriptor that is not the pipe's, which is closed in the end. *)
Lemma kept_news (m : M Z) {A} (f : Z -> M A) : news P H1 m ->
  (∀ r g k w c, owns P w c k -> r ≠ w -> hoare H1 (f r) g k (λ _ _ k', owns P w c k')) -> keep (m ≫= f).
Proof.
  intros Hm Hf g k w c Hk. apply hoare_bind. eapply hoare_mono; [|by apply Hm]. intros r g' k' [Hk' Hne]. by apply Hf.
Qed.

Lemma close_then {A} fd (a : A) g k w c : owns P w c k -> fd ≠ w -> hoare H1 (close_internal fd;; mret a) g k (λ _ _ k', owns P w c k').
Proof. intros Hk Hne. apply hoare_bind. eapply hoare_mono; [|by apply (close_hoare _ _ R _ _ _ w c)]. done. Qed.

Lemma cloexec_entries_hoare dir des i len g k w c : owns P w c k -> dir ≠ w ->
  hoare H1 (cloexec_entries dir des i len) g k (λ _ _ k', owns P w c k').
Proof.
  revert i g k. induction des as [|de des IH]; intros i g k Hk Hne; cbn [cloexec_entries]; (destruct (i <? len); [|done]); [done|]. cbv zeta.
  destruct (bool_decide _); [by apply IH|]. destruct (_ =? 1023); [by apply IH|]. apply hoare_bind.
  eapply hoare_mono; [|by apply (fcntl_kept P H1 R)]. intros [r o] g' k' Hk'. destruct (r <? 0); [by apply close_then|].
  apply hoare_bind. eapply hoare_mono; [|by apply (fcntl_kept P H1 R)]. intros [r2 o2] g2 k2 Hk2. destruct (r2 <? 0); [by apply close_then|by apply IH].
Qed.

Lemma cloexec_loop_hoare fuel dir g k w c : owns P w c k -> dir ≠ w -> hoare H1 (cloexec_loop fuel dir) g k (λ _ _ k', owns P w c k').
Proof.
  revert g k. induction fuel as [|fuel IH]; intros g k Hk Hne; cbn [cloexec_loop]; [done|]. apply hoare_bind.
  eapply (hoare_mono _ _ _ _ (λ _ _ k', owns P w c k')).
  2:{ eapply (kept_bind P H1 (trigger _) (λ '(r, x), mret (s32 r, x))); [by apply (kept_trigger _ _ R)|intros []; apply kept_ret|done]. }
  intros [len des] g1 k1 Hk1. destruct (0 <? len).
  - apply hoare_bind. eapply hoare_mono; [|by apply cloexec_entries_hoare]. intros [r|] g2 k2 Hk2; [done|by apply IH].
  - apply hoare_bind. eapply hoare_mono; [|by apply (close_hoare _ _ R _ _ _ w c)]. intros r g2 k2 Hk2. by destruct (len <? 0).
Qed.

Lemma attributes_kept a : keep (spawn_attributes a).
Proof.
  unfold spawn_attributes, sys_getgid, sys_getuid, sys_setgid, sys_setuid, setuidgid, sys_setpgid, plain, sys_sigprocmask. kept_auto R.
  unfold cloexec_default. apply kept_news; [by apply sys_open_news|]. intros r g k w c Hk Hne. destruct (r <? 0); [done|]. by apply cloexec_loop_hoare.
Qed.

Lemma read_kept fd n : keep (sys_read fd n).
Proof. unfold sys_read, CANCELATION_POINT, sys_pthread_canceled, sys_read_nocancel, __real_ioctl. kept_auto R. Qed.

Lemma execve_final_kept rt path argv envp : keep (execve_final rt path argv envp).
Proof. unfold execve_final. kept_auto R. Qed.

Lemma execve_kept rt stack path argv beyond envp : keep (sys_execve rt stack path argv beyond envp).
Proof.
  unfold sys_execve, get_perthread_wd. apply kept_bind; [kept_auto R|]. intros wd. apply kept_bind; [by apply vchroot_expand_kept|]. intros [r vc].
  apply kept_bind; [unfold __simple_kprintf; kept_auto R|]. intros printed. apply kept_bind; [apply kept_defined|]. intros _. destruct (r <? 0); [apply kept_ret|].
  apply kept_news; [by apply sys_open_news|]. intros fd g k w c Hk Hne. destruct (fd <? 0); [done|].
  apply hoare_bind. eapply hoare_mono; [|by apply read_kept]. intros [n data] g1 k1 Hk1. destruct (n <? 0); [done|].
  apply hoare_bind. eapply hoare_mono; [|by apply (close_hoare _ _ R _ _ _ w c)]. intros r3 g2 k2 Hk2.
  cbv beta in Hk2. by_kept.
  kept_auto R; try apply execve_final_kept; by apply vchroot_expand_kept.
Qed.

Lemma spawn_child_hoare rt stack path desc argv beyond envp g k w c :
  owns P w c k -> hoare H1 (spawn_child rt stack w path desc argv beyond envp) g k (λ r _ k', owns P r.1 c k').
Proof.
  intros Hk. unfold spawn_child. apply hoare_bind. eapply (hoare_mono _ _ _ _ (λ _ _ k', owns P w c k')).
  2:{ destruct (attrp desc); [by apply attributes_kept|done]. }
  intros [r|] g1 k1 Hk1; [done|]. apply hoare_bind. eapply (hoare_mono _ _ _ _ (λ r _ k', owns P r.1 c k')).
  2:{ destruct (factp desc); [by apply (file_actions_hoare _ _ R)|done]. }
  intros [w' [r|]] g2 k2 Hk2; [done|]. apply hoare_bind. eapply (hoare_mono _ _ _ _ (λ _ _ k', owns P w' c k')).
  2:{ by_kept. unfold spawn_env. kept_auto R. }
  intros env g3 k3 Hk3. apply hoare_bind. eapply hoare_mono; [|by apply execve_kept]. done.
Qed.

(** Writing the report: nobody cancels, and the pipe takes the four bytes. *)
Lemma spawn_report_hoare w ret g k : owns P w [] k -> hoare H1 (spawn_report w ret) g k (λ _ _ k', pipe k' = int_bytes ret).
Proof.
  intros Hk. unfold spawn_report, sys_write, CANCELATION_POINT, sys_pthread_canceled. apply hoare_bind, hoare_bind.
  assert (∀ g k, owns P w [] k -> hoare H1 (sys_write_nocancel w (int_bytes ret) 4) g k (λ _ _ k', pipe k' = int_bytes ret)) as Hw.
  { clear g k Hk. intros g k (_ & Hf & Hp). unfold sys_write_nocancel. apply hoare_bind, hoare_syscall_int. intros x k' Hx.
    pose proof (fr_write _ _ R _ _ _ _ _ _ Hx Hf) as E. rewrite Hp in E. destruct (s32 x <? 0); exact E. }
  apply hoare_get. change ((0 =? 0) && negb (g_uses_threads g)) with (negb (g_uses_threads g)). destruct (negb (g_uses_threads g)).
  - apply hoare_ret. by apply Hw.
  - apply hoare_bind. unfold lkm_call. apply hoare_bind, hoare_trigger. intros r k' Hx. pose proof (fr_canceled _ _ R _ _ _ Hx) as Hc.
    destruct r as [r []]. apply hoare_ret, hoare_ret. simpl in Hc. rewrite (proj2 (Z.eqb_neq _ _) Hc). apply Hw. by eapply (gentle_owns _ _ R); [|exact Hx|].
Qed.
End Child.

(** C12: whatever attributes and file actions the child applies, including
    actions that close, replace or move the descriptor of the pipe, the error
    it ends with is what it writes to the pipe, and the parent returns it, on
    a host whose descriptors follow the rules of dup, dup2 and close, when the
    error is written completely, the parent's read is not interrupted and
    neither thread is cancelled. *)
Theorem spawn_failure_reported `{LoopFuel, IcaseEnabled} P host rt stack path desc argv beyond envp g k w pipe0 gp :
  fd_rules P host -> 0 <= w -> fds k w = Some P -> pipe k = [] ->
  hoare host (spawn_child rt stack w path desc argv beyond envp) g k (λ '(w', ret) g' k',
    hoare host (spawn_report w' ret) g' k' (λ _ _ k'', wp (pipe_reader (pipe k'')) (spawn_wait pipe0) gp (λ v _, v = s32 ret))).
Proof.
  intros R Hw Hf Hp. eapply hoare_mono; [|by apply (spawn_child_hoare P host R)]. intros [w' ret] g' k' Hk'. simpl in Hk'.
  eapply hoare_mono; [|by apply (spawn_report_hoare P host R)]. intros r g2 k'' ->. apply spawn_wait_ok.
Qed.

(** *** A table of descriptors *)

Module Table.

(** Object and FD_CLOEXEC of each descriptor, and the bytes in object 9. *)
Record table := Tbl { objects : Z -> option (Z * bool); bytes : list ascii }.

Definition PIPE : Z := 9.

Definition set_fd (fd : Z) (v : option (Z * bool)) (t : table) : table :=
  Tbl (λ i, if i =? fd then v else objects t i) (bytes t).

Definition lowest (t : table) : Z :=
  match find (λ n, match objects t (Z.of_nat n) with None => true | _ => false end) (seq 0 64) with
  | Some n => Z.of_nat n | None => - LINUX_EMFILE end.

Definition install (v : Z * bool) (t : table) : Z * table :=
  let fd := lowest t in if fd <? 0 then (fd, t) else (fd, set_fd fd (Some v) t).

Definition sys (nr : Z) (args : list arg) (t : table) : Z * table :=
  if nr =? __NR_close then
    match args with [AInt fd] => (match objects t fd with Some _ => 0 | None => - LINUX_EBADF end, set_fd fd None t) | _ => (0, t) end
  else if nr =? __NR_dup then
    match args with [AInt fd] => match objects t fd with Some (o, _) => install (o, false) t | None => (- LINUX_EBADF, t) end | _ => (-1, t) end
  else if nr =? __NR_dup2 then
    match args with
    | [AInt a; AInt b] => match objects t a with Some (o, _) => (b, set_fd b (Some (o, false)) t) | None => (- LINUX_EBADF, t) end
    | _ => (0, t)
    end
  else if (nr =? __NR_open) || (nr =? __NR_openat) then install (5, false) t
  else if nr =? __NR_write then
    match args with
    | [AInt fd; ABuf buf; AInt n] =>
      (n, match objects t fd with Some (o, _) => if o =? PIPE then Tbl (objects t) (bytes t ++ ztake n buf) else t | None => t end)
    | _ => (0, t)
    end
  else (0, t).

Definition host : handler table := λ X e,
  match e in linuxE X return table -> X * table with
  | Sys nr args => sys nr args
  | SysOut _ _ o => λ t, ((0, zero_out o), t)
  | Lkm c => λ t, ((1, zero_lkm c), t)
  end.

Definition view (t : table) : fdstate := Fdstate (λ fd, fst <$> objects t fd) (bytes t).

Definition steps (X : Set) (e : linuxE X) (k : fdstate) (x : X) (k' : fdstate) : Prop :=
  ∃ t, k = view t ∧ x = (host X e t).1 ∧ k' = view (host X e t).2.

Lemma lowest_free t : 0 <= lowest t -> objects t (lowest t) = None ∧ lowest t < 64.
Proof.
  unfold lowest. destruct (find _ _) as [n|] eqn:E; [|done]. intros _. apply find_some in E as [Hin%in_seq Hn]. split; [by destruct (objects t (Z.of_nat n))|lia].
Qed.

Lemma install_s32 v t : s32 (install v t).1 = (install v t).1.
Proof.
  unfold install. destruct (Z.ltb_spec (lowest t) 0); simpl; apply s32_id; [unfold lowest in *; destruct (find _ _); [lia|by vm_compute]|].
  pose proof (lowest_free t). unfold INT_MIN, INT_MAX. lia.
Qed.

Lemma install_spec v t : bytes (install v t).2 = bytes t ∧ (∀ fd, objects t fd ≠ None -> objects (install v t).2 fd = objects t fd) ∧
  (0 <= (install v t).1 -> objects t (install v t).1 = None ∧ objects (install v t).2 (install v t).1 = Some v).
Proof.
  unfold install. destruct (Z.ltb_spec (lowest t) 0) as [Hl|Hl]; simpl; [split_and!; [done|done|lia]|].
  destruct (lowest_free t Hl) as [Hn _]. split_and!; [done| |].
  - intros fd Hfd. destruct (Z.eqb_spec fd (lowest t)) as [->|]; [done|done].
  - intros _. by rewrite Z.eqb_refl.
Qed.

Lemma sys_dup_eq fd t :
  sys __NR_dup [AInt fd] t = match objects t fd with Some (o, _) => install (o, false) t | None => (- LINUX_EBADF, t) end.
Proof. done. Qed.

Lemma sys_dup2_eq a b t : (sys __NR_dup2 [AInt a; AInt b] t).2 = match objects t a with Some (o, _) => set_fd b (Some (o, false)) t | None => t end.
Proof. unfold sys. simpl. by destruct (objects t a) as [[]|]. Qed.

Lemma rules : fd_rules PIPE steps.
Proof.
  constructor.
  - intros X e k x k' He (t & -> & -> & ->). destruct e as [nr args|X nr args o|X c]; simpl; [|done|done].
    simpl in He. apply negb_true_iff, orb_false_iff in He as [[E1 E2]%orb_false_iff E3]. unfold sys. rewrite E1, E2, E3.
    assert (∀ v, bytes (install v t).2 = bytes t ∧ ∀ fd, fst <$> objects t fd ≠ None -> fst <$> objects (install v t).2 fd = fst <$> objects t fd) as Hi.
    { intros v. destruct (install_spec v t) as (Hb & Hf & _). split; [done|]. intros fd Hfd. rewrite Hf; [done|]. by destruct (objects t fd). }
    destruct (nr =? __NR_dup); [|destruct ((nr =? __NR_open) || (nr =? __NR_openat)); [apply Hi|done]].
    destruct args as [|[] [|]]; try done. destruct (objects t z) as [[]|]; [apply Hi|done].
  - intros nr args k x k' Hn (t & -> & -> & ->) Hx. simpl in *. unfold sys in *.
    assert (∀ v, 0 <= s32 (install v t).1 -> fst <$> objects t (s32 (install v t).1) = None) as Hi.
    { intros v. rewrite install_s32. intros Hp. destruct (install_spec v t) as (_ & _ & Hf). by destruct (Hf Hp) as [-> _]. }
    destruct Hn as [->|[->| ->]]; simpl in *; [by apply Hi..|].
    destruct args as [|[] [|]]; try by destruct Hx. destruct (objects t z) as [[]|]; [by apply Hi|by destruct Hx].
  - intros fd k x k' (t & -> & -> & ->) Hx. simpl in *. rewrite sys_dup_eq in *. destruct (objects t fd) as [[o b]|] eqn:E; [|by destruct Hx].
    rewrite install_s32 in *. destruct (install_spec (o, false) t) as (_ & _ & Hf). by destruct (Hf Hx) as [_ ->].
  - intros fd k x k' (t & -> & -> & ->). simpl. split_and!; [done|by rewrite Z.eqb_refl|].
    intros fd' Hne. by rewrite (proj2 (Z.eqb_neq _ _) Hne).
  - intros a b k x k' (t & -> & -> & ->). simpl. rewrite sys_dup2_eq. destruct (objects t a) as [[o c]|] eqn:E; simpl; [|done]. split; [done|].
    intros fd [Hne|Hn]; [by rewrite (proj2 (Z.eqb_neq _ _) Hne)|done].
  - intros fd buf n k x k' (t & -> & -> & ->) Hf. simpl in *. destruct (objects t fd) as [[o c]|]; [|done]. simpl in Hf. by simplify_eq.
  - intros fd k x k' (t & -> & -> & ->). done.
  - intros k r k' (t & -> & -> & ->). by vm_compute.
Qed.

(** Standard descriptors and the two ends of the pipe. *)
Definition start : table :=
  Tbl (λ fd, if (0 <=? fd) && (fd <=? 2) then Some (fd, false) else if fd =? 4 then Some (PIPE, true) else None) [].

Definition moving : posix_spawn_args_desc := PosixSpawnArgsDesc None (Some [PSFA_DUP2 0 4; PSFA_CLOSE 7]).
End Table.

Lemma spawn_failure_reported_witness :
  hoare Table.steps (spawn_child (H := 1%nat) (H0 := true) 34 [] 4 (s2c "/bin/true") Table.moving [s2c "true"] None []) init_gstate (Table.view Table.start)
    (λ '(w', ret) g' k', hoare Table.steps (spawn_report w' ret) g' k' (λ _ _ k'', wp (pipe_reader (pipe k'')) (spawn_wait 3) init_gstate (λ v _, v = s32 ret))).
Proof.
  apply (spawn_failure_reported (H := 1%nat) (H0 := true) Table.PIPE Table.steps 34 [] (s2c "/bin/true") Table.moving [s2c "true"] None []
    init_gstate (Table.view Table.start) 4 3 init_gstate); [exact Table.rules|lia|reflexivity|reflexivity].
Defined.

(** *** What the code does not do *)

(** When an action takes the number of the pipe's end, the copy that dup makes
    has no FD_CLOEXEC: the program inherits it, and the parent, which waits for
    the end of the pipe, waits for the program. *)
Lemma moved_pipe_inherited : ∃ g t,
  Linux.run Table.host (file_action (H := 1%nat) (H0 := true) 4 (PSFA_DUP2 0 4)) init_gstate Table.start = Some ((3, None), g, t) ∧
  Table.objects t 3 = Some (Table.PIPE, false).
Proof. eexists _, _. split; [vm_compute; reflexivity|reflexivity]. Qed.

(** PSFA_OPEN keeps the descriptor it opened besides the one it was asked for. *)
Lemma open_action_leaks : ∃ g t,
  Linux.run Table.host (perform (H := 1%nat) (H0 := true) (PSFA_OPEN 7 BSD_O_RDONLY 0 (s2c "/x"))) init_gstate Table.start = Some (None, g, t) ∧
  Table.objects t 7 = Some (5, false) ∧ Table.objects t 3 = Some (5, false).
Proof. eexists _, _. split; [vm_compute; reflexivity|by vm_compute]. Qed.

(** An error of the child is already Darwin's; with POSIX_SPAWN_SETEXEC it is
    translated once more: EAGAIN becomes EDEADLK. *)
Lemma setexec_error_twice `{LoopFuel, IcaseEnabled} rt stack d v gb ne path desc argv beyond envp g g' w a :
  attrp desc = Some a -> has (psa_flags a) POSIX_SPAWN_SETEXEC = true ->
  spawn_child rt stack (-1) path desc argv beyond envp g = Ret ((w, - EAGAIN), g') ->
  sys_posix_spawn rt stack d v gb ne path desc argv beyond envp g = Ret (Returned (- EDEADLK) None, g').
Proof. intros Ha Hf Hc. unfold sys_posix_spawn. rewrite Ha, Hf. unfold mbind, M_bind. by rewrite Hc. Qed.
