(* ===== verification/Ext.v ===== *)
(** * System call tables, Linux extensions and the last small calls

    syscalls.c, base.c, misc/syscall.c and mach/mach_table.c: how a number
    becomes a call.  ext/: Linux calls that Darling's own programs use, with
    an error in errno.  Then what is left of bsdthread/, hfs/, mount/, signal/
    and unistd/, and elfcalls_wrapper.c. *)
From S2P Require Import Prelude Abi Linux Errno Base Simple Vchroot VchrootProofs Signals Mman Unistd Misc MachTraps.

(** ** Dispatch *)

(** The designated initialisers; a number that is not there has a null
    pointer. *)
Definition bsd_syscall_table : list (Z * string) := [
  (0, "sys_syscall"); (1, "sys_exit"); (2, "sys_fork"); (3, "sys_read"); (4, "sys_write"); (5, "sys_open"); (6, "sys_close");
  (7, "sys_wait4"); (9, "sys_link"); (10, "sys_unlink"); (12, "sys_chdir"); (13, "sys_fchdir"); (14, "sys_mknod"); (15, "sys_chmod");
  (16, "sys_chown"); (18, "sys_getfsstat"); (20, "sys_getpid"); (23, "sys_setuid"); (24, "sys_getuid"); (25, "sys_geteuid");
  (26, "sys_ptrace"); (27, "sys_recvmsg"); (28, "sys_sendmsg"); (29, "sys_recvfrom"); (30, "sys_accept"); (31, "sys_getpeername");
  (32, "sys_getsockname"); (33, "sys_access"); (34, "sys_chflags"); (35, "sys_fchflags"); (36, "sys_sync"); (37, "sys_kill");
  (39, "sys_getppid"); (41, "sys_dup"); (42, "sys_pipe"); (43, "sys_getegid"); (46, "sys_sigaction"); (47, "sys_getgid");
  (48, "sys_sigprocmask"); (49, "sys_getlogin"); (50, "sys_setlogin"); (52, "sys_sigpending"); (53, "sys_sigaltstack");
  (54, "sys_ioctl"); (55, "sys_reboot"); (57, "sys_symlink"); (58, "sys_readlink"); (59, "sys_execve"); (60, "sys_umask");
  (61, "sys_chroot"); (65, "sys_msync"); (66, "sys_vfork"); (73, "sys_munmap"); (74, "sys_mprotect"); (75, "sys_madvise");
  (78, "sys_mincore"); (79, "sys_getgroups"); (80, "sys_setgroups"); (81, "sys_getpgrp"); (82, "sys_setpgid"); (83, "sys_setitimer");
  (86, "sys_getitimer"); (89, "sys_getdtablesize"); (90, "sys_dup2"); (92, "sys_fcntl"); (93, "sys_select"); (95, "sys_fsync");
  (96, "sys_setpriority"); (97, "sys_socket"); (98, "sys_connect"); (100, "sys_getpriority"); (104, "sys_bind"); (105, "sys_setsockopt");
  (106, "sys_listen"); (111, "sys_sigsuspend"); (116, "sys_gettimeofday"); (117, "sys_getrusage"); (118, "sys_getsockopt");
  (120, "sys_readv"); (121, "sys_writev"); (123, "sys_fchown"); (124, "sys_fchmod"); (128, "sys_rename"); (131, "sys_flock");
  (132, "sys_mkfifo"); (133, "sys_sendto"); (134, "sys_shutdown"); (135, "sys_socketpair"); (136, "sys_mkdir"); (137, "sys_rmdir");
  (138, "sys_utimes"); (139, "sys_futimes"); (142, "sys_gethostuuid"); (147, "sys_setsid"); (151, "sys_getpgid"); (153, "sys_pread");
  (154, "sys_pwrite"); (157, "sys_statfs"); (158, "sys_fstatfs"); (159, "sys_unmount"); (169, "sys_csops");
  (170, "sys_csops_audittoken"); (173, "sys_waitid"); (181, "sys_setgid"); (182, "sys_setegid"); (183, "sys_seteuid");
  (184, "sys_sigreturn"); (187, "sys_fdatasync"); (188, "sys_stat"); (189, "sys_fstat"); (190, "sys_lstat"); (191, "sys_pathconf");
  (192, "sys_fpathconf"); (194, "sys_getrlimit"); (195, "sys_setrlimit"); (196, "sys_getdirentries"); (197, "sys_mmap");
  (199, "sys_lseek"); (200, "sys_truncate"); (201, "sys_ftruncate"); (202, "sys_sysctl"); (216, "sys_open_dprotected_np");
  (217, "sys_statv"); (218, "sys_lstatv"); (219, "sys_fstatv"); (220, "sys_getattrlist"); (221, "sys_setattrlist");
  (222, "sys_getdirentriesattr"); (223, "sys_exchangedata"); (225, "sys_searchfs"); (226, "sys_delete"); (227, "sys_copyfile");
  (228, "sys_fgetattrlist"); (229, "sys_fsetattrlist"); (230, "sys_poll"); (234, "sys_getxattr"); (235, "sys_fgetxattr");
  (236, "sys_setxattr"); (237, "sys_fsetxattr"); (238, "sys_removexattr"); (239, "sys_fremovexattr"); (240, "sys_listxattr");
  (241, "sys_flistxattr"); (243, "sys_initgroups"); (244, "sys_posix_spawn"); (254, "sys_semctl"); (255, "sys_semget");
  (256, "sys_semop"); (266, "sys_shm_open"); (267, "sys_shm_unlink"); (268, "sys_sem_open"); (269, "sys_sem_close");
  (270, "sys_sem_unlink"); (271, "sys_sem_wait"); (272, "sys_sem_trywait"); (273, "sys_sem_post"); (274, "sys_sysctlbyname");
  (282, "sys_chmod_extended"); (283, "sys_fchmod_extended"); (285, "sys_settid"); (286, "sys_gettid");
  (294, "sys_shared_region_check_np"); (301, "sys_psynch_mutexwait"); (302, "sys_psynch_mutexdrop"); (303, "sys_psynch_cvbroad");
  (304, "sys_psynch_cvsignal"); (305, "sys_psynch_cvwait"); (306, "sys_psynch_rw_rdlock"); (307, "sys_psynch_rw_wrlock");
  (308, "sys_psynch_rw_unlock"); (310, "sys_getsid"); (312, "sys_psynch_cvclrprepost"); (322, "sys_iopolicysys"); (327, "sys_issetugid");
  (328, "sys_pthread_kill"); (329, "sys_sigprocmask"); (330, "sys_sigwait"); (331, "sys_disable_threadsignal");
  (332, "sys_pthread_markcancel"); (333, "sys_pthread_canceled"); (334, "sys_semwait_signal"); (336, "sys_proc_info");
  (338, "sys_stat64"); (339, "sys_fstat64"); (340, "sys_lstat64"); (341, "sys_stat64_extended"); (342, "sys_lstat64_extended");
  (343, "sys_fstat64_extended"); (344, "sys_getdirentries64"); (345, "sys_statfs64"); (346, "sys_fstatfs64"); (347, "sys_getfsstat64");
  (348, "sys_pthread_chdir"); (349, "sys_pthread_fchdir"); (357, "sys_getaudit_addr"); (358, "sys_setaudit_addr");
  (360, "sys_bsdthread_create"); (361, "sys_bsdthread_terminate"); (362, "sys_kqueue"); (363, "sys_kevent"); (364, "sys_lchown");
  (366, "sys_bsdthread_register"); (367, "sys_workq_open"); (368, "sys_workq_kernreturn"); (369, "sys_kevent64");
  (372, "sys_thread_selfid"); (374, "sys_kevent_qos"); (394, "sys_pselect"); (395, "sys_pselect_nocancel"); (396, "sys_read_nocancel");
  (397, "sys_write_nocancel"); (398, "sys_open_nocancel"); (399, "sys_close_nocancel"); (400, "sys_wait4_nocancel");
  (401, "sys_recvmsg_nocancel"); (402, "sys_sendmsg_nocancel"); (403, "sys_recvfrom_nocancel"); (404, "sys_accept_nocancel");
  (405, "sys_msync_nocancel"); (406, "sys_fcntl_nocancel"); (407, "sys_select_nocancel"); (408, "sys_fsync_nocancel");
  (409, "sys_connect_nocancel"); (410, "sys_sigsuspend_nocancel"); (411, "sys_readv_nocancel"); (412, "sys_writev_nocancel");
  (413, "sys_sendto_nocancel"); (414, "sys_pread_nocancel"); (415, "sys_pwrite_nocancel"); (417, "sys_poll_nocancel");
  (420, "sys_sem_wait_nocancel"); (422, "sys_sigwait_nocancel"); (423, "sys_semwait_signal_nocancel"); (427, "sys_fsgetpath");
  (428, "sys_audit_session_self"); (430, "sys_fileport_makeport"); (431, "sys_fileport_makefd"); (441, "sys_guarded_open_np");
  (442, "sys_guarded_close_np"); (443, "sys_guarded_kqueue_np"); (461, "sys_getattrlistbulk"); (462, "sys_clonefileat");
  (463, "sys_openat"); (464, "sys_openat_nocancel"); (465, "sys_renameat"); (466, "sys_faccessat"); (467, "sys_fchmodat");
  (468, "sys_fchownat"); (469, "sys_fstatat"); (470, "sys_fstatat64"); (471, "sys_linkat"); (472, "sys_unlinkat");
  (473, "sys_readlinkat"); (474, "sys_symlinkat"); (475, "sys_mkdirat"); (476, "sys_getattrlistat"); (478, "sys_bsdthread_ctl");
  (483, "sys_csrctl"); (500, "sys_getentropy"); (515, "sys_ulock_wait"); (516, "sys_ulock_wake"); (517, "sys_fclonefileat");
  (521, "sys_abort_with_payload"); (524, "sys_setattrlistat")].

Definition mach_syscall_table : list (Z * string) := [
  (10, "_kernelrpc_mach_vm_allocate_trap_impl"); (12, "_kernelrpc_mach_vm_deallocate_trap_impl");
  (14, "_kernelrpc_mach_vm_protect_trap_impl"); (15, "_kernelrpc_mach_vm_map_trap_impl");
  (16, "_kernelrpc_mach_port_allocate_trap_impl"); (17, "_kernelrpc_mach_port_destroy_trap_impl");
  (18, "_kernelrpc_mach_port_deallocate_trap_impl"); (19, "_kernelrpc_mach_port_mod_refs_trap_impl");
  (20, "_kernelrpc_mach_port_move_member_trap_impl"); (21, "_kernelrpc_mach_port_insert_right_trap_impl");
  (22, "_kernelrpc_mach_port_insert_member_trap_impl"); (23, "_kernelrpc_mach_port_extract_member_trap_impl");
  (24, "_kernelrpc_mach_port_construct_trap_impl"); (25, "_kernelrpc_mach_port_destruct_trap_impl"); (26, "mach_reply_port_impl");
  (27, "thread_self_trap_impl"); (28, "task_self_trap_impl"); (29, "host_self_trap_impl"); (31, "mach_msg_trap_impl");
  (32, "mach_msg_overwrite_trap_impl"); (33, "semaphore_signal_trap_impl"); (34, "semaphore_signal_all_trap_impl");
  (35, "semaphore_signal_thread_trap_impl"); (36, "semaphore_wait_trap_impl"); (37, "semaphore_wait_signal_trap_impl");
  (38, "semaphore_timedwait_trap_impl"); (39, "semaphore_timedwait_signal_trap_impl"); (40, "_kernelrpc_mach_port_get_attributes_impl");
  (41, "_kernelrpc_mach_port_guard_trap_impl"); (42, "_kernelrpc_mach_port_unguard_trap_impl"); (43, "mach_generate_activity_id_impl");
  (44, "task_name_for_pid_impl"); (45, "task_for_pid_impl"); (46, "pid_for_task_impl"); (48, "macx_swapon_impl");
  (49, "macx_swapoff_impl"); (50, "thread_get_special_reply_port_impl"); (51, "macx_triggers_impl");
  (52, "macx_backing_store_suspend_impl"); (53, "macx_backing_store_recovery_impl"); (59, "swtch_pri_impl"); (60, "swtch_impl");
  (61, "syscall_thread_switch_impl"); (62, "clock_sleep_trap_impl"); (76, "_kernelrpc_mach_port_type_impl");
  (77, "_kernelrpc_mach_port_request_notification_impl"); (89, "mach_timebase_info_trap_impl"); (90, "mach_wait_until_impl");
  (91, "mk_timer_create_impl"); (92, "mk_timer_destroy_impl"); (93, "mk_timer_arm_impl"); (94, "mk_timer_cancel_impl")].

Definition SYSCALLS : Z := 600.

Definition table_entry (tbl : list (Z * string)) (no : Z) : option string := snd <$> find (λ e, e.1 =? no) tbl.

Definition __unknown_syscall (nr : Z) : M Z :=
  r ← __simple_printf (s2c "Unimplemented syscall (%d)" ++ [byte_of 10]) [VNum nr]; defined r;; mret (- ENOSYS).

Definition __unknown_mach_syscall (nr : Z) : M Z :=
  r ← __simple_printf (s2c "Unimplemented mach trap (%d)" ++ [byte_of 10]) [VNum nr]; defined r;; mret KERN_FAILURE.

(** [call] runs the function of that name. *)
Definition sys_syscall (call : string -> list Z -> M Z) (no : Z) (args : list Z) : M Z :=
  if (no <=? 0) || (SYSCALLS <=? no) then __unknown_syscall no
  else match table_entry bsd_syscall_table no with None => __unknown_syscall no | Some f => call f args end.

(** ** Linux extensions *)

(** [if (rv < 0) { cerror(errno_linux_to_bsd(-rv)); return -1; } return rv;]
    with what goes to errno. *)
Definition cerror_ret (rv : Z) : Z * option Z := if rv <? 0 then (-1, Some (errno_linux_to_bsd (- rv))) else (rv, None).

Definition linux_call (nr : Z) (args : list arg) : M (Z * option Z) := rv ← syscall_int nr args; mret (cerror_ret rv).

Definition epoll_create (size : Z) : M (Z * option Z) := linux_call __NR_epoll_create [AInt size].
Definition epoll_create1 (flags : Z) : M (Z * option Z) := linux_call __NR_epoll_create1 [AInt flags].
Definition epoll_ctl (epfd op fd event : Z) : M (Z * option Z) := linux_call __NR_epoll_ctl [AInt epfd; AInt op; AInt fd; AInt event].
Definition epoll_wait (epfd events maxevents timeout : Z) : M (Z * option Z) :=
  linux_call __NR_epoll_wait [AInt epfd; AInt events; AInt maxevents; AInt timeout].

Definition __NR_eventfd : Z := 284.

Definition __linux_eventfd (count flags : Z) : M (Z * option Z) :=
  linux_call (if negb (flags =? 0) then __NR_eventfd2 else __NR_eventfd) [AInt count; AInt flags].

(** The C library's read and write; the value that was read. *)
Definition eventfd_read (fd : Z) : M (Z * Z) := '(n, data) ← sys_read fd 8; mret (if n =? 8 then 0 else -1, bytes_value data).
Definition eventfd_write (fd value : Z) : M Z := n ← sys_write fd (int_bytes value ++ int_bytes (value / 2 ^ 32)) 8; mret (if n =? 8 then 0 else -1).

Definition fanotify_init (flags event_f_flags : Z) : M (Z * option Z) := linux_call __NR_fanotify_init [AInt flags; AInt event_f_flags].

(** The descriptor is not translated, and the resolved path goes with it. *)
Definition fanotify_mark `{LoopFuel, IcaseEnabled} (fanotify_fd flags mask dfd : Z) (pathname : option cstr) : M (Z * option Z) :=
  match pathname with
  | None => mret (- EFAULT, None)
  | Some pathname =>
    '(rv, vc) ← vchroot_expand (VchrootExpandArgs pathname dfd false);
    if rv <? 0 then mret (cerror_ret rv)
    else linux_call __NR_fanotify_mark [AInt fanotify_fd; AInt flags; AInt mask; AInt dfd; AStr (vc_path vc)]
  end.

Definition __linux_futex (uaddr op val timeout uaddr2 val3 : Z) : M (Z * option Z) :=
  linux_call __NR_futex [AInt uaddr; AInt op; AInt val; AInt timeout; AInt uaddr2; AInt val3].

Definition inotify_init : M (Z * option Z) := linux_call __NR_inotify_init [].
Definition inotify_init1 (flags : Z) : M (Z * option Z) := linux_call __NR_inotify_init1 [AInt flags].
Definition inotify_rm_watch (fd wd : Z) : M (Z * option Z) := linux_call __NR_inotify_rm_watch [AInt fd; AInt wd].

Definition signalfd (fd mask flags : Z) : M (Z * option Z) :=
  let linux_flags := if has flags BSD_O_CLOEXEC then 0x80000 else 0 in
  let linux_flags := if has flags BSD_O_NONBLOCK then Z.lor linux_flags 0x800 else linux_flags in
  linux_call __NR_signalfd4 [AInt fd; ASigset (sigset_bsd_to_linux mask); AInt 8; AInt linux_flags].

Definition clock_gettime (clockid res : Z) : M (Z * option Z) := linux_call __NR_clock_gettime [AInt clockid; AInt res].
Definition timerfd_create (clock_id flags : Z) : M (Z * option Z) := linux_call __NR_timerfd_create [AInt clock_id; AInt flags].
Definition timerfd_gettime (fd otmr : Z) : M (Z * option Z) := linux_call __NR_timerfd_gettime [AInt fd; AInt otmr].
Definition timerfd_settime (fd flags utmr otmr : Z) : M (Z * option Z) :=
  linux_call __NR_timerfd_settime [AInt fd; AInt flags; AInt utmr; AInt otmr].

Definition _mmap_for_xtrace (start len prot flags fd pos : Z) : M Z := sys_mmap start len prot flags fd pos.
Definition _munmap_for_xtrace (addr len : Z) : M Z := sys_munmap addr len.
Definition _abort_with_payload_for_xtrace (reason_code : Z) (reason_string : option cstr) : M Z := sys_abort_with_payload reason_code reason_string.
Definition __write_for_xtrace (fd : Z) (mem : list ascii) (len : Z) : M Z := sys_write_nocancel fd mem len.

(** ** Small calls *)

Definition sys_disable_threadsignal (disable : Z) : M Z :=
  if disable =? 0 then mret (- ENOTSUP)
  else sys_pthread_canceled 2;; '(ret, _) ← sys_sigprocmask 1 (Some (2 ^ 32 - 1)); mret ret.

Definition sys_pthread_kill (thread_port sig : Z) : M Z :=
  '(ret, _) ← lkm_call (NR_trap "pthread_kill_trap" [thread_port; signum_bsd_to_linux sig]); mret (bsd_ret ret).

Definition sys_pthread_markcancel (thread_port : Z) : M Z :=
  '(ret, _) ← lkm_call (NR_trap "pthread_markcancel" [thread_port]); mret (bsd_ret ret).

Definition sys_workq_open : M Z := mret 0.
Definition sys_sigreturn : M Z := mret 0.
Definition sys_unmount (path : cstr) (flags : Z) : M Z := mret (- EBUSY).

Definition sys_fsync_nocancel (fd : Z) : M Z := plain __NR_fsync [AInt fd].
Definition sys_fsync (fd : Z) : M Z := sys_fsync_nocancel fd.

Definition sys_mkcomplex : M Z := mret (- ENOTSUP).
Definition sys_statv : M Z := mret (- ENOTSUP).
Definition sys_lstatv : M Z := mret (- ENOTSUP).
Definition sys_fstatv : M Z := mret (- ENOTSUP).
Definition sys_getdirentriesattr : M Z := mret (- ENOTSUP).
Definition sys_exchangedata : M Z := mret (- ENOTSUP).
Definition sys_searchfs : M Z := mret (- ENOTSUP).
Definition sys_delete : M Z := mret (- ENOTSUP).
Definition sys_copyfile : M Z := mret (- ENOTSUP).

(** elfcalls_wrapper.c: [_elfcalls], found when it is first used.  [dl] loads
    the library and reads its variable. *)
Definition elfcalls {C : Set} (dl : M C) (cached : option C) : M (C * option C) :=
  match cached with Some c => mret (c, cached) | None => c ← dl; mret (c, Some c) end.

Definition native_exit {C : Set} (exit : C -> Z -> M unit) (cached : option C) (ec : Z) : M unit :=
  match cached with Some c => exit c ec | None => mret tt end.

(** ** Theorems *)

Definition ascending (l : list Z) : bool := forallb (λ p, p.1 <? p.2) (zip l (tail l)).

(** No initialiser replaces another, and all of them are inside the arrays. *)
Lemma tables_ascending :
  ascending (fst <$> bsd_syscall_table) = true ∧ ascending (fst <$> mach_syscall_table) = true ∧
  forallb (λ e, (0 <=? e.1) && (e.1 <? SYSCALLS)) bsd_syscall_table = true ∧
  forallb (λ e, (0 <=? e.1) && (e.1 <? 128)) mach_syscall_table = true.
Proof. by vm_compute. Qed.

Lemma forallb_elem {A} (P : A -> bool) l x : forallb P l = true -> x ∈ l -> P x = true.
Proof. rewrite forallb_forall. intros H Hx. apply H. by apply list_elem_of_In. Qed.

(** syscall(2): every function of the table except the first can be called by
    its number, and every other number is an error. *)
Theorem syscall_dispatch call no args :
  (∀ f, (no, f) ∈ bsd_syscall_table -> no ≠ 0 -> sys_syscall call no args = call f args) ∧
  (no = 0 ∨ (∀ f, (no, f) ∉ bsd_syscall_table) -> sys_syscall call no args = __unknown_syscall no).
Proof.
  destruct tables_ascending as (_ & _ & Hb & _). unfold sys_syscall, table_entry. split.
  - intros f Hin Hne. pose proof (forallb_elem _ _ _ Hb Hin) as Hr. cbn [fst] in Hr. unfold SYSCALLS in *.
    rewrite (proj2 (orb_false_iff _ _)) by lia.
    assert (forallb (λ e, match find (λ e', e'.1 =? e.1) bsd_syscall_table with Some e' => String.eqb e'.2 e.2 | None => false end)
      bsd_syscall_table = true) as Hf by (by vm_compute).
    pose proof (forallb_elem _ _ _ Hf Hin) as E. cbv beta in E. cbn [fst snd] in E.
    destruct (find _ _) as [[n f']|]; [|discriminate]. cbn [fst snd] in E. apply String.eqb_eq in E as ->. reflexivity.
  - intros Hno. destruct (_ || _) eqn:E; [done|]. destruct (find _ _) as [[n f]|] eqn:Ef; [|reflexivity].
    apply find_some in Ef as [Hin Hn]. cbn in Hn. apply Z.eqb_eq in Hn as ->. destruct Hno as [->|Hno]; [by rewrite Z.leb_refl in E|].
    destruct (Hno f). by apply list_elem_of_In.
Qed.

(** The signals of a signalfd are those of the Darwin set, and its flags
    those of Linux. *)
Theorem signalfd_request mask flags g :
  ∃ k, signalfd (-1) mask flags g =
    Vis (Sys __NR_signalfd4 [AInt (-1); ASigset (sigset_bsd_to_linux mask); AInt 8;
      AInt (Z.lor (if has flags BSD_O_CLOEXEC then LINUX_O_CLOEXEC else 0) (if has flags BSD_O_NONBLOCK then LINUX_O_NONBLOCK else 0))]) k.
Proof.
  eexists. unfold signalfd, linux_call. destruct (has flags BSD_O_CLOEXEC), (has flags BSD_O_NONBLOCK); reflexivity.
Qed.
