(* ===== verification/Procfs.v ===== *)
(** * Information about processes

    misc/sysctl_proc.c and misc/proc_info.c answer Darwin's questions about
    processes from Linux's [/proc]: the text of [stat], [cmdline], [comm] and
    [smaps].

    A text buffer is the list of its initialised bytes, the terminator
    included; reading past them is undefined.  A result structure is a record
    of the members the code writes, the others are zero. *)
From S2P Require Import Prelude Abi Linux Errno Base Simple Readline Vchroot VchrootProofs Fcntl Paths Dirent.

(** ** Constants and structures of Darwin's headers *)

Definition DT_DIR : Z := 4.
Definition SRUN : Z := 2.
Definition SSLEEP : Z := 3.
Definition SSTOP : Z := 4.
Definition SZOMB : Z := 5.
Definition P_CONTROLT : Z := 0x2.
Definition P_LP64 : Z := 0x4.
Definition VM_PROT_READ : Z := 1.
Definition VM_PROT_WRITE : Z := 2.
Definition VM_PROT_EXECUTE : Z := 4.
Definition SM_PRIVATE : Z := 2.
Definition SM_SHARED : Z := 4.
Definition sizeof_kinfo_proc : Z := 648.
Definition sizeof_proc_bsdshortinfo : Z := 64.
Definition sizeof_proc_bsdinfo : Z := 136.
Definition sizeof_proc_uniqidentifierinfo : Z := 56.
Definition sizeof_proc_threadinfo : Z := 112.
Definition sizeof_proc_regionwithpathinfo : Z := 1272.
Definition sizeof_proc_regionpath : Z := 1040.
Definition MAXPATHLEN : Z := 1024.
Definition PROC_PIDTBSDINFO : Z := 3.
Definition PROC_PIDTHREADINFO : Z := 5.
Definition PROC_PIDREGIONPATHINFO : Z := 8.
Definition PROC_PIDPATHINFO : Z := 11.
Definition PROC_PIDT_SHORTBSDINFO : Z := 13.
Definition PROC_PIDUNIQIDENTIFIERINFO : Z := 17.
Definition PROC_PIDREGIONPATH : Z := 31.
Definition LINUX_PR_SET_NAME : Z := 15.

Record kinfo_proc := KinfoProc {
  p_pid : Z; p_flag : Z; p_comm : cstr; p_stat : Z; e_ppid : Z; e_pgid : Z; e_tdev : Z;
  p_priority : Z; p_nice : Z; e_uid : Z; e_gid : Z }.

Record proc_bsdshortinfo := ShortInfo {
  pbsi_pid : Z; pbsi_ppid : Z; pbsi_pgid : Z; pbsi_status : Z; pbsi_comm : cstr; pbsi_flags : Z;
  pbsi_uid : Z; pbsi_gid : Z; pbsi_ruid : Z; pbsi_rgid : Z; pbsi_svuid : Z; pbsi_svgid : Z }.

Record proc_bsdinfo := BsdInfo {
  pbi_flags : Z; pbi_status : Z; pbi_pid : Z; pbi_ppid : Z; pbi_uid : Z; pbi_gid : Z; pbi_ruid : Z; pbi_rgid : Z;
  pbi_svuid : Z; pbi_svgid : Z; pbi_comm : cstr; pbi_pgid : Z }.

(** The members of [proc_regionwithpathinfo] and [proc_regionpath] that are
    written; [None] is a path nobody has written yet. *)
Record region := Region {
  r_address : Z; r_size : Z; r_protection : Z; r_share_mode : Z; r_offset : Z; r_dev : Z; r_ino : Z;
  r_path : option cstr }.

Definition s8 (z : Z) : Z := (z + 2 ^ 7) mod 2 ^ 8 - 2 ^ 7.
Definition SPACE : ascii := " ".
Definition LPAREN : ascii := "(".
Definition RPAREN : ascii := ")".

(** ** The elements of [/proc/<pid>/stat] *)

(** The bytes before [stop] or the terminator. *)
Fixpoint scan_to (stop : ascii) (s : list ascii) : option cstr :=
  match s with
  | [] => None
  | c :: r => if ascii_dec c stop then Some [] else if ascii_dec c NUL then Some [] else e ← scan_to stop r; Some (c :: e)
  end.

(** The element ([None] for a null pointer) and the new value of [*buf]. *)
Definition next_stat_elem (buf : list ascii) : option (option cstr * list ascii) :=
  match buf with
  | [] => None
  | c :: r =>
    if ascii_dec c NUL then Some (None, buf)
    else if ascii_dec c LPAREN then e ← scan_to RPAREN r; Some (Some e, drop (length e + 2) r)
    else e ← scan_to SPACE buf; Some (Some e, drop (length e + 1) buf)
  end.

Fixpoint skip_stat_elems (count : nat) (buf : list ascii) : option (list ascii) :=
  match count with
  | O => Some buf
  | S count => '(_, buf) ← next_stat_elem buf; skip_stat_elems count buf
  end.

(** [elem = next_stat_elem(&statptr); if (!elem) goto ...]: [Some None] is the
    jump. *)
Definition READELEM {A} (buf : list ascii) (k : cstr -> list ascii -> option (option A)) : option (option A) :=
  '(elem, buf) ← next_stat_elem buf;
  match elem with Some elem => k elem buf | None => Some None end.

(** [switch ( *elem)] on the state letter. *)
Definition process_state (elem : cstr) : Z :=
  match elem with
  | "R"%char :: _ => SRUN
  | "S"%char :: _ | "D"%char :: _ => SSLEEP
  | "T"%char :: _ => SSTOP
  | "Z"%char :: _ => SZOMB
  | _ => SSLEEP
  end.

Definition atoi_int (elem : cstr) : Z := s32 (__simple_atoi elem).1.

(** The part of [load_proc] between the read and the user ids. *)
Definition parse_proc_stat (what flag pid p_flag : Z) (stat : list ascii) : option (option kinfo_proc) :=
  statptr ← skip_stat_elems 1 stat;
  READELEM statptr (λ comm statptr,
  READELEM statptr (λ state statptr,
  READELEM statptr (λ ppid statptr,
  READELEM statptr (λ pgid statptr,
  READELEM statptr (λ sid statptr,
  if (what =? KERN_PROC_SESSION) && negb (atoi_int sid =? flag) then Some None else
  READELEM statptr (λ tty_nr statptr,
  let e_tdev := atoi_int tty_nr in
  statptr ← skip_stat_elems 0 statptr;
  READELEM statptr (λ priority statptr,
  READELEM statptr (λ nice statptr,
  Some (Some (KinfoProc pid (if e_tdev =? 0 then p_flag else Z.lor p_flag P_CONTROLT) (take 17 comm) (process_state state)
    (atoi_int ppid) (atoi_int pgid) e_tdev (u8 (__simple_atoi priority).1) (s8 (__simple_atoi nice).1) 0 0)))))))))).

(** The last [switch] of [load_proc]. *)
Definition proc_selected (what flag : Z) (k : kinfo_proc) : bool :=
  if what =? KERN_PROC_ALL then true
  else if what =? KERN_PROC_PID then flag =? p_pid k
  else if what =? KERN_PROC_TTY then flag =? e_tdev k
  else if what =? KERN_PROC_UID then u32 flag =? u32 (e_uid k)
  else if what =? KERN_PROC_PGRP then flag =? e_pgid k
  else if what =? KERN_PROC_SESSION then true
  else if what =? KERN_PROC_RUID then u32 flag =? u32 (e_uid k)
  else if what =? KERN_PROC_LCID then true
  else false.

Definition with_ids (k : kinfo_proc) (uid gid : Z) : kinfo_proc :=
  KinfoProc (p_pid k) (p_flag k) (p_comm k) (p_stat k) (e_ppid k) (e_pgid k) (e_tdev k) (p_priority k) (p_nice k) uid gid.

(** [char path[size]; __simple_sprintf(path, ...)] *)
Definition sprintf_path (fmt : string) (args : list vararg) (size : nat) : M cstr :=
  '(n, s) ← defined (__simple_sprintf (s2c fmt) args size);
  if n <? Z.of_nat size then mret s else undefined.

(** ext/syslog.c: the bytes stored, and -1 for every error. *)
Definition __linux_syslog (type len : Z) : M (Z * list ascii) :=
  '(rv, data) ← syscall_int_out __NR_syslog [AInt type; AInt len] (OBytes len);
  mret (if rv <? 0 then (-1, []) else (rv, ztake rv data)).

Section Calls.
Context `{LoopFuel, IcaseEnabled}.

(** The initialised bytes of [dst], or [None] for the result [false]. *)
Definition read_string (path : cstr) (maxlen : Z) : M (option (list ascii)) :=
  fd ← sys_open (Some path) BSD_O_RDONLY 0;
  if fd <? 0 then mret None
  else
    '(rd, data) ← sys_read fd (maxlen - 1);
    close_internal fd;;
    mret (if 0 <=? rd then Some (data ++ [NUL]) else None).

(** [static int uid = -1, gid = -1] of [load_proc]. *)
Definition proc_ids : M (Z * Z) :=
  g ← get_state;
  let '(uid, gid) := c_proc_ids (g_caches g) in
  if (uid =? -1) || (gid =? -1) then
    uid ← sys_getuid; gid ← sys_getgid;
    modify_state (λ g, let c := g_caches g in set_caches (Caches (c_lu c) (c_hinfo c) (s32 uid, s32 gid) (c_info_ids c) (c_default_kq c)) g);;
    mret (s32 uid, s32 gid)
  else mret (uid, gid).

Definition load_proc (name : cstr) (what flag : Z) : M (option kinfo_proc) :=
  path ← sprintf_path "/proc/%s/stat" [VStr (Some name)] 56;
  let pid := atoi_int name in
  '(is64, _) ← lkm_call (NR_task_64bit pid);
  stat ← read_string path 1024;
  match stat with
  | None => mret None
  | Some stat =>
    k ← defined (parse_proc_stat what flag pid (if 0 <? is64 then P_LP64 else 0) stat);
    match k with
    | None => mret None
    | Some k =>
      '(uid, gid) ← proc_ids;
      let k := with_ids k uid gid in
      mret (if proc_selected what flag k then Some k else None)
    end
  end.

(** [dent->d_type != DT_DIR || !isdigit(dent->d_name[0])] *)
Definition is_process (dent : bsd_dirent) : bool :=
  (bd_type dent =? DT_DIR) && match bd_name dent with c :: _ => isdigit c | [] => false end.

(** The inner loop over one buffer of entries: the count and the chain. *)
Fixpoint proc_entries (load : bool) (what flag : Z) (dents : list bsd_dirent) : M (Z * list kinfo_proc) :=
  match dents with
  | [] => mret (0, [])
  | dent :: dents =>
    if is_process dent then
      if load then
        cur ← load_proc (bd_name dent) what flag;
        '(n, chain) ← proc_entries load what flag dents;
        mret (match cur with Some k => (1 + n, k :: chain) | None => (n, chain) end)
      else '(n, chain) ← proc_entries load what flag dents; mret (1 + n, chain)
    else proc_entries load what flag dents
  end.

(** The outer loop: the last result of [getdirentries], the count, the chain. *)
Fixpoint proc_scan (fuel : nat) (fd : Z) (load : bool) (what flag : Z) : M (Z * Z * list kinfo_proc) :=
  match fuel with
  | O => out_of_fuel
  | S fuel =>
    '(ret, dents) ← sys_getdirentries fd 256;
    if 0 <? ret then
      '(n, chain) ← proc_entries load what flag dents;
      '(ret, n', chain') ← proc_scan fuel fd load what flag;
      mret (ret, n + n', chain ++ chain')
    else mret (ret, 0, [])
  end.

(** [out] says whether the pointer is not null; the result, [*buflen] and the
    structures stored in [out]. *)
Definition _sysctl_proc (what flag : Z) (out : bool) (buflen : option Z) : M (Z * option Z * list kinfo_proc) :=
  match buflen with
  | None => mret (- EFAULT, None, [])
  | Some len =>
    if (0 <? len) && negb out then mret (- EFAULT, Some len, [])
    else
      fd ← sys_open_nocancel (Some (s2c "/proc")) (Z.lor BSD_O_RDONLY BSD_O_DIRECTORY) 0;
      if fd <? 0 then mret (fd, Some len, [])
      else
        '(ret, nproc, chain) ← proc_scan loop_fuel fd (negb (what =? KERN_PROC_ALL) || (0 <? len)) what flag;
        let total := nproc * sizeof_kinfo_proc in
        close_internal fd;;
        mret (if len <? total then (if out then - ENOSPC else 0, Some total, []) else (ret, Some total, chain))
  end.

(** *** Arguments of a process *)

(** The loop over [cmdline]: [argc], [arg0len] and [argslen].  [prev] is the
    byte before position [i]. *)
Fixpoint args_loop (n : nat) (rest : list ascii) (prev : option ascii) (i argc arg0len : Z) : option (Z * Z * Z) :=
  match n with
  | O => Some (argc, arg0len, 0)
  | S n =>
    match rest with
    | [] => None
    | c :: rest =>
      let nul := if ascii_dec c NUL then true else false in
      let argc' := if nul then argc + 1 else argc in
      let arg0len' := if nul && (argc' =? 1) then i else arg0len in
      if nul && bool_decide (prev = Some NUL) then Some (argc', arg0len', i)
      else args_loop n rest (Some c) (i + 1) argc' arg0len'
    end
  end.

(** Stores to the caller's buffer; [None] when they leave it. *)
Definition store (buf : list ascii) (off : Z) (data : list ascii) : option (list ascii) :=
  if off + Z.of_nat (length data) <=? Z.of_nat (length buf) then Some (write_at buf (Z.to_nat off) data) else None.

Definition procargs_text (pid : Z) : M (option (list ascii)) :=
  path ← sprintf_path "/proc/%d/cmdline" [VNum pid] 56;
  cmdline ← read_string path 2048;
  match cmdline with
  | None => mret None
  | Some cmdline =>
    if bool_decide (head cmdline = Some NUL) then
      path ← sprintf_path "/proc/%d/comm" [VNum pid] 56;
      comm ← read_string path 2048;
      match comm with
      | None => mret None
      | Some comm =>
        match length (c_str comm) with
        | O => undefined
        | S n => mret (Some (<[n := NUL]> comm))
        end
      end
    else mret (Some cmdline)
  end.

(** [buf] is the caller's memory, or [None] for a null pointer. *)
Definition copy_args (buf : option (list ascii)) (buflen : Z) (cmdline : list ascii) : option (Z * Z * option (list ascii)) :=
  '(argc, arg0len, argslen) ← args_loop 2047 cmdline None 0 0 0;
  let totallen := 4 + arg0len + 2 + argslen + 1 in
  if buflen <? totallen then Some (match buf with Some _ => - ENOSPC | None => 0 end, totallen, buf)
  else
    b ← buf;
    b ← store b 0 (int_bytes argc);
    b ← store b 4 (c_str cmdline ++ [NUL]);
    b ← store b (4 + arg0len + 1) [NUL];
    b ← store b (4 + arg0len + 2) [NUL];
    b ← store b (4 + arg0len + 2) (ztake (argslen + 1) cmdline);
    Some (0, totallen, Some b).

(** The result, [*buflen] and the memory of the caller. *)
Definition _sysctl_procargs (pid : Z) (buf : option (list ascii)) (buflen : Z) : M (Z * Z * option (list ascii)) :=
  cmdline ← procargs_text pid;
  match cmdline with
  | None => mret (- ENOTDIR, buflen, buf)
  | Some cmdline => defined (copy_args buf buflen cmdline)
  end.

(** *** proc_info.c *)

(** [static int uid = -1; static int gid = -1;] of [_proc_pidinfo_shortbsdinfo]. *)
Definition info_ids : M (Z * Z) :=
  g ← get_state;
  let '(uid, gid) := c_info_ids (g_caches g) in
  if uid =? -1 then
    uid ← sys_getuid; gid ← sys_getgid;
    modify_state (λ g, let c := g_caches g in set_caches (Caches (c_lu c) (c_hinfo c) (c_proc_ids c) (s32 uid, s32 gid) (c_default_kq c)) g);;
    mret (s32 uid, s32 gid)
  else mret (uid, gid).

(** The members read from [stat]. *)
Definition parse_short_stat (stat : list ascii) : option (option (cstr * Z * Z * Z)) :=
  statptr ← skip_stat_elems 1 stat;
  READELEM statptr (λ comm statptr,
  READELEM statptr (λ state statptr,
  READELEM statptr (λ ppid statptr,
  READELEM statptr (λ pgid statptr,
  Some (Some (take 16 comm, process_state state, u32 (__simple_atoi ppid).1, u32 (__simple_atoi pgid).1)))))).

(** The result, and the structure when it is complete. *)
Definition _proc_pidinfo_shortbsdinfo (pid bufsize : Z) : M (Z * option proc_bsdshortinfo) :=
  if bufsize <? sizeof_proc_bsdshortinfo then mret (- ENOSPC, None)
  else
    path ← sprintf_path "/proc/%d/stat" [VNum pid] 64;
    stat ← read_string path 1024;
    match stat with
    | None => mret (- ESRCH, None)
    | Some stat =>
      r ← defined (parse_short_stat stat);
      match r with
      | None => mret (- EINVAL, None)
      | Some (comm, status, ppid, pgid) =>
        '(uid, gid) ← info_ids;
        '(is64, _) ← lkm_call (NR_task_64bit pid);
        mret (1, Some (ShortInfo (u32 pid) ppid pgid status comm (if 0 <? is64 then P_LP64 else 0)
                           (u32 uid) (u32 gid) (u32 uid) (u32 gid) (u32 uid) (u32 gid)))
      end
    end.

Definition _proc_pidinfo_tbsdinfo (pid bufsize : Z) : M (Z * option proc_bsdinfo) :=
  if bufsize <? sizeof_proc_bsdinfo then mret (- ENOSPC, None)
  else
    '(err, info) ← _proc_pidinfo_shortbsdinfo pid sizeof_proc_bsdshortinfo;
    if err <? 0 then mret (err, None)
    else
      i ← defined info;
      mret (err, Some (BsdInfo (pbsi_flags i) (pbsi_status i) (pbsi_pid i) (pbsi_ppid i) (pbsi_uid i) (pbsi_gid i)
        (pbsi_ruid i) (pbsi_rgid i) (pbsi_svuid i) (pbsi_svgid i) (pbsi_comm i) (pbsi_pgid i))).

(** The element after [n] others, as a number. *)
Definition stat_number (n : nat) (buf : list ascii) : option (option (Z * list ascii)) :=
  statptr ← skip_stat_elems n buf;
  READELEM statptr (λ elem statptr, Some (Some ((__simple_atoi elem).1, statptr))).

Definition unique_id (starttime pid : Z) : Z := Z.lor (u64 (Z.shiftl starttime 16)) (Z.land pid 0xffff).

(** [p_uniqueid] and [p_puniqueid]. *)
Definition _proc_pidonfo_uniqinfo (pid bufsize : Z) : M (Z * option (Z * Z)) :=
  if bufsize <? sizeof_proc_uniqidentifierinfo then mret (- ENOSPC, None)
  else
    path ← sprintf_path "/proc/%d/stat" [VNum pid] 64;
    stat ← read_string path 1024;
    match stat with
    | None => mret (- ESRCH, None)
    | Some stat =>
      r ← defined (stat_number 3 stat);
      match r with
      | None => mret (- EINVAL, None)
      | Some (ppid, statptr) =>
        let ppid := s32 ppid in
        r ← defined (stat_number 17 statptr);
        match r with
        | None => mret (- EINVAL, None)
        | Some (starttime, _) =>
          path ← sprintf_path "/proc/%d/stat" [VNum ppid] 64;
          stat ← read_string path 1024;
          match stat with
          | None => mret (- ESRCH, None)
          | Some stat =>
            r ← defined (stat_number 21 stat);
            match r with
            | None => mret (- EINVAL, None)
            | Some (pstart, _) => mret (1, Some (unique_id starttime pid, unique_id pstart ppid))
            end
          end
        end
      end
    end.

(** [pth_name] of 64 bytes; the line feed at its end is removed. *)
Definition _proc_pidinfo_pidthreadinfo (pid thread_handle bufsize : Z) : M (Z * option cstr) :=
  let tid := s32 (Z.land thread_handle 0xffffffff) in
  if bufsize <? sizeof_proc_threadinfo then mret (- ENOSPC, None)
  else
    path ← sprintf_path "/proc/%d/task/%d/comm" [VNum pid; VNum tid] 64;
    name ← read_string path 64;
    match name with
    | None => mret (- ESRCH, None)
    | Some name =>
      let name := c_str name in
      mret (1, Some (if bool_decide (last name = Some LF) then removelast name else name))
    end.

(** unistd/readlinkat.c, with the bytes that come back. *)
Definition sys_readlink_out (path : cstr) (count : Z) : M (Z * list ascii) :=
  wd ← get_perthread_wd;
  dfd ← atfd wd;
  expanding (λ e, (e, [])) false dfd path (λ dfd path,
    '(ret, data) ← syscall_int_out __NR_readlinkat [AInt dfd; AStr path; AInt count] (OBytes count);
    mret (bsd_ret ret, if ret <? 0 then [] else ztake ret data)).

(** The result and the text in the buffer; the local copy is [char path[4096]]. *)
Definition _proc_pidinfo_pathinfo (pid bufsize : Z) : M (Z * option cstr) :=
  path ← sprintf_path "/proc/%d/exe" [VNum pid] 64;
  '(rv, data) ← sys_readlink_out path (bufsize - 1);
  if rv <? 0 then mret (rv, None)
  else
    let target := c_str data in
    if 4096 <=? strlen target then undefined
    else
      '(rv, p) ← vchroot_unexpand target;
      if negb (rv =? 0) then mret (rv, None) else mret (strlen p, Some (ztake bufsize p)).

(** *** Memory regions: /proc/<pid>/smaps *)

(** [*p], and the numbers at [p] with the rest of the text; [None] past the
    end of the line. *)
Definition deref (p : list ascii) : option ascii := head p.
Definition atoi_at (p : list ascii) : option (Z * list ascii) := match p with [] => None | _ => Some (__simple_atoi p) end.
Definition atoi16_at (p : list ascii) : option (Z * list ascii) := match p with [] => None | _ => Some (__simple_atoi16 p) end.

(** The first loop: the text after the last minus sign before a space (or the
    end), and the text from there on. *)
Fixpoint address_range (minus : option (list ascii)) (p : list ascii) : option (option (list ascii) * list ascii) :=
  match p with
  | [] => None
  | c :: r =>
    if ascii_dec c NUL then Some (minus, p)
    else if ascii_dec c SPACE then Some (minus, p)
    else address_range (if ascii_dec c "-"%char then Some r else minus) r
  end.

Definition test_char (c : ascii) (p : list ascii) (mask : Z) : option (Z * list ascii) :=
  x ← deref p; Some (if ascii_dec x c then mask else 0, drop 1 p).

Fixpoint skip_chars (c : ascii) (p : list ascii) : list ascii :=
  match p with [] => [] | x :: r => if ascii_dec x c then skip_chars c r else p end.

(** [line] with its terminator, and the structure with what earlier lines have
    left in it.  [full] says whether the pointers to the protection, the share
    mode and the rest are given, or only those of address, size and path.  The
    result is whether the line begins a mapping. *)
Definition parse_smaps_firstline (full : bool) (line : list ascii) (r : region) : option (bool * region) :=
  '(minus, p) ← address_range None line;
  match minus with
  | None => Some (false, r)
  | Some minus =>
    '(address, _) ← atoi16_at line;
    '(high, _) ← atoi16_at minus;
    let size := u64 (high - address) in
    let p := drop 1 p in
    '(prot, p) ← (if full then
        '(pr, p) ← test_char "r"%char p VM_PROT_READ;
        '(pw, p) ← test_char "w"%char p VM_PROT_WRITE;
        '(px, p) ← test_char "x"%char p VM_PROT_EXECUTE;
        Some (or_all [pr; pw; px], p)
      else Some (r_protection r, drop 3 p));
    '(share, p) ← (if full then
        c ← deref p; Some (if ascii_dec c "p"%char then SM_PRIVATE else SM_SHARED, drop 1 p)
      else Some (r_share_mode r, drop 1 p));
    let p := drop 1 p in
    '(offset, p) ← atoi16_at p;
    let p := drop 1 p in
    '(maj, p) ← atoi16_at p;
    let p := drop 1 p in
    '(min, p) ← atoi16_at p;
    let p := drop 1 p in
    let dev := u32 (Z.lor (s32 (Z.shiftl (s32 maj) 8)) (s32 min)) in
    '(ino, p) ← atoi_at p;
    let p := skip_chars SPACE p in
    c ← deref p;
    let name := c_str p in
    path ← (if ascii_dec c NUL then Some (r_path r)
            else if MAXPATHLEN <=? strlen name then None else Some (Some name));
    Some (true, Region address size prot share (if full then offset else r_offset r) (if full then dev else r_dev r)
                       (if full then ino else r_ino r) path)
  end.

Definition in_region (arg : Z) (r : region) : bool := (r_address r <=? arg) && (arg <? u64 (r_address r + r_size r)).

(** Members that were not written yet. *)
Definition blank : region := Region 0 0 0 0 0 0 0 None.

Definition _proc_pidinfo_regionpath_setup (pid : Z) : M (Z * rdline_buffer) :=
  path ← sprintf_path "/proc/%d/smaps" [VNum pid] 50;
  fd ← sys_open_nocancel (Some path) BSD_O_RDONLY 0;
  mret (fd, _readline_init (RdlineBuffer (replicate (Z.to_nat rd_size) NUL) 0 0)).

(** The loops over the lines; [stop] says whether they end at the match. *)
Fixpoint region_loop (fuel : nat) (stop full : bool) (fd : Z) (buf : rdline_buffer) (arg : Z) (found : bool) (r : region)
    : M (bool * region) :=
  match fuel with
  | O => out_of_fuel
  | S fuel =>
    '(line, buf) ← _readline fd buf;
    match line with
    | None => mret (found, r)
    | Some line =>
      if found then region_loop fuel stop full fd buf arg found r
      else
        '(starts, r) ← defined (parse_smaps_firstline full (line ++ [NUL]) r);
        let found := starts && in_region arg r in
        if found && stop then mret (found, r) else region_loop fuel stop full fd buf arg found r
    end
  end.

Definition _proc_pidinfo_regionpathinfo (pid arg : Z) (buffer : bool) (bufsize : Z) : M (Z * option region) :=
  if negb buffer then mret (- EFAULT, None)
  else if bufsize <? sizeof_proc_regionwithpathinfo then mret (- ENOSPC, None)
  else
    '(fd, buf) ← _proc_pidinfo_regionpath_setup pid;
    if fd <? 0 then mret (fd, None)
    else
      '(found, r) ← region_loop loop_fuel false true fd buf arg false blank;
      close_internal fd;;
      mret (if found : bool then 1 else - ESRCH, Some r).

Definition _proc_pidinfo_regionpath (pid arg : Z) (buffer : bool) (bufsize : Z) : M (Z * option region) :=
  if negb buffer then mret (- EFAULT, None)
  else if bufsize <? sizeof_proc_regionpath then mret (- ENOSPC, None)
  else
    '(fd, buf) ← _proc_pidinfo_regionpath_setup pid;
    if fd <? 0 then mret (fd, None)
    else
      '(found, r) ← region_loop loop_fuel true false fd buf arg false blank;
      close_internal fd;;
      mret (if found : bool then 0 else - EINVAL, Some r).

(** *** Dispatch *)

(** What a call leaves in the caller's buffer. *)
Inductive proc_info_out :=
| PiNone | PiBytes (b : list ascii) | PiShort (i : proc_bsdshortinfo) | PiBsd (i : proc_bsdinfo) | PiUniq (ids : Z * Z)
| PiName (name : cstr) | PiRegion (r : region).

Definition pi_out {A} (mk : A -> proc_info_out) (m : M (Z * option A)) : M (Z * proc_info_out) :=
  '(ret, o) ← m; mret (ret, match o with Some a => mk a | None => PiNone end).

(** A message on standard output, which does not change the result. *)
Definition message (fmt : string) (args : list vararg) : M unit :=
  r ← __simple_printf (s2c fmt) args; defined r.

Definition _proc_pidinfo (pid flavor arg : Z) (buffer : bool) (bufsize : Z) : M (Z * proc_info_out) :=
  if flavor =? PROC_PIDREGIONPATHINFO then pi_out PiRegion (_proc_pidinfo_regionpathinfo pid arg buffer bufsize)
  else if flavor =? PROC_PIDT_SHORTBSDINFO then pi_out PiShort (_proc_pidinfo_shortbsdinfo pid bufsize)
  else if flavor =? PROC_PIDUNIQIDENTIFIERINFO then pi_out PiUniq (_proc_pidonfo_uniqinfo pid bufsize)
  else if flavor =? PROC_PIDTBSDINFO then pi_out PiBsd (_proc_pidinfo_tbsdinfo pid bufsize)
  else if flavor =? PROC_PIDTHREADINFO then pi_out PiName (_proc_pidinfo_pidthreadinfo pid arg bufsize)
  else if flavor =? PROC_PIDPATHINFO then pi_out PiName (_proc_pidinfo_pathinfo pid bufsize)
  else if flavor =? PROC_PIDREGIONPATH then pi_out PiRegion (_proc_pidinfo_regionpath pid arg buffer bufsize)
  else message "sys_proc_info(): Unsupported pidinfo flavor: %d" [VNum flavor];; mret (- ENOTSUP, PiNone).

(** [name] is the string in the buffer, for the thread name. *)
Definition sys_proc_info (callnum pid flavor arg : Z) (buffer : bool) (name : cstr) (bufsize : Z) : M (Z * proc_info_out) :=
  if callnum =? 4 then
    '(ret, data) ← __linux_syslog SYSLOG_ACTION_READ_ALL bufsize;
    if ret <? 0 then mret (errno_linux_to_bsd ret, PiNone) else mret (ret, PiBytes data)
  else if callnum =? 5 then
    if flavor =? 2 then
      ret ← syscall_int __NR_prctl [AInt LINUX_PR_SET_NAME; AStr name; AInt 0; AInt 0; AInt 0]; mret (bsd_ret ret, PiNone)
    else mret (0, PiNone)
  else if callnum =? 8 then mret (0, PiNone)
  else if callnum =? 2 then _proc_pidinfo pid flavor arg buffer bufsize
  else message "sys_proc_info(): Unsupported callnum: %d" [VNum callnum];; mret (- ENOTSUP, PiNone).
End Calls.

(** ** Lemmas: elements of the stat line *)

Definition word (e : cstr) : Prop := e ≠ [] ∧ (SPACE ∉ e) ∧ (NUL ∉ e) ∧ head e ≠ Some LPAREN.

Lemma scan_to_stop stop e r : stop ∉ e -> NUL ∉ e -> scan_to stop (e ++ stop :: r) = Some e.
Proof.
  intros Hs Hn. induction e as [|c e IH]; simpl; [by destruct (ascii_dec stop stop)|].
  apply not_elem_of_cons in Hs as [Hc Hs]. apply not_elem_of_cons in Hn as [Hc' Hn].
  destruct (ascii_dec c stop); [done|]. destruct (ascii_dec c NUL); [by subst|]. by rewrite IH.
Qed.

Lemma next_word e r : word e -> next_stat_elem (e ++ SPACE :: r) = Some (Some e, r).
Proof.
  intros (Hne & Hs & Hn & Hp). pose proof (scan_to_stop SPACE e r Hs Hn) as Hscan. destruct e as [|c e]; [done|].
  unfold next_stat_elem. simpl app in *. apply not_elem_of_cons in Hn as [Hc Hn].
  destruct (ascii_dec c NUL); [by subst|]. destruct (ascii_dec c LPAREN); [by subst|]. rewrite Hscan. simpl. do 2 f_equal.
  rewrite Nat.add_1_r. simpl. change (drop (S (length e)) (e ++ SPACE :: r) = r). rewrite cons_middle, app_assoc.
  apply drop_app_length'. rewrite length_app. simpl. lia.
Qed.

Lemma next_comm c r : RPAREN ∉ c -> NUL ∉ c -> next_stat_elem (LPAREN :: c ++ RPAREN :: SPACE :: r) = Some (Some c, r).
Proof.
  intros Hc Hn. simpl. rewrite scan_to_stop by done. simpl. do 2 f_equal.
  replace (c ++ RPAREN :: SPACE :: r) with ((c ++ [RPAREN; SPACE]) ++ r) by (rewrite <- app_assoc; done).
  apply drop_app_length'. rewrite length_app. simpl. lia.
Qed.

Lemma READELEM_word {A} e r (k : cstr -> list ascii -> option (option A)) : word e -> READELEM (e ++ SPACE :: r) k = k e r.
Proof. intros He. unfold READELEM. by rewrite next_word. Qed.

Lemma READELEM_comm {A} c r (k : cstr -> list ascii -> option (option A)) :
  RPAREN ∉ c -> NUL ∉ c -> READELEM (LPAREN :: c ++ RPAREN :: SPACE :: r) k = k c r.
Proof. intros Hc Hn. unfold READELEM. by rewrite next_comm. Qed.

(** Words, each followed by a space. *)
Definition spaced (ws : list cstr) (tail : list ascii) : list ascii := foldr (λ w acc, w ++ SPACE :: acc) tail ws.

(** proc(5): the process id, the name in parentheses, the state and numbers. *)
Definition stat_line (pid comm : cstr) (fields : list cstr) (tail : list ascii) : list ascii :=
  pid ++ SPACE :: LPAREN :: comm ++ RPAREN :: SPACE :: spaced fields tail.

(** A name the parser can read: Linux allows any other, too. *)
Definition plain_comm (c : cstr) : Prop := (RPAREN ∉ c) ∧ (NUL ∉ c).

Lemma skip_words n ws tail : Forall word ws -> (n <= length ws)%nat -> skip_stat_elems n (spaced ws tail) = Some (spaced (drop n ws) tail).
Proof.
  revert ws. induction n as [|n IH]; intros ws Hw Hn; [done|]. destruct ws as [|w ws]; simpl in Hn; [lia|].
  apply Forall_cons in Hw as [Hw Hws]. change (spaced (w :: ws) tail) with (w ++ SPACE :: spaced ws tail).
  cbn [skip_stat_elems]. rewrite next_word by done. cbn [mbind option_bind]. apply IH; [done|lia].
Qed.

Lemma skip_stat_line n pid comm ws tail :
  word pid -> plain_comm comm -> Forall word ws -> (n <= length ws)%nat ->
  skip_stat_elems (2 + n) (stat_line pid comm ws tail) = Some (spaced (drop n ws) tail).
Proof.
  intros Hp [Hc Hn] Hw Hl. unfold stat_line. cbn [skip_stat_elems Nat.add]. rewrite next_word by done. cbn [mbind option_bind].
  rewrite next_comm by done. cbn [mbind option_bind]. by apply skip_words.
Qed.

Lemma stat_number_at n pid comm ws w tail :
  word pid -> plain_comm comm -> Forall word ws -> ws !! n = Some w ->
  stat_number (2 + n) (stat_line pid comm ws tail) = Some (Some ((__simple_atoi w).1, spaced (drop (S n) ws) tail)).
Proof.
  intros Hp Hc Hw Hn. unfold stat_number. pose proof (lookup_lt_Some _ _ _ Hn).
  rewrite skip_stat_line by (done || lia). cbn [mbind option_bind]. rewrite (drop_S ws w n) by done.
  change (spaced (w :: drop (S n) ws) tail) with (w ++ SPACE :: spaced (drop (S n) ws) tail).
  rewrite READELEM_word; [done|]. by eapply Forall_lookup_1 in Hw.
Qed.

Ltac next_elem := rewrite READELEM_word by done; cbv beta.

(** The stat line of a process gives its name, state,
    parent, group and terminal; a session filter drops the process when its
    session is another one.  The members [p_priority] and [p_nice] come from the
    next two fields of the line, the terminal's process group and the kernel
    flags, because the call that should skip to the priority skips nothing. *)
Theorem proc_stat_fields what flag pid f pidt comm state ppid pgid sid tty tpgid kflags tail :
  word pidt -> plain_comm comm -> Forall word [state; ppid; pgid; sid; tty; tpgid; kflags] ->
  parse_proc_stat what flag pid f (stat_line pidt comm [state; ppid; pgid; sid; tty; tpgid; kflags] tail) =
  Some (if (what =? KERN_PROC_SESSION) && negb (atoi_int sid =? flag) then None
        else Some (KinfoProc pid (if atoi_int tty =? 0 then f else Z.lor f P_CONTROLT) (take 17 comm) (process_state state)
                             (atoi_int ppid) (atoi_int pgid) (atoi_int tty)
                             (u8 (__simple_atoi tpgid).1) (s8 (__simple_atoi kflags).1) 0 0)).
Proof.
  intros Hp [Hc Hn] Hw. rewrite !Forall_cons in Hw. destruct Hw as (H1 & H2 & H3 & H4 & H5 & H6 & H7 & _).
  unfold parse_proc_stat, stat_line. cbn [skip_stat_elems]. rewrite next_word by done. cbn [mbind option_bind].
  rewrite READELEM_comm by done. cbv beta. unfold spaced. cbn [foldr]. repeat next_elem.
  destruct (_ && _); [done|]. repeat next_elem. cbv zeta. cbn [skip_stat_elems mbind option_bind]. by repeat next_elem.
Qed.

(** ** Reading a file of /proc *)

(** A host on which every read gives the beginning of a text [content]. *)
Definition proc_read (content : list ascii) {X : Set} (e : linuxE X) : X -> Prop :=
  match e in linuxE X return X -> Prop with
  | SysOut nr _ o =>
    match o in outk Y return Z * Y -> Prop with
    | OBytes n => λ r, nr = __NR_read -> r.1 < 0 ∨ r.2 = ztake n content
    | _ => λ _, True
    end
  | _ => λ _, True
  end.

Definition proc_host `{IcaseEnabled} (prefix : cstr) (content : list ascii) : protocol := Protocol
  (@may_call (vchroot_host false prefix))
  (λ X e x, responds (vchroot_host false prefix) e x ∧ proc_read content e x)
  (icase_enabled = true).

(** The arguments of a request are numbers or resolved paths. *)
Ltac args_ok := simpl; repeat first [apply Forall_nil_2 | apply Forall_cons_2; [first [assumption | exact I]|]].

Section FileHost.
Context `{LoopFuel, IcaseEnabled}.
Context (prefix : cstr) (content : list ascii).
Hypothesis Hprefix : prefix_dir prefix.

Abbreviation host := (proc_host prefix content).

Lemma proc_host_wp {A} (m : M A) g Q : wp (vchroot_host false prefix) m g Q -> wp host m g Q.
Proof. apply wp_host_mono; [done|by intros X e x [Hx _]|done]. Qed.

Lemma cancel_file {A} (early : Z -> A) (m : M A) g (Q : A -> gstate -> Prop) :
  Q (early (- EINTR)) g -> wp host m g Q -> wp host (CANCELATION_POINT early m) g Q.
Proof.
  intros He Hm. unfold CANCELATION_POINT, sys_pthread_canceled. wp_step. wp_step. wp_step.
  destruct (_ && _); [by wp_step|]. wp_step. apply wp_lkm_call; [done|]. intros r [] _. wp_step.
  destruct (_ =? _); [by wp_step|done].
Qed.

Lemma expanding_file {A} (fail : Z -> A) follow dfd path (k : Z -> cstr -> M A) g (Q : A -> gstate -> Prop) :
  prefix_state prefix g -> (∀ e g', prefix_state prefix g' -> Q (fail e) g') ->
  (∀ d p g', prefix_state prefix g' -> arg_ok false prefix (AStr p) -> wp host (k d p) g' Q) ->
  wp host (expanding fail follow dfd path k) g Q.
Proof.
  intros Hg Hfail Hk. unfold expanding. wp_step.
  apply proc_host_wp. eapply wp_mono; [by apply (vchroot_expand_wp false prefix Hprefix)|]. intros [ret vc] g' [Hkn Hres].
  assert (prefix_state prefix g') by by left. simpl in Hres. destruct (Z.ltb_spec ret 0); [wp_step; by apply Hfail|].
  destruct Hres as [(_ & Habs & _ & Hu)|[? _]]; [|lia]. apply Hk; [done|]. right. by split.
Qed.

Lemma open_file path flags mode g (Q : Z -> gstate -> Prop) :
  prefix_state prefix g -> (∀ r g', prefix_state prefix g' -> Q r g') -> wp host (sys_open (Some path) flags mode) g Q.
Proof.
  intros Hg HQ. unfold sys_open. apply cancel_file; [by apply HQ|]. unfold sys_open_nocancel, sys_openat_nocancel.
  wp_step. apply wp_get_perthread_wd. wp_step. apply atfd_wp. intros d. apply expanding_file; [done|by intros; apply HQ|].
  intros d' p g' Hg' Hp. wp_step. apply wp_syscall_int; [args_ok|]. intros r _. wp_step. by apply HQ.
Qed.

Lemma read_file fd n g (Q : Z * list ascii -> gstate -> Prop) :
  n <= INT_MAX -> (∀ r, r < 0 -> Q (r, []) g) -> Q (0, []) g ->
  (∀ data, data = ztake n content -> Q (strlen data, data) g) -> wp host (sys_read fd n) g Q.
Proof.
  intros Hn Hneg H0' Hok. unfold sys_read. apply cancel_file; [by apply Hneg|]. unfold sys_read_nocancel.
  wp_step. apply wp_syscall_int_out; [by repeat constructor|]. intros r data [Hr Hf]. simpl in Hr, Hf.
  destruct Hr as ([Hr|(Hr & Hle & _)] & _); simpl in *.
  - rewrite s32_id by (unfold INT_MIN, INT_MAX in *; lia). rewrite (proj2 (Z.ltb_lt _ _)) by lia.
    destruct (_ =? _); [|wp_step; apply Hneg, errno_negative; lia].
    unfold __real_ioctl. wp_step. wp_step. apply wp_syscall_int; [by repeat constructor|]. intros r' _. wp_step.
    destruct (_ =? _); wp_step; [done|apply Hneg, errno_negative; lia].
  - destruct (Hf eq_refl) as [?|Hd]; [pose proof (strlen_nonneg data); lia|].
    pose proof (strlen_nonneg data). rewrite s32_id by (unfold INT_MIN, INT_MAX in *; lia). rewrite (proj2 (Z.ltb_ge _ _)) by lia.
    wp_step. rewrite Hr, ztake_strlen by done. by apply Hok.
Qed.

Lemma close_file fd g (Q : Z -> gstate -> Prop) : (∀ r, Q r g) -> wp host (close_internal fd) g Q.
Proof. intros HQ. unfold close_internal. wp_step. apply wp_syscall_int; [by repeat constructor|]. intros r _. wp_step. apply HQ. Qed.

(** [read_string] fails, gives the empty string (a terminal that hung up), or
    the beginning of the file. *)
Lemma read_string_wp path n g (Q : option (list ascii) -> gstate -> Prop) :
  0 <= n <= INT_MAX -> prefix_state prefix g -> (∀ g', prefix_state prefix g' -> Q None g') ->
  (∀ g', prefix_state prefix g' -> Q (Some [NUL]) g') ->
  (∀ g', prefix_state prefix g' -> Q (Some (ztake (n - 1) content ++ [NUL])) g') -> wp host (read_string path n) g Q.
Proof.
  intros Hn Hg Hnone Hnul Hok. unfold read_string. wp_step. apply open_file; [done|]. intros fd g' Hg'.
  destruct (_ <? _); [wp_step; by apply Hnone|]. wp_step. apply read_file; [lia|..].
  - intros r Hr. wp_step. apply close_file. intros r'. wp_step. rewrite (proj2 (Z.leb_gt _ _)) by lia. by apply Hnone.
  - wp_step. apply close_file. intros r'. wp_step. by apply Hnul.
  - intros data ->. wp_step. apply close_file. intros r'. wp_step.
    rewrite (proj2 (Z.leb_le _ _)) by apply strlen_nonneg. by apply Hok.
Qed.

Lemma getid_file (m : M Z) g (Q : Z -> gstate -> Prop) :
  m = sys_getuid ∨ m = sys_getgid -> (∀ z, Q z g) -> wp host m g Q.
Proof.
  intros [->| ->] HQ; (unfold sys_getuid || unfold sys_getgid); wp_step; apply wp_lkm_call; [done| |done|];
    intros r [u gi] _; wp_step; apply HQ.
Qed.

Lemma info_ids_wp g (Q : Z * Z -> gstate -> Prop) :
  prefix_state prefix g -> (∀ ids g', prefix_state prefix g' -> Q ids g') -> wp host info_ids g Q.
Proof.
  intros Hg HQ. unfold info_ids. wp_step. wp_step. destruct (c_info_ids _) as [uid gid]. destruct (_ =? _); [|wp_step; by apply HQ].
  wp_step. apply getid_file; [by left|]. intros u. wp_step. apply getid_file; [by right|]. intros gi.
  wp_step. wp_step. wp_step. by apply HQ.
Qed.
End FileHost.

(** ** Theorems *)

(** The part of a line up to the last of [ws] does not depend on the rest. *)
Lemma spaced_app ws t t' : spaced ws (t ++ t') = spaced ws t ++ t'.
Proof. induction ws as [|w ws IH]; [done|]. unfold spaced in *. simpl. by rewrite IH, <- app_assoc. Qed.

Lemma stat_line_app pid comm ws t t' : stat_line pid comm ws (t ++ t') = stat_line pid comm ws t ++ t'.
Proof. unfold stat_line. rewrite spaced_app. by rewrite <- !app_assoc, !app_comm_cons, <- !app_assoc. Qed.

Lemma stat_line_cut n pid comm ws tail :
  Z.of_nat (length (stat_line pid comm ws [])) <= n ->
  ∃ tail', ztake n (stat_line pid comm ws tail) ++ [NUL] = stat_line pid comm ws tail'.
Proof.
  intros Hn. exists (take (Z.to_nat n - length (stat_line pid comm ws [])) tail ++ [NUL]).
  change tail with ([] ++ tail) at 1. rewrite stat_line_app. unfold ztake. rewrite take_app_ge by lia.
  rewrite <- app_assoc. symmetry. apply (stat_line_app pid comm ws []).
Qed.

Lemma sprintf_path_wp Ψ fmt args size text g (Q : cstr -> gstate -> Prop) :
  format_text (s2c fmt) args = Some text -> Forall (.≠ NUL) text -> (length text < size)%nat -> strlen text <= INT_MAX ->
  Q text g -> wp Ψ (sprintf_path fmt args size) g Q.
Proof.
  intros Ht Hn Hl Hm HQ. unfold sprintf_path. eapply wp_bind_defined; [by eapply sprintf_text|]. cbv beta iota.
  rewrite (proj2 (Z.ltb_lt _ _)) by (unfold strlen; lia). by wp_step.
Qed.

(** [/proc/<pid>/stat] *)
Definition stat_path (pid : Z) : cstr := default [] (format_text (s2c "/proc/%d/stat") [VNum pid]).

Lemma stat_path_wp Ψ pid g (Q : cstr -> gstate -> Prop) : s32 pid ≠ INT_MIN -> Q (stat_path pid) g -> wp Ψ (sprintf_path "/proc/%d/stat" [VNum pid] 64) g Q.
Proof.
  intros Hpid HQ. destruct (conversion_d_text pid Hpid) as (d & Hd & Hnul & Hlen).
  assert (format_text (s2c "/proc/%d/stat") [VNum pid] = Some (s2c "/proc/" ++ d ++ s2c "/stat")) as Hf.
  { rewrite (format_text_literal (s2c "/proc/") (s2c "%d" ++ s2c "/stat")), format_text_d, Hd by (repeat constructor; discriminate). done. }
  apply (sprintf_path_wp _ _ _ _ (s2c "/proc/" ++ d ++ s2c "/stat")); [done| | | |].
  - rewrite !Forall_app. split_and!; [|done|]; repeat constructor; by vm_compute.
  - rewrite !length_app. simpl. lia.
  - unfold strlen. rewrite !length_app. unfold INT_MAX. simpl. lia.
  - unfold stat_path in HQ. by rewrite Hf in HQ.
Qed.

Lemma parse_short_line pid comm state ppid pgid tail :
  word pid -> plain_comm comm -> Forall word [state; ppid; pgid] ->
  parse_short_stat (stat_line pid comm [state; ppid; pgid] tail) =
  Some (Some (take 16 comm, process_state state, u32 (__simple_atoi ppid).1, u32 (__simple_atoi pgid).1)).
Proof.
  intros Hp [Hc Hn] Hw. rewrite !Forall_cons in Hw. destruct Hw as (H1 & H2 & H3 & _).
  unfold parse_short_stat, stat_line. cbn [skip_stat_elems]. rewrite next_word by done. cbn [mbind option_bind].
  rewrite READELEM_comm by done. cbv beta. unfold spaced. cbn [foldr]. by repeat next_elem.
Qed.

(** When the kernel's stat line for the process begins
    with the given name, state, parent and group, within the 1023 bytes that
    are read, the short information holds exactly these; the call can only
    fail because the file cannot be opened or read. *)
Theorem shortbsdinfo_fields `{LoopFuel, IcaseEnabled} prefix pid bufsize g pidt comm state ppid pgid tail :
  prefix_dir prefix -> prefix_state prefix g -> s32 pid ≠ INT_MIN -> sizeof_proc_bsdshortinfo <= bufsize ->
  word pidt -> plain_comm comm -> Forall word [state; ppid; pgid] ->
  Z.of_nat (length (stat_line pidt comm [state; ppid; pgid] [])) <= 1023 ->
  wp (proc_host prefix (stat_line pidt comm [state; ppid; pgid] tail)) (_proc_pidinfo_shortbsdinfo pid bufsize) g
    (λ r _, r = (- ESRCH, None) ∨ r = (- EINVAL, None) ∨
       ∃ flags uid gid, r = (1, Some (ShortInfo (u32 pid) (u32 (__simple_atoi ppid).1) (u32 (__simple_atoi pgid).1)
         (process_state state) (take 16 comm) flags uid gid uid gid uid gid)) ∧ (flags = 0 ∨ flags = P_LP64)).
Proof.
  intros Hp Hg Hmin Hb Hpid Hc Hw Hlen. unfold _proc_pidinfo_shortbsdinfo. rewrite (proj2 (Z.ltb_ge _ _)) by lia.
  wp_step. apply stat_path_wp; [done|]. wp_step. destruct (stat_line_cut 1023 pidt comm [state; ppid; pgid] tail Hlen) as [tail' Hcut].
  apply read_string_wp; [done|by vm_compute|done|..].
  - intros g' Hg'. wp_step. by left.
  - intros g' Hg'. eapply wp_bind_defined; [done|]. cbv beta iota. wp_step. by right; left.
  - intros g' Hg'. change (1024 - 1) with 1023. rewrite Hcut. eapply wp_bind_defined; [by apply parse_short_line|]. cbv beta iota.
    wp_step. apply info_ids_wp; [done|]. intros [uid gid] g2 Hg2. wp_step. apply wp_lkm_call; [done|]. intros r [] _. wp_step.
    right; right. eexists _, (u32 uid), (u32 gid). split; [done|]. destruct (_ <? _); auto.
Qed.

Lemma shortbsdinfo_fields_witness :
  let _ := (10%nat : LoopFuel) in let _ := (false : IcaseEnabled) in
  wp (proc_host (s2c "/p") (stat_line (s2c "7") (s2c "a b") [s2c "R"; s2c "1"; s2c "7"] (s2c "0")))
     (_proc_pidinfo_shortbsdinfo 7 64) (set_prefix (s2c "/p") 2 init_gstate)
    (λ r _, r = (- ESRCH, None) ∨ r = (- EINVAL, None) ∨
       ∃ flags uid gid, r = (1, Some (ShortInfo 7 1 7 SRUN (s2c "a b") flags uid gid uid gid uid gid)) ∧ (flags = 0 ∨ flags = P_LP64)).
Proof.
  intros ? ?. apply (shortbsdinfo_fields (s2c "/p") 7 64 (set_prefix (s2c "/p") 2 init_gstate) (s2c "7") (s2c "a b") (s2c "R") (s2c "1") (s2c "7") (s2c "0")).
  - split; [|by vm_compute]. split; [right; by eexists|by vm_compute].
  - by left.
  - by vm_compute.
  - done.
  - by vm_compute; set_solver.
  - split; by vm_compute; set_solver.
  - repeat constructor; by vm_compute; set_solver.
  - done.
Defined.

(** *** Arguments of a process *)

Lemma args_loop_text n a r prev i argc a0 :
  NUL ∉ a -> args_loop (length a + n) (a ++ r) prev i argc a0 =
  args_loop n r (if decide (a = []) then prev else last a) (i + strlen a) argc a0.
Proof.
  revert prev i. induction a as [|c a IH]; intros prev i Hn; [by rewrite Z.add_0_r|].
  apply not_elem_of_cons in Hn as [Hc Hn]. simpl. destruct (ascii_dec c NUL) as [->|_]; [done|]. simpl.
  rewrite IH by done. rewrite strlen_cons. f_equal; [|lia]. destruct a as [|c' a]; [done|]. simpl. done.
Qed.

(** A command line: arguments, each with its terminator. *)
Definition cmdline_text (args : list cstr) : list ascii := args ≫= (λ a, a ++ [NUL]).

Lemma args_loop_args args n prev i argc a0 :
  Forall (λ a, a ≠ [] ∧ (NUL ∉ a)) args -> (length (cmdline_text args) < n)%nat -> (args = [] -> prev = Some NUL) ->
  0 <= argc -> (args = [] -> 0 < argc) ->
  args_loop n (cmdline_text args ++ [NUL]) prev i argc a0 =
  Some (argc + Z.of_nat (length args) + 1,
        match args with a :: _ => if argc =? 0 then i + strlen a else a0 | [] => a0 end, i + strlen (cmdline_text args)).
Proof.
  revert n prev i argc a0. induction args as [|a args IH]; intros n prev i argc a0 Ha Hn Hprev Hc0 Hc.
  - destruct n as [|n]; [simpl in Hn; lia|]. rewrite Hprev by done. specialize (Hc eq_refl).
    cbn [cmdline_text mbind list_bind app args_loop length]. destruct (ascii_dec NUL NUL) as [_|]; [|done]. simpl andb.
    rewrite (proj2 (Z.eqb_neq _ _)) by lia. cbv iota. change (strlen (cmdline_text [])) with 0. by rewrite !Z.add_0_r.
  - apply Forall_cons in Ha as [[Hne Ha] Has]. change (cmdline_text (a :: args)) with ((a ++ [NUL]) ++ cmdline_text args) in *.
    rewrite !length_app in Hn. change (length [NUL]) with 1%nat in Hn. replace n with (length a + S (n - length a - 1))%nat by lia.
    rewrite <- !app_assoc. rewrite args_loop_text by done. rewrite decide_False by done. cbn [app args_loop].
    destruct (ascii_dec NUL NUL) as [_|]; [|done]. simpl andb.
    assert (last a ≠ Some NUL) as Hl by (intros Hl; apply Ha; by eapply last_Some_elem_of).
    rewrite bool_decide_false by done. rewrite (IH (n - length a - 1)%nat (Some NUL)); [|done|lia|done|lia|lia].
    rewrite !strlen_app, ?strlen_cons. change (strlen [NUL]) with 1. simpl length.
    f_equal. f_equal; [f_equal; [lia|]|lia]. destruct (Z.eqb_spec argc 0) as [->|]; [by destruct args|].
    rewrite (proj2 (Z.eqb_neq (argc + 1) 1)) by lia. destruct args as [|a' args]; [done|].
    by rewrite (proj2 (Z.eqb_neq (argc + 1) 0)) by lia.
Qed.

Lemma store_app pre old data post off :
  off = Z.of_nat (length pre) -> length old = length data -> store (pre ++ old ++ post) off data = Some (pre ++ data ++ post).
Proof.
  intros -> Hl. unfold store. rewrite (proj2 (Z.leb_le _ _)) by (rewrite !length_app; lia). f_equal. unfold write_at.
  rewrite Nat2Z.id, take_app_length, drop_app_ge by lia. do 2 f_equal. apply drop_app_length'. lia.
Qed.

Lemma split_length {A} (l : list A) n : (n <= length l)%nat -> ∃ a b, l = a ++ b ∧ length a = n.
Proof. intros Hn. exists (take n l), (drop n l). rewrite take_drop, length_take. split; [done|lia]. Qed.

(** The arguments of a process, as the KERN_PROCARGS2
    control returns them: a count, the first argument as the path of the
    executable with two terminators, and then all arguments with theirs and
    one more; the caller's memory behind that is left alone.  The count is one
    more than the number of arguments. *)
Theorem procargs_layout a args mem :
  Forall (λ x, x ≠ [] ∧ (NUL ∉ x)) (a :: args) -> strlen (cmdline_text (a :: args)) < 2047 ->
  let total := 4 + strlen a + 2 + strlen (cmdline_text (a :: args)) + 1 in
  copy_args (Some mem) (Z.of_nat (length mem)) (cmdline_text (a :: args) ++ [NUL]) =
  if Z.of_nat (length mem) <? total then Some (- ENOSPC, total, Some mem)
  else Some (0, total, Some (int_bytes (Z.of_nat (length args) + 2) ++ a ++ [NUL; NUL] ++
                             cmdline_text (a :: args) ++ [NUL] ++ zdrop total mem)).
Proof.
  intros Ha Hlen total. unfold copy_args. unfold strlen in Hlen.
  rewrite args_loop_args; [|done|lia|done|lia|done]. cbn [mbind option_bind]. rewrite !Z.add_0_l. simpl (0 =? 0). cbv beta iota zeta.
  fold total. destruct (Z.ltb_spec (Z.of_nat (length mem)) total) as [?|Hge]; [done|].
  set (text := cmdline_text (a :: args)) in *. assert (text = a ++ [NUL] ++ cmdline_text args) as Htext.
  { unfold text. change (cmdline_text (a :: args)) with ((a ++ [NUL]) ++ cmdline_text args). by rewrite <- app_assoc. }
  assert (c_str (text ++ [NUL]) = a) as ->.
  { rewrite Htext, <- !app_assoc. simpl. apply c_str_nul. by apply Forall_cons in Ha as [[_ ?] _]. }
  unfold total, strlen in Hge.
  destruct (split_length mem 4) as (m1 & r1 & -> & L1); [lia|]. rewrite length_app in Hge.
  destruct (split_length r1 (length a + 1)) as (m2 & r2 & -> & L2); [lia|]. rewrite length_app in Hge.
  destruct (split_length r2 1) as (m3 & r3 & -> & L3); [lia|]. rewrite length_app in Hge.
  destruct (split_length r3 1) as (m4 & r4 & -> & L4); [lia|]. rewrite length_app in Hge.
  destruct (split_length r4 (length text)) as (m5 & r5 & -> & L5); [lia|].
  set (hdr := int_bytes _). assert (length hdr = 4%nat) as Lh by done.
  assert (int_bytes (Z.of_nat (length args) + 2) = hdr) as -> by (unfold hdr; f_equal; simpl; lia).
  rewrite (store_app [] m1 hdr (m2 ++ m3 ++ m4 ++ m5 ++ r5)) by (simpl; lia). cbn [mbind option_bind app].
  rewrite (store_app hdr m2 (a ++ [NUL])) by (done || by rewrite length_app). cbn [mbind option_bind].
  rewrite (app_assoc hdr), (store_app (hdr ++ a ++ [NUL]) m3 [NUL]) by (try done; rewrite !length_app, Lh; unfold strlen; simpl; lia).
  cbn [mbind option_bind]. rewrite (app_assoc (hdr ++ a ++ [NUL])).
  rewrite (store_app ((hdr ++ a ++ [NUL]) ++ [NUL]) m4 [NUL]) by (try done; rewrite !length_app, Lh; unfold strlen; simpl; lia).
  cbn [mbind option_bind]. rewrite (app_assoc [NUL] m5). assert (ztake (strlen text + 1) (text ++ [NUL]) = text ++ [NUL]) as ->.
  { apply ztake_strlen. by rewrite strlen_app. }
  rewrite (store_app ((hdr ++ a ++ [NUL]) ++ [NUL]) ([NUL] ++ m5) (text ++ [NUL]))
    by (rewrite !length_app, ?Lh; unfold strlen; simpl; lia).
  cbn [mbind option_bind]. f_equal. f_equal. f_equal.
  assert (zdrop total (m1 ++ m2 ++ m3 ++ m4 ++ m5 ++ r5) = r5) as ->.
  { unfold zdrop. rewrite !app_assoc. apply drop_app_length'. rewrite !length_app. unfold total, strlen. lia. }
  by rewrite <- !app_assoc.
Qed.

Lemma procargs_layout_witness :
  copy_args (Some (replicate 20 "x"%char)) 20 (s2c "ls" ++ [NUL] ++ s2c "-l" ++ [NUL; NUL]) =
  Some (0, 15, Some ([byte_of 3; NUL; NUL; NUL] ++ s2c "ls" ++ [NUL; NUL] ++ s2c "ls" ++ [NUL] ++ s2c "-l" ++ [NUL; NUL] ++ replicate 5 "x"%char)).
Proof.
  apply (procargs_layout (s2c "ls") [s2c "-l"] (replicate 20 "x"%char)); [|by vm_compute].
  repeat constructor; by vm_compute; set_solver.
Defined.

(** *** Memory regions *)

Lemma atoi16_app v s r :
  Forall (λ c, isdigit16 c = true) s -> (∀ c, head r = Some c -> isdigit16 c = false) ->
  atoi16_loop v (s ++ r) = ((atoi16_loop v s).1, r).
Proof.
  intros Hs Hr. revert v. induction Hs as [|c s Hc Hs IH]; intros v; simpl; [|by rewrite Hc].
  destruct r as [|c r]; [done|]. simpl. by rewrite Hr.
Qed.

Lemma atoi_app v s r :
  Forall (λ c, isdigit c = true) s -> (∀ c, head r = Some c -> isdigit c = false) ->
  atoi_loop v (s ++ r) = ((atoi_loop v s).1, r).
Proof.
  intros Hs Hr. revert v. induction Hs as [|c s Hc Hs IH]; intros v; simpl; [|by rewrite Hc].
  destruct r as [|c r]; [done|]. simpl. by rewrite Hr.
Qed.

Definition hex_word (s : cstr) : Prop := s ≠ [] ∧ Forall (λ c, isdigit16 c = true) s.
Definition dec_word (s : cstr) : Prop := s ≠ [] ∧ Forall (λ c, isdigit c = true) s.
Definition hex_value (s : cstr) : Z := (__simple_atoi16 s).1.

Lemma atoi16_at_word s r : hex_word s -> (∀ c, head r = Some c -> isdigit16 c = false) -> atoi16_at (s ++ r) = Some (hex_value s, r).
Proof. intros [Hne Hs] Hr. unfold atoi16_at, __simple_atoi16, hex_value. rewrite atoi16_app by done. by destruct s. Qed.

Lemma atoi_at_word s r : dec_word s -> (∀ c, head r = Some c -> isdigit c = false) -> atoi_at (s ++ r) = Some ((__simple_atoi s).1, r).
Proof. intros [Hne Hs] Hr. unfold atoi_at, __simple_atoi. rewrite atoi_app by done. by destruct s. Qed.

(** The fields of proc(5): address range, permissions, offset, device, inode,
    padding and path. *)
Definition smaps_line (lo hi : cstr) (pr pw px ps : ascii) (off maj min ino : cstr) (pad : nat) (path : cstr) : cstr :=
  lo ++ "-"%char :: hi ++ SPACE :: pr :: pw :: px :: ps :: SPACE :: off ++ SPACE :: maj ++ ":"%char :: min ++ SPACE :: ino ++
  replicate pad SPACE ++ path.

Lemma digit16_plain s : Forall (λ c, isdigit16 c = true) s -> Forall (λ c, c ≠ NUL ∧ c ≠ SPACE ∧ c ≠ "-"%char) s.
Proof. intros Hs. eapply Forall_impl; [exact Hs|]. intros c Hc. split_and!; intros ->; by vm_compute in Hc. Qed.

Lemma address_range_digits m s r : Forall (λ c, isdigit16 c = true) s -> address_range m (s ++ r) = address_range m r.
Proof.
  intros Hs%digit16_plain. revert m. induction Hs as [|c s (Hn & Hp & Hm) Hs IH]; intros m; [done|]. simpl.
  destruct (ascii_dec c NUL); [done|]. destruct (ascii_dec c SPACE); [done|]. destruct (ascii_dec c "-"%char); [done|]. apply IH.
Qed.

Lemma skip_chars_pad pad r : head r ≠ Some SPACE -> skip_chars SPACE (replicate pad SPACE ++ r) = r.
Proof. intros Hr. induction pad as [|pad IH]; simpl; [|done]. destruct r as [|c r]; [done|]. simpl. by destruct (ascii_dec c SPACE) as [->|]. Qed.

(** A line of [/proc/<pid>/smaps] that begins a mapping
    gives the mapping's address, size, protection, sharing, offset, device,
    inode and path as the kernel printed them.  A mapping without a path keeps
    the path of the line before: the member is not cleared. *)
Theorem smaps_line_fields lo hi pr pw px ps off maj min ino pad path r :
  hex_word lo -> hex_word hi -> hex_word off -> hex_word maj -> hex_word min -> dec_word ino ->
  NUL ∉ path -> head path ≠ Some SPACE -> (path ≠ [] -> (0 < pad)%nat) -> strlen path < MAXPATHLEN ->
  parse_smaps_firstline true (smaps_line lo hi pr pw px ps off maj min ino pad path ++ [NUL]) r =
  Some (true, Region (hex_value lo) (u64 (hex_value hi - hex_value lo))
    (or_all [if ascii_dec pr "r"%char then VM_PROT_READ else 0; if ascii_dec pw "w"%char then VM_PROT_WRITE else 0;
             if ascii_dec px "x"%char then VM_PROT_EXECUTE else 0])
    (if ascii_dec ps "p"%char then SM_PRIVATE else SM_SHARED) (hex_value off)
    (u32 (Z.lor (s32 (Z.shiftl (s32 (hex_value maj)) 8)) (s32 (hex_value min)))) (__simple_atoi ino).1
    (match path with [] => r_path r | _ => Some path end)).
Proof.
  intros Hlo Hhi Hoff Hmaj Hmin Hino Hnul Hsp Hpad Hlen. unfold parse_smaps_firstline, smaps_line.
  repeat (rewrite <- app_assoc; cbn [app]).
  rewrite address_range_digits by apply Hlo. cbn [address_range]. destruct (ascii_dec "-"%char NUL); [done|].
  destruct (ascii_dec "-"%char SPACE); [done|]. destruct (ascii_dec "-"%char "-"%char); [|done].
  rewrite address_range_digits by apply Hhi. cbn [address_range]. destruct (ascii_dec SPACE NUL); [done|].
  destruct (ascii_dec SPACE SPACE); [|done]. cbn [mbind option_bind].
  rewrite atoi16_at_word by (done || by intros c [= <-]). cbn [mbind option_bind].
  rewrite atoi16_at_word by (done || by intros c [= <-]). cbn [mbind option_bind drop test_char deref head].
  cbv zeta. cbn [drop]. rewrite ?drop_0.
  rewrite atoi16_at_word by (done || by intros c [= <-]). cbn [mbind option_bind drop]. rewrite ?drop_0.
  rewrite atoi16_at_word by (done || by intros c [= <-]). cbn [mbind option_bind drop]. rewrite ?drop_0.
  rewrite atoi16_at_word by (done || by intros c [= <-]). cbn [mbind option_bind drop]. rewrite ?drop_0.
  rewrite atoi_at_word; [|done|]; last first.
  { intros c Hc. destruct pad as [|pad]; [|by simpl in Hc; simplify_eq]. destruct path; simpl in Hc; [by simplify_eq|]. specialize (Hpad ltac:(done)). lia. }
  cbn [mbind option_bind]. rewrite skip_chars_pad by (by destruct path).
  destruct path as [|c path]; cbn [app head mbind option_bind].
  - destruct (ascii_dec NUL NUL); done.
  - apply not_elem_of_cons in Hnul as [Hc Hn].
    assert (c_str ((c :: path) ++ [NUL]) = c :: path) as Hcs by (apply c_str_nul; by apply not_elem_of_cons).
    cbn [app] in Hcs. rewrite Hcs. rewrite (proj2 (Z.leb_gt _ _)) by lia. cbn [deref head mbind option_bind].
    destruct (ascii_dec c NUL); [by subst|done].
Qed.

Lemma smaps_line_fields_witness :
  parse_smaps_firstline true (s2c "5568e1914000-5568e1915000 r-xp 00024000 08:01 4861625     /usr/bin/less" ++ [NUL]) blank =
  Some (true, Region 0x5568e1914000 0x1000 5 SM_PRIVATE 0x24000 0x801 4861625 (Some (s2c "/usr/bin/less"))).
Proof.
  apply (smaps_line_fields (s2c "5568e1914000") (s2c "5568e1915000") "r" "-" "x" "p" (s2c "00024000") (s2c "08") (s2c "01") (s2c "4861625")
           5 (s2c "/usr/bin/less") blank).
  all: try (split; [done|]; repeat constructor; by vm_compute).
  - by vm_compute; set_solver.
  - done.
  - intros _. lia.
  - by vm_compute.
Defined.

(** The path of an anonymous mapping is the one of the mapping before it. *)
Lemma smaps_stale_path :
  (λ x, r_path x.2) <$> parse_smaps_firstline false (s2c "7f0000000000-7f0000001000 rw-p 00000000 00:00 0 " ++ [NUL])
    (Region 0 0 0 0 0 0 0 (Some (s2c "/usr/bin/less"))) = Some (Some (s2c "/usr/bin/less")).
Proof. reflexivity. Qed.

(** *** Listing processes *)

(** One batch of the kernel: twenty-six processes with four-digit numbers. *)
Definition proc_batch : list linux_dirent64 := (λ i, LinuxDirent64 (Z.of_nat i) 0 24 DT_DIR (s2c (pretty (1000 + N.of_nat i)%N))) <$> seq 0 26.

(** Of these, the buffer of [_sysctl_proc] keeps sixteen: the call that fills
    it asks the kernel for more entries than fit, and the rest is not asked for
    again. *)
Lemma proc_listing_incomplete :
  Forall linux_entry_ok proc_batch ∧ sum_reclen proc_batch <= batch_size BSD_DIRENT_MIN_SIZE 256 ∧
  (λ x, length x.2) <$> convert_loop sizeof_bsd_dirent to_bsd proc_batch 0 (sum_reclen proc_batch) 0 256 = Some 16%nat.
Proof.
  split_and!; [|by vm_compute|by vm_compute]. unfold proc_batch. simpl.
  repeat (apply Forall_cons; split; [split; [done|split; by vm_compute]|]). constructor.
Qed.
