(* ===== verification/Sysctl.v ===== *)
(** * sysctl

    misc/sysctl*.c: a tree of named and numbered variables, found by number
    ([sys_sysctl]) or by name ([sys_sysctlbyname]), each with a handler that
    stores its value in the caller's buffer.  The tree, the walks, the
    handlers and the translation between names and numbers.

    The caller's buffer is the memory at [old] ([None] for a null pointer),
    [oldlen] the integer behind the second pointer.  A store outside of the
    memory, or through a null pointer, is undefined. *)
From S2P Require Import Prelude Abi Linux Errno Base Simple Vchroot VchrootProofs Fcntl Paths Network Unistd Misc Procfs.

Definition _CTL_SYSCTL : Z := 100.
Definition CTLTYPE_NODE : Z := 1.
Definition CTLTYPE_INT : Z := 2.
Definition CTLTYPE_STRING : Z := 3.
Definition CTLTYPE_QUAD : Z := 4.
Definition CTLTYPE_OPAQUE : Z := 5.
Definition CTLTYPE_STRUCT : Z := CTLTYPE_OPAQUE.

(** The identifiers the enumerations of the files define. *)
Definition _OID_TO_NAME : Z := 1.
Definition _NAME_TO_OID : Z := 3.
Definition _GET_DATA_TYPE : Z := 4.
Definition _KERN_MSGBUF : Z := 1000.
Definition _KERN_OSPRODUCTVERSION : Z := 1001.
Definition _KERN_SEMMNS : Z := 1000.
Definition _HW_PHYSICAL_CPU : Z := 1000.
Definition _HW_PHYSICAL_CPU_MAX : Z := 1001.
Definition _HW_LOGICAL_CPU : Z := 1002.
Definition _HW_LOGICAL_CPU_MAX : Z := 1003.
Definition _HW_CPUTYPE : Z := 1004.
Definition _HW_CPUSUBTYPE : Z := 1005.
Definition _HW_CPUTHREADTYPE : Z := 1006.
Definition _HW_64BITCAPABLE : Z := 1007.
Definition _HW_CPUFREQUENCY : Z := 15.
Definition _MACHDEP_CPU : Z := 1000.
Definition _CPU_VENDOR : Z := 1000.
Definition _CPU_MAX_BASIC : Z := 1001.
Definition _CPU_FAMILY : Z := 1002.
Definition _CPU_MODEL : Z := 1003.
Definition _CPU_STEPPING : Z := 1004.
Definition _CPU_BRAND_STRING : Z := 1005.
Definition _CPU_FEATURES : Z := 1006.
Definition _NET_ROUTE : Z := 17.
Definition _NET_RT_IFLIST : Z := 3.
Definition _PROC_CPUTYPE : Z := 1000.

Definition EMULATED_SYSNAME : cstr := s2c "Darwin".
Definition EMULATED_RELEASE : cstr := s2c "19.6.0".
Definition EMULATED_VERSION : cstr := s2c "Darwin Kernel Version 19.6.0".
Definition EMULATED_OSVERSION : cstr := s2c "19G73".
Definition EMULATED_OSPRODUCTVERSION : cstr := s2c "10.15.2".

(** ** The tree *)

Inductive sysctl_handler : Set :=
| handle_oid_to_name | handle_name_to_oid | handle_get_data_type
| handle_availcpu | handle_physicalcpu | handle_physicalcpu_max | handle_logicalcpu | handle_logicalcpu_max | handle_memsize
| handle_pagesize | handle_cputype | handle_cpusubtype | handle_cputhreadtype | handle_cpu64bitcapable | handle_machine
| handle_cpufrequency
| handle_msgbuf | handle_proc | handle_procargs32 | handle_argmax | handle_boottime | handle_ostype | handle_hostname
| handle_domainname | handle_osrelease | handle_version | handle_osversion | handle_maxproc | handle_netboot | handle_safeboot
| handle_usrstack32 | handle_usrstack64 | handle_sysv_semmns | handle_osproductversion
| handle_vendor | handle_max_basic | handle_family | handle_model | handle_stepping | handle_brand_string | handle_features
| handle_route | handle_proc_cputype.

#[export] Instance sysctl_handler_eq_dec : EqDecision sysctl_handler.
Proof. solve_decision. Defined.

(** [struct known_sysctl]: the union is a list of entries for the type
    [CTLTYPE_NODE] and a handler for the others. *)
#[warnings="-register-all"]
Inductive known_sysctl : Set :=
| Node (oid : Z) (name : string) (subctls : list known_sysctl)
| Leaf (oid type : Z) (exttype name : string) (handler : sysctl_handler).

Definition ks_oid (k : known_sysctl) : Z := match k with Node o _ _ | Leaf o _ _ _ _ => o end.
Definition ks_name (k : known_sysctl) : cstr := s2c (match k with Node _ n _ | Leaf _ _ _ n _ => n end).
Definition ks_type (k : known_sysctl) : Z := match k with Node _ _ _ => CTLTYPE_NODE | Leaf _ t _ _ _ => t end.
Definition ks_exttype (k : known_sysctl) : cstr := match k with Node _ _ _ => [] | Leaf _ _ e _ _ => s2c e end.

Definition sysctls_unspec : list known_sysctl := [
  Leaf _OID_TO_NAME CTLTYPE_STRING "S" "oid_to_name" handle_oid_to_name;
  Leaf _NAME_TO_OID CTLTYPE_STRUCT "I,oid" "name_to_oid" handle_name_to_oid;
  Leaf _GET_DATA_TYPE CTLTYPE_STRUCT "I,type" "get_data_type" handle_get_data_type].

Definition sysctls_hw : list known_sysctl := [
  Leaf HW_AVAILCPU CTLTYPE_INT "" "availcpu" handle_availcpu;
  Leaf HW_NCPU CTLTYPE_INT "" "ncpu" handle_availcpu;
  Leaf _HW_PHYSICAL_CPU CTLTYPE_INT "" "physicalcpu" handle_physicalcpu;
  Leaf _HW_PHYSICAL_CPU_MAX CTLTYPE_INT "" "physicalcpu_max" handle_physicalcpu_max;
  Leaf _HW_LOGICAL_CPU CTLTYPE_INT "" "logicalcpu" handle_logicalcpu;
  Leaf _HW_LOGICAL_CPU_MAX CTLTYPE_INT "" "logicalcpu_max" handle_logicalcpu_max;
  Leaf HW_MEMSIZE CTLTYPE_QUAD "U" "memsize" handle_memsize;
  Leaf HW_PAGESIZE CTLTYPE_INT "" "pagesize" handle_pagesize;
  Leaf _HW_CPUTYPE CTLTYPE_INT "" "cputype" handle_cputype;
  Leaf _HW_CPUSUBTYPE CTLTYPE_INT "" "cpusubtype" handle_cpusubtype;
  Leaf _HW_CPUTHREADTYPE CTLTYPE_INT "" "cputhreadtype" handle_cputhreadtype;
  Leaf _HW_64BITCAPABLE CTLTYPE_INT "" "cpu64bit_capable" handle_cpu64bitcapable;
  Leaf HW_MACHINE CTLTYPE_STRING "S" "machine" handle_machine;
  Leaf _HW_CPUFREQUENCY CTLTYPE_INT "" "cpufrequency" handle_cpufrequency].

Definition sysctls_kern_sysv : list known_sysctl := [
  Leaf _KERN_SEMMNS CTLTYPE_INT "I" "semmns" handle_sysv_semmns].

Definition sysctls_kern : list known_sysctl := [
  Leaf _KERN_MSGBUF CTLTYPE_STRING "S" "msgbuf" handle_msgbuf;
  Leaf KERN_PROC CTLTYPE_STRUCT "" "proc" handle_proc;
  Leaf KERN_PROCARGS2 CTLTYPE_STRUCT "" "procargs2" handle_procargs32;
  Leaf KERN_ARGMAX CTLTYPE_INT "I" "argmax" handle_argmax;
  Leaf KERN_MAXPROC CTLTYPE_INT "I" "maxproc" handle_maxproc;
  Leaf KERN_NETBOOT CTLTYPE_INT "I" "netboot" handle_netboot;
  Leaf KERN_SAFEBOOT CTLTYPE_INT "I" "safeboot" handle_safeboot;
  Leaf KERN_BOOTTIME CTLTYPE_STRUCT "S,timeval" "boottime" handle_boottime;
  Leaf KERN_OSTYPE CTLTYPE_STRING "S" "ostype" handle_ostype;
  Leaf KERN_HOSTNAME CTLTYPE_STRING "S" "hostname" handle_hostname;
  Leaf KERN_DOMAINNAME CTLTYPE_STRING "S" "domainname" handle_domainname;
  Leaf KERN_OSRELEASE CTLTYPE_STRING "S" "osrelease" handle_osrelease;
  Leaf KERN_VERSION CTLTYPE_STRING "S" "version" handle_version;
  Leaf KERN_OSVERSION CTLTYPE_STRING "S" "osversion" handle_osversion;
  Leaf KERN_USRSTACK32 CTLTYPE_INT "I" "usrstack" handle_usrstack32;
  Leaf KERN_USRSTACK64 CTLTYPE_QUAD "Q" "usrstack64" handle_usrstack64;
  Leaf _KERN_OSPRODUCTVERSION CTLTYPE_STRING "S" "osproductversion" handle_osproductversion;
  Node KERN_SYSV "sysv" sysctls_kern_sysv].

Definition sysctls_machdep_cpu : list known_sysctl := [
  Leaf _CPU_MAX_BASIC CTLTYPE_INT "I" "max_basic" handle_max_basic;
  Leaf _CPU_VENDOR CTLTYPE_STRING "S" "vendor" handle_vendor;
  Leaf _CPU_FAMILY CTLTYPE_INT "I" "family" handle_family;
  Leaf _CPU_MODEL CTLTYPE_INT "I" "model" handle_model;
  Leaf _CPU_STEPPING CTLTYPE_INT "I" "stepping" handle_stepping;
  Leaf _CPU_BRAND_STRING CTLTYPE_STRING "S" "vendor" handle_brand_string;
  Leaf _CPU_FEATURES CTLTYPE_STRING "S" "features" handle_features].

Definition sysctls_machdep : list known_sysctl := [Node _MACHDEP_CPU "cpu" sysctls_machdep_cpu].

Definition sysctls_sysctl : list known_sysctl := [Leaf _PROC_CPUTYPE CTLTYPE_INT "I" "proc_cputype" handle_proc_cputype].

Definition sysctls_net : list known_sysctl := [Leaf _NET_ROUTE CTLTYPE_OPAQUE "" "route" handle_route].

Definition sysctls_global : list known_sysctl := [
  Node CTL_UNSPEC "unspec" sysctls_unspec;
  Node CTL_HW "hw" sysctls_hw;
  Node CTL_KERN "kern" sysctls_kern;
  Node CTL_MACHDEP "machdep" sysctls_machdep;
  Node _CTL_SYSCTL "sysctl" sysctls_sysctl;
  Node CTL_NET "net" sysctls_net].

Definition sysctls_root : known_sysctl := Node 0 "" sysctls_global.

(** ** Walks *)

(** The loops over [current->subctls]. *)
Definition find_oid (oid : Z) : list known_sysctl -> option known_sysctl := find (λ k, ks_oid k =? oid).
Definition find_name (token : cstr) : list known_sysctl -> option known_sysctl := find (λ k, streq (ks_name k) token).

(** [sys_sysctl]: an error, or the entry that was reached. *)
Fixpoint walk_oid (current : known_sysctl) (name : list Z) : Z + known_sysctl :=
  match name, current with
  | [], _ => inr current
  | oid :: name, Node _ _ subctls =>
    match find_oid oid subctls with
    | None => inl (- ENOENT)
    | Some (Leaf _ _ _ _ _ as next) => inr next
    | Some next => walk_oid next name
    end
  | _ :: _, Leaf _ _ _ _ _ => inr current
  end.

(** [sys_sysctlbyname] *)
Fixpoint walk_name (current : known_sysctl) (tokens : list cstr) : Z + known_sysctl :=
  match tokens with
  | [] => inr current
  | token :: tokens =>
    match current with
    | Leaf _ _ _ _ _ => inl (- ENOTDIR)
    | Node _ _ subctls =>
      match find_name token subctls with
      | None => inl (- ENOENT)
      | Some next => walk_name next tokens
      end
    end
  end.

(** The loop of [handle_oid_to_name]: [sname] has room for 64 bytes, and
    [None] is a [strcat] that leaves it. *)
Definition strcat (size : Z) (dst src : cstr) : option cstr :=
  if strlen dst + strlen src <? size then Some (dst ++ src) else None.

(** [if (sname[0]) strcat(sname, ".");] *)
Definition add_dot (sname : cstr) : option cstr := match sname with [] => Some [] | _ => strcat 64 sname (s2c ".") end.

Fixpoint oid_to_name_loop (current : known_sysctl) (oid : list Z) (sname : cstr) : option (Z + cstr) :=
  match oid, current with
  | o :: oid, Node _ _ subctls =>
    match find_oid o subctls with
    | None => Some (inl (- ENOENT))
    | Some next =>
      sname ← add_dot sname;
      sname ← strcat 64 sname (ks_name next);
      match next with
      | Leaf _ _ _ _ _ => Some (inr sname)
      | Node _ _ _ => oid_to_name_loop next oid sname
      end
    end
  | _, _ => Some (inr sname)
  end.

(** The loop of [handle_name_to_oid]: [room] entries are left in [oid], and
    [None] is a store after them. *)
Fixpoint name_to_oid_loop (room : nat) (current : known_sysctl) (tokens : list cstr) {struct tokens} : option (Z + list Z) :=
  match tokens with
  | [] => Some (inr [])
  | token :: tokens =>
    match current with
    | Leaf _ _ _ _ _ => Some (inl (- ENOTDIR))
    | Node _ _ subctls =>
      match find_name token subctls with
      | None => Some (inl (- ENOENT))
      | Some next =>
        match room with
        | O => None
        | S room =>
          r ← name_to_oid_loop room next tokens;
          Some (match r with inl e => inl e | inr oids => inr (ks_oid next :: oids) end)
        end
      end
    end
  end.

(** The loop of [handle_get_data_type]. *)
Fixpoint data_type_loop (current : known_sysctl) (oid : list Z) : Z + known_sysctl :=
  match oid with
  | [] => inr current
  | o :: oid =>
    match current with
    | Leaf _ _ _ _ _ => inl (- ENOTDIR)
    | Node _ _ subctls =>
      match find_oid o subctls with
      | None => inl (- ENOENT)
      | Some next => data_type_loop next oid
      end
    end
  end.

Definition DOT : ascii := ".".

(** [strtok_r(_, ".", &saveptr)] until it returns null: the text between dots,
    without empty pieces. *)
Fixpoint tokens_from (acc s : cstr) : list cstr :=
  match s with
  | [] => match acc with [] => [] | _ => [rev acc] end
  | c :: s =>
    if ascii_dec c DOT then match acc with [] => tokens_from [] s | _ => rev acc :: tokens_from [] s end
    else tokens_from (c :: acc) s
  end.
Definition tokens (s : cstr) : list cstr := tokens_from [] s.

(** ** The caller's buffer *)

(** [io_kinfo] are the structures [handle_proc] stores in the buffer. *)
Record io := IoFull { io_old : option (list ascii); io_len : option Z; io_kinfo : list kinfo_proc }.
Definition Io (old : option (list ascii)) (len : option Z) : io := IoFull old len [].

(** [*oldlen] *)
Definition get_len (b : io) : M Z := defined (io_len b).
Definition set_len (n : Z) (b : io) : M io := defined (_ ← io_len b; Some (Io (io_old b) (Some n))).

(** Stores at [old]. *)
Definition put (off : Z) (data : list ascii) (b : io) : M io :=
  defined (m ← io_old b; m ← store m off data; Some (Io (Some m) (io_len b))).

Definition quad_bytes (z : Z) : list ascii := int_bytes z ++ int_bytes (z / 2 ^ 32).

(** [strlcpy(dst, src, size)]: what is stored; it returns the length of [src]. *)
Definition strlcpy_bytes (src : cstr) (size : Z) : list ascii := if size =? 0 then [] else ztake (size - 1) src ++ [NUL].

Definition copyout_string (str : cstr) (b : io) : M io :=
  match io_old b with
  | Some _ => n ← get_len b; b ← put 0 (strlcpy_bytes str n) b; set_len (strlen str) b
  | None => match io_len b with Some _ => set_len (strlen str) b | None => mret b end
  end.

(** [sysctl_handle_size(size)] and then [k] *)
Definition sysctl_handle_size (size : Z) (b : io) (k : io -> M (Z * io)) : M (Z * io) :=
  match io_old b with
  | None => b ← set_len size b; mret (0, b)
  | Some _ =>
    n ← get_len b;
    if n <? size then mret (- EINVAL, b) else b ← set_len size b; k b
  end.

(** A value of 4 or 8 bytes stored at [old]. *)
Definition put_int (z : Z) (b : io) : M io := put 0 (int_bytes z) b.
Definition put_quad (z : Z) (b : io) : M io := put 0 (quad_bytes z) b.

(** ** Handlers *)

(** [host_info(mach_host_self(), HOST_BASIC_INFO, ...)] is generated from a
    Mach interface: what it stores, if it stores anything.  [cpuid] is the
    instruction: eax, ebx, ecx and edx. *)
Section Handlers.
Context `{LoopFuel, IcaseEnabled}.
Context (host_info : M (option host_basic_info)) (cpuid : Z -> Z * Z * Z * Z).

Definition ok (b : M io) : M (Z * io) := b ← b; mret (0, b).

(** *** sysctl_unspec.c *)

Definition handle_oid_to_name' (name : list Z) (b : io) : M (Z * io) :=
  r ← defined (oid_to_name_loop sysctls_root (drop 2 name) []);
  match r with inl e => mret (e, b) | inr sname => ok (copyout_string sname b) end.

Definition handle_name_to_oid' (b : io) (new : option (list ascii)) : M (Z * io) :=
  new ← defined new;
  if negb (terminated new) then undefined
  else
    r ← defined (name_to_oid_loop 4 sysctls_root (tokens (ztake 127 (c_str new))));
    match r with
    | inl e => mret (e, b)
    | inr oid =>
      sysctl_handle_size (4 * Z.of_nat (length oid)) b (λ b, ok (put 0 (oid ≫= int_bytes) b))
    end.

Definition handle_get_data_type' (name : list Z) (b : io) : M (Z * io) :=
  match data_type_loop sysctls_root (drop 2 name) with
  | inl e => mret (e, b)
  | inr current =>
    sysctl_handle_size (4 + strlen (ks_exttype current) + 1) b (λ b,
      b ← put_int (ks_type current) b; ok (put 4 (ks_exttype current ++ [NUL]) b))
  end.

(** *** sysctl_hw.c *)

Definition gethostinfo : M host_basic_info :=
  g ← get_state;
  let hinfo := c_hinfo (g_caches g) in
  if hi_avail_cpus hinfo =? 0 then
    r ← host_info;
    let hinfo := default hinfo r in
    modify_state (λ g, let c := g_caches g in set_caches (Caches (c_lu c) hinfo (c_proc_ids c) (c_info_ids c) (c_default_kq c)) g);;
    mret hinfo
  else mret hinfo.

Definition handle_hostinfo (member : host_basic_info -> Z) (b : io) : M (Z * io) :=
  sysctl_handle_size 4 b (λ b, h ← gethostinfo; ok (put_int (member h) b)).

Definition handle_memsize' (b : io) : M (Z * io) :=
  sysctl_handle_size 8 b (λ b, h ← gethostinfo; ok (put_quad (hi_max_mem h) b)).

Definition handle_pagesize' (b : io) : M (Z * io) :=
  match io_old b with
  | None => ok (set_len 4 b)
  | Some _ =>
    n ← get_len b;
    if n =? 8 then ok (put_quad 4096 b) else b ← put_int 4096 b; ok (set_len 4 b)
  end.

Definition handle_cpufrequency' (b : io) : M (Z * io) :=
  buf ← read_string (s2c "/sys/bus/cpu/devices/cpu0/cpufreq/cpuinfo_max_freq") 16;
  ok (put_int (match buf with Some buf => atoi_int buf | None => 2400000 end) b).

Definition handle_cpu64bitcapable' (b : io) : M (Z * io) := sysctl_handle_size 4 b (λ b, ok (put_int 1 b)).

(** *** sysctl_kern.c *)

(** The copy linked into dyld never asks. *)
Definition need_uname : M linux_utsname :=
  g ← get_state;
  let lu := c_lu (g_caches g) in
  if icase_enabled && match un_sysname lu with [] => true | _ => false end then
    '(rv, u) ← __linux_uname;
    let lu := if rv <? 0 then lu else u in
    modify_state (λ g, let c := g_caches g in set_caches (Caches lu (c_hinfo c) (c_proc_ids c) (c_info_ids c) (c_default_kq c)) g);;
    mret lu
  else mret lu.

Definition handle_machine' (b : io) : M (Z * io) := lu ← need_uname; ok (copyout_string (un_machine lu) b).

(** A store unless [old] is null: the code asks, or the kernel stores. *)
Definition put_opt (data : list ascii) (b : io) : M io := match io_old b with Some _ => put 0 data b | None => mret b end.

Definition handle_msgbuf' (b : io) : M (Z * io) :=
  n ← get_len b;
  if n <=? 8 then
    if n <? 4 then mret (- EINVAL, b)
    else '(size, _) ← __linux_syslog SYSLOG_ACTION_SIZE_BUFFER 0; ok (put_int size b)
  else
    '(ret, data) ← __linux_syslog SYSLOG_ACTION_READ_ALL (s32 n);
    if ret <? 0 then mret (errno_linux_to_bsd ret, b) else b ← put_opt data b; ok (set_len ret b).

Definition handle_proc' (name : list Z) (b : io) : M (Z * io) :=
  match name with
  | _ :: _ :: what :: flag :: _ =>
    '(ret, len, procs) ← _sysctl_proc what flag (bool_decide (io_old b ≠ None)) (io_len b);
    mret (ret, IoFull (io_old b) len procs)
  | _ => mret (- ENOENT, b)
  end.

Definition handle_procargs32' (name : list Z) (b : io) : M (Z * io) :=
  match name with
  | _ :: _ :: pid :: _ =>
    n ← get_len b;
    '(ret, len, mem) ← _sysctl_procargs pid (io_old b) n;
    mret (ret, IoFull mem (Some len) (io_kinfo b))
  | _ => mret (- ENOENT, b)
  end.

Definition handle_argmax' (b : io) : M (Z * io) :=
  '(r, lim) ← sys_getrlimit BSD_RLIMIT_STACK;
  if r <? 0 then mret (r, b)
  else '(cur, _) ← defined lim; b ← put_opt (int_bytes (cur / 4)) b; ok (set_len 4 b).

(** [struct bsd_timeval]: 8 bytes of seconds, 4 of microseconds, padding. *)
Definition handle_boottime' (b : io) : M (Z * io) :=
  '(rv, errno, uptime) ← __linux_sysinfo;
  if rv =? -1 then mret (- errno, b)
  else
    match io_old b with
    | None => ok (set_len 16 b)
    | Some mem =>
      n ← get_len b;
      if n <? 16 then mret (- EINVAL, b)
      else
        '(_, tv) ← sys_gettimeofday 0;
        sec ← match tv with
              | Some tv => mret (tv_s tv)
              | None => defined (if 8 <=? Z.of_nat (length mem) then Some (foldr (λ c z, byte_val c + 256 * z) 0 (ztake 8 mem)) else None)
              end;
        b ← put 0 (quad_bytes (sec - uptime) ++ int_bytes 0) b;
        ok (set_len 16 b)
    end.

Definition handle_uname (nr : Z) (member : linux_utsname -> cstr) (b : io) (new : option (list ascii)) (newlen : Z) : M (Z * io) :=
  lu ← need_uname;
  b ← copyout_string (member lu) b;
  match new with
  | Some new =>
    if 0 <? newlen then rv ← syscall_int nr [ABuf new; AInt newlen]; mret (bsd_ret rv, b) else mret (0, b)
  | None => mret (0, b)
  end.
Definition handle_hostname' (b : io) (new : option (list ascii)) (newlen : Z) : M (Z * io) :=
  handle_uname __NR_sethostname un_nodename b new newlen.
Definition handle_domainname' (b : io) (new : option (list ascii)) (newlen : Z) : M (Z * io) :=
  handle_uname __NR_setdomainname un_domainname b new newlen.

(** The file is open already when a null [oldlen] is noticed. *)
Definition handle_maxproc' (b : io) : M (Z * io) :=
  fd ← sys_open (Some (s2c "/proc/sys/kernel/pid_max")) BSD_O_RDONLY 0;
  match io_len b with
  | None => mret (- EINVAL, b)
  | Some _ =>
    value ← (if 0 <=? fd then
               '(rd, data) ← sys_read fd 15;
               close_internal fd;;
               mret (if 0 <? rd then atoi_int (data ++ [NUL]) else 1024)
             else mret 1024);
    b ← put_opt (int_bytes value) b;
    ok (set_len 4 b)
  end.

(** [handle_netboot], [handle_safeboot] and [handle_sysv_semmns] *)
Definition handle_constant (value : Z) (b : io) : M (Z * io) :=
  match io_len b with
  | None => mret (- EINVAL, b)
  | Some n => b ← (if 4 <=? n then put_int value b else mret b); ok (set_len 4 b)
  end.

Definition mystack : M Z :=
  buf ← read_string (s2c "/proc/self/stat") 400;
  match buf with
  | None => mret 0
  | Some buf =>
    ptr ← defined (skip_stat_elems 27 buf);
    '(stack, _) ← defined (next_stat_elem ptr);
    stack ← defined stack;
    mret (__simple_atoi stack).1
  end.

Definition handle_usrstack (bytes : Z -> list ascii) (size : Z) (b : io) : M (Z * io) :=
  b ← match io_old b with Some _ => s ← mystack; put 0 (bytes s) b | None => mret b end;
  ok (set_len size b).
Definition handle_usrstack32' : io -> M (Z * io) := handle_usrstack int_bytes 4.
Definition handle_usrstack64' : io -> M (Z * io) := handle_usrstack quad_bytes 8.

(** *** sysctl_machdep.c *)

Definition copyout_int (value : Z) (b : io) : M io :=
  tmp ← sprintf_path "%d" [VNum value] 64; copyout_string tmp b.

Definition handle_vendor' (b : io) : M (Z * io) :=
  let '(_, ebx, ecx, edx) := cpuid 0 in
  ok (copyout_string (c_str (int_bytes ebx ++ int_bytes edx ++ int_bytes ecx ++ [NUL])) b).

(** [setup] gives [level] the value 0 in all of them; the leaf the handler
    means is in [eax], which the instruction overwrites. *)
Definition handle_leaf (f : Z -> Z) (b : io) : M (Z * io) := let '(eax, _, _, _) := cpuid 0 in ok (copyout_int (s32 (f eax)) b).
Definition handle_max_basic' : io -> M (Z * io) := handle_leaf id.
Definition handle_family' : io -> M (Z * io) := handle_leaf (λ eax, Z.land (Z.shiftr eax 7) 15).
Definition handle_model' : io -> M (Z * io) := handle_leaf (λ eax, Z.land (Z.shiftr eax 3) 15).
Definition handle_stepping' : io -> M (Z * io) := handle_leaf (λ eax, Z.land eax 15).

Definition brand_regs : list ascii :=
  let '(eax, ebx, ecx, edx) := cpuid 0 in int_bytes eax ++ int_bytes ebx ++ int_bytes ecx ++ int_bytes edx.

Definition handle_brand_string' (b : io) : M (Z * io) :=
  let '(eax, _, _, _) := cpuid 0 in
  if eax <? 0x80000004 then mret (2, b)
  else ok (copyout_string (c_str (brand_regs ++ brand_regs ++ brand_regs ++ [NUL])) b).

Definition features : list string := [
  "FPU"; "VME"; "DE"; "PSE"; "TSC"; "MSR"; "PAE"; "MCE"; "CX8"; "APIC"; ""; "SEP"; "MTRR"; "PGE";
  "MCA"; "CMOV"; "PAT"; "PSE-36"; "PSN"; "CLFSH"; ""; "DS"; "ACPI"; "MMX"; "FXSR"; "SSE"; "SSE2"; "SS";
  "HTT"; "TM"; "IA64"; "PBE"]%string.

(** The names of the bits that are set, but for the bits 10 and 20. *)
Definition present (edx : Z) : list cstr :=
  (λ '(i, s), s2c s) <$> filter (λ '(i, _), negb ((i =? 10)%nat || (i =? 20)%nat) && Z.testbit edx (Z.of_nat i) = true)
    (combine (seq 0 32) features).

(** [strncpy] stores exactly [n] bytes. *)
Definition strncpy_bytes (src : cstr) (n : Z) : list ascii := ztake n src ++ replicate (Z.to_nat (n - strlen src)) NUL.

Fixpoint features_loop (names : list cstr) (current_length n : Z) (b : io) : M (Z * io) :=
  match names with
  | [] => mret (current_length, b)
  | name :: names =>
    if current_length <? n then
      '(current_length, b) ← (if current_length =? 0 then mret (current_length, b)
                              else b ← put current_length [SPACE] b; mret (current_length + 1, b));
      if current_length <? n then
        b ← put current_length (strncpy_bytes name (n - current_length)) b;
        features_loop names (current_length + strlen name) n b
      else features_loop names current_length n b
    else features_loop names current_length n b
  end.

Definition features_length (names : list cstr) : Z :=
  foldl (λ n name, (if n =? 0 then 0 else n + 1) + strlen name) 0 names.

(** [*oldlen] is read on every iteration, and set only without a buffer. *)
Definition handle_features' (b : io) : M (Z * io) :=
  let '(_, _, _, edx) := cpuid 0 in
  match io_old b with
  | Some _ =>
    n ← get_len b;
    '(current_length, b) ← features_loop (present edx) 0 n b;
    ok (if current_length <? n then put current_length [NUL] b else mret b)
  | None => ok (match io_len b with Some _ => set_len (features_length (present edx)) b | None => mret b end)
  end.

(** *** sysctl_net.c *)

Definition SOCK_DGRAM : Z := 2.
Definition LINUX_SIOCGIFCONF : Z := 0x8912.
Definition LINUX_SIOCGIFHWADDR : Z := 0x8927.
Definition LINUX_SIOCGIFBRDADDR : Z := 0x8919.
Definition LINUX_SIOCGIFNETMASK : Z := 0x891b.
Definition MAC_LENGTH : Z := 6.
Definition IFC_MAX_INTERFACES : Z := 5.
Definition sizeof_linux_ifreq : Z := 40.
(** Darwin's <net/route.h>, <net/if.h> and <net/if_dl.h> *)
Definition RTM_VERSION : Z := 5.
Definition RTM_IFINFO : Z := 0xe.
Definition RTM_NEWADDR : Z := 0xc.
Definition RTA_NETMASK : Z := 0x4.
Definition RTA_IFP : Z := 0x10.
Definition RTA_IFA : Z := 0x20.
Definition RTA_BRD : Z := 0x80.
Definition AF_LINK : Z := 18.
Definition sizeof_if_msghdr : Z := 112.
Definition sizeof_ifa_msghdr : Z := 20.
Definition sizeof_sockaddr_dl : Z := 20.
Definition sizeof_sdl_data : Z := 12.
Definition sizeof_sockaddr : Z := 16.

Definition round_up_sizeof_u32 (number : Z) : Z := Z.land (u64 (number + 3)) (Z.lxor (2 ^ 64 - 1) 3).

Definition zeros (n : Z) : list ascii := replicate (Z.to_nat n) NUL.

Definition name_len (r : linux_ifreq) : Z := strlen (c_str (ztake 16 (lifr_name r))).
Definition additional_sockaddr_len (r : linux_ifreq) : Z :=
  let n := name_len r + MAC_LENGTH in if n <=? sizeof_sdl_data then 0 else n - sizeof_sdl_data.
Definition ifm_length (r : linux_ifreq) : Z :=
  sizeof_if_msghdr + round_up_sizeof_u32 (sizeof_sockaddr_dl + additional_sockaddr_len r).
Definition ifam_length : Z := sizeof_ifa_msghdr + round_up_sizeof_u32 sizeof_sockaddr * 3.

(** [tmp.lifr_name] is the name; the kernel fills in the union. *)
Definition ifreq_ioctl (sock req : Z) (curr : linux_ifreq) : M (Z * list ascii) :=
  '(ret, r) ← syscall_int_out __NR_ioctl [AInt sock; AInt req; AIfreq (lifr_name curr)] OIfreq;
  mret (bsd_ret ret, lifr_addr r).

(** The members of [struct if_msghdr] and of [struct sockaddr_dl] that are
    assigned, in the order of memory. *)
Definition ifm_header (r : linux_ifreq) (iface_idx : Z) : list ascii :=
  short_bytes (ifm_length r) ++ [byte_of RTM_VERSION; byte_of RTM_IFINFO] ++ int_bytes RTA_IFP ++ int_bytes 0 ++ short_bytes iface_idx.
Definition dl_header (r : linux_ifreq) (iface_idx : Z) : list ascii :=
  [byte_of (sizeof_sockaddr_dl + additional_sockaddr_len r); byte_of AF_LINK] ++ short_bytes iface_idx ++
  [NUL; byte_of (name_len r); byte_of MAC_LENGTH; NUL].
Definition ifam_header (iface_idx : Z) : list ascii :=
  short_bytes ifam_length ++ [byte_of RTM_VERSION; byte_of RTM_NEWADDR] ++
  int_bytes (Z.lor (Z.lor RTA_NETMASK RTA_IFA) RTA_BRD) ++ int_bytes 0 ++ short_bytes iface_idx.

(** The first message about an interface, at offset [o] of [old]. *)
Definition put_ifm (sock : Z) (curr : linux_ifreq) (iface_idx o : Z) (b : io) : M (Z * io) :=
  b ← put o (zeros (ifm_length curr)) b;
  b ← put o (ifm_header curr iface_idx) b;
  b ← put (o + sizeof_if_msghdr) (dl_header curr iface_idx) b;
  b ← put (o + sizeof_if_msghdr + 8) (ztake (name_len curr) (lifr_name curr)) b;
  '(status, hwaddr) ← ifreq_ioctl sock LINUX_SIOCGIFHWADDR curr;
  if status <? 0 then mret (status, b)
  else b ← put (o + sizeof_if_msghdr + 8 + name_len curr) (ztake MAC_LENGTH (drop 2 hwaddr)) b; mret (status, b).

Definition put_sockaddr (o : Z) (addr : list ascii) (b : io) : M io :=
  '(_, out) ← sockaddr_fixup_from_linux addr sizeof_sockaddr; put o out b.

(** The second one: netmask, address, broadcast address. *)
Definition put_ifam (sock : Z) (curr : linux_ifreq) (iface_idx o : Z) (b : io) : M (Z * io) :=
  let address := o + sizeof_ifa_msghdr in
  b ← put o (zeros ifam_length) b;
  b ← put o (ifam_header iface_idx) b;
  b ← put_sockaddr (address + round_up_sizeof_u32 sizeof_sockaddr) (lifr_addr curr) b;
  '(status, netmask) ← ifreq_ioctl sock LINUX_SIOCGIFNETMASK curr;
  if status <? 0 then mret (status, b)
  else
    b ← put_sockaddr address netmask b;
    '(status, broad) ← ifreq_ioctl sock LINUX_SIOCGIFBRDADDR curr;
    if status <? 0 then mret (status, b)
    else b ← put_sockaddr (address + round_up_sizeof_u32 sizeof_sockaddr * 2) broad b; mret (status, b).

(** [old && *oldlen >= total_len + length] *)
Definition fits (end_ : Z) (b : io) : M bool :=
  match io_old b with None => mret false | Some _ => n ← get_len b; mret (end_ <=? n) end.

(** A message that is written if there is room for it: the status, and
    whether it was written. *)
Definition put_message (total_len length : Z) (put_it : io -> M (Z * io)) (b : io) : M (Z * bool * io) :=
  f ← fits (total_len + length) b;
  if (f : bool) then '(status, b) ← put_it b; mret (status, true, b) else mret (0, false, b).

(** The loop: [status], [total_len] and the buffer.  [old_ptr] is [o]. *)
Fixpoint iflist_loop (sock : Z) (reqs : list linux_ifreq) (iface_idx o total_len : Z) (b : io) : M (Z * Z * io) :=
  match reqs with
  | [] => mret (0, total_len, b)
  | curr :: reqs =>
    '(status, f, b) ← put_message total_len (ifm_length curr) (put_ifm sock curr iface_idx o) b;
    if status <? 0 then mret (status, total_len, b)
    else
      let o := if (f : bool) then o + ifm_length curr else o in
      let total_len := total_len + ifm_length curr in
      '(status, f, b) ← put_message total_len ifam_length (put_ifam sock curr iface_idx o) b;
      if status <? 0 then mret (status, total_len, b)
      else iflist_loop sock reqs (iface_idx + 1) (if (f : bool) then o + ifam_length else o) (total_len + ifam_length) b
  end.

Definition do_iflist (b : io) : M (Z * io) :=
  tmp_sock ← sys_socket PF_INET SOCK_DGRAM 0;
  '(status, total_len, b) ←
    (if tmp_sock <? 0 then mret (tmp_sock, 0, b)
     else
       '(status, reqs) ← __real_ioctl_out tmp_sock LINUX_SIOCGIFCONF (OIfreqs (IFC_MAX_INTERFACES * sizeof_linux_ifreq));
       if status <? 0 then mret (status, 0, b) else iflist_loop tmp_sock reqs 1 0 0 b);
  (if 0 <=? tmp_sock then close_internal tmp_sock;; mret tt else mret tt);;
  b ← set_len total_len b;
  mret (status, b).

Definition handle_route' (name : list Z) (b : io) : M (Z * io) :=
  match name with
  | [_; _; _; _; op; _] => if op =? _NET_RT_IFLIST then do_iflist b else mret (- EINVAL, b)
  | _ => mret (- EINVAL, b)
  end.

(** *** sysctl_sysctl.c *)

Definition CPU_TYPE_I386 : Z := 7.
Definition CPU_ARCH_ABI64 : Z := 0x01000000.

Definition handle_proc_cputype' (name : list Z) (b : io) : M (Z * io) :=
  match name with
  | _ :: _ :: pid :: _ =>
    '(is64bit, _) ← lkm_call (NR_task_64bit pid);
    if is64bit <? 0 then mret (- ENOENT, b)
    else
      n ← get_len b;
      if n <? 4 then mret (- EINVAL, b)
      else ok (put_int (if is64bit =? 0 then CPU_TYPE_I386 else Z.lor CPU_TYPE_I386 CPU_ARCH_ABI64) b)
  | _ => mret (- ENOENT, b)
  end.

(** ** The two calls *)

(** [current->handler(name, nlen, old, oldlen, _new, newlen)] *)
Definition call_handler (h : sysctl_handler) (name : list Z) (b : io) (new : option (list ascii)) (newlen : Z) : M (Z * io) :=
  match h with
  | handle_oid_to_name => handle_oid_to_name' name b
  | handle_name_to_oid => handle_name_to_oid' b new
  | handle_get_data_type => handle_get_data_type' name b
  | handle_availcpu => handle_hostinfo hi_avail_cpus b
  | handle_physicalcpu => handle_hostinfo hi_physical_cpu b
  | handle_physicalcpu_max => handle_hostinfo hi_physical_cpu_max b
  | handle_logicalcpu => handle_hostinfo hi_logical_cpu b
  | handle_logicalcpu_max => handle_hostinfo hi_logical_cpu_max b
  | handle_memsize => handle_memsize' b
  | handle_pagesize => handle_pagesize' b
  | handle_cputype => handle_hostinfo hi_cpu_type b
  | handle_cpusubtype => handle_hostinfo hi_cpu_subtype b
  | handle_cputhreadtype => handle_hostinfo hi_cpu_threadtype b
  | handle_cpu64bitcapable => handle_cpu64bitcapable' b
  | handle_machine => handle_machine' b
  | handle_cpufrequency => handle_cpufrequency' b
  | handle_msgbuf => handle_msgbuf' b
  | handle_proc => handle_proc' name b
  | handle_procargs32 => handle_procargs32' name b
  | handle_argmax => handle_argmax' b
  | handle_boottime => handle_boottime' b
  | handle_ostype => ok (copyout_string EMULATED_SYSNAME b)
  | handle_hostname => handle_hostname' b new newlen
  | handle_domainname => handle_domainname' b new newlen
  | handle_osrelease => ok (copyout_string EMULATED_RELEASE b)
  | handle_version => ok (copyout_string EMULATED_VERSION b)
  | handle_osversion => ok (copyout_string EMULATED_OSVERSION b)
  | handle_maxproc => handle_maxproc' b
  | handle_netboot | handle_safeboot => handle_constant 0 b
  | handle_usrstack32 => handle_usrstack32' b
  | handle_usrstack64 => handle_usrstack64' b
  | handle_sysv_semmns => handle_constant (-1) b
  | handle_osproductversion => ok (copyout_string EMULATED_OSPRODUCTVERSION b)
  | handle_vendor => handle_vendor' b
  | handle_max_basic => handle_max_basic' b
  | handle_family => handle_family' b
  | handle_model => handle_model' b
  | handle_stepping => handle_stepping' b
  | handle_brand_string => handle_brand_string' b
  | handle_features => handle_features' b
  | handle_route => handle_route' name b
  | handle_proc_cputype => handle_proc_cputype' name b
  end.

Definition sys_sysctl (name : list Z) (b : io) (new : option (list ascii)) (newlen : Z) : M (Z * io) :=
  match walk_oid sysctls_root name with
  | inl e => mret (e, b)
  | inr (Node _ _ _) => mret (- EISDIR, b)
  | inr (Leaf _ _ _ _ h) => call_handler h name b new newlen
  end.

(** The handler gets no numbers. *)
Definition sys_sysctlbyname (name : cstr) (b : io) (new : option (list ascii)) (newlen : Z) : M (Z * io) :=
  if streq name (s2c "vfs.generic.noremotehang") then mret (0, b)
  else
    match walk_name sysctls_root (tokens (ztake 127 name)) with
    | inl e => mret (e, b)
    | inr (Node _ _ _) => mret (- EISDIR, b)
    | inr (Leaf _ _ _ _ h) => call_handler h [] b new newlen
    end.
End Handlers.

(** ** Theorems *)

(** *** The tree *)

(** Every variable: its numbers, its names, its type and its handler. *)
Fixpoint leaves (k : known_sysctl) : list (list Z * list cstr * (Z * sysctl_handler)) :=
  match k with
  | Leaf _ t _ _ h => [([], [], (t, h))]
  | Node _ _ subctls =>
    subctls ≫= (λ c, (λ '(oids, names, h), (ks_oid c :: oids, ks_name c :: names, h)) <$> leaves c)
  end.

(** A name with dots. *)
Fixpoint dotted (names : list cstr) : cstr :=
  match names with [] => [] | [n] => n | n :: names => n ++ s2c "." ++ dotted names end.

(** The longest dotted name below an entry, with the dots before its parts,
    and the number of levels below it. *)
Fixpoint below (k : known_sysctl) : Z :=
  match k with
  | Leaf _ _ _ _ _ => 0
  | Node _ _ subctls => foldr (λ c m, Z.max (1 + strlen (ks_name c) + below c) m) 0 subctls
  end.
Fixpoint levels (k : known_sysctl) : nat :=
  match k with
  | Leaf _ _ _ _ _ => O
  | Node _ _ subctls => foldr (λ c m, (S (levels c) `max` m)%nat) O subctls
  end.

Lemma below_child c o n subctls : In c subctls -> 1 + strlen (ks_name c) + below c <= below (Node o n subctls).
Proof. simpl. induction subctls as [|c' l IH]; simpl; [done|]. intros [->|Hin]; [lia|]. specialize (IH Hin). lia. Qed.

Lemma below_nonneg k : 0 <= below k.
Proof. destruct k as [o n l|]; simpl; [|done]. destruct l; simpl; [done|]. induction l; simpl; lia. Qed.

Lemma levels_child c o n subctls : In c subctls -> (S (levels c) <= levels (Node o n subctls))%nat.
Proof. simpl. induction subctls as [|c' l IH]; simpl; [done|]. intros [->|Hin]; [lia|]. specialize (IH Hin). lia. Qed.

Lemma strcat_room size dst src : strlen dst + strlen src < size -> strcat size dst src = Some (dst ++ src).
Proof. intros ?. unfold strcat. by rewrite (proj2 (Z.ltb_lt _ _)). Qed.

(** [strcat] stays in [sname] as long as the longest name below fits. *)
Lemma oid_to_name_fits oid current sname :
  strlen sname + below current < 64 -> ∃ r, oid_to_name_loop current oid sname = Some r.
Proof.
  revert current sname. induction oid as [|o oid IH]; intros current sname Hs; [by eexists|].
  destruct current as [co cn subctls|]; [|by eexists]. simpl. destruct (find_oid o subctls) as [next|] eqn:Hf; [|by eexists].
  apply find_some in Hf as [Hin _]. pose proof (below_child next co cn subctls Hin) as Hb.
  pose proof (below_nonneg next). assert (0 <= strlen (ks_name next)) by (unfold strlen; lia).
  assert (∃ s, add_dot sname = Some s ∧ strlen s <= strlen sname + 1) as (s & -> & Hl).
  { destruct sname as [|c sname]; [by exists []|]. unfold add_dot. rewrite strcat_room by (change (strlen (s2c ".")) with 1; lia).
    eexists. split; [done|]. rewrite strlen_app. change (strlen (s2c ".")) with 1. lia. }
  simpl. rewrite strcat_room by lia. simpl. destruct next as [no nn nl|]; [|by eexists].
  apply IH. rewrite strlen_app. lia.
Qed.

(** The array [oid] has an entry for every level. *)
Lemma name_to_oid_fits tokens current room :
  (levels current <= room)%nat -> ∃ r, name_to_oid_loop room current tokens = Some r.
Proof.
  revert current room. induction tokens as [|t tokens IH]; intros current room Hl; [by eexists|].
  destruct current as [o n subctls|]; [|by eexists]. simpl.
  destruct (find_name t subctls) as [next|] eqn:Hf; [|by eexists].
  apply find_some in Hf as [Hin _]. pose proof (levels_child next o n subctls Hin).
  destruct room as [|room]; simpl; [lia|]. destruct (IH next room) as [r ->]; [lia|]. by eexists.
Qed.

(** The text and the numbers that come out are within those bounds, too. *)
Lemma name_to_oid_length tokens current room oids :
  name_to_oid_loop room current tokens = Some (inr oids) -> (length oids <= room)%nat.
Proof.
  revert current room oids. induction tokens as [|t tokens IH]; intros current room oids; [simpl; intros [= <-]; simpl; lia|].
  destruct current as [o n subctls|]; [|done]. destruct room as [|room]; simpl;
    destruct (find_name t subctls) as [next|]; try done.
  destruct (name_to_oid_loop room next tokens) as [[e|l]|] eqn:Hn; simpl; try done. intros [= <-]. simpl.
  specialize (IH _ _ _ Hn). lia.
Qed.

(** *** Stores stay in the caller's buffer *)

(** [n] bytes of [mem] belong to the buffer; the rest is as it was. *)
Definition within (n : Z) (mem : list ascii) (b : io) : Prop :=
  ∃ m l, io_old b = Some m ∧ io_len b = Some l ∧ length m = length mem ∧ drop (Z.to_nat n) m = drop (Z.to_nat n) mem.

(** What the handlers need of Linux: syslog(2) stores no more than it is
    asked for, and the requests about interfaces are answered with names of
    16 bytes and addresses of the internet family. *)
Definition inet_ifreq (r : linux_ifreq) : Prop :=
  length (lifr_name r) = 16%nat ∧ length (lifr_addr r) = 16%nat ∧ linux_family (lifr_addr r) = LINUX_PF_INET.

Definition sysctl_response {X : Set} (e : linuxE X) : X -> Prop :=
  match e in linuxE X return X -> Prop with
  | SysOut nr args o =>
    match o in outk Y return Z * Y -> Prop with
    | OBytes size => λ '(r, _), args = [AInt SYSLOG_ACTION_READ_ALL; AInt size] -> -4096 < r <= Z.max 0 size
    | OIfreqs _ => λ '(_, l), Forall inet_ifreq l
    | OIfreq => λ '(_, q), length (lifr_addr q) = 16%nat ∧
        match args with [_; AInt req; _] => req ≠ LINUX_SIOCGIFHWADDR -> linux_family (lifr_addr q) = LINUX_PF_INET | _ => True end
    | _ => λ _, True
    end
  | _ => λ _, True
  end.
Definition sysctl_host : protocol := Protocol (λ _ _, True) (λ X e, sysctl_response e) False.

Section Within.
Context `{LoopFuel, IcaseEnabled}.
Context (n : Z) (mem : list ascii) (Hn : 0 <= n <= Z.of_nat (length mem)).

Lemma put_within Ψ off data b g (Q : io -> gstate -> Prop) :
  0 <= off -> off + Z.of_nat (length data) <= n -> within n mem b ->
  (∀ b', within n mem b' -> io_len b' = io_len b -> Q b' g) -> wp Ψ (put off data b) g Q.
Proof.
  intros Ho Hd (m & l & Hm & Hl & Hlen & Hdrop) HQ. unfold put. rewrite Hm. simpl. unfold store.
  rewrite (proj2 (Z.leb_le _ _)) by lia. simpl. apply HQ; [|done].
  exists (write_at m (Z.to_nat off) data), l. split_and!; [done|done| |].
  - rewrite write_at_length; lia.
  - rewrite <- Hdrop. unfold write_at. rewrite app_assoc, drop_app_ge by (rewrite length_app, length_take; lia).
    rewrite drop_drop. f_equal. rewrite length_app, length_take. lia.
Qed.

Lemma set_len_within Ψ z b g (Q : io -> gstate -> Prop) :
  within n mem b -> (∀ b', within n mem b' -> Q b' g) -> wp Ψ (set_len z b) g Q.
Proof. intros (m & l & Hm & Hl & Hr) HQ. unfold set_len. rewrite Hl. apply HQ. exists m, z. by rewrite Hm. Qed.

Lemma ok_wp Ψ m g (Q : Z * io -> gstate -> Prop) : wp Ψ m g (λ b g', Q (0, b) g') -> wp Ψ (ok m) g Q.
Proof. intros Hm. unfold ok. by apply wp_bind. Qed.

Lemma handle_size_within Ψ size b k g (Q : Z * io -> gstate -> Prop) :
  within n mem b -> io_len b = Some n -> Q (- EINVAL, b) g ->
  (∀ b', size <= n -> within n mem b' -> wp Ψ (k b') g Q) -> wp Ψ (sysctl_handle_size size b k) g Q.
Proof.
  intros Hw Hl He Hk. pose proof Hw as (m & l & Hm & _). unfold sysctl_handle_size, get_len. rewrite Hm, Hl. wp_step. apply wp_ret.
  case_cmp; [by apply wp_ret|]. wp_step. apply set_len_within; [done|]. intros b' Hb'. apply Hk; [lia|done].
Qed.

Lemma strlcpy_length src size : 0 <= size -> Z.of_nat (length (strlcpy_bytes src size)) <= size.
Proof. intros Hs. unfold strlcpy_bytes, ztake. case_cmp; simpl; [lia|]. rewrite length_app, length_take. simpl. lia. Qed.

Lemma copyout_string_within Ψ str b g (Q : io -> gstate -> Prop) :
  within n mem b -> io_len b = Some n -> (∀ b', within n mem b' -> Q b' g) -> wp Ψ (copyout_string str b) g Q.
Proof.
  intros Hw Hl HQ. pose proof Hw as (m & l & Hm & _). unfold copyout_string, get_len. rewrite Hm, Hl.
  wp_step. apply wp_ret. wp_step. apply put_within; [lia|pose proof (strlcpy_length str n); lia|done|]. intros b' Hb' _.
  by apply set_len_within; [|auto].
Qed.

End Within.

(** The handlers that look at the size of the buffer before they store. *)
Definition careful (h : sysctl_handler) : bool :=
  match h with
  | handle_pagesize | handle_cpufrequency | handle_argmax | handle_maxproc | handle_usrstack32 | handle_usrstack64
  | handle_proc | handle_procargs32 => false
  | _ => true
  end.

Lemma strncpy_length src n : 0 <= n -> Z.of_nat (length (strncpy_bytes src n)) = n.
Proof. intros Hn. unfold strncpy_bytes, ztake, strlen. rewrite length_app, length_take, length_replicate. lia. Qed.

Lemma round_up_bound z : 0 <= z < 64 -> z <= round_up_sizeof_u32 z <= z + 3.
Proof.
  intros Hz. assert (forallb (λ i, let z := Z.of_nat i in (z <=? round_up_sizeof_u32 z) && (round_up_sizeof_u32 z <=? z + 3)) (seq 0 64) = true)
    as Hall by by vm_compute.
  rewrite forallb_forall in Hall. specialize (Hall (Z.to_nat z)). rewrite Z2Nat.id in Hall by lia.
  cbv zeta in Hall. rewrite andb_true_iff, !Z.leb_le in Hall. apply Hall, in_seq. lia.
Qed.

Lemma name_len_bound r : 0 <= name_len r <= 16.
Proof. unfold name_len, strlen, ztake. pose proof (c_str_length (take (Z.to_nat 16) (lifr_name r))) as H. rewrite length_take in H. lia. Qed.

(** The name and the link address fit into the first message. *)
Lemma ifm_room r : sizeof_if_msghdr + 8 + name_len r + MAC_LENGTH <= ifm_length r ∧ sizeof_if_msghdr + 20 <= ifm_length r.
Proof.
  pose proof (name_len_bound r). unfold ifm_length, additional_sockaddr_len, sizeof_sockaddr_dl, sizeof_sdl_data, MAC_LENGTH.
  case_cmp; [pose proof (round_up_bound (20 + 0))|pose proof (round_up_bound (20 + (name_len r + 6 - 12)))]; lia.
Qed.

Lemma ints_length oids : length (oids ≫= int_bytes) = (4 * length oids)%nat.
Proof. induction oids as [|o oids IH]; [done|]. change ((o :: oids) ≫= int_bytes) with (int_bytes o ++ (oids ≫= int_bytes)). rewrite length_app, IH. simpl. lia. Qed.

Section Careful.
Context `{LoopFuel, IcaseEnabled}.
Context (host_info : M (option host_basic_info)) (cpuid : Z -> Z * Z * Z * Z).
Context (host_info_ok : ∀ g, wp sysctl_host host_info g (λ _ _, True)).
Context (n : Z) (mem : list ascii) (Hn : 0 <= n <= Z.of_nat (length mem)).

Local Abbreviation buffer := (within n mem).
Local Abbreviation keeps m := (∀ g, wp sysctl_host m g (λ '(_, b) _, buffer b)).

Lemma gethostinfo_wp g (Q : host_basic_info -> gstate -> Prop) : (∀ h g', Q h g') -> wp sysctl_host (gethostinfo host_info) g Q.
Proof.
  intros HQ. unfold gethostinfo. wp_step. wp_step. case_cmp; [|by apply wp_ret].
  wp_step. eapply wp_mono; [apply host_info_ok|]. intros r g' _. wp_step. wp_step. by apply wp_ret.
Qed.

Lemma need_uname_wp g (Q : linux_utsname -> gstate -> Prop) : (∀ u g', Q u g') -> wp sysctl_host need_uname g Q.
Proof.
  intros HQ. unfold need_uname. wp_step. wp_step. destruct (_ && _); [|by apply wp_ret].
  wp_step. unfold __linux_uname. wp_step. apply wp_syscall_int_out; [done|]. intros r u _. wp_step. wp_step. wp_step. by apply wp_ret.
Qed.

Lemma hostinfo_keeps member b : buffer b -> io_len b = Some n -> keeps (handle_hostinfo host_info member b).
Proof.
  intros Hb Hl g. apply (handle_size_within n mem); [done|done|done|]. intros b' Hs Hb'. wp_step. apply gethostinfo_wp. intros hi g'.
  apply ok_wp. apply (put_within n mem Hn); [lia|simpl; lia|done|]. auto.
Qed.

Lemma features_keeps names cur b g (Q : Z * io -> gstate -> Prop) : 0 <= cur -> buffer b ->
  (∀ cur' b', 0 <= cur' -> buffer b' -> Q (cur', b') g) -> wp sysctl_host (features_loop names cur n b) g Q.
Proof.
  revert cur b. induction names as [|name names IH]; intros cur b Hc Hb HQ; simpl; [by apply wp_ret, HQ|].
  destruct (Z.ltb_spec cur n); [|by apply IH]. wp_step.
  assert (wp sysctl_host (if cur =? 0 then mret (cur, b) else b ← put cur [SPACE] b; mret (cur + 1, b)) g
    (λ '(cur', b') g', g' = g ∧ 0 <= cur' ∧ buffer b')) as Hw.
  { destruct (Z.eqb_spec cur 0); [by apply wp_ret|]. wp_step. apply (put_within n mem Hn); [lia|simpl; lia|done|]. intros b' Hb' _. by apply wp_ret; split_and!; [|lia|]. }
  eapply wp_mono; [exact Hw|]. intros [cur' b'] g' (-> & Hc' & Hb'). destruct (Z.ltb_spec cur' n); [|by apply IH].
  wp_step. apply (put_within n mem Hn); [lia|rewrite strncpy_length; lia|done|]. intros b'' Hb'' _. apply IH; [unfold strlen; lia|done|done].
Qed.

Lemma put_sockaddr_keeps o addr b g (Q : io -> gstate -> Prop) :
  length addr = 16%nat -> linux_family addr = LINUX_PF_INET -> 0 <= o -> o + 16 <= n -> buffer b ->
  (∀ b', buffer b' -> io_len b' = io_len b -> Q b' g) -> wp sysctl_host (put_sockaddr o addr b) g Q.
Proof.
  intros Ha Hf Ho Hon Hb HQ. unfold put_sockaddr, sockaddr_fixup_from_linux. rewrite Ha, Hf.
  change ((sizeof_sockaddr <? 0) || (Z.of_nat 16 <? sizeof_sockaddr) || (Z.of_nat 16 <? 2)) with false. cbv iota. wp_step.
  destruct addr as [|a0 [|a1 addr]]; try done. rewrite set_bsd_family_cons.
  change (bsd_family _ =? PF_LOCAL) with false. cbv iota. apply wp_ret. cbn [fst snd].
  rewrite set_bsd_length_cons. apply (put_within n mem Hn); [lia|simpl in *; lia|done|]. auto.
Qed.

Ltac put_in := wp_step; apply (put_within n mem Hn); [unfold sizeof_if_msghdr, sizeof_ifa_msghdr in *|cbn [length app]; unfold zeros; rewrite ?length_replicate; unfold sizeof_if_msghdr, sizeof_ifa_msghdr in *|done|intros ? ? ?].

Lemma ifreq_ioctl_wp sock req curr g (Q : Z * list ascii -> gstate -> Prop) :
  (∀ r addr, length addr = 16%nat -> (req ≠ LINUX_SIOCGIFHWADDR -> linux_family addr = LINUX_PF_INET) -> Q (r, addr) g) ->
  wp sysctl_host (ifreq_ioctl sock req curr) g Q.
Proof.
  intros HQ. unfold ifreq_ioctl. wp_step. apply wp_syscall_int_out; [done|]. intros r q [Hl Hf]. apply wp_ret. by apply HQ.
Qed.

Lemma put_ifm_keeps sock curr idx o b : 0 <= o -> o + ifm_length curr <= n -> buffer b -> io_len b = Some n ->
  ∀ g, wp sysctl_host (put_ifm sock curr idx o b) g (λ '(_, b') g', g' = g ∧ buffer b' ∧ io_len b' = Some n).
Proof.
  intros Ho Hfit Hb Hl g. pose proof (ifm_room curr) as [Hr1 Hr2]. pose proof (name_len_bound curr). unfold put_ifm, MAC_LENGTH in *.
  put_in; [lia|lia|]. put_in; [lia|simpl; lia|]. put_in; [lia|simpl; lia|].
  put_in; [lia|unfold ztake; rewrite length_take; lia|]. wp_step. apply ifreq_ioctl_wp. intros r addr Ha _.
  case_cmp; [apply wp_ret; split_and!; congruence || done|].
  put_in; [lia|unfold ztake; rewrite length_take; lia|]. apply wp_ret; split_and!; congruence || done.
Qed.

Lemma put_ifam_keeps sock curr idx o b : inet_ifreq curr -> 0 <= o -> o + ifam_length <= n -> buffer b -> io_len b = Some n ->
  ∀ g, wp sysctl_host (put_ifam sock curr idx o b) g (λ '(_, b') g', g' = g ∧ buffer b' ∧ io_len b' = Some n).
Proof.
  intros (_ & Ha & Hf) Ho Hfit Hb Hl g. change ifam_length with 68 in *. unfold put_ifam.
  change (round_up_sizeof_u32 sizeof_sockaddr) with 16. change ifam_length with 68. unfold sizeof_ifa_msghdr.
  put_in; [lia|lia|]. put_in; [lia|simpl; lia|].
  wp_step. apply put_sockaddr_keeps; [done..|lia|lia|done|]. intros b1 Hb1 Hl1.
  wp_step. apply ifreq_ioctl_wp. intros r1 a1 Hla1 Hf1. case_cmp; [apply wp_ret; split_and!; congruence || done|].
  wp_step. apply put_sockaddr_keeps; [done|by apply Hf1|lia|lia|done|]. intros b2 Hb2 Hl2.
  wp_step. apply ifreq_ioctl_wp. intros r2 a2 Hla2 Hf2. case_cmp; [apply wp_ret; split_and!; congruence || done|].
  wp_step. apply put_sockaddr_keeps; [done|by apply Hf2|lia|lia|done|]. intros b3 Hb3 Hl3.
  apply wp_ret; split_and!; congruence || done.
Qed.

Lemma put_message_keeps total len put_it b g (Q : Z * bool * io -> gstate -> Prop) :
  buffer b -> io_len b = Some n ->
  (total + len <= n -> wp sysctl_host (put_it b) g (λ '(_, b') g', g' = g ∧ buffer b' ∧ io_len b' = Some n)) ->
  (∀ s f b', (f = true -> total + len <= n) -> buffer b' -> io_len b' = Some n -> Q (s, f, b') g) ->
  wp sysctl_host (put_message total len put_it b) g Q.
Proof.
  intros Hb Hl Hm HQ. pose proof Hb as (mm & l & Hmm & _). unfold put_message, fits, get_len. rewrite Hmm, Hl.
  wp_step. wp_step. apply wp_ret. apply wp_ret. destruct (Z.leb_spec (total + len) n); [|by apply wp_ret, HQ].
  wp_step. eapply wp_mono; [by apply Hm|]. intros [s b'] g' (-> & Hb' & Hl'). apply wp_ret. by apply HQ.
Qed.

Lemma iflist_keeps sock reqs idx o total b : Forall inet_ifreq reqs -> 0 <= o <= total -> buffer b -> io_len b = Some n ->
  ∀ g, wp sysctl_host (iflist_loop sock reqs idx o total b) g (λ '(_, _, b') g', g' = g ∧ buffer b').
Proof.
  revert idx o total b. induction reqs as [|r reqs IH]; intros idx o total b Hall Ho Hb Hl g; simpl; [by apply wp_ret|].
  apply Forall_cons in Hall as [Hr Hall]. pose proof (ifm_room r) as [_ Hlen]. unfold sizeof_if_msghdr in Hlen.
  wp_step. apply put_message_keeps; [done|done|intros; apply put_ifm_keeps; [lia|lia|done|done]|]. intros s f b1 Hf Hb1 Hl1.
  case_cmp; [by apply wp_ret|]. wp_step.
  apply put_message_keeps; [done|done|intros; apply put_ifam_keeps; [done|destruct f; lia|destruct f; lia|done|done]|].
  intros s2 f2 b2 Hf2 Hb2 Hl2. case_cmp; [by apply wp_ret|]. change ifam_length with 68 in *. apply IH; [done|destruct f, f2; lia|done|done].
Qed.

Lemma iflist_end sock (s t : Z) b g : buffer b ->
  wp sysctl_host ((if 0 <=? sock then close_internal sock;; mret tt else mret tt);; b ← set_len t b; mret (s, b)) g (λ '(_, b') _, buffer b').
Proof.
  intros Hb. assert (∀ g', wp sysctl_host (b ← set_len t b; mret (s, b)) g' (λ '(_, b') _, buffer b')) as Hs.
  { intros g'. wp_step. apply (set_len_within n mem); [done|]. intros b1 Hb1. by apply wp_ret. }
  wp_step. case_cmp; [|by apply wp_ret]. wp_step. unfold close_internal. wp_step. apply wp_syscall_int; [done|]. intros ? _. by apply wp_ret, wp_ret.
Qed.

Lemma do_iflist_keeps b : buffer b -> io_len b = Some n -> keeps (do_iflist b).
Proof.
  intros Hb Hl g. unfold do_iflist. wp_step. unfold sys_socket, domain_switch. simpl. wp_step.
  apply wp_syscall_int; [done|]. intros sock _. apply wp_ret. wp_step.
  destruct (Z.ltb_spec (bsd_ret (s32 sock)) 0); [by apply wp_ret, iflist_end|].
  wp_step. unfold __real_ioctl_out. wp_step. apply wp_syscall_int_out; [done|]. intros st reqs Hreqs. apply wp_ret.
  destruct (Z.ltb_spec (bsd_ret (s32 st)) 0); [by apply wp_ret, iflist_end|].
  eapply wp_mono; [apply iflist_keeps; [exact Hreqs|lia|done|done]|]. intros [[s t] b'] g' [-> Hb']. by apply iflist_end.
Qed.

Lemma string_keeps str b : buffer b -> io_len b = Some n -> keeps (ok (copyout_string str b)).
Proof. intros Hb Hl g. apply ok_wp. by apply (copyout_string_within n mem Hn). Qed.

Lemma oid_to_name_keeps name b : buffer b -> io_len b = Some n -> keeps (handle_oid_to_name' name b).
Proof.
  intros Hb Hl g. unfold handle_oid_to_name'. destruct (oid_to_name_fits (drop 2 name) sysctls_root []) as [r Hr]; [by vm_compute|].
  eapply wp_bind_defined; [exact Hr|]. destruct r; [by apply wp_ret|]. by apply string_keeps.
Qed.

Lemma name_to_oid_keeps b s : terminated s = true -> buffer b -> io_len b = Some n -> keeps (handle_name_to_oid' b (Some s)).
Proof.
  intros Ht Hb Hl g. unfold handle_name_to_oid'. eapply wp_bind_defined; [done|]. rewrite Ht. simpl.
  destruct (name_to_oid_fits (tokens (ztake 127 (c_str s))) sysctls_root 4) as [r Hr]; [vm_compute; lia|].
  eapply wp_bind_defined; [exact Hr|]. destruct r as [e|oids]; [by apply wp_ret|].
  apply (handle_size_within n mem); [done|done|done|]. intros b' Hs Hb'. apply ok_wp.
  apply (put_within n mem Hn); [lia|rewrite ints_length; lia|done|]. auto.
Qed.

Lemma get_data_type_keeps name b : buffer b -> io_len b = Some n -> keeps (handle_get_data_type' name b).
Proof.
  intros Hb Hl g. unfold handle_get_data_type'. destruct (data_type_loop _ _) as [e|k]; [by apply wp_ret|].
  apply (handle_size_within n mem); [done|done|done|]. intros b' Hs Hb'. unfold put_int, strlen in *.
  put_in; [lia|simpl; lia|]. apply ok_wp. apply (put_within n mem Hn); [lia|rewrite length_app; simpl; lia|done|]. auto.
Qed.

Lemma sized_keeps size b k : buffer b -> io_len b = Some n ->
  (∀ b', size <= n -> buffer b' -> keeps (k b')) -> keeps (sysctl_handle_size size b k).
Proof. intros Hb Hl Hk g. apply (handle_size_within n mem); [done|done|done|]. intros b' Hs Hb'. by apply Hk. Qed.

Lemma put_keeps data b : Z.of_nat (length data) <= n -> buffer b -> keeps (ok (put 0 data b)).
Proof. intros Hd Hb g. apply ok_wp. apply (put_within n mem Hn); [lia|lia|done|]. auto. Qed.

Lemma msgbuf_keeps b : buffer b -> io_len b = Some n -> keeps (handle_msgbuf' b).
Proof.
  intros Hb Hl g. unfold handle_msgbuf', get_len. rewrite Hl. wp_step. apply wp_ret. destruct (Z.leb_spec n 8).
  - case_cmp; [by apply wp_ret|]. wp_step. unfold __linux_syslog. wp_step. apply wp_syscall_int_out; [done|]. intros r d _.
    apply wp_ret. destruct (s32 r <? 0); apply put_keeps; simpl; lia || done.
  - wp_step. unfold __linux_syslog. wp_step. apply wp_syscall_int_out; [done|]. intros r d Hr. specialize (Hr eq_refl).
    apply wp_ret. pose proof (s32_range n). assert (s32 n <= n). { pose proof (s32_id n). unfold s32, INT_MAX, INT_MIN in *. lia. }
    unfold INT_MAX, INT_MIN in *. rewrite (s32_id r) by (unfold INT_MAX, INT_MIN; lia). pose proof Hb as (m & l & Hm & _).
    destruct (Z.ltb_spec r 0); [by apply wp_ret|]. rewrite (proj2 (Z.ltb_ge _ _)) by lia. unfold put_opt. rewrite Hm.
    put_in; [lia|unfold ztake; rewrite length_take; lia|]. apply ok_wp. apply (set_len_within n mem); auto.
Qed.

Lemma boottime_keeps b : buffer b -> io_len b = Some n -> keeps (handle_boottime' b).
Proof.
  intros Hb Hl g. unfold handle_boottime', __linux_sysinfo, get_len. wp_step. wp_step. apply wp_syscall_int_out; [done|]. intros r u _. apply wp_ret.
  destruct (_ =? -1); [by apply wp_ret|]. pose proof Hb as (m & l & Hm & _ & Hlen & _). rewrite Hm, Hl. wp_step. apply wp_ret.
  destruct (Z.ltb_spec n 16); [by apply wp_ret|]. wp_step. unfold sys_gettimeofday. wp_step. apply wp_syscall_int_out; [done|]. intros t tv _. apply wp_ret.
  destruct (s32 t <? 0); wp_step; rewrite ?(proj2 (Z.leb_le 8 (Z.of_nat (length m)))) by lia; apply wp_ret;
    (put_in; [lia|simpl; lia|]); apply ok_wp; apply (set_len_within n mem); auto.
Qed.

Lemma uname_keeps nr member b new newlen : buffer b -> io_len b = Some n -> keeps (handle_uname nr member b new newlen).
Proof.
  intros Hb Hl g. unfold handle_uname. wp_step. apply need_uname_wp. intros u g'. wp_step.
  apply (copyout_string_within n mem Hn); [done|done|]. intros b' Hb'. destruct new as [new|]; [|by apply wp_ret].
  case_cmp; [|by apply wp_ret]. wp_step. apply wp_syscall_int; [done|]. intros r _. by apply wp_ret.
Qed.

Lemma constant_keeps v b : buffer b -> io_len b = Some n -> keeps (handle_constant v b).
Proof.
  intros Hb Hl g. unfold handle_constant. rewrite Hl. wp_step. destruct (Z.leb_spec 4 n).
  - apply (put_within n mem Hn); [lia|simpl; lia|done|]. intros b' Hb' _. apply ok_wp. apply (set_len_within n mem); auto.
  - apply wp_ret, ok_wp. apply (set_len_within n mem); auto.
Qed.

Lemma copyout_int_keeps v b : s32 v ≠ INT_MIN -> buffer b -> io_len b = Some n -> keeps (ok (copyout_int v b)).
Proof.
  intros Hv Hb Hl g. apply ok_wp. unfold copyout_int. wp_step. destruct (conversion_d_text v Hv) as (d & Hd & Hnul & Hlen).
  apply (sprintf_path_wp _ _ _ _ (d ++ [])); [change (s2c "%d") with (s2c "%d" ++ []); by rewrite format_text_d, Hd|by rewrite app_nil_r| | |];
    rewrite ?app_nil_r; [lia|unfold strlen, INT_MAX; lia|]. by apply (copyout_string_within n mem Hn).
Qed.

Lemma memsize_keeps b : buffer b -> io_len b = Some n -> keeps (handle_memsize' host_info b).
Proof.
  intros Hb Hl. apply sized_keeps; [done|done|]. intros b' Hs Hb' g. wp_step. apply gethostinfo_wp. intros hi g'. apply put_keeps; [simpl; lia|done].
Qed.

Lemma cpu64_keeps b : buffer b -> io_len b = Some n -> keeps (handle_cpu64bitcapable' b).
Proof. intros Hb Hl. apply sized_keeps; [done|done|]. intros b' Hs Hb' g. apply put_keeps; [simpl; lia|done]. Qed.

Lemma machine_keeps b : buffer b -> io_len b = Some n -> keeps (handle_machine' b).
Proof. intros Hb Hl g. unfold handle_machine'. wp_step. apply need_uname_wp. intros u g'. by apply string_keeps. Qed.

Lemma vendor_keeps b : buffer b -> io_len b = Some n -> keeps (handle_vendor' cpuid b).
Proof. intros Hb Hl g. unfold handle_vendor'. destruct (cpuid 0) as [[[a x] c] d]. by apply string_keeps. Qed.

Lemma leaf_keeps f b : s32 (f (cpuid 0).1.1.1) ≠ INT_MIN -> buffer b -> io_len b = Some n -> keeps (handle_leaf cpuid f b).
Proof.
  intros Hf Hb Hl g. unfold handle_leaf. destruct (cpuid 0) as [[[a x] c] d]. apply copyout_int_keeps; [|done|done].
  rewrite (s32_id (s32 _)); [done|]. pose proof (s32_range (f a)). lia.
Qed.

Lemma low_bits_keeps a : s32 (Z.land a 15) ≠ INT_MIN.
Proof.
  change 15 with (Z.ones 4). rewrite Z.land_ones by lia. pose proof (Z.mod_pos_bound a (2 ^ 4)).
  rewrite s32_id by (unfold INT_MIN, INT_MAX; lia). unfold INT_MIN. lia.
Qed.

Lemma brand_keeps b : buffer b -> io_len b = Some n -> keeps (handle_brand_string' cpuid b).
Proof.
  intros Hb Hl g. unfold handle_brand_string'. destruct (cpuid 0) as [[[a x] c] d]. destruct (a <? _); [by apply wp_ret|]. by apply string_keeps.
Qed.

Lemma features_handler_keeps b : buffer b -> io_len b = Some n -> keeps (handle_features' cpuid b).
Proof.
  intros Hb Hl g. unfold handle_features', get_len. destruct (cpuid 0) as [[[a x] c] d]. pose proof Hb as (m & l & Hm & _). rewrite Hm, Hl.
  wp_step. apply wp_ret. wp_step. apply features_keeps; [lia|done|]. intros cur b' Hc Hb'. apply ok_wp.
  destruct (Z.ltb_spec cur n); [|by apply wp_ret]. apply (put_within n mem Hn); [lia|simpl; lia|done|]. auto.
Qed.

Lemma cputype_keeps name b : buffer b -> io_len b = Some n -> keeps (handle_proc_cputype' name b).
Proof.
  intros Hb Hl g. unfold handle_proc_cputype'. destruct name as [|? [|? [|pid name]]]; try by apply wp_ret.
  wp_step. apply wp_lkm_call; [done|]. intros r [] _. destruct (_ <? 0); [by apply wp_ret|]. unfold get_len. rewrite Hl. wp_step. apply wp_ret.
  destruct (Z.ltb_spec n 4); [by apply wp_ret|]. apply put_keeps; [simpl; lia|done].
Qed.

Lemma route_keeps name b : buffer b -> io_len b = Some n -> keeps (handle_route' name b).
Proof.
  intros Hb Hl g. unfold handle_route'. repeat (destruct name as [|? name]; try by apply wp_ret).
  case_cmp; [by apply do_iflist_keeps|by apply wp_ret].
Qed.
End Careful.

Create HintDb sysctl.
#[export] Hint Resolve memsize_keeps cpu64_keeps machine_keeps vendor_keeps oid_to_name_keeps name_to_oid_keeps get_data_type_keeps hostinfo_keeps msgbuf_keeps boottime_keeps uname_keeps
  constant_keeps string_keeps brand_keeps features_handler_keeps cputype_keeps route_keeps : sysctl.

(** C31: a handler that looks at the size of the
    buffer stores nothing outside of it, whatever the numbers, the new value,
    the processor and the host are.  (A name to translate is terminated, and
    the processor's highest basic CPUID leaf is not 0x80000000, the number of
    the first extended one, which "%d" cannot print.) *)
Theorem handlers_stay_in_buffer `{LoopFuel, IcaseEnabled} host_info cpuid h name mem n new newlen g :
  (∀ g, wp sysctl_host host_info g (λ _ _, True)) ->
  careful h = true -> 0 <= n <= Z.of_nat (length mem) ->
  (h = handle_name_to_oid -> ∃ s, new = Some s ∧ terminated s = true) ->
  (h = handle_max_basic -> s32 (cpuid 0).1.1.1 ≠ INT_MIN) ->
  wp sysctl_host (call_handler host_info cpuid h name (Io (Some mem) (Some n)) new newlen) g
     (λ '(_, b) _, ∃ mem', io_old b = Some mem' ∧ length mem' = length mem ∧ drop (Z.to_nat n) mem' = drop (Z.to_nat n) mem).
Proof.
  intros Hhi Hc Hn Hnew Hleaf. assert (within n mem (Io (Some mem) (Some n))) as Hb by (by exists mem, n).
  assert (io_len (Io (Some mem) (Some n)) = Some n) as Hl by done. revert Hb Hl. generalize (Io (Some mem) (Some n)). intros b Hb Hl.
  eapply (wp_mono _ _ _ (λ '(_, b) _, within n mem b)); [|intros [r b'] g' (m & l & ? & ? & ? & ?); by exists m].
  destruct h; try discriminate; simpl; try (by apply leaf_keeps; [done|cbv beta; first [apply low_bits_keeps|by apply Hleaf]|..]); eauto with sysctl.
  destruct (Hnew eq_refl) as (s & -> & Hs). eauto with sysctl.
Qed.

Lemma handlers_stay_in_buffer_witness :
  wp sysctl_host (call_handler (H := 1%nat) (H0 := true) (mret None) (λ _, (13, 0, 0, 3)) handle_features []
    (Io (Some (replicate 9 "x"%char)) (Some 5)) None 0) init_gstate
     (λ '(_, b) _, ∃ mem', io_old b = Some mem' ∧ length mem' = 9%nat ∧ drop 5 mem' = replicate 4 "x"%char).
Proof.
  apply (handlers_stay_in_buffer (H := 1%nat) (H0 := true) (mret None) (λ _, (13, 0, 0, 3)) handle_features []
    (replicate 9 "x"%char) 5 None 0 init_gstate); [done|done|simpl; lia|done|done].
Defined.

(** The others store before they look: two bytes are too few for the page
    size, and nothing is reported. *)
Lemma pagesize_overruns host_info cpuid `{LoopFuel, IcaseEnabled} g :
  call_handler host_info cpuid handle_pagesize [] (Io (Some [NUL; NUL]) (Some 2)) None 0 g = Stuck Undefined.
Proof. done. Qed.

(** *** Names and numbers *)

(** Handlers that look at the numbers after the two that name them. *)
Definition uses_numbers (h : sysctl_handler) : bool :=
  match h with
  | handle_oid_to_name | handle_get_data_type | handle_proc | handle_procargs32 | handle_route | handle_proc_cputype => true
  | _ => false
  end.

Definition reached (h : sysctl_handler) (k : known_sysctl) : Prop := match k with Leaf _ _ _ _ h' => h' = h | Node _ _ _ => False end.

(** What evaluation shows of one variable. *)
Definition consistent (v : list Z * list cstr * (Z * sysctl_handler)) : Prop :=
  let '(oids, names, (t, h)) := v in
  h = handle_brand_string ∨
  (∃ k, walk_oid sysctls_root oids = inr k ∧ walk_name sysctls_root (tokens (ztake 127 (dotted names))) = inr k ∧
        data_type_loop sysctls_root oids = inr k ∧ reached h k ∧ ks_type k = t ∧ strlen (ks_exttype k) < 16) ∧
  streq (dotted names) (s2c "vfs.generic.noremotehang") = false ∧
  name_to_oid_loop 4 sysctls_root (tokens (ztake 127 (dotted names))) = Some (inr oids) ∧
  oid_to_name_loop sysctls_root oids [] = Some (inr (dotted names)) ∧
  c_str (dotted names ++ [NUL]) = dotted names ∧ strlen (dotted names) < 64 ∧ (length oids <= 3)%nat ∧
  (uses_numbers h = true -> length oids = 2%nat).

Lemma tree_consistent : Forall consistent (leaves sysctls_root).
Proof.
  let l := eval vm_compute in (leaves sysctls_root) in change (leaves sysctls_root) with l.
  repeat (apply List.Forall_cons; [first [left; reflexivity|right; split; [eexists; split_and!; reflexivity|split_and!; try reflexivity; vm_compute; (lia || done)]]|]).
  apply List.Forall_nil.
Qed.

Lemma variable_consistent oids names t h : In (oids, names, (t, h)) (leaves sysctls_root) -> consistent (oids, names, (t, h)).
Proof. intros Hin. pose proof tree_consistent as Hall. rewrite List.Forall_forall in Hall. by apply Hall. Qed.

Lemma handler_without_numbers `{LoopFuel, IcaseEnabled} host_info cpuid h oids b new newlen :
  (uses_numbers h = true -> length oids = 2%nat) ->
  call_handler host_info cpuid h oids b new newlen = call_handler host_info cpuid h [] b new newlen.
Proof. intros Hu. destruct h; try done; specialize (Hu eq_refl); by destruct oids as [|? [|? [|]]]. Qed.

(** C34: asking for a variable by its name is asking
    for it by its numbers, for every variable and every buffer; only the brand
    string of the processor, which has the name of another variable, is left
    out. *)
Theorem sysctlbyname_agrees `{LoopFuel, IcaseEnabled} host_info cpuid oids names t h b new newlen :
  In (oids, names, (t, h)) (leaves sysctls_root) -> h ≠ handle_brand_string ->
  sys_sysctlbyname host_info cpuid (dotted names) b new newlen = sys_sysctl host_info cpuid oids b new newlen.
Proof.
  intros Hin Hh. destruct (variable_consistent _ _ _ _ Hin) as [?|((k & Ho & Hna & _ & Hr & _) & Hv & _ & _ & _ & _ & _ & Hu)]; [done|].
  unfold sys_sysctlbyname, sys_sysctl. rewrite Hv, Ho, Hna. destruct k as [|o t' e nm h']; simpl in Hr; [done|]. subst h'.
  symmetry. by apply handler_without_numbers.
Qed.

Lemma sysctlbyname_agrees_witness :
  sys_sysctlbyname (H := 1%nat) (H0 := true) (mret None) (λ _, (0, 0, 0, 0)) (s2c "kern.hostname") (Io (Some (replicate 64 NUL)) (Some 64)) None 0 =
  sys_sysctl (H := 1%nat) (H0 := true) (mret None) (λ _, (0, 0, 0, 0)) [CTL_KERN; KERN_HOSTNAME] (Io (Some (replicate 64 NUL)) (Some 64)) None 0.
Proof.
  apply (sysctlbyname_agrees (H := 1%nat) (H0 := true) (mret None) (λ _, (0, 0, 0, 0)) [CTL_KERN; KERN_HOSTNAME]
    [s2c "kern"; s2c "hostname"] CTLTYPE_STRING handle_hostname (Io (Some (replicate 64 NUL)) (Some 64)) None 0); [|done].
  vm_compute. tauto.
Defined.

(** The name of the brand string finds the vendor. *)
Lemma brand_string_hidden :
  In ([CTL_MACHDEP; _MACHDEP_CPU; _CPU_BRAND_STRING], [s2c "machdep"; s2c "cpu"; s2c "vendor"], (CTLTYPE_STRING, handle_brand_string)) (leaves sysctls_root) ∧
  walk_name sysctls_root (tokens (s2c "machdep.cpu.vendor")) = inr (Leaf _CPU_VENDOR CTLTYPE_STRING "S" "vendor" handle_vendor).
Proof. split; [vm_compute; tauto|done]. Qed.

Lemma put_prefix data mem l g : (length data <= length mem)%nat ->
  put 0 data (Io (Some mem) l) g = Ret (Io (Some (data ++ drop (length data) mem)) l, g).
Proof. intros Hl. unfold put. simpl. unfold store. rewrite (proj2 (Z.leb_le _ _)) by lia. done. Qed.

Lemma ok_ret m b g g' : m g = Ret (b, g') -> ok m g = Ret ((0, b), g').
Proof. intros Hm. unfold ok, mbind, M_bind. by rewrite Hm. Qed.

Lemma handle_size_eq size mem n k g : size <= n -> sysctl_handle_size size (Io (Some mem) (Some n)) k g = k (Io (Some mem) (Some size)) g.
Proof. intros Hs. unfold sysctl_handle_size, get_len. simpl. unfold mbind, M_bind. simpl. rewrite (proj2 (Z.ltb_ge _ _)) by lia. done. Qed.

Lemma name_to_oid_eq s oids mem n g :
  terminated s = true -> name_to_oid_loop 4 sysctls_root (tokens (ztake 127 (c_str s))) = Some (inr oids) ->
  4 * Z.of_nat (length oids) <= n -> (4 * length oids <= length mem)%nat ->
  handle_name_to_oid' (Io (Some mem) (Some n)) (Some s) g =
  Ret ((0, Io (Some ((oids ≫= int_bytes) ++ drop (4 * length oids) mem)) (Some (4 * Z.of_nat (length oids)))), g).
Proof.
  intros Ht Ho Hn Hm. unfold handle_name_to_oid', mbind at 1, M_bind. cbn [defined mret M_ret prog_bind]. rewrite Ht. cbn [negb].
  unfold mbind at 1, M_bind. rewrite Ho. cbn [defined mret M_ret prog_bind]. rewrite handle_size_eq by done.
  apply ok_ret. rewrite put_prefix by (rewrite ints_length; lia). by rewrite ints_length.
Qed.

Lemma copyout_eq str mem n g : strlen str < n -> (length str < length mem)%nat ->
  ok (copyout_string str (Io (Some mem) (Some n))) g =
  Ret ((0, Io (Some ((str ++ [NUL]) ++ drop (length (str ++ [NUL])) mem)) (Some (strlen str))), g).
Proof.
  intros Hn Hm. apply ok_ret. unfold copyout_string. simpl. unfold mbind, M_bind, strlcpy_bytes. simpl.
  rewrite (proj2 (Z.eqb_neq n 0)) by (unfold strlen in *; lia). unfold ztake. rewrite take_ge by (unfold strlen in *; lia).
  rewrite put_prefix by (rewrite length_app; simpl; lia). done.
Qed.

Lemma oid_to_name_eq a b oids text mem n g :
  oid_to_name_loop sysctls_root oids [] = Some (inr text) -> strlen text < n -> (length text < length mem)%nat ->
  handle_oid_to_name' (a :: b :: oids) (Io (Some mem) (Some n)) g =
  Ret ((0, Io (Some ((text ++ [NUL]) ++ drop (length (text ++ [NUL])) mem)) (Some (strlen text))), g).
Proof.
  intros Ho Hn Hm. unfold handle_oid_to_name', mbind at 1, M_bind. change (drop 2 (a :: b :: oids)) with oids. rewrite Ho. cbn [defined mret M_ret prog_bind]. by apply copyout_eq.
Qed.

Lemma data_type_eq a b oids k mem n g :
  data_type_loop sysctls_root oids = inr k -> strlen (ks_exttype k) + 5 <= n -> n <= Z.of_nat (length mem) ->
  ∃ mem' len, handle_get_data_type' (a :: b :: oids) (Io (Some mem) (Some n)) g = Ret ((0, Io (Some mem') (Some len)), g) ∧
              take 4 mem' = int_bytes (ks_type k).
Proof.
  intros Hd Hn Hm. unfold handle_get_data_type'. change (drop 2 (a :: b :: oids)) with oids. rewrite Hd, handle_size_eq by lia. unfold put_int, mbind at 1, M_bind.
  unfold strlen in *. rewrite put_prefix by (simpl; lia). cbn [prog_bind]. unfold ok, mbind, M_bind, put. simpl. unfold store.
  rewrite (proj2 (Z.leb_le _ _)) by (rewrite !length_cons, !length_app, length_drop; simpl; lia). simpl. by do 2 eexists.
Qed.

(** The requests of the "unspec" node translate a
    name into the numbers, the numbers back into the name, and tell the type,
    for every variable but the brand string and every buffer of 64 bytes or
    more. *)
Theorem sysctl_name_roundtrip `{LoopFuel, IcaseEnabled} host_info cpuid oids names t h mem newlen g :
  In (oids, names, (t, h)) (leaves sysctls_root) -> h ≠ handle_brand_string -> (64 <= length mem)%nat ->
  let n := Z.of_nat (length mem) in
  let text := dotted names ++ [NUL] in
  (∃ mem', sys_sysctl host_info cpuid [CTL_UNSPEC; _NAME_TO_OID] (Io (Some mem) (Some n)) (Some text) newlen g =
             Ret ((0, Io (Some mem') (Some (4 * Z.of_nat (length oids)))), g) ∧
           mem' = (oids ≫= int_bytes) ++ drop (4 * length oids) mem) ∧
  (∃ mem', sys_sysctl host_info cpuid (CTL_UNSPEC :: _OID_TO_NAME :: oids) (Io (Some mem) (Some n)) None newlen g =
             Ret ((0, Io (Some mem') (Some (strlen (dotted names)))), g) ∧ mem' = text ++ drop (length text) mem) ∧
  (∃ mem' len, sys_sysctl host_info cpuid (CTL_UNSPEC :: _GET_DATA_TYPE :: oids) (Io (Some mem) (Some n)) None newlen g =
             Ret ((0, Io (Some mem') (Some len)), g) ∧ take 4 mem' = int_bytes t).
Proof.
  intros Hin Hh Hmem n text. destruct (variable_consistent _ _ _ _ Hin) as [?|((k & Ho & Hna & Hd & Hr & Ht & He) & Hv & Hno & Hon & Hc & Hs & Hlen & _)]; [done|].
  unfold strlen in Hs. split_and!.
  - eexists. split; [|reflexivity]. apply name_to_oid_eq; unfold n, text; [|by rewrite Hc|lia|lia].
    unfold terminated. rewrite Hc, length_app. apply Z.ltb_lt. simpl. lia.
  - eexists. split; [|reflexivity]. apply oid_to_name_eq; unfold n, strlen; [done|lia|lia].
  - rewrite <- Ht. apply (data_type_eq CTL_UNSPEC _GET_DATA_TYPE); unfold n; [done|lia|lia].
Qed.

Lemma sysctl_name_roundtrip_witness :
  (∃ mem', sys_sysctl (H := 1%nat) (H0 := true) (mret None) (λ _, (0, 0, 0, 0)) [CTL_UNSPEC; _NAME_TO_OID] (Io (Some (replicate 64 NUL)) (Some 64))
             (Some (s2c "kern.sysv.semmns" ++ [NUL])) 17 init_gstate = Ret ((0, Io (Some mem') (Some 12)), init_gstate) ∧
           mem' = ([CTL_KERN; KERN_SYSV; _KERN_SEMMNS] ≫= int_bytes) ++ drop 12 (replicate 64 NUL)).
Proof.
  apply (sysctl_name_roundtrip (H := 1%nat) (H0 := true) (mret None) (λ _, (0, 0, 0, 0)) [CTL_KERN; KERN_SYSV; _KERN_SEMMNS]
    [s2c "kern"; s2c "sysv"; s2c "semmns"] CTLTYPE_INT handle_sysv_semmns (replicate 64 NUL) 17 init_gstate); [vm_compute; tauto|done|simpl; lia].
Defined.

(** *** Declared types *)

Definition type_size (t : Z) : Z := if t =? CTLTYPE_QUAD then 8 else 4.

(** The numeric variables of the "hw" node that go through
    [sysctl_handle_size]: the name, the number of bytes, and what Mach's
    description of the host says.  Not among them are "pagesize" and
    "cpufrequency", which take no notice of the size of the buffer (see
    [pagesize_overruns]). *)
Definition hw_values : list (string * (Z * (host_basic_info -> list ascii))) := [
  ("availcpu", (4, λ i, int_bytes (hi_avail_cpus i))); ("ncpu", (4, λ i, int_bytes (hi_avail_cpus i)));
  ("physicalcpu", (4, λ i, int_bytes (hi_physical_cpu i))); ("physicalcpu_max", (4, λ i, int_bytes (hi_physical_cpu_max i)));
  ("logicalcpu", (4, λ i, int_bytes (hi_logical_cpu i))); ("logicalcpu_max", (4, λ i, int_bytes (hi_logical_cpu_max i)));
  ("memsize", (8, λ i, quad_bytes (hi_max_mem i)));
  ("cputype", (4, λ i, int_bytes (hi_cpu_type i))); ("cpusubtype", (4, λ i, int_bytes (hi_cpu_subtype i)));
  ("cputhreadtype", (4, λ i, int_bytes (hi_cpu_threadtype i))); ("cpu64bit_capable", (4, λ _, int_bytes 1)) ]%string.

(** The handlers of these variables. *)
Definition hw_member (h : sysctl_handler) : option (host_basic_info -> Z) :=
  match h with
  | handle_availcpu => Some hi_avail_cpus
  | handle_physicalcpu => Some hi_physical_cpu
  | handle_physicalcpu_max => Some hi_physical_cpu_max
  | handle_logicalcpu => Some hi_logical_cpu
  | handle_logicalcpu_max => Some hi_logical_cpu_max
  | handle_cputype => Some hi_cpu_type
  | handle_cpusubtype => Some hi_cpu_subtype
  | handle_cputhreadtype => Some hi_cpu_threadtype
  | _ => None
  end.

Definition hw_match (t : Z) (h : sysctl_handler) (size : Z) (value : host_basic_info -> list ascii) : Prop :=
  type_size t = size ∧
  ((h = handle_memsize ∧ size = 8 ∧ value = (λ i, quad_bytes (hi_max_mem i))) ∨
   (h = handle_cpu64bitcapable ∧ size = 4 ∧ value = (λ _, int_bytes 1)) ∨
   ∃ m, hw_member h = Some m ∧ size = 4 ∧ value = (λ i, int_bytes (m i))).

Lemma hw_matches oids v t h size value :
  In (oids, [s2c "hw"; s2c v], (t, h)) (leaves sysctls_root) -> In (v, (size, value)) hw_values -> hw_match t h size value.
Proof.
  intros Hin Hv. assert (Forall (λ '(_, names, (t, h)), ∀ v size value, names = [s2c "hw"; s2c v] -> In (v, (size, value)) hw_values ->
    hw_match t h size value) (leaves sysctls_root)) as Hall.
  { let l := eval vm_compute in (leaves sysctls_root) in change (leaves sysctls_root) with l.
    repeat (apply List.Forall_cons; [intros v' size' value' Hn Hv'; first [discriminate Hn|
      simpl in Hv'; repeat destruct Hv' as [[= <- <- <-]|Hv']; try contradiction; first [discriminate Hn|
        split; [done|]; first [by left|by right; left|right; right; eexists; done]]]|]). apply List.Forall_nil. }
  rewrite List.Forall_forall in Hall. by apply (Hall _ Hin v size value).
Qed.

(** The size protocol of [sysctl_handle_size] around one store. *)
Lemma sized_protocol size k data n mem g : 0 <= size ->
  (size <= Z.of_nat (length mem) -> wp sysctl_host (k (Io (Some mem) (Some size))) g
     (λ '(r, b) _, r = 0 ∧ b = Io (Some (data ++ zdrop size mem)) (Some size))) ->
  0 <= n <= Z.of_nat (length mem) ->
  sysctl_handle_size size (Io None (Some n)) k g = Ret ((0, Io None (Some size)), g) ∧
  (n < size -> sysctl_handle_size size (Io (Some mem) (Some n)) k g = Ret ((- EINVAL, Io (Some mem) (Some n)), g)) ∧
  (size <= n -> wp sysctl_host (sysctl_handle_size size (Io (Some mem) (Some n)) k) g
     (λ '(r, b) _, r = 0 ∧ b = Io (Some (data ++ zdrop size mem)) (Some size))).
Proof.
  intros Hs Hk Hn. split_and!; [done| |].
  - intros Hlt. unfold sysctl_handle_size, get_len, mbind, M_bind. simpl. by rewrite (proj2 (Z.ltb_lt _ _)).
  - intros Hle. unfold wp. rewrite handle_size_eq by done. apply Hk. lia.
Qed.

Lemma put_sized size data mem g : Z.of_nat (length data) = size -> size <= Z.of_nat (length mem) ->
  wp sysctl_host (ok (put 0 data (Io (Some mem) (Some size)))) g (λ '(r, b) _, r = 0 ∧ b = Io (Some (data ++ zdrop size mem)) (Some size)).
Proof.
  intros Hd Hm. unfold wp. erewrite ok_ret by (apply put_prefix; lia). simpl. unfold zdrop. by rewrite <- Hd, Nat2Z.id.
Qed.

(** The description of the host is not known yet, or it is [hi]. *)
Definition host_known (hi : host_basic_info) (g : gstate) : Prop :=
  hi_avail_cpus (c_hinfo (g_caches g)) = 0 ∨ c_hinfo (g_caches g) = hi.

Lemma gethostinfo_known host_info hi g :
  (∀ g, wp sysctl_host host_info g (λ r _, r = Some hi)) -> host_known hi g -> wp sysctl_host (gethostinfo host_info) g (λ h _, h = hi).
Proof.
  intros Hhi Hg. unfold gethostinfo. wp_step. wp_step. destruct (Z.eqb_spec (hi_avail_cpus (c_hinfo (g_caches g))) 0) as [|Hne].
  - wp_step. eapply wp_mono; [apply Hhi|]. intros r g' ->. wp_step. wp_step. by apply wp_ret.
  - apply wp_ret. by destruct Hg.
Qed.

(** C35: a numeric variable of the "hw" node, other than "pagesize" and
    "cpufrequency", has the size its declared type has: a null buffer is told
    that size, a smaller buffer is refused untouched, and a larger one gets
    exactly that many bytes: the member of Mach's description of the host
    that belongs to the name (1 for "cpu64bit_capable"), in four bytes, or
    eight for "memsize"; the rest of the buffer is left alone. *)
Theorem hw_variables_typed `{LoopFuel, IcaseEnabled} host_info cpuid hi oids v t h size value name mem n new newlen g :
  (∀ g, wp sysctl_host host_info g (λ r _, r = Some hi)) -> host_known hi g ->
  In (oids, [s2c "hw"; s2c v], (t, h)) (leaves sysctls_root) -> In (v, (size, value)) hw_values -> 0 <= n <= Z.of_nat (length mem) ->
  let call b := call_handler host_info cpuid h name b new newlen in
  type_size t = size ∧
  call (Io None (Some n)) g = Ret ((0, Io None (Some size)), g) ∧
  (n < size -> call (Io (Some mem) (Some n)) g = Ret ((- EINVAL, Io (Some mem) (Some n)), g)) ∧
  (size <= n -> wp sysctl_host (call (Io (Some mem) (Some n))) g
     (λ '(r, b) _, r = 0 ∧ b = Io (Some (value hi ++ zdrop size mem)) (Some size))).
Proof.
  intros Hhi Hg Hin Hv Hn call. destruct (hw_matches _ _ _ _ _ _ Hin Hv) as [Ht Hm]. split; [done|]. clear Hin Hv. subst call.
  destruct Hm as [(-> & -> & ->)|[(-> & -> & ->)|(m & Hm & -> & ->)]].
  - apply (sized_protocol 8 _ (quad_bytes (hi_max_mem hi))); [lia| |done]. intros Hs. wp_step. eapply wp_mono; [by apply gethostinfo_known|].
    intros i g' ->. by apply put_sized.
  - apply (sized_protocol 4 _ (int_bytes 1)); [lia| |done]. intros Hs. by apply put_sized.
  - assert (∀ b, call_handler host_info cpuid h name b new newlen = handle_hostinfo host_info m b) as E by (by destruct h; simplify_eq/=).
    rewrite !E. apply (sized_protocol 4 _ (int_bytes (m hi))); [lia| |done]. intros Hs. wp_step. eapply wp_mono; [by apply gethostinfo_known|].
    intros i g' ->. by apply put_sized.
Qed.

Definition example_host : host_basic_info := HostBasicInfo 4 7 8 0 2 2 4 4 (2 ^ 33).

Lemma hw_variables_typed_witness :
  wp sysctl_host (call_handler (H := 1%nat) (H0 := true) (mret (Some example_host)) (λ _, (0, 0, 0, 0)) handle_memsize [] (Io (Some (replicate 9 "x"%char)) (Some 9)) None 0)
    init_gstate (λ '(r, b) _, r = 0 ∧ b = Io (Some ((byte_of <$> [0; 0; 0; 0; 2; 0; 0; 0]) ++ ["x"%char])) (Some 8)).
Proof.
  destruct (hw_variables_typed (H := 1%nat) (H0 := true) (mret (Some example_host)) (λ _, (0, 0, 0, 0)) example_host [CTL_HW; HW_MEMSIZE] "memsize" CTLTYPE_QUAD
    handle_memsize 8 (λ i, quad_bytes (hi_max_mem i)) [] (replicate 9 "x"%char) 9 None 0 init_gstate) as (_ & _ & _ & Hw);
    [done|by left|vm_compute; tauto|do 6 right; by left|simpl; lia|]. specialize (Hw ltac:(lia)). exact Hw.
Defined.
