(* ===== verification/Workq.v ===== *)
(** * Work queues

    bsdthread/workq_kernreturn.c: the threads of libdispatch's work queues.
    A worker that has finished its work parks itself on a list; a request for
    threads takes parked workers from the list and wakes them, or creates new
    threads.  Worker and requester synchronise with semaphores built on
    futexes ([sem_down], [sem_up]) and a lock around the list.

    The machine interleaves any number of threads at the granularity of
    single accesses to the shared variables.  What is written under the lock
    in one go (the members of a [parked_thread], the links of the list) is one
    step.  The lock is libplatform's [os_unfair_lock], which is not part of
    the repository and takes the place of the weak, empty functions of the
    file; it is assumed to be a lock. *)
From S2P Require Import Prelude Abi Conc.

Definition WQ_MAX_THREADS : Z := 64.

Definition WQOPS_THREAD_RETURN : Z := 4.
Definition WQOPS_THREAD_KEVENT_RETURN : Z := 0x40.
Definition WQOPS_QUEUE_NEWSPISUPP : Z := 0x10.
Definition WQOPS_QUEUE_REQTHREADS : Z := 0x20.
Definition WQOPS_QUEUE_REQTHREADS2 : Z := 0x30.
Definition WQOPS_SET_EVENT_MANAGER_PRIORITY : Z := 0x80.
Definition WQOPS_SETUP_DISPATCH : Z := 0x400.
Definition WQOPS_QUEUE_REQTHREAD_FOR_KEVENT : Z := 0x100020.

Definition WQ_FLAG_THREAD_PRIO_QOS : Z := 0x00004000.
Definition WQ_FLAG_THREAD_OVERCOMMIT : Z := 0x00010000.
Definition WQ_FLAG_THREAD_REUSE : Z := 0x00020000.
Definition WQ_FLAG_THREAD_NEWSPI : Z := 0x00040000.
Definition WQ_FLAG_THREAD_KEVENT : Z := 0x00080000.
Definition WORKQ_EXIT_THREAD_NKEVENT : Z := -1.
Definition _PTHREAD_PRIORITY_OVERCOMMIT_FLAG : Z := 0x80000000.

(** libpthread is not part of the repository: the quality-of-service class of
    a priority, and of the calling thread. *)
Class Pthread := {
  _pthread_priority_thread_qos : Z -> Z;
  thread_qos : nat -> Z }.

(** ** Semaphores *)

(** The semaphores of the file: [workq_sem], [me.sem] of a parked thread and
    [sem] of an event. *)
Inductive wq_sem : Set := SQueue | SThread (t : nat) | SEvent (e : nat).

#[export] Instance wq_sem_eq_dec : EqDecision wq_sem.
Proof. solve_decision. Defined.

(** Positions in [sem_down] and [sem_up]: before the atomic addition, the
    plain store, the futex call; and asleep in it. *)
Inductive down_pc : Set := DAdd | DStore | DWait | DSleep.
Inductive up_pc : Set := UAdd | UStore | UWake.

(** A step of [sem_down] that needs no decision of the kernel: the new value,
    and where to go on or what to return. *)
Definition sem_down (v : Z) (d : down_pc) : option (Z * (down_pc + bool)) :=
  match d with
  | DAdd => Some (v - 1, if v - 1 <? 0 then inl DStore else inr true)
  | DStore => Some (-1, inl DWait)
  | DWait => Some (v, futex_wait v (-1) (inl DSleep) (inr false))
  | DSleep => None
  end.

Definition sem_up (v : Z) (u : up_pc) : option (Z * option up_pc) :=
  match u with
  | UAdd => Some (v + 1, if v + 1 =? 0 then Some UStore else None)
  | UStore => Some (1, Some UWake)
  | UWake => None
  end.

(** ** State *)

(** [struct parked_thread]; [pt_event] is [None] until somebody writes it. *)
Record parked_thread := ParkedThread { pt_sem : Z; pt_flags : Z; pt_event : option (option nat) }.

(** [struct wq_kevent_data], without the array. *)
Record wq_kevent_data := KeventData { kd_nevents : Z; kd_sem : Z }.

(** The arguments of [wqueue_entry_point] a thread is started with. *)
Record wq_entry := WqEntry { e_flags : Z; e_event : option nat; e_nevents : Z }.

(** A request: the flags for the thread and the event to handle. *)
Record request := Request { q_flags : Z; q_event : option nat }.

(** Where a thread is. *)
Inductive wq_pc : Set :=
| Running (entry : option wq_entry)                  (* outside of the kernel return call *)
| KReturn (nkevents : Z)                             (* WQOPS_THREAD_KEVENT_RETURN *)
| KMove (nkevents : Z) | KStore (nkevents : Z) | KSem
| KClear (e : nat) | KUp (e : nat) (u : up_pc)
| KWait (e : nat) (d : down_pc)                      (* sem_down of sys_kevent_qos *)
| RLock | RInsert | RUp (u : up_pc) | RUnlock        (* WQOPS_THREAD_RETURN *)
| RDown (d : down_pc)
| RTimedOut | RCheck | RUnlockWake | RRemove | RUnlockExit
| RWakeup
| QDown (n : nat) (r : request) (d : down_pc)        (* WQOPS_QUEUE_REQTHREADS, n threads to go *)
| QLock (n : nat) (r : request) | QPick (n : nat) (r : request)
| QUp (n : nat) (r : request) (t : nat) (u : up_pc)
| QUnlock (n : nat) (r : request) | QUnlockSpawn (n : nat) (r : request) | QSpawn (n : nat) (r : request)
| CrashRemove                                        (* TAILQ_REMOVE of a thread that is not on the list *)
| CrashEvent                                         (* use of an uninitialised me.event *)
| CrashPending.                                      (* wq_event_pending has become a null pointer *)

Record wq := Wq {
  workq_sem : Z;
  workq_parked_lock : option nat;
  workq_parked_head : list nat;          (* the threads whose [me] is on the list *)
  wq_event_pending : option nat;
  wq_events : list wq_kevent_data;
  wq_me : list parked_thread;
  wq_pcs : list wq_pc }.

(** ** Operations *)
Section Operations.
Context `{Pthread}.

Definition extract_wq_flags (priority : Z) : Z :=
  let flags := or_all [WQ_FLAG_THREAD_NEWSPI; _pthread_priority_thread_qos priority; WQ_FLAG_THREAD_PRIO_QOS] in
  if has priority _PTHREAD_PRIORITY_OVERCOMMIT_FLAG then Z.lor flags WQ_FLAG_THREAD_OVERCOMMIT else flags.

(** The dispatch of [sys_workq_kernreturn]: where the call continues, or what
    it returns. *)
Definition sys_workq_kernreturn (options : Z) (item : option nat) (affinity prio : Z) : wq_pc + Z :=
  let request event := Request
    (match event with Some _ => Z.lor (extract_wq_flags prio) WQ_FLAG_THREAD_KEVENT | None => extract_wq_flags prio end) event in
  if options =? WQOPS_THREAD_KEVENT_RETURN then inl (KReturn affinity)
  else if options =? WQOPS_THREAD_RETURN then inl RLock
  else if (options =? WQOPS_SET_EVENT_MANAGER_PRIORITY) || (options =? WQOPS_QUEUE_NEWSPISUPP) then inr 0
  else if options =? WQOPS_QUEUE_REQTHREAD_FOR_KEVENT then inl (QDown 1 (request item) DAdd)
  else if (options =? WQOPS_QUEUE_REQTHREADS2) || (options =? WQOPS_QUEUE_REQTHREADS) then
    match Z.to_nat affinity with
    | O => inr 0
    | S n => inl (QDown (S n) (request None) DAdd)
    end
  else if options =? WQOPS_SETUP_DISPATCH then inr 0
  else inr (- ENOTSUP).

Definition get_sem (s : wq) (l : wq_sem) : Z :=
  match l with
  | SQueue => workq_sem s
  | SThread t => match wq_me s !! t with Some m => pt_sem m | None => 0 end
  | SEvent e => match wq_events s !! e with Some k => kd_sem k | None => 0 end
  end.

Definition set_queue (s : wq) (v : Z) : wq :=
  Wq v (workq_parked_lock s) (workq_parked_head s) (wq_event_pending s) (wq_events s) (wq_me s) (wq_pcs s).
Definition set_lock (s : wq) (l : option nat) : wq :=
  Wq (workq_sem s) l (workq_parked_head s) (wq_event_pending s) (wq_events s) (wq_me s) (wq_pcs s).
Definition set_parked (s : wq) (l : list nat) : wq :=
  Wq (workq_sem s) (workq_parked_lock s) l (wq_event_pending s) (wq_events s) (wq_me s) (wq_pcs s).
Definition set_pending (s : wq) (e : option nat) : wq :=
  Wq (workq_sem s) (workq_parked_lock s) (workq_parked_head s) e (wq_events s) (wq_me s) (wq_pcs s).
Definition set_events (s : wq) (l : list wq_kevent_data) : wq :=
  Wq (workq_sem s) (workq_parked_lock s) (workq_parked_head s) (wq_event_pending s) l (wq_me s) (wq_pcs s).
Definition set_me (s : wq) (t : nat) (m : parked_thread) : wq :=
  Wq (workq_sem s) (workq_parked_lock s) (workq_parked_head s) (wq_event_pending s) (wq_events s) (<[t := m]> (wq_me s)) (wq_pcs s).
Definition set_pc (s : wq) (t : nat) (p : wq_pc) : wq :=
  Wq (workq_sem s) (workq_parked_lock s) (workq_parked_head s) (wq_event_pending s) (wq_events s) (wq_me s) (<[t := p]> (wq_pcs s)).

Definition set_sem (s : wq) (l : wq_sem) (v : Z) : wq :=
  match l with
  | SQueue => set_queue s v
  | SThread t => match wq_me s !! t with Some m => set_me s t (ParkedThread v (pt_flags m) (pt_event m)) | None => s end
  | SEvent e => match wq_events s !! e with Some k => set_events s (<[e := KeventData (kd_nevents k) v]> (wq_events s)) | None => s end
  end.

(** A step of thread [t] inside [sem_down] on [l]. *)
Definition down (s : wq) (t : nat) (l : wq_sem) (d : down_pc) (go : down_pc -> wq_pc) (ret : bool -> wq_pc) : option wq :=
  '(v, r) ← sem_down (get_sem s l) d;
  Some (set_pc (set_sem s l v) t (match r with inl d => go d | inr b => ret b end)).

Definition up (s : wq) (t : nat) (l : wq_sem) (u : up_pc) (go : up_pc -> wq_pc) (ret : wq_pc) : option wq :=
  '(v, r) ← sem_up (get_sem s l) u;
  Some (set_pc (set_sem s l v) t (match r with Some u => go u | None => ret end)).

(** Taking and releasing the lock: [os_unfair_lock_lock] and
    [os_unfair_lock_unlock] as libplatform defines them. *)
Definition wq_lock (s : wq) (t : nat) (p : wq_pc) : option wq :=
  match workq_parked_lock s with None => Some (set_pc (set_lock s (Some t)) t p) | Some _ => None end.
Definition wq_unlock (s : wq) (t : nat) (p : wq_pc) : option wq := Some (set_pc (set_lock s None) t p).

(** The next round of the loop over the requested threads. *)
Definition next_round (n : nat) (r : request) : wq_pc :=
  match n with O => Running None | S _ => QDown n r DAdd end.

(** The thread is resumed with the event it was woken for. *)
Definition wakeup_entry (s : wq) (m : parked_thread) (ev : option nat) : wq_entry :=
  WqEntry (Z.lor (pt_flags m) WQ_FLAG_THREAD_REUSE) ev
    (match ev with Some e => match wq_events s !! e with Some k => kd_nevents k | None => 0 end | None => 0 end).

(** An access through the pointer [wq_event_pending], which is read again. *)
Definition through_pending (s : wq) (t : nat) (f : nat -> option wq) : option wq :=
  match wq_event_pending s with Some e => f e | None => Some (set_pc s t CrashPending) end.

(** One step of thread [t] that does not depend on the kernel.  The array of
    events that [KMove] copies is not part of the state. *)
Definition thread_step (s : wq) (t : nat) (p : wq_pc) : option wq :=
  match p with
  | KReturn nkevents =>
      Some (set_pc s t (match wq_event_pending s with
                        | Some _ => if 0 <? nkevents then KMove nkevents else KStore nkevents
                        | None => RLock
                        end))
  | KMove nkevents => through_pending s t (λ _, Some (set_pc s t (KStore nkevents)))
  | KStore nkevents =>
      through_pending s t (λ e,
        k ← wq_events s !! e;
        Some (set_pc (set_events s (<[e := KeventData nkevents (kd_sem k)]> (wq_events s))) t KSem))
  | KSem => through_pending s t (λ e, Some (set_pc s t (KClear e)))
  | KClear e => Some (set_pc (set_pending s None) t (KUp e UAdd))
  | KUp e u => up s t (SEvent e) u (KUp e) RLock
  | KWait e d => down s t (SEvent e) d (KWait e) (λ _, Running None)
  | RLock => wq_lock s t RInsert
  | RInsert =>
      Some (set_pc (set_parked (set_me s t (ParkedThread 0 (extract_wq_flags (thread_qos t)) None))
                               (t :: workq_parked_head s)) t (RUp UAdd))
  | RUp u => up s t SQueue u RUp RUnlock
  | RUnlock => wq_unlock s t (RDown DAdd)
  | RDown d => down s t (SThread t) d RDown (λ b, if (b : bool) then RWakeup else RTimedOut)
  | RTimedOut => wq_lock s t RCheck
  | RCheck => Some (set_pc s t (if 0 <? get_sem s (SThread t) then RUnlockWake else RRemove))
  | RUnlockWake => wq_unlock s t RWakeup
  | RRemove =>
      if decide (t ∈ workq_parked_head s) then
        Some (set_pc (set_parked s (filter (.≠ t) (workq_parked_head s))) t RUnlockExit)
      else Some (set_pc s t CrashRemove)
  | RUnlockExit =>
      m ← wq_me s !! t;
      wq_unlock s t (Running (Some (WqEntry (Z.lor (pt_flags m) WQ_FLAG_THREAD_REUSE) None WORKQ_EXIT_THREAD_NKEVENT)))
  | RWakeup =>
      m ← wq_me s !! t;
      match pt_event m with
      | None => Some (set_pc s t CrashEvent)
      | Some ev =>
          Some (set_pc (match ev with Some e => set_pending s (Some e) | None => s end) t
                       (Running (Some (wakeup_entry s m ev))))
      end
  | QDown n r d => down s t SQueue d (QDown n r) (λ _, QLock n r)
  | QLock n r => wq_lock s t (QPick n r)
  | QPick n r =>
      match workq_parked_head s with
      | thread :: rest =>
          m ← wq_me s !! thread;
          Some (set_pc (set_parked (set_me s thread (ParkedThread (pt_sem m) (q_flags r) (Some (q_event r)))) rest)
                       t (QUp n r thread UAdd))
      | [] => Some (set_pc s t (QUnlockSpawn n r))
      end
  | QUp n r thread u => up s t (SThread thread) u (QUp n r thread) (QUnlock n r)
  | QUnlock n r => wq_unlock s t (next_round (pred n) r)
  | QUnlockSpawn n r => wq_unlock s t (QSpawn n r)
  | QSpawn n r =>
      let entry := WqEntry (q_flags r) (q_event r)
        (match q_event r with Some e => match wq_events s !! e with Some k => kd_nevents k | None => 0 end | None => 0 end) in
      let s := set_pc (set_pending s (q_event r)) t (next_round (pred n) r) in
      Some (Wq (workq_sem s) (workq_parked_lock s) (workq_parked_head s) (wq_event_pending s) (wq_events s)
               (wq_me s ++ [ParkedThread 0 0 None]) (wq_pcs s ++ [Running (Some entry)]))
  | Running _ | CrashRemove | CrashEvent | CrashPending => None
  end.

(** The semaphore a thread sleeps on, and where it goes on when its futex
    call returns 0 or fails. *)
Definition sleeps_on (t : nat) (p : wq_pc) : option wq_sem :=
  match p with
  | KWait e DSleep => Some (SEvent e)
  | RDown DSleep => Some (SThread t)
  | QDown _ _ DSleep => Some SQueue
  | _ => None
  end.

Definition futex_returns (p : wq_pc) (ok : bool) : wq_pc :=
  match p with
  | KWait e _ => if ok then KWait e DAdd else Running None
  | RDown _ => if ok then RDown DAdd else RTimedOut
  | QDown n r _ => if ok then QDown n r DAdd else QLock n r
  | p => p
  end.

(** The semaphore a thread is about to wake a sleeper of. *)
Definition wakes (p : wq_pc) : option (wq_sem * wq_pc) :=
  match p with
  | KUp e UWake => Some (SEvent e, RLock)
  | RUp UWake => Some (SQueue, RUnlock)
  | QUp n r t UWake => Some (SThread t, QUnlock n r)
  | _ => None
  end.

Inductive wq_action : Set :=
| Call (t : nat) (options : Z) (item : option nat) (affinity prio : Z)
| WaitEvent (t e : nat)                 (* sys_kevent_qos waits for the event *)
| Step (t : nat)
| WakeOne (t : nat) (w : option nat)    (* FUTEX_WAKE *)
| Returns (t : nat) (ok : bool).        (* FUTEX_WAIT returns 0, or fails: timeout, signal *)

Definition sleeper (s : wq) (l : wq_sem) (w : nat) : bool :=
  match wq_pcs s !! w with
  | Some p => match sleeps_on w p with Some l' => bool_decide (l' = l) | None => false end
  | None => false
  end.

Definition wq_step (a : wq_action) (s : wq) : option wq :=
  match a with
  | Call t options item affinity prio =>
      match wq_pcs s !! t with
      | Some (Running _) =>
          match sys_workq_kernreturn options item affinity prio with
          | inl p => Some (set_pc s t p)
          | inr _ => Some s
          end
      | _ => None
      end
  | WaitEvent t e => match wq_pcs s !! t with Some (Running _) => Some (set_pc s t (KWait e DAdd)) | _ => None end
  | Step t => p ← wq_pcs s !! t; thread_step s t p
  | WakeOne t w =>
      p ← wq_pcs s !! t; '(l, p') ← wakes p;
      match w with
      | Some w => q ← wq_pcs s !! w;
                  if sleeper s l w then Some (set_pc (set_pc s w (futex_returns q true)) t p') else None
      | None => if existsb (sleeper s l) (seq 0 (length (wq_pcs s))) then None else Some (set_pc s t p')
      end
  | Returns t ok =>
      p ← wq_pcs s !! t;
      match sleeps_on t p with Some _ => Some (set_pc s t (futex_returns p ok)) | None => None end
  end.

(** Threads that have not used a work queue yet. *)
Definition wq_init (s : wq) : Prop :=
  workq_sem s = WQ_MAX_THREADS ∧ workq_parked_lock s = None ∧ workq_parked_head s = [] ∧ wq_event_pending s = None ∧
  length (wq_me s) = length (wq_pcs s) ∧ Forall (eq (Running None)) (wq_pcs s).
End Operations.

(** ** The invariant of all interleavings *)

Definition holds (p : wq_pc) : bool :=
  match p with
  | RInsert | RUp _ | RUnlock | RCheck | RUnlockWake | RRemove | RUnlockExit
  | QPick _ _ | QUp _ _ _ _ | QUnlock _ _ | QUnlockSpawn _ _ | CrashRemove => true
  | _ => false
  end.

(** Between the insertion of [me] and the return to user code. *)
Definition returning (p : wq_pc) : bool :=
  match p with RUp _ | RUnlock | RDown _ | RTimedOut | RCheck | RUnlockWake | RWakeup => true | _ => false end.

(** The value of [me.sem] while nobody has touched it but its thread. *)
Definition quiet (p : wq_pc) (v : Z) : bool :=
  match p with
  | RUp _ | RUnlock => v =? 0
  | RDown DAdd => (v =? 0) || (v =? -1)
  | RDown DStore => (v =? -1) || (v =? -2)
  | RDown DWait | RDown DSleep | RTimedOut | RCheck | RRemove => v =? -1
  | _ => false
  end.

Section Invariant.
Context `{Pthread}.

Record thread_ok (s : wq) (t : nat) (p : wq_pc) (m : parked_thread) : Prop := {
  ok_lock : workq_parked_lock s = Some t <-> holds p = true;
  ok_quiet : t ∈ workq_parked_head s -> quiet p (pt_sem m) = true;
  ok_event : t ∉ workq_parked_head s -> returning p = true -> pt_event m ≠ None;
  ok_crash : p ≠ CrashEvent;
  ok_target : ∀ n r w u, p = QUp n r w u -> w ∉ workq_parked_head s }.

Record wq_inv (s : wq) : Prop := {
  inv_len : length (wq_me s) = length (wq_pcs s);
  inv_nodup : NoDup (workq_parked_head s);
  inv_range : ∀ t, t ∈ workq_parked_head s ∨ workq_parked_lock s = Some t -> (t < length (wq_pcs s))%nat;
  inv_thread : ∀ t p m, wq_pcs s !! t = Some p -> wq_me s !! t = Some m -> thread_ok s t p m }.

Lemma wq_init_inv s : wq_init s -> wq_inv s.
Proof.
  intros (_ & Hl & Hp & _ & Hlen & Hall). constructor; [done|rewrite Hp; constructor|rewrite Hl, Hp; set_solver|].
  intros t p m Ht Hm. eapply Forall_lookup_1 in Hall; [|done]. subst p. constructor; rewrite ?Hl, ?Hp; try done. set_solver.
Qed.

(** A thread that did not move, when the others changed the lock and the
    list. *)
Lemma thread_ok_other s s' u p m :
  thread_ok s u p m -> (workq_parked_lock s' = Some u <-> workq_parked_lock s = Some u) ->
  (u ∈ workq_parked_head s' <-> u ∈ workq_parked_head s) ->
  (holds p = true -> ∀ w, w ∉ workq_parked_head s -> w ∉ workq_parked_head s') ->
  thread_ok s' u p m.
Proof.
  intros [Hl Hq He Hc Ht] Hlock Hpark Hw. constructor.
  - by rewrite Hlock.
  - by rewrite Hpark.
  - by rewrite Hpark.
  - done.
  - intros n r w v ->. apply Hw; [done|]. by eapply Ht.
Qed.

(** A step that changes the program counter of [t], possibly its [me], the
    lock and the list. *)
Lemma inv_move s s' t p p' :
  wq_inv s -> wq_pcs s !! t = Some p -> wq_pcs s' = <[t := p']> (wq_pcs s) ->
  length (wq_me s') = length (wq_me s) -> (∀ u, u ≠ t -> wq_me s' !! u = wq_me s !! u) ->
  NoDup (workq_parked_head s') ->
  (∀ u, u ≠ t -> workq_parked_lock s' = Some u <-> workq_parked_lock s = Some u) ->
  (∀ u, u ≠ t -> u ∈ workq_parked_head s' <-> u ∈ workq_parked_head s) ->
  (holds p = true ∨ ∀ w, w ∉ workq_parked_head s -> w ∉ workq_parked_head s') ->
  (∀ m m', wq_me s !! t = Some m -> wq_me s' !! t = Some m' -> thread_ok s t p m -> thread_ok s' t p' m') ->
  wq_inv s'.
Proof.
  intros Hi Ht Hpcs Hlen Hme Hnd Hlock Hpark Hw Hself. destruct Hi as [Il In Ir It]. constructor.
  - by rewrite Hlen, Hpcs, length_insert.
  - done.
  - rewrite Hpcs, length_insert. intros u Hu. destruct (decide (u = t)) as [->|Hne]; [by eapply lookup_lt_Some|].
    apply Ir. by rewrite <- Hpark, <- Hlock.
  - rewrite Hpcs. intros u q m Hq Hm. thread_cases.
    + destruct (lookup_lt_is_Some_2 (wq_me s) u) as [m0 Hm0]; [rewrite Il; by eapply lookup_lt_Some|]. eapply Hself; eauto.
    + rewrite Hme in Hm by done. eapply thread_ok_other; [by eapply It|by apply Hlock|by apply Hpark|].
      intros Hh. destruct Hw as [Hp|Hw]; [|done].
      destruct (lookup_lt_is_Some_2 (wq_me s) t) as [m0 Hm0]; [rewrite Il; by eapply lookup_lt_Some|].
      pose proof (ok_lock _ _ _ _ (It u q m Hq Hm)) as Hlu. pose proof (ok_lock _ _ _ _ (It t p m0 Ht Hm0)) as Hlt.
      apply Hlu in Hh. apply Hlt in Hp. congruence.
Qed.

Lemma inv_ext s s' :
  workq_parked_lock s' = workq_parked_lock s -> workq_parked_head s' = workq_parked_head s ->
  wq_me s' = wq_me s -> wq_pcs s' = wq_pcs s -> wq_inv s -> wq_inv s'.
Proof.
  intros Hl Hp Hm Hc [Il In Ir It]. constructor; rewrite ?Hl, ?Hp, ?Hm, ?Hc; [done..|].
  intros t p m Ht Hme. eapply thread_ok_other; [by eapply It|by rewrite Hl|by rewrite Hp|by rewrite Hp].
Qed.

(** Moving to a program counter with the same rights and duties. *)
Lemma inv_pc s t p p' :
  wq_inv s -> wq_pcs s !! t = Some p -> holds p' = holds p -> (∀ v, quiet p v = true -> quiet p' v = true) ->
  (returning p' = true -> returning p = true) -> p' ≠ CrashEvent ->
  (∀ n r w u, p' = QUp n r w u -> w ∉ workq_parked_head s) -> wq_inv (set_pc s t p').
Proof.
  intros Hi Ht Hh Hq Hr Hc Hu. eapply (inv_move s (set_pc s t p')); [done|done|done|done|done|by apply (inv_nodup s)|done|done|by right|].
  intros m m' Hm Hm' [Kl Kq Ke Kc Kt]. simpl in Hm'. simplify_eq. constructor; simpl.
  - by rewrite Hh.
  - auto.
  - auto.
  - done.
  - done.
Qed.

(** Writing a semaphore that is not the one of a parked thread. *)
Lemma inv_set_sem s l v : wq_inv s -> (∀ w, l = SThread w -> w ∉ workq_parked_head s) -> wq_inv (set_sem s l v).
Proof.
  intros Hi Hw. destruct l as [|w|e]; simpl; [by apply (inv_ext s)| |destruct (wq_events s !! e); by apply (inv_ext s)].
  destruct (wq_me s !! w) as [m|] eqn:Hm; [|done]. specialize (Hw w eq_refl). destruct Hi as [Il In Ir It].
  constructor; simpl; [by rewrite length_insert|done|done|]. intros t p m' Ht Hm'. thread_cases.
  - destruct (It t p m Ht Hm) as [Kl Kq Ke Kc Kt]. by constructor.
  - destruct (It t p m' Ht Hm') as [Kl Kq Ke Kc Kt]. by constructor.
Qed.

Lemma set_sem_same s l v :
  workq_parked_lock (set_sem s l v) = workq_parked_lock s ∧ workq_parked_head (set_sem s l v) = workq_parked_head s ∧
  wq_pcs (set_sem s l v) = wq_pcs s.
Proof. destruct l; simpl; [done|by destruct (wq_me s !! t)|by destruct (wq_events s !! e)]. Qed.

(** [sem_up] and [sem_down] on such a semaphore. *)
Lemma up_inv s s' t l u go ret p :
  wq_inv s -> wq_pcs s !! t = Some p -> up s t l u go ret = Some s' -> (∀ w, l = SThread w -> w ∉ workq_parked_head s) ->
  (∀ p', p' = ret ∨ (∃ u, p' = go u) ->
     holds p' = holds p ∧ (∀ v, quiet p v = true -> quiet p' v = true) ∧ (returning p' = true -> returning p = true) ∧
     p' ≠ CrashEvent ∧ (∀ n r w u, p' = QUp n r w u -> w ∉ workq_parked_head s)) ->
  wq_inv s'.
Proof.
  unfold up. intros Hi Ht Hs Hl Hp'. destruct (sem_up _ u) as [[v r]|]; simplify_eq/=.
  destruct (set_sem_same s l v) as (_ & Hpark & Hpcs). eapply inv_pc; [by apply inv_set_sem|by rewrite Hpcs|..]; rewrite ?Hpark; apply Hp';
    destruct r; eauto.
Qed.

Lemma down_inv s s' t l d go ret p :
  wq_inv s -> wq_pcs s !! t = Some p -> down s t l d go ret = Some s' -> (∀ w, l ≠ SThread w) ->
  (∀ p', (∃ b, p' = ret b) ∨ (∃ d, p' = go d) ->
     holds p' = false ∧ holds p = false ∧ quiet p = (λ _, false) ∧ returning p' = false ∧ p' ≠ CrashEvent) ->
  wq_inv s'.
Proof.
  unfold down. intros Hi Ht Hs Hl Hp'. destruct (sem_down _ d) as [[v r]|]; simplify_eq/=.
  destruct (set_sem_same s l v) as (_ & Hpark & Hpcs).
  destruct (Hp' (match r with inl d => go d | inr b => ret b end)) as (H1 & H2 & H3 & H4 & H5); [destruct r; eauto|].
  eapply inv_pc; [apply inv_set_sem; [done|]|by rewrite Hpcs|..].
  - intros w ->. by destruct (Hl w).
  - by rewrite H1.
  - by rewrite H3.
  - by rewrite H4.
  - done.
  - by intros n q w u Hq; rewrite Hq in H1.
Qed.

Lemma wq_lock_inv s s' t p p' :
  wq_inv s -> wq_pcs s !! t = Some p -> wq_lock s t p' = Some s' -> holds p = false -> holds p' = true ->
  (∀ v, quiet p v = true -> quiet p' v = true) -> (returning p' = true -> returning p = true) ->
  (∀ n r w u, p' ≠ QUp n r w u) -> p' ≠ CrashEvent -> wq_inv s'.
Proof.
  unfold wq_lock. intros Hi Ht Hs Hp Hp' Hq Hr Hu Hc. destruct (workq_parked_lock s) as [|] eqn:Hl; simplify_eq.
  eapply inv_move; [done|done|done|done|done|by apply (inv_nodup s)| |done|by right|].
  - intros u Hu'. simpl. rewrite Hl. split; [|done]. intros [= ->]. done.
  - intros m m' Hm Hm' [Kl Kq Ke Kc Kt]. simpl in Hm'. simplify_eq. constructor; simpl; auto; try done. intros n r w u E; by destruct (Hu n r w u).
Qed.

Lemma wq_unlock_inv s s' t p p' :
  wq_inv s -> wq_pcs s !! t = Some p -> wq_unlock s t p' = Some s' -> holds p = true -> holds p' = false ->
  (∀ v, quiet p v = true -> quiet p' v = true) -> (returning p' = true -> returning p = true) -> p' ≠ CrashEvent -> wq_inv s'.
Proof.
  unfold wq_unlock. intros Hi Ht Hs Hp Hp' Hq Hr Hc. simplify_eq.
  eapply (inv_move s (set_pc (set_lock s None) t p')); [done|done|done|done|done|by apply (inv_nodup s)| |done|by left|].
  - intros u Hu'. simpl. split; [done|]. intros Hl.
    destruct (lookup_lt_is_Some_2 (wq_me s) t) as [m0 Hm0]; [rewrite inv_len by done; by eapply lookup_lt_Some|].
    pose proof (ok_lock _ _ _ _ (inv_thread s Hi t p m0 Ht Hm0)) as Hlt. apply Hlt in Hp. congruence.
  - intros m m' Hm Hm' [Kl Kq Ke Kc Kt]. simpl in Hm'. simplify_eq. constructor; simpl; auto; try done.
    + by rewrite Hp'.
    + intros n r w u ->. done.
Qed.

(** The entry of a thread. *)
Lemma me_some s t p : wq_inv s -> wq_pcs s !! t = Some p -> ∃ m, wq_me s !! t = Some m ∧ thread_ok s t p m.
Proof.
  intros Hi Ht. destruct (lookup_lt_is_Some_2 (wq_me s) t) as [m Hm]; [rewrite inv_len by done; by eapply lookup_lt_Some|].
  exists m. split; [done|by eapply inv_thread].
Qed.

Lemma insert_inv s t m :
  wq_inv s -> wq_pcs s !! t = Some RInsert -> pt_sem m = 0 ->
  wq_inv (set_pc (set_parked (set_me s t m) (t :: workq_parked_head s)) t (RUp UAdd)).
Proof.
  intros Hi Ht Hm. destruct (me_some s t _ Hi Ht) as (m0 & Hm0 & [Kl Kq Ke Kc Kt]).
  assert (t ∉ workq_parked_head s) as Hn by (intros Hin; by specialize (Kq Hin)).
  eapply (inv_move s); [done|exact Ht|done|by simpl; rewrite length_insert| | |done| |by left|]; simpl.
  - intros u Hu. by apply list_lookup_insert_ne.
  - constructor; [done|by apply (inv_nodup s)].
  - intros u Hu. rewrite elem_of_cons. naive_solver.
  - intros m1 m2 _ Hm2 [Jl _ _ _ _]. rewrite thread_at in Hm2 by eauto. simplify_eq. constructor; simpl; try done.
    + by rewrite Hm.
    + intros Hc. exfalso. apply Hc. by left.
Qed.

(** The worker's own accesses to [me.sem]. *)
Lemma rdown_inv s s' t d :
  wq_inv s -> wq_pcs s !! t = Some (RDown d) ->
  down s t (SThread t) d RDown (λ b, if (b : bool) then RWakeup else RTimedOut) = Some s' -> wq_inv s'.
Proof.
  intros Hi Ht Hs. destruct (me_some s t _ Hi Ht) as (m & Hm & Hok). unfold down in Hs; simpl in Hs; rewrite Hm in Hs.
  destruct (sem_down (pt_sem m) d) as [[v r]|] eqn:E; simplify_eq/=.
  eapply (inv_move s); [done|exact Ht|done|by simpl; rewrite length_insert| |by apply (inv_nodup s)|done|done|by right|].
  - intros u Hu. simpl. by apply list_lookup_insert_ne.
  - simpl. intros m1 m2 Hm1 Hm2 [Kl Kq Ke Kc Kt]. rewrite thread_at in Hm2 by eauto. simplify_eq.
    assert (holds (match r with inl d => RDown d | inr b => if b then RWakeup else RTimedOut end) = false) as Hh by by destruct r as [|[]].
    constructor; simpl.
    + by rewrite Kl, Hh.
    + intros Hin. specialize (Kq Hin). destruct d; simpl in *; unfold futex_wait in *; repeat case_match; simplify_eq; simpl; lia.
    + intros Hin _. by apply Ke.
    + by destruct r as [|[]].
    + intros n q w u Hq. rewrite Hq in Hh. done.
Qed.

Lemma check_inv s t :
  wq_inv s -> wq_pcs s !! t = Some RCheck ->
  wq_inv (set_pc s t (if 0 <? get_sem s (SThread t) then RUnlockWake else RRemove)).
Proof.
  intros Hi Ht. simpl.
  eapply (inv_move s); [done|exact Ht|done|done|done|by apply (inv_nodup s)|done|done|by right|]. simpl.
  intros m m' Hm Hm' [Kl Kq Ke Kc Kt]. simplify_eq. rewrite Hm. constructor; simpl.
  - rewrite Kl. by destruct (_ <? _).
  - intros Hin. specialize (Kq Hin). simpl in Kq. destruct (Z.ltb_spec 0 (pt_sem m)); simpl; lia.
  - intros Hin _. by apply Ke.
  - by destruct (_ <? _).
  - intros n r w u. by destruct (_ <? _).
Qed.

Lemma remove_inv s t :
  wq_inv s -> wq_pcs s !! t = Some RRemove -> t ∈ workq_parked_head s ->
  wq_inv (set_pc (set_parked s (filter (.≠ t) (workq_parked_head s))) t RUnlockExit).
Proof.
  intros Hi Ht Hin. eapply (inv_move s); [done|exact Ht|done|done|done| |done| |by left|]; simpl.
  - apply NoDup_filter. by apply (inv_nodup s).
  - intros u Hu. rewrite list_elem_of_filter. naive_solver.
  - intros m m' Hm Hm' [Kl Kq Ke Kc Kt]. simplify_eq. constructor; simpl; try done.
    rewrite list_elem_of_filter. naive_solver.
Qed.

Lemma pick_inv s t n r w rest m :
  wq_inv s -> wq_pcs s !! t = Some (QPick n r) -> workq_parked_head s = w :: rest -> wq_me s !! w = Some m ->
  wq_inv (set_pc (set_parked (set_me s w (ParkedThread (pt_sem m) (q_flags r) (Some (q_event r)))) rest) t (QUp n r w UAdd)).
Proof.
  intros Hi Ht Hp Hm. destruct (me_some s t _ Hi Ht) as (mt & Hmt & Hok).
  pose proof (inv_nodup s Hi) as Hnd. rewrite Hp in Hnd. apply NoDup_cons in Hnd as [Hw Hnd].
  assert (w ≠ t) as Hne. { intros ->. pose proof (ok_quiet _ _ _ _ Hok) as Hq. rewrite Hp in Hq. specialize (Hq (list_elem_of_here _ _)). done. }
  assert (∀ u, u ∉ w :: rest -> u ∉ rest) as Hsub by (intros u; rewrite elem_of_cons; tauto).
  destruct Hi as [Il In Ir It]. constructor; simpl; rewrite ?length_insert; [done|done| |].
  - intros u Hu. apply Ir. rewrite Hp. destruct Hu; [left; by right|by right].
  - intros u q m' Hu Hm'. apply thread_moved in Hu as [(<- & -> & _)|[Hu1 Hu]].
    + rewrite list_lookup_insert_ne in Hm' by done. simplify_eq. destruct Hok as [Kl Kq Ke Kc Kt]. rewrite Hp in *.
      constructor; simpl; try done.
      * intros Hin. by specialize (Kq (list_elem_of_further _ _ _ Hin)).
      * intros ???? [= <- <- <- <-]. done.
    + apply thread_moved in Hm' as [(<- & -> & _)|[Hne' Hm']].
      * destruct (It w q m Hu Hm) as [Kl Kq Ke Kc Kt]. rewrite Hp in *. constructor; simpl; try done.
        intros ???? E. eapply Hsub, Kt, E.
      * destruct (It u q m' Hu Hm') as [Kl Kq Ke Kc Kt]. rewrite Hp in *. constructor; simpl; try done.
        -- intros Hin. apply Kq. by right.
        -- intros Hin. apply Ke. rewrite elem_of_cons. intros [->|]; done.
        -- intros ???? E. eapply Hsub, Kt, E.
Qed.

(** A thread is created. *)
Lemma spawn_inv s m e :
  wq_inv s ->
  wq_inv (Wq (workq_sem s) (workq_parked_lock s) (workq_parked_head s) (wq_event_pending s) (wq_events s)
             (wq_me s ++ [m]) (wq_pcs s ++ [Running e])).
Proof.
  intros [Il In Ir It]. constructor; simpl; rewrite ?length_app; [by rewrite Il|done|intros t Ht; specialize (Ir t Ht); lia|].
  intros t p m' Ht Hm'. apply lookup_snoc_Some in Ht as [[Hlt Ht]|[-> <-]].
  - rewrite lookup_app_l in Hm' by (rewrite Il; done). destruct (It t p m' Ht Hm') as [Kl Kq Ke Kc Kt]. by constructor.
  - assert (∀ u, u ∈ workq_parked_head s ∨ workq_parked_lock s = Some u -> u ≠ length (wq_pcs s)) as Hfresh by (intros u Hu ->; specialize (Ir _ Hu); lia).
    constructor; simpl; try done.
    + split; [|done]. intros Hl. by destruct (Hfresh _ (or_intror Hl)).
    + intros Hl. by destruct (Hfresh _ (or_introl Hl)).
Qed.

(** A plain move of a thread outside of the critical sections. *)
Lemma inv_free s t p p' :
  wq_inv s -> wq_pcs s !! t = Some p -> holds p = false -> (∀ v, quiet p v = false) -> holds p' = false -> returning p' = false ->
  p' ≠ CrashEvent -> wq_inv (set_pc s t p').
Proof.
  intros Hi Ht Hp Hq Hp' Hr Hc. eapply inv_pc; try done; [congruence|intros v; by rewrite Hq|by rewrite Hr|].
  intros n r w u ->. done.
Qed.

Lemma next_round_free n r : holds (next_round n r) = false ∧ returning (next_round n r) = false ∧ next_round n r ≠ CrashEvent.
Proof. by destruct n. Qed.

Lemma wakeup_event s t m :
  wq_inv s -> wq_pcs s !! t = Some RWakeup -> wq_me s !! t = Some m -> (t ∉ workq_parked_head s) ∧ (∃ ev, pt_event m = Some ev).
Proof.
  intros Hi Ht Hm. destruct (inv_thread s Hi t _ m Ht Hm) as [_ Kq Ke _ _].
  assert (t ∉ workq_parked_head s) as Hn by (intros Hin; by specialize (Kq Hin)).
  split; [done|]. specialize (Ke Hn eq_refl). destruct (pt_event m); by eauto.
Qed.

Lemma thread_step_inv s s' t p : wq_inv s -> wq_pcs s !! t = Some p -> thread_step s t p = Some s' -> wq_inv s'.
Proof.
  intros Hi Ht Hs. destruct p; simpl in Hs; try discriminate.
  - simplify_eq. eapply inv_free; [done|done|done|done|..]; by repeat case_match.
  - unfold through_pending in Hs. case_match; simplify_eq; by eapply inv_free.
  - unfold through_pending in Hs. destruct (wq_event_pending s) as [e|]; [destruct (wq_events s !! e); [|done]|]; simplify_eq/=;
      (eapply inv_free; [by eapply (inv_ext s)|done..]).
  - unfold through_pending in Hs. case_match; simplify_eq; by eapply inv_free.
  - simplify_eq. eapply inv_free; [by eapply (inv_ext s)|done..].
  - eapply up_inv; [done..|]. intros p' [->|[u' ->]]; split_and!; done.
  - eapply down_inv; [done..|]. intros p' [[b ->]|[d' ->]]; split_and!; done.
  - by eapply wq_lock_inv.
  - simplify_eq. by apply insert_inv.
  - eapply up_inv; [done..|]. intros p' [->|[u' ->]]; split_and!; done.
  - eapply wq_unlock_inv; try done. simpl. intros v ->%Z.eqb_eq. done.
  - by eapply rdown_inv.
  - by eapply wq_lock_inv.
  - simplify_eq. by apply check_inv.
  - by eapply wq_unlock_inv.
  - destruct (decide _); simplify_eq; [by apply remove_inv|]. eapply (inv_move s); [done|exact Ht|done|done|done|by apply (inv_nodup s)|done|done|by right|].
    simpl. intros m m' _ _ [Kl Kq Ke Kc Kt]. by constructor.
  - destruct (wq_me s !! t); simpl in Hs; [|done]. by eapply wq_unlock_inv.
  - destruct (wq_me s !! t) as [m|] eqn:Hm; simpl in Hs; [|done].
    destruct (wakeup_event s t m Hi Ht Hm) as (_ & ev & Hev). rewrite Hev in Hs. simplify_eq.
    eapply inv_free; [|by destruct ev|done..]. destruct ev; [by eapply (inv_ext s)|done].
  - eapply down_inv; [done..|]. intros p' [[b ->]|[d' ->]]; split_and!; done.
  - by eapply wq_lock_inv.
  - destruct (workq_parked_head s) as [|w rest] eqn:Hp; simplify_eq; [by eapply inv_pc|].
    destruct (wq_me s !! w) as [m|] eqn:Hm; simplify_eq/=. by apply pick_inv.
  - eapply up_inv; [done..| |].
    + intros w [= <-]. destruct (me_some s t _ Hi Ht) as (m & Hm & Hok). by eapply ok_target.
    + destruct (me_some s t _ Hi Ht) as (m & Hm & Hok).
      intros p' [->|[u' ->]]; split_and!; try done. intros ???? [= <- <- <- <-]. by eapply ok_target.
  - destruct (next_round_free (pred n) r) as (? & ? & ?). eapply wq_unlock_inv; try done. congruence.
  - by eapply wq_unlock_inv.
  - simplify_eq. destruct (next_round_free (pred n) r) as (? & ? & ?).
    eapply (spawn_inv (set_pc (set_pending s _) t _)). eapply inv_free; [by eapply (inv_ext s)|done..].
Qed.

Lemma futex_returns_inv s t p l ok :
  wq_inv s -> wq_pcs s !! t = Some p -> sleeps_on t p = Some l -> wq_inv (set_pc s t (futex_returns p ok)).
Proof.
  intros Hi Ht Hl. destruct p; simpl in Hl; try discriminate; case_match; simplify_eq; destruct ok; simpl; (eapply inv_pc; [done|done|done| |done|done|done]); try done; simpl; intros v; lia.
Qed.

Lemma wakes_inv s t p l p' : wq_inv s -> wq_pcs s !! t = Some p -> wakes p = Some (l, p') -> wq_inv (set_pc s t p').
Proof.
  intros Hi Ht Hw. destruct p; simpl in Hw; try discriminate; case_match; simplify_eq; by eapply inv_pc.
Qed.

Lemma futex_woken s w q t p l p' :
  wq_pcs s !! w = Some q -> wq_pcs s !! t = Some p -> sleeper s l w = true -> wakes p = Some (l, p') -> w ≠ t.
Proof.
  unfold sleeper. intros Hw Ht Hs Hwk ->. rewrite Ht in Hs. destruct p; simpl in *; try discriminate; destruct u; discriminate.
Qed.

Lemma sleeper_on s l w q : wq_pcs s !! w = Some q -> sleeper s l w = true -> sleeps_on w q = Some l.
Proof. unfold sleeper. intros ->. destruct (sleeps_on w q); [|done]. by intros ->%bool_decide_eq_true. Qed.

Lemma wq_step_inv a s s' : wq_inv s -> wq_step a s = Some s' -> wq_inv s'.
Proof.
  intros Hi. destruct a as [t o i af pr|t e|t|t w|t ok]; simpl; intros Hs.
  - destruct (wq_pcs s !! t) as [[]|] eqn:Ht; try discriminate. unfold sys_workq_kernreturn in Hs.
    repeat case_match; simplify_eq; try done; by eapply inv_free.
  - destruct (wq_pcs s !! t) as [[]|] eqn:Ht; try discriminate. simplify_eq. by eapply inv_free.
  - destruct (wq_pcs s !! t) as [p|] eqn:Ht; simpl in Hs; [|done]. by eapply thread_step_inv.
  - destruct (wq_pcs s !! t) as [p|] eqn:Ht; simpl in Hs; [|done]. destruct (wakes p) as [[l p']|] eqn:Hw; simpl in Hs; [|done].
    destruct w as [w|].
    + destruct (wq_pcs s !! w) as [q|] eqn:Hq; simpl in Hs; [|done]. destruct (sleeper s l w) eqn:Hsl; [|done]. simplify_eq.
      assert (w ≠ t) by by eapply futex_woken. apply sleeper_on with (q := q) in Hsl; [|done].
      eapply wakes_inv; [by eapply futex_returns_inv| |done]. simpl. by rewrite thread_other.
    + destruct (existsb _ _); simplify_eq. by eapply wakes_inv.
  - destruct (wq_pcs s !! t) as [p|] eqn:Ht; simpl in Hs; [|done]. destruct (sleeps_on t p) eqn:Hsl; simplify_eq. by eapply futex_returns_inv.
Qed.

Lemma wq_reachable_inv s : reachable wq_step wq_init s -> wq_inv s.
Proof. apply reachable_invariant; [apply wq_init_inv|apply wq_step_inv]. Qed.
End Invariant.

Definition is_qup (p : wq_pc) : bool := match p with QUp _ _ _ _ => true | _ => false end.

(** ** What a signalled thread is asked to do

    While a requester signals a thread, [me] of the thread holds the request. *)
Definition same_request (m m' : parked_thread) : Prop := pt_flags m' = pt_flags m ∧ pt_event m' = pt_event m.

Definition carries (s : wq) (w : nat) (r : request) : Prop :=
  ∃ m, wq_me s !! w = Some m ∧ pt_flags m = q_flags r ∧ pt_event m = Some (q_event r).

Definition request_inv (s : wq) : Prop := ∀ t n r w u, wq_pcs s !! t = Some (QUp n r w u) -> carries s w r.

(** The requests are kept when the threads' [me] are. *)
Definition keeps (s s' : wq) : Prop := ∀ w m, wq_me s !! w = Some m -> ∃ m', wq_me s' !! w = Some m' ∧ same_request m m'.

Section Requests.
Context `{Pthread}.

Lemma carries_keeps s s' w r : keeps s s' -> carries s w r -> carries s' w r.
Proof. intros Hk (m & Hm & Hf & He). destruct (Hk w m Hm) as (m' & Hm' & Hf' & He'). exists m'. split_and!; congruence. Qed.

Lemma keeps_eq s s' : wq_me s' = wq_me s -> keeps s s'.
Proof. intros Hm w m Hw. exists m. by rewrite Hm. Qed.

Lemma keeps_sem s t l v p : keeps s (set_pc (set_sem s l v) t p).
Proof.
  intros w m Hw. destruct l as [|w'|e]; simpl; [by exists m| |destruct (wq_events s !! e); by exists m].
  destruct (wq_me s !! w') as [m0|] eqn:Hm0; [|by exists m]. simpl. destruct (decide (w' = w)) as [->|].
  - rewrite thread_at by eauto. simplify_eq. by eexists.
  - rewrite thread_other by done. by exists m.
Qed.

Lemma request_move s s' t p' :
  request_inv s -> keeps s s' -> wq_pcs s' = <[t := p']> (wq_pcs s) ->
  (∀ n r w u, p' = QUp n r w u -> carries s' w r) -> request_inv s'.
Proof.
  intros Hr Hk Hpcs Hp' q n r w u Hq. rewrite Hpcs in Hq. apply thread_moved in Hq as [(<- & <- & _)|[_ Hq]]; [by eapply Hp'|].
  eapply carries_keeps; eauto.
Qed.

Lemma down_request s s' t l d go ret :
  request_inv s -> down s t l d go ret = Some s' -> (∀ d, is_qup (go d) = false) -> (∀ b, is_qup (ret b) = false) -> request_inv s'.
Proof.
  unfold down. intros Hr Hs Hg Hq. destruct (sem_down _ d) as [[v k]|]; [|done]. apply (inj Some) in Hs as <-.
  eapply (request_move s); [done|apply keeps_sem|by simpl; rewrite (proj2 (proj2 (set_sem_same s l v)))|].
  intros n r w u Hp. destruct k as [d'|b]; [specialize (Hg d')|specialize (Hq b)]; simpl in Hp; rewrite Hp in *; done.
Qed.

Lemma up_request s s' t l u go ret :
  request_inv s -> up s t l u go ret = Some s' -> is_qup ret = false ->
  (∀ u' n r w u'', go u' = QUp n r w u'' -> ∃ u0, wq_pcs s !! t = Some (QUp n r w u0)) -> request_inv s'.
Proof.
  unfold up. intros Hr Hs Hq Hg. destruct (sem_up _ u) as [[v k]|]; [|done]. apply (inj Some) in Hs as <-.
  eapply (request_move s); [done|apply keeps_sem|by simpl; rewrite (proj2 (proj2 (set_sem_same s l v)))|].
  intros n r w u' Hp. destruct k as [d'|]; [|rewrite Hp in Hq; done]. apply Hg in Hp as [u0 Hp].
  eapply carries_keeps; [apply keeps_sem|by eapply Hr].
Qed.

(** The thread that holds the lock rewrites its own [me], or another one. *)
Lemma request_alone s s' t p p' :
  wq_inv s -> wq_pcs s !! t = Some p -> holds p = true -> wq_pcs s' = <[t := p']> (wq_pcs s) ->
  (∀ n r w u, p' = QUp n r w u -> carries s' w r) -> request_inv s'.
Proof.
  intros Hi Ht Hp Hpcs Hp' q n r w u Hq. rewrite Hpcs in Hq. apply thread_moved in Hq as [(<- & <- & _)|[Hne Hq]]; [by eapply Hp'|].
  destruct (me_some s t p Hi Ht) as (m & _ & K). destruct (me_some s q _ Hi Hq) as (m' & _ & K').
  apply (ok_lock _ _ _ _ K) in Hp. pose proof (proj2 (ok_lock _ _ _ _ K') eq_refl). congruence.
Qed.

Lemma thread_step_request s s' t p : wq_inv s -> request_inv s -> wq_pcs s !! t = Some p -> thread_step s t p = Some s' -> request_inv s'.
Proof.
  intros Hi Hr Ht Hs. destruct p; simpl in Hs; try discriminate; unfold wq_lock, wq_unlock, through_pending in Hs;
    try (by eapply up_request); try (by eapply down_request);
    try (repeat case_match; simplify_eq; (eapply (request_move s); [done|by apply keeps_eq|done|done])).
  - case_match; [destruct (wq_events s !! _); [|done]|]; simplify_eq/=; (eapply (request_move s); [done|by apply keeps_eq|done|done]).
  - simplify_eq. by eapply (request_alone s).
  - eapply down_request; [done|done|done|by intros []].
  - destruct (wq_me s !! t) as [m|]; simplify_eq/=. eapply (request_move s); [done|by apply keeps_eq|done|done].
  - destruct (wq_me s !! t) as [m|]; simplify_eq/=. destruct (pt_event m) as [ev|]; simplify_eq;
      [destruct ev|]; (eapply (request_move s); [done|by apply keeps_eq|done|done]).
  - destruct (workq_parked_head s) as [|w rest]; simplify_eq; [eapply (request_move s); [done|by apply keeps_eq|done|done]|].
    destruct (wq_me s !! w) as [m|] eqn:Hm; simplify_eq/=. eapply (request_alone s); [done|done|done|done|].
    intros ???? [= <- <- <- <-]. eexists. split; [simpl; rewrite thread_at; eauto|done].
  - eapply up_request; [done|done|done|]. intros ????? [= <- <- <- <-]. eauto.
  - simplify_eq. eapply (request_move s); [done|by apply keeps_eq|done|by destruct (pred n)].
  - simplify_eq. intros q n' r' w u Hq. simpl in Hq. apply lookup_snoc_Some in Hq as [[_ Hq]|[_ Hq]]; [|done].
    apply thread_moved in Hq as [(_ & Hq & _)|[_ Hq]]; [by destruct (pred n)|]. destruct (Hr _ _ _ _ _ Hq) as (m & Hm & K).
    exists m. split; [|done]. simpl. by apply lookup_app_l_Some.
Qed.

Lemma step_request a s s' : wq_inv s -> request_inv s -> wq_step a s = Some s' -> request_inv s'.
Proof.
  intros Hi Hr. destruct a as [t o i af pr|t e|t|t w|t ok]; simpl; intros Hs.
  - destruct (wq_pcs s !! t) as [[]|] eqn:Ht; try discriminate. unfold sys_workq_kernreturn in Hs.
    repeat case_match; simplify_eq; try done; (eapply (request_move s); [done|by apply keeps_eq|done|done]).
  - destruct (wq_pcs s !! t) as [[]|] eqn:Ht; try discriminate. simplify_eq. eapply (request_move s); [done|by apply keeps_eq|done|done].
  - destruct (wq_pcs s !! t) as [p|] eqn:Ht; simpl in Hs; [|done]. by eapply thread_step_request.
  - destruct (wq_pcs s !! t) as [p|] eqn:Ht; simpl in Hs; [|done]. destruct (wakes p) as [[l p']|] eqn:Hw; simpl in Hs; [|done].
    assert (∀ n r w u, p' ≠ QUp n r w u) as Hp' by (intros n r w' u ->; destruct p; simpl in Hw; try discriminate; by destruct u0).
    destruct w as [w|].
    + destruct (wq_pcs s !! w) as [q|] eqn:Hq; simpl in Hs; [|done]. destruct (sleeper s l w) eqn:Hsl; [|done]. simplify_eq.
      apply sleeper_on with (q := q) in Hsl; [|done]. eapply (request_move (set_pc s w (futex_returns q true))); [|by apply keeps_eq|done|by intros ???? ?%Hp'].
      eapply (request_move s); [done|by apply keeps_eq|done|]. destruct q; simpl in Hsl; try discriminate; done.
    + destruct (existsb _ _); simplify_eq. eapply (request_move s); [done|by apply keeps_eq|done|by intros ???? ?%Hp'].
  - destruct (wq_pcs s !! t) as [p|] eqn:Ht; simpl in Hs; [|done]. destruct (sleeps_on t p) eqn:Hsl; simplify_eq.
    eapply (request_move s); [done|by apply keeps_eq|done|]. destruct p; simpl in Hsl; try discriminate; by destruct ok.
Qed.
End Requests.

(** ** Orderly executions

    [sem_down] decrements the semaphore and then stores -1 in it.  When a
    requester's [sem_up] comes in between, its signal is overwritten.  An
    execution is orderly when that does not happen. *)

Definition race (a : wq_action) (s : wq) : bool :=
  match a with
  | Step q =>
      match wq_pcs s !! q with
      | Some (QUp _ _ w (UAdd | UStore)) => match wq_pcs s !! w with Some (RDown DStore) => true | _ => false end
      | _ => false
      end
  | _ => false
  end.

Definition waiting (p : wq_pc) : bool := match p with RDown _ | RTimedOut => true | _ => false end.

(** A requester's signal for thread [w] that is still under way. *)
Definition signalling (s : wq) (w : nat) : option up_pc :=
  q ← workq_parked_lock s;
  p ← wq_pcs s !! q;
  match p with QUp _ _ w' u => if decide (w' = w) then Some u else None | _ => None end.

(** What is true of a thread that is not on the list. *)
Definition handover (g : option up_pc) (p : wq_pc) (v : Z) : bool :=
  match g with
  | Some UAdd => waiting p && quiet p v
  | Some UStore => waiting p && (v <=? 0)
  | Some UWake => if waiting p then (v =? 1) && match p with RDown DStore => false | _ => true end else true
  | None => if waiting p || match p with RCheck => true | _ => false end
            then (v =? 1) && match p with RDown (DStore | DSleep) => false | _ => true end else true
  end && match p with RUp _ | RUnlock | RRemove | CrashRemove => false | _ => true end.

(** Program counters that have nothing to do with a hand-over. *)
Definition inert (p : wq_pc) : bool :=
  match p with
  | RUp _ | RUnlock | RDown _ | RTimedOut | RCheck | RRemove | CrashRemove => false
  | _ => true
  end.

Section Orderly.
Context `{Pthread}.

Definition orderly_step (a : wq_action) (s : wq) : option wq := if race a s then None else wq_step a s.

Definition orderly (s : wq) : Prop :=
  ∀ t p m, wq_pcs s !! t = Some p -> wq_me s !! t = Some m -> t ∉ workq_parked_head s ->
  handover (signalling s t) p (pt_sem m) = true.

Lemma handover_inert g p p' v v' : inert p = true -> inert p' = true -> handover g p v = true -> handover g p' v' = true.
Proof. destruct g as [[]|], p, p'; simpl; done. Qed.

(** The signals under way, when a thread moves that sends none. *)
Lemma signalling_move s s' t p p' :
  wq_inv s -> wq_pcs s !! t = Some p -> wq_pcs s' = <[t := p']> (wq_pcs s) -> is_qup p = false -> is_qup p' = false ->
  (∀ u, u ≠ t -> workq_parked_lock s' = Some u <-> workq_parked_lock s = Some u) ->
  ∀ w, signalling s' w = signalling s w.
Proof.
  intros Hi Ht Hpcs Hp Hp' Hl w. unfold signalling. rewrite Hpcs.
  destruct (workq_parked_lock s) as [u|] eqn:Hu.
  - destruct (decide (u = t)) as [->|Hne].
    + simpl. rewrite Ht. simpl. transitivity (None : option up_pc); [|by destruct p].
      destruct (workq_parked_lock s') as [u'|] eqn:Hu'; [|done]. simpl.
      destruct (decide (u' = t)) as [->|Hne]; [rewrite thread_at by eauto; simpl; by destruct p'|].
      pose proof (proj1 (Hl u' Hne) eq_refl). congruence.
    + assert (workq_parked_lock s' = Some u) as -> by by apply Hl. simpl. by rewrite thread_other.
  - destruct (workq_parked_lock s') as [u'|] eqn:Hu'; [|done]. simpl.
    destruct (decide (u' = t)) as [->|Hne]; [rewrite thread_at by eauto; simpl; by destruct p'|].
    pose proof (proj1 (Hl u' Hne) eq_refl). congruence.
Qed.

(** A step of a thread that sends no signal. *)
Lemma orderly_move s s' t p p' :
  wq_inv s -> orderly s -> wq_pcs s !! t = Some p -> wq_pcs s' = <[t := p']> (wq_pcs s) -> is_qup p = false -> is_qup p' = false ->
  (∀ u, u ≠ t -> workq_parked_lock s' = Some u <-> workq_parked_lock s = Some u) ->
  (∀ u, u ≠ t -> wq_me s' !! u = wq_me s !! u) ->
  (∀ u, u ≠ t -> u ∈ workq_parked_head s -> u ∈ workq_parked_head s') ->
  (∀ m m', wq_me s !! t = Some m -> wq_me s' !! t = Some m' -> t ∉ workq_parked_head s' -> thread_ok s t p m ->
     (t ∉ workq_parked_head s -> handover (signalling s t) p (pt_sem m) = true) ->
     handover (signalling s t) p' (pt_sem m') = true) ->
  orderly s'.
Proof.
  intros Hi Ho Ht Hpcs Hp Hp' Hl Hme Hpark Hself u q m' Hq Hm' Hn.
  rewrite (signalling_move s s' t p p') by done. rewrite Hpcs in Hq. apply thread_moved in Hq as [(<- & -> & _)|[Hne Hq]].
  - destruct (me_some s t _ Hi Ht) as (m & Hm & Hok). eapply Hself; try done. intros. by eapply Ho.
  - rewrite Hme in Hm' by done. eapply Ho; eauto.
Qed.

(** Most steps: nothing but the lock, the events and inert program
    counters. *)
Lemma orderly_inert s s' t p p' :
  wq_inv s -> orderly s -> wq_pcs s !! t = Some p -> wq_pcs s' = <[t := p']> (wq_pcs s) ->
  inert p = true -> inert p' = true -> is_qup p = false -> is_qup p' = false ->
  (∀ u, u ≠ t -> workq_parked_lock s' = Some u <-> workq_parked_lock s = Some u) ->
  wq_me s' = wq_me s -> workq_parked_head s' = workq_parked_head s -> orderly s'.
Proof.
  intros Hi Ho Ht Hpcs Hp Hp' Hq Hq' Hl Hme Hpark. eapply orderly_move; try done.
  - intros u _. by rewrite Hme.
  - by rewrite Hpark.
  - rewrite Hpark. intros m m' _ _ Hn _ Hh. eapply handover_inert; [exact Hp|done|by apply Hh].
Qed.

(** The lock is held by at most one thread, hence so are the signals. *)
Lemma holder_unique s t u p q :
  wq_inv s -> wq_pcs s !! t = Some p -> wq_pcs s !! u = Some q -> holds p = true -> holds q = true -> t = u.
Proof.
  intros Hi Ht Hu Hp Hq. destruct (me_some s t p Hi Ht) as (m & _ & K). destruct (me_some s u q Hi Hu) as (m' & _ & K').
  apply (ok_lock _ _ _ _ K) in Hp. apply (ok_lock _ _ _ _ K') in Hq. congruence.
Qed.

Lemma lock_holder s t p : wq_inv s -> wq_pcs s !! t = Some p -> holds p = true -> workq_parked_lock s = Some t.
Proof. intros Hi Ht Hp. destruct (me_some s t p Hi Ht) as (m & _ & K). by apply (ok_lock _ _ _ _ K). Qed.

Lemma signalling_qup s t n r w u x :
  wq_inv s -> wq_pcs s !! t = Some (QUp n r w u) -> signalling s x = if decide (w = x) then Some u else None.
Proof. intros Hi Ht. unfold signalling. rewrite (lock_holder s t _ Hi Ht) by done. simpl. by rewrite Ht. Qed.

Lemma signalling_holder s t p x :
  wq_inv s -> wq_pcs s !! t = Some p -> holds p = true -> is_qup p = false -> signalling s x = None.
Proof. intros Hi Ht Hp Hq. unfold signalling. rewrite (lock_holder s t _ Hi Ht) by done. simpl. rewrite Ht. by destruct p. Qed.

Lemma waiting_handover s t p m :
  wq_inv s -> orderly s -> wq_pcs s !! t = Some p -> wq_me s !! t = Some m -> signalling s t = None ->
  t ∉ workq_parked_head s -> handover None p (pt_sem m) = true.
Proof. intros Hi Ho Ht Hm Hg Hn. rewrite <- Hg. by eapply Ho. Qed.

(** The worker's accesses to its semaphore keep the hand-over going. *)
Lemma handover_down g d v v' r :
  handover g (RDown d) v = true -> sem_down v d = Some (v', r) ->
  handover g (match r with inl d => RDown d | inr b => if b then RWakeup else RTimedOut end) v' = true.
Proof.
  unfold handover, sem_down, futex_wait. destruct g as [[]|], d; simpl; intros Hh Hs; simplify_eq;
    repeat (case_match; simplify_eq/=); try lia; try done.
Qed.

Lemma rdown_orderly s s' t d :
  wq_inv s -> orderly s -> wq_pcs s !! t = Some (RDown d) ->
  down s t (SThread t) d RDown (λ b, if (b : bool) then RWakeup else RTimedOut) = Some s' -> orderly s'.
Proof.
  intros Hi Ho Ht Hs. destruct (me_some s t _ Hi Ht) as (m & Hm & Hok). unfold down in Hs; simpl in Hs; rewrite Hm in Hs.
  destruct (sem_down (pt_sem m) d) as [[v r]|] eqn:E; simplify_eq/=.
  eapply (orderly_move s); [done|done|exact Ht|done|done|by destruct r as [|[]]|done| |done|]; simpl.
  - intros u Hu. by apply list_lookup_insert_ne.
  - intros m1 m2 Hm1 Hm2 Hn _ Hh. rewrite thread_at in Hm2 by eauto. simplify_eq. eapply handover_down; [|exact E]. by apply Hh.
Qed.

(** [sem_up] on the queue, [sem_up] and [sem_down] on an event. *)
Lemma up_orderly s s' t l u go ret p :
  wq_inv s -> orderly s -> wq_pcs s !! t = Some p -> up s t l u go ret = Some s' -> (∀ w, l ≠ SThread w) -> is_qup p = false ->
  (∀ p', p' = ret ∨ (∃ u, p' = go u) -> is_qup p' = false ∧ (∀ g v, handover g p v = true -> handover g p' v = true)) ->
  orderly s'.
Proof.
  unfold up. intros Hi Ho Ht Hs Hl Hp Hp'. destruct (sem_up _ u) as [[v r]|]; simplify_eq/=.
  destruct (Hp' (match r with Some u => go u | None => ret end)) as [H1 H2]; [destruct r; eauto|].
  assert (wq_me (set_sem s l v) = wq_me s) as Hme by (destruct l as [|w|e]; simpl; [done|by destruct (Hl w)|by destruct (wq_events s !! e)]).
  destruct (set_sem_same s l v) as (Hlock & Hpark & Hpcs).
  eapply (orderly_move s); [done|done|exact Ht|by simpl; rewrite Hpcs|done|done|..]; simpl; rewrite ?Hlock, ?Hpark, ?Hme; try done.
  intros m m' Hm Hm' Hn _ Hh. simplify_eq. auto.
Qed.

Lemma down_orderly s s' t l d go ret p :
  wq_inv s -> orderly s -> wq_pcs s !! t = Some p -> down s t l d go ret = Some s' -> (∀ w, l ≠ SThread w) -> is_qup p = false -> inert p = true ->
  (∀ p', (∃ b, p' = ret b) ∨ (∃ d, p' = go d) -> is_qup p' = false ∧ inert p' = true) -> orderly s'.
Proof.
  unfold down. intros Hi Ho Ht Hs Hl Hp Hin Hp'. destruct (sem_down _ d) as [[v r]|]; simplify_eq/=.
  destruct (Hp' (match r with inl d => go d | inr b => ret b end)) as [H1 H2]; [destruct r; eauto|].
  assert (wq_me (set_sem s l v) = wq_me s) as Hme by (destruct l as [|w|e]; simpl; [done|by destruct (Hl w)|by destruct (wq_events s !! e)]).
  destruct (set_sem_same s l v) as (Hlock & Hpark & Hpcs).
  eapply (orderly_inert s); [done|done|exact Ht|by simpl; rewrite Hpcs|done..| | |]; simpl; by rewrite ?Hlock, ?Hpark, ?Hme.
Qed.

(** Taking and releasing the lock. *)
Lemma lock_orderly s s' t p p' :
  wq_inv s -> orderly s -> wq_pcs s !! t = Some p -> wq_lock s t p' = Some s' -> is_qup p = false -> is_qup p' = false ->
  (∀ v, handover None p v = true -> handover None p' v = true) -> orderly s'.
Proof.
  unfold wq_lock. intros Hi Ho Ht Hs Hp Hp' Hh. destruct (workq_parked_lock s) as [|] eqn:Hl; simplify_eq.
  eapply (orderly_move s); [done|done|exact Ht|done|done|done| |done|done|]; simpl.
  - intros u Hu. rewrite Hl. split; [|done]. intros [= ->]. done.
  - intros m m' Hm Hm' Hn _ Hh'. simplify_eq. assert (signalling s t = None) as Hg by (unfold signalling; by rewrite Hl).
    rewrite Hg in *. auto.
Qed.

Lemma unlock_orderly s s' t p p' :
  wq_inv s -> orderly s -> wq_pcs s !! t = Some p -> wq_unlock s t p' = Some s' -> holds p = true -> is_qup p = false -> is_qup p' = false ->
  (∀ v, handover None p v = true -> handover None p' v = true) -> orderly s'.
Proof.
  unfold wq_unlock. intros Hi Ho Ht Hs Hp Hq Hq' Hh. simplify_eq.
  eapply (orderly_move s (set_pc (set_lock s None) t p')); [done|done|exact Ht|done|done|done| |done|done|]; simpl.
  - intros u Hu. rewrite (lock_holder s t p) by done. split; [done|]. intros [= ->]. done.
  - intros m m' Hm Hm' Hn _ Hh'. simplify_eq. rewrite (signalling_holder s t p) in * by done. auto.
Qed.

(** A requester takes a thread from the list: the thread is waiting. *)
Lemma pick_orderly s t n r w rest m :
  wq_inv s -> orderly s -> wq_pcs s !! t = Some (QPick n r) -> workq_parked_head s = w :: rest -> wq_me s !! w = Some m ->
  orderly (set_pc (set_parked (set_me s w (ParkedThread (pt_sem m) (q_flags r) (Some (q_event r)))) rest) t (QUp n r w UAdd)).
Proof.
  intros Hi Ho Ht Hp Hm. pose proof (pick_inv s t n r w rest m Hi Ht Hp Hm) as Hi'.
  set (s' := set_pc _ t _) in *. assert (wq_pcs s' !! t = Some (QUp n r w UAdd)) as Ht' by (simpl; rewrite thread_at; eauto).
  assert (∀ u, signalling s u = None) as Hg by (intros u; by eapply signalling_holder).
  intros u p mu Hu Hmu Hn. rewrite (signalling_qup s' t n r w UAdd) by done. simpl in Hu, Hmu, Hn.
  destruct (decide (w = u)) as [->|Hne].
  - rewrite thread_at in Hmu by eauto. simplify_eq. simpl.
    apply thread_moved in Hu as [(-> & -> & _)|[Htu Hu]]; [|].
    { pose proof (ok_quiet _ _ _ _ (inv_thread s Hi u _ m Ht Hm)) as Hq. rewrite Hp in Hq. by specialize (Hq (list_elem_of_here _ _)). }
    pose proof (ok_quiet _ _ _ _ (inv_thread s Hi u _ m Hu Hm)) as Hq. rewrite Hp in Hq. specialize (Hq (list_elem_of_here _ _)).
    assert (holds p = false) as Hh. { destruct (holds p) eqn:Hh; [|done]. destruct Htu. exact (holder_unique s t u _ p Hi Ht Hu eq_refl Hh). }
    unfold handover. destruct p; simpl in *; try discriminate; by rewrite ?Hq.
  - rewrite list_lookup_insert_ne in Hmu by done. apply thread_moved in Hu as [(<- & -> & _)|[Htu Hu]]; [done|].
    eapply waiting_handover; [exact Hi|exact Ho|exact Hu|done|done|]. rewrite Hp, elem_of_cons. intros [->|]; done.
Qed.

(** The requester's accesses to the semaphore. *)
Lemma handover_up u p v v' r :
  handover (Some u) p v = true -> p ≠ RDown DStore -> (holds p = false) -> sem_up v u = Some (v', r) -> handover r p v' = true.
Proof.
  unfold handover, sem_up. intros Hh Hne Hl Hs.
  destruct u; simplify_eq; destruct p; simpl in *; try discriminate; try done;
    try match goal with d : down_pc |- _ => destruct d end; simpl in *; try done;
    destruct (Z.eqb_spec (v + 1) 0); simpl; lia.
Qed.

Lemma qup_orderly s s' t n r w u :
  wq_inv s -> orderly s -> wq_pcs s !! t = Some (QUp n r w u) -> race (Step t) s = false ->
  up s t (SThread w) u (QUp n r w) (QUnlock n r) = Some s' -> orderly s'.
Proof.
  intros Hi Ho Ht Hrace Hs. assert (wq_inv s') as Hi' by (eapply thread_step_inv; [done|exact Ht|exact Hs]).
  unfold up in Hs. destruct (sem_up _ u) as [[v k]|] eqn:E; [|done]. apply (inj Some) in Hs as <-.
  destruct (me_some s t _ Hi Ht) as (mt & Hmt & Kt). pose proof (ok_target _ _ _ _ Kt n r w u eq_refl) as Hw.
  assert (wq_pcs s !! w ≠ Some (RDown DStore)) as Hne.
  { intros Hd. simpl in Hrace. rewrite Ht, Hd in Hrace. destruct u; discriminate. }
  set (p' := match k with Some u => QUp n r w u | None => QUnlock n r end) in *.
  destruct (set_sem_same s (SThread w) v) as (Hlock & Hpark & Hpcs).
  assert (∀ x m, wq_me (set_sem s (SThread w) v) !! x = Some m ->
    ∃ m0, wq_me s !! x = Some m0 ∧ pt_sem m = if decide (w = x) then v else pt_sem m0) as Hme.
  { intros x m. simpl. destruct (wq_me s !! w) as [m0|] eqn:Hm0; simpl; intros Hm.
    - apply thread_moved in Hm as [(<- & -> & _)|[? Hm]]; [exists m0|exists m]; by case_decide.
    - exists m. rewrite decide_False by congruence. done. }
  set (s1 := set_sem s (SThread w) v) in *.
  assert (wq_pcs (set_pc s1 t p') !! t = Some p') as Ht' by (simpl; rewrite Hpcs; apply thread_at; eauto).
  assert (∀ x, signalling (set_pc s1 t p') x = if decide (w = x) then k else None) as Hg.
  { intros x. destruct k as [u'|]; [by eapply signalling_qup|]. rewrite (signalling_holder _ t p' x Hi' Ht' eq_refl eq_refl). by destruct (decide _). }
  intros x p m Hx Hm Hn. rewrite Hg. simpl in Hx, Hm, Hn. rewrite Hpcs in Hx. rewrite Hpark in Hn.
  destruct (Hme x m Hm) as (m0 & Hm0 & ->). 
  assert (∀ q, wq_pcs s !! x = Some q -> handover (if decide (w = x) then Some u else None) q (pt_sem m0) = true) as Hold.
  { intros q Hq. rewrite <- (signalling_qup s t n r w u x) by done. by eapply Ho. }
  apply thread_moved in Hx as [(<- & -> & _)|[Htx Hx]].
  - specialize (Hold _ Ht). destruct (decide (w = t)) as [->|]; [by destruct u|by destruct k].
  - specialize (Hold _ Hx). destruct (decide (w = x)) as [->|]; [|done].
    simpl in E. rewrite Hm0 in E. eapply handover_up; [exact Hold|congruence| |exact E].
    destruct (holds p) eqn:Hh; [|done]. destruct Htx. exact (holder_unique s t x _ p Hi Ht Hx eq_refl Hh).
Qed.

(** A step to [p'] that writes neither the lock, the list nor a [me]. *)
Lemma orderly_pc s t p p' :
  wq_inv s -> orderly s -> wq_pcs s !! t = Some p -> is_qup p = false -> is_qup p' = false ->
  (∀ m, wq_me s !! t = Some m -> t ∉ workq_parked_head s -> handover (signalling s t) p (pt_sem m) = true ->
     handover (signalling s t) p' (pt_sem m) = true) ->
  orderly (set_pc s t p').
Proof.
  intros Hi Ho Ht Hp Hp' Hh. eapply (orderly_move s); [done|done|exact Ht|done..|]. simpl.
  intros m m' Hm Hm' Hn _ Hx. simplify_eq. auto.
Qed.

Lemma check_orderly s t :
  wq_inv s -> orderly s -> wq_pcs s !! t = Some RCheck ->
  orderly (set_pc s t (if 0 <? get_sem s (SThread t) then RUnlockWake else RRemove)).
Proof.
  intros Hi Ho Ht. eapply orderly_pc; [done|done|exact Ht|done|by case_match|].
  rewrite (signalling_holder s t RCheck) by done. simpl. intros m Hm _ Hh. rewrite Hm.
  unfold handover in Hh. simpl in Hh. destruct (Z.ltb_spec 0 (pt_sem m)); [done|lia].
Qed.

(** In an orderly execution a thread that gives up is on the list. *)
Lemma remove_parked s t : wq_inv s -> orderly s -> wq_pcs s !! t = Some RRemove -> t ∈ workq_parked_head s.
Proof.
  intros Hi Ho Ht. destruct (decide (t ∈ workq_parked_head s)) as [|Hn]; [done|].
  destruct (me_some s t _ Hi Ht) as (m & Hm & _). specialize (Ho t _ m Ht Hm Hn). by destruct (signalling s t) as [[]|].
Qed.

Lemma spawn_orderly s m e :
  wq_inv s -> request_inv s -> orderly s ->
  orderly (Wq (workq_sem s) (workq_parked_lock s) (workq_parked_head s) (wq_event_pending s) (wq_events s)
             (wq_me s ++ [m]) (wq_pcs s ++ [Running e])).
Proof.
  intros Hi Hr Ho t p m' Ht Hm' Hn. simpl in *.
  assert (∀ w, signalling (Wq (workq_sem s) (workq_parked_lock s) (workq_parked_head s) (wq_event_pending s) (wq_events s)
             (wq_me s ++ [m]) (wq_pcs s ++ [Running e])) w = signalling s w) as Hg.
  { intros w. unfold signalling. simpl. destruct (workq_parked_lock s) as [q|] eqn:Hq; [|done]. simpl.
    rewrite lookup_app_l; [done|]. apply (inv_range s Hi). by right. }
  rewrite Hg. apply lookup_snoc_Some in Ht as [[Hlt Ht]|[-> <-]].
  - rewrite lookup_app_l in Hm' by (rewrite (inv_len s Hi); done). by eapply Ho.
  - assert (∀ u, signalling s (length (wq_pcs s)) = Some u -> False) as Hno.
    { unfold signalling. intros u Hu. destruct (workq_parked_lock s) as [q|]; [|done]. simpl in Hu.
      destruct (wq_pcs s !! q) as [[]|] eqn:Hq; try discriminate. simpl in Hu. case_decide; [|done]. subst.
      destruct (Hr _ _ _ _ _ Hq) as (m1 & Hm1 & _). apply lookup_lt_Some in Hm1. rewrite (inv_len s Hi) in Hm1. lia. }
    destruct (signalling s _) as [u|]; [by destruct (Hno u)|done].
Qed.

Lemma thread_step_orderly s s' t p :
  wq_inv s -> request_inv s -> orderly s -> wq_pcs s !! t = Some p -> race (Step t) s = false -> thread_step s t p = Some s' -> orderly s'.
Proof.
  intros Hi Hr Ho Ht Hrace Hs. destruct p; simpl in Hs; try discriminate.
  - simplify_eq. eapply (orderly_inert s); try done; by repeat case_match.
  - unfold through_pending in Hs. case_match; simplify_eq; by eapply (orderly_inert s).
  - unfold through_pending in Hs. destruct (wq_event_pending s) as [e|]; [destruct (wq_events s !! e); [|done]|]; simplify_eq/=; by eapply (orderly_inert s).
  - unfold through_pending in Hs. case_match; simplify_eq; by eapply (orderly_inert s).
  - simplify_eq. by eapply (orderly_inert s).
  - eapply up_orderly; [done..|]. intros p' [->|[u' ->]]; (split; [done|]); intros g v; by apply handover_inert.
  - eapply down_orderly; [done..|]. intros p' [[b ->]|[d' ->]]; done.
  - by eapply lock_orderly.
  - simplify_eq. eapply (orderly_move s); [done|done|exact Ht|done|done|done|done| | |]; simpl.
    + intros u Hu. by apply list_lookup_insert_ne.
    + intros u _ Hu. by right.
    + intros m m' _ _ Hn. destruct Hn. by left.
  - eapply up_orderly; [done..|]. intros p' [->|[u' ->]]; (split; [done|]); intros g v; unfold handover; by rewrite !andb_false_r.
  - eapply unlock_orderly; done.
  - by eapply rdown_orderly.
  - by eapply lock_orderly.
  - simplify_eq. by apply check_orderly.
  - by eapply unlock_orderly.
  - rewrite decide_True in Hs by by apply remove_parked. simplify_eq.
    eapply (orderly_move s); [done|done|exact Ht|done|done|done|done|done| |]; simpl.
    + intros u Hu Hin. by apply list_elem_of_filter.
    + intros m m' _ _ _ _ _. by rewrite (signalling_holder s t RRemove).
  - destruct (wq_me s !! t); simpl in Hs; [|done]. by eapply unlock_orderly.
  - destruct (wq_me s !! t) as [m|]; simpl in Hs; [|done].
    destruct (pt_event m) as [[]|]; simplify_eq; by eapply (orderly_inert s).
  - eapply down_orderly; [done..|]. intros p' [[b ->]|[d' ->]]; done.
  - by eapply lock_orderly.
  - destruct (workq_parked_head s) as [|w rest] eqn:Hp; simplify_eq; [by eapply (orderly_inert s)|].
    destruct (wq_me s !! w) as [m|] eqn:Hm; simplify_eq/=. by apply pick_orderly.
  - by eapply qup_orderly.
  - eapply unlock_orderly; try done; by destruct (pred n).
  - by eapply unlock_orderly.
  - simplify_eq. set (s1 := set_pc (set_pending s (q_event r)) t (next_round (pred n) r)).
    assert (inert (next_round (pred n) r) = true ∧ is_qup (next_round (pred n) r) = false) as [? ?] by by destruct (pred n).
    destruct (next_round_free (pred n) r) as (? & ? & ?).
    apply (spawn_orderly s1); [eapply inv_free; [by apply (inv_ext s)|done..]| |by eapply (orderly_inert s)].
    eapply (request_move s); [done|by apply keeps_eq|done|]. intros ???? Hq. by rewrite Hq in *.
Qed.

Lemma handover_returns g t p l ok v :
  sleeps_on t p = Some l -> handover g p v = true -> handover g (futex_returns p ok) v = true.
Proof.
  unfold handover. intros Hs Hh. destruct p; simpl in Hs; try discriminate; destruct d; try discriminate; destruct g as [[]|], ok; simpl in *; try done; lia.
Qed.

Lemma returns_orderly s t p l ok :
  wq_inv s -> orderly s -> wq_pcs s !! t = Some p -> sleeps_on t p = Some l -> orderly (set_pc s t (futex_returns p ok)).
Proof.
  intros Hi Ho Ht Hs. eapply orderly_pc; [done|done|exact Ht| | |].
  - by destruct p.
  - destruct p; simpl in Hs; try discriminate; by destruct ok.
  - intros m Hm Hn Hh. by eapply handover_returns.
Qed.

(** [FUTEX_WAKE] ends a signal: the sleeper, if there is one, is awake. *)
Lemma wake_orderly s t n r w :
  wq_inv s -> orderly s -> wq_pcs s !! t = Some (QUp n r w UWake) -> wq_pcs s !! w ≠ Some (RDown DSleep) ->
  orderly (set_pc s t (QUnlock n r)).
Proof.
  intros Hi Ho Ht Hw. assert (wq_inv (set_pc s t (QUnlock n r))) as Hi' by by eapply wakes_inv.
  intros u p m Hu Hm Hn. simpl in *.
  rewrite (signalling_holder _ t (QUnlock n r) u Hi') by (simpl; try apply thread_at; eauto).
  apply thread_moved in Hu as [(<- & -> & _)|[Hne Hu]]; [done|].
  specialize (Ho u p m Hu Hm Hn). rewrite (signalling_qup s t n r w UWake) in Ho by done.
  case_decide; [subst u|done]. assert (p ≠ RCheck) as Hc. { intros ->. by destruct (Hne (holder_unique s t w _ _ Hi Ht Hu eq_refl eq_refl)). }
  unfold handover in *. destruct p; simpl in *; try done. by destruct d; try done; congruence.
Qed.

Lemma sleeper_thread s w x q : wq_pcs s !! x = Some q -> sleeps_on x q = Some (SThread w) -> x = w ∧ q = RDown DSleep.
Proof. intros _ Hs. destruct q; simpl in Hs; try discriminate; destruct d; by simplify_eq. Qed.

Lemma wakeone_orderly s s' t w :
  wq_inv s -> orderly s -> wq_step (WakeOne t w) s = Some s' -> orderly s'.
Proof.
  intros Hi Ho Hs. simpl in Hs. destruct (wq_pcs s !! t) as [p|] eqn:Ht; simpl in Hs; [|done].
  destruct (wakes p) as [[l p']|] eqn:Hw; simpl in Hs; [|done].
  assert (∀ s, wq_inv s -> orderly s -> wq_pcs s !! t = Some p ->
    (∀ x, l = SThread x -> wq_pcs s !! x ≠ Some (RDown DSleep)) -> orderly (set_pc s t p')) as Hself.
  { intros s0 Hi0 Ho0 Ht0 Hx. destruct p; simpl in Hw; try discriminate; destruct u; simplify_eq;
      [by eapply orderly_pc|eapply orderly_pc; [done..|]; intros m _ _; unfold handover; by rewrite !andb_false_r|
       eapply wake_orderly; eauto]. }
  destruct w as [w|].
  - destruct (wq_pcs s !! w) as [q|] eqn:Hq; simpl in Hs; [|done]. destruct (sleeper s l w) eqn:Hsl; [|done]. simplify_eq.
    assert (w ≠ t) by by eapply futex_woken. apply sleeper_on with (q := q) in Hsl; [|done].
    apply Hself; [by eapply futex_returns_inv|by eapply returns_orderly|simpl; by rewrite thread_other|].
    intros x ->. apply sleeper_thread with (s := s) in Hsl as [-> ->]; [|done]. simpl. by rewrite thread_at by eauto.
  - destruct (existsb _ _) eqn:He; simplify_eq. apply Hself; [done..|]. intros x -> Hx.
    assert (existsb (sleeper s (SThread x)) (seq 0 (length (wq_pcs s))) = true) as Ht'; [|congruence].
    apply existsb_exists. exists x. split; [apply in_seq; split; [lia|by eapply lookup_lt_Some in Hx]|].
    unfold sleeper. rewrite Hx. simpl. by rewrite bool_decide_true.
Qed.

Lemma step_orderly a s s' : wq_inv s -> request_inv s -> orderly s -> orderly_step a s = Some s' -> orderly s'.
Proof.
  unfold orderly_step. intros Hi Hr Ho Hs. destruct (race a s) eqn:Hrace; [done|].
  destruct a as [t o i af pr|t e|t|t w|t ok]; [| | |by eapply wakeone_orderly|]; simpl in Hs.
  - destruct (wq_pcs s !! t) as [[]|] eqn:Ht; try discriminate. unfold sys_workq_kernreturn in Hs.
    repeat case_match; simplify_eq; try done; by eapply (orderly_inert s).
  - destruct (wq_pcs s !! t) as [[]|] eqn:Ht; try discriminate. simplify_eq. by eapply (orderly_inert s).
  - destruct (wq_pcs s !! t) as [p|] eqn:Ht; simpl in Hs; [|done]. by eapply thread_step_orderly.
  - destruct (wq_pcs s !! t) as [p|] eqn:Ht; simpl in Hs; [|done]. destruct (sleeps_on t p) eqn:Hsl; simplify_eq. by eapply returns_orderly.
Qed.

Lemma orderly_reachable s : reachable orderly_step wq_init s -> wq_inv s ∧ request_inv s ∧ orderly s.
Proof.
  revert s. apply reachable_invariant.
  - intros s Hs. pose proof (wq_init_inv s Hs) as Hi. destruct Hs as (_ & Hl & Hp & _ & Hlen & Hall). split_and!; [done| |].
    + intros t n r w u Ht. by eapply Forall_lookup_1 in Hall; [|done].
    + intros t p m Ht Hm Hn. eapply Forall_lookup_1 in Hall; [|done]. subst p. unfold signalling. by rewrite Hl.
  - intros a s s' (Hi & Hr & Ho) Hs. assert (wq_step a s = Some s') as Hs' by (unfold orderly_step in Hs; by destruct (race a s)).
    split_and!; [by eapply wq_step_inv|by eapply step_request|by eapply step_orderly].
Qed.
End Orderly.

(** ** Theorems *)

(** Threads that are about to use a work queue, and the events they may wait
    for. *)
Definition fresh (n : nat) (events : list wq_kevent_data) : wq :=
  Wq WQ_MAX_THREADS None [] None events (replicate n (ParkedThread 0 0 None)) (replicate n (Running None)).

Lemma wq_fresh_init n events : wq_init (fresh n events).
Proof. split_and!; try done; simpl; [by rewrite !length_replicate|by apply Forall_replicate]. Qed.

(** A thread parks itself and goes to wait for work, up to its first access to
    [me.sem]; a thread asks for one worker, up to the futex call that wakes
    the worker. *)
Definition park (t : nat) : list wq_action := [Call t WQOPS_THREAD_RETURN None 0 0; Step t; Step t; Step t; Step t; Step t].
Definition ask (t : nat) : list wq_action :=
  [Call t WQOPS_QUEUE_REQTHREADS None 1 0; Step t; Step t; Step t; Step t; Step t].

Section Theorems.
Context `{Pthread}.

(** C9: safety of the list, given a lock that excludes and as long as no
    worker has removed itself from a list that it is not on (the model's
    [CrashRemove], the consequence of a lost signal, see
    [lost_signal_corrupts_list]).  Up to there, whatever the interleaving,
    the list of parked threads has no duplicates, the lock is held by exactly
    the thread that is in a section between locking and unlocking, a thread
    on the list is one that waits for work (or is about to) and nobody but
    itself has touched its semaphore, and no thread that goes on to work reads
    an event nobody has written ([CrashEvent]). *)
Theorem workq_safe s :
  reachable wq_step wq_init s -> (∀ t, wq_pcs s !! t ≠ Some CrashRemove) ->
  NoDup (workq_parked_head s) ∧
  (∀ t p, wq_pcs s !! t = Some p -> holds p = true <-> workq_parked_lock s = Some t) ∧
  (∀ t p m, wq_pcs s !! t = Some p -> wq_me s !! t = Some m -> t ∈ workq_parked_head s -> quiet p (pt_sem m) = true) ∧
  (∀ t, wq_pcs s !! t ≠ Some CrashEvent).
Proof.
  intros Hi%wq_reachable_inv _. split_and!; [by apply inv_nodup| | |].
  - intros t p Ht. destruct (me_some s t p Hi Ht) as (m & _ & K). symmetry. apply (ok_lock _ _ _ _ K).
  - intros t p m Ht Hm Hin. by apply (ok_quiet _ _ _ _ (inv_thread s Hi t p m Ht Hm)).
  - intros t Ht. destruct (me_some s t _ Hi Ht) as (m & _ & K). by destruct (ok_crash _ _ _ _ K).
Qed.

(** C18: in an orderly execution a thread that times
    out and takes itself off the list is on it (the model's [CrashRemove] is
    not reached), no wake-up is lost: a thread that sleeps although it was
    taken off the list has a requester on its way to wake it, and what a
    requester signals is what the thread will find in its [me]. *)
Theorem orderly_no_lost_wakeup s :
  reachable orderly_step wq_init s ->
  (∀ t, wq_pcs s !! t ≠ Some CrashRemove) ∧
  (∀ t, wq_pcs s !! t = Some RRemove -> t ∈ workq_parked_head s) ∧
  (∀ t, wq_pcs s !! t = Some (RDown DSleep) -> t ∈ workq_parked_head s ∨ ∃ u, signalling s t = Some u) ∧
  (∀ t n r w u, wq_pcs s !! t = Some (QUp n r w u) -> carries s w r).
Proof.
  intros (Hi & Hr & Ho)%orderly_reachable. split_and!; [| |  |exact Hr].
  - intros t Ht. destruct (me_some s t _ Hi Ht) as (m & Hm & K). destruct (decide (t ∈ workq_parked_head s)) as [Hin|Hn].
    + by apply (ok_quiet _ _ _ _ K) in Hin.
    + specialize (Ho t _ m Ht Hm Hn). by destruct (signalling s t) as [[]|].
  - intros t Ht. by apply remove_parked.
  - intros t Ht. destruct (decide (t ∈ workq_parked_head s)) as [|Hn]; [by left|right].
    destruct (me_some s t _ Hi Ht) as (m & Hm & _). specialize (Ho t _ m Ht Hm Hn).
    destruct (signalling s t) as [u|]; [by exists u|]. unfold handover in Ho. simpl in Ho. by rewrite andb_false_r in Ho.
Qed.

(** The thread that has just moved is where it moved to. *)
Ltac at_pc := simpl; rewrite ?list_insert_insert_eq; rewrite thread_at; eauto.

(** The steps of a thread that was taken off the list. *)
Lemma resume_wakeup s t m ev :
  wq_pcs s !! t = Some RWakeup -> wq_me s !! t = Some m -> pt_event m = Some ev ->
  ∃ s', thread_step s t RWakeup = Some s' ∧ wq_pcs s' !! t = Some (Running (Some (wakeup_entry s m ev))).
Proof.
  intros Ht Hm Hev. simpl. rewrite Hm. simpl. rewrite Hev. eexists. split; [done|]. destruct ev; simpl; apply thread_at; eauto.
Qed.

Definition reaches (s : wq) (t : nat) (k : nat) (e : wq_entry) : Prop :=
  ∃ s', exec wq_step (replicate k (Step t)) s = Some s' ∧ wq_pcs s' !! t = Some (Running (Some e)).

Lemma reaches_step s s' t p k e : wq_pcs s !! t = Some p -> thread_step s t p = Some s' -> reaches s' t k e -> reaches s t (S k) e.
Proof. intros Ht Hs (s2 & He & Hp). exists s2. split; [|done]. simpl. rewrite Ht. simpl. by rewrite Hs. Qed.

Lemma reaches_0 s t e : wq_pcs s !! t = Some (Running (Some e)) -> reaches s t 0 e.
Proof. intros Ht. by exists s. Qed.

Lemma reaches_wakeup s t m ev e :
  wq_pcs s !! t = Some RWakeup -> wq_me s !! t = Some m -> pt_event m = Some ev -> e = wakeup_entry s m ev -> reaches s t 1 e.
Proof.
  intros Ht Hm Hev ->. destruct (resume_wakeup s t m ev Ht Hm Hev) as (s' & Hs & Hp). eapply reaches_step; [done|exact Hs|by apply reaches_0].
Qed.

Lemma reaches_timed_out s t m ev e :
  wq_pcs s !! t = Some RTimedOut -> wq_me s !! t = Some m -> pt_event m = Some ev -> pt_sem m = 1 -> workq_parked_lock s = None ->
  e = wakeup_entry s m ev -> reaches s t 4 e.
Proof.
  intros Ht Hm Hev Hv Hl ->. eapply reaches_step; [done|simpl; unfold wq_lock; by rewrite Hl|].
  eapply reaches_step; [by at_pc|done|]. simpl. rewrite Hm, Hv. simpl.
  eapply reaches_step; [by at_pc|done|].
  by apply (reaches_wakeup _ t m ev); [at_pc|..].
Qed.

(** A worker that was handed a request: it is off the list and its [me] holds
    the request. *)
Definition handed (s : wq) (w : nat) (r : request) : Prop := (w ∉ workq_parked_head s) ∧ carries s w r.

Lemma handed_keeps s s' w r :
  handed s w r -> keeps s s' -> (w ∈ workq_parked_head s' -> w ∈ workq_parked_head s) -> handed s' w r.
Proof. intros [Hn Hc] Hk Hp. split; [auto|by eapply carries_keeps]. Qed.

Lemma handed_sem s w r t l v p : handed s w r -> handed (set_pc (set_sem s l v) t p) w r.
Proof. intros Hh. eapply handed_keeps; [done|apply keeps_sem|]. simpl. by rewrite (proj1 (proj2 (set_sem_same s l v))). Qed.

Lemma handed_eq s s' w r : handed s w r -> wq_me s' = wq_me s -> workq_parked_head s' = workq_parked_head s -> handed s' w r.
Proof. intros Hh Hm Hp. eapply handed_keeps; [done|by apply keeps_eq|by rewrite Hp]. Qed.

(** The semaphore calls only move their thread. *)
Definition sem_call (s : wq) (t : nat) (s' : wq) : Prop := ∃ l v p, s' = set_pc (set_sem s l v) t p.

Lemma up_call s s' t l u go ret : up s t l u go ret = Some s' -> sem_call s t s'.
Proof. unfold up. destruct (sem_up _ u) as [[v k]|]; [|done]. intros [= <-]. by eexists _, _, _. Qed.
Lemma down_call s s' t l d go ret : down s t l d go ret = Some s' -> sem_call s t s'.
Proof. unfold down. destruct (sem_down _ d) as [[v k]|]; [|done]. intros [= <-]. by eexists _, _, _. Qed.
#[local] Hint Resolve up_call down_call : core.

Lemma sems_handed s s' t w r : handed s w r -> sem_call s t s' -> handed s' w r.
Proof. intros Hh (l & v & p & ->). by apply handed_sem. Qed.
Lemma sems_other s s' t w q : sem_call s t s' -> t ≠ w -> wq_pcs s !! w = Some q -> wq_pcs s' !! w = Some q.
Proof. intros (l & v & p & ->) Hne Hw. simpl. rewrite (proj2 (proj2 (set_sem_same s l v))). by rewrite thread_other. Qed.

(** Nobody but the worker itself, when it parks again, takes the request
    away. *)
Lemma thread_step_handed s s' t p w r :
  handed s w r -> (t = w -> p ≠ RInsert) -> thread_step s t p = Some s' -> handed s' w r.
Proof.
  intros Hh Hne Hs. destruct p; simpl in Hs; try discriminate; unfold wq_lock, wq_unlock, through_pending in Hs;
    try (by eapply sems_handed; [|eauto]);
    try (repeat case_match; simplify_eq; by eapply handed_eq).
  - case_match; [destruct (wq_events s !! _); [|done]|]; simplify_eq/=; by eapply handed_eq.
  - simplify_eq. destruct Hh as [Hn (m & Hm & Hc)]. assert (t ≠ w) by (intros E; exact (Hne E eq_refl)). split; [simpl; rewrite elem_of_cons; intros [->|]; done|].
    exists m. split; [|done]. simpl. by rewrite thread_other.
  - case_decide; simplify_eq; [|by eapply handed_eq]. eapply handed_keeps; [done|by apply keeps_eq|]. simpl.
    intros Hin%list_elem_of_filter. tauto.
  - destruct (wq_me s !! t); simplify_eq/=. by eapply handed_eq.
  - destruct (wq_me s !! t) as [m|]; simplify_eq/=. destruct (pt_event m) as [[]|]; simplify_eq; by eapply handed_eq.
  - destruct (workq_parked_head s) as [|x rest] eqn:Hp; simplify_eq; [by eapply handed_eq|].
    destruct (wq_me s !! x) as [m|] eqn:Hm; simplify_eq/=. destruct Hh as [Hn (m' & Hm' & Hc)]. rewrite Hp, elem_of_cons in Hn.
    split; [simpl; tauto|]. exists m'. split; [|done]. simpl. rewrite thread_other; [done|]. intros ->. apply Hn. by left.
  - simplify_eq. destruct Hh as [Hn (m & Hm & Hc)]. split; [done|]. exists m. split; [|done]. simpl. by apply lookup_app_l_Some.
Qed.

(** A step of another thread leaves a thread where it is, and a worker that
    is returning to work goes on to. *)
Lemma thread_step_other s s' t p w q :
  thread_step s t p = Some s' -> t ≠ w -> wq_pcs s !! w = Some q -> wq_pcs s' !! w = Some q.
Proof.
  intros Hs Hne Hw. destruct p; simpl in Hs; try discriminate; unfold wq_lock, wq_unlock, through_pending in Hs;
    try (by eapply sems_other; [eauto|..]);
    try (repeat case_match; simplify_eq/=; by rewrite thread_other).
  - case_match; [destruct (wq_events s !! _); [|done]|]; simplify_eq/=; by rewrite thread_other.
  - destruct (wq_me s !! t) as [m|]; simplify_eq/=. by rewrite thread_other.
  - destruct (wq_me s !! t) as [m|]; simplify_eq/=. destruct (pt_event m) as [[]|]; simplify_eq/=; by rewrite thread_other.
  - destruct (workq_parked_head s) as [|x rest]; simplify_eq/=; [by rewrite thread_other|].
    destruct (wq_me s !! x); simplify_eq/=. by rewrite thread_other.
  - simplify_eq/=. apply lookup_app_l_Some. by rewrite thread_other.
Qed.
Definition outside (p : wq_pc) : bool := match p with Running _ => true | _ => false end.

(** Where a worker that returns to work can be next. *)
Lemma worker_own s s' w p :
  wq_pcs s !! w = Some p -> returning p = true -> thread_step s w p = Some s' ->
  ∃ p', wq_pcs s' !! w = Some p' ∧ (returning p' = true ∨ outside p' = true ∨ p' = RRemove ∨ p' = CrashEvent).
Proof.
  intros Hw Hp Hs. destruct p; simpl in Hp, Hs; try discriminate; unfold up, down, wq_lock, wq_unlock in Hs;
    try (destruct (sem_up _ _) as [[v k]|]; [|done]); try (destruct (sem_down _ _) as [[v k]|]; [|done]);
    try (destruct (wq_me s !! w) as [m|]; simpl in Hs; [|done]; destruct (pt_event m) as [ev|]);
    try (destruct (workq_parked_lock s); [done|]); apply (inj Some) in Hs as <-;
    (eexists; split; [unfold set_pc; simpl; rewrite ?(proj2 (proj2 (set_sem_same _ _ _))); try destruct ev; simpl; apply thread_at; eauto|]);
    repeat case_match; simpl; auto.
Qed.

Lemma worker_next a s s' w p :
  wq_pcs s !! w = Some p -> returning p = true -> wq_step a s = Some s' ->
  ∃ p', wq_pcs s' !! w = Some p' ∧ (returning p' = true ∨ outside p' = true ∨ p' = RRemove ∨ p' = CrashEvent).
Proof.
  intros Hw Hp Hs. assert (∀ t p', t ≠ w -> wq_pcs (set_pc s t p') !! w = Some p) as Hoth by (intros t p' Hne; simpl; by rewrite thread_other).
  destruct a as [t o i af pr|t e|t|t x|t ok]; simpl in Hs.
  - destruct (wq_pcs s !! t) as [q|] eqn:Ht; [|done]. assert (t ≠ w ∨ q = p) as [Hne| ->] by (destruct (decide (t = w)) as [->|]; [right; congruence|by left]); [|by destruct p].
    destruct q; try discriminate. case_match; simplify_eq; eauto.
  - destruct (wq_pcs s !! t) as [q|] eqn:Ht; [|done]. destruct q; try discriminate. simplify_eq.
    exists p. split; [|by left]. apply Hoth. intros ->. simplify_eq.
  - destruct (wq_pcs s !! t) as [q|] eqn:Ht; simpl in Hs; [|done]. destruct (decide (t = w)) as [->|Hne].
    + simplify_eq. by eapply worker_own.
    + exists p. split; [by eapply thread_step_other|by left].
  - destruct (wq_pcs s !! t) as [q|] eqn:Ht; simpl in Hs; [|done]. destruct (wakes q) as [[l q']|] eqn:Hwk; simpl in Hs; [|done].
    assert (∀ s, wq_pcs s !! w = Some p -> t = w -> ∃ p', wq_pcs (set_pc s t q') !! w = Some p' ∧ returning p' = true) as Hself.
    { intros s0 Hw0 ->. simplify_eq. eexists. split; [simpl; apply thread_at; eauto|]. destruct p; simpl in Hwk; try discriminate; destruct u; by simplify_eq. }
    destruct x as [x|].
    + destruct (wq_pcs s !! x) as [y|] eqn:Hx; simpl in Hs; [|done]. destruct (sleeper s l x) eqn:Hsl; [|done]. simplify_eq.
      assert (x ≠ t) by by eapply futex_woken. destruct (decide (x = w)) as [->|Hxw].
      * simplify_eq. exists (futex_returns p true). split; [simpl; rewrite thread_other by done; apply thread_at; eauto|left]. by destruct p.
      * destruct (decide (t = w)) as [Htw|Htw]; [destruct (Hself _ (Hoth x (futex_returns y true) Hxw) Htw) as (p' & ? & ?); eauto|].
        exists p. split; [|by left]. simpl. rewrite !thread_other by done. done.
    + destruct (existsb _ _); simplify_eq. destruct (decide (t = w)) as [Htw|Htw]; [destruct (Hself s Hw Htw) as (p' & ? & ?); eauto|eauto].
  - destruct (wq_pcs s !! t) as [q|] eqn:Ht; simpl in Hs; [|done]. destruct (sleeps_on t q) eqn:Hsl; simplify_eq.
    destruct (decide (t = w)) as [->|Htw]; [|eauto]. simplify_eq. exists (futex_returns p ok).
    split; [simpl; apply thread_at; eauto|left]. destruct p; try discriminate; by destruct ok.
Qed.

Lemma step_handed a s s' w r p :
  handed s w r -> wq_pcs s !! w = Some p -> returning p = true -> wq_step a s = Some s' -> handed s' w r.
Proof.
  intros Hh Hw Hp Hs. destruct a as [t o i af pr|t e|t|t x|t ok]; simpl in Hs.
  - destruct (wq_pcs s !! t) as [[]|]; try discriminate. case_match; simplify_eq; [by eapply handed_eq|done].
  - destruct (wq_pcs s !! t) as [[]|]; simplify_eq. by eapply handed_eq.
  - destruct (wq_pcs s !! t) as [q|] eqn:Ht; simpl in Hs; [|done]. eapply thread_step_handed; [done| |exact Hs]. intros -> ->. by simplify_eq.
  - destruct (wq_pcs s !! t) as [q|]; simpl in Hs; [|done]. destruct (wakes q) as [[l q']|]; simpl in Hs; [|done]. destruct x as [x|].
    + destruct (wq_pcs s !! x); simpl in Hs; [|done]. destruct (sleeper s l x); simplify_eq. by eapply handed_eq.
    + destruct (existsb _ _); simplify_eq. by eapply handed_eq.
  - destruct (wq_pcs s !! t) as [q|]; simpl in Hs; [|done]. destruct (sleeps_on t q); simplify_eq. by eapply handed_eq.
Qed.

(** The worker has not returned to user code in any state of the execution. *)
Fixpoint not_resumed (w : nat) (l : list wq_action) (s : wq) : Prop :=
  (∀ e, wq_pcs s !! w ≠ Some (Running e)) ∧
  match l with
  | [] => True
  | a :: l => match orderly_step a s with Some s' => not_resumed w l s' | None => True end
  end.

Lemma not_resumed_now w l s : not_resumed w l s -> ∀ e, wq_pcs s !! w ≠ Some (Running e).
Proof. by destruct l; intros []. Qed.

(** It stays on its way to work, with its request. *)
Definition on_its_way (s : wq) (w : nat) (r : request) : Prop :=
  handed s w r ∧ ∃ p, wq_pcs s !! w = Some p ∧ returning p = true.

Lemma on_its_way_exec l s s' w r :
  reachable orderly_step wq_init s -> on_its_way s w r -> not_resumed w l s -> exec orderly_step l s = Some s' ->
  reachable orderly_step wq_init s' ∧ on_its_way s' w r.
Proof.
  revert s. induction l as [|a l IH]; intros s Hr Hw Hn He; simpl in He; [by simplify_eq|].
  destruct (orderly_step a s) as [s1|] eqn:Ea; simpl in He; [|done]. destruct Hn as [_ Hn]. rewrite Ea in Hn.
  assert (reachable orderly_step wq_init s1) as Hr1 by by eapply reach_step. eapply IH; [done| |done|done].
  destruct (orderly_reachable s1 Hr1) as (Hi1 & _ & Ho1). pose proof (not_resumed_now _ _ _ Hn) as Hrun.
  destruct Hw as (Hh & p & Hp & Hret). assert (wq_step a s = Some s1) as Es by (unfold orderly_step in Ea; by destruct (race a s)).
  assert (handed s1 w r) as Hh1 by by eapply step_handed. split; [done|].
  destruct (worker_next a s s1 w p Hp Hret Es) as (p' & Hp' & Hcase). exists p'. split; [done|].
  destruct Hcase as [|[Ho|[->| ->]]]; [done|..].
  - destruct p'; try discriminate. by destruct (Hrun entry).
  - destruct Hh1 as [Hn1 _]. by destruct Hn1; apply remove_parked.
  - destruct (me_some s1 w _ Hi1 Hp') as (m & _ & K). by destruct (ok_crash _ _ _ _ K).
Qed.

(** Taking a worker from the list hands it the request. *)
Lemma pick_hands s q n r w rest s' :
  wq_inv s -> wq_pcs s !! q = Some (QPick n r) -> workq_parked_head s = w :: rest -> wq_step (Step q) s = Some s' -> on_its_way s' w r.
Proof.
  intros Hi Hq Hp Hs. simpl in Hs. rewrite Hq in Hs. simpl in Hs. rewrite Hp in Hs.
  destruct (lookup_lt_is_Some_2 (wq_pcs s) w) as [p Hw]; [apply (inv_range s Hi); left; rewrite Hp; by left|].
  destruct (me_some s w p Hi Hw) as (m & Hm & K). rewrite Hm in Hs. simpl in Hs. simplify_eq.
  pose proof (ok_quiet _ _ _ _ K) as Hqt. rewrite Hp in Hqt. specialize (Hqt (list_elem_of_here _ _)).
  pose proof (inv_nodup s Hi) as Hnd. rewrite Hp in Hnd. apply NoDup_cons in Hnd as [Hnw _].
  assert (q ≠ w) as Hne by (intros ->; by simplify_eq).
  split; [split; [done|]|].
  - eexists. split; [simpl; apply thread_at; eauto|done].
  - exists p. split; [simpl; by rewrite thread_other|]. destruct p; try done.
    by destruct (Hne (holder_unique s q w _ _ Hi Hq Hw eq_refl eq_refl)).
Qed.

(** A worker on its way finishes, when the lock is free. *)
Lemma on_its_way_resumes s w r :
  reachable orderly_step wq_init s -> on_its_way s w r -> workq_parked_lock s = None ->
  ∃ k m, (k ≤ 5)%nat ∧ pt_flags m = q_flags r ∧ reaches s w k (wakeup_entry s m (q_event r)).
Proof.
  intros (Hi & _ & Ho)%orderly_reachable ([Hn (m & Hm & Hf & Hev)] & p & Hp & Hret) Hl.
  assert (signalling s w = None) as Hg by (unfold signalling; by rewrite Hl).
  pose proof (waiting_handover s w p m Hi Ho Hp Hm Hg Hn) as Hh.
  assert (holds p = false) as Hfree. { destruct (me_some s w p Hi Hp) as (m' & _ & K). pose proof (ok_lock _ _ _ _ K) as Hk. rewrite Hl in Hk. destruct (holds p); [|done]. by discriminate (proj2 Hk eq_refl). }
  destruct p; try discriminate; unfold handover in Hh; simpl in Hh.
  - assert (pt_sem m = 1) as Hv by lia. destruct d; simpl in Hh; try (rewrite andb_false_r in Hh; discriminate).
    + exists 2%nat, m. split_and!; [lia|done|]. eapply reaches_step; [done|simpl; unfold down; simpl; rewrite Hm, Hv; done|].
      eapply (reaches_wakeup _ w (ParkedThread 0 (pt_flags m) (pt_event m))); [by at_pc|by at_pc|done|done].
    + exists 5%nat, m. split_and!; [lia|done|]. eapply reaches_step; [done|simpl; unfold down; simpl; rewrite Hm, Hv; done|].
      eapply (reaches_timed_out _ w (ParkedThread 1 (pt_flags m) (pt_event m))); [by at_pc|by at_pc|done..].
  - exists 4%nat, m. split_and!; [lia|done|]. eapply (reaches_timed_out s w m (q_event r)); try done; lia.
  - exists 1%nat, m. split_and!; [lia|done|]. by eapply (reaches_wakeup s w m (q_event r)).
Qed.

(** C39: hand-over.  In an orderly execution (no signal falls between a
    worker's decrement of its semaphore and the store that follows), a
    requester takes a worker from the list.  From then on, whatever the
    threads do, in every later state in which the lock is free and the worker
    has not yet returned to user code, at most five steps of its own bring it
    there, with the flags and the event of that request. *)
Theorem worker_resumes s0 q n r w rest s1 l s :
  reachable orderly_step wq_init s0 -> wq_pcs s0 !! q = Some (QPick n r) -> workq_parked_head s0 = w :: rest ->
  orderly_step (Step q) s0 = Some s1 -> exec orderly_step l s1 = Some s -> not_resumed w l s1 ->
  workq_parked_lock s = None ->
  ∃ k s' e, (k ≤ 5)%nat ∧ exec wq_step (replicate k (Step w)) s = Some s' ∧ wq_pcs s' !! w = Some (Running (Some e)) ∧
    e_flags e = Z.lor (q_flags r) WQ_FLAG_THREAD_REUSE ∧ e_event e = q_event r.
Proof.
  intros Hr0 Hq Hp Hs1 He Hn Hl. destruct (orderly_reachable s0 Hr0) as (Hi & _ & _).
  assert (wq_step (Step q) s0 = Some s1) as Es by (unfold orderly_step in Hs1; by destruct (race _ s0)).
  destruct (on_its_way_exec l s1 s w r) as [Hr Hw]; [by eapply reach_step|by eapply pick_hands|done|done|].
  destruct (on_its_way_resumes s w r Hr Hw Hl) as (k & m & Hk & Hf & s' & Hx & Hs').
  exists k, s', (wakeup_entry s m (q_event r)). split_and!; [done..|simpl; by rewrite Hf|done].
Qed.

(** Two workers return while an event is pending: the pointer is read again
    for every use, and the second worker finds the null pointer that the
    first one has stored. *)
Theorem pending_event_race :
  (λ s, wq_pcs s !! 1%nat) <$> exec wq_step
    (Call 2 WQOPS_QUEUE_REQTHREAD_FOR_KEVENT (Some 0%nat) 0 0 :: replicate 5 (Step 2) ++
     [Call 0 WQOPS_THREAD_KEVENT_RETURN None 1 0; Step 0; Call 1 WQOPS_THREAD_KEVENT_RETURN None 1 0; Step 1] ++
     replicate 4 (Step 0) ++ [Step 1]) (fresh 3 [KeventData 0 0]) = Some (Some CrashPending).
Proof. vm_compute. reflexivity. Qed.

(** The signal that comes between a worker's
    decrement of its semaphore and the store that follows is lost: the worker
    sleeps although it was taken off the list, and when its wait times out it
    takes itself off the list once more, through the links the requester has
    left behind. *)
Theorem lost_signal_corrupts_list :
  let race := park 0 ++ ask 1 ++ [WakeOne 1 None; Step 1; Step 0; Step 0] in
  (λ s, (wq_pcs s, workq_parked_head s, workq_parked_lock s)) <$> exec wq_step race (fresh 2 []) = Some ([RDown DSleep; Running None], [], None) ∧
  (λ s, wq_pcs s !! 0%nat) <$> exec wq_step (race ++ [Returns 0 false; Step 0; Step 0; Step 0]) (fresh 2 []) = Some (Some CrashRemove).
Proof. split; vm_compute; reflexivity. Qed.
End Theorems.

(** *** Examples *)

(** A concrete libpthread. *)
Module Example.
#[export] Instance pthread : Pthread := {| _pthread_priority_thread_qos := λ p, Z.land p 7; thread_qos := λ _, 0 |}.

(** Thread 0 parks and waits; thread 1's request takes it off the list. *)
Definition signalled : list wq_action := park 0 ++ [Step 0; Step 0] ++ ask 1.
(** The same up to the point where the requester looks at the list. *)
Definition picking : list wq_action := park 0 ++ [Step 0; Step 0; Call 1 WQOPS_QUEUE_REQTHREADS None 1 0; Step 1; Step 1].
(** The requester has finished. *)
Definition woken : list wq_action := signalled ++ [WakeOne 1 (Some 0%nat); Step 1].

Definition wq_run (l : list wq_action) : wq := default (fresh 0 []) (exec orderly_step l (fresh 2 [])).

Lemma run_reachable l : is_Some (exec orderly_step l (fresh 2 [])) -> reachable orderly_step wq_init (wq_run l).
Proof.
  unfold wq_run. destruct (exec orderly_step l (fresh 2 [])) as [s|] eqn:E; [|by intros [? [=]]]. intros _. simpl.
  eapply exec_reachable; [|exact E]. apply reach_init, wq_fresh_init.
Qed.

Lemma run_step_reachable l : exec wq_step l (fresh 2 []) = Some (wq_run l) -> reachable wq_step wq_init (wq_run l).
Proof. intros E. eapply exec_reachable; [|exact E]. apply reach_init, wq_fresh_init. Qed.
End Example.
Import Example.

Lemma workq_safe_witness :
  reachable wq_step wq_init (Example.wq_run (park 0)) ∧ workq_parked_head (Example.wq_run (park 0)) = [0%nat] ∧ NoDup (workq_parked_head (Example.wq_run (park 0))).
Proof.
  assert (reachable wq_step wq_init (Example.wq_run (park 0))) as Hr by (apply Example.run_step_reachable; vm_compute; reflexivity).
  split_and!; [exact Hr|vm_compute; reflexivity|]. apply (workq_safe _ Hr).
  intros t. vm_compute. destruct t as [|[|]]; discriminate.
Defined.

Lemma orderly_no_lost_wakeup_witness :
  reachable orderly_step wq_init (Example.wq_run Example.signalled) ∧
  wq_pcs (Example.wq_run Example.signalled) !! 0%nat = Some (RDown DSleep) ∧
  (0%nat ∈ workq_parked_head (Example.wq_run Example.signalled) ∨ ∃ u, signalling (Example.wq_run Example.signalled) 0 = Some u).
Proof.
  assert (reachable orderly_step wq_init (Example.wq_run Example.signalled)) as Hr
    by (apply Example.run_reachable; vm_compute; eexists; reflexivity).
  split_and!; [exact Hr|vm_compute; reflexivity|].
  apply (proj1 (proj2 (proj2 (orderly_no_lost_wakeup _ Hr)))). vm_compute. reflexivity.
Defined.

Lemma worker_resumes_witness :
  ∃ k s' e, (k ≤ 5)%nat ∧ exec wq_step (replicate k (Step 0)) (Example.wq_run Example.woken) = Some s' ∧
    wq_pcs s' !! 0%nat = Some (Running (Some e)) ∧
    e_flags e = Z.lor (extract_wq_flags 0) WQ_FLAG_THREAD_REUSE ∧ e_event e = None.
Proof.
  eapply (worker_resumes (Example.wq_run Example.picking) 1 1 (Request (extract_wq_flags 0) None) 0 [] _
            [Step 1; Step 1; WakeOne 1 (Some 0%nat); Step 1]).
  - apply Example.run_reachable. vm_compute. eexists. reflexivity.
  - vm_compute. reflexivity.
  - vm_compute. reflexivity.
  - vm_compute. reflexivity.
  - vm_compute. reflexivity.
  - vm_compute. repeat split; discriminate.
  - vm_compute. reflexivity.
Defined.
