(* ===== verification/XtraceLock.v ===== *)
(** * The locks of xtrace

    xtrace/lock.c: a mutex and a once flag on top of futexes, because the
    tracer cannot use the locks of the traced process. *)
From S2P Require Import Prelude Conc.

(** [cmpxchg_wrapper_u32]: the value that was there, and the new one. *)
Definition cmpxchg_wrapper_u32 (atom expected desired : Z) : Z * Z :=
  (atom, if atom =? expected then desired else atom).

Module Lock.

Definition unlocked : Z := 0.
Definition locked_uncontended : Z := 1.
Definition locked_contended : Z := 2.

(** Where a thread is in [xtrace_lock_lock] and [xtrace_lock_unlock]. *)
Inductive lock_pc : Set :=
| Out                     (* not using the lock *)
| First                   (* before the first exchange *)
| Loop (prev : Z)         (* at the top of the do loop *)
| Wait                    (* before FUTEX_WAIT *)
| Sleep                   (* inside FUTEX_WAIT *)
| Retry                   (* before the exchange of the loop condition *)
| Held                    (* xtrace_lock_lock has returned *)
| Wake.                   (* in xtrace_lock_unlock, before FUTEX_WAKE *)

#[export] Instance lock_pc_eq_dec : EqDecision lock_pc.
Proof. solve_decision. Defined.

Record lock := MkLock { state : Z; threads : list lock_pc }.

(** Steps a thread can make on its own: the new value of the lock word and
    the new program counter. *)
Definition xtrace_lock_lock (s : Z) (p : lock_pc) : option (Z * lock_pc) :=
  match p with
  | First =>
      let '(prev, s) := cmpxchg_wrapper_u32 s unlocked locked_uncontended in
      Some (s, if prev =? unlocked then Held else Loop prev)
  | Loop prev =>
      if prev =? locked_contended then Some (s, Wait)
      else
        let '(old, s) := cmpxchg_wrapper_u32 s locked_uncontended locked_contended in
        Some (s, if old =? unlocked then Retry else Wait)
  | Wait => Some (s, futex_wait s locked_contended Sleep Retry)
  | Retry =>
      let '(prev, s) := cmpxchg_wrapper_u32 s unlocked locked_contended in
      Some (s, if prev =? unlocked then Held else Loop prev)
  | _ => None
  end.

Definition xtrace_lock_unlock (s : Z) (p : lock_pc) : option (Z * lock_pc) :=
  match p with
  | Held => Some (unlocked, if s =? locked_contended then Wake else Out)
  | _ => None
  end.

Inductive lock_action : Set :=
| Start (t : nat)                  (* [t] calls xtrace_lock_lock *)
| Acquire (t : nat)                (* [t] makes a step in it *)
| Release (t : nat)                (* [t] calls xtrace_lock_unlock *)
| WakeOne (t : nat) (w : option nat)  (* FUTEX_WAKE of [t] wakes [w], if there is a sleeper *)
| Interrupt (t : nat).             (* FUTEX_WAIT of [t] returns without a wake-up *)

Definition asleep (l : list lock_pc) (t : nat) : bool := match l !! t with Some Sleep => true | _ => false end.
Definition sleepers (l : list lock_pc) : bool := existsb (λ p, match p with Sleep => true | _ => false end) l.

Definition move (l : lock) (t : nat) (r : option (Z * lock_pc)) : option lock :=
  '(s, p) ← r; Some (MkLock s (<[t := p]> (threads l))).

Definition lock_step (a : lock_action) (l : lock) : option lock :=
  match a with
  | Start t => match threads l !! t with Some Out => move l t (Some (state l, First)) | _ => None end
  | Acquire t => p ← threads l !! t; move l t (xtrace_lock_lock (state l) p)
  | Release t => p ← threads l !! t; move l t (xtrace_lock_unlock (state l) p)
  | WakeOne t w =>
      match threads l !! t with
      | Some Wake =>
        match w with
        | Some w => if asleep (threads l) w then Some (MkLock (state l) (<[t := Out]> (<[w := Retry]> (threads l)))) else None
        | None => if sleepers (threads l) then None else move l t (Some (state l, Out))
        end
      | _ => None
      end
  | Interrupt t => if asleep (threads l) t then move l t (Some (state l, Retry)) else None
  end.

(** XTRACE_LOCK_INITIALIZER, used by any number of threads. *)
Definition lock_init (l : lock) : Prop := state l = unlocked ∧ Forall (eq Out) (threads l).

(** ** Invariants *)

(** Awake inside [xtrace_lock_lock] after having seen the lock taken. *)
Definition contending (p : lock_pc) : bool :=
  match p with Loop _ | Wait | Retry => true | _ => false end.

(** The lock word says whether the lock is held, one thread holds it at a
    time, and a sleeper is never forgotten: the word says that there are
    waiters, or a wake-up is on its way, or a thread that will set the word
    is on its way. *)
Record lock_inv (l : lock) : Prop := {
  inv_word : state l = unlocked ∨ state l = locked_uncontended ∨ state l = locked_contended;
  inv_free : state l = unlocked -> ∀ t, threads l !! t ≠ Some Held;
  inv_held : state l ≠ unlocked -> ∃ t, threads l !! t = Some Held;
  inv_one : ∀ t u, threads l !! t = Some Held -> threads l !! u = Some Held -> t = u;
  inv_prev : ∀ t prev, threads l !! t = Some (Loop prev) -> prev ≠ unlocked;
  inv_sleep : ∀ t, threads l !! t = Some Sleep ->
    state l = locked_contended ∨ ∃ u p, threads l !! u = Some p ∧ (p = Wake ∨ contending p = true) }.

Lemma asleep_true l t : asleep l t = true -> l !! t = Some Sleep.
Proof. unfold asleep. destruct (l !! t) as [[]|]; done. Qed.

Lemma sleepers_false l t : sleepers l = false -> l !! t ≠ Some Sleep.
Proof.
  unfold sleepers. intros Hf Ht. apply not_true_iff_false in Hf. apply Hf, existsb_exists.
  exists Sleep. split; [|done]. eapply list_elem_of_In, list_elem_of_lookup_2, Ht.
Qed.

Ltac lock_case := unfold futex_wait, unlocked, locked_uncontended, locked_contended in *; case_cmp.

Lemma lock_init_inv l : lock_init l -> lock_inv l.
Proof.
  intros [Hs Hall]. assert (∀ t p, threads l !! t = Some p -> p = Out) as Hout.
  { intros t p Hp. by eapply Forall_lookup_1 in Hall. }
  constructor; [auto|..]; try by intros ?; naive_solver.
Qed.

(** What a step of one thread must respect. *)
Record good_move (l : lock) (t : nat) (p : lock_pc) (s' : Z) (p' : lock_pc) : Prop := {
  mv_word : s' = unlocked ∨ s' = locked_uncontended ∨ s' = locked_contended;
  mv_take : p' = Held -> state l = unlocked ∧ s' ≠ unlocked;
  mv_give : p = Held -> s' = unlocked ∧ p' ≠ Held;
  mv_keep : p ≠ Held -> p' ≠ Held -> s' = unlocked <-> state l = unlocked;
  mv_prev : ∀ prev, p' = Loop prev -> prev ≠ unlocked;
  mv_sleep : p' = Sleep -> s' = locked_contended;
  mv_contended : state l = locked_contended -> s' = locked_contended ∨ p' = Wake;
  mv_duty : p = Wake ∨ contending p = true ->
    s' = locked_contended ∨ contending p' = true ∨ (∀ u, threads l !! u ≠ Some Sleep) ∨
    ∃ u q, u ≠ t ∧ threads l !! u = Some q ∧ contending q = true }.

Lemma good_move_inv l t p s' p' :
  threads l !! t = Some p -> lock_inv l -> good_move l t p s' p' ->
  lock_inv (MkLock s' (<[t := p']> (threads l))).
Proof.
  intros Ht [Iw If Ih Io Ip Is] [Mw Mt Mg Mk Mp Ms Mc Md]. constructor; cbn [state threads]; [done|..].
  - intros Hs u Hu. thread_cases; [by destruct (Mt eq_refl)|]. destruct (decide (p = Held)) as [->|Hp]; [by destruct (Io t u)|].
    destruct (decide (p' = Held)) as [Hp'|Hp']; [by destruct (Mt Hp')|]. by eapply If; [apply Mk|].
  - intros Hs. destruct (decide (p' = Held)) as [->|Hp']; [exists t; by apply thread_at|].
    destruct (decide (p = Held)) as [Hp|Hp]; [by destruct (Mg Hp)|].
    destruct Ih as [u Hu]; [by rewrite <- Mk|]. exists u. rewrite thread_other; [done|]. congruence.
  - assert (∀ w, threads l !! w = Some Held -> p' = Held -> False) as Hold.
    { intros w Hw Hp'. destruct (Mt Hp') as [H0 _]. by apply (If H0 w). }
    intros u v Hu Hv. thread_cases; [done|by exfalso; eauto..|by eapply Io].
  - intros u prev Hu. thread_cases; [by eapply Mp|by eapply Ip].
  - intros u Hu. destruct (decide (s' = locked_contended)) as [|Hs']; [by left|right].
    assert (contending p' = true ∨ p' = Wake -> ∃ v q, <[t := p']> (threads l) !! v = Some q ∧ (q = Wake ∨ contending q = true)) as Hself.
    { intros Hc. exists t, p'. rewrite thread_at by done. by destruct Hc; auto. }
    thread_cases; [by destruct Hs'; apply Ms|]. destruct (Is u) as [Hc|(v & q & Hv & Hq)]; [done| |].
    { destruct (Mc Hc); [done|by auto]. }
    destruct (decide (v = t)) as [->|Hne]; [|exists v, q; by rewrite thread_other].
    simplify_eq. destruct (Md Hq) as [|[|[Hno|(w & q' & Hw & Hq' & ?)]]]; [done|by auto|by destruct (Hno u)|].
    exists w, q'. rewrite thread_other by done. by auto.
Qed.

(** The conditions of a move between known program counters. *)
Ltac move_cond :=
  constructor; unfold unlocked, locked_uncontended, locked_contended in *; cbn [contending] in *; intros;
  destruct_or?; simplify_eq; try done; try lia; try (split; [lia|done]); try (right; done); eauto 6.

Lemma acquire_move l t p s' p' :
  lock_inv l -> threads l !! t = Some p -> xtrace_lock_lock (state l) p = Some (s', p') -> good_move l t p s' p'.
Proof.
  intros Hi Ht Hs. pose proof (inv_word l Hi) as Hw. pose proof (inv_prev l Hi t) as Hp. clear Hi.
  revert Hs. destruct p; simpl; try done; lock_case; intros; simplify_eq; move_cond.
Qed.

Lemma release_move l t p s' p' :
  lock_inv l -> threads l !! t = Some p -> xtrace_lock_unlock (state l) p = Some (s', p') -> good_move l t p s' p'.
Proof.
  intros Hi Ht Hs. pose proof (inv_word l Hi) as Hw. clear Hi.
  revert Hs. destruct p; simpl; try done; lock_case; intros; simplify_eq; move_cond.
Qed.

Lemma lock_step_inv a l l' : lock_inv l -> lock_step a l = Some l' -> lock_inv l'.
Proof.
  intros Hi Hs. pose proof (inv_word l Hi). destruct a as [t|t|t|t [w|]|t]; simpl in Hs.
  - destruct (threads l !! t) as [[]|] eqn:Ht; simplify_eq/=. eapply good_move_inv; [done..|].
    constructor; naive_solver.
  - destruct (threads l !! t) as [p|] eqn:Ht; simplify_eq/=. destruct (xtrace_lock_lock _ p) as [[s' p']|] eqn:E; simplify_eq/=.
    eapply good_move_inv; eauto using acquire_move.
  - destruct (threads l !! t) as [p|] eqn:Ht; simplify_eq/=. destruct (xtrace_lock_unlock _ p) as [[s' p']|] eqn:E; simplify_eq/=.
    eapply good_move_inv; eauto using release_move.
  - destruct (threads l !! t) as [[]|] eqn:Ht; simplify_eq/=. destruct (asleep _ w) eqn:E; simplify_eq.
    apply asleep_true in E. assert (t ≠ w) by congruence. rename Ht into Hw.
    apply (good_move_inv (MkLock (state l) (<[w := Retry]> (threads l))) t Wake); [by rewrite <- Hw; apply thread_other| |].
    + eapply good_move_inv; [done..|]. constructor; naive_solver.
    + constructor; simpl; [done|naive_solver..|]. intros _. do 3 right. exists w, Retry.
      split; [done|]. split; [by apply thread_at|done].
  - destruct (threads l !! t) as [[]|] eqn:Ht; simplify_eq/=. destruct (sleepers _) eqn:E; simplify_eq.
    eapply good_move_inv; [done..|]. pose proof (λ u, sleepers_false _ u E). constructor; naive_solver.
  - destruct (asleep _ t) eqn:E; simplify_eq/=. apply asleep_true in E.
    eapply good_move_inv; [done..|]. constructor; naive_solver.
Qed.

Lemma lock_reachable_inv l : reachable lock_step lock_init l -> lock_inv l.
Proof. apply reachable_invariant; [apply lock_init_inv|]. intros a s s'. apply lock_step_inv. Qed.

(** ** Theorems *)

(** C8: the lock is exclusive.  Whatever the scheduler, the signals and the kernel
    do, at most one of any number of threads is between the return of
    xtrace_lock_lock and the call of xtrace_lock_unlock, and the lock word is
    zero exactly when no thread is. *)
Theorem lock_exclusive l :
  reachable lock_step lock_init l ->
  (∀ t u, threads l !! t = Some Held -> threads l !! u = Some Held -> t = u) ∧
  (state l = unlocked <-> ∀ t, threads l !! t ≠ Some Held).
Proof.
  intros [_ Hf Hh Ho _ _]%lock_reachable_inv. split; [done|]. split; [done|]. intros Hno.
  destruct (decide (state l = unlocked)) as [|Hne]; [done|]. destruct (Hh Hne) as [t Ht]. by destruct (Hno t).
Qed.

(** Three threads: the first holds the lock, the second sleeps, the third
    has just become a waiter. *)
Definition lock_example : list lock_action :=
  [Start 0; Acquire 0; Start 1; Acquire 1; Acquire 1; Acquire 1; Start 2; Acquire 2; Acquire 2]%nat.
Definition fresh_lock (n : nat) : lock := MkLock unlocked (replicate n Out).

Lemma lock_fresh_init n : lock_init (fresh_lock n).
Proof. split; [done|]. by apply Forall_replicate. Qed.

Lemma lock_example_reachable : ∃ l, exec lock_step lock_example (fresh_lock 3) = Some l ∧ reachable lock_step lock_init l ∧
  threads l = [Held; Sleep; Wait] ∧ state l = locked_contended.
Proof.
  eexists. split; [reflexivity|]. split; [|done].
  eapply (exec_reachable _ _ lock_example (fresh_lock 3)); [|reflexivity]. apply reach_init, lock_fresh_init.
Qed.

Lemma lock_exclusive_witness : ∃ l, reachable lock_step lock_init l ∧ threads l !! 0%nat = Some Held ∧
  (∀ u, threads l !! u = Some Held -> u = 0%nat).
Proof.
  destruct lock_example_reachable as (l & _ & Hr & Ht & _). exists l. split; [done|]. rewrite Ht. split; [done|].
  intros u Hu. apply (proj1 (lock_exclusive l Hr)); rewrite Ht; done.
Defined.

(** Inside [xtrace_lock_lock]. *)
Definition acquiring (p : lock_pc) : bool :=
  match p with First | Loop _ | Wait | Sleep | Retry => true | _ => false end.

(** Steps of calls that have begun: no new call of xtrace_lock_lock, no
    unlock, and no signal, timeout or spurious wake-up. *)
Definition in_progress (a : lock_action) : bool := match a with Acquire _ | WakeOne _ _ => true | _ => false end.

(** A free lock is taken by an awake contender in at most three steps. *)
Lemma awake_acquires l u p :
  threads l !! u = Some p -> acquiring p = true -> p ≠ Sleep -> (∀ prev, p = Loop prev -> prev ≠ unlocked) ->
  state l = unlocked ->
  ∃ n l', (n <= 3)%nat ∧ exec lock_step (replicate n (Acquire u)) l = Some l' ∧ threads l' !! u = Some Held.
Proof.
  destruct l as [s ths]. cbn [state threads]. intros Hu Ha Hs Hp ->.
  assert (∀ q, <[u := q]> ths !! u = Some q) as Hat by (intros q; by apply thread_at).
  destruct p as [| |prev| | | | |]; try done.
  - exists 1%nat. eexists. split; [lia|]. simpl. rewrite Hu. simpl. split; [done|apply Hat].
  - destruct (decide (prev = 2)) as [->|Hne].
    + exists 3%nat. eexists. split; [lia|]. simpl. rewrite Hu. simpl. rewrite Hat. simpl.
      rewrite list_insert_insert_eq, Hat. simpl. split; [done|]. cbn. by rewrite list_insert_insert_eq.
    + exists 2%nat. eexists. split; [lia|]. simpl. rewrite Hu. simpl. unfold locked_contended. apply Z.eqb_neq in Hne.
      rewrite Hne. simpl. rewrite Hat. simpl. split; [done|]. cbn. by rewrite list_insert_insert_eq.
  - exists 2%nat. eexists. split; [lia|]. simpl. rewrite Hu. simpl. rewrite Hat. simpl.
    split; [done|]. cbn. by rewrite list_insert_insert_eq.
  - exists 1%nat. eexists. split; [lia|]. simpl. rewrite Hu. simpl. split; [done|apply Hat].
Qed.

(** C17: no wake-up is lost.  When the lock is free and a thread wants it, at most
    four steps of calls that have begun (no new call, no signal, timeout or
    spurious wake-up among them) lead to a thread holding it, even if the only
    thread that wants it is asleep in the kernel. *)
Theorem lock_no_lost_wakeup l t p :
  reachable lock_step lock_init l -> state l = unlocked -> threads l !! t = Some p -> acquiring p = true ->
  ∃ acts l' u, (length acts <= 4)%nat ∧ Forall (λ a, in_progress a = true) acts ∧
    exec lock_step acts l = Some l' ∧ threads l' !! u = Some Held.
Proof.
  intros Hr Hs Ht Ha. apply lock_reachable_inv in Hr as Hi.
  assert (∀ u q, threads l !! u = Some q -> acquiring q = true -> q ≠ Sleep ->
    ∃ acts l' u, (length acts <= 4)%nat ∧ Forall (λ a, in_progress a = true) acts ∧
    exec lock_step acts l = Some l' ∧ threads l' !! u = Some Held) as Hawake.
  { intros u q Hu Hq Hne. destruct (awake_acquires l u q) as (n & l' & Hn & He & Hh); [done..| |done|].
    { intros prev ->. by eapply inv_prev. }
    exists (replicate n (Acquire u)), l', u. rewrite length_replicate. split; [lia|]. split; [by apply Forall_replicate|done]. }
  destruct (decide (p = Sleep)) as [->|]; [|by eapply Hawake].
  destruct (inv_sleep l Hi t Ht) as [Hc|(u & q & Hu & [->|Hq])]; [by rewrite Hs in Hc| |by eapply (Hawake u q); destruct q].
  exists [WakeOne u (Some t); Acquire t]. eexists _, t. split; [simpl; lia|]. split; [by repeat constructor|].
  simpl. rewrite Hu. unfold asleep. rewrite Ht. simpl.
  rewrite list_lookup_insert_ne by congruence. rewrite (thread_at (threads l)) by done. simpl. rewrite Hs. simpl.
  split; [done|]. cbn. apply thread_at. rewrite list_lookup_insert_ne by congruence. rewrite thread_at by done. by eexists.
Qed.

(** After the holder of the example has unlocked, the sleeper is on its own
    once the third thread gives way. *)
Lemma lock_no_lost_wakeup_witness : ∃ l, reachable lock_step lock_init l ∧ threads l = [Wake; Sleep; Wait] ∧
  ∃ acts l' u, exec lock_step acts l = Some l' ∧ threads l' !! u = Some Held.
Proof.
  destruct lock_example_reachable as ([s ths] & _ & Hr & Ht & Hs). cbn in Ht, Hs. subst.
  assert (reachable lock_step lock_init (MkLock unlocked [Wake; Sleep; Wait])) as Hr' by
    (eapply (reach_step _ _ _ (Release 0)); [exact Hr|reflexivity]).
  eexists. split; [exact Hr'|]. split; [done|].
  destruct (lock_no_lost_wakeup _ 1 Sleep Hr') as (acts & l' & u & _ & _ & He & Hu); [done..|]. eauto.
Defined.

End Lock.

Module Once.

Definition untriggered : Z := 0.
Definition triggered_uncontended : Z := 1.
Definition triggered_contended : Z := 2.
Definition completed : Z := 3.

(** Where a thread is in [xtrace_once]. *)
Inductive once_pc : Set :=
| Out                     (* before the call *)
| First                   (* before the first exchange *)
| Callback                (* the thread that runs the callback *)
| Publish                 (* before the exchange with [completed] *)
| WakeAll                 (* before FUTEX_WAKE *)
| Eval (prev : Z)         (* at the top of the while loop *)
| Wait (prev : Z)         (* before FUTEX_WAIT *)
| Sleep                   (* inside FUTEX_WAIT *)
| Load                    (* before the state is read again *)
| Done.                   (* xtrace_once has returned *)

#[export] Instance once_pc_eq_dec : EqDecision once_pc.
Proof. solve_decision. Defined.

(** [runs] counts the completed runs of the callback. *)
Record once := MkOnce { state : Z; runs : nat; threads : list once_pc }.

Definition xtrace_once (s : Z) (r : nat) (p : once_pc) : option (Z * nat * once_pc) :=
  match p with
  | Out => Some (s, r, First)
  | First =>
      if s =? untriggered then Some (triggered_uncontended, r, Callback) else Some (s, r, Eval s)
  | Callback => Some (s, S r, Publish)
  | Publish => Some (completed, r, if s =? triggered_contended then WakeAll else Done)
  | Eval prev =>
      if prev =? completed then Some (s, r, Done)
      else if prev =? triggered_uncontended then
        if s =? triggered_uncontended then Some (triggered_contended, r, Wait triggered_contended)
        else Some (s, r, Eval s)
      else if prev =? triggered_contended then Some (s, r, Wait prev)
      else Some (s, r, Eval prev)
  | Wait prev => Some (s, r, futex_wait s prev Sleep Load)
  | Load => Some (s, r, Eval s)
  | WakeAll | Sleep | Done => None
  end.

Inductive once_action : Set :=
| Step (t : nat)          (* [t] makes a step of its own *)
| Broadcast (t : nat)     (* FUTEX_WAKE of [t] wakes all sleepers *)
| Interrupt (t : nat).    (* FUTEX_WAIT of [t] returns without a wake-up *)

Definition wake (p : once_pc) : once_pc := match p with Sleep => Load | _ => p end.

Definition once_step (a : once_action) (o : once) : option once :=
  match a with
  | Step t =>
      p ← threads o !! t; '(s, r, p') ← xtrace_once (state o) (runs o) p;
      Some (MkOnce s r (<[t := p']> (threads o)))
  | Broadcast t =>
      match threads o !! t with
      | Some WakeAll => Some (MkOnce (state o) (runs o) (<[t := Done]> (wake <$> threads o)))
      | _ => None
      end
  | Interrupt t =>
      match threads o !! t with
      | Some Sleep => Some (MkOnce (state o) (runs o) (<[t := Load]> (threads o)))
      | _ => None
      end
  end.

(** XTRACE_ONCE_INITIALIZER *)
Definition once_init (o : once) : Prop := state o = untriggered ∧ runs o = 0%nat ∧ Forall (eq Out) (threads o).

(** ** Invariant *)

Definition runner (p : once_pc) : bool := match p with Callback | Publish => true | _ => false end.

(** What the program counter of a thread says about the shared word and the
    number of runs. *)
Definition pc_ok (s : Z) (r : nat) (p : once_pc) : Prop :=
  match p with
  | Out | First | Sleep | Load => True
  | Callback => (s = triggered_uncontended ∨ s = triggered_contended) ∧ r = 0%nat
  | Publish => (s = triggered_uncontended ∨ s = triggered_contended) ∧ r = 1%nat
  | WakeAll | Done => s = completed
  | Eval prev => prev = triggered_uncontended ∨ prev = triggered_contended ∨ prev = completed ∧ s = completed
  | Wait prev => prev = triggered_contended
  end.

Record once_inv (o : once) : Prop := {
  inv_word : state o = untriggered ∨ state o = triggered_uncontended ∨ state o = triggered_contended ∨ state o = completed;
  inv_fresh : state o = untriggered -> runs o = 0%nat ∧ ∀ t p, threads o !! t = Some p -> p = Out ∨ p = First;
  inv_completed : state o = completed -> runs o = 1%nat;
  inv_pc : ∀ t p, threads o !! t = Some p -> pc_ok (state o) (runs o) p;
  inv_runner : ∀ t u p q, threads o !! t = Some p -> threads o !! u = Some q ->
    runner p = true -> runner q = true -> t = u;
  inv_sleep : ∀ t, threads o !! t = Some Sleep -> state o = triggered_contended ∨ ∃ u, threads o !! u = Some WakeAll }.

Lemma once_init_inv o : once_init o -> once_inv o.
Proof.
  intros (Hs & Hr & Hall). assert (∀ t p, threads o !! t = Some p -> p = Out) as Hout.
  { intros t p Hp. by eapply Forall_lookup_1 in Hall. }
  constructor; [by left|by eauto|by rewrite Hs|..].
  - by intros t p ->%Hout.
  - by intros t u p q ->%Hout.
  - by intros t Ht%Hout.
Qed.

Ltac once_words := unfold untriggered, triggered_uncontended, triggered_contended, completed in *.

(** The step of one thread, case by case. *)
Lemma once_cases s r p s' r' p' :
  xtrace_once s r p = Some (s', r', p') -> pc_ok s r p ->
  (s' = s ∧ r' = r ∧ runner p = false ∧ runner p' = false ∧ (s = 0 -> p = Out ∧ p' = First ∨ p ≠ Out ∧ p ≠ First) ∧
     p' ≠ WakeAll ∧ (p' = Sleep -> s = 2)) ∨
  (s = 0 ∧ s' = 1 ∧ r' = r ∧ p = First ∧ p' = Callback) ∨
  (s = 1 ∧ s' = 2 ∧ r' = r ∧ p = Eval 1 ∧ p' = Wait 2) ∨
  ((s = 1 ∨ s = 2) ∧ s' = s ∧ r = 0%nat ∧ r' = 1%nat ∧ p = Callback ∧ p' = Publish) ∨
  ((s = 1 ∨ s = 2) ∧ s' = 3 ∧ r = 1%nat ∧ r' = 1%nat ∧ p = Publish ∧ (p' = WakeAll ∨ s = 1 ∧ p' = Done)).
Proof.
  destruct p; simpl; unfold futex_wait; once_words; case_cmp; intros; simplify_eq; naive_solver.
Qed.

(** Consequences for the shared word. *)
Lemma once_facts s r p s' r' p' :
  xtrace_once s r p = Some (s', r', p') -> pc_ok s r p ->
  (s' = 0 -> s = 0 ∧ r' = r) ∧ (s = 0 ∨ s = 1 ∨ s = 2 ∨ s = 3 -> s' = 0 ∨ s' = 1 ∨ s' = 2 ∨ s' = 3) ∧
  (s' = 3 -> r' = 1%nat ∨ s = 3 ∧ r' = r) ∧ (runner p' = true -> runner p = true ∨ s = 0) ∧
  (p' = Sleep -> s' = 2) ∧ (s = 2 -> s' = 2 ∨ p' = WakeAll) ∧ (s' = 0 -> p = Out ∨ p = First -> p' = First).
Proof.
  intros Hs Hp. apply once_cases in Hs; [|done].
  destruct Hs as [(-> & -> & Hr & Hr' & H0 & Hw & Hl)|[(-> & -> & -> & -> & ->)|[(-> & -> & -> & -> & ->)|
    [(? & -> & -> & -> & -> & ->)|(? & -> & -> & -> & -> & [->|[-> ->]])]]]];
    (split_and!; intros; destruct_or?; destruct_and?; simplify_eq; try done; try lia; auto; try congruence).
  - destruct H0 as [[? ?]|[? ?]]; [done..|]. done.
  - destruct H0 as [[? ?]|[? ?]]; [done..|]. done.
Qed.

(** The step keeps the claim of the thread that makes it. *)
Lemma once_self s r p s' r' p' :
  (s = 0 ∨ s = 1 ∨ s = 2 ∨ s = 3) -> (s = 0 -> r = 0%nat ∧ (p = Out ∨ p = First)) ->
  xtrace_once s r p = Some (s', r', p') -> pc_ok s r p -> pc_ok s' r' p'.
Proof.
  destruct p; simpl; unfold futex_wait; once_words; case_cmp; intros; simplify_eq; simpl; once_words; naive_solver lia.
Qed.

Lemma once_other s r p s' r' p' q :
  xtrace_once s r p = Some (s', r', p') -> pc_ok s r p -> pc_ok s r q -> (runner p = true -> runner q = false) ->
  (s = 0 -> q = Out ∨ q = First) -> pc_ok s' r' q.
Proof.
  intros Hs Hp Hq Hr H0. apply once_cases in Hs; [|done].
  destruct Hs as [(-> & -> & _)|[(-> & -> & _)|[(-> & -> & -> & _)|[(? & -> & -> & -> & -> & _)|(? & -> & -> & -> & -> & _)]]]];
    [done|by destruct H0 as [->| ->]|..]; destruct q; simpl in *; once_words; naive_solver lia.
Qed.

Lemma once_step_inv a o o' : once_inv o -> once_step a o = Some o' -> once_inv o'.
Proof.
  intros Hi Hs. destruct a as [t|t|t]; simpl in Hs.
  - destruct (threads o !! t) as [p|] eqn:Ht; simplify_eq/=.
    destruct (xtrace_once _ _ p) as [[[s' r'] p']|] eqn:E; simplify_eq/=.
    destruct Hi as [Iw If Ic Ip Ir Is]. pose proof (Ip t p Ht) as Hp. pose proof (once_facts _ _ _ _ _ _ E Hp) as Hc.
    destruct Hc as (F0 & Fw & F3 & Fr & Fs & F2 & Ff). constructor; cbn [state runs threads]; [by apply Fw|..].
    + intros Hs'. destruct (F0 Hs') as [H0 ->]. destruct (If H0) as [Hr Hall]. split; [done|].
      intros u q Hu. thread_cases; [|by eapply Hall]. right. apply Ff; [done|]. by eapply Hall.
    + intros [?|[H3 ->]]%F3; [done|by apply Ic].
    + intros u q Hu. thread_cases.
      * eapply once_self; [..|done|done]; [by apply Iw|]. intros H0. split; [by apply If|]. by eapply If.
      * eapply once_other; [done|done|by eapply Ip|..]; [|intros H0; by eapply If].
        intros Hrun. destruct (runner q) eqn:Hq; [|done]. by destruct (Ir t u p q).
    + assert (∀ w q, t ≠ w -> threads o !! w = Some q -> runner q = true -> runner p' = true -> False) as Hold.
      { intros w q0 Hw Hq0 Hrq Hrp. destruct (Fr Hrp) as [|H0]; [by destruct (Ir t w p q0)|].
        destruct (proj2 (If H0) w q0 Hq0); by subst. }
      intros u v q q' Hu Hv ??. thread_cases; [done|by exfalso; eauto..|by eapply Ir].
    + intros u Hu. thread_cases; [left; by apply Fs|]. destruct (Is u Hu) as [H2|[w Hw]].
      * destruct (F2 H2) as [|Hwake]; [by left|]. right. exists t. rewrite thread_at by done. by rewrite Hwake.
      * right. exists w. rewrite thread_other; [done|]. intros ->. rewrite Hw in Ht. by simplify_eq.
  - destruct (threads o !! t) as [[]|] eqn:Ht; simplify_eq/=. destruct Hi as [Iw If Ic Ip Ir Is]. pose proof (Ip t _ Ht) as Hp.
    assert (∀ u q, (wake <$> threads o) !! u = Some q -> ∃ q0, threads o !! u = Some q0 ∧ q = wake q0) as Hw.
    { intros u q. rewrite list_lookup_fmap. destruct (threads o !! u); simpl; intros; simplify_eq; eauto. }
    constructor; cbn [state runs threads]; [done| |done|..].
    + intros H0. by rewrite Hp in H0.
    + intros u q Hu. thread_cases; [done|]. apply Hw in Hu as (q0 & Hq & ->). apply Ip in Hq. by destruct q0.
    + intros u v q q' Hu Hv Hq Hq'. thread_cases; [done..|]. apply Hw in Hu as (q0 & Hu & ->). apply Hw in Hv as (q1 & Hv & ->).
      eapply Ir; [done|done|by destruct q0|by destruct q1].
    + intros u Hu. thread_cases. apply Hw in Hu as (q0 & _ & ?). by destruct q0.
  - destruct (threads o !! t) as [[]|] eqn:Ht; simplify_eq/=. destruct Hi as [Iw If Ic Ip Ir Is].
    constructor; cbn [state runs threads]; [done| |done|..].
    + intros H0. destruct (If H0) as [? Hall]. split; [done|]. by destruct (Hall t _ Ht).
    + intros u q Hu. thread_cases; [done|by eapply Ip].
    + intros u v q q' Hu Hv ??. thread_cases; [done..|by eapply Ir].
    + intros u Hu. thread_cases. destruct (Is u Hu) as [|[w Hw]]; [by left|right].
      exists w. rewrite thread_other; [done|congruence].
Qed.

Lemma once_reachable_inv o : reachable once_step once_init o -> once_inv o.
Proof. apply reachable_invariant; [apply once_init_inv|]. intros a s s'. apply once_step_inv. Qed.

(** ** Theorems *)

(** C33: xtrace_once runs its callback exactly once.  Under every interleaving at
    most one thread is in the callback, it has been run at most once, and a
    thread for which xtrace_once has returned finds it run to its end. *)
Theorem once_exactly_once o :
  reachable once_step once_init o ->
  (runs o <= 1)%nat ∧
  (∀ t u, threads o !! t = Some Callback -> threads o !! u = Some Callback -> t = u) ∧
  (∀ t, threads o !! t = Some Callback -> runs o = 0%nat) ∧
  (∀ t, threads o !! t = Some Done -> runs o = 1%nat).
Proof.
  intros Hr. apply once_reachable_inv in Hr as Hi. split_and!.
  - clear Hi. induction Hr as [s [_ [-> _]]|s a s' Hr IH Hs]; [lia|].
    destruct a; simpl in Hs; destruct (threads s !! t) as [p|] eqn:Ht; simplify_eq/=; [|destruct p; by simplify_eq..].
    destruct (xtrace_once _ _ p) as [[[s1 r1] p1]|] eqn:E; simplify_eq/=. apply once_cases in E; [naive_solver lia|].
    by eapply inv_pc; [apply once_reachable_inv|].
  - intros t u Ht Hu. by eapply inv_runner.
  - intros t Ht. by eapply (inv_pc o Hi t Callback).
  - intros t Ht. apply inv_completed; [done|]. by eapply (inv_pc o Hi t Done).
Qed.

Definition fresh_once (n : nat) : once := MkOnce untriggered 0 (replicate n Out).

Lemma once_fresh_init n : once_init (fresh_once n).
Proof. split; [done|]. split; [done|]. by apply Forall_replicate. Qed.

(** One thread runs the callback while the other has gone to sleep; then
    the first one publishes. *)
Definition once_example : list once_action := [Step 0; Step 0; Step 1; Step 1; Step 1; Step 1; Step 0; Step 0]%nat.

Lemma once_example_reachable : reachable once_step once_init (MkOnce completed 1 [WakeAll; Sleep]).
Proof. eapply (exec_reachable _ _ once_example (fresh_once 2)); [|reflexivity]. apply reach_init, once_fresh_init. Qed.

Lemma once_exactly_once_witness :
  reachable once_step once_init (MkOnce completed 1 [Done; Done]) ∧ (1 <= 1)%nat ∧ runs (MkOnce completed 1 [Done; Done]) = 1%nat.
Proof.
  assert (reachable once_step once_init (MkOnce completed 1 [Done; Done])) as Hr.
  { eapply (exec_reachable _ _ [Broadcast 0; Step 1; Step 1]%nat); [apply once_example_reachable|reflexivity]. }
  split; [done|]. pose proof (once_exactly_once _ Hr) as (H1 & _ & _ & H4). split; [exact H1|]. by apply (H4 0%nat).
Defined.

(** Waiting in [xtrace_once] for another thread. *)
Definition once_waiting (p : once_pc) : bool := match p with First | Eval _ | Wait _ | Sleep | Load => true | _ => false end.

(** Steps of one thread after the callback has been published. *)
Definition returns (n : nat) (p : once_pc) : Prop :=
  ∀ r ths t, ths !! t = Some p -> ∃ o', exec once_step (replicate n (Step t)) (MkOnce completed r ths) = Some o' ∧
    threads o' !! t = Some Done.

Lemma returns_step n p p' :
  (∀ r, xtrace_once completed r p = Some (completed, r, p')) -> returns n p' -> returns (S n) p.
Proof.
  intros Hx Hn r ths t Ht. simpl. rewrite Ht. simpl. rewrite Hx. simpl. apply Hn. by apply thread_at.
Qed.

Lemma awake_returns s r p :
  once_waiting p = true -> p ≠ Sleep -> pc_ok s r p -> ∃ n, (n <= 4)%nat ∧ returns n p.
Proof.
  assert (returns 0 Done) as H0 by (intros r' ths t Ht; by eexists).
  assert (returns 1 (Eval completed)) as H1 by by eapply returns_step.
  assert (returns 2 Load) as H2 by by eapply returns_step.
  assert (returns 3 (Wait triggered_contended)) as H3 by by eapply returns_step.
  intros Hw Hs Hp. destruct p as [| | | | |prev|prev| | |]; try done; simpl in Hp.
  - exists 2%nat. split; [lia|]. by eapply returns_step.
  - destruct Hp as [->|[->|[-> _]]]; [exists 2%nat|exists 4%nat|exists 1%nat]; (split; [lia|]); [by eapply returns_step..|done].
  - subst. exists 3%nat. split; [lia|done].
  - exists 2%nat. split; [lia|done].
Qed.

(** No waiter is left behind.  Once the callback has been run and published,
    every thread that still waits in xtrace_once returns after at most five
    steps of the threads themselves: none depends on a signal or a spurious
    wake-up, even when it sleeps in the kernel. *)
Theorem once_waiters_return o t p :
  reachable once_step once_init o -> state o = completed -> threads o !! t = Some p -> once_waiting p = true ->
  ∃ acts o', (length acts <= 5)%nat ∧ Forall (λ a, ∀ v, a ≠ Interrupt v) acts ∧
    exec once_step acts o = Some o' ∧ threads o' !! t = Some Done.
Proof.
  intros Hr Hs Ht Hw. apply once_reachable_inv in Hr as Hi. destruct o as [s r ths]. cbn [state threads] in *. subst s.
  destruct (decide (p = Sleep)) as [->|Hne].
  - destruct (inv_sleep _ Hi t Ht) as [Hc|[u Hu]]; [done|]. cbn in Hu.
    destruct (awake_returns completed r Load) as (n & Hn & Hret); [done..|].
    destruct (Hret r (<[u := Done]> (wake <$> ths)) t) as (o' & He & Hd).
    { rewrite list_lookup_insert_ne by congruence. by rewrite list_lookup_fmap, Ht. }
    exists (Broadcast u :: replicate n (Step t)), o'. simpl. rewrite length_replicate. split; [lia|].
    split; [constructor; [done|by apply Forall_replicate]|]. by rewrite Hu.
  - destruct (awake_returns completed r p) as (n & Hn & Hret); [done|done|by apply (inv_pc _ Hi t p)|].
    destruct (Hret r ths t Ht) as (o' & He & Hd). exists (replicate n (Step t)), o'.
    rewrite length_replicate. split; [lia|]. split; [by apply Forall_replicate|done].
Qed.

Lemma once_waiters_return_witness : ∃ acts o',
  exec once_step acts (MkOnce completed 1 [WakeAll; Sleep]) = Some o' ∧ threads o' !! 1%nat = Some Done.
Proof.
  destruct (once_waiters_return _ 1 Sleep once_example_reachable) as (acts & o' & _ & _ & He & Hd); [done..|]. eauto.
Defined.

End Once.
