(* ===== verification/XtraceMalloc.v ===== *)
(** * The memory allocator of xtrace

    xtrace/malloc.c: an allocator of its own on top of mmap.  Memory is
    obtained in blocks; a block is cut into fragments, each with a header of
    40 bytes in front of its memory, and the fragments that are not in use
    are on a free list.

    A heap is the list of blocks, each with its fragments in the order of
    [fragment_list], and the free list.  The headers (the [flags] word and the
    two list links) are the structure of the model; the memory behind them is
    [h_mem].  An operation that would use a header that does not exist, unlink
    a fragment from a list it is not on, or write outside of a mapping is
    undefined.  Each operation holds [free_lock] from beginning to end
    ([XtraceLock.Lock]), so operations do not overlap. *)
From S2P Require Import Prelude Abi Linux Errno Base Mman.

(** ** Fragments *)

Definition BLOCK_SIZE_MULTIPLE : Z := 4096.
Definition FLAG_IN_USE : Z := 2 ^ 63.
Definition FLAG_IS_MMAP_BASE : Z := 2 ^ 62.
Definition SIZE_MASK : Z := 0xffffffffffffffff / 2 ^ 2.

(** sizeof(struct xtrace_memory_fragment), sizeof(struct xtrace_memory_block)
    and the offset of the first fragment in a block. *)
Definition FRAGMENT_HEADER : Z := 40.
Definition BLOCK_HEADER : Z := 56.
Definition FIRST_FRAGMENT : Z := 16.

Record fragment := Fragment { f_addr : Z; f_flags : Z }.

Definition with_flags (fr : fragment) (flags : Z) : fragment := Fragment (f_addr fr) flags.

Definition fragment_in_use (fr : fragment) : bool := has (f_flags fr) FLAG_IN_USE.
Definition fragment_set_in_use (fr : fragment) (b : bool) : fragment :=
  with_flags fr (if b then Z.lor (f_flags fr) FLAG_IN_USE else Z.land (f_flags fr) (u64 (Z.lnot FLAG_IN_USE))).

Definition fragment_is_mmap_base (fr : fragment) : bool := has (f_flags fr) FLAG_IS_MMAP_BASE.
Definition fragment_set_is_mmap_base (fr : fragment) (b : bool) : fragment :=
  with_flags fr (if b then Z.lor (f_flags fr) FLAG_IS_MMAP_BASE
                 else Z.land (f_flags fr) (u64 (Z.lnot FLAG_IS_MMAP_BASE))).

Definition fragment_size (fr : fragment) : Z := Z.land (f_flags fr) SIZE_MASK.
Definition fragment_set_size (fr : fragment) (new_size : Z) : fragment :=
  with_flags fr (Z.lor (Z.land (f_flags fr) (u64 (Z.lnot SIZE_MASK))) (Z.land new_size SIZE_MASK)).

Definition fragment_init (addr size : Z) : fragment := Fragment addr (Z.land size SIZE_MASK).

(** [fragment->memory] and back. *)
Definition memory (addr : Z) : Z := addr + FRAGMENT_HEADER.
Definition container_of (pointer : Z) : Z := pointer - FRAGMENT_HEADER.

(** ** Blocks and the heap *)

Record block := Block { b_addr : Z; b_size : Z; b_frags : list fragment }.

Definition block_init (addr size : Z) : block :=
  Block addr size [fragment_set_is_mmap_base (fragment_init (addr + FIRST_FRAGMENT) size) true].

Record heap := Heap { h_blocks : list block; h_free : list Z; h_mem : Z -> ascii }.

Definition empty_heap : heap := Heap [] [] (λ _, NUL).

(** A fragment with its neighbours in the block list, the previous ones in
    reverse order, and the blocks before and after its own. *)
Record focus := Focus {
  fc_before : list block; fc_addr : Z; fc_size : Z; fc_prev : list fragment;
  fc_frag : fragment; fc_next : list fragment; fc_after : list block }.

Definition fc_block (c : focus) : block :=
  Block (fc_addr c) (fc_size c) (rev (fc_prev c) ++ fc_frag c :: fc_next c).
Definition unfocus (c : focus) : list block := fc_before c ++ fc_block c :: fc_after c.

Definition refocus (c : focus) (prev : list fragment) (fr : fragment) (next : list fragment) : focus :=
  Focus (fc_before c) (fc_addr c) (fc_size c) prev fr next (fc_after c).

Fixpoint find_fragment (f : Z) (prev l : list fragment) : option (list fragment * fragment * list fragment) :=
  match l with
  | [] => None
  | x :: l => if f_addr x =? f then Some (prev, x, l) else find_fragment f (x :: prev) l
  end.

Fixpoint find_focus (f : Z) (before bs : list block) : option focus :=
  match bs with
  | [] => None
  | b :: bs =>
    match find_fragment f [] (b_frags b) with
    | Some (prev, x, next) => Some (Focus before (b_addr b) (b_size b) prev x next bs)
    | None => find_focus f (before ++ [b]) bs
    end
  end.

(** The fragment at an address that is used as a header. *)
Definition at_fragment (h : heap) (f : Z) : option focus := find_focus f [] (h_blocks h).

(** [LIST_REMOVE(fragment, free_link)] *)
Fixpoint free_remove (f : Z) (l : list Z) : option (list Z) :=
  match l with
  | [] => None
  | x :: l => if x =? f then Some l else cons x <$> free_remove f l
  end.

(** The bytes of the mapping that a block occupies. *)
Definition mapped (c : focus) (addr len : Z) : bool :=
  (fc_addr c <=? addr) && (addr + len <=? fc_addr c + BLOCK_HEADER + fc_size c).

(** ** Internal functions *)

Definition round_up (size increment : Z) : Z :=
  if Z.land size (increment - 1) =? 0 then size else u64 (Z.lor size (increment - 1) + 1).

(** [shrink_fragment] on the fragment in focus: whether it was cut, and the
    focus and free list after it. *)
Definition shrink_fragment (c : focus) (free : list Z) (new_size : Z) : option (bool * focus * list Z) :=
  let fr := fc_frag c in
  let remaining_size := u64 (fragment_size fr - new_size) in
  if FRAGMENT_HEADER <? remaining_size then
    let new_fragment := memory (f_addr fr) + new_size in
    if mapped c new_fragment FRAGMENT_HEADER then
      Some (true,
            refocus c (fc_prev c) (fragment_set_size fr new_size)
              (fragment_init new_fragment (remaining_size - FRAGMENT_HEADER) :: fc_next c),
            new_fragment :: free)
    else None
  else Some (false, c, free).

(** [LIST_FOREACH] of [allocate_fragment]: the smallest free fragment that is
    larger than required. *)
Fixpoint find_viable (h : heap) (required_size : Z) (viable : option (Z * Z)) (l : list Z) : option (option (Z * Z)) :=
  match l with
  | [] => Some viable
  | f :: l =>
    c ← at_fragment h f;
    let size := fragment_size (fc_frag c) in
    find_viable h required_size
      (if (required_size <? size) && match viable with None => true | Some (_, vs) => size <? vs end
       then Some (f, size) else viable) l
  end.

(** The end of [allocate_fragment], for the fragment that was chosen. *)
Definition take_fragment (h : heap) (viable_fragment required_size : Z) : option (Z * heap) :=
  c ← at_fragment h viable_fragment;
  '(_, c, free) ← shrink_fragment c (h_free h) required_size;
  let c := refocus c (fc_prev c) (fragment_set_in_use (fc_frag c) true) (fc_next c) in
  free ← free_remove viable_fragment free;
  Some (viable_fragment, Heap (unfocus c) free (h_mem h)).

Definition allocate_fragment (h : heap) (required_size : Z) : M (option Z * heap) :=
  viable ← defined (find_viable h required_size None (h_free h));
  match viable with
  | Some (f, _) => '(f, h) ← defined (take_fragment h f required_size); mret (Some f, h)
  | None =>
    let allocation_size := round_up required_size BLOCK_SIZE_MULTIPLE in
    block ← sys_mmap 0 allocation_size (Z.lor PROT_READ PROT_WRITE) (Z.lor MAP_ANON MAP_PRIVATE) (-1) 0;
    if u64 (-4096) <? block then mret (None, h)
    else
      let h := Heap (block_init block (u64 (allocation_size - BLOCK_HEADER)) :: h_blocks h)
                    (block + FIRST_FRAGMENT :: h_free h) (h_mem h) in
      '(f, h) ← defined (take_fragment h (block + FIRST_FRAGMENT) required_size); mret (Some f, h)
  end.

(** One round of the loop of [release_fragment]: whether anything was merged. *)
Definition merge_prev (c : focus) (free : list Z) : option (bool * focus * list Z) :=
  if fragment_is_mmap_base (fc_frag c) then Some (false, c, free)
  else
    match fc_prev c with
    | [] => None
    | prev_frag :: prev =>
      if fragment_in_use prev_frag then Some (false, c, free)
      else
        free ← free_remove (f_addr (fc_frag c)) free;
        Some (true, refocus c prev
                (fragment_set_size prev_frag (fragment_size prev_frag + FRAGMENT_HEADER + fragment_size (fc_frag c)))
                (fc_next c), free)
    end.

Definition merge_next (c : focus) (free : list Z) : option (bool * focus * list Z) :=
  match fc_next c with
  | [] => Some (false, c, free)
  | next_frag :: next =>
    if fragment_in_use next_frag then Some (false, c, free)
    else
      free ← free_remove (f_addr next_frag) free;
      Some (true, refocus c (fc_prev c)
              (fragment_set_size (fc_frag c) (fragment_size (fc_frag c) + FRAGMENT_HEADER + fragment_size next_frag))
              next, free)
  end.

Fixpoint defragment (fuel : nat) (c : focus) (free : list Z) : option (focus * list Z) :=
  match fuel with
  | O => None
  | S fuel =>
    '(d1, c, free) ← merge_prev c free;
    '(d2, c, free) ← merge_next c free;
    if d1 || d2 then defragment fuel c free else Some (c, free)
  end.

(** Every round but the last removes a fragment from the block. *)
Definition defragment_rounds (c : focus) : nat := S (length (fc_prev c) + length (fc_next c)).

Definition block_in_use (c : focus) : bool :=
  fragment_in_use (fc_frag c) || negb (fc_size c =? fragment_size (fc_frag c)).

Definition release_fragment (h : heap) (f : Z) : M heap :=
  c ← defined (at_fragment h f);
  let c := refocus c (fc_prev c) (fragment_set_in_use (fc_frag c) false) (fc_next c) in
  '(c, free) ← defined (defragment (defragment_rounds c) c (f :: h_free h));
  if fragment_is_mmap_base (fc_frag c) && negb (block_in_use c) then
    free ← defined (free_remove (f_addr (fc_frag c)) free);
    sys_munmap (fc_addr c) (fc_size c + BLOCK_HEADER);;
    mret (Heap (fc_before c ++ fc_after c) free (h_mem h))
  else mret (Heap (unfocus c) free (h_mem h)).

(** [expand_fragment]: how many of the following fragments are needed, when
    they are free and large enough together. *)
Fixpoint absorb_count (available new_size : Z) (next : list fragment) : option nat :=
  match next with
  | [] => None
  | end_frag :: next =>
    if fragment_in_use end_frag then (if new_size <=? available then Some 1%nat else None)
    else
      let available := available + (fragment_size end_frag + FRAGMENT_HEADER) in
      if new_size <=? available then Some 1%nat else S <$> absorb_count available new_size next
  end.

Fixpoint absorb (n : nat) (c : focus) (free : list Z) : option (focus * list Z) :=
  match n, fc_next c with
  | O, _ => Some (c, free)
  | S n, [] => None
  | S n, dying :: next =>
    free ← free_remove (f_addr dying) free;
    absorb n (refocus c (fc_prev c)
      (fragment_set_size (fc_frag c) (fragment_size (fc_frag c) + FRAGMENT_HEADER + fragment_size dying)) next) free
  end.

Definition expand_fragment (c : focus) (free : list Z) (new_size : Z) : option (bool * focus * list Z) :=
  match absorb_count (fragment_size (fc_frag c)) new_size (fc_next c) with
  | None => Some (false, c, free)
  | Some n =>
    '(c, free) ← absorb n c free;
    '(_, c, free) ← shrink_fragment c free new_size;
    Some (true, c, free)
  end.

(** ** The interface: null is 0 *)

Definition xtrace_malloc (h : heap) (size : Z) : M (Z * heap) :=
  if size =? 0 then mret (0, h)
  else
    '(fragment, h) ← allocate_fragment h size;
    mret (match fragment with Some f => memory f | None => 0 end, h).

Definition xtrace_free (h : heap) (pointer : Z) : M heap :=
  if pointer =? 0 then mret h else release_fragment h (container_of pointer).

(** [memcpy] between two memories. *)
Definition copy_mem (m : Z -> ascii) (dst src len : Z) : Z -> ascii :=
  λ a, if (dst <=? a) && (a <? dst + len) then m (src + (a - dst)) else m a.

Definition xtrace_realloc (h : heap) (old_pointer new_size : Z) : M (Z * heap) :=
  let f := container_of old_pointer in
  c ← defined (at_fragment h f);
  let old_size := fragment_size (fc_frag c) in
  if new_size <? old_size then
    '(_, c, free) ← defined (shrink_fragment c (h_free h) new_size);
    mret (old_pointer, Heap (unfocus c) free (h_mem h))
  else if new_size =? old_size then mret (old_pointer, h)
  else
    '(expanded, c, free) ← defined (expand_fragment c (h_free h) new_size);
    if (expanded : bool) then mret (old_pointer, Heap (unfocus c) free (h_mem h))
    else
      '(new_fragment, h) ← allocate_fragment h new_size;
      match new_fragment with
      | None => mret (0, h)
      | Some nf =>
        let h := Heap (h_blocks h) (h_free h) (copy_mem (h_mem h) (memory nf) old_pointer old_size) in
        h ← release_fragment h f;
        mret (memory nf, h)
      end.

(** ** The flags word *)

Lemma fragment_size_range fr : 0 <= fragment_size fr < 2 ^ 62.
Proof. unfold fragment_size. change SIZE_MASK with (Z.ones 62). rewrite Z.land_ones by lia. apply Z.mod_pos_bound. lia. Qed.

Lemma in_use_bit fr : fragment_in_use fr = Z.testbit (f_flags fr) 63.
Proof. apply has_pow2. lia. Qed.

Lemma base_bit fr : fragment_is_mmap_base fr = Z.testbit (f_flags fr) 62.
Proof. apply has_pow2. lia. Qed.

Lemma size_of_bits fr n : (∀ i, 0 <= i < 62 -> Z.testbit (f_flags fr) i = Z.testbit n i) -> 0 <= n < 2 ^ 62 -> fragment_size fr = n.
Proof.
  intros Hb Hn. unfold fragment_size. change SIZE_MASK with (Z.ones 62). apply Z.bits_inj'. intros i Hi.
  rewrite Z.land_spec, Z.testbit_ones_nonneg by lia. destruct (Z.ltb_spec i 62).
  - by rewrite andb_true_r, Hb.
  - rewrite andb_false_r. symmetry. by apply (proj1 (Z.bounded_iff_bits_nonneg 62 n (ltac:(lia)) (proj1 Hn)) (proj2 Hn)).
Qed.

Lemma size_bits fr i : 0 <= i < 62 -> Z.testbit (f_flags fr) i = Z.testbit (fragment_size fr) i.
Proof.
  intros Hi. unfold fragment_size. change SIZE_MASK with (Z.ones 62). rewrite Z.land_spec, Z.testbit_ones_nonneg by lia.
  destruct (Z.ltb_spec i 62); [by rewrite andb_true_r|lia].
Qed.

Lemma size_mask_bit i : 0 <= i < 64 -> Z.testbit (u64 (Z.lnot SIZE_MASK)) i = (62 <=? i).
Proof.
  intros Hi. change (u64 (Z.lnot SIZE_MASK)) with (Z.shiftl (Z.ones 2) 62).
  destruct (Z.leb_spec 62 i); [|apply Z.shiftl_spec_low; lia].
  rewrite Z.shiftl_spec_high by lia. rewrite Z.testbit_ones_nonneg by lia. apply Z.ltb_lt. lia.
Qed.

Lemma set_size_spec fr n :
  0 <= n < 2 ^ 62 ->
  fragment_size (fragment_set_size fr n) = n ∧ fragment_in_use (fragment_set_size fr n) = fragment_in_use fr ∧
  fragment_is_mmap_base (fragment_set_size fr n) = fragment_is_mmap_base fr.
Proof.
  intros Hn. assert (∀ i, 0 <= i < 64 -> Z.testbit (f_flags (fragment_set_size fr n)) i =
    if i <? 62 then Z.testbit n i else Z.testbit (f_flags fr) i) as Hbit.
  { intros i Hi. simpl. rewrite Z.lor_spec, !Z.land_spec, size_mask_bit by done. change SIZE_MASK with (Z.ones 62).
    rewrite Z.testbit_ones_nonneg by lia. destruct (Z.ltb_spec i 62), (Z.leb_spec 62 i); try lia; btauto. }
  split_and!.
  - apply size_of_bits; [|done]. intros i Hi. rewrite Hbit by lia. by destruct (Z.ltb_spec i 62); [|lia].
  - by rewrite !in_use_bit, Hbit.
  - by rewrite !base_bit, Hbit.
Qed.

Lemma set_in_use_spec fr b :
  fragment_size (fragment_set_in_use fr b) = fragment_size fr ∧ fragment_in_use (fragment_set_in_use fr b) = b ∧
  fragment_is_mmap_base (fragment_set_in_use fr b) = fragment_is_mmap_base fr.
Proof.
  assert (∀ i, 0 <= i < 64 -> Z.testbit (f_flags (fragment_set_in_use fr b)) i = if i =? 63 then b else Z.testbit (f_flags fr) i) as Hbit.
  { intros i Hi. unfold fragment_set_in_use, with_flags. cbn [f_flags]. destruct b.
    - rewrite Z.lor_spec. change FLAG_IN_USE with (2 ^ 63). rewrite Z.pow2_bits_eqb, Z.eqb_sym by lia.
      destruct (i =? 63); [apply orb_true_r|apply orb_false_r].
    - rewrite Z.land_spec. change (u64 (Z.lnot FLAG_IN_USE)) with (Z.ones 63). rewrite Z.testbit_ones_nonneg by lia.
      destruct (Z.eqb_spec i 63), (Z.ltb_spec i 63); try lia; btauto. }
  split_and!.
  - apply size_of_bits; [|apply fragment_size_range]. intros i Hi. rewrite Hbit by lia. destruct (Z.eqb_spec i 63); [lia|by apply size_bits].
  - by rewrite in_use_bit, Hbit.
  - by rewrite !base_bit, Hbit.
Qed.

Lemma init_spec addr n :
  0 <= n < 2 ^ 62 ->
  fragment_size (fragment_init addr n) = n ∧ fragment_in_use (fragment_init addr n) = false ∧
  fragment_is_mmap_base (fragment_init addr n) = false.
Proof.
  intros Hn. assert (∀ i, 0 <= i -> Z.testbit (f_flags (fragment_init addr n)) i = Z.testbit n i && (i <? 62)) as Hbit.
  { intros i Hi. simpl. change SIZE_MASK with (Z.ones 62). by rewrite Z.land_spec, Z.testbit_ones_nonneg by lia. }
  split_and!.
  - apply size_of_bits; [|done]. intros i Hi. rewrite Hbit by lia. destruct (Z.ltb_spec i 62); [apply andb_true_r|lia].
  - rewrite in_use_bit, Hbit by lia. apply andb_false_r.
  - rewrite base_bit, Hbit by lia. apply andb_false_r.
Qed.

Lemma set_base_spec fr :
  fragment_size (fragment_set_is_mmap_base fr true) = fragment_size fr ∧
  fragment_in_use (fragment_set_is_mmap_base fr true) = fragment_in_use fr ∧
  fragment_is_mmap_base (fragment_set_is_mmap_base fr true) = true.
Proof.
  assert (∀ i, 0 <= i < 64 -> Z.testbit (f_flags (fragment_set_is_mmap_base fr true)) i = Z.testbit (f_flags fr) i || (62 =? i)) as Hbit.
  { intros i Hi. simpl. rewrite Z.lor_spec. change FLAG_IS_MMAP_BASE with (2 ^ 62). by rewrite Z.pow2_bits_eqb by lia. }
  split_and!.
  - apply size_of_bits; [|apply fragment_size_range]. intros i Hi. rewrite Hbit by lia. rewrite <- size_bits by lia.
    destruct (Z.eqb_spec 62 i); [lia|apply orb_false_r].
  - rewrite !in_use_bit, Hbit by lia. apply orb_false_r.
  - rewrite base_bit, Hbit by lia. apply orb_true_r.
Qed.

(** ** Well-formed heaps *)

Definition frag_end (x : fragment) : Z := f_addr x + FRAGMENT_HEADER + fragment_size x.

(** Fragments that follow each other without gaps from [a] to [e]. *)
Fixpoint chain (a : Z) (l : list fragment) (e : Z) : Prop :=
  match l with
  | [] => a = e
  | x :: l => f_addr x = a ∧ chain (frag_end x) l e
  end.

Definition base_ok (addr : Z) (x : fragment) : Prop := fragment_is_mmap_base x = (f_addr x =? addr + FIRST_FRAGMENT).

(** The fragments of a block tile its memory; only the first is marked as
    the start of the mapping. *)
Definition frags_ok (addr size : Z) (l : list fragment) : Prop :=
  chain (addr + FIRST_FRAGMENT) l (addr + BLOCK_HEADER + size) ∧ Forall (base_ok addr) l.

Definition block_ok (b : block) : Prop :=
  0 < b_addr b ∧ 0 <= b_size b < 2 ^ 62 ∧ frags_ok (b_addr b) (b_size b) (b_frags b).

Definition apart (b b' : block) : Prop :=
  b_addr b + BLOCK_HEADER + b_size b <= b_addr b' ∨ b_addr b' + BLOCK_HEADER + b_size b' <= b_addr b.

Fixpoint all_apart (bs : list block) : Prop :=
  match bs with
  | [] => True
  | b :: bs => Forall (apart b) bs ∧ all_apart bs
  end.

Definition all_frags (bs : list block) : list fragment := bs ≫= b_frags.
Definition free_addrs (l : list fragment) : list Z := f_addr <$> filter (λ x, fragment_in_use x = false) l.

(** Well-formed: blocks are mappings that do not overlap, their fragments
    tile them, and the free list holds exactly the fragments not in use. *)
Record heap_ok (bs : list block) (free : list Z) : Prop := {
  ok_blocks : Forall block_ok bs;
  ok_apart : all_apart bs;
  ok_free : free ≡ₚ free_addrs (all_frags bs) }.

Lemma chain_app a l1 l2 e : chain a (l1 ++ l2) e <-> ∃ m, chain a l1 m ∧ chain m l2 e.
Proof.
  revert a. induction l1 as [|x l1 IH]; simpl; intros a; [naive_solver|]. rewrite IH. naive_solver.
Qed.

Lemma chain_le a l e : chain a l e -> a <= e.
Proof.
  revert a. induction l as [|x l IH]; simpl; intros a; [lia|]. intros [<- H%IH].
  pose proof (fragment_size_range x). unfold frag_end, FRAGMENT_HEADER in H. lia.
Qed.

Lemma chain_bounds a l e x : chain a l e -> x ∈ l -> a <= f_addr x ∧ frag_end x <= e.
Proof.
  intros Hc [l1 [l2 ->]]%list_elem_of_split. apply chain_app in Hc as (m & H1 & H2). simpl in H2.
  destruct H2 as [<- H2]. apply chain_le in H1, H2. done.
Qed.

Lemma free_addrs_app l1 l2 : free_addrs (l1 ++ l2) = free_addrs l1 ++ free_addrs l2.
Proof. unfold free_addrs. by rewrite filter_app, fmap_app. Qed.

Lemma free_addrs_cons x l : free_addrs (x :: l) = (if fragment_in_use x then [] else [f_addr x]) ++ free_addrs l.
Proof. unfold free_addrs. rewrite filter_cons. by destruct (fragment_in_use x); case_decide. Qed.

Lemma free_remove_perm f l l' : free_remove f l = Some l' -> l ≡ₚ f :: l'.
Proof.
  revert l'. induction l as [|x l IH]; simpl; intros l'; [done|]. destruct (Z.eqb_spec x f) as [->|]; intros; simplify_eq; [done|].
  destruct (free_remove f l) as [m|]; simplify_eq/=. rewrite (IH m eq_refl). by apply Permutation_swap.
Qed.

Lemma free_remove_elem f l : f ∈ l -> ∃ l', free_remove f l = Some l'.
Proof.
  induction l as [|x l IH]; simpl; [set_solver|]. intros Hf. destruct (Z.eqb_spec x f); [by eexists|].
  destruct IH as [l' ->]; [set_solver|]. by eexists.
Qed.

(** Unlinking a fragment from a free list that contains it. *)
Lemma free_remove_perm_elim f l m : l ≡ₚ f :: m -> ∃ l', free_remove f l = Some l' ∧ l' ≡ₚ m.
Proof.
  intros Hp. destruct (free_remove_elem f l) as [l' Hl]; [by rewrite Hp; left|]. exists l'. split; [done|].
  apply free_remove_perm in Hl. rewrite Hp in Hl. by apply Permutation_cons_inv in Hl.
Qed.

(** ** Fragments do not overlap *)

Lemma chain_disjoint a l e x y :
  chain a l e -> x ∈ l -> y ∈ l -> x = y ∨ frag_end x <= f_addr y ∨ frag_end y <= f_addr x.
Proof.
  revert a. induction l as [|z l IH]; simpl; intros a Hc Hx Hy; [set_solver|]. destruct Hc as [<- Hc].
  apply elem_of_cons in Hx as [->|Hx]; apply elem_of_cons in Hy as [->|Hy]; [by left|..].
  - apply (chain_bounds _ _ _ y) in Hc as [? _]; [|done]. auto.
  - apply (chain_bounds _ _ _ x) in Hc as [? _]; [|done]. auto.
  - by eapply IH.
Qed.

Lemma all_apart_elem bs b b' : all_apart bs -> b ∈ bs -> b' ∈ bs -> b = b' ∨ apart b b'.
Proof.
  induction bs as [|c bs IH]; simpl; [set_solver|]. intros [Hc Ha] Hb Hb'. rewrite Forall_forall in Hc.
  apply elem_of_cons in Hb as [->|Hb]; apply elem_of_cons in Hb' as [->|Hb']; [by left|by right; apply Hc| |by apply IH].
  right. destruct (Hc b Hb) as [?|?]; [by right|by left].
Qed.

Lemma frags_disjoint bs free x y :
  heap_ok bs free -> x ∈ all_frags bs -> y ∈ all_frags bs ->
  x = y ∨ frag_end x <= f_addr y ∨ frag_end y <= f_addr x.
Proof.
  intros [Hb Ha _] (b & Hx & Hbx)%list_elem_of_bind (b' & Hy & Hby)%list_elem_of_bind. rewrite Forall_forall in Hb.
  destruct (Hb b Hbx) as (_ & _ & Hc & _), (Hb b' Hby) as (_ & _ & Hc' & _).
  destruct (all_apart_elem bs b b' Ha Hbx Hby) as [->|Hap]; [by eapply chain_disjoint|right].
  apply (chain_bounds _ _ _ x) in Hc; [|done]. apply (chain_bounds _ _ _ y) in Hc'; [|done].
  unfold apart, FIRST_FRAGMENT in *. lia.
Qed.

Lemma frag_end_gt x : f_addr x + FRAGMENT_HEADER <= frag_end x.
Proof. unfold frag_end. pose proof (fragment_size_range x). lia. Qed.

Lemma frags_unique bs free x y :
  heap_ok bs free -> x ∈ all_frags bs -> y ∈ all_frags bs -> f_addr x = f_addr y -> x = y.
Proof.
  intros Hok Hx Hy Heq. destruct (frags_disjoint bs free x y Hok Hx Hy) as [|Hd]; [done|].
  pose proof (frag_end_gt x). pose proof (frag_end_gt y). unfold FRAGMENT_HEADER in *. lia.
Qed.

(** ** Moving around in a heap *)

Definition frags_of (c : focus) : list fragment := rev (fc_prev c) ++ fc_frag c :: fc_next c.

(** The free fragments of the other blocks. *)
Definition outer (c : focus) : list Z := free_addrs (all_frags (fc_before c)) ++ free_addrs (all_frags (fc_after c)).

Lemma all_frags_unfocus c :
  all_frags (unfocus c) = all_frags (fc_before c) ++ frags_of c ++ all_frags (fc_after c).
Proof. unfold all_frags, unfocus. by rewrite bind_app. Qed.

Lemma all_apart_replace bs b b' bs' :
  b_addr b = b_addr b' -> b_size b = b_size b' -> all_apart (bs ++ b :: bs') -> all_apart (bs ++ b' :: bs').
Proof.
  intros Ha Hs. assert (∀ c, apart b c <-> apart b' c) as Hc by (intros c; unfold apart; by rewrite Ha, Hs).
  induction bs as [|c bs IH]; simpl.
  - intros [Hf ?]. split; [|done]. eapply Forall_impl; [done|]. intros d. by rewrite Hc.
  - intros [Hf ?]. split; [|by apply IH]. rewrite Forall_app, Forall_cons in *. destruct Hf as (? & Hb & ?).
    split_and!; [done| |done]. unfold apart in *. by rewrite <- Ha, <- Hs.
Qed.

Lemma heap_ok_refocus c free prev fr next free' :
  heap_ok (unfocus c) free -> frags_ok (fc_addr c) (fc_size c) (rev prev ++ fr :: next) ->
  free' ≡ₚ free_addrs (rev prev ++ fr :: next) ++ outer c ->
  heap_ok (unfocus (refocus c prev fr next)) free'.
Proof.
  intros [Hb Ha Hf] Hfr Hp. constructor.
  - unfold unfocus in *. simpl. rewrite Forall_app, Forall_cons in *. destruct Hb as (? & (? & ? & _) & ?). done.
  - eapply all_apart_replace; [..|exact Ha]; done.
  - rewrite all_frags_unfocus. simpl. unfold frags_of. simpl. rewrite Hp, !free_addrs_app. unfold outer. solve_Permutation.
Qed.

Lemma focus_frags c free : heap_ok (unfocus c) free -> frags_ok (fc_addr c) (fc_size c) (frags_of c).
Proof. intros [Hb _ _]. unfold unfocus in Hb. rewrite Forall_app, Forall_cons in Hb. by destruct Hb as (_ & (_ & _ & ?) & _). Qed.

Lemma focus_size c free : heap_ok (unfocus c) free -> 0 < fc_addr c ∧ 0 <= fc_size c < 2 ^ 62.
Proof. intros [Hb _ _]. unfold unfocus in Hb. rewrite Forall_app, Forall_cons in Hb. by destruct Hb as (_ & (? & ? & _) & _). Qed.

Lemma focus_free c free : heap_ok (unfocus c) free -> free ≡ₚ free_addrs (frags_of c) ++ outer c.
Proof. intros [_ _ Hf]. rewrite Hf, all_frags_unfocus, !free_addrs_app. unfold outer. solve_Permutation. Qed.

Lemma find_fragment_spec f prev l p x n :
  find_fragment f prev l = Some (p, x, n) -> rev prev ++ l = rev p ++ x :: n ∧ f_addr x = f.
Proof.
  revert prev. induction l as [|y l IH]; simpl; intros prev; [done|]. destruct (Z.eqb_spec (f_addr y) f); intros; simplify_eq; [done|].
  destruct (IH (y :: prev)) as [Heq ?]; [done|]. simpl in Heq. by rewrite <- app_assoc in Heq.
Qed.

Lemma find_focus_spec f before bs c :
  find_focus f before bs = Some c -> unfocus c = before ++ bs ∧ f_addr (fc_frag c) = f.
Proof.
  revert before. induction bs as [|b bs IH]; simpl; intros before; [done|].
  destruct (find_fragment f [] (b_frags b)) as [[[p x] n]|] eqn:E; intros; simplify_eq.
  - apply find_fragment_spec in E as [Heq Hx]. simpl in Heq. split; [|done]. unfold unfocus, fc_block. simpl.
    rewrite <- Heq. by destruct b.
  - destruct (IH (before ++ [b])) as [Heq ?]; [done|]. by rewrite <- app_assoc in Heq.
Qed.

Lemma find_fragment_some f prev l : f ∈ f_addr <$> l -> is_Some (find_fragment f prev l).
Proof.
  revert prev. induction l as [|y l IH]; csimpl; intros prev; [set_solver|]. destruct (Z.eqb_spec (f_addr y) f); [by eexists|].
  intros Hf. apply IH. set_solver.
Qed.

Lemma find_focus_some f before bs : f ∈ f_addr <$> all_frags bs -> is_Some (find_focus f before bs).
Proof.
  revert before. induction bs as [|b bs IH]; simpl; intros before; [set_solver|].
  unfold all_frags. simpl. rewrite fmap_app. intros [Hf|Hf]%elem_of_app.
  - destruct (find_fragment_some f [] (b_frags b) Hf) as [[[p x] n] ->]. by eexists.
  - destruct (find_fragment f [] (b_frags b)) as [[[p x] n]|]; [by eexists|]. by apply IH.
Qed.

(** Looking up the header of a fragment that exists. *)
Lemma at_fragment_elem h x :
  heap_ok (h_blocks h) (h_free h) -> x ∈ all_frags (h_blocks h) ->
  ∃ c, at_fragment h (f_addr x) = Some c ∧ unfocus c = h_blocks h ∧ fc_frag c = x.
Proof.
  intros Hok Hx. destruct (find_focus_some (f_addr x) [] (h_blocks h)) as [c Hc]; [by apply list_elem_of_fmap_2|].
  exists c. apply find_focus_spec in Hc as Hs. destruct Hs as [Hu Ha]. simpl in Hu. split; [done|]. split; [done|].
  eapply frags_unique; [done| |done|done]. rewrite <- Hu, all_frags_unfocus. unfold frags_of. set_solver.
Qed.

Lemma at_fragment_spec h f c :
  at_fragment h f = Some c -> unfocus c = h_blocks h ∧ f_addr (fc_frag c) = f.
Proof. apply (find_focus_spec f []). Qed.

(** ** The internal functions keep heaps well formed *)

(** The fragments in use are the same, except for the one at [f]. *)
Definition same_but (f : option Z) (l l' : list fragment) : Prop :=
  ∀ x, fragment_in_use x = true -> f ≠ Some (f_addr x) -> x ∈ l <-> x ∈ l'.

#[export] Instance same_but_equiv f : Equivalence (same_but f).
Proof.
  split; [done|..].
  - intros l l' H x ??. symmetry. by apply H.
  - intros l l' l'' H H' x ??. etrans; [by apply H|by apply H'].
Qed.

Lemma same_but_weaken f l l' : same_but None l l' -> same_but f l l'.
Proof. intros H x ??. by apply H. Qed.

Lemma same_but_unfocus f c prev fr next :
  same_but f (frags_of c) (rev prev ++ fr :: next) ->
  same_but f (all_frags (unfocus c)) (all_frags (unfocus (refocus c prev fr next))).
Proof.
  intros H x Hu Hf. rewrite !all_frags_unfocus, !elem_of_app. unfold frags_of at 2. simpl. by rewrite (H x Hu Hf).
Qed.

(** The chain around the fragment in focus. *)
Lemma focus_chain c free :
  heap_ok (unfocus c) free ->
  chain (fc_addr c + FIRST_FRAGMENT) (rev (fc_prev c)) (f_addr (fc_frag c)) ∧
  chain (frag_end (fc_frag c)) (fc_next c) (fc_addr c + BLOCK_HEADER + fc_size c) ∧
  Forall (base_ok (fc_addr c)) (rev (fc_prev c)) ∧ base_ok (fc_addr c) (fc_frag c) ∧ Forall (base_ok (fc_addr c)) (fc_next c).
Proof.
  intros Hok. destruct (focus_frags c free Hok) as [Hc Hb]. unfold frags_of in *. apply chain_app in Hc as (m & H1 & <- & H2).
  rewrite Forall_app, Forall_cons in Hb. naive_solver.
Qed.

(** Changing the flags of the fragment in focus, but not its size. *)
Lemma set_in_use_ok c free free' (b : bool) :
  heap_ok (unfocus c) free ->
  free' ≡ₚ (if b then [] else [f_addr (fc_frag c)]) ++ free_addrs (rev (fc_prev c)) ++ free_addrs (fc_next c) ++ outer c ->
  let c' := refocus c (fc_prev c) (fragment_set_in_use (fc_frag c) b) (fc_next c) in
  heap_ok (unfocus c') free' ∧ same_but (Some (f_addr (fc_frag c))) (all_frags (unfocus c)) (all_frags (unfocus c')).
Proof.
  intros Hok Hf. destruct (set_in_use_spec (fc_frag c) b) as (Hs & Hu & Hbase). cbv zeta.
  destruct (focus_chain c free Hok) as (H1 & H2 & B1 & B2 & B3). split.
  - eapply heap_ok_refocus; [done| |].
    + split; [apply chain_app; exists (f_addr (fc_frag c)); split; [done|]; split; [done|]; unfold frag_end; by rewrite Hs|].
      rewrite Forall_app, Forall_cons. split; [done|]. split; [|done]. unfold base_ok. by rewrite Hbase.
    + rewrite Hf, free_addrs_app, free_addrs_cons, Hu. cbn [f_addr fragment_set_in_use with_flags].
      destruct b; solve_Permutation.
  - apply same_but_unfocus. intros x Hx Hne. unfold frags_of. rewrite !elem_of_app, !elem_of_cons.
    assert (x ≠ fc_frag c) by congruence. assert (x ≠ fragment_set_in_use (fc_frag c) b) by (intros ->; done). tauto.
Qed.

Lemma shrink_ok c free n :
  heap_ok (unfocus c) free -> 0 <= n <= fragment_size (fc_frag c) ->
  ∃ d c' free', shrink_fragment c free n = Some (d, c', free') ∧ heap_ok (unfocus c') free' ∧
    f_addr (fc_frag c') = f_addr (fc_frag c) ∧ fragment_in_use (fc_frag c') = fragment_in_use (fc_frag c) ∧
    n <= fragment_size (fc_frag c') <= fragment_size (fc_frag c) ∧
    same_but (Some (f_addr (fc_frag c))) (all_frags (unfocus c)) (all_frags (unfocus c')).
Proof.
  intros Hok Hn. unfold shrink_fragment. pose proof (fragment_size_range (fc_frag c)) as Hr.
  rewrite u64_id by lia. destruct (Z.ltb_spec FRAGMENT_HEADER (fragment_size (fc_frag c) - n)) as [Hlt|Hge].
  2: { exists false, c, free. split_and!; first [done|lia|reflexivity]. }
  destruct (focus_chain c free Hok) as (H1 & H2 & B1 & B2 & B3).
  assert (mapped c (memory (f_addr (fc_frag c)) + n) FRAGMENT_HEADER = true) as ->.
  { unfold mapped, memory. pose proof (chain_le _ _ _ H1). pose proof (chain_le _ _ _ H2) as Hle. unfold frag_end in Hle.
    unfold FRAGMENT_HEADER, FIRST_FRAGMENT in *. apply andb_true_iff. rewrite !Z.leb_le. lia. }
  destruct (set_size_spec (fc_frag c) n) as (Hs & Hu & Hb); [lia|].
  unfold FRAGMENT_HEADER in Hlt. set (na := memory (f_addr (fc_frag c)) + n).
  set (m := fragment_size (fc_frag c) - n - FRAGMENT_HEADER).
  destruct (init_spec na m) as (Is & Iu & Ib); [unfold m, FRAGMENT_HEADER; lia|].
  eexists _, _, _. split; [reflexivity|]. split_and!.
  - eapply heap_ok_refocus; [done| |].
    + split.
      * apply chain_app. exists (f_addr (fc_frag c)). split; [done|]. split; [done|]. split.
        { unfold frag_end. rewrite Hs. unfold na, memory. simpl. lia. }
        assert (frag_end (fragment_init na m) = frag_end (fc_frag c)) as ->; [|done].
        unfold frag_end. rewrite Is. unfold na, m, memory. simpl. lia.
      * rewrite Forall_app, !Forall_cons. split_and!; [done| | |done].
        -- unfold base_ok. by rewrite Hb.
        -- unfold base_ok. rewrite Ib. symmetry. apply Z.eqb_neq. simpl. pose proof (chain_le _ _ _ H1).
           unfold na, memory, FRAGMENT_HEADER. lia.
    + rewrite (focus_free c free Hok). unfold frags_of. rewrite !free_addrs_app, !free_addrs_cons, Hu, Iu.
      cbn [f_addr fragment_set_size with_flags fragment_init]. solve_Permutation.
  - done.
  - done.
  - simpl. rewrite Hs. lia.
  - simpl. rewrite Hs. lia.
  - apply same_but_unfocus. intros x Hx Hne. unfold frags_of. rewrite !elem_of_app, !elem_of_cons.
    assert (x ≠ fc_frag c) by congruence. assert (x ≠ fragment_set_size (fc_frag c) n) by (intros ->; done).
    assert (x ≠ fragment_init na m) by congruence. tauto.
Qed.

(** Two neighbours joined into one fragment. *)
Definition glue (x y : fragment) : fragment :=
  fragment_set_size x (fragment_size x + FRAGMENT_HEADER + fragment_size y).

Lemma glue_spec addr size x y :
  f_addr y = frag_end x -> addr + FIRST_FRAGMENT <= f_addr x -> frag_end y <= addr + BLOCK_HEADER + size -> size < 2 ^ 62 ->
  f_addr (glue x y) = f_addr x ∧ frag_end (glue x y) = frag_end y ∧ fragment_in_use (glue x y) = fragment_in_use x ∧
  fragment_is_mmap_base (glue x y) = fragment_is_mmap_base x.
Proof.
  intros Hy Hx He Hs. pose proof (fragment_size_range x). pose proof (fragment_size_range y).
  unfold frag_end, FRAGMENT_HEADER, FIRST_FRAGMENT, BLOCK_HEADER in *.
  destruct (set_size_spec x (fragment_size x + FRAGMENT_HEADER + fragment_size y)) as (Hz & Hu & Hb);
    [unfold FRAGMENT_HEADER; lia|].
  split; [done|]. split; [|done]. unfold glue. rewrite Hz. simpl. unfold FRAGMENT_HEADER. lia.
Qed.

(** Gluing the neighbours [x] and [y], of which [y] is free. *)
Lemma glue_ok c free prev x y next :
  heap_ok (unfocus c) free -> frags_of c = rev prev ++ x :: y :: next -> fragment_in_use y = false ->
  ∃ free', free_remove (f_addr y) free = Some free' ∧ heap_ok (unfocus (refocus c prev (glue x y) next)) free' ∧
    same_but (Some (f_addr x)) (all_frags (unfocus c)) (all_frags (unfocus (refocus c prev (glue x y) next))) ∧
    (fragment_in_use x = false -> same_but None (all_frags (unfocus c)) (all_frags (unfocus (refocus c prev (glue x y) next)))).
Proof.
  intros Hok Heq Hy. destruct (focus_frags c free Hok) as [Hc Hb]. destruct (focus_size c free Hok) as [_ [_ Hsz]].
  rewrite Heq in Hc, Hb. apply chain_app in Hc as (m & H1 & <- & Hya & H2).
  destruct (glue_spec (fc_addr c) (fc_size c) x y) as (Ga & Ge & Gu & Gb); [done|by eapply chain_le|by eapply chain_le|done|].
  assert (free ≡ₚ f_addr y :: free_addrs (rev prev ++ glue x y :: next) ++ outer c) as Hp.
  { rewrite (focus_free c free Hok), Heq, !free_addrs_app, !free_addrs_cons, Hy, Gu, Ga.
    destruct (fragment_in_use x); solve_Permutation. }
  destruct (free_remove_perm_elim _ _ _ Hp) as (free' & Hf & Hp'). exists free'. split; [done|]. split_and!.
  - eapply heap_ok_refocus; [done| |done]. split.
    + apply chain_app. exists (f_addr x). split; [done|]. split; [done|]. by rewrite Ge.
    + rewrite !Forall_app, !Forall_cons in *. destruct Hb as (? & Bx & _ & ?). split_and!; [done| |done]. unfold base_ok in *.
      by rewrite Gb, Ga.
  - apply same_but_unfocus. rewrite Heq. intros z Hz Hne. rewrite !elem_of_app, !elem_of_cons.
    assert (z ≠ x) by congruence. assert (z ≠ y) by congruence. assert (z ≠ glue x y) by congruence. tauto.
  - intros Hx. apply same_but_unfocus. rewrite Heq. intros z Hz Hne. rewrite !elem_of_app, !elem_of_cons.
    assert (z ≠ x) by congruence. assert (z ≠ y) by congruence. assert (z ≠ glue x y) by congruence. tauto.
Qed.

Definition free_neighbour (l : list fragment) : bool :=
  match l with x :: _ => negb (fragment_in_use x) | [] => false end.

(** What one half of a round does. *)
Definition merged (c c' : focus) (free : list Z) (d : bool) (free' : list Z) : Prop :=
  heap_ok (unfocus c') free' ∧ fragment_in_use (fc_frag c') = false ∧
  same_but None (all_frags (unfocus c)) (all_frags (unfocus c')) ∧
  if d then (length (fc_prev c') + length (fc_next c') < length (fc_prev c) + length (fc_next c))%nat
  else c' = c ∧ free' = free.

Lemma merge_prev_ok c free :
  heap_ok (unfocus c) free -> fragment_in_use (fc_frag c) = false ->
  ∃ d c' free', merge_prev c free = Some (d, c', free') ∧ merged c c' free d free' ∧
    (d = false -> free_neighbour (fc_prev c) = false).
Proof.
  intros Hok Hfr. unfold merge_prev. destruct (focus_chain c free Hok) as (H1 & _ & _ & B2 & _).
  destruct (fragment_is_mmap_base (fc_frag c)) eqn:Hbase.
  - exists false, c, free. split; [done|]. split; [by split_and!|]. intros _. unfold base_ok in B2. rewrite Hbase in B2.
    symmetry in B2. apply Z.eqb_eq in B2. destruct (fc_prev c) as [|p prev]; [done|]. simpl in H1.
    apply chain_app in H1 as (m & Hm%chain_le & Hpm & Hpe). pose proof (frag_end_gt p). unfold FRAGMENT_HEADER in *. simpl in Hpe. lia.
  - destruct (fc_prev c) as [|p prev] eqn:Hprev.
    { simpl in H1. unfold base_ok in B2. rewrite Hbase in B2. symmetry in B2. apply Z.eqb_neq in B2. by rewrite H1 in B2. }
    destruct (fragment_in_use p) eqn:Hp.
    + exists false, c, free. split; [done|]. split; [by split_and!|]. intros _. simpl. by rewrite Hp.
    + destruct (glue_ok c free prev p (fc_frag c) (fc_next c)) as (free' & -> & Hok' & _ & Hs); [done| |done|].
      { unfold frags_of. rewrite Hprev. simpl. by rewrite <- app_assoc. }
      eexists true, _, free'. split; [reflexivity|]. split; [|done]. split; [done|]. split.
      { simpl. destruct (focus_frags c free Hok) as [Hc _]. destruct (focus_size c free Hok) as [_ [_ Hsz]]. unfold frags_of in Hc.
        rewrite Hprev in Hc. simpl in Hc. rewrite <- app_assoc in Hc. apply chain_app in Hc as (m & Hm & <- & Hy & Hn).
        destruct (glue_spec (fc_addr c) (fc_size c) p (fc_frag c)) as (_ & _ & Gu & _);
          [done|by eapply chain_le|by eapply chain_le|done|]. unfold glue in Gu. by rewrite Gu. }
      split; [by apply Hs|]. simpl. rewrite Hprev. simpl. lia.
Qed.

Lemma merge_next_ok c free :
  heap_ok (unfocus c) free -> fragment_in_use (fc_frag c) = false ->
  ∃ d c' free', merge_next c free = Some (d, c', free') ∧ merged c c' free d free' ∧
    (d = false -> free_neighbour (fc_next c) = false).
Proof.
  intros Hok Hfr. unfold merge_next. destruct (fc_next c) as [|n next] eqn:Hnext.
  - exists false, c, free. split; [done|]. by split; [split_and!|].
  - destruct (fragment_in_use n) eqn:Hn.
    + exists false, c, free. split; [done|]. split; [by split_and!|]. intros _. simpl. by rewrite Hn.
    + destruct (glue_ok c free (fc_prev c) (fc_frag c) n next) as (free' & -> & Hok' & _ & Hs); [done| |done|].
      { unfold frags_of. by rewrite Hnext. }
      eexists true, _, free'. split; [reflexivity|]. split; [|done]. split; [done|]. split.
      { simpl. destruct (focus_chain c free Hok) as (H1 & H2 & _). destruct (focus_size c free Hok) as [_ [_ Hsz]].
        rewrite Hnext in H2. destruct H2 as [Hy H2].
        destruct (glue_spec (fc_addr c) (fc_size c) (fc_frag c) n) as (_ & _ & Gu & _);
          [done|by eapply chain_le|by eapply chain_le|done|]. unfold glue in Gu. by rewrite Gu. }
      split; [by apply Hs|]. simpl. rewrite Hnext. simpl. lia.
Qed.

(** The loop ends, and the fragment has no free neighbour then. *)
Lemma defragment_ok fuel c free :
  heap_ok (unfocus c) free -> fragment_in_use (fc_frag c) = false ->
  (length (fc_prev c) + length (fc_next c) < fuel)%nat ->
  ∃ c' free', defragment fuel c free = Some (c', free') ∧ heap_ok (unfocus c') free' ∧
    fragment_in_use (fc_frag c') = false ∧ same_but None (all_frags (unfocus c)) (all_frags (unfocus c')) ∧
    free_neighbour (fc_prev c') = false ∧ free_neighbour (fc_next c') = false.
Proof.
  revert c free. induction fuel as [|fuel IH]; intros c free Hok Hfr Hlen; [lia|]. simpl.
  destruct (merge_prev_ok c free Hok Hfr) as (d1 & c1 & free1 & -> & (Hok1 & Hfr1 & Hs1 & Hd1) & Hn1).
  destruct (merge_next_ok c1 free1 Hok1 Hfr1) as (d2 & c2 & free2 & E2 & (Hok2 & Hfr2 & Hs2 & Hd2) & Hn2). simpl. rewrite E2. simpl.
  destruct (d1 || d2) eqn:Hd.
  - destruct (IH c2 free2 Hok2 Hfr2) as (c' & free' & -> & ? & ? & Hs & ? & ?).
    + destruct d1, d2; destruct_and?; subst; simpl in Hd; try done; lia.
    + exists c', free'. split; [done|]. split_and!; try done. etrans; [exact Hs1|]. by etrans; [exact Hs2|].
  - apply orb_false_iff in Hd as [-> ->]. destruct Hd1 as [-> ->], Hd2 as [-> ->]. exists c, free. split_and!; try done; auto.
Qed.

(** ** Allocation *)

Lemma free_elem bs free f :
  heap_ok bs free -> f ∈ free -> ∃ x, x ∈ all_frags bs ∧ f_addr x = f ∧ fragment_in_use x = false.
Proof.
  intros [_ _ Hp] Hf. rewrite Hp in Hf. unfold free_addrs in Hf. apply list_elem_of_fmap in Hf as (x & -> & Hx).
  apply list_elem_of_filter in Hx as [? ?]. eauto.
Qed.

(** The search finds a free fragment that is large enough, if there is one. *)
Lemma find_viable_ok h n viable l :
  heap_ok (h_blocks h) (h_free h) -> (∀ f, f ∈ l -> f ∈ h_free h) ->
  (∀ f s, viable = Some (f, s) -> f ∈ h_free h ∧ ∃ x, x ∈ all_frags (h_blocks h) ∧ f_addr x = f ∧ fragment_size x = s ∧ n < s) ->
  ∃ v, find_viable h n viable l = Some v ∧
  (∀ f s, v = Some (f, s) -> ∃ x, x ∈ all_frags (h_blocks h) ∧ f_addr x = f ∧ fragment_in_use x = false ∧ n < fragment_size x).
Proof.
  intros Hok. revert viable. induction l as [|f l IH]; simpl; intros viable Hl Hv.
  - exists viable. split; [done|]. intros f s [Hf (x & Hx & Ha & Hs & Hn)]%Hv.
    destruct (free_elem _ _ f Hok Hf) as (y & Hy & Hya & Hyu). exists x. split_and!; [done|done| |lia].
    by rewrite (frags_unique _ _ x y Hok Hx Hy) by congruence.
  - destruct (free_elem _ _ f Hok) as (x & Hx & <- & Hu); [set_solver|].
    destruct (at_fragment_elem h x Hok Hx) as (c & -> & _ & Hcx). simpl. rewrite Hcx. apply IH; [set_solver|].
    intros f s. destruct (_ && _) eqn:E; [|apply Hv]. intros [= <- <-]. apply andb_true_iff in E as [E%Z.ltb_lt _].
    split; [set_solver|]. by exists x.
Qed.

Lemma take_fragment_ok h x n :
  heap_ok (h_blocks h) (h_free h) -> x ∈ all_frags (h_blocks h) -> fragment_in_use x = false -> 0 <= n <= fragment_size x ->
  ∃ h' y, take_fragment h (f_addr x) n = Some (f_addr x, h') ∧ heap_ok (h_blocks h') (h_free h') ∧ h_mem h' = h_mem h ∧
    y ∈ all_frags (h_blocks h') ∧ f_addr y = f_addr x ∧ fragment_in_use y = true ∧ n <= fragment_size y ∧
    same_but (Some (f_addr x)) (all_frags (h_blocks h)) (all_frags (h_blocks h')).
Proof.
  intros Hok Hx Hu Hn. unfold take_fragment. destruct (at_fragment_elem h x Hok Hx) as (c & -> & Hc & Hcx). simpl.
  rewrite <- Hc in Hok. destruct (shrink_ok c (h_free h) n Hok) as (d & c1 & free1 & E & Hok1 & Ha & Hu1 & Hn1 & Hs1).
  { by rewrite Hcx. }
  rewrite Hcx in *. rewrite E. simpl.
  assert (free1 ≡ₚ f_addr x :: free_addrs (rev (fc_prev c1)) ++ free_addrs (fc_next c1) ++ outer c1) as Hp.
  { rewrite (focus_free c1 free1 Hok1). unfold frags_of. rewrite free_addrs_app, free_addrs_cons, Hu1, Hu, Ha. solve_Permutation. }
  destruct (free_remove_perm_elim _ _ _ Hp) as (free2 & -> & Hp2). simpl.
  destruct (set_in_use_ok c1 free1 free2 true Hok1 Hp2) as [Hok2 Hs2]. rewrite Ha in Hs2.
  destruct (set_in_use_spec (fc_frag c1) true) as (Hsz & Hin & _).
  eexists _, (fragment_set_in_use (fc_frag c1) true). split; [done|]. split_and!; simpl; try done.
  - rewrite all_frags_unfocus. unfold frags_of. simpl. set_solver.
  - rewrite Hsz. lia.
  - rewrite <- Hc. by etrans; [exact Hs1|].
Qed.

(** ** Promises of the interface *)

(** [p] points to [n] bytes that were handed out and not freed. *)
Definition live (h : heap) (p n : Z) : Prop :=
  ∃ x, x ∈ all_frags (h_blocks h) ∧ memory (f_addr x) = p ∧ fragment_in_use x = true ∧ fragment_size x = n.

Definition heap_wf (h : heap) : Prop := heap_ok (h_blocks h) (h_free h).

(** Allocations other than [p] are untouched. *)
Definition others_kept (p : Z) (h h' : heap) : Prop := ∀ q n, q ≠ p -> live h q n <-> live h' q n.

Lemma same_but_kept f h h' :
  same_but (Some f) (all_frags (h_blocks h)) (all_frags (h_blocks h')) -> others_kept (memory f) h h'.
Proof.
  intros Hs q n Hq. unfold live. split; intros (x & Hx & Hm & Hu & Hn); exists x; (split_and!; [|done..]);
    (apply Hs; [done| |done]); intros [= ->]; by apply Hq.
Qed.

Lemma same_all_kept h h' q n :
  same_but None (all_frags (h_blocks h)) (all_frags (h_blocks h')) -> live h q n <-> live h' q n.
Proof. intros Hs. unfold live. split; intros (x & Hx & Hm & Hu & Hn); exists x; (split_and!; [|done..]); by apply Hs. Qed.

Lemma live_disjoint h p n q m : heap_wf h -> live h p n -> live h q m -> p ≠ q -> p + n + FRAGMENT_HEADER <= q ∨ q + m + FRAGMENT_HEADER <= p.
Proof.
  intros Hok (x & Hx & <- & _ & <-) (y & Hy & <- & _ & <-) Hne.
  destruct (frags_disjoint _ _ x y Hok Hx Hy) as [->|Hd]; [done|]. unfold frag_end, memory, FRAGMENT_HEADER in *. lia.
Qed.

Lemma live_not_free h x : heap_wf h -> x ∈ all_frags (h_blocks h) -> fragment_in_use x = false -> ∀ n, ¬ live h (memory (f_addr x)) n.
Proof.
  intros Hok Hx Hu n (y & Hy & Hm & Huy & _). assert (x = y) as ->; [|congruence].
  eapply frags_unique; [done..|]. unfold memory in Hm. lia.
Qed.

(** The part of mmap(2) the allocator relies on: an error number, or an
    address range that does not overlap the blocks it already has. *)
Definition mmap_gives (bs : list block) (len r : Z) : Prop :=
  -4095 <= r <= -1 ∨
  (0 < r ∧ r + len < 2 ^ 63 ∧ Forall (λ b, r + len <= b_addr b ∨ b_addr b + BLOCK_HEADER + b_size b <= r) bs).

Definition mmap_host (bs : list block) : protocol := Protocol (λ _ _, True)
  (λ X e, match e in linuxE X return X -> Prop with
          | Sys nr (AInt _ :: AInt len :: _) => λ r, nr = __NR_mmap -> mmap_gives bs len r
          | _ => λ _, True
          end) False.

Lemma wp_sys_mmap bs len prot flags g (Q : Z -> gstate -> Prop) :
  (∀ v, u64 (-4096) < v -> Q v g) ->
  (∀ r, 0 < r -> r + len < 2 ^ 63 -> 0 <= len ->
     Forall (λ b, r + len <= b_addr b ∨ b_addr b + BLOCK_HEADER + b_size b <= r) bs -> Q r g) ->
  0 <= len -> wp (mmap_host bs) (sys_mmap 0 len prot flags (-1) 0) g Q.
Proof.
  intros Hfail Hok Hlen. unfold sys_mmap. cbv zeta. wp_step. wp_step; [done|]. intros r Hr. cbn in Hr.
  specialize (Hr eq_refl). change (u64 (-4096)) with (2 ^ 64 - 4096) in *. destruct Hr as [Hr|(Hr & Hl & Hb)].
  - assert (u64 r = r + 2 ^ 64) as Hu by (unfold u64; symmetry; apply (Z.mod_unique r (2 ^ 64) (-1)); lia).
    rewrite Hu. destruct (Z.ltb_spec (2 ^ 64 - 4096) (r + 2 ^ 64)); [|lia]. wp_step. apply Hfail.
    rewrite s32_id by (unfold INT_MIN, INT_MAX; lia). pose proof (errno_range r).
    assert (u64 (errno_linux_to_bsd r) = errno_linux_to_bsd r + 2 ^ 64) as -> by
      (unfold u64; symmetry; apply (Z.mod_unique _ (2 ^ 64) (-1)); lia). lia.
  - rewrite u64_id by lia. destruct (Z.ltb_spec (2 ^ 64 - 4096) r); [lia|]. wp_step. by apply Hok.
Qed.

Lemma round_up_spec n : 0 <= n < 2 ^ 62 -> n <= round_up n BLOCK_SIZE_MULTIPLE < n + 4096 ∧ (0 < n -> 4096 <= round_up n BLOCK_SIZE_MULTIPLE).
Proof.
  intros Hn. unfold round_up, BLOCK_SIZE_MULTIPLE. change (4096 - 1) with (Z.ones 12).
  rewrite Z.land_ones by lia. pose proof (Z.mod_pos_bound n (2 ^ 12)). destruct (Z.eqb_spec (n mod 2 ^ 12) 0) as [H0|H0].
  - split; [lia|]. intros ?. pose proof (Z.div_mod n (2 ^ 12)). assert (n / 2 ^ 12 <> 0) by (intros Hz; lia).
    pose proof (Z.div_pos n (2 ^ 12)). lia.
  - assert (Z.lor n (Z.ones 12) = n - n mod 2 ^ 12 + Z.ones 12) as ->.
    { pose proof (Z.add_lor_land n (Z.ones 12)) as Hs. rewrite Z.land_ones in Hs by lia. lia. }
    change (Z.ones 12) with 4095. rewrite u64_id by lia. pose proof (Z.div_pos n (2 ^ 12)). pose proof (Z.div_mod n (2 ^ 12)). lia.
Qed.

(** A request that leaves room for the block header in the pages it is
    rounded up to. *)
Definition fits (n : Z) : bool := n + BLOCK_HEADER <=? round_up n BLOCK_SIZE_MULTIPLE.

(** A block that has just been mapped. *)
Lemma block_init_ok h addr len :
  heap_wf h -> 0 < addr -> BLOCK_HEADER <= len < 2 ^ 62 ->
  Forall (λ b, addr + len <= b_addr b ∨ b_addr b + BLOCK_HEADER + b_size b <= addr) (h_blocks h) ->
  let b := block_init addr (u64 (len - BLOCK_HEADER)) in
  heap_ok (b :: h_blocks h) (addr + FIRST_FRAGMENT :: h_free h) ∧
  ∃ x, b_frags b = [x] ∧ f_addr x = addr + FIRST_FRAGMENT ∧ fragment_in_use x = false ∧ fragment_size x = len - BLOCK_HEADER.
Proof.
  intros [Hb Ha Hf] Hpos Hlen Hap. unfold BLOCK_HEADER in Hlen. cbv zeta. unfold block_init.
  rewrite u64_id by (unfold BLOCK_HEADER; lia). set (x := fragment_set_is_mmap_base _ true).
  destruct (init_spec (addr + FIRST_FRAGMENT) (len - BLOCK_HEADER)) as (Is & Iu & Ib); [unfold BLOCK_HEADER; lia|].
  destruct (set_base_spec (fragment_init (addr + FIRST_FRAGMENT) (len - BLOCK_HEADER))) as (Ss & Su & Sb).
  fold x in Ss, Su, Sb. split; [|exists x; by rewrite Ss, Su, Is, Iu]. constructor.
  - constructor; [|done]. split; [done|]. simpl. split; [unfold BLOCK_HEADER; lia|]. split.
    + split; [done|]. unfold frag_end. rewrite Ss, Is. simpl. unfold FIRST_FRAGMENT, BLOCK_HEADER, FRAGMENT_HEADER. lia.
    + constructor; [|done]. unfold base_ok. rewrite Sb. symmetry. by apply Z.eqb_eq.
  - split; [|done]. eapply Forall_impl; [exact Hap|]. intros b. unfold apart. simpl. unfold BLOCK_HEADER. lia.
  - unfold all_frags. simpl. rewrite free_addrs_cons, Su, Iu. simpl. by rewrite Hf.
Qed.

(** What an allocation of [n] bytes gives. *)
Definition allocated (h : heap) (n : Z) (f : option Z) (h' : heap) : Prop :=
  heap_wf h' ∧ h_mem h' = h_mem h ∧
  match f with
  | None => h' = h
  | Some f => (∃ m, n <= m ∧ live h' (memory f) m) ∧ (∀ m, ¬ live h (memory f) m) ∧ others_kept (memory f) h h'
  end.

Lemma take_allocated h x n Ψ g (Q : option Z * heap -> gstate -> Prop) :
  heap_wf h -> x ∈ all_frags (h_blocks h) -> fragment_in_use x = false -> 0 <= n <= fragment_size x ->
  (∀ h', allocated h n (Some (f_addr x)) h' -> Q (Some (f_addr x), h') g) ->
  wp Ψ ('(f, h) ← defined (take_fragment h (f_addr x) n); mret (Some f, h)) g Q.
Proof.
  intros Hok Hx Hu Hn HQ. destruct (take_fragment_ok h x n Hok Hx Hu Hn) as (h' & y & E & Hok' & Hm & Hy & Ha & Hyu & Hs & Hsame).
  eapply wp_bind_defined; [exact E|]. apply wp_ret, HQ. split; [done|]. split; [done|]. split_and!.
  - exists (fragment_size y). split; [done|]. exists y. by rewrite Ha.
  - by apply live_not_free.
  - by apply same_but_kept.
Qed.

Lemma allocate_ok h n g (Q : option Z * heap -> gstate -> Prop) :
  heap_wf h -> 0 < n < 2 ^ 61 -> fits n = true ->
  (∀ f h', allocated h n f h' -> Q (f, h') g) ->
  wp (mmap_host (h_blocks h)) (allocate_fragment h n) g Q.
Proof.
  intros Hok Hn Hfit HQ. unfold allocate_fragment.
  destruct (find_viable_ok h n None (h_free h) Hok) as (v & E & Hv); [done..|]. eapply wp_bind_defined; [exact E|].
  destruct v as [[f s]|].
  - destruct (Hv f s eq_refl) as (x & Hx & <- & Hu & Hsz). eapply take_allocated; [done..|lia|auto].
  - unfold fits in Hfit. apply Z.leb_le in Hfit. destruct (round_up_spec n) as [Hr _]; [lia|].
    set (len := round_up n BLOCK_SIZE_MULTIPLE) in *. cbv zeta. unfold BLOCK_HEADER in Hfit. wp_step. apply wp_sys_mmap; [| |lia].
    + intros v Hv4. apply Z.ltb_lt in Hv4. rewrite Hv4. wp_step. by apply HQ.
    + intros r Hpos Hlen _ Hb. destruct (Z.ltb_spec (u64 (-4096)) r) as [Hlt|_]; [change (u64 (-4096)) with (2 ^ 64 - 4096) in Hlt; lia|].
      destruct (block_init_ok h r len) as (Hok1 & x & Hbx & Hxa & Hxu & Hxs); [done|done|unfold BLOCK_HEADER; lia|done|].
      set (h1 := Heap _ _ _). rewrite <- Hxa.
      assert (all_frags (h_blocks h1) = x :: all_frags (h_blocks h)) as Hall.
      { unfold h1, all_frags. cbn [h_blocks]. by rewrite bind_cons, Hbx. }
      assert (∀ q m, live h q m <-> live h1 q m) as Hlive.
      { intros q m. unfold live. rewrite Hall. split; intros (y & Hy & ? & Hyu & ?); exists y; [split; [by right|done]|].
        apply elem_of_cons in Hy as [->|Hy]; [congruence|done]. }
      eapply take_allocated; [done|rewrite Hall; by left|done|rewrite Hxs; unfold BLOCK_HEADER; lia|].
      intros h' (Hw & Hm & Hl & Hf & Hk). apply HQ. split; [done|]. split; [done|]. split_and!; [done| |].
      * intros m. rewrite Hlive. apply Hf.
      * intros q m Hq. rewrite Hlive. by apply Hk.
Qed.

(** ** Theorems *)

(** C7: allocation.  On a well-formed heap, a request of less than 2^61 bytes
    that together with the 56 bytes of the block header does not pass the next
    multiple of 4096 ([fits]; other sizes, such as 4096, overrun the mapping,
    see [malloc_overrun]) ends without undefined behaviour, keeps the heap well
    formed, and gives null and an unchanged heap, or memory of at least the
    requested size that was not in use and does not overlap any other
    allocation, all of which stay as they are.  mmap may fail or return any
    range that does not overlap the blocks in use. *)
Theorem malloc_ok h size g :
  heap_wf h -> 0 <= size < 2 ^ 61 -> size = 0 ∨ fits size = true ->
  wp (mmap_host (h_blocks h)) (xtrace_malloc h size) g (λ '(p, h') _,
    heap_wf h' ∧ h_mem h' = h_mem h ∧
    ((p = 0 ∧ h' = h) ∨
     (∃ m, size <= m ∧ live h' p m) ∧ (∀ m, ¬ live h p m) ∧ others_kept p h h' ∧
     (∀ q m, live h q m -> p + size <= q ∨ q + m <= p))).
Proof.
  intros Hok Hs Hfit. unfold xtrace_malloc. destruct (Z.eqb_spec size 0) as [|Hne]; [wp_step; by split_and!; auto|].
  wp_step. destruct Hfit as [|Hfit]; [done|]. apply allocate_ok; [done|lia|done|]. intros [f|] h' (Hw & Hm & Hres); wp_step.
  - destruct Hres as ((m & Hmn & Hl) & Hf & Hk). split; [done|]. split; [done|]. right. split_and!; [by exists m|done|done|].
    intros q k Hq. assert (q ≠ memory f) as Hqf by (intros ->; by eapply Hf).
    apply (Hk q k) in Hq; [|done]. destruct (live_disjoint h' (memory f) m q k) as [|]; [done..| |];
      unfold FRAGMENT_HEADER in *; lia.
  - split; [done|]. split; [done|]. left. by subst.
Qed.

(** A host with a page range for mmap, for the heaps of the examples. *)
Definition page_host : handler unit := λ X e s, (match e in linuxE X return X with
  | Sys _ (AInt _ :: AInt len :: _) => if len <? 2 ^ 40 then 0x10000 else - LINUX_ENOMEM
  | Sys _ _ => 0
  | SysOut _ _ o => (0, zero_out o)
  | Lkm c => (0, zero_lkm c)
  end, s).

Lemma page_host_follows : follows page_host (mmap_host []).
Proof.
  intros X e s _. destruct e as [nr args| |]; [|done..]. simpl. destruct args as [|[] args]; try done. destruct args as [|[] args]; try done.
  intros _. destruct (Z.ltb_spec z0 (2 ^ 40)); [right; split_and!; [lia|lia|done]|left; by vm_compute].
Qed.

Lemma empty_wf : heap_wf empty_heap.
Proof. by constructor. Qed.

Lemma malloc_ok_witness : ∃ p h', run page_host (xtrace_malloc empty_heap 100) init_gstate tt = Some ((p, h'), init_gstate, tt) ∧
  p = 0x10038 ∧ heap_wf h' ∧ ∃ m, 100 <= m ∧ live h' p m.
Proof.
  destruct (wp_run page_host (mmap_host []) (xtrace_malloc empty_heap 100) init_gstate _ tt id page_host_follows
    (malloc_ok empty_heap 100 init_gstate empty_wf ltac:(lia) ltac:(right; reflexivity))) as ([p h'] & g' & [] & Hr & Hw & _ & Hres).
  exists p, h'. assert (p = 0x10038 ∧ g' = init_gstate) as [Hp ->] by (vm_compute in Hr; by simplify_eq). split; [done|].
  split; [done|]. split; [done|]. destruct Hres as [[-> _]|[Hl _]]; [done|exact Hl].
Defined.

(** When the first fragment is as large as the block, it is the only one. *)
Lemma base_alone c free :
  heap_ok (unfocus c) free -> fragment_is_mmap_base (fc_frag c) = true -> fc_size c = fragment_size (fc_frag c) ->
  fc_prev c = [] ∧ fc_next c = [].
Proof.
  intros Hok Hbase Hsz. destruct (focus_chain c free Hok) as (C1 & C2 & _ & B2 & _).
  unfold base_ok in B2. rewrite Hbase in B2. symmetry in B2. apply Z.eqb_eq in B2. split.
  - destruct (fc_prev c) as [|p prev]; [done|]. simpl in C1. apply chain_app in C1 as (m & Hm%chain_le & Hpm & Hpe).
    simpl in Hpe. pose proof (frag_end_gt p). unfold FRAGMENT_HEADER in *. lia.
  - destruct (fc_next c) as [|n next]; [done|]. destruct C2 as [Hna C2%chain_le]. pose proof (frag_end_gt n).
    unfold frag_end in Hna at 1. rewrite B2, <- Hsz in Hna. unfold frag_end, FRAGMENT_HEADER, BLOCK_HEADER, FIRST_FRAGMENT in *. lia.
Qed.

(** Unmapping a block of which nothing is in use. *)
Lemma unmap_ok c free :
  heap_ok (unfocus c) free -> fc_prev c = [] -> fc_next c = [] -> fragment_in_use (fc_frag c) = false ->
  ∃ free', free_remove (f_addr (fc_frag c)) free = Some free' ∧ heap_ok (fc_before c ++ fc_after c) free' ∧
    same_but None (all_frags (unfocus c)) (all_frags (fc_before c ++ fc_after c)).
Proof.
  intros Hok Hp Hn Hu. assert (free ≡ₚ f_addr (fc_frag c) :: outer c) as Hperm.
  { rewrite (focus_free c _ Hok). unfold frags_of. rewrite Hp, Hn. simpl. by rewrite free_addrs_cons, Hu. }
  destruct (free_remove_perm_elim _ _ _ Hperm) as (free' & E & Hp2). exists free'. split; [done|].
  destruct Hok as [Kb Ka Kf]. unfold unfocus in Kb, Ka. rewrite Forall_app, Forall_cons in Kb. split; [constructor|].
  - rewrite Forall_app. tauto.
  - clear -Ka. induction (fc_before c) as [|b bs IH]; simpl in *; [tauto|].
    rewrite Forall_app, Forall_cons in Ka. rewrite Forall_app. tauto.
  - rewrite Hp2. unfold outer, all_frags. by rewrite bind_app, free_addrs_app.
  - intros y Hy _. rewrite all_frags_unfocus. unfold all_frags. rewrite bind_app, !elem_of_app. unfold frags_of. rewrite Hp, Hn. simpl.
    rewrite list_elem_of_singleton. assert (y ≠ fc_frag c) by congruence. tauto.
Qed.

(** A pointer that was handed out is released without undefined behaviour. *)
Lemma release_ok h x Ψ g (Q : heap -> gstate -> Prop) :
  (∀ nr args, may_call Ψ (Sys nr args)) ->
  heap_wf h -> x ∈ all_frags (h_blocks h) -> fragment_in_use x = true ->
  (∀ h', heap_wf h' -> h_mem h' = h_mem h -> (∀ m, ¬ live h' (memory (f_addr x)) m) ->
     others_kept (memory (f_addr x)) h h' -> Q h' g) ->
  wp Ψ (release_fragment h (f_addr x)) g Q.
Proof.
  intros HΨ Hok Hx Hu HQ. unfold release_fragment. destruct (at_fragment_elem h x Hok Hx) as (c & E & Hc & Hcx).
  eapply wp_bind_defined; [exact E|]. cbv zeta. rewrite Hcx. unfold heap_wf in Hok. rewrite <- Hc in Hok.
  set (c0 := refocus c _ _ _).
  destruct (set_in_use_ok c (h_free h) (f_addr x :: h_free h) false Hok) as [Hok0 Hs0].
  { rewrite (focus_free c _ Hok). unfold frags_of. rewrite Hcx, free_addrs_app, free_addrs_cons, Hu. simpl. solve_Permutation. }
  cbv zeta in Hok0, Hs0. rewrite Hcx in Hok0, Hs0. fold c0 in Hok0, Hs0. rewrite Hc in Hs0.
  destruct (set_in_use_spec x false) as (_ & Hin0 & _).
  destruct (defragment_ok (defragment_rounds c0) c0 _ Hok0 Hin0) as (c1 & free1 & E1 & Hok1 & Hin1 & Hs1 & _); [unfold defragment_rounds; lia|].
  eapply wp_bind_defined; [exact E1|]. cbv beta iota.
  assert (∀ bs free', heap_ok bs free' -> same_but None (all_frags (unfocus c0)) (all_frags bs) -> Q (Heap bs free' (h_mem h)) g) as Hend.
  { intros bs free' Hbs Hsame. apply HQ; [done|done| |].
    - intros m (y & Hy & Hm & Hyu & Hym). apply Hsame in Hy; [|done..].
      eapply (live_not_free (Heap (unfocus c0) (f_addr x :: h_free h) (h_mem h)) (fc_frag c0)); [done| |done|by exists y].
      cbn [h_blocks]. rewrite all_frags_unfocus. unfold frags_of. set_solver.
    - apply same_but_kept. etrans; [exact Hs0|]. by apply same_but_weaken. }
  destruct (_ && _) eqn:Hb; [|apply wp_ret; by apply Hend].
  apply andb_true_iff in Hb as [Hbase Hnot]. unfold block_in_use in Hnot. rewrite Hin1 in Hnot. simpl in Hnot.
  apply negb_true_iff, negb_false_iff, Z.eqb_eq in Hnot. destruct (base_alone c1 free1 Hok1 Hbase Hnot) as [Hp Hn].
  destruct (unmap_ok c1 free1 Hok1 Hp Hn Hin1) as (free2 & E2 & Hok2 & Hs2). eapply wp_bind_defined; [exact E2|].
  unfold sys_munmap. wp_step. wp_step. apply wp_syscall_int; [done|]. intros r _. apply wp_ret. apply wp_ret.
  apply Hend; [done|]. by etrans.
Qed.

(** C19: releasing memory.  A pointer that is in use is released without undefined
    behaviour, whatever the kernel answers; the heap stays well formed, the
    pointer is not in use any more, all other allocations keep their place,
    their size and their contents. *)
Theorem free_ok h p n g :
  heap_wf h -> live h p n ->
  wp any_host_total (xtrace_free h p) g (λ h' _,
    heap_wf h' ∧ h_mem h' = h_mem h ∧ (∀ m, ¬ live h' p m) ∧ others_kept p h h').
Proof.
  intros Hok (x & Hx & <- & Hu & Hn). unfold xtrace_free, container_of. destruct (Z.eqb_spec (memory (f_addr x)) 0) as [H0|_].
  - exfalso. destruct Hok as [Hb _ _]. apply list_elem_of_bind in Hx as (b & Hx & Hbx). rewrite Forall_forall in Hb.
    destruct (Hb b Hbx) as (Hpos & _ & Hc & _). apply (chain_bounds _ _ _ x) in Hc as [? _]; [|done].
    unfold memory, FRAGMENT_HEADER, FIRST_FRAGMENT in *. lia.
  - replace (memory (f_addr x) - FRAGMENT_HEADER) with (f_addr x) by (unfold memory; lia).
    apply release_ok; [done..|]. intros h' ????. by split_and!.
Qed.

Lemma example_heap : ∃ h n, run page_host (xtrace_malloc empty_heap 100) init_gstate tt = Some ((0x10038, h), init_gstate, tt) ∧
  heap_wf h ∧ 100 <= n ∧ live h 0x10038 n.
Proof.
  assert (wp (mmap_host []) (xtrace_malloc empty_heap 100) init_gstate (λ '(p, h') _, heap_wf h' ∧ (p = 0 ∨ ∃ n, 100 <= n ∧ live h' p n))) as Hw.
  { unfold xtrace_malloc. simpl. wp_step. apply (allocate_ok empty_heap); [apply empty_wf|lia|done|].
    intros [f|] h' (? & ? & Hres); apply wp_ret; (split; [done|]); [right; by destruct Hres as [? _]|by left]. }
  destruct (wp_run page_host (mmap_host []) _ _ _ tt id page_host_follows Hw) as ([p h'] & g' & [] & Hr & Hw2 & Hres).
  assert (p = 0x10038 ∧ g' = init_gstate) as [-> ->] by (vm_compute in Hr; by simplify_eq).
  destruct Hres as [?|(n & ? & ?)]; [done|]. by exists h', n.
Qed.

Lemma free_ok_witness : ∃ h p n, live h p n ∧
  wp any_host_total (xtrace_free h p) init_gstate (λ h' _, heap_wf h' ∧ h_mem h' = h_mem h ∧ (∀ m, ¬ live h' p m) ∧ others_kept p h h').
Proof.
  destruct example_heap as (h & n & _ & Hw & _ & Hl). exists h, 0x10038, n. split; [done|]. by apply (free_ok h 0x10038 n).
Defined.

(** ** Resizing *)

(** The memory of the first [n] fragments of a list with their headers. *)
Definition total (l : list fragment) : Z := foldr (λ x s, fragment_size x + FRAGMENT_HEADER + s) 0 l.

Lemma absorb_count_ok l available n k :
  absorb_count available n l = Some k -> available < n ->
  (k <= length l)%nat ∧ Forall (λ x, fragment_in_use x = false) (take k l) ∧ n <= available + total (take k l).
Proof.
  revert available k. induction l as [|x l IH]; simpl; intros available k E Hlt; [done|].
  destruct (fragment_in_use x) eqn:Hu; [destruct (Z.leb_spec n available); [lia|done]|].
  destruct (Z.leb_spec n (available + (fragment_size x + FRAGMENT_HEADER))); simplify_eq.
  - simpl. split; [lia|]. split; [by repeat constructor|]. lia.
  - destruct (absorb_count _ n l) as [k'|] eqn:Ek; simplify_eq/=. destruct (IH _ _ Ek) as (? & ? & ?); [done|].
    split; [lia|]. split; [by constructor|]. lia.
Qed.

Lemma absorb_ok k c free :
  heap_ok (unfocus c) free -> (k <= length (fc_next c))%nat -> Forall (λ x, fragment_in_use x = false) (take k (fc_next c)) ->
  ∃ c' free', absorb k c free = Some (c', free') ∧ heap_ok (unfocus c') free' ∧ f_addr (fc_frag c') = f_addr (fc_frag c) ∧
    fragment_in_use (fc_frag c') = fragment_in_use (fc_frag c) ∧
    fragment_size (fc_frag c') = fragment_size (fc_frag c) + total (take k (fc_next c)) ∧
    same_but (Some (f_addr (fc_frag c))) (all_frags (unfocus c)) (all_frags (unfocus c')).
Proof.
  revert c free. induction k as [|k IH]; intros c free Hok Hk Hfree; simpl.
  - exists c, free. split_and!; try done. simpl. lia.
  - destruct (fc_next c) as [|y next] eqn:Hnext; simpl in Hk; [lia|]. simpl in Hfree. apply Forall_cons in Hfree as [Hy Hfree].
    destruct (glue_ok c free (fc_prev c) (fc_frag c) y next) as (free1 & -> & Hok1 & Hs1 & _); [done|by unfold frags_of; rewrite Hnext|done|].
    simpl. destruct (focus_chain c free Hok) as (H1 & H2 & _). destruct (focus_size c free Hok) as [_ [_ Hsz]].
    rewrite Hnext in H2. destruct H2 as [Hya H2].
    destruct (glue_spec (fc_addr c) (fc_size c) (fc_frag c) y) as (Ga & Ge & Gu & _); [done|by eapply chain_le|by eapply chain_le|done|].
    destruct (IH (refocus c (fc_prev c) (glue (fc_frag c) y) next) free1) as (c' & free' & E & Hok' & Ha & Hu & Hz & Hs); [done|simpl; lia|done|].
    unfold glue in E at 1. exists c', free'. split; [done|]. simpl in Ha, Hu, Hz, Hs. split_and!; [done|by rewrite Ha|by rewrite Hu| |].
    + rewrite Hz. unfold frag_end in *. simpl. lia.
    + by etrans.
Qed.

Lemma expand_ok c free n :
  heap_ok (unfocus c) free -> fragment_size (fc_frag c) < n ->
  ∃ d c' free', expand_fragment c free n = Some (d, c', free') ∧
    if d then heap_ok (unfocus c') free' ∧ f_addr (fc_frag c') = f_addr (fc_frag c) ∧
         fragment_in_use (fc_frag c') = fragment_in_use (fc_frag c) ∧ n <= fragment_size (fc_frag c') ∧
         same_but (Some (f_addr (fc_frag c))) (all_frags (unfocus c)) (all_frags (unfocus c'))
    else c' = c ∧ free' = free.
Proof.
  intros Hok Hn. unfold expand_fragment. destruct (absorb_count _ n (fc_next c)) as [k|] eqn:E; [|by exists false, c, free].
  apply absorb_count_ok in E as (Hk & Hfree & Hle); [|done].
  destruct (absorb_ok k c free Hok Hk Hfree) as (c1 & free1 & -> & Hok1 & Ha1 & Hu1 & Hz1 & Hs1). simpl.
  pose proof (fragment_size_range (fc_frag c)).
  destruct (shrink_ok c1 free1 n Hok1) as (d & c2 & free2 & -> & Hok2 & Ha2 & Hu2 & Hz2 & Hs2); [lia|]. simpl.
  eexists true, c2, free2. split; [done|]. rewrite Ha2, Hu2, Ha1, Hu1. split_and!; try done; [lia|].
  rewrite Ha1 in Hs2. by etrans.
Qed.

Lemma in_focus c : fc_frag c ∈ all_frags (unfocus c).
Proof. rewrite all_frags_unfocus. unfold frags_of. set_solver. Qed.

(** The result of resizing [p], which had [n] bytes: null with an unchanged
    heap, or a pointer to at least the new size with the old contents, as
    far as both reach; other allocations keep place, size and contents. *)
Definition resized (h : heap) (p n new_size q : Z) (h' : heap) : Prop :=
  heap_wf h' ∧
  ((q = 0 ∧ h' = h) ∨
   (∃ m, new_size <= m ∧ live h' q m) ∧
   (∀ i, 0 <= i < n `min` new_size -> h_mem h' (q + i) = h_mem h (p + i)) ∧
   (∀ r k, r ≠ p -> live h r k -> live h' r k ∧ ∀ i, 0 <= i < k -> h_mem h' (r + i) = h_mem h (r + i))).

Lemma resized_in_place h f n new_size c' free' :
  heap_ok (unfocus c') free' -> f_addr (fc_frag c') = f -> fragment_in_use (fc_frag c') = true ->
  new_size <= fragment_size (fc_frag c') -> same_but (Some f) (all_frags (h_blocks h)) (all_frags (unfocus c')) ->
  resized h (memory f) n new_size (memory f) (Heap (unfocus c') free' (h_mem h)).
Proof.
  intros Hok' Ha Hu' Hz Hsame. split; [done|]. right. split_and!; [|done|].
  - exists (fragment_size (fc_frag c')). split; [done|]. exists (fc_frag c'). rewrite Ha. split; [apply in_focus|done].
  - intros r k Hr Hl. split; [|done]. by apply (same_but_kept f h (Heap (unfocus c') free' (h_mem h)) Hsame r k Hr).
Qed.

(** The new memory does not overlap what other pointers refer to. *)
Lemma copy_mem_other h p m src n r k i :
  heap_wf h -> live h p m -> live h r k -> r ≠ p -> n <= m -> 0 <= i < k ->
  copy_mem (h_mem h) p src n (r + i) = h_mem h (r + i).
Proof.
  intros Hok Hp Hr Hne Hn Hi. unfold copy_mem. destruct (live_disjoint h p m r k) as [Hd|Hd]; [done..| |];
    unfold FRAGMENT_HEADER in Hd; destruct (Z.leb_spec p (r + i)), (Z.ltb_spec (r + i) (p + n)); simpl; lia || done.
Qed.

Lemma resized_by_copy h x n new_size nf h1 Ψ g (Q : Z * heap -> gstate -> Prop) :
  (∀ nr args, may_call Ψ (Sys nr args)) ->
  live h (memory (f_addr x)) n -> n < new_size -> allocated h new_size (Some nf) h1 ->
  (∀ q h', resized h (memory (f_addr x)) n new_size q h' -> Q (q, h') g) ->
  wp Ψ (h2 ← release_fragment (Heap (h_blocks h1) (h_free h1) (copy_mem (h_mem h1) (memory nf) (memory (f_addr x)) n)) (f_addr x);
        mret (memory nf, h2)) g Q.
Proof.
  intros HΨ Hold Hlt (Hw1 & Hm1 & (m & Hm & Hl) & Hfresh & Hkept) HQ.
  assert (memory nf ≠ memory (f_addr x)) as Hnf by (intros Heq; rewrite Heq in Hfresh; by apply (Hfresh n)).
  apply (Hkept _ n) in Hold as Hold1; [|done]. destruct Hold1 as (y & Hy & Hya & Hyu & Hyn).
  assert (f_addr y = f_addr x) as Hyx by (unfold memory in Hya; lia).
  wp_step. rewrite <- Hyx. apply (release_ok (Heap (h_blocks h1) (h_free h1) _) y); [done..|]. rewrite Hyx. cbn [h_mem].
  intros h2 Hw2 Hm2 Hdead Hk2. apply wp_ret, HQ. split; [done|]. right. split_and!.
  - exists m. split; [done|]. by apply (Hk2 (memory nf) m).
  - intros i Hi. rewrite Hm2. unfold copy_mem. destruct (Z.leb_spec (memory nf) (memory nf + i)); [|lia].
    destruct (Z.ltb_spec (memory nf + i) (memory nf + n)); [|lia]. simpl. rewrite Hm1. f_equal. lia.
  - intros r k Hr Hlr. assert (r ≠ memory nf) as Hrn by (intros ->; by apply (Hfresh k)).
    apply (Hkept r k Hrn) in Hlr as Hlr1. split; [by apply (Hk2 r k)|]. intros i Hi. rewrite Hm2, <- Hm1.
    eapply (copy_mem_other h1 _ m); [done..|lia|done].
Qed.

(** C20: resizing.  A pointer in use is resized, to a size that is not larger
    or that [fits] (with the block header, within the next multiple of 4096),
    without undefined behaviour; the result is null with an unchanged heap, or a pointer to at least the new
    size whose contents are those of the old memory, as far as both reach.
    All other allocations keep their place, their size and their contents. *)
Theorem realloc_ok h p n new_size g :
  heap_wf h -> live h p n -> 0 <= new_size < 2 ^ 61 -> new_size <= n ∨ fits new_size = true ->
  wp (mmap_host (h_blocks h)) (xtrace_realloc h p new_size) g (λ '(q, h') _, resized h p n new_size q h').
Proof.
  intros Hok (x & Hx & Hp & Hu & Hn) Hs Hfit. unfold xtrace_realloc. subst p. cbv zeta.
  replace (container_of (memory (f_addr x))) with (f_addr x) by (unfold container_of, memory; lia).
  destruct (at_fragment_elem h x Hok Hx) as (c & E & Hc & Hcx). eapply wp_bind_defined; [exact E|]. rewrite Hcx, Hn.
  unfold heap_wf in Hok. pose proof Hok as Hok0. rewrite <- Hc in Hok0. destruct (Z.ltb_spec new_size n) as [Hlt|Hge].
  - destruct (shrink_ok c (h_free h) new_size Hok0) as (d & c1 & free1 & E1 & Hok1 & Ha & Hu1 & Hz & Hsame); [rewrite Hcx; lia|].
    eapply wp_bind_defined; [exact E1|]. rewrite Hcx, Hc in *. apply wp_ret, resized_in_place; congruence || lia || done.
  - destruct (Z.eqb_spec new_size n) as [->|Hne].
    + apply wp_ret. split; [done|]. right. split_and!; [exists n; split; [lia|by exists x]|done|done].
    + destruct (expand_ok c (h_free h) new_size Hok0) as (d & c1 & free1 & E1 & Hd); [rewrite Hcx; lia|].
      eapply wp_bind_defined; [exact E1|]. rewrite Hcx, Hc in Hd. destruct d.
      { destruct Hd as (? & ? & Hu1 & ? & ?). apply wp_ret, resized_in_place; congruence || done. }
      apply wp_bind. destruct Hfit as [|Hfit]; [lia|]. pose proof (fragment_size_range x). apply allocate_ok; [done|lia|done|].
      intros [nf|] h1 Hall; [|apply wp_ret; destruct Hall as (? & ? & ->); split; [done|by left]].
      eapply resized_by_copy; [done|by exists x| |done|done]. lia.
Qed.

Lemma realloc_ok_witness : ∃ h n, live h 0x10038 n ∧
  wp (mmap_host (h_blocks h)) (xtrace_realloc h 0x10038 200) init_gstate (λ '(q, h') _, resized h 0x10038 n 200 q h').
Proof.
  destruct example_heap as (h & n & _ & Hw & _ & Hl). exists h, n. split; [done|].
  apply (realloc_ok h 0x10038 n 200 init_gstate Hw Hl); [lia|right; reflexivity].
Defined.

(** Cutting a fragment that is smaller than the request. *)
Lemma take_overrun h addr len size :
  0 < size < 2 ^ 61 -> BLOCK_HEADER <= len < size + BLOCK_HEADER ->
  h_blocks h = [block_init addr (len - BLOCK_HEADER)] -> take_fragment h (addr + FIRST_FRAGMENT) size = None.
Proof.
  intros Hs Hlen Hb. unfold BLOCK_HEADER in Hlen. unfold take_fragment, at_fragment. rewrite Hb. unfold block_init. cbn [find_focus b_frags].
  set (x := fragment_set_is_mmap_base _ true).
  destruct (init_spec (addr + FIRST_FRAGMENT) (len - BLOCK_HEADER)) as (Is & _); [unfold BLOCK_HEADER; lia|].
  destruct (set_base_spec (fragment_init (addr + FIRST_FRAGMENT) (len - BLOCK_HEADER))) as (Ss & _). fold x in Ss. rewrite Is in Ss.
  assert (f_addr x = addr + FIRST_FRAGMENT) as Hx by done. cbn [find_fragment]. rewrite Hx, Z.eqb_refl. simpl.
  unfold shrink_fragment. cbn [fc_frag]. rewrite Ss, Hx.
  assert (u64 (len - BLOCK_HEADER - size) = len - BLOCK_HEADER - size + 2 ^ 64) as ->.
  { unfold u64. symmetry. apply (Z.mod_unique _ (2 ^ 64) (-1)); unfold BLOCK_HEADER; lia. }
  destruct (Z.ltb_spec FRAGMENT_HEADER (len - BLOCK_HEADER - size + 2 ^ 64)); [|unfold FRAGMENT_HEADER, BLOCK_HEADER in *; lia].
  assert (mapped _ _ _ = false) as ->; [|done]. apply andb_false_iff. right. apply Z.leb_gt. simpl.
  unfold memory, FRAGMENT_HEADER, FIRST_FRAGMENT, BLOCK_HEADER. lia.
Qed.

(** The missing room for the header.  A request that fills its last page to
    within 56 bytes, for example 4096 bytes, is given a block that is too
    small for it: on an empty heap, whatever address mmap returns, the code
    goes on to write a fragment header beyond the end of the mapping. *)
Theorem malloc_overrun size g :
  0 < size < 2 ^ 61 -> fits size = false ->
  ∃ k, xtrace_malloc empty_heap size g =
         Vis (Sys __NR_mmap [AInt 0; AInt (round_up size BLOCK_SIZE_MULTIPLE);
                             AInt (prot_bsd_to_linux (Z.lor PROT_READ PROT_WRITE));
                             AInt (translate mmap_flags_tbl (Z.lor MAP_ANON MAP_PRIVATE)); AInt (-1); AInt 0]) k ∧
       ∀ r, 0 < r < 2 ^ 62 -> k r = Stuck Undefined.
Proof.
  intros Hs Hfit. unfold xtrace_malloc. destruct (Z.eqb_spec size 0); [lia|]. eexists. split; [reflexivity|]. intros r Hr.
  unfold fits in Hfit. apply Z.leb_gt in Hfit. destruct (round_up_spec size) as [Hru H4096]; [lia|].
  set (len := round_up size BLOCK_SIZE_MULTIPLE) in *. specialize (H4096 (proj1 Hs)). cbn -[take_fragment block_init].
  change (u64 (-4096)) with (2 ^ 64 - 4096). rewrite (u64_id r) by lia. destruct (Z.ltb_spec (2 ^ 64 - 4096) r); [lia|].
  cbn -[take_fragment block_init]. change (u64 (-4096)) with (2 ^ 64 - 4096).
  destruct (Z.ltb_spec (2 ^ 64 - 4096) r); [lia|]. cbn -[take_fragment block_init].
  rewrite u64_id by (unfold BLOCK_HEADER; lia).
  rewrite (take_overrun _ r len size); [done|done|unfold BLOCK_HEADER in *; lia|done].
Qed.

Lemma malloc_overrun_witness : fits 4096 = false ∧ ∃ k, xtrace_malloc empty_heap 4096 init_gstate =
  Vis (Sys __NR_mmap [AInt 0; AInt 4096; AInt 3; AInt 34; AInt (-1); AInt 0]) k ∧ ∀ r, 0 < r < 2 ^ 62 -> k r = Stuck Undefined.
Proof.
  split; [reflexivity|]. destruct (malloc_overrun 4096 init_gstate) as (k & E & Hk); [lia|reflexivity|]. exists k. by split.
Defined.
