(* ===== verification/XtraceTrace.v ===== *)
(** * What the tracer prints

    xtrace/xtracelib.c (hooks, and one line for every call a thread makes),
    xtrace/tls.c (variables of a thread, in memory of the tracer's allocator)
    and xtrace/mig_trace.c (Mach messages).  The functions that print the
    arguments of particular calls are C++ and parameters here. *)
From S2P Require Import Prelude Abi Linux Errno Base Simple Mman Unistd Misc Xattr MachTraps Ext XtraceMalloc.

(** The variables [xtrace_split_entry_and_exit], [xtrace_no_color] and
    [xtrace_kprintf]. *)
Record trace_options := TraceOptions { split_entry_and_exit : bool; xtrace_no_color : bool; xtrace_kprintf : bool }.

(** [getenv] says whether a variable is set. *)
Definition xtrace_setup_options (getenv : cstr -> bool) : trace_options :=
  TraceOptions (getenv (s2c "XTRACE_SPLIT_ENTRY_AND_EXIT")) (getenv (s2c "XTRACE_NO_COLOR")) (getenv (s2c "XTRACE_KPRINTF")).

(** ** Hooks *)

(** [struct hook]: movq $fnptr, %r10; call *%r10. *)
Definition sizeof_hook : Z := 13.

Definition setup_hook (fnptr : Z) : list ascii :=
  (byte_of <$> [0x49; 0xba]) ++ long_bytes fnptr ++ (byte_of <$> [0x41; 0xff; 0xd2]).

(** The pages of the two hooks. *)
Definition hook_area (entry exit : Z) : Z * Z :=
  let area := Z.land entry (Z.lnot 4095) in
  let areaEnd := Z.land (u64 (exit + sizeof_hook)) (Z.lnot 4095) in
  (area, u64 (4096 + (areaEnd - area))).

(** The addresses of the hooks of one kind of call and of the assembly they
    call. *)
Record hook_pair := HookPair { hk_entry : Z; hk_exit : Z; hk_entry_trampoline : Z; hk_exit_trampoline : Z }.

(** [store] changes the program's memory. *)
Definition install_hooks (store : Z -> list ascii -> M unit) (k : hook_pair) : M unit :=
  let '(area, bytes) := hook_area (hk_entry k) (hk_exit k) in
  libc_mprotect area bytes (Z.lor (Z.lor PROT_READ PROT_WRITE) PROT_EXEC);;
  store (hk_entry k) (setup_hook (hk_entry_trampoline k));;
  store (hk_exit k) (setup_hook (hk_exit_trampoline k));;
  libc_mprotect area bytes (Z.lor PROT_READ PROT_EXEC);; mret tt.

Definition xtrace_setup_mach (store : Z -> list ascii -> M unit) (mach : hook_pair) : M unit := install_hooks store mach.
Definition xtrace_setup_bsd (store : Z -> list ascii -> M unit) (bsd : hook_pair) : M unit := install_hooks store bsd.

(** ** Lines *)

Definition ESC : ascii := byte_of 27.

(** [struct calldef]; the functions fill [args_buf]. *)
Record calldef := Calldef {
  cd_name : option cstr; cd_print_args : option (Z -> list Z -> M cstr); cd_print_retval : option (Z -> Z -> M cstr) }.

(** [struct nested_call_struct], of the thread. *)
Record nested := Nested { current_level : Z; previous_level : Z; nrs : list Z }.

Section Trace.
Context (o : trace_options).

Definition xtrace_printf (fmt : cstr) (vl : list vararg) : M unit :=
  r ← (if xtrace_kprintf o then __simple_kprintf (s2c "xtrace: " ++ fmt) vl else __simple_printf fmt vl); defined r.

Definition xtrace_set_gray_color : M unit := if xtrace_no_color o then mret tt else xtrace_printf (ESC :: s2c "[37m") [].
Definition xtrace_reset_color : M unit := if xtrace_no_color o then mret tt else xtrace_printf (ESC :: s2c "[0m") [].

Fixpoint print_spaces (n : nat) : M unit := match n with O => mret tt | S n => xtrace_printf (s2c " ") [];; print_spaces n end.

Definition xtrace_start_line (indent : Z) : M unit :=
  xtrace_set_gray_color;;
  tid ← sys_thread_selfid;
  xtrace_printf (s2c "[%d]") [VNum tid];;
  print_spaces (Z.to_nat (indent + 1));;
  xtrace_reset_color.

(** [defs nr] is [None] behind the end of the table. *)
Definition print_call (defs : Z -> option calldef) (type : cstr) (nr indent : Z) (gray_name : bool) : M unit :=
  xtrace_start_line indent;;
  (if gray_name then xtrace_set_gray_color else mret tt);;
  d ← defined (defs nr);
  match cd_name d with
  | Some name => xtrace_printf (s2c "%s") [VStr (Some name)]
  | None => xtrace_printf (s2c "%s %d") [VStr (Some type); VNum nr]
  end.

Definition NRS : Z := 64.

Definition handle_generic_entry (ignore : bool) (defs : Z -> option calldef) (type : cstr) (nr : Z) (args : list Z) (n : nested) : M nested :=
  if ignore then mret n
  else
    (if (previous_level n <? current_level n) && negb (split_entry_and_exit o) then xtrace_printf [byte_of 10] [] else mret tt);;
    if (0 <=? current_level n) && (current_level n <? NRS) then
      let n := Nested (current_level n) (previous_level n) (zset (nrs n) (current_level n) nr) in
      print_call defs type nr (4 * current_level n) false;;
      d ← defined (defs nr);
      match cd_name d with
      | Some _ =>
        args_buf ← match cd_print_args d with Some f => f nr args | None => mret (s2c "...") end;
        xtrace_printf (s2c "(%s)") [VStr (Some args_buf)]
      | None => xtrace_printf (s2c "(...)") []
      end;;
      (if split_entry_and_exit o then xtrace_printf [byte_of 10] [] else mret tt);;
      mret (Nested (current_level n + 1) (current_level n) (nrs n))
    else undefined.

Definition handle_generic_exit (ignore : bool) (defs : Z -> option calldef) (type : cstr) (retval : Z) (force_split : bool) (n : nested) : M nested :=
  if ignore then mret n
  else
    let force_split := force_split || (current_level n <? previous_level n) in
    let n := Nested (current_level n - 1) (current_level n) (nrs n) in
    if (0 <=? current_level n) && (current_level n <? NRS) then
      let nr := zget (nrs n) (current_level n) in
      (if split_entry_and_exit o || force_split then
         print_call defs type nr (4 * current_level n) true;; xtrace_printf (s2c "()") []
       else mret tt);;
      xtrace_set_gray_color;; xtrace_printf (s2c " -> ") [];; xtrace_reset_color;;
      d ← defined (defs nr);
      match cd_name d with
      | Some _ =>
        args_buf ← match cd_print_retval d with
                   | Some f => f nr retval
                   | None => t ← defined (__simple_sprintf (s2c "0x%lx" ++ [byte_of 10]) [VNum retval] 4096); mret t.2
                   end;
        xtrace_printf (s2c "%s" ++ [byte_of 10]) [VStr (Some args_buf)]
      | None => xtrace_printf (s2c "0x%lx" ++ [byte_of 10]) [VNum retval]
      end;;
      mret n
    else undefined.
End Trace.

(** ** Variables of a thread *)

Definition TLS_TABLE_MAX_SIZE : Z := 100.
Definition sizeof_tls_table : Z := 8 + TLS_TABLE_MAX_SIZE * 2 * 8.

(** What the thread has under [tls_key], and the pairs of [struct tls_table]
    there. *)
Record tls := Tls { t_table : option Z; t_entries : list (Z * Z) }.

Definition no_tls : tls := Tls None [].

(** [created]: pthread_key_create returned 0.  It runs under [xtrace_once]. *)
Definition tls_key_initializer (created : bool) : M unit :=
  if created then mret tt else _abort_with_payload_for_xtrace 0 (Some (s2c "xtrace: failed pthread key creation"));; mret tt.

Definition xtrace_tls (key size : Z) (h : heap) (t : tls) : M (Z * heap * tls) :=
  '(h, t) ← match t_table t with
            | Some _ => mret (h, t)
            | None =>
              '(table, h) ← xtrace_malloc h sizeof_tls_table;
              if table =? 0 then
                _abort_with_payload_for_xtrace 0 (Some (s2c "xtrace: failed TLS table memory allocation"));; undefined
              else mret (h, Tls (Some table) [])
            end;
  match find (λ e, e.1 =? key) (t_entries t) with
  | Some e => mret (e.2, h, t)
  | None =>
    if Z.of_nat (length (t_entries t)) <? TLS_TABLE_MAX_SIZE then
      '(p, h) ← xtrace_malloc h size;
      (if p =? 0 then _abort_with_payload_for_xtrace 0 (Some (s2c "xtrace: failed TLS variable memory allocation"));; mret tt else mret tt);;
      mret (p, h, Tls (t_table t) (t_entries t ++ [(key, p)]))
    else undefined
  end.

Fixpoint free_values (l : list (Z * Z)) (h : heap) : M heap :=
  match l with [] => mret h | e :: l => h ← xtrace_free h e.2; free_values l h end.

(** The destructor of the key; [table] is not null. *)
Definition tls_table_destructor (table : Z) (entries : list (Z * Z)) (h : heap) : M heap :=
  h ← free_values entries h; xtrace_free h table.

(** ** Mach messages *)

(** A call of one of the [struct xtrace_mig_callbacks]. *)
Inductive mig_arg : Set :=
| RawArg (fmt : cstr) (vl : list vararg)
| NumArg (n : Z)
| PtrArg (ptr : Z)
| StringArg (s : cstr)
| BytesArg (bytes : list ascii)
| ReturnCodeArg (code : Z)
| PortArg (port_name disposition : Z)
| OolMemArg (ptr size : Z)
| OolPortsArg (ptr cnt disposition : Z)
| StructArg (items : list ascii) (cnt item_size : Z)
| ArrayArg (items : list ascii) (cnt item_size : Z)
| SetReturnCode (code : Z).

(** [mr_routine]: the callbacks it calls for the message. *)
Record mig_routine := MigRoutine { mr_present : bool; mr_reply_present : bool; mr_name : cstr; mr_routine : bool -> list mig_arg }.
Record mig_subsystem := MigSubsystem { ms_name : cstr; ms_base : Z; ms_routines : list mig_routine }.

Definition routine_cnt (s : mig_subsystem) : Z := Z.of_nat (length (ms_routines s)).

(** [b <= id && id < b + cnt], where the sum is unsigned. *)
Definition in_routines (b cnt id : Z) : bool := (b <=? id) && (u64 id <? u64 (b + cnt)).

Definition find_routine (id : Z) (s : option mig_subsystem) : option (mig_routine * bool) :=
  s ← s;
  let cnt := routine_cnt s in
  '(r, is_reply) ← (if in_routines (ms_base s) cnt id then r ← ms_routines s !! Z.to_nat (id - ms_base s); Some (r, false)
                    else if in_routines (ms_base s + 100) cnt id then r ← ms_routines s !! Z.to_nat (id - (ms_base s + 100)); Some (r, true)
                    else None);
  if negb (mr_present r) then None
  else if is_reply && negb (mr_reply_present r) then None
  else Some (r, is_reply).

Section Mig.
Context (o : trace_options) (bootstrap_port host_port : Z).
(** xtrace_format_string_literal, xtrace_kern_return_to_str and
    xtrace_msg_type_to_str. *)
Context (string_literal : cstr -> cstr) (kern_return_to_str : Z -> cstr) (msg_type_to_str : Z -> cstr).

Definition filter_subsystem (s : option mig_subsystem) (request_port : Z) : bool :=
  match s with
  | None => false
  | Some s =>
    if request_port =? bootstrap_port then strneq (ms_name s) (s2c "job") 3
    else if request_port =? host_port then strneq (ms_name s) (s2c "host") 4 else true
  end.

(** One of the two loops; [both] asks for a routine that has a reply. *)
Fixpoint find_in (id request_port : Z) (do_filter both : bool) (subsystems : list (option mig_subsystem))
    : option (mig_subsystem * mig_routine * bool) :=
  match subsystems with
  | [] => None
  | s :: l =>
    if do_filter && negb (filter_subsystem s request_port) then find_in id request_port do_filter both l
    else
      match find_routine id s, s with
      | Some (r, is_reply), Some s => if both && negb (mr_reply_present r) then find_in id request_port do_filter both l else Some (s, r, is_reply)
      | _, _ => find_in id request_port do_filter both l
      end
  end.

Definition find_subsystem (id request_port : Z) (do_filter : bool) (subsystems : list (option mig_subsystem)) :
    option (mig_subsystem * mig_routine * bool) :=
  match find_in id request_port do_filter true subsystems with
  | Some r => Some r
  | None => find_in id request_port do_filter false subsystems
  end.

(** A file of the directory as the second pass finds it: dlopen, then dlsym. *)
Record mig_file := MigFile { mf_regular : bool; mf_name : cstr; mf_dlopen : option (option mig_subsystem); mf_dlerror : cstr }.

Definition XTRACE_MIG_DIR_PATH : cstr := s2c "/usr/lib/darling/xtrace-mig".

Definition xtrace_fprintf (fd : Z) (fmt : cstr) (vl : list vararg) : M unit :=
  r ← (if xtrace_kprintf o then __simple_kprintf (s2c "xtrace: " ++ fmt) vl else __simple_fprintf fd fmt vl); defined r.

(** The loop over [cnt] files, which the first pass has counted. *)
Fixpoint load_subsystems (cnt : nat) (files : list mig_file) : M (list (option mig_subsystem)) :=
  match cnt, files with
  | O, _ | _, [] => mret []
  | S cnt, f :: files =>
    let path := XTRACE_MIG_DIR_PATH ++ s2c "/" ++ mf_name f in
    s ← (if negb (mf_regular f) then mret None
         else match mf_dlopen f with
              | None =>
                xtrace_fprintf 2 (s2c "xtrace: failed to dlopen %s: %s" ++ [byte_of 10]) [VStr (Some path); VStr (Some (mf_dlerror f))];; mret None
              | Some None =>
                xtrace_fprintf 2 (s2c "xtrace: failed to dlsym(%s, " ++ [byte_of 34] ++ s2c "xtrace_mig_subsystem" ++ [byte_of 34] ++ s2c "): %s" ++ [byte_of 10])
                  [VStr (Some path); VStr (Some (mf_dlerror f))];; mret None
              | Some (Some s) => mret (Some s)
              end);
    l ← load_subsystems cnt files; mret (s :: l)
  end.

(** [None]: the directory cannot be opened, which perror reports. *)
Definition xtrace_setup_mig_tracing (dir : option (nat * list mig_file)) : M (list (option mig_subsystem)) :=
  match dir with None => mret [] | Some (cnt, files) => load_subsystems cnt files end.

(** [None] behind the end of the items. *)
Definition read_integer (items : list ascii) (off size : Z) : option Z :=
  let bytes n := if off + n <=? Z.of_nat (length items) then Some (bytes_value (ztake n (zdrop off items))) else None in
  match u32 size / 8 with
  | 1 => bytes 1 | 2 => bytes 2 | 4 => bytes 4 | 8 => bytes 8
  | _ => Some (2 ^ 64 - 1)
  end.

Fixpoint print_items (n : nat) (first : bool) (items : list ascii) (off item_size : Z) : M unit :=
  match n with
  | O => mret tt
  | S n =>
    (if first then mret tt else xtrace_printf o (s2c ", ") []);;
    v ← defined (read_integer items off item_size);
    xtrace_printf o (s2c "%llu") [VNum v];;
    print_items n false items (off + item_size) item_size
  end.

Fixpoint print_bytes (bytes : list ascii) : M unit :=
  match bytes with [] => mret tt | b :: bytes => xtrace_printf o (s2c "%x") [VNum (byte_val b)];; print_bytes bytes end.

(** The body between BEFORE and AFTER.  [add_raw_arg] prints nothing. *)
Definition print_arg (a : mig_arg) : M unit :=
  match a with
  | RawArg fmt vl => '(n, _) ← defined (__simple_sprintf fmt vl 100); if n <? 100 then mret tt else undefined
  | NumArg n => xtrace_printf o (s2c "%llu") [VNum n]
  | PtrArg ptr => xtrace_printf o (s2c "%p") [VNum ptr]
  | StringArg s => xtrace_printf o (s2c "%s") [VStr (Some (string_literal s))]
  | BytesArg bytes => xtrace_printf o (s2c "bytes ") [];; print_bytes bytes
  | ReturnCodeArg code => xtrace_printf o (s2c "return %s") [VStr (Some (kern_return_to_str code))]
  | PortArg name disposition => xtrace_printf o (s2c "%s %u") [VStr (Some (msg_type_to_str disposition)); VNum name]
  | OolMemArg ptr size => xtrace_printf o (s2c "mem [%p; %lu]") [VNum ptr; VNum size]
  | OolPortsArg ptr cnt disposition =>
    xtrace_printf o (s2c "%s [%p; x%lu]") [VStr (Some (msg_type_to_str disposition)); VNum ptr; VNum cnt]
  | StructArg items cnt item_size =>
    xtrace_printf o (s2c "{") [];; print_items (Z.to_nat cnt) true items 0 item_size;; xtrace_printf o (s2c "}") []
  | ArrayArg items cnt item_size =>
    xtrace_printf o (s2c "[") [];; print_items (Z.to_nat cnt) true items 0 item_size;; xtrace_printf o (s2c "]") []
  | SetReturnCode code => xtrace_printf o (s2c "%s") [VStr (Some (kern_return_to_str code))]
  end.

(** The callbacks one after the other; [first] is the thread's
    [is_first_arg]. *)
Fixpoint print_mig_args (first : bool) (l : list mig_arg) : M unit :=
  match l with
  | [] => mret tt
  | a :: l => (if first then mret tt else xtrace_printf o (s2c ", ") []);; print_arg a;; print_mig_args false l
  end.

(** [None]: the message is null. *)
Definition xtrace_print_mig_message (msgh_id : option Z) (request_port : Z) (subsystems : list (option mig_subsystem)) : M unit :=
  match msgh_id with
  | None => mret tt
  | Some id =>
    match (match find_subsystem id request_port true subsystems with
           | Some r => Some r
           | None => find_subsystem id request_port false subsystems
           end) with
    | None => mret tt
    | Some (s, r, is_reply) =>
      (if is_reply then
         xtrace_set_gray_color o;; xtrace_printf o (s2c "%s::%s() -> ") [VStr (Some (ms_name s)); VStr (Some (mr_name r))];; xtrace_reset_color o
       else xtrace_printf o (s2c "%s::%s(") [VStr (Some (ms_name s)); VStr (Some (mr_name r))]);;
      print_mig_args true (mr_routine r is_reply);;
      if is_reply then xtrace_printf o (s2c " ") [] else xtrace_printf o (s2c ")") []
    end
  end.
End Mig.

(** The constructor: the options, the subsystems and [xtrace_ignore]. *)
Definition xtrace_setup (getenv : cstr -> bool) (dir : option (nat * list mig_file)) (store : Z -> list ascii -> M unit) (mach bsd : hook_pair) :
    M (trace_options * list (option mig_subsystem) * bool) :=
  let o := xtrace_setup_options getenv in
  subsystems ← xtrace_setup_mig_tracing o dir;
  xtrace_setup_mach store mach;;
  xtrace_setup_bsd store bsd;;
  mret (o, subsystems, false).

(** ** The text of a trace *)


(** A host that appends what is printed, on descriptor 1 or in the kernel's
    log, to a text. *)
Definition printer (tid : Z) : handler cstr := λ X e out,
  match e in linuxE X return X * cstr with
  | Sys nr args =>
    if nr =? __NR_gettid then (tid, out)
    else match args with [AInt 1; ABuf b; AInt n] => (n, out ++ b) | _ => (0, out) end
  | SysOut _ _ o => ((0, zero_out o), out)
  | Lkm c => match c in lkm_nr Y return (Z * Y) * cstr with
             | NR_kernel_printk msg => ((0, tt), out ++ msg)
             | c => ((0, zero_lkm c), out)
             end
  end.

Section Text.
Context (o : trace_options) (tid : Z) (Htid : 0 <= tid <= INT_MAX).

(** One piece of output: at most 511 characters of it. *)
Definition emit (s : cstr) : cstr := take 511 (if xtrace_kprintf o then s2c "xtrace: " ++ s else s).

Definition text_ok (s : cstr) : Prop := Forall (.≠ NUL) s ∧ strlen s <= 2 ^ 20.

Lemma s2c_text_ok s : forallb (λ c, negb (bool_decide (c = NUL))) (s2c s) = true -> strlen (s2c s) <= 2 ^ 20 -> text_ok (s2c s).
Proof.
  intros H Hl. split; [|done]. rewrite Forall_forall. intros c Hc. apply list_elem_of_In in Hc. rewrite forallb_forall in H.
  specialize (H c Hc). destruct (decide (c = NUL)); [by rewrite bool_decide_true in H|done].
Qed.

Lemma run_printf fmt vl t g out : format_text fmt vl = Some t -> text_ok t ->
  run (printer tid) (xtrace_printf o fmt vl) g out = Some (tt, g, out ++ emit t).
Proof.
  intros Ht [Hn Hl]. unfold xtrace_printf, emit. rewrite run_bind. destruct (xtrace_kprintf o).
  - unfold __simple_kprintf.
    assert (format_text (s2c "xtrace: " ++ fmt) vl = Some (s2c "xtrace: " ++ t)) as Ht' by (cbn; by rewrite Ht).
    rewrite (format_512_text _ _ _ Ht').
    + rewrite run_bind. reflexivity.
    + apply Forall_app. split; [|done]. repeat constructor; discriminate.
    + rewrite strlen_app. unfold strlen, INT_MAX in *. simpl. lia.
  - unfold __simple_printf, __simple_fprintf. rewrite (format_512_text _ _ _ Ht); [|done|unfold INT_MAX; lia]. rewrite run_bind. reflexivity.
Qed.

Definition gray : cstr := if xtrace_no_color o then [] else emit (ESC :: s2c "[37m").
Definition plain_color : cstr := if xtrace_no_color o then [] else emit (ESC :: s2c "[0m").

Lemma run_gray g out : run (printer tid) (xtrace_set_gray_color o) g out = Some (tt, g, out ++ gray).
Proof.
  unfold xtrace_set_gray_color, gray. destruct (xtrace_no_color o); [by rewrite app_nil_r|]. apply run_printf; [done|].
  split; [repeat constructor; discriminate|by vm_compute].
Qed.

Lemma run_plain_color g out : run (printer tid) (xtrace_reset_color o) g out = Some (tt, g, out ++ plain_color).
Proof.
  unfold xtrace_reset_color, plain_color. destruct (xtrace_no_color o); [by rewrite app_nil_r|]. apply run_printf; [done|].
  split; [repeat constructor; discriminate|by vm_compute].
Qed.

(** *** The specification: what a forest of calls looks like

    [force] is the argument of [handle_generic_exit]; [kids] are the calls made
    while this one runs, [rest] those after it. *)
Inductive calls : Type :=
| Done
| Call (mach : bool) (nr : Z) (args : list Z) (ret : Z) (force : bool) (kids rest : calls).

(** Decimal digits. *)
Definition dec_text (z : Z) : cstr := s2c (pretty (Z.to_N z)).

Context (tbl : bool -> Z -> option calldef) (type : bool -> cstr).

(** The texts of a definition whose functions print nothing themselves. *)
Definition def_name (d : calldef) (k : bool) (nr : Z) : cstr :=
  match cd_name d with Some n => n | None => type k ++ s2c " " ++ dec_text nr end.

Context (args_text : bool -> Z -> list Z -> cstr) (ret_text : bool -> Z -> Z -> cstr).

Definition hex_text (z : Z) : cstr := s2c "0x" ++ hex_digits 40 (u64 z) [].

Definition shown_args (d : calldef) (k : bool) (nr : Z) (args : list Z) : cstr :=
  match cd_name d, cd_print_args d with Some _, Some _ => args_text k nr args | _, _ => s2c "..." end.

(** Without a function of its own the value is followed by an empty line. *)
Definition shown_value (d : calldef) (k : bool) (nr ret : Z) : cstr :=
  match cd_name d, cd_print_retval d with
  | Some _, Some _ => ret_text k nr ret
  | Some _, None => hex_text ret ++ [byte_of 10]
  | None, _ => hex_text ret
  end.

Definition line_start (level : nat) : cstr :=
  gray ++ emit (s2c "[" ++ dec_text tid ++ s2c "]") ++ mjoin (replicate (4 * level + 1) (emit (s2c " "))) ++ plain_color.

Definition newline : cstr := emit [byte_of 10].

(** [after_entry]: the line of another call is still open. *)
Fixpoint render (after_entry : bool) (level : nat) (c : calls) : cstr :=
  match c with
  | Done => []
  | Call k nr args ret force kids rest =>
    match tbl k nr with
    | None => []
    | Some d =>
      let name := emit (def_name d k nr) in
      (if after_entry && negb (split_entry_and_exit o) then newline else []) ++
      line_start level ++ name ++ emit (s2c "(" ++ shown_args d k nr args ++ s2c ")") ++
      (if split_entry_and_exit o then newline else []) ++
      render true (S level) kids ++
      (if split_entry_and_exit o || force || match kids with Done => false | _ => true end
       then line_start level ++ gray ++ name ++ emit (s2c "()") else []) ++
      gray ++ emit (s2c " -> ") ++ plain_color ++ emit (shown_value d k nr ret ++ [byte_of 10]) ++
      render false level rest
    end
  end.

(** The calls of a thread: entry, the calls inside, exit, the calls after. *)
Fixpoint trace (c : calls) (n : nested) : M nested :=
  match c with
  | Done => mret n
  | Call k nr args ret force kids rest =>
    n ← handle_generic_entry o false (tbl k) (type k) nr args n;
    n ← trace kids n;
    n ← handle_generic_exit o false (tbl k) (type k) ret force n;
    trace rest n
  end.

Fixpoint depth (c : calls) : nat :=
  match c with Done => 0 | Call _ _ _ _ _ kids rest => Nat.max (S (depth kids)) (depth rest) end.

(** Every call is in its table, its functions only fill the buffer, and the
    texts are C strings. *)
Definition call_ok (k : bool) (nr : Z) (args : list Z) (ret : Z) : Prop :=
  ∃ d, tbl k nr = Some d ∧ 0 <= nr <= INT_MAX ∧
    (∀ f, cd_print_args d = Some f -> f nr args = mret (args_text k nr args)) ∧
    (∀ f, cd_print_retval d = Some f -> f nr ret = mret (ret_text k nr ret)) ∧
    text_ok (def_name d k nr) ∧ text_ok (s2c "(" ++ shown_args d k nr args ++ s2c ")") ∧ text_ok (shown_value d k nr ret ++ [byte_of 10]).

Fixpoint calls_ok (c : calls) : Prop :=
  match c with Done => True | Call k nr args ret _ kids rest => call_ok k nr args ret ∧ calls_ok kids ∧ calls_ok rest end.

Lemma dec_conversion z vl : 0 <= z <= INT_MAX ->
  conversion "d"%char (VNum z :: vl) = Some (dec_text z, vl) ∧ Forall (.≠ NUL) (dec_text z) ∧ (length (dec_text z) <= 16)%nat.
Proof.
  intros Hz. unfold INT_MAX in Hz. unfold dec_text. rewrite <- dec_digits_pretty_Z by lia. cbn [conversion].
  rewrite s32_id by (unfold INT_MIN, INT_MAX; lia). rewrite (proj2 (Z.eqb_neq z INT_MIN)) by (unfold INT_MIN; lia). rewrite (proj2 (Z.ltb_ge z 0)) by lia. split; [done|]. split.
  - apply isdigit_not_nul, dec_digits_isdigit; [lia|done].
  - pose proof (dec_digits_length 16 z []). simpl in *. lia.
Qed.

Lemma run_spaces n g out : run (printer tid) (print_spaces o n) g out = Some (tt, g, out ++ mjoin (replicate n (emit (s2c " ")))).
Proof.
  revert out. induction n as [|n IH]; intros out; cbn [print_spaces replicate]; [by rewrite app_nil_r|].
  rewrite run_bind, (run_printf _ _ (s2c " ")); [|done|by apply s2c_text_ok; vm_compute]. rewrite IH. by rewrite <- app_assoc.
Qed.

Lemma run_start_line level g out :
  run (printer tid) (xtrace_start_line o (4 * Z.of_nat level)) g out = Some (tt, g, out ++ line_start level).
Proof.
  unfold xtrace_start_line. rewrite run_bind, run_gray. rewrite run_bind. unfold sys_thread_selfid, plain.
  rewrite run_bind, run_syscall_int. cbn [printer]. change (__NR_gettid =? __NR_gettid) with true. cbv iota.
  rewrite s32_id by (unfold INT_MIN, INT_MAX in *; lia). rewrite run_ret. cbv beta. unfold bsd_ret. rewrite (proj2 (Z.ltb_ge tid 0)) by lia.
  rewrite run_bind, (run_printf _ _ (s2c "[" ++ dec_text tid ++ s2c "]")).
  - rewrite run_bind, run_spaces. rewrite run_plain_color. unfold line_start.
    replace (Z.to_nat (4 * Z.of_nat level + 1)) with (4 * level + 1)%nat by lia. by rewrite <- !app_assoc.
  - change (format_text (s2c "[%d]") [VNum tid]) with
      (app (s2c "[") <$> ('(s, vl) ← conversion "d"%char [VNum tid]; app s <$> format_text (s2c "]") vl)).
    by rewrite (proj1 (dec_conversion tid [] Htid)).
  - destruct (dec_conversion tid [] Htid) as (_ & Hn & Hl). split.
    + apply Forall_app. split; [by repeat constructor|]. apply Forall_app. split; [done|by repeat constructor].
    + rewrite !strlen_app. unfold strlen. simpl. lia.
Qed.

Lemma run_print_call k nr level gray_name d g out : tbl k nr = Some d -> 0 <= nr <= INT_MAX -> text_ok (def_name d k nr) ->
  run (printer tid) (print_call o (tbl k) (type k) nr (4 * Z.of_nat level) gray_name) g out =
  Some (tt, g, out ++ line_start level ++ (if gray_name then gray else []) ++ emit (def_name d k nr)).
Proof.
  intros Hd Hnr Hok. unfold print_call. rewrite run_bind, run_start_line, run_bind.
  assert (∀ out, run (printer tid) (if gray_name then xtrace_set_gray_color o else mret tt) g out =
    Some (tt, g, out ++ if gray_name then gray else [])) as Hg.
  { intros out'. destruct gray_name; [apply run_gray|by rewrite app_nil_r]. }
  rewrite Hg, run_bind, Hd. cbn [defined run]. rewrite run_ret. cbv beta iota. unfold def_name in *.
  destruct (cd_name d) as [name|]; (erewrite run_printf; [| |exact Hok]).
  - by rewrite <- !app_assoc.
  - change (format_text (s2c "%s") [VStr (Some name)]) with (Some (name ++ [])). by rewrite app_nil_r.
  - by rewrite <- !app_assoc.
  - change (format_text (s2c "%s %d") [VStr (Some (type k)); VNum nr]) with
      (app (type k) <$> (app (s2c " ") <$> ('(s, vl) ← conversion "d"%char [VNum nr]; app s <$> format_text [] vl))).
    rewrite (proj1 (dec_conversion nr [] Hnr)). cbn. by rewrite app_nil_r.
Qed.

Lemma run_newline (b : bool) g out :
  run (printer tid) (if b then xtrace_printf o [byte_of 10] [] else mret tt) g out = Some (tt, g, out ++ if b then newline else []).
Proof.
  destruct b; [|by rewrite app_nil_r]. apply run_printf; [done|]. split; [repeat constructor; discriminate|by vm_compute].
Qed.

Lemma run_args k nr args ret d g out : call_ok k nr args ret -> tbl k nr = Some d ->
  run (printer tid) (match cd_name d with
      | Some _ =>
        args_buf ← match cd_print_args d with Some f => f nr args | None => mret (s2c "...") end;
        xtrace_printf o (s2c "(%s)") [VStr (Some args_buf)]
      | None => xtrace_printf o (s2c "(...)") []
      end) g out = Some (tt, g, out ++ emit (s2c "(" ++ shown_args d k nr args ++ s2c ")")).
Proof.
  intros (d' & Hd & _ & Ha & _ & _ & Hok & _) Hd'. rewrite Hd in Hd'. simplify_eq. unfold shown_args in *.
  destruct (cd_name d); [|by apply run_printf]. rewrite run_bind. destruct (cd_print_args d) as [f|]; [rewrite (Ha f eq_refl)|]; rewrite run_ret.
  - apply run_printf; [done|exact Hok].
  - apply run_printf; [done|exact Hok].
Qed.

Lemma hex_digits_length fuel num acc : (length (hex_digits fuel num acc) <= fuel + length acc)%nat.
Proof.
  revert num acc. induction fuel as [|fuel IH]; intros num acc; [done|]. rewrite hex_digits_S. cbv zeta.
  destruct (0 <? _); [|simpl; lia]. etrans; [apply IH|]. simpl. lia.
Qed.

Lemma run_value k nr args ret d g out : call_ok k nr args ret -> tbl k nr = Some d ->
  run (printer tid) (match cd_name d with
      | Some _ =>
        args_buf ← match cd_print_retval d with
                   | Some f => f nr ret
                   | None => t ← defined (__simple_sprintf (s2c "0x%lx" ++ [byte_of 10]) [VNum ret] 4096); mret t.2
                   end;
        xtrace_printf o (s2c "%s" ++ [byte_of 10]) [VStr (Some args_buf)]
      | None => xtrace_printf o (s2c "0x%lx" ++ [byte_of 10]) [VNum ret]
      end) g out = Some (tt, g, out ++ emit (shown_value d k nr ret ++ [byte_of 10])).
Proof.
  intros (d' & Hd & _ & _ & Hr & _ & _ & Hok) Hd'. rewrite Hd in Hd'. simplify_eq. unfold shown_value in *.
  assert (format_text (s2c "0x%lx" ++ [byte_of 10]) [VNum ret] = Some (hex_text ret ++ [byte_of 10])) as Hx.
  { change (format_text (s2c "0x%lx" ++ [byte_of 10]) [VNum ret]) with
      (app (s2c "0x") <$> Some (hex_digits 40 (u64 ret) [] ++ [byte_of 10])). unfold hex_text. cbn. by rewrite ?app_assoc. }
  destruct (cd_name d); [|by apply run_printf]. rewrite run_bind. destruct (cd_print_retval d) as [f|].
  - rewrite (Hr f eq_refl), run_ret. apply run_printf; [done|exact Hok].
  - rewrite run_bind, (sprintf_text _ _ _ _ Hx). 
    + cbn [defined]. rewrite !run_ret. cbn [snd]. apply run_printf; [done|exact Hok].
    + destruct Hok as [Hn _]. by apply Forall_app in Hn as [Hn _].
    + destruct Hok as [_ Hl]. rewrite strlen_app in Hl. change (strlen [byte_of 10]) with 1 in Hl. unfold INT_MAX. lia.
    + pose proof (hex_digits_length 40 (u64 ret) []). unfold hex_text. rewrite !length_app.
      change (length (s2c "0x")) with 2%nat. cbn [length] in *. lia.
Qed.

Lemma run_entry k nr args ret d n level g out : call_ok k nr args ret -> tbl k nr = Some d -> current_level n = Z.of_nat level ->
  (level < 64)%nat -> length (nrs n) = 64%nat ->
  run (printer tid) (handle_generic_entry o false (tbl k) (type k) nr args n) g out =
  Some (Nested (Z.of_nat (S level)) (Z.of_nat level) (<[level := nr]> (nrs n)), g,
    out ++ (if (previous_level n <? current_level n) && negb (split_entry_and_exit o) then newline else []) ++
    line_start level ++ emit (def_name d k nr) ++ emit (s2c "(" ++ shown_args d k nr args ++ s2c ")") ++
    (if split_entry_and_exit o then newline else [])).
Proof.
  intros Hok Hd Hl Hlt Hlen. pose proof Hok as (d' & Hd' & Hnr & _ & _ & Hname & _). assert (d' = d) as -> by congruence. clear Hd'.
  unfold handle_generic_entry. rewrite run_bind, run_newline. rewrite Hl in *. unfold NRS.
  rewrite (proj2 (andb_true_iff _ _)) by lia. cbn [current_level previous_level nrs].
  rewrite run_bind, (run_print_call _ _ _ _ d) by done. rewrite run_bind, Hd. cbn [defined]. rewrite run_ret.
  rewrite run_bind, (run_args _ _ _ ret) by done. rewrite run_bind, run_newline, run_ret. unfold zset. rewrite Nat2Z.id.
  replace (Z.of_nat level + 1) with (Z.of_nat (S level)) by lia. by rewrite <- !app_assoc.
Qed.

Lemma run_exit k nr args ret force d n level g out : call_ok k nr args ret -> tbl k nr = Some d -> current_level n = Z.of_nat (S level) ->
  (level < 64)%nat -> nrs n !! level = Some nr ->
  run (printer tid) (handle_generic_exit o false (tbl k) (type k) ret force n) g out =
  Some (Nested (Z.of_nat level) (Z.of_nat (S level)) (nrs n), g,
    out ++ (if split_entry_and_exit o || (force || (current_level n <? previous_level n))
            then line_start level ++ gray ++ emit (def_name d k nr) ++ emit (s2c "()") else []) ++
    gray ++ emit (s2c " -> ") ++ plain_color ++ emit (shown_value d k nr ret ++ [byte_of 10])).
Proof.
  intros Hok Hd Hl Hlt Hnr. pose proof Hok as (d' & Hd' & Hrange & _ & _ & Hname & _). assert (d' = d) as -> by congruence. clear Hd'.
  unfold handle_generic_exit. cbn [current_level nrs]. rewrite Hl. replace (Z.of_nat (S level) - 1) with (Z.of_nat level) by lia.
  unfold NRS. rewrite (proj2 (andb_true_iff _ _)) by lia. unfold zget. rewrite Nat2Z.id, Hnr. cbn [default].
  set (b := split_entry_and_exit o || _).
  assert (∀ out, run (printer tid) (if b then print_call o (tbl k) (type k) nr (4 * Z.of_nat level) true;; xtrace_printf o (s2c "()") [] else mret tt) g out =
    Some (tt, g, out ++ if b then line_start level ++ gray ++ emit (def_name d k nr) ++ emit (s2c "()") else [])) as Hb.
  { intros out'. destruct b; [|by rewrite app_nil_r]. rewrite run_bind, (run_print_call _ _ _ _ d) by done.
    rewrite (run_printf _ _ (s2c "()")); [|done|by apply s2c_text_ok; vm_compute]. by rewrite <- !app_assoc. }
  rewrite run_bind, Hb, run_bind, run_gray, run_bind. rewrite (run_printf _ _ (s2c " -> ")); [|done|by apply s2c_text_ok; vm_compute].
  rewrite run_bind, run_plain_color, run_bind. unfold id. rewrite Hd. cbn [defined]. rewrite run_ret, run_bind, (run_value _ _ args) by done.
  rewrite run_ret. by rewrite <- !app_assoc.
Qed.

Definition stacked (n n' : nested) (level : nat) : Prop :=
  current_level n' = Z.of_nat level ∧ length (nrs n') = 64%nat ∧ take level (nrs n') = take level (nrs n).

Lemma trace_run c : ∀ n level g out, calls_ok c -> current_level n = Z.of_nat level -> length (nrs n) = 64%nat -> (level + depth c <= 64)%nat ->
  ∃ n', run (printer tid) (trace c n) g out = Some (n', g, out ++ render (previous_level n <? current_level n) level c) ∧
    stacked n n' level ∧ previous_level n' = match c with Done => previous_level n | _ => Z.of_nat (S level) end.
Proof.
  induction c as [|k nr args ret force kids IHk rest IHr]; intros n level g out Hok Hcur Hlen Hd.
  { exists n. cbn. by rewrite app_nil_r. }
  cbn [calls_ok depth] in Hok, Hd. destruct Hok as (Hok & Hkids & Hrest). pose proof Hok as (d & Htbl & _).
  cbn [trace render]. rewrite Htbl, run_bind, (run_entry _ _ _ ret d _ level) by (done || lia).
  match goal with |- context [trace kids ?m] => set (n1 := m) end. rewrite run_bind.
  match goal with |- context [run (printer tid) (trace kids n1) g ?w] => set (w1 := w) end.
  destruct (IHk n1 (S level) g w1) as (n2 & -> & (Hc2 & Hl2 & Ht2) & Hp2); [done..|by unfold n1; cbn [nrs]; rewrite length_insert|lia|].
  assert (nrs n2 !! level = Some nr) as Hnr.
  { rewrite <- (lookup_take_lt _ (S level)), Ht2, lookup_take_lt by lia. apply list_lookup_insert_eq. lia. }
  rewrite run_bind, (run_exit _ nr args _ _ d _ level) by (done || lia).
  match goal with |- context [trace rest ?m] => set (n3 := m) end.
  match goal with |- context [run (printer tid) (trace rest n3) g ?w] => set (w3 := w) end.
  assert (take level (nrs n3) = take level (nrs n)) as Ht3.
  { transitivity (take level (take (S level) (nrs n2))); [by rewrite take_take, Nat.min_l by lia|]. rewrite Ht2, take_take, Nat.min_l by lia.
    cbn [nrs n1]. by apply take_insert_ge. }
  destruct (IHr n3 level g w3) as (n4 & -> & (Hc4 & Hl4 & Ht4) & Hp4); [done..|lia|].
  exists n4. split; [|split; [split_and!; [done..|by rewrite Ht4]|by destruct rest]].
  assert ((previous_level n1 <? current_level n1) = true) as E1 by (unfold n1; cbn [previous_level current_level]; apply Z.ltb_lt; lia).
  assert ((previous_level n3 <? current_level n3) = false) as E3 by (unfold n3; cbn [previous_level current_level]; apply Z.ltb_ge; lia).
  assert ((current_level n2 <? previous_level n2) = match kids with Done => false | _ => true end) as E2.
  { rewrite Hc2, Hp2. destruct kids; [unfold n1; cbn [previous_level]; apply Z.ltb_ge|apply Z.ltb_lt]; lia. }
  unfold w3, w1. rewrite E1, E2, E3, orb_assoc. by rewrite <- !app_assoc.
Qed.
End Text.

(** *** Hooks, variables and messages *)

(** The bytes of a hook are the two instructions with the address of the
    trampoline. *)
Theorem setup_hook_bytes fnptr :
  strlen (setup_hook fnptr) = sizeof_hook ∧ bytes_value (ztake 8 (zdrop 2 (setup_hook fnptr))) = u64 fnptr.
Proof. split; [done|]. apply long_value. Qed.

(** The two mprotect calls cover both hooks. *)
Theorem hook_area_covers entry exit : 0 <= entry <= exit -> exit + sizeof_hook < 2 ^ 63 ->
  let '(area, bytes) := hook_area entry exit in
  area mod 4096 = 0 ∧ bytes mod 4096 = 0 ∧ area <= entry ∧ exit + sizeof_hook <= area + bytes.
Proof.
  unfold sizeof_hook. intros He Hx. unfold hook_area, sizeof_hook. cbv zeta. rewrite (u64_id (exit + 13)) by lia. change 4095 with (Z.ones 12).
  rewrite <- !Z.ldiff_land, !Z.ldiff_ones_r, !Z.shiftr_div_pow2, !Z.shiftl_mul_pow2 by lia. change (2 ^ 12) with 4096.
  rewrite u64_id; Z.to_euclidean_division_equations; lia.
Qed.

Definition lookup_tls (key : Z) (t : tls) : option Z := snd <$> find (λ e, e.1 =? key) (t_entries t).

Lemma lookup_tls_app key t l e : lookup_tls key (Tls t (l ++ [e])) =
  match lookup_tls key (Tls t l) with Some p => Some p | None => if e.1 =? key then Some e.2 else None end.
Proof.
  unfold lookup_tls. cbn [t_entries]. induction l as [|x l IH]; cbn [app find]; [by destruct (_ =? _)|].
  destruct (x.1 =? key); [done|exact IH].
Qed.

Lemma tls_found key size h t table p : t_table t = Some table -> lookup_tls key t = Some p -> xtrace_tls key size h t = mret (p, h, t).
Proof.
  intros Ht Hf. unfold lookup_tls in Hf. destruct (find _ _) as [e|] eqn:E; [|done]. cbn in Hf. simplify_eq. unfold xtrace_tls. rewrite Ht.
  unfold mbind, M_bind. cbn. by rewrite E.
Qed.

(** A variable of a thread has one address: a second use of the key finds
    what the first one has allocated, and other keys keep theirs. *)
Theorem xtrace_tls_stable {K} (host : handler K) key size h t g s p h' t' g' s' :
  (t_table t = None -> t_entries t = []) -> run host (xtrace_tls key size h t) g s = Some ((p, h', t'), g', s') ->
  (∀ size2 h2, xtrace_tls key size2 h2 t' = mret (p, h2, t')) ∧ (∀ key2, key2 ≠ key -> lookup_tls key2 t' = lookup_tls key2 t).
Proof.
  intros Ht0. unfold xtrace_tls at 1. rewrite run_bind.
  destruct (run host (match t_table t with Some _ => _ | None => _ end) g s) as [[[[h1 t1] g1] s1]|] eqn:E1; [|done].
  assert (is_Some (t_table t1) ∧ t_entries t1 = t_entries t) as [[table Ht] He].
  { destruct (t_table t) eqn:Et; [rewrite run_ret in E1; simplify_eq; by rewrite Et|]. rewrite run_bind in E1.
    destruct (run host (xtrace_malloc _ _) g s) as [[[[q hq] gq] sq]|]; [|done]. destruct (q =? 0).
    - rewrite run_bind in E1. by destruct (run host _ gq sq) as [[[? ?] ?]|].
    - rewrite run_ret in E1. simplify_eq. by rewrite (Ht0 eq_refl). }
  assert (∀ k, lookup_tls k t1 = lookup_tls k t) as Hl by (intros k; unfold lookup_tls; by rewrite He).
  destruct (find _ _) as [e|] eqn:Ef.
  - rewrite run_ret. intros [= <- <- <- <- <-]. split; [|done]. intros. eapply tls_found; [done|]. unfold lookup_tls. by rewrite Ef.
  - destruct (_ <? TLS_TABLE_MAX_SIZE); [|done]. rewrite run_bind.
    destruct (run host (xtrace_malloc _ _) g1 s1) as [[[[q hq] gq] sq]|]; [|done]. rewrite run_bind.
    destruct (run host _ gq sq) as [[[[] gr] sr]|]; [|done]. rewrite run_ret. intros [= <- <- <- <- <-]. split.
    + intros. eapply tls_found; [done|]. rewrite lookup_tls_app. unfold lookup_tls. cbn [t_entries fst snd]. rewrite Ef. cbn. by rewrite Z.eqb_refl.
    + intros key2 Hne. rewrite lookup_tls_app. cbn [fst snd]. rewrite (proj2 (Z.eqb_neq key key2)) by done. rewrite <- Hl.
      unfold lookup_tls; cbn [t_entries]. by destruct (snd <$> _).
Qed.

(** The entry of a call at level 64 writes behind the array of call numbers. *)
Theorem trace_too_deep o defs type nr args n g :
  current_level n = NRS -> split_entry_and_exit o = true -> handle_generic_entry o false defs type nr args n g = Stuck Undefined.
Proof. intros Hc Hs. unfold handle_generic_entry. rewrite Hs, andb_false_r, Hc. done. Qed.

(** "%llu" is not known to the formatter: every number of a message is printed
    as a letter. *)
Theorem number_printed_as_letter o tid n g out :
  xtrace_kprintf o = false ->
  run (printer tid) (print_arg o (λ s, s) (λ _, []) (λ _, []) (NumArg n)) g out = Some (tt, g, out ++ s2c "u").
Proof.
  intros Hk. cbn [print_arg]. rewrite (run_printf o tid _ _ (s2c "u")); [|done|by apply s2c_text_ok; vm_compute].
  unfold emit. by rewrite Hk.
Qed.

Section Lookup.
Context (bootstrap_port host_port id request_port : Z) (do_filter : bool).

(** A subsystem that the search may choose, with its routine for the message. *)
Definition candidate (l : list (option mig_subsystem)) (s : mig_subsystem) (r : mig_routine) (is_reply : bool) : Prop :=
  Some s ∈ l ∧ (do_filter = true -> filter_subsystem bootstrap_port host_port (Some s) request_port = true) ∧
  find_routine id (Some s) = Some (r, is_reply).

Lemma candidate_cons x l s r b : candidate (x :: l) s r b <->
  (x = Some s ∧ (do_filter = true -> filter_subsystem bootstrap_port host_port x request_port = true) ∧ find_routine id x = Some (r, b)) ∨ candidate l s r b.
Proof. unfold candidate. rewrite elem_of_cons. naive_solver. Qed.

Lemma find_in_spec both l :
  match find_in bootstrap_port host_port id request_port do_filter both l with
  | Some (s, r, b) => candidate l s r b ∧ (both = true -> mr_reply_present r = true)
  | None => ∀ s r b, candidate l s r b -> both = true ∧ mr_reply_present r = false
  end.
Proof.
  induction l as [|x l IH]; cbn [find_in]; [by intros s r b (?%elem_of_nil & _)|].
  assert (∀ t : option (mig_subsystem * mig_routine * bool),
    match t with
    | Some (s, r, b) => candidate l s r b ∧ (both = true -> mr_reply_present r = true)
    | None => ∀ s r b, candidate l s r b -> both = true ∧ mr_reply_present r = false
    end ->
    (∀ s r b, x = Some s -> (do_filter = true -> filter_subsystem bootstrap_port host_port x request_port = true) ->
       find_routine id x = Some (r, b) -> both = true ∧ mr_reply_present r = false) ->
    match t with
    | Some (s, r, b) => candidate (x :: l) s r b ∧ (both = true -> mr_reply_present r = true)
    | None => ∀ s r b, candidate (x :: l) s r b -> both = true ∧ mr_reply_present r = false
    end) as skip.
  { intros [[[s r] b]|] Ht Hx; [rewrite candidate_cons; naive_solver|]. intros s r b [(-> & Hf & Hr)|]%candidate_cons; [by eapply Hx|by eapply Ht]. }
  destruct (do_filter && negb (filter_subsystem bootstrap_port host_port x request_port)) eqn:Ed.
  - apply skip; [done|]. intros s r b -> Hf _. apply andb_true_iff in Ed as [Hd Hn]. rewrite (Hf Hd) in Hn. done.
  - destruct (find_routine id x) as [[r b]|] eqn:Er; [|apply skip; [done|by intros ? ? ? ? ? [=]]]. destruct x as [s|]; [|done].
    destruct (both && negb (mr_reply_present r)) eqn:Eb.
    + apply skip; [done|]. intros s' r' b' _ _ [= <- <-]. by apply andb_true_iff in Eb as [-> ->%negb_true_iff].
    + split; [|intros ->; by destruct (mr_reply_present r)]. apply candidate_cons. left. split_and!; [done| |done].
      intros ->. by destruct (filter_subsystem _ _ _ _).
Qed.

(** The search finds a subsystem when there is one that may be chosen, and one
    whose routine has a reply when there is such a one. *)
Theorem find_subsystem_spec l :
  match find_subsystem bootstrap_port host_port id request_port do_filter l with
  | Some (s, r, b) => candidate l s r b ∧ ∀ s' r' b', candidate l s' r' b' -> mr_reply_present r' = true -> mr_reply_present r = true
  | None => ∀ s r b, ¬ candidate l s r b
  end.
Proof.
  unfold find_subsystem. pose proof (find_in_spec true l) as H1. pose proof (find_in_spec false l) as H2.
  destruct (find_in _ _ _ _ _ true l) as [[[s r] b]|]; [naive_solver|].
  destruct (find_in _ _ _ _ _ false l) as [[[s r] b]|]; [|naive_solver].
  split; [naive_solver|]. intros s' r' b' Hc Hp. destruct (H1 _ _ _ Hc) as [_ Hp']. by rewrite Hp in Hp'.
Qed.
End Lookup.

(** C38: a thread's trace.  The state that the tracer keeps (a level, the level of
    the previous event and the numbers of the open calls) prints the tree of
    the calls: every call on a line of its own that is indented by its depth,
    with its value on the same line, or, when other calls were printed in
    between, on a second line that repeats the name of the right call.  The
    thread starts outside of any call, at most 64 calls are open at a time,
    and the functions that print arguments and values do nothing else. *)
Theorem trace_renders o tid tbl type args_text ret_text c stack g out :
  0 <= tid <= INT_MAX -> length stack = 64%nat -> (depth c <= 64)%nat -> calls_ok tbl type args_text ret_text c ->
  ∃ previous stack', run (printer tid) (trace o tbl type c (Nested 0 0 stack)) g out =
    Some (Nested 0 previous stack', g, out ++ render o tid tbl type args_text ret_text false 0 c).
Proof.
  intros Htid Hlen Hd Hok.
  destruct (trace_run o tid Htid tbl type args_text ret_text c (Nested 0 0 stack) 0 g out) as ([cur prev stk] & Hrun & (Hc & _) & _);
    [done..|]. cbn in Hc. subst cur. by exists prev, stk.
Qed.

(** A call with a name and a call inside of it that has none. *)
Definition example_table (mach : bool) (nr : Z) : option calldef :=
  if nr =? 5 then Some (Calldef (Some (s2c "open")) None (Some (λ _ _, mret (s2c "3")))) else Some (Calldef None None None).
Definition example_calls : calls := Call false 5 [0; 0] 3 false (Call true 28 [] 515 false Done Done) Done.

Lemma trace_renders_witness : ∃ previous stack',
  run (printer 7) (trace (TraceOptions false true false) example_table (λ k, if k then s2c "mach" else s2c "bsd") example_calls
    (Nested 0 0 (replicate 64 0))) init_gstate [] =
  Some (Nested 0 previous stack', init_gstate,
    s2c "[7] open(...)" ++ [byte_of 10] ++ s2c "[7]     mach 28(...) -> 0x203" ++ [byte_of 10] ++ s2c "[7] open() -> 3" ++ [byte_of 10]).
Proof.
  apply (trace_renders (TraceOptions false true false) 7 example_table (λ k, if k then s2c "mach" else s2c "bsd")
    (λ _ _ _, []) (λ _ _ _, s2c "3") example_calls (replicate 64 0) init_gstate []); [unfold INT_MAX; lia|done|vm_compute; lia|].
  repeat split; (eexists; split; [reflexivity|]; split_and!; [unfold INT_MAX; lia..|by intros f [=]|intros f; (intros [= <-] || intros [=]); done| | |]);
    (split; [repeat constructor; by vm_compute|by vm_compute]).
Defined.
