(* ===== verification/Launcher.v ===== *)
(** * Container start-up and shellspawn

    startup/darling.c, the launcher on the Linux side, and shellspawn/, the
    daemon in the container that starts shells for it.  The two talk over a
    unix socket: the launcher sends the environment, a quoted command line, a
    directory, identifiers and three descriptors, the daemon starts bash, and
    signals follow.  Modelled are the quoting and its buffer, the messages and
    their reader, the forwarding of signals, the copying of terminal input,
    the search for a running container, and the paths and options that are
    built from the prefix.

    Files, the output of other programs and the answers of the system are
    arguments.  [None] stands for undefined behaviour. *)
From S2P Require Import Prelude Abi Simple Signals.

(** ** Text *)

Definition QUOTE : ascii := "'".
Definition BACKSLASH : ascii := "\".
Definition BLANK : ascii := " ".
Definition LINEFEED : ascii := "010".

Definition SYSTEM_ROOT : cstr := s2c "/Volumes/SystemRoot".
Definition SHELLSPAWN_SOCKPATH : cstr := s2c "/var/run/shellspawn.sock".

(** [snprintf] with the conversion %s into an array of [size] bytes. *)
Definition snprintf_text (size : Z) (s : cstr) : cstr := ztake (size - 1) s.

(** Appending with [strcat] or [stpcpy] to the text in a block of [size]
    bytes: the terminator is stored, too. *)
Definition append (size : Z) (dst src : cstr) : option cstr :=
  if strlen dst + strlen src + 1 <=? size then Some (dst ++ src) else None.

(** ** The command line *)

(** The text that is stored; the result is its length. *)
Fixpoint escapeQuotes (src : cstr) : cstr :=
  match src with
  | [] => []
  | c :: src => if ascii_dec c QUOTE then QUOTE :: BACKSLASH :: QUOTE :: QUOTE :: escapeQuotes src else c :: escapeQuotes src
  end.

(** The second loop; [to] is the text before the pointer. *)
Fixpoint quote_loop (size : Z) (to : cstr) (argv : list cstr) : option cstr :=
  match argv with
  | [] => Some to
  | arg :: argv =>
    to ← (match to with [] => Some to | _ => append size to [BLANK] end);
    to ← append size to [QUOTE];
    to ← append size to (escapeQuotes arg);
    to ← append size to [QUOTE];
    quote_loop size to argv
  end.

(** Without arguments the block stays uninitialised. *)
Definition command_buffer (argv : list cstr) : option cstr :=
  match argv with
  | [] => None
  | _ =>
    let total_len := foldr (λ arg n, strlen (escapeQuotes arg) + n) 0 argv in
    quote_loop (total_len + Z.of_nat (length argv) * 3) [] argv
  end.

(** ** Messages *)

Definition SHELLSPAWN_ADDARG : Z := 1.
Definition SHELLSPAWN_SETENV : Z := 2.
Definition SHELLSPAWN_CHDIR : Z := 3.
Definition SHELLSPAWN_GO : Z := 4.
Definition SHELLSPAWN_SIGNAL : Z := 5.
Definition SHELLSPAWN_SETUIDGID : Z := 6.

(** The socket: bytes, and the descriptors that travel with a byte. *)
Definition stream : Type := list (ascii * option (list Z)).
Definition plain_bytes (bytes : list ascii) : stream := (λ c, (c, None)) <$> bytes.

(** Both members of [struct shellspawn_cmd] are 16 bits wide. *)
Definition shellspawn_cmd (cmd data_length : Z) : list ascii := short_bytes cmd ++ short_bytes data_length.

Definition pushShellspawnCommandData (type : Z) (data : list ascii) : stream :=
  plain_bytes (shellspawn_cmd type (Z.of_nat (length data)) ++ data).

Definition pushShellspawnCommand (type : Z) (value : option cstr) : stream :=
  match value with
  | None => pushShellspawnCommandData type []
  | Some value => pushShellspawnCommandData type (value ++ [NUL])
  end.

Definition pushShellspawnCommandFDs (type : Z) (fds : list Z) : stream :=
  match shellspawn_cmd type 0 with
  | [] => []
  | c :: bytes => (c, Some fds) :: plain_bytes bytes
  end.

(** [spawnShell] of the launcher: what it sends before it waits.  [login] and
    the working directory are C strings, [argv] is [None] for a null
    pointer. *)
Definition shell_messages (argv : option (list cstr)) (login workdir : cstr) (uid gid : Z) (fds : list Z) : option stream :=
  args ← match argv with
         | None => Some []
         | Some argv =>
           buffer ← command_buffer argv;
           Some (pushShellspawnCommand SHELLSPAWN_ADDARG (Some (s2c "-c")) ++ pushShellspawnCommand SHELLSPAWN_ADDARG (Some buffer))
         end;
  Some (pushShellspawnCommand SHELLSPAWN_SETENV (Some (s2c "PATH=/usr/bin:/bin:/usr/sbin:/sbin:/usr/local/bin")) ++
        pushShellspawnCommand SHELLSPAWN_SETENV (Some (s2c "TMPDIR=/private/tmp")) ++
        pushShellspawnCommand SHELLSPAWN_SETENV (Some (snprintf_text 4096 (s2c "HOME=/Users/" ++ login))) ++
        args ++
        pushShellspawnCommand SHELLSPAWN_CHDIR (Some (snprintf_text 4096 (SYSTEM_ROOT ++ workdir))) ++
        pushShellspawnCommandData SHELLSPAWN_SETUIDGID (int_bytes uid ++ int_bytes gid) ++
        pushShellspawnCommandFDs SHELLSPAWN_GO fds).

(** ** The daemon *)

(** What [spawnShell] of the daemon collects: the arguments of bash, the
    strings given to [putenv], the directories given to [chdir] and the
    numbers given to [setuid] and [setgid], in order. *)
Record shell := Shell { sh_argv : list cstr; sh_env : list cstr; sh_chdir : list cstr; sh_ids : list (Z * Z) }.

Definition new_shell : shell := Shell [s2c "/bin/bash"; s2c "--login"] [] [] [].

(** [recvmsg] for 4 bytes: the bytes, the descriptors that come with them,
    and the rest.  [read] takes bytes only. *)
Definition rights (s : stream) : option (list Z) := foldr (λ '(_, fds) acc, match fds with Some f => Some f | None => acc end) None s.
Definition receive (n : nat) (s : stream) : list ascii * option (list Z) * stream :=
  (fst <$> take n s, rights (take n s), drop n s).

(** One turn of the loop: an error, the descriptors of [SHELLSPAWN_GO], or
    the next turn. *)
Inductive turn : Type := Bad | Go (fds : list Z) (rest : stream) | Next (s : shell) (rest : stream).

Definition run_command (cmd : Z) (data : list ascii) (fds : option (list Z)) (s : shell) (rest : stream) : turn :=
  let param := match data with [] => None | _ => Some (c_str data) end in
  if cmd =? SHELLSPAWN_ADDARG then
    Next (match param with Some p => Shell (sh_argv s ++ [p]) (sh_env s) (sh_chdir s) (sh_ids s) | None => s end) rest
  else if cmd =? SHELLSPAWN_SETENV then
    Next (match param with Some p => Shell (sh_argv s) (sh_env s ++ [p]) (sh_chdir s) (sh_ids s) | None => s end) rest
  else if cmd =? SHELLSPAWN_CHDIR then
    Next (match param with Some p => Shell (sh_argv s) (sh_env s) (sh_chdir s ++ [p]) (sh_ids s) | None => s end) rest
  else if cmd =? SHELLSPAWN_GO then
    match fds with
    | Some fds => if (length fds =? 3)%nat then Go fds rest else Bad
    | None => Bad
    end
  else if cmd =? SHELLSPAWN_SETUIDGID then
    Next (if Z.of_nat (length data) <? 8 then s
          else Shell (sh_argv s) (sh_env s) (sh_chdir s)
                 (sh_ids s ++ [(s32 (bytes_value (take 4 data)), s32 (bytes_value (take 4 (drop 4 data))))])) rest
  else Next s rest.

Definition read_command (s : shell) (sock : stream) : turn :=
  let '(header, fds, sock) := receive 4 sock in
  if negb (length header =? 4)%nat then Bad
  else
    let cmd := bytes_value (take 2 header) in
    let data_length := bytes_value (drop 2 header) in
    let '(data, _, sock) := receive (Z.to_nat data_length) sock in
    if negb (Z.of_nat (length data) =? data_length) then Bad else run_command cmd data fds s sock.

(** The loop; every turn takes at least 4 bytes, so that the length of the
    stream is fuel enough. *)
Fixpoint read_cmds (fuel : nat) (s : shell) (sock : stream) : option (shell * list Z * stream) :=
  match fuel with
  | O => None
  | S fuel =>
    match read_command s sock with
    | Bad => None
    | Go fds rest => Some (s, fds, rest)
    | Next s rest => read_cmds fuel s rest
    end
  end.

(** The program, its arguments and the rest, or an error. *)
Definition daemon_start (sock : stream) : option (shell * list Z * stream) := read_cmds (S (length sock)) new_shell sock.

(** [for (i = 0; i < 3; i++) if (shellfd[i] != -1) close(shellfd[0]);] *)
Definition close_shell_fds (shellfd : list Z) : list Z :=
  (λ _, default (-1) (shellfd !! 0%nat)) <$> filter (λ fd, fd ≠ -1) (take 3 shellfd).

(** ** Signals *)

(** shellspawn/duct_signals.c *)
Definition duct_signum_tbl : list (Z * Z) := [
  (LINUX_SIGHUP, SIGHUP); (LINUX_SIGINT, SIGINT); (LINUX_SIGQUIT, SIGQUIT); (LINUX_SIGILL, SIGILL); (LINUX_SIGTRAP, SIGTRAP);
  (LINUX_SIGABRT, SIGABRT); (LINUX_SIGFPE, SIGFPE); (LINUX_SIGKILL, SIGKILL); (LINUX_SIGBUS, SIGBUS); (LINUX_SIGSEGV, SIGSEGV);
  (LINUX_SIGSYS, SIGSYS); (LINUX_SIGPIPE, SIGPIPE); (LINUX_SIGALRM, SIGALRM); (LINUX_SIGTERM, SIGTERM); (LINUX_SIGURG, SIGURG);
  (LINUX_SIGSTOP, SIGSTOP); (LINUX_SIGTSTP, SIGTSTP); (LINUX_SIGCONT, SIGCONT); (LINUX_SIGCHLD, SIGCHLD); (LINUX_SIGTTIN, SIGTTIN);
  (LINUX_SIGTTOU, SIGTTOU); (LINUX_SIGIO, SIGIO); (LINUX_SIGXCPU, SIGXCPU); (LINUX_SIGXFSZ, SIGXFSZ); (LINUX_SIGVTALRM, SIGVTALRM);
  (LINUX_SIGPROF, SIGPROF); (LINUX_SIGWINCH, SIGWINCH); (LINUX_SIGUSR1, SIGUSR1); (LINUX_SIGUSR2, SIGUSR2) ].
Definition duct_signum_linux_to_bsd (signum : Z) : Z := switch duct_signum_tbl 0 signum.

(** [signalHandler] of the launcher: what is sent.  [pty_master] is -1 when
    there is no terminal. *)
Definition signalHandler (pty_master signo : Z) : stream :=
  let signo := if (pty_master =? -1) && (signo =? LINUX_SIGINT) then LINUX_SIGTERM else signo in
  pushShellspawnCommandData SHELLSPAWN_SIGNAL (int_bytes signo).

(** What the daemon does on readable input: it leaves the loop, gives up, or
    goes on, after a call of [kill] or none.  [fg_pid] is the result of
    [tcgetpgrp(shellfd[0])]. *)
Inductive relay : Set := Leave | GiveUp | Killed (pid sig : Z) | Ignored.

Definition relay_signal (fg_pid shell_pid : Z) (sock : stream) : relay * stream :=
  let '(header, _, sock) := receive 4 sock in
  if negb (length header =? 4)%nat then (Leave, sock)
  else if negb (bytes_value (take 2 header) =? SHELLSPAWN_SIGNAL) then (GiveUp, sock)
  else if negb (bytes_value (drop 2 header) =? 4) then (GiveUp, sock)
  else
    let '(data, _, sock) := receive 4 sock in
    if negb (length data =? 4)%nat then (GiveUp, sock)
    else
      let darwin_signal := duct_signum_linux_to_bsd (s32 (bytes_value data)) in
      (if darwin_signal =? 0 then Ignored
       else if fg_pid =? -1 then Killed (- shell_pid) darwin_signal else Killed fg_pid darwin_signal, sock).

(** ** Copying of terminal input *)

(** The loop over standard input in [shellLoop]: [reads] are the results of
    [read], the bytes or [None] for an error.  The bytes written to the
    terminal and whether the loop ends with [exit(1)]. *)
Definition BUF_SIZE : Z := 4096.

Fixpoint stdin_loop (reads : list (option (list ascii))) : list ascii * bool :=
  match reads with
  | Some (c :: data) :: reads =>
    if Z.of_nat (length (c :: data)) =? BUF_SIZE then let '(out, stop) := stdin_loop reads in ((c :: data) ++ out, stop)
    else (c :: data, false)
  | _ => ([], true)
  end.

(** The loop over the terminal's output goes on as long as buffers are full. *)
Fixpoint master_loop (reads : list (option (list ascii))) : list ascii :=
  match reads with
  | Some data :: reads => if Z.of_nat (length data) =? BUF_SIZE then data ++ master_loop reads else data
  | _ => []
  end.

(** ** Paths and options built from the prefix *)

(** [if (strlen(prefix) > 255)] in [main] *)
Definition prefix_accepted (prefix : cstr) : bool := strlen prefix <=? 255.

(** [struct sockaddr_un]: [strcpy] and [strcat] into 108 bytes. *)
Definition sun_path (prefix : cstr) : option cstr := dst ← append 108 [] prefix; append 108 dst SHELLSPAWN_SOCKPATH.

Definition pid_path (prefix : cstr) : option cstr := dst ← append (strlen prefix + 11) [] prefix; append (strlen prefix + 11) dst (s2c "/.init.pid").

Definition defaultPrefixPath (home : option cstr) : option cstr :=
  home ← home; dst ← append (strlen home + 10) [] home; append (strlen home + 10) dst (s2c "/.darling").

(** The path of a program outside of the prefix. *)
Definition full_path (path : cstr) : option cstr :=
  let size := strlen SYSTEM_ROOT + strlen path + 1 in dst ← append size [] SYSTEM_ROOT; append size dst path.

(** [while (workdir[len-1] == '/') len--;] reads before the block when there
    is nothing but slashes. *)
Fixpoint strip_slashes (rev_path : cstr) : option cstr :=
  match rev_path with
  | [] => None
  | c :: r => if ascii_dec c "/" then strip_slashes r else Some rev_path
  end.
Definition workdir_path (prefix : cstr) : option cstr :=
  r ← strip_slashes (rev prefix); append (strlen prefix + 9) (rev r) (s2c ".workdir").

(** [opts_fmt] of [spawnInitProcess]; [libexec] is LIBEXEC_PATH. *)
Definition overlay_text (libexec prefix : cstr) : cstr :=
  s2c "lowerdir=" ++ libexec ++ s2c ",upperdir=" ++ prefix ++ s2c ",workdir=" ++ prefix ++ s2c ".workdir,index=off".
Definition overlay_opts (libexec prefix : cstr) : option cstr :=
  append (strlen prefix * 2 + (strlen libexec + 1) + 100) [] (overlay_text libexec prefix).

(** The directories [setupPrefix] creates, in order. *)
Definition prefix_dirs : list string := [
  "/Volumes"; "/Applications"; "/usr"; "/usr/local"; "/usr/local/share"; "/private"; "/private/var"; "/private/var/log";
  "/private/var/db"; "/var"; "/var/run"; "/var/tmp"; "/var/log"]%string.
Definition setupPrefix (prefix : cstr) : option (list cstr) :=
  path ← append 4096 [] prefix; path ← append 4096 path (s2c "/");
  dirs ← mapM (λ d, append 4096 path (s2c d)) prefix_dirs; Some (prefix :: dirs).

(** The directories [darlingPreInit] wipes. *)
Definition darlingPreInit (prefix : cstr) : option (list cstr) :=
  path ← append 4096 [] prefix; mapM (λ d, append 4096 path (s2c d)) ["/var/tmp"; "/var/run"]%string.

(** ** The user's directories *)

Inductive fs_call : Set :=
| Unlink (path : cstr)
| Mkdir (path : cstr) (mode : Z)
| Symlink (target path : cstr).

(** [xdgDirectory]: [dir] is the static buffer, [output] the first line the
    program prints ([None]: nothing, [fgets] leaves the buffer alone). *)
Definition xdgDirectory (dir : cstr) (output : option cstr) : option cstr * cstr :=
  let dir := match output with Some line => ztake 4094 line | None => dir end in
  if strlen dir <=? 1 then (None, dir)
  else
    let dir := if bool_decide (last dir = Some LINEFEED) then removelast dir else dir in (Some dir, dir).

Definition xdgmap : list (string * string) := [
  ("DESKTOP", "Desktop"); ("DOWNLOAD", "Downloads"); ("PUBLICSHARE", "Public"); ("DOCUMENTS", "Documents"); ("MUSIC", "Music");
  ("PICTURES", "Pictures"); ("VIDEOS", "Movies")]%string.

Definition user_dir (prefix login name : cstr) : cstr := snprintf_text 4096 (prefix ++ s2c "/Users/" ++ login ++ s2c "/" ++ name).

(** [outputs] are the lines printed for each name. *)
Fixpoint xdg_loop (prefix login dir : cstr) (entries : list ((string * string) * option cstr)) : list fs_call :=
  match entries with
  | [] => []
  | ((_, name), output) :: entries =>
    let '(found, dir) := xdgDirectory dir output in
    match found with
    | None => xdg_loop prefix login dir entries
    | Some d =>
      let path := user_dir prefix login (s2c name) in
      Unlink path :: Symlink (snprintf_text 4096 (SYSTEM_ROOT ++ d)) path :: xdg_loop prefix login dir entries
    end
  end.

(** [login] and [home] are known; [strcat] appends to arrays of 4096 bytes. *)
Definition setupUserHome (prefix login home : cstr) (outputs : list (option cstr)) : option (list fs_call) :=
  let users := snprintf_text 4096 (prefix ++ s2c "/Users") in
  shared ← append 4096 users (s2c "/Shared");
  let own := snprintf_text 4096 (prefix ++ s2c "/Users/" ++ login) in
  link ← append 4096 own (s2c "/LinuxHome");
  Some ([Unlink users; Mkdir users 511; Mkdir shared 511; Mkdir own 493; Unlink link;
         Symlink (snprintf_text 4096 (SYSTEM_ROOT ++ home)) link] ++ xdg_loop prefix login [] (combine xdgmap outputs)).

(** ** A running container *)

Definition is_blank (c : ascii) : bool := (byte_val c =? 32) || ((9 <=? byte_val c) && (byte_val c <=? 13)).

Fixpoint skip_blanks (s : cstr) : cstr := match s with c :: r => if is_blank c then skip_blanks r else s | [] => [] end.

Fixpoint scan_digits (v : Z) (s : cstr) : Z * cstr :=
  match s with c :: r => if isdigit c then scan_digits (v * 10 + (byte_val c - 48)) r else (v, s) | [] => (v, []) end.

(** The conversion %d of [scanf]: blanks, a sign, digits. *)
Definition scan_d (s : cstr) : option (Z * cstr) :=
  let s := skip_blanks s in
  let '(neg, s) := match s with c :: r => if ascii_dec c "-" then (true, r) else if ascii_dec c "+" then (false, r) else (false, s) | [] => (false, s) end in
  match s with
  | c :: _ => if isdigit c then let '(v, r) := scan_digits 0 s in Some (s32 (if neg then - v else v), r) else None
  | [] => None
  end.

(** The conversion %s: blanks, then what is no blank. *)
Fixpoint take_word (s : cstr) : cstr := match s with c :: r => if is_blank c then [] else c :: take_word r | [] => [] end.
Definition scan_s (s : cstr) : option cstr := match take_word (skip_blanks s) with [] => None | w => Some w end.

(** [sscanf(line, "<tag> %d %d %d %d", ...) == 4] *)
Fixpoint scan_tag (tag s : cstr) : option cstr :=
  match tag, s with
  | [], _ => Some s
  | t :: tag, c :: s => if ascii_dec t c then scan_tag tag s else None
  | _, [] => None
  end.
Definition scan_ids (tag line : cstr) : option (Z * Z * Z * Z) :=
  s ← scan_tag tag line; '(a, s) ← scan_d s; '(b, s) ← scan_d s; '(c, s) ← scan_d s; '(d, _) ← scan_d s; Some (a, b, c, d).

(** The variables [uidMatch] and [gidMatch] after a line. *)
Definition match_line (tag : cstr) (id : Z) (line : cstr) (m : bool) : bool :=
  match scan_ids tag line with
  | Some (r, e, s, f) => (u32 r =? id) && (u32 e =? id) && (u32 s =? id) && (u32 f =? id)
  | None => m
  end.

Fixpoint lines_from (acc s : cstr) : list cstr :=
  match s with
  | [] => match acc with [] => [] | _ => [rev acc] end
  | c :: s => if ascii_dec c LINEFEED then rev (c :: acc) :: lines_from [] s else lines_from (c :: acc) s
  end.
Definition status_matches (uid gid : Z) (status : cstr) : bool :=
  let lines := lines_from [] status in
  foldl (λ m line, match_line (s2c "Uid:") uid line m) false lines && foldl (λ m line, match_line (s2c "Gid:") gid line m) false lines.

(** What the launcher sees: the file in the prefix, whether a process can be
    signalled, and two files of /proc. *)
Record proc_view := ProcView {
  pv_pidfile : option cstr; pv_alive : Z -> bool; pv_comm : Z -> option cstr; pv_status : Z -> option cstr }.

(** The result, and whether the file in the prefix is removed. *)
Definition getInitProcess (v : proc_view) (uid gid : Z) : Z * bool :=
  match pv_pidfile v with
  | None => (0, false)
  | Some text =>
    match scan_d text with
    | None => (0, true)
    | Some (pid, _) =>
      if negb (pv_alive v pid) then (0, true)
      else
        match pv_comm v pid ≫= scan_s with
        | None => (0, true)
        | Some exe =>
          if negb (streq exe (s2c "launchd")) then (0, true)
          else if uid =? 0 then (pid, false)
          else
            match pv_status v pid with
            | None => (0, true)
            | Some status => if status_matches uid gid status then (pid, false) else (0, true)
            end
        end
    end
  end.

(** [isModuleLoaded]: a file that cannot be opened is closed. *)
Fixpoint contains (s sub : cstr) : bool := strneq s sub (length sub) || match s with [] => false | _ :: s => contains s sub end.
Definition isModuleLoaded (modules : option cstr) : option bool :=
  text ← modules; Some (existsb (λ line, contains line (s2c "darling_mach")) (lines_from [] text)).

(** ** Theorems *)

(** *** Quoting *)

(** Words of a POSIX shell, for text that has no other special characters
    outside of quotes than blanks, quotes and backslashes: [cur] is the word
    that is being read. *)
Definition word_char (c : ascii) : bool :=
  let b := byte_val c in
  ((48 <=? b) && (b <=? 57)) || ((65 <=? b) && (b <=? 90)) || ((97 <=? b) && (b <=? 122)) || (b =? 45) || (b =? 46) || (b =? 47) || (b =? 95).

Fixpoint sh_words (quoted : bool) (cur : option cstr) (s : cstr) : option (list cstr) :=
  match s with
  | [] => if quoted then None else Some (match cur with Some w => [w] | None => [] end)
  | c :: s =>
    if quoted then
      if ascii_dec c QUOTE then sh_words false cur s else sh_words true (Some (default [] cur ++ [c])) s
    else if ascii_dec c QUOTE then sh_words true (Some (default [] cur)) s
    else if ascii_dec c BLANK then
      rest ← sh_words false None s; Some (match cur with Some w => w :: rest | None => rest end)
    else if ascii_dec c BACKSLASH then
      match s with
      | c :: s => if ascii_dec c LINEFEED then None else sh_words false (Some (default [] cur ++ [c])) s
      | [] => None
      end
    else if word_char c then sh_words false (Some (default [] cur ++ [c])) s
    else None
  end.

Definition quoted_arg (arg : cstr) : cstr := QUOTE :: escapeQuotes arg ++ [QUOTE].
Definition more_args (argv : list cstr) : cstr := argv ≫= (λ arg, BLANK :: quoted_arg arg).
Definition quoted_args (argv : list cstr) : cstr := match argv with [] => [] | arg :: argv => quoted_arg arg ++ more_args argv end.

Lemma sh_words_escaped arg cur r : sh_words true (Some cur) (escapeQuotes arg ++ QUOTE :: r) = sh_words false (Some (cur ++ arg)) r.
Proof.
  revert cur. induction arg as [|c arg IH]; intros cur; simpl; [by rewrite app_nil_r|].
  destruct (ascii_dec c QUOTE) as [->|Hc]; simpl.
  - rewrite IH. by rewrite <- app_assoc.
  - destruct (ascii_dec c QUOTE); [done|]. rewrite IH. by rewrite <- app_assoc.
Qed.

Lemma sh_words_arg arg r : sh_words false None (quoted_arg arg ++ r) = sh_words false (Some arg) r.
Proof. unfold quoted_arg. simpl. rewrite <- app_assoc. simpl app. by rewrite sh_words_escaped. Qed.

Lemma more_cons arg argv : more_args (arg :: argv) = BLANK :: quoted_arg arg ++ more_args argv.
Proof. done. Qed.

Lemma quoted_cons arg argv : quoted_args (arg :: argv) = quoted_arg arg ++ more_args argv.
Proof. done. Qed.

Lemma sh_words_more cur argv : sh_words false (Some cur) (more_args argv) = Some (cur :: argv).
Proof.
  revert cur. induction argv as [|arg argv IH]; intros cur; [done|]. rewrite more_cons. pose proof (sh_words_arg arg (more_args argv)) as Ha.
  rewrite IH in Ha. revert Ha. generalize (quoted_arg arg ++ more_args argv). intros t Ht. simpl. by rewrite Ht.
Qed.

Lemma sh_words_quoted argv : sh_words false None (quoted_args argv) = Some argv.
Proof. destruct argv as [|arg argv]; [done|]. by rewrite quoted_cons, sh_words_arg, sh_words_more. Qed.

Lemma append_room size dst src : strlen dst + strlen src + 1 <= size -> append size dst src = Some (dst ++ src).
Proof. intros ?. unfold append. by rewrite (proj2 (Z.leb_le _ _)). Qed.

Lemma len_cons c (a : cstr) : strlen (c :: a) = 1 + strlen a.
Proof. unfold strlen. simpl. lia. Qed.
Lemma len_nil : strlen [] = 0.
Proof. done. Qed.
Lemma len_quoted arg : strlen (quoted_arg arg) = strlen (escapeQuotes arg) + 2.
Proof. unfold quoted_arg. rewrite len_cons, strlen_app, len_cons, len_nil. lia. Qed.

(** One argument is stored in three pieces. *)
Lemma quote_one size to arg {A} (k : cstr -> option A) : strlen to + strlen (quoted_arg arg) + 1 <= size ->
  (to ← append size to [QUOTE]; to ← append size to (escapeQuotes arg); to ← append size to [QUOTE]; k to) = k (to ++ quoted_arg arg).
Proof.
  rewrite len_quoted. pose proof (strlen_nonneg (escapeQuotes arg)). intros Hs.
  rewrite append_room by (rewrite len_cons, len_nil; lia). simpl. rewrite append_room by (rewrite strlen_app, len_cons, len_nil; lia). simpl.
  rewrite append_room by (rewrite !strlen_app, len_cons, len_nil; lia). simpl. f_equal. unfold quoted_arg. by rewrite <- !app_assoc.
Qed.

Lemma quote_more size to argv : to ≠ [] -> strlen to + strlen (more_args argv) + 1 <= size ->
  quote_loop size to argv = Some (to ++ more_args argv).
Proof.
  revert to. induction argv as [|arg argv IH]; intros to Hto Hs; [by rewrite app_nil_r|].
  rewrite more_cons, len_cons, strlen_app in Hs. pose proof (strlen_nonneg (more_args argv)). pose proof (strlen_nonneg (quoted_arg arg)).
  destruct to as [|c to]; [done|]. simpl quote_loop. rewrite append_room by (rewrite !len_cons, len_nil; rewrite len_cons in Hs; lia). cbn [option_bind mbind].
  rewrite quote_one by (rewrite strlen_app, !len_cons, len_nil; rewrite len_cons in Hs; lia). rewrite IH; [|done|].
  - rewrite more_cons. by rewrite <- !app_assoc.
  - rewrite !strlen_app, !len_cons, len_nil. rewrite len_cons in Hs. lia.
Qed.

Lemma more_len argv : strlen (more_args argv) = foldr (λ arg n, strlen (escapeQuotes arg) + n) 0 argv + 3 * Z.of_nat (length argv).
Proof. induction argv as [|arg argv IH]; [done|]. rewrite more_cons, len_cons, strlen_app, len_quoted, IH. simpl. lia. Qed.

Lemma command_buffer_text argv : argv ≠ [] -> command_buffer argv = Some (quoted_args argv) ∧ sh_words false None (quoted_args argv) = Some argv.
Proof.
  intros Hne. split; [|apply sh_words_quoted]. destruct argv as [|arg argv]; [done|].
  unfold command_buffer. set (size := _ + _ * 3). simpl quote_loop.
  assert (strlen (quoted_arg arg) + strlen (more_args argv) + 1 <= size) as Hs.
  { rewrite len_quoted, more_len. subst size. simpl. lia. }
  pose proof (strlen_nonneg (more_args argv)). rewrite (quote_one size [] arg) by (rewrite len_nil; lia). simpl app. rewrite quote_more; [done|done|lia].
Qed.

(** The block is exactly as large as the text needs,
    and the text is read by a shell as the arguments that went in, whatever
    characters they have. *)
Theorem command_line_round_trip argv : argv ≠ [] ->
  ∃ text, command_buffer argv = Some text ∧ sh_words false None text = Some argv ∧
          strlen text + 1 = foldr (λ arg n, strlen (escapeQuotes arg) + n) 0 argv + Z.of_nat (length argv) * 3.
Proof.
  intros Hne. destruct (command_buffer_text argv Hne) as [Hb Hw]. exists (quoted_args argv). split_and!; [done|done|].
  destruct argv as [|arg argv]; [done|]. rewrite quoted_cons, strlen_app, len_quoted, more_len. simpl. lia.
Qed.

Lemma command_line_round_trip_witness :
  ∃ text, command_buffer [s2c "echo"; s2c "it's"; []] = Some text ∧ sh_words false None text = Some [s2c "echo"; s2c "it's"; []] ∧ strlen text + 1 = 20.
Proof. apply (command_line_round_trip [s2c "echo"; s2c "it's"; []]). done. Defined.

(** *** Messages *)

Lemma plain_no_rights bytes : rights (plain_bytes bytes) = None.
Proof. by induction bytes. Qed.

Lemma plain_fst bytes : fst <$> plain_bytes bytes = bytes.
Proof. unfold plain_bytes. induction bytes; [done|]. simpl. by f_equal. Qed.

Lemma receive_plain n bytes rest : length bytes = n -> receive n (plain_bytes bytes ++ rest) = (bytes, None, rest).
Proof.
  intros <-. unfold receive. rewrite take_app_length', drop_app_length' by (unfold plain_bytes; by rewrite length_fmap).
  by rewrite plain_fst, plain_no_rights.
Qed.

Lemma plain_app a b : plain_bytes (a ++ b) = plain_bytes a ++ plain_bytes b.
Proof. apply fmap_app. Qed.

Lemma header_fields cmd n : take 2 (shellspawn_cmd cmd n) = short_bytes cmd ∧ drop 2 (shellspawn_cmd cmd n) = short_bytes n.
Proof. done. Qed.

Lemma read_push s type data rest : 0 <= type < 2 ^ 16 -> Z.of_nat (length data) < 2 ^ 16 ->
  read_command s (pushShellspawnCommandData type data ++ rest) = run_command type data None s rest.
Proof.
  intros Ht Hd. unfold read_command, pushShellspawnCommandData. rewrite plain_app, <- app_assoc, receive_plain by done.
  change (negb (length (shellspawn_cmd type (Z.of_nat (length data))) =? 4)%nat) with false. cbv zeta.
  destruct (header_fields type (Z.of_nat (length data))) as [-> ->]. rewrite !short_value, !Z.mod_small by lia.
  rewrite Nat2Z.id, receive_plain by done. by rewrite Z.eqb_refl.
Qed.

Lemma read_go s fds rest : length fds = 3%nat -> read_command s (pushShellspawnCommandFDs SHELLSPAWN_GO fds ++ rest) = Go fds rest.
Proof. intros Hf. unfold read_command. simpl. unfold run_command. simpl. by rewrite Hf. Qed.

(** A turn consumes its message, so that the fuel is enough. *)
Lemma read_command_shorter s sock s' rest : read_command s sock = Next s' rest -> (length rest < length sock)%nat.
Proof.
  unfold read_command, receive. destruct (negb (length (fst <$> take 4 sock) =? 4)%nat) eqn:Hh; [done|]. simpl.
  rewrite negb_false_iff, Nat.eqb_eq, length_fmap, length_take in Hh. set (n := Z.to_nat _). destruct (negb _); [done|].
  unfold run_command. repeat (case_match; try done); intros [= _ <-]; rewrite !length_drop; lia.
Qed.

Lemma read_cmds_fuel f1 f2 s sock : (length sock < f1)%nat -> (length sock < f2)%nat -> read_cmds f1 s sock = read_cmds f2 s sock.
Proof.
  revert f2 s sock. induction f1 as [|f1 IH]; intros [|f2] s sock H1 H2; [lia|lia|lia|]. simpl.
  destruct (read_command s sock) as [|fds r|s' r] eqn:Hr; [done|done|]. apply read_command_shorter in Hr. apply IH; lia.
Qed.

(** The loop without fuel, one message at a time. *)
Definition serve (s : shell) (sock : stream) : option (shell * list Z * stream) := read_cmds (S (length sock)) s sock.

Lemma serve_step s sock s' rest : read_command s sock = Next s' rest -> serve s sock = serve s' rest.
Proof.
  intros Hr. unfold serve. rewrite (read_cmds_fuel (S (length rest)) (length sock) s' rest); [simpl; by rewrite Hr|lia|].
  by apply read_command_shorter in Hr.
Qed.

Lemma serve_string a e c i type value rest :
  In type [SHELLSPAWN_ADDARG; SHELLSPAWN_SETENV; SHELLSPAWN_CHDIR] -> NUL ∉ value -> strlen value + 1 < 2 ^ 16 ->
  serve (Shell a e c i) (pushShellspawnCommand type (Some value) ++ rest) =
  serve (if type =? SHELLSPAWN_ADDARG then Shell (a ++ [value]) e c i
         else if type =? SHELLSPAWN_SETENV then Shell a (e ++ [value]) c i else Shell a e (c ++ [value]) i) rest.
Proof.
  intros Ht Hn Hv. apply serve_step. unfold pushShellspawnCommand. rewrite read_push.
  - unfold run_command. assert (c_str (value ++ [NUL]) = value) as Hc by by apply c_str_nul.
    destruct (value ++ [NUL]) as [|c0 l] eqn:Hl; [by destruct value|]. rewrite Hc. by destruct Ht as [<-|[<-|[<-|[]]]].
  - destruct Ht as [<-|[<-|[<-|[]]]]; done.
  - rewrite length_app. unfold strlen in Hv. simpl. lia.
Qed.

Lemma serve_ids a e c i uid gid rest :
  serve (Shell a e c i) (pushShellspawnCommandData SHELLSPAWN_SETUIDGID (int_bytes uid ++ int_bytes gid) ++ rest) =
  serve (Shell a e c (i ++ [(s32 uid, s32 gid)])) rest.
Proof.
  apply serve_step. rewrite read_push by done. unfold run_command.
  change (take 4 (int_bytes uid ++ int_bytes gid)) with (int_bytes uid).
  change (take 4 (drop 4 (int_bytes uid ++ int_bytes gid))) with (int_bytes gid). rewrite !int_value, !s32_u32. done.
Qed.

Lemma serve_go s fds rest : length fds = 3%nat -> serve s (pushShellspawnCommandFDs SHELLSPAWN_GO fds ++ rest) = Some (s, fds, rest).
Proof. intros Hf. unfold serve. cbn [read_cmds]. by rewrite read_go. Qed.

Ltac push_string := rewrite serve_string; [cbn [Z.eqb Pos.eqb SHELLSPAWN_ADDARG SHELLSPAWN_SETENV SHELLSPAWN_CHDIR app]|simpl; tauto| |].
Ltac no_nul := apply (bool_decide_unpack _); vm_compute; exact I.

Lemma no_nul_app (a b : cstr) : NUL ∉ a -> NUL ∉ b -> NUL ∉ a ++ b.
Proof. intros ?? [?|?]%elem_of_app; done. Qed.

Lemma no_nul_take n (a : cstr) : NUL ∉ a -> NUL ∉ ztake n a.
Proof. intros Ha Hin. apply Ha. unfold ztake in Hin. rewrite <- (take_drop (Z.to_nat n) a). apply elem_of_app. by left. Qed.

Lemma no_nul_escape a : NUL ∉ a -> NUL ∉ escapeQuotes a.
Proof.
  induction a as [|c a IH]; [done|]. rewrite not_elem_of_cons. intros [Hc Ha]. simpl. specialize (IH Ha).
  destruct (ascii_dec c QUOTE); rewrite !not_elem_of_cons; by split_and!.
Qed.

Lemma no_nul_quoted argv : Forall (λ a, NUL ∉ a) argv -> NUL ∉ quoted_args argv.
Proof.
  assert (∀ a, NUL ∉ a -> NUL ∉ quoted_arg a) as Hq.
  { intros a Ha. unfold quoted_arg. rewrite not_elem_of_cons. split; [done|]. apply no_nul_app; [by apply no_nul_escape|set_solver]. }
  intros Hall. destruct argv as [|a argv]; [set_solver|]. apply Forall_cons in Hall as [Ha Hall]. rewrite quoted_cons. apply no_nul_app; [auto|].
  clear Ha. induction argv as [|b argv IH]; [set_solver|]. apply Forall_cons in Hall as [Hb Hall]. rewrite more_cons, not_elem_of_cons.
  split; [done|]. apply no_nul_app; auto.
Qed.

(** C27: the shell the daemon starts is the shell the launcher asked for.  The
    command has at least one argument, the quoted command line with its
    terminator is shorter than 64 KiB (see [long_command_lost]), and the
    daemon's reads return all that they ask for.  Then the arguments, the
    environment, the directory, the identifiers and the descriptors arrive as
    they were sent (the variable HOME and the directory cut to 4095
    characters), nothing is left on the socket, and bash reads the command
    line as the arguments of the launcher. *)
Theorem shell_request_round_trip argv login workdir uid gid fds :
  argv ≠ [] -> Forall (λ a, NUL ∉ a) argv -> NUL ∉ login -> NUL ∉ workdir -> length fds = 3%nat ->
  (∀ line, command_buffer argv = Some line -> strlen line + 1 < 2 ^ 16) ->
  ∃ sock line,
    shell_messages (Some argv) login workdir uid gid fds = Some sock ∧
    daemon_start sock = Some (Shell [s2c "/bin/bash"; s2c "--login"; s2c "-c"; line]
      [s2c "PATH=/usr/bin:/bin:/usr/sbin:/sbin:/usr/local/bin"; s2c "TMPDIR=/private/tmp"; snprintf_text 4096 (s2c "HOME=/Users/" ++ login)]
      [snprintf_text 4096 (SYSTEM_ROOT ++ workdir)] [(s32 uid, s32 gid)], fds, []) ∧
    sh_words false None line = Some argv.
Proof.
  intros Hne Hargs Hl Hw Hf Hlen. destruct (command_buffer_text argv Hne) as [Hb Hwords]. specialize (Hlen _ Hb).
  eexists _, (quoted_args argv). split_and!; [unfold shell_messages; rewrite Hb; reflexivity| |done].
  assert (∀ (s : cstr), strlen (snprintf_text 4096 s) + 1 < 2 ^ 16) as Hs by (intros s; unfold snprintf_text, ztake, strlen; rewrite length_take; lia).
  change (daemon_start ?x) with (serve (Shell [s2c "/bin/bash"; s2c "--login"] [] [] []) x). rewrite <- !app_assoc.
  push_string; [|no_nul|by vm_compute]. push_string; [|no_nul|by vm_compute].
  push_string; [|apply no_nul_take, no_nul_app; [no_nul|done]|apply Hs].
  push_string; [|no_nul|by vm_compute]. push_string; [|exact (no_nul_quoted _ Hargs)|exact Hlen].
  push_string; [|apply no_nul_take, no_nul_app; [no_nul|done]|apply Hs].
  rewrite serve_ids. rewrite <- (app_nil_r (pushShellspawnCommandFDs _ _)), serve_go by done. done.
Qed.

Lemma shell_request_round_trip_witness : ∃ sock line,
  shell_messages (Some [s2c "ls"; s2c "a b'c"]) (s2c "me") (s2c "/home/me") 1000 1000 [5; 1; 2] = Some sock ∧
  daemon_start sock = Some (Shell [s2c "/bin/bash"; s2c "--login"; s2c "-c"; line]
    [s2c "PATH=/usr/bin:/bin:/usr/sbin:/sbin:/usr/local/bin"; s2c "TMPDIR=/private/tmp"; s2c "HOME=/Users/me"]
    [s2c "/Volumes/SystemRoot/home/me"] [(1000, 1000)], [5; 1; 2], []) ∧
  sh_words false None line = Some [s2c "ls"; s2c "a b'c"].
Proof.
  apply (shell_request_round_trip [s2c "ls"; s2c "a b'c"] (s2c "me") (s2c "/home/me") 1000 1000 [5; 1; 2]);
    [done|repeat constructor; no_nul|no_nul|no_nul|done|].
  intros line Hl. assert (Some line = Some (s2c "'ls' 'a b'\''c'")) as [= ->] by (rewrite <- Hl; vm_compute; reflexivity). by vm_compute.
Defined.

(** A command line of 64 KiB: the length is sent as 0, the daemon takes the
    text for messages, and no shell is started. *)
Definition long_argument : cstr := replicate (Z.to_nat 65533) "a"%char.

Lemma long_command_lost :
  match shell_messages (Some [long_argument]) (s2c "me") (s2c "/") 1000 1000 [5; 1; 2] with
  | Some sock => daemon_start sock
  | None => Some (new_shell, [], [])
  end = None.
Proof. vm_compute. reflexivity. Qed.

(** *** Signals *)

(** A signal the launcher gets is the signal the
    foreground process of the terminal gets, under its Darwin number; without
    a terminal it goes to the process group of the shell, and an interrupt
    becomes a termination. *)
Theorem signal_forwarded pty_master fg_pid shell_pid signo rest :
  1 <= signo < 32 ->
  let sent := if (pty_master =? -1) && (signo =? LINUX_SIGINT) then LINUX_SIGTERM else signo in
  relay_signal fg_pid shell_pid (signalHandler pty_master signo ++ rest) =
  (if duct_signum_linux_to_bsd sent =? 0 then Ignored
   else if fg_pid =? -1 then Killed (- shell_pid) (duct_signum_linux_to_bsd sent) else Killed fg_pid (duct_signum_linux_to_bsd sent), rest).
Proof.
  intros Hs sent. assert (1 <= sent < 32) as Hr by (subst sent; destruct (_ && _); [by vm_compute|done]).
  unfold signalHandler. fold sent. unfold relay_signal, pushShellspawnCommandData. rewrite plain_app, <- app_assoc, receive_plain by done.
  destruct (header_fields SHELLSPAWN_SIGNAL (Z.of_nat (length (int_bytes sent)))) as [-> ->].
  change (negb (length (shellspawn_cmd SHELLSPAWN_SIGNAL (Z.of_nat (length (int_bytes sent)))) =? 4)%nat) with false. rewrite !short_value.
  change (negb (SHELLSPAWN_SIGNAL mod 2 ^ 16 =? SHELLSPAWN_SIGNAL)) with false.
  change (negb (Z.of_nat (length (int_bytes sent)) mod 2 ^ 16 =? 4)) with false. cbv iota. rewrite receive_plain by done.
  change (negb (length (int_bytes sent) =? 4)%nat) with false. cbv iota zeta. rewrite int_value, s32_u32, s32_id by (unfold INT_MIN, INT_MAX; lia). done.
Qed.

Lemma signal_forwarded_witness :
  relay_signal (-1) 40 (signalHandler (-1) LINUX_SIGINT ++ []) = (Killed (-40) SIGTERM, []).
Proof. apply (signal_forwarded (-1) (-1) 40 LINUX_SIGINT []). by vm_compute. Defined.

(** The daemon's table agrees with the one of the system call layer but for
    two signals, which it knows as what they are on Linux. *)
Lemma duct_signals_agree signo : 0 <= signo < 32 -> signo ≠ LINUX_SIGSTOP -> signo ≠ LINUX_SIGSTKFLT ->
  duct_signum_linux_to_bsd signo = signum_linux_to_bsd signo.
Proof.
  intros Hs Ha Hb.
  assert (forallb (λ n, let z := Z.of_nat n in (z =? LINUX_SIGSTOP) || (z =? LINUX_SIGSTKFLT) || (duct_signum_linux_to_bsd z =? signum_linux_to_bsd z))
    (seq 0 32) = true) as Hall by by vm_compute.
  rewrite forallb_forall in Hall. specialize (Hall (Z.to_nat signo)). rewrite Z2Nat.id in Hall by lia.
  specialize (Hall ltac:(apply in_seq; lia)). cbv zeta in Hall. apply orb_true_iff in Hall as [Hall|Hall%Z.eqb_eq]; [|done].
  apply orb_true_iff in Hall as [->%Z.eqb_eq| ->%Z.eqb_eq]; done.
Qed.

(** *** Terminal input *)

(** Input that fills the buffer exactly is followed by a read that would
    block: the launcher exits. *)
Lemma full_buffer_exits data : Z.of_nat (length data) = BUF_SIZE -> stdin_loop [Some data; None] = (data, true).
Proof.
  intros Hl. destruct data as [|c data]; [done|]. cbn [stdin_loop]. rewrite Hl, Z.eqb_refl. by rewrite app_nil_r.
Qed.

(** The other two descriptors of the shell stay open. *)
Lemma shell_fds_leak : close_shell_fds [7; 8; 9] = [7; 7; 7].
Proof. done. Qed.

(** *** Paths *)

(** The address of the socket is stored within
    [sun_path] exactly for the prefixes of at most 83 bytes; the test of the
    prefix lets 255 pass. *)
Theorem socket_path_bounds prefix :
  (sun_path prefix = Some (prefix ++ SHELLSPAWN_SOCKPATH) <-> strlen prefix <= 83) ∧
  (sun_path prefix = None <-> 83 < strlen prefix).
Proof.
  unfold sun_path, append. change (strlen SHELLSPAWN_SOCKPATH) with 24. rewrite len_nil.
  destruct (Z.leb_spec (0 + strlen prefix + 1) 108); simpl; [|split; split; [done|lia|lia|done]].
  destruct (Z.leb_spec (strlen prefix + 24 + 1) 108); split; split; try done; lia.
Qed.

Lemma append_all ds path : Forall (λ d, strlen path + strlen (s2c d) + 1 <= 4096) ds ->
  mapM (λ d, append 4096 path (s2c d)) ds = Some ((λ d, path ++ s2c d) <$> ds).
Proof. intros Hds. induction Hds as [|d ds Hd Hds IH]; [done|]. simpl. rewrite append_room by done. simpl. by rewrite IH. Qed.

Lemma append_twice size a b : strlen a + strlen b + 1 <= size -> (dst ← append size [] a; append size dst b) = Some (a ++ b).
Proof. intros Hs. pose proof (strlen_nonneg b). rewrite append_room by (rewrite len_nil; lia). simpl. by apply append_room. Qed.

Lemma overlay_len libexec prefix : strlen (overlay_text libexec prefix) = strlen libexec + 2 * strlen prefix + 46.
Proof.
  unfold overlay_text. rewrite !strlen_app. change (strlen (s2c "lowerdir=")) with 9. change (strlen (s2c ",upperdir=")) with 10.
  change (strlen (s2c ",workdir=")) with 9. change (strlen (s2c ".workdir,index=off")) with 18. lia.
Qed.

(** A prefix the launcher accepts fits with
    everything that is appended to it into the other arrays and blocks, and
    the paths are what the code means them to be. *)
Theorem prefix_paths_fit prefix libexec :
  prefix_accepted prefix = true ->
  pid_path prefix = Some (prefix ++ s2c "/.init.pid") ∧
  overlay_opts libexec prefix = Some (overlay_text libexec prefix) ∧
  setupPrefix prefix = Some (prefix :: ((λ d, prefix ++ s2c "/" ++ s2c d) <$> prefix_dirs)) ∧
  darlingPreInit prefix = Some [prefix ++ s2c "/var/tmp"; prefix ++ s2c "/var/run"].
Proof.
  unfold prefix_accepted. rewrite Z.leb_le. intros Hp. pose proof (strlen_nonneg prefix). split_and!.
  - apply append_twice. change (strlen (s2c "/.init.pid")) with 10. lia.
  - unfold overlay_opts. rewrite append_room; [done|]. rewrite overlay_len, len_nil. lia.
  - unfold setupPrefix. rewrite append_room by (rewrite len_nil; lia). cbn [mbind option_bind app].
    rewrite append_room by (change (strlen (s2c "/")) with 1; lia). cbn [mbind option_bind]. rewrite append_all.
    + simpl. by rewrite <- !app_assoc.
    + repeat constructor; rewrite strlen_app; change (strlen (s2c "/")) with 1; vm_compute (strlen (s2c _)); lia.
  - unfold darlingPreInit. rewrite append_room by (rewrite len_nil; lia). cbn [mbind option_bind app]. rewrite append_all; [done|].
    repeat constructor; vm_compute (strlen (s2c _)); lia.
Qed.

Lemma prefix_paths_fit_witness :
  overlay_opts (s2c "/usr/libexec/darling") (s2c "/home/me/.darling") = Some (overlay_text (s2c "/usr/libexec/darling") (s2c "/home/me/.darling")).
Proof. apply (prefix_paths_fit (s2c "/home/me/.darling") (s2c "/usr/libexec/darling")). by vm_compute. Defined.

(** With a slash at the end of the prefix, the directory that is created is
    not the directory the mount is given. *)
Lemma workdir_mismatch :
  workdir_path (s2c "/home/me/p/") = Some (s2c "/home/me/p.workdir") ∧
  overlay_opts (s2c "/l") (s2c "/home/me/p/") = Some (s2c "lowerdir=/l,upperdir=/home/me/p/,workdir=/home/me/p/.workdir,index=off").
Proof. done. Qed.

(** A directory without an answer gets the answer of the one before it. *)
Lemma xdg_stale_directory :
  xdg_loop (s2c "/p") (s2c "me") [] (combine (take 2 xdgmap) [Some (s2c "/home/me/Desktop"); None]) =
  [Unlink (s2c "/p/Users/me/Desktop"); Symlink (s2c "/Volumes/SystemRoot/home/me/Desktop") (s2c "/p/Users/me/Desktop");
   Unlink (s2c "/p/Users/me/Downloads"); Symlink (s2c "/Volumes/SystemRoot/home/me/Desktop") (s2c "/p/Users/me/Downloads")].
Proof. done. Qed.

(** *** A running container *)

Definition TAB : ascii := "009".
Definition digits (w : cstr) : Prop := w ≠ [] ∧ Forall (λ c, isdigit c = true) w.
Definition dec_value (w : cstr) : Z := (scan_digits 0 w).1.

Lemma digit_no_space c : isdigit c = true -> is_blank c = false ∧ c ≠ "-"%char ∧ c ≠ "+"%char.
Proof.
  unfold isdigit, is_blank. rewrite andb_true_iff, !Z.leb_le. intros [? ?]. split_and!.
  - apply orb_false_iff. split; [apply Z.eqb_neq; lia|]. apply andb_false_iff. rewrite !Z.leb_gt. lia.
  - intros ->. by vm_compute in *.
  - intros ->. by vm_compute in *.
Qed.

Lemma scan_digits_app v w r : Forall (λ c, isdigit c = true) w -> (∀ c, head r = Some c -> isdigit c = false) ->
  scan_digits v (w ++ r) = ((scan_digits v w).1, r).
Proof.
  intros Hw Hr. revert v. induction Hw as [|c w Hc Hw IH]; intros v; simpl.
  - destruct r as [|c r]; [done|]. simpl. by rewrite (Hr c).
  - rewrite Hc. apply IH.
Qed.

Lemma scan_d_word sp w r : is_blank sp = true -> digits w -> (∀ c, head r = Some c -> isdigit c = false) ->
  scan_d (sp :: w ++ r) = Some (s32 (dec_value w), r).
Proof.
  intros Hsp [Hne Hw] Hr. destruct w as [|c w]; [done|]. pose proof Hw as Hw'. apply Forall_cons in Hw as [Hc _].
  destruct (digit_no_space c Hc) as (Hs & Hm & Hp). unfold scan_d. simpl skip_blanks. rewrite Hsp, Hs.
  destruct (ascii_dec c "-"); [done|]. destruct (ascii_dec c "+"); [done|]. rewrite Hc.
  change (c :: w ++ r) with ((c :: w) ++ r). by rewrite scan_digits_app.
Qed.

(** A line of /proc/<pid>/status with four identifiers, and a test of them. *)
Definition ids_line (tag a b c d : cstr) : cstr := tag ++ TAB :: a ++ TAB :: b ++ TAB :: c ++ TAB :: d ++ [LINEFEED].
Definition all_are (id : Z) (ws : list cstr) : bool := forallb (λ w, u32 (dec_value w) =? id) ws.

Lemma scan_tag_app tag r : scan_tag tag (tag ++ r) = Some r.
Proof. induction tag as [|t tag IH]; [done|]. simpl. by destruct (ascii_dec t t). Qed.

Lemma u32_s32 z : u32 (s32 z) = u32 z.
Proof. unfold s32, u32. rewrite Zminus_mod_idemp_l. f_equal. lia. Qed.

Lemma match_ids_line tag id a b c d m : Forall digits [a; b; c; d] -> match_line tag id (ids_line tag a b c d) m = all_are id [a; b; c; d].
Proof.
  intros Hall. repeat (apply Forall_cons in Hall as [? Hall]). unfold match_line, scan_ids, ids_line. rewrite scan_tag_app. simpl.
  assert (∀ r x, head (TAB :: r) = Some x -> isdigit x = false) as Ht by (intros r x [= <-]; done).
  rewrite scan_d_word; [|done|done|apply Ht]. simpl. rewrite scan_d_word; [|done|done|apply Ht]. simpl.
  rewrite scan_d_word; [|done|done|apply Ht]. simpl. rewrite scan_d_word; [|done|done|by intros x [= <-]]. simpl.
  rewrite !u32_s32. by rewrite andb_true_r, !andb_assoc.
Qed.

(** Lines that end with a line feed and hold no other one. *)
Definition line_text (line : cstr) : Prop := ∃ t, line = t ++ [LINEFEED] ∧ LINEFEED ∉ t.

Lemma lines_from_line acc t r : LINEFEED ∉ t -> lines_from acc (t ++ LINEFEED :: r) = (rev acc ++ t ++ [LINEFEED]) :: lines_from [] r.
Proof.
  revert acc. induction t as [|c t IH]; intros acc Ht; simpl; [done|]. apply not_elem_of_cons in Ht as [Hc Ht].
  destruct (ascii_dec c LINEFEED); [by subst|]. rewrite IH by done. simpl. by rewrite <- app_assoc.
Qed.

Lemma lines_of_text lines : Forall line_text lines -> lines_from [] (mjoin lines) = lines.
Proof.
  induction 1 as [|l lines (t & -> & Ht) _ IH]; [done|]. simpl. rewrite <- app_assoc. simpl app. rewrite lines_from_line by done.
  simpl. by rewrite IH.
Qed.

Lemma fold_last (f : cstr -> bool -> bool) pre line post b m :
  (∀ m, f line m = b) -> Forall (λ l, ∀ m, f l m = m) post -> foldl (λ m l, f l m) m (pre ++ line :: post) = b.
Proof.
  intros Hl Hpost. rewrite foldl_app. simpl. rewrite Hl. clear -Hpost. revert b. induction Hpost as [|l post Hl _ IH]; intros b; [done|].
  simpl. by rewrite Hl.
Qed.

(** A status file of Linux, as far as it matters: the two lines, and others
    that are neither. *)
Record status_file (pre mid post : list cstr) := StatusFile {
  sf_lines : Forall line_text (pre ++ mid ++ post);
  sf_uid : Forall (λ l, scan_ids (s2c "Uid:") l = None) (pre ++ mid ++ post);
  sf_gid : Forall (λ l, scan_ids (s2c "Gid:") l = None) (pre ++ mid ++ post) }.

Lemma digits_no_lf w : digits w -> LINEFEED ∉ w.
Proof. intros [_ Hw] Hin. rewrite Forall_forall in Hw. specialize (Hw _ Hin). by vm_compute in Hw. Qed.

Lemma ids_line_text tag a b c d : LINEFEED ∉ tag -> Forall digits [a; b; c; d] -> line_text (ids_line tag a b c d).
Proof.
  intros Ht Hall. repeat (apply Forall_cons in Hall as [?%digits_no_lf Hall]). exists (tag ++ TAB :: a ++ TAB :: b ++ TAB :: c ++ TAB :: d). split.
  - unfold ids_line. by rewrite <- !app_assoc, <- !app_comm_cons, <- !app_assoc, <- !app_comm_cons, <- !app_assoc, <- !app_comm_cons, <- !app_assoc.
  - rewrite !elem_of_app, !elem_of_cons, !elem_of_app, !elem_of_cons, !elem_of_app, !elem_of_cons, !elem_of_app, !elem_of_cons. intuition discriminate.
Qed.

Lemma status_result pre mid post u1 u2 u3 u4 g1 g2 g3 g4 uid gid :
  status_file pre mid post -> Forall digits [u1; u2; u3; u4] -> Forall digits [g1; g2; g3; g4] ->
  status_matches uid gid (mjoin (pre ++ ids_line (s2c "Uid:") u1 u2 u3 u4 :: mid ++ ids_line (s2c "Gid:") g1 g2 g3 g4 :: post)) =
  all_are uid [u1; u2; u3; u4] && all_are gid [g1; g2; g3; g4].
Proof.
  intros [Hl Hu Hg] Hd1 Hd2. unfold status_matches. rewrite lines_of_text.
  - rewrite !Forall_app in Hu, Hg. destruct Hu as (_ & Hu2 & Hu3), Hg as (_ & _ & Hg3).
    assert (∀ tag id ls, Forall (λ l, scan_ids tag l = None) ls -> Forall (λ l, ∀ m, match_line tag id l m = m) ls) as Hskip.
    { intros tag id ls Hls. eapply Forall_impl; [exact Hls|]. intros l Hl' m. unfold match_line. by rewrite Hl'. }
    f_equal.
    + apply (fold_last (match_line (s2c "Uid:") uid)); [intros m; by apply match_ids_line|]. apply Forall_app. split; [by apply Hskip|].
      apply Forall_cons. split; [done|by apply Hskip].
    + rewrite app_comm_cons, app_assoc. apply (fold_last (match_line (s2c "Gid:") gid)); [intros m; by apply match_ids_line|by apply Hskip].
  - rewrite !Forall_app in Hl. destruct Hl as (? & ? & ?). apply Forall_app. split; [done|]. apply Forall_cons.
    split; [apply ids_line_text; [no_nul|done]|]. apply Forall_app. split; [done|]. apply Forall_cons. split; [apply ids_line_text; [no_nul|done]|done].
Qed.

(** For a user other than root, the process named
    in the prefix counts as the running container if it can be signalled and
    its four user and four group identifiers are the caller's; otherwise the
    file is removed and a new container is started. *)
Theorem init_process_owned v uid gid text pid r pre mid post u1 u2 u3 u4 g1 g2 g3 g4 :
  pv_pidfile v = Some text -> scan_d text = Some (pid, r) -> pv_comm v pid ≫= scan_s = Some (s2c "launchd") ->
  status_file pre mid post -> Forall digits [u1; u2; u3; u4] -> Forall digits [g1; g2; g3; g4] ->
  pv_status v pid = Some (mjoin (pre ++ ids_line (s2c "Uid:") u1 u2 u3 u4 :: mid ++ ids_line (s2c "Gid:") g1 g2 g3 g4 :: post)) ->
  uid ≠ 0 ->
  getInitProcess v uid gid =
    if pv_alive v pid && all_are uid [u1; u2; u3; u4] && all_are gid [g1; g2; g3; g4] then (pid, false) else (0, true).
Proof.
  intros Hf Hs Hc Hst Hu Hg Hstat Hroot. unfold getInitProcess. rewrite Hf, Hs. destruct (pv_alive v pid); [|done]. simpl negb. cbv iota.
  rewrite Hc. change (negb (streq (s2c "launchd") (s2c "launchd"))) with false. cbv iota. rewrite (proj2 (Z.eqb_neq _ _)) by done.
  rewrite Hstat, status_result by done. done.
Qed.

Definition example_view : proc_view :=
  ProcView (Some (s2c "41")) (λ _, true) (λ _, Some (s2c "launchd" ++ [LINEFEED]))
    (λ _, Some (mjoin ((s2c "Name: launchd" ++ [LINEFEED]) :: nil ++ ids_line (s2c "Uid:") (s2c "1000") (s2c "1000") (s2c "0") (s2c "1000") ::
      nil ++ ids_line (s2c "Gid:") (s2c "100") (s2c "100") (s2c "100") (s2c "100") :: nil))).

Lemma init_process_owned_witness : getInitProcess example_view 1000 100 = (0, true).
Proof.
  rewrite (init_process_owned example_view 1000 100 (s2c "41") 41 [] [s2c "Name: launchd" ++ [LINEFEED]] [] []
    (s2c "1000") (s2c "1000") (s2c "0") (s2c "1000") (s2c "100") (s2c "100") (s2c "100") (s2c "100")).
  - reflexivity.
  - reflexivity.
  - reflexivity.
  - reflexivity.
  - split; repeat constructor. exists (s2c "Name: launchd"). split; [done|no_nul].
  - repeat (constructor; [split; [done|repeat constructor]|]). constructor.
  - repeat (constructor; [split; [done|repeat constructor]|]). constructor.
  - reflexivity.
  - done.
Defined.
