(* ===== verification/Host.v ===== *)
(** * Programs outside of the emulation

    The launcher is a Linux program, the shell daemon and the selection of
    developer tools are Darwin programs; all use their C library.  A program is a tree of requests to its system
    ([hostE]), as system calls are for the emulated calls in [Linux], that can
    also end: by [exit], by being replaced ([execl], [execv]) or by [abort].
    Messages to the user are left out.

    [safe] is the statement of a property of every execution: what is required
    of a request, what is known about the answers, and the state that the two
    depend on are given by a [discipline]. *)
From S2P Require Import Prelude Abi Linux Simple Launcher.

(** Answers are return values, with [errno] where the program looks at it. *)
Inductive hostE : Set -> Type :=
(* identifiers *)
| Geteuid : hostE Z
| Getuid : hostE Z
| Getgid : hostE Z
| Setuid (u : Z) : hostE Z
| Setgid (g : Z) : hostE Z
| Seteuid (u : Z) : hostE Z
| Setegid (g : Z) : hostE Z
| Setresuid (r e s : Z) : hostE Z
| Setresgid (r e s : Z) : hostE Z
(* files: [Stat] gives the error or the mode and the owner, [Opendir] the names
   and types that readdir will give *)
| Stat (path : cstr) : hostE (Z + Z * Z)
| Fs (c : fs_call) : hostE (Z * Z)
| Rmdir (path : cstr) : hostE Z
| Chown (path : cstr) (uid gid : Z) : hostE Z
| Chmod (path : cstr) (mode : Z) : hostE Z
| Access (path : cstr) : hostE Z
| Realpath (path : cstr) : hostE (option cstr)
| Opendir (path : cstr) : hostE (option (list (cstr * Z)))
| Fopen_w (path : cstr) : hostE bool
| Fputs (path text : cstr) : hostE unit
(* descriptors: [Poll] gives the return value, errno and the events *)
| Open (path : cstr) (flags : Z) : hostE Z
| Close (fd : Z) : hostE Z
| Dup (fd : Z) : hostE Z
| Dup2 (fd fd2 : Z) : hostE Z
| Pipe : hostE (option (Z * Z))
| Read (fd n : Z) : hostE (option (list ascii))
| Write (fd : Z) (bytes : list ascii) : hostE Z
| Fcntl (fd cmd arg : Z) : hostE Z
| Poll (fds : list Z) : hostE (Z * Z * list Z)
(* sockets *)
| Socket : hostE Z
| Connect (fd : Z) (path : cstr) : hostE Z
| Bind (fd : Z) (path : cstr) : hostE Z
| Listen (fd backlog : Z) : hostE Z
| Accept (fd : Z) : hostE Z
| Send (fd : Z) (s : stream) : hostE Z
(* processes: [Exec] returns only an error; [Popen] gives the first line of
   the output and the status, [Waitpid] the return value and the status *)
| Fork : hostE Z
| Kill (pid sig : Z) : hostE Z
| Waitpid (pid options : Z) : hostE (Z * option Z)
| Exec (path : cstr) (args env : list cstr) : hostE (option Z)
| Popen (cmd : cstr) : hostE (option (option cstr * Z))
| Unshare (flags : Z) : hostE Z
| Setns (fd type : Z) : hostE Z
| Mount (source : option cstr) (target : cstr) (type : option cstr) (flags : Z) (data : option cstr) : hostE Z
| Umount (path : cstr) : hostE Z
| Prctl (option arg : Z) : hostE Z
| Sigaction (signo : Z) : hostE Z
| Setsid : hostE Z
| Setpgrp : hostE Z
| Sleep (seconds : Z) : hostE Z
(* terminals *)
| Isatty (fd : Z) : hostE bool
| Tcgetattr (fd : Z) : hostE (option linux_termios)
| Tcsetattr (fd : Z) (t : linux_termios) : hostE Z
| Getwinsize (fd : Z) : hostE Z
| Setwinsize (fd win : Z) : hostE Z
| Posix_openpt (flags : Z) : hostE Z
| Grantpt (fd : Z) : hostE Z
| Unlockpt (fd : Z) : hostE Z
| Ptsname (fd : Z) : hostE (option cstr)
| Setctty (fd : Z) : hostE Z
| Tcgetpgrp (fd : Z) : hostE Z
(* [atexit] with a function that sets the attributes of standard input *)
| Atexit_restore (t : linux_termios) : hostE Z
(* kqueue: the events to watch, then one event (filter, fflags) or an errno *)
| Kqueue : hostE Z
| Kevent_add (kq fd pid : Z) : hostE Z
| Kevent_wait (kq : Z) : hostE (Z + Z * Z)
(* for the developer tools: [Getcwd] and [Readlink] give the text that is
   stored, [Dlsym] tells whether there is the symbol, [Execv],
   [Execvp] and [Call_xcrun_main] whether control does not come back; the last two are calls
   of functions of the library that was opened *)
| Getcwd (size : Z) : hostE (option cstr)
| Readlink (path : cstr) (size : Z) : hostE (option cstr)
| Umask (mask : Z) : hostE Z
| Access_x (path : cstr) : hostE Z
| Execvp (file : cstr) (args : list cstr) : hostE bool
| Execv (path : cstr) (args : list cstr) : hostE bool
| System (cmd : cstr) : hostE Z
| Puts (line : cstr) : hostE unit
| Dlopen (path : cstr) : hostE (option Z)
| Dlsym (lib : Z) (name : cstr) : hostE bool
| Dlclose (lib : Z) : hostE Z
| Call_xcrun_main (lib : Z) (tool : option cstr) (argv : list cstr) (dev_dir : cstr) : hostE bool
| Call_iter_manpaths (lib : Z) (devpath : cstr) (sdkname : option cstr) : hostE (list cstr).

Inductive io (A : Type) : Type :=
| Fin (a : A)
| Ask {X : Set} (e : hostE X) (k : X -> io A)
| Exit (status : Z)
| Replaced
| Aborted
| Crash
| Spent.
Arguments Fin {A} a.
Arguments Ask {A X} e k.
Arguments Exit {A} status.
Arguments Replaced {A}.
Arguments Aborted {A}.
Arguments Crash {A}.
Arguments Spent {A}.

#[export] Instance io_ret : MRet io := λ A, Fin.
#[export] Instance io_bind : MBind io := λ A B f, fix go m :=
  match m with
  | Fin a => f a
  | Ask e k => Ask e (λ x, go (k x))
  | Exit st => Exit st
  | Replaced => Replaced
  | Aborted => Aborted
  | Crash => Crash
  | Spent => Spent
  end.

Definition ask {X : Set} (e : hostE X) : io X := Ask e Fin.
Definition known {A} (o : option A) : io A := match o with Some a => Fin a | None => Crash end.

(** [if (call != 0) exit(1)] *)
Definition must (m : io Z) : io unit := r ← m; if r =? 0 then mret tt else Exit 1.

Fixpoint for_each {A} (f : A -> io unit) (l : list A) : io unit :=
  match l with [] => mret tt | a :: l => f a;; for_each f l end.

(** ** Properties of executions *)

Record discipline (S : Type) := Discipline {
  may_ask : S -> ∀ X : Set, hostE X -> Prop;
  answers : S -> ∀ X : Set, hostE X -> X -> S -> Prop;
  may_exit : S -> Z -> Prop;
  may_run_out : Prop }.
Arguments Discipline {S} _ _ _ _.
Arguments may_ask {S} _ _ {X} _.
Arguments answers {S} _ _ {X} _ _ _.
Arguments may_exit {S} _ _ _.
Arguments may_run_out {S} _.

(** No execution has undefined behaviour; fuel runs out only where that is
    allowed. *)
Fixpoint safe {S A} (D : discipline S) (m : io A) (s : S) (Q : A -> S -> Prop) : Prop :=
  match m with
  | Fin a => Q a s
  | Ask e k => may_ask D s e ∧ ∀ x s', answers D s e x s' -> safe D (k x) s' Q
  | Exit st => may_exit D s st
  | Replaced | Aborted => True
  | Spent => may_run_out D
  | Crash => False
  end.

Section Safe.
Context {S : Type} (D : discipline S).

Lemma safe_ret {A} (a : A) s (Q : A -> S -> Prop) : Q a s -> safe D (mret a) s Q.
Proof. done. Qed.

Lemma safe_bind {A B} (m : io A) (f : A -> io B) s (Q : B -> S -> Prop) :
  safe D m s (λ a s, safe D (f a) s Q) -> safe D (m ≫= f) s Q.
Proof.
  revert s. unfold mbind. induction m as [a|X e k IH|st| | | |]; intros s; simpl; try done.
  intros [Hm Hk]. split; [done|]. intros x s' Hx. by apply IH, Hk.
Qed.

Lemma safe_mono {A} (m : io A) s (Q Q' : A -> S -> Prop) : safe D m s Q -> (∀ a s, Q a s -> Q' a s) -> safe D m s Q'.
Proof.
  intros Hm HQ. revert s Hm. induction m as [a|X e k IH|st| | | |]; intros s; simpl; try done; [by apply HQ|].
  intros [Hm Hk]. split; [done|]. intros x s' Hx. by apply IH, Hk.
Qed.

Lemma safe_ask {X : Set} (e : hostE X) s (Q : X -> S -> Prop) :
  may_ask D s e -> (∀ x s', answers D s e x s' -> Q x s') -> safe D (ask e) s Q.
Proof. done. Qed.

Lemma safe_known {A} (o : option A) a s (Q : A -> S -> Prop) : o = Some a -> Q a s -> safe D (known o) s Q.
Proof. by intros ->. Qed.

Lemma safe_must m s (Q : unit -> S -> Prop) : safe D m s (λ r s, if r =? 0 then Q tt s else may_exit D s 1) -> safe D (must m) s Q.
Proof. intros H. unfold must. apply safe_bind. eapply safe_mono; [exact H|]. intros r s'. cbv beta. destruct (r =? 0); exact (λ H, H). Qed.

Lemma safe_for_each {A} (f : A -> io unit) l (P : S -> Prop) s (Q : unit -> S -> Prop) :
  P s -> (∀ a s, a ∈ l -> P s -> safe D (f a) s (λ _, P)) -> (∀ s, P s -> Q tt s) -> safe D (for_each f l) s Q.
Proof.
  revert s. induction l as [|a l IH]; intros s HP Hf HQ; cbn [for_each]; [by apply safe_ret, HQ|].
  apply safe_bind. eapply safe_mono; [apply Hf; [left|done]|]. intros [] s' HP'. apply IH; [done| |done].
  intros b s'' Hb. apply Hf. by right.
Qed.
End Safe.

(** An execution on a system with state [K]: how it ends and what it leaves. *)
Inductive ending (A : Type) : Type := Returned (a : A) | Exited (status : Z) | Other.
Arguments Returned {A} a.
Arguments Exited {A} status.
Arguments Other {A}.

Fixpoint execute {K A} (host : ∀ X : Set, hostE X -> K -> X * K) (m : io A) (k : K) : ending A * K :=
  match m with
  | Fin a => (Returned a, k)
  | Ask e next => let '(x, k) := host _ e k in execute host (next x) k
  | Exit st => (Exited st, k)
  | _ => (Other, k)
  end.

Lemma execute_bind {K A B} (host : ∀ X : Set, hostE X -> K -> X * K) (m : io A) (f : A -> io B) k :
  execute host (m ≫= f) k =
  match execute host m k with
  | (Returned a, k) => execute host (f a) k
  | (Exited st, k) => (Exited st, k)
  | (Other, k) => (Other, k)
  end.
Proof.
  revert k. unfold mbind. induction m as [a|X e next IH|st| | | |]; intros k; simpl; try done. destruct (host X e k) as [x k']. apply IH.
Qed.
