(* ===== verification/Startup.v ===== *)
(** * The launcher

    startup/darling.c: [main] becomes root, makes or checks the prefix, finds
    or starts the container (a child in namespaces of its own, with the
    overlay mounted on the prefix, that gives up its rights and becomes
    launchd), joins its mount namespace and asks the daemon in it for a shell,
    whose terminal it serves until the shell ends.  What is only text (quoting,
    messages, paths, the search for a running container) is in [Launcher]. *)
From S2P Require Import Prelude Abi Linux Errno Base Simple Vchroot Procfs Launcher Host.

(** What [main] finds: the environment, the files that are only read, the user
    data base, what [getopt_long] gives, the distance from [argv[0]] to
    [envp[0]] and the contents of an uninitialised structure. *)
Inductive getopt_result : Set := OptEnd | OptHelp | OptVersion | OptUnknown | OptOther.

Record world := World {
  w_dprefix : option cstr; w_home : option cstr; w_cwd : cstr; w_modules : option cstr; w_libexec : cstr;
  w_pw : Z -> option cstr; w_getlogin : option cstr; w_proc : proc_view; w_options : list getopt_result;
  w_argv_area : Z; w_termios : linux_termios }.

(** Constants of Linux. *)
Definition CLONE_NEWNS : Z := 0x20000.
Definition CLONE_NEWUTS : Z := 0x4000000.
Definition CLONE_NEWIPC : Z := 0x8000000.
Definition CLONE_NEWPID : Z := 0x20000000.
Definition MS_NOSUID : Z := 2.
Definition MS_NODEV : Z := 4.
Definition MS_NOEXEC : Z := 8.
Definition MS_REC : Z := 16384.
Definition MS_SLAVE : Z := 2 ^ 19.
Definition PR_SET_DUMPABLE : Z := 4.
Definition PR_SET_NAME : Z := 15.
Definition POLLIN : Z := 1.
Definition POLLHUP : Z := 16.
Definition ISDIR (mode : Z) : bool := Z.land mode LINUX_S_IFMT =? 0x4000.
Definition STDIN_FILENO : Z := 0.
Definition STDOUT_FILENO : Z := 1.
Definition STDERR_FILENO : Z := 2.

Definition DARLING_INIT_COMM : cstr := s2c "darling-init".

(** [%d] *)
Definition pid_text (pid : Z) : cstr := if pid <? 0 then "-"%char :: s2c (pretty (Z.to_N (- pid))) else s2c (pretty (Z.to_N pid)).

Section Launcher.
Context `{LoopFuel}.
Context (w : world) (prefix : cstr) (uid gid : Z).

(** ** The prefix *)

Definition createDir (path : cstr) : io unit :=
  st ← ask (Stat path);
  match st with
  | inr (mode, _) => if ISDIR mode then mret tt else Exit 1
  | inl errno =>
    if errno =? LINUX_ENOENT then '(r, _) ← ask (Fs (Mkdir path 493)); if r =? 0 then mret tt else Exit 1 else Exit 1
  end.

Definition checkPrefixDir : io bool :=
  st ← ask (Stat prefix);
  match st with
  | inr (mode, _) => if ISDIR mode then mret true else Exit 1
  | inl errno => if errno =? LINUX_ENOENT then mret false else Exit 1
  end.

Definition setupPrefix_run : io unit :=
  ask (Seteuid uid);;
  ask (Setegid gid);;
  dirs ← known (setupPrefix prefix);
  for_each createDir dirs;;
  ask (Seteuid 0);;
  ask (Setegid 0);; mret tt.

Definition checkPrefixOwner : io unit :=
  st ← ask (Stat prefix);
  match st with
  | inr (_, st_uid) => if negb (uid =? 0) && negb (st_uid =? uid) then Exit 1 else mret tt
  | inl errno => if errno =? LINUX_EACCES then Exit 1 else mret tt
  end.

Definition setupWorkdir : io unit := path ← known (workdir_path prefix); createDir path.

(** [WIFEXITED(status) && WEXITSTATUS(status) == 0] *)
Definition WIFEXITED (status : Z) : bool := Z.land status 0x7f =? 0.
Definition WEXITSTATUS (status : Z) : Z := Z.shiftr (Z.land status 0xff00) 8.

Definition MODPROBE : cstr := s2c "/sbin/modprobe darling-mach".

Definition loadKernelModule : io unit :=
  fp ← ask (Popen MODPROBE);
  match fp with
  | None => Exit 1
  | Some (_, status) => if WIFEXITED status && (WEXITSTATUS status =? 0) then mret tt else Exit 1
  end.

(** ** Directory trees *)

Definition dot_or_dotdot (name : cstr) : bool := streq name (s2c ".") || streq name (s2c "..").

Fixpoint fixDirectoryPermissions (fuel : nat) (path : cstr) : io unit :=
  match fuel with
  | O => Spent
  | S fuel =>
    dir ← ask (Opendir path);
    match dir with
    | None => mret tt
    | Some ents =>
      for_each (λ ent,
        if ent.2 =? DT_DIR then
          if dot_or_dotdot ent.1 then mret tt
          else
            let subdir := path ++ s2c "/" ++ ent.1 in
            fixDirectoryPermissions fuel subdir;;
            ask (Chown subdir uid gid);; mret tt
        else mret tt) ents
    end
  end.

Fixpoint wipeDir (fuel : nat) (dirpath : cstr) : io unit :=
  match fuel with
  | O => Spent
  | S fuel =>
    dir ← ask (Opendir dirpath);
    match dir with
    | None => mret tt
    | Some ents =>
      for_each (λ ent,
        if dot_or_dotdot ent.1 then mret tt
        else
          let path := snprintf_text 4096 (dirpath ++ s2c "/" ++ ent.1) in
          if ent.2 =? DT_DIR then wipeDir fuel path;; ask (Rmdir path);; mret tt
          else ask (Fs (Unlink path));; mret tt) ents
    end
  end.

Definition darlingPreInit_run : io unit := dirs ← known (darlingPreInit prefix); for_each (wipeDir loop_fuel) dirs.

(** ** The user's directories *)

Definition user_name (id : Z) : option cstr := match w_pw w id with Some n => Some n | None => w_getlogin w end.

Fixpoint xdg_dirs (login dir : cstr) (entries : list (string * string)) : io unit :=
  match entries with
  | [] => mret tt
  | (xdg, name) :: entries =>
    proc ← ask (Popen (s2c "xdg-user-dir " ++ s2c xdg));
    match proc with
    | None => xdg_dirs login dir entries
    | Some (output, _) =>
      let '(found, dir) := xdgDirectory dir output in
      match found with
      | None => xdg_dirs login dir entries
      | Some d =>
        let path := user_dir prefix login (s2c name) in
        ask (Fs (Unlink path));;
        ask (Fs (Symlink (snprintf_text 4096 (SYSTEM_ROOT ++ d)) path));;
        xdg_dirs login dir entries
      end
    end
  end.

Definition setupUserHome_run : io unit :=
  let users := snprintf_text 4096 (prefix ++ s2c "/Users") in
  ask (Fs (Unlink users));;
  ask (Fs (Mkdir users 511));;
  shared ← known (append 4096 users (s2c "/Shared"));
  ask (Fs (Mkdir shared 511));;
  id ← ask Getuid;
  match user_name id, w_home w with
  | Some login, Some home =>
    let own := snprintf_text 4096 (prefix ++ s2c "/Users/" ++ login) in
    ask (Fs (Mkdir own 493));;
    link ← known (append 4096 own (s2c "/LinuxHome"));
    ask (Fs (Unlink link));;
    ask (Fs (Symlink (snprintf_text 4096 (SYSTEM_ROOT ++ home)) link));;
    xdg_dirs login [] xdgmap
  | _, _ => Exit 1
  end.

Definition CORE_PATTERN : cstr := s2c "/proc/sys/kernel/core_pattern".

Definition setupCoredumpPattern : io unit :=
  f ← ask (Fopen_w CORE_PATTERN);
  if (f : bool) then ask (Fputs CORE_PATTERN (s2c "/cores/core.%p" ++ [LINEFEED]));; mret tt else mret tt.

(** ** The container *)

Definition spawnLaunchd {A} : io A :=
  ask (Exec (w_libexec w ++ s2c "/usr/libexec/darling/vchroot") [s2c "vchroot"; prefix; s2c "/sbin/launchd"]
         [s2c "DYLD_ROOT_PATH=" ++ w_libexec w]) ≫= λ r,
  match r with None => Replaced | Some _ => Aborted end.

(** The child of [spawnInitProcess]; it does not return. *)
Definition init_child (fix_permissions : bool) (pipefd : Z * Z) : io Z :=
  ask (Close pipefd.1);;
  must (ask (Unshare CLONE_NEWNS));;
  must (ask (Mount None (s2c "/") None (Z.lor MS_REC MS_SLAVE) None));;
  ask (Umount (s2c "/dev/shm"));;
  must (ask (Mount (Some (s2c "tmpfs")) (s2c "/dev/shm") (Some (s2c "tmpfs")) (Z.lor (Z.lor MS_NOSUID MS_NOEXEC) MS_NODEV) None));;
  opts ← known (overlay_opts (w_libexec w) prefix);
  must (ask (Mount (Some (s2c "overlay")) prefix (Some (s2c "overlay")) 0 (Some opts)));;
  (if fix_permissions then fixDirectoryPermissions loop_fuel prefix else mret tt);;
  let putOld := snprintf_text 4096 (prefix ++ s2c "/proc") in
  must (ask (Mount (Some (s2c "proc")) putOld (Some (s2c "proc")) 0 (Some [])));;
  ask (Setresgid gid gid gid);;
  ask (Setresuid uid uid uid);;
  ask (Prctl PR_SET_DUMPABLE 1);;
  setupUserHome_run;;
  setupCoredumpPattern;;
  ask (Prctl PR_SET_NAME 0);;
  (if strlen DARLING_INIT_COMM <=? w_argv_area w then mret tt else Crash);;
  ask (Write pipefd.2 [NUL]);;
  ask (Close pipefd.2);;
  darlingPreInit_run;;
  spawnLaunchd.

Definition spawnInitProcess (fix_permissions : bool) : io Z :=
  pipefd ← ask Pipe;
  match pipefd with
  | None => Exit 1
  | Some pipefd =>
    must (ask (Unshare (Z.lor (Z.lor CLONE_NEWPID CLONE_NEWUTS) CLONE_NEWIPC)));;
    pid ← ask Fork;
    if pid <? 0 then Exit 1
    else if pid =? 0 then init_child fix_permissions pipefd
    else
      ask (Close pipefd.2);;
      ask (Read pipefd.1 1);;
      ask (Close pipefd.1);;
      mret pid
  end.

Definition putInitPid (pidInit : Z) : io unit :=
  pidPath ← known (pid_path prefix);
  ask (Seteuid uid);;
  ask (Setegid gid);;
  fp ← ask (Fopen_w pidPath);
  ask (Seteuid 0);;
  ask (Setegid 0);;
  if (fp : bool) then ask (Fputs pidPath (pid_text pidInit));; mret tt else mret tt.

Definition joinNamespace (pid type : Z) (typeName : cstr) : io unit :=
  fdNS ← ask (Open (snprintf_text 4096 (s2c "/proc/" ++ pid_text pid ++ s2c "/ns/" ++ typeName)) LINUX_O_RDONLY);
  if fdNS <? 0 then Exit 1
  else
    must (ask (Setns fdNS type));;
    ask (Close fdNS);; mret tt.

(** ** The terminal *)

Definition raw_termios (t : linux_termios) : linux_termios :=
  LinuxTermios
    (Z.ldiff (lt_iflag t) (foldr Z.lor 0 [LINUX_BRKINT; LINUX_ICRNL; LINUX_IGNBRK; LINUX_IGNCR; LINUX_INLCR; LINUX_INPCK; LINUX_ISTRIP; LINUX_IXON; LINUX_PARMRK]))
    (Z.ldiff (lt_oflag t) LINUX_OPOST) (lt_cflag t)
    (Z.ldiff (lt_lflag t) (foldr Z.lor 0 [LINUX_ICANON; LINUX_ISIG; LINUX_IEXTEN; LINUX_ECHO]))
    (lt_line t) (zset (zset (lt_cc t) LINUX_VMIN 1) LINUX_VTIME 0) (lt_ispeed t) (lt_ospeed t).

(** [None]: -1. *)
Definition openpty_darling (tos : linux_termios) : io (option (Z * Z)) :=
  amaster ← ask (Posix_openpt LINUX_O_RDWR);
  if amaster =? -1 then mret None
  else
    ask (Grantpt amaster);;
    r ← ask (Unlockpt amaster);
    if r <? 0 then mret None
    else
      slave_name ← ask (Ptsname amaster);
      match slave_name with
      | None => mret None
      | Some slave_name =>
        aslave ← ask (Open slave_name (Z.lor LINUX_O_RDWR LINUX_O_NOCTTY));
        if aslave =? -1 then mret None
        else ask (Tcsetattr amaster tos);; mret (Some (amaster, aslave))
      end.

(** The descriptors and the master side. *)
Definition setupPtys : io (list Z * Z) :=
  attrs ← ask (Tcgetattr STDIN_FILENO);
  let termios := default (w_termios w) attrs in
  pty ← openpty_darling termios;
  match pty with
  | None => Exit 1
  | Some (master, slave) =>
    match attrs with
    | None => mret tt
    | Some _ =>
      win ← ask (Getwinsize STDIN_FILENO);
      r ← ask (Tcsetattr STDIN_FILENO (raw_termios termios));
      if r <? 0 then Exit 1
      else
        ask (Setwinsize master win);;
        ask (Atexit_restore termios);; mret tt
    end;;
    mret ([slave; slave; slave], master)
  end.

(** The two loops that copy. *)
Fixpoint copy_master (fuel : nat) (master : Z) : io unit :=
  match fuel with
  | O => Spent
  | S fuel =>
    rd ← ask (Read master BUF_SIZE);
    let data := default [] rd in
    (if 0 <? Z.of_nat (length data) then ask (Write STDOUT_FILENO data);; mret tt else mret tt);;
    if Z.of_nat (length data) =? BUF_SIZE then copy_master fuel master else mret tt
  end.

Fixpoint copy_stdin (fuel : nat) (master : Z) : io unit :=
  match fuel with
  | O => Spent
  | S fuel =>
    rd ← ask (Read STDIN_FILENO BUF_SIZE);
    let data := default [] rd in
    (if 0 <? Z.of_nat (length data) then ask (Write master data);; mret tt else Exit 1);;
    if Z.of_nat (length data) =? BUF_SIZE then copy_stdin fuel master else mret tt
  end.

(** The loop leaves with [break] when poll fails. *)
Fixpoint shell_loop (fuel : nat) (sockfd master : Z) : io unit :=
  match fuel with
  | O => Spent
  | S fuel =>
    '(r, errno, revents) ← ask (Poll (if master =? -1 then [sockfd] else [sockfd; STDIN_FILENO; master]));
    if (r <? 0) && negb (errno =? LINUX_EINTR) then mret tt
    else
      (if negb (master =? -1) && has (zget revents 2) POLLIN then copy_master loop_fuel master else mret tt);;
      (if negb (master =? -1) && has (zget revents 1) POLLIN then copy_stdin loop_fuel master else mret tt);;
      if has (zget revents 0) (Z.lor POLLHUP POLLIN) then
        status ← ask (Read sockfd 4);
        match status with
        | Some bytes => if (length bytes =? 4)%nat then Exit (s32 (bytes_value bytes)) else Exit 1
        | None => Exit 1
        end
      else shell_loop fuel sockfd master
  end.

Definition shellLoop (sockfd master : Z) : io unit :=
  for_each (λ i, ask (Sigaction i);; mret tt) (Z.of_nat <$> seq 1 31);;
  (if master =? -1 then mret tt else ask (Fcntl master LINUX_F_SETFL LINUX_O_NONBLOCK);; mret tt);;
  ask (Fcntl STDIN_FILENO LINUX_F_SETFL LINUX_O_NONBLOCK);;
  ask (Fcntl sockfd LINUX_F_SETFL LINUX_O_NONBLOCK);;
  shell_loop loop_fuel sockfd master.

(** ** Asking for a shell *)

(** A message that cannot be written completely ends the program. *)
Definition push (sockfd : Z) (s : stream) : io unit :=
  r ← ask (Send sockfd s); if r =? Z.of_nat (length s) then mret tt else Exit 1.
Definition push_fds (sockfd : Z) (fds : list Z) : io unit :=
  r ← ask (Send sockfd (pushShellspawnCommandFDs SHELLSPAWN_GO fds)); if r <? 0 then Exit 1 else mret tt.

(** The handler of every signal, which can run at any time of the loop. *)
Definition signalHandler_run (sockfd pty_master signo : Z) : io unit :=
  (if (signo =? LINUX_SIGWINCH) && negb (pty_master =? -1) then
     win ← ask (Getwinsize STDIN_FILENO);
     ask (Setwinsize pty_master win);; mret tt
   else mret tt);;
  push sockfd (signalHandler pty_master signo).

(** The descriptors the shell gets, and the master side or -1. *)
Definition shell_fds : io (list Z * Z) :=
  tty ← ask (Isatty STDIN_FILENO);
  '(fds, master) ← (if (tty : bool) then setupPtys else fd ← ask (Dup STDIN_FILENO); mret ([fd; STDOUT_FILENO; STDERR_FILENO], -1));
  out_tty ← (if master =? -1 then mret false else ask (Isatty STDOUT_FILENO));
  err_tty ← (if master =? -1 then mret false else ask (Isatty STDERR_FILENO));
  let fds := if (out_tty : bool) then fds else <[1%nat := STDOUT_FILENO]> fds in
  let fds := if (err_tty : bool) then fds else <[2%nat := STDERR_FILENO]> fds in
  mret (fds, master).

Definition spawnShell (argv : option (list cstr)) : io unit :=
  buffer ← known (match argv with None => Some None | Some argv => Some <$> command_buffer argv end);
  path ← known (sun_path prefix);
  sockfd ← ask Socket;
  if sockfd =? -1 then Exit 1
  else
    r ← ask (Connect sockfd path);
    if r =? -1 then Exit 1
    else
      push sockfd (pushShellspawnCommand SHELLSPAWN_SETENV (Some (s2c "PATH=/usr/bin:/bin:/usr/sbin:/sbin:/usr/local/bin")));;
      push sockfd (pushShellspawnCommand SHELLSPAWN_SETENV (Some (s2c "TMPDIR=/private/tmp")));;
      euid ← ask Geteuid;
      match user_name euid with
      | None => Exit 1
      | Some login =>
        push sockfd (pushShellspawnCommand SHELLSPAWN_SETENV (Some (snprintf_text 4096 (s2c "HOME=/Users/" ++ login))));;
        match buffer with
        | None => mret tt
        | Some buffer =>
          push sockfd (pushShellspawnCommand SHELLSPAWN_ADDARG (Some (s2c "-c")));;
          push sockfd (pushShellspawnCommand SHELLSPAWN_ADDARG (Some buffer))
        end;;
        push sockfd (pushShellspawnCommand SHELLSPAWN_CHDIR (Some (snprintf_text 4096 (SYSTEM_ROOT ++ w_cwd w))));;
        push sockfd (pushShellspawnCommandData SHELLSPAWN_SETUIDGID (int_bytes uid ++ int_bytes gid));;
        '(fds, master) ← shell_fds;
        push_fds sockfd fds;;
        ask (Close (zget fds 0));;
        shellLoop sockfd master;;
        (if master =? -1 then mret tt else ask (Close master);; mret tt);;
        ask (Close sockfd);; mret tt
      end.

(** ** main *)

(** The wait for the daemon: at most 15 seconds. *)
Fixpoint wait_for_socket (n : nat) (path : cstr) : io unit :=
  match n with
  | O => mret tt
  | S n => r ← ask (Access path); if r =? 0 then mret tt else ask (Sleep 1);; wait_for_socket n path
  end.

Definition start_init (fix_permissions : bool) : io Z :=
  let socketPath := snprintf_text 4096 (prefix ++ SHELLSPAWN_SOCKPATH) in
  ask (Fs (Unlink socketPath));;
  setupWorkdir;;
  pidInit ← spawnInitProcess fix_permissions;
  putInitPid pidInit;;
  wait_for_socket 15 socketPath;;
  mret pidInit.

(** The loop over the options: [true] when the program goes on. *)
Fixpoint main_options (l : list getopt_result) : io unit :=
  match l with
  | [] | OptEnd :: _ => mret tt
  | (OptHelp | OptVersion) :: _ => Exit 0
  | OptUnknown :: l => main_options l
  | OptOther :: _ => Aborted
  end.

(** [main] from the point where the prefix is known. *)
Definition main_in_prefix (argv : list cstr) : io Z :=
  found ← checkPrefixDir;
  (if (found : bool) then mret tt else setupPrefix_run);;
  checkPrefixOwner;;
  main_options (w_options w);;
  let '(pidInit, stale) := getInitProcess (w_proc w) uid gid in
  pidPath ← known (pid_path prefix);
  (if stale then ask (Fs (Unlink pidPath));; mret tt else mret tt);;
  let arg := default [] (argv !! 1%nat) in
  if streq arg (s2c "shutdown") then
    if pidInit =? 0 then mret 1 else ask (Kill pidInit LINUX_SIGKILL);; mret 0
  else
    pidInit ← (if pidInit =? 0 then start_init (negb found) else mret pidInit);
    joinNamespace pidInit CLONE_NEWNS (s2c "mnt");;
    ask (Seteuid uid);;
    if streq arg (s2c "shell") then
      spawnShell (if (2 <? length argv)%nat then Some (drop 2 argv) else None);; mret 0
    else
      path ← ask (Realpath arg);
      match path with
      | None => mret 1
      | Some path => fullPath ← known (full_path path); spawnShell (Some (fullPath :: drop 2 argv));; mret 0
      end.
End Launcher.

Definition main `{LoopFuel} (w : world) (argv : list cstr) : io Z :=
  if (length argv <=? 1)%nat then mret 1
  else
    euid ← ask Geteuid;
    if negb (euid =? 0) then mret 1
    else
      uid ← ask Getuid;
      gid ← ask Getgid;
      ask (Setuid 0);;
      ask (Setgid 0);;
      loaded ← known (isModuleLoaded (w_modules w));
      (if (loaded : bool) then mret tt else loadKernelModule);;
      match (match w_dprefix w with Some p => Some p | None => defaultPrefixPath (w_home w) end) with
      | None => mret 1
      | Some prefix => if negb (prefix_accepted prefix) then mret 1 else main_in_prefix w prefix uid gid argv
      end.

(** ** The release of the kernel *)

(** [strtol(p, &p, 10)] of a text that starts with a digit. *)
Definition strtol_10 (p : cstr) : Z * cstr := let '(v, r) := scan_digits 0 p in (Z.min v (2 ^ 63 - 1), r).

Fixpoint release_loop (fuel : nat) (p : cstr) (version : Z) (digits : nat) : Z :=
  match fuel, p with
  | S fuel, c :: r =>
    if (3 <=? digits)%nat then version
    else if isdigit c then
      let '(v, r) := strtol_10 p in release_loop fuel r (u32 (Z.lor (u32 (Z.shiftl version 8)) v)) (S digits)
    else release_loop fuel r version digits
  | _, _ => version
  end.

(** [None]: uname fails. *)
Definition linux_release (release : option cstr) : Z :=
  match release with Some p => release_loop (length p) p 0 0 | None => 0 end.

Definition LINUX_RELEASE (a b c : Z) : Z := Z.lor (Z.lor (Z.shiftl a 16) (Z.shiftl b 8)) c.
