(* ===== verification/StartupProofs.v ===== *)
(** * Theorems about the launcher

    The rights a setuid root program uses, the removal of temporary files, the
    ownership of directories, the terminal, what is copied and what is sent. *)
From S2P Require Import Prelude Abi Linux Errno Base Simple Vchroot Procfs Launcher Host Startup.

(** ** Rights *)

(** The identifiers of a process, real, effective and saved. *)
Record cred := Cred { c_ruid : Z; c_euid : Z; c_suid : Z; c_rgid : Z; c_egid : Z; c_sgid : Z }.

Definition user_cred (uid gid : Z) : cred := Cred uid uid uid gid gid gid.
Definition one_of_uids (c : cred) (u : Z) : bool := (u =? c_ruid c) || (u =? c_euid c) || (u =? c_suid c).
Definition one_of_gids (c : cred) (g : Z) : bool := (g =? c_rgid c) || (g =? c_egid c) || (g =? c_sgid c).

(** credentials(7), setuid(2), seteuid(2), setresuid(2): a process whose
    effective user is root chooses freely, any other among its own.  The
    launcher looks at none of the results: that a call which is permitted does
    not fail for another reason is assumed here. *)
Definition cred_call {X : Set} (e : hostE X) (c : cred) : option cred :=
  let root := c_euid c =? 0 in
  match e with
  | Setuid u =>
    if root then Some (Cred u u u (c_rgid c) (c_egid c) (c_sgid c))
    else if (u =? c_ruid c) || (u =? c_suid c) then Some (Cred (c_ruid c) u (c_suid c) (c_rgid c) (c_egid c) (c_sgid c)) else None
  | Setgid g =>
    if root then Some (Cred (c_ruid c) (c_euid c) (c_suid c) g g g)
    else if (g =? c_rgid c) || (g =? c_sgid c) then Some (Cred (c_ruid c) (c_euid c) (c_suid c) (c_rgid c) g (c_sgid c)) else None
  | Seteuid u => if root || one_of_uids c u then Some (Cred (c_ruid c) u (c_suid c) (c_rgid c) (c_egid c) (c_sgid c)) else None
  | Setegid g => if root || one_of_gids c g then Some (Cred (c_ruid c) (c_euid c) (c_suid c) (c_rgid c) g (c_sgid c)) else None
  | Setresuid r e s => if root || (one_of_uids c r && one_of_uids c e && one_of_uids c s) then Some (Cred r e s (c_rgid c) (c_egid c) (c_sgid c)) else None
  | Setresgid r e s => if root || (one_of_gids c r && one_of_gids c e && one_of_gids c s) then Some (Cred (c_ruid c) (c_euid c) (c_suid c) r e s) else None
  | _ => Some c
  end.

Definition cred_answers (c : cred) (X : Set) (e : hostE X) (x : X) (c' : cred) : Prop :=
  c' = default c (cred_call e c) ∧
  match e in hostE X return X -> Prop with
  | Geteuid => λ x, x = c_euid c
  | Getuid => λ x, x = c_ruid c
  | Getgid => λ x, x = c_rgid c
  | _ => λ _, True
  end x.

(** What may be asked for with the rights of root, of which the launcher's own
    identifiers, descriptors and children need none: namespaces and the mounts
    of the container, the kernel module, a look at the prefix, the overlay's
    work directory, giving directories of the prefix to the user, removal of
    the old socket and of the file with the container's number, writing that
    file, opening a namespace, a look at the socket and killing the container
    that runs ([init]).  Everything else happens with the user's rights, and
    other programs than modprobe run with nothing but them. *)
Definition socket_path (prefix : cstr) : cstr := snprintf_text 4096 (prefix ++ SHELLSPAWN_SOCKPATH).
Definition ns_path (path : cstr) : Prop := ∃ pid name, path = snprintf_text 4096 (s2c "/proc/" ++ pid_text pid ++ s2c "/ns/" ++ name).

Definition rights_rule (prefix : cstr) (uid gid init : Z) (c : cred) (X : Set) (e : hostE X) : Prop :=
  match e with
  | Exec _ _ _ => c = user_cred uid gid
  | Popen cmd => cmd = MODPROBE ∨ c = user_cred uid gid
  | Geteuid | Getuid | Getgid | Setuid _ | Setgid _ | Seteuid _ | Setegid _ | Setresuid _ _ _ | Setresgid _ _ _ => True
  | Pipe | Fork | Close _ | Read _ _ | Write _ _ | Sleep _ | Prctl _ _ => True
  | Unshare _ => True
  | Setns _ type => type = CLONE_NEWNS
  | Mount _ target _ _ _ => target ∈ [s2c "/"; s2c "/dev/shm"; prefix; snprintf_text 4096 (prefix ++ s2c "/proc")]
  | Umount path => path = s2c "/dev/shm"
  | Stat path => path = prefix ∨ Some path = workdir_path prefix ∨ c_euid c = uid
  | Access path => path = socket_path prefix ∨ c_euid c = uid
  | Open path flags => flags = LINUX_O_RDONLY ∧ ns_path path ∨ c_euid c = uid
  | Opendir path => prefix `prefix_of` path ∨ c_euid c = uid
  | Chown path u g => prefix `prefix_of` path ∧ u = uid ∧ g = gid
  | Fs (Mkdir path _) => Some path = workdir_path prefix ∨ c_euid c = uid
  | Fs (Unlink path) => Some path = pid_path prefix ∨ path = socket_path prefix ∨ c_euid c = uid
  | Fputs path _ => Some path = pid_path prefix ∨ c_euid c = uid
  | Kill pid sig => pid = init ∧ sig = LINUX_SIGKILL
  | _ => c_euid c = uid
  end.

Definition user_rights (prefix : cstr) (uid gid init : Z) : discipline cred :=
  Discipline (rights_rule prefix uid gid init) cred_answers (λ _ _, True) True.

(** A step of the proof that a program keeps to the rule: answers to requests
    other than those for identifiers leave the state alone. *)
Ltac rights_allowed :=
  simpl; first [ solve [auto] | rewrite !elem_of_cons; solve [auto 10] | left; split; [reflexivity|by eexists _, _] | idtac ].

Ltac rights_step :=
  lazymatch goal with
  | |- safe _ (_ ≫= _) _ _ => apply safe_bind
  | |- safe _ (must _) _ _ => apply safe_must
  | |- safe _ (mret _) _ _ => apply safe_ret
  | |- safe _ (Fin _) _ _ => apply safe_ret
  | |- safe _ (ask _) _ _ => apply safe_ask; [rights_allowed|intros ? ? [-> ?]]
  | |- safe _ (Exit _) _ _ => exact I
  | |- safe _ Spent _ _ => exact I
  | |- safe _ Replaced _ _ => exact I
  | |- safe _ Aborted _ _ => exact I
  | |- (if ?b then _ else may_exit _ _ _) => destruct b; [|exact I]
  end; cbv beta; try lazymatch goal with |- safe _ _ ?c _ => let c' := eval cbn in c in change c with c' end.

Ltac rights_if := lazymatch goal with |- safe _ (if ?b then _ else _) _ _ => destruct b eqn:?; try exact I end.

(** The command line always fits. *)
Lemma shell_buffer argv : argv ≠ Some [] ->
  ∃ b, match argv with None => Some None | Some argv => Some <$> command_buffer argv end = Some b.
Proof.
  intros Ha. destruct argv as [argv|]; [|by eexists]. destruct (command_buffer_text argv) as [-> _]; [by intros ->|]. by eexists.
Qed.

Section Rights.
Context `{LoopFuel} (w : world) (prefix : cstr) (uid gid init : Z).
Abbreviation R := (user_rights prefix uid gid init).
Implicit Types Q : unit -> cred -> Prop.

Lemma createDir_rights path c Q : Some path = workdir_path prefix ∨ c_euid c = uid -> Q tt c -> safe R (createDir path) c Q.
Proof.
  intros Hp HQ. unfold createDir. do 2 rights_step. destruct x as [errno|[mode st_uid]].
  - destruct (errno =? LINUX_ENOENT); [|done]. do 2 rights_step. destruct x as [r e]. by destruct (r =? 0).
  - by destruct (ISDIR mode).
Qed.

(** Programs that leave the identifiers as they are. *)
Lemma for_each_rights {A} (f : A -> io unit) l c Q :
  (∀ a, a ∈ l -> safe R (f a) c (λ _ c', c' = c)) -> Q tt c -> safe R (for_each f l) c Q.
Proof. intros Hf HQ. apply (safe_for_each _ _ _ (λ c', c' = c)); [done|intros a ? Ha ->; by apply Hf|by intros ? ->]. Qed.

Lemma checkPrefixDir_rights c (Q : bool -> cred -> Prop) : (∀ b, Q b c) -> safe R (checkPrefixDir prefix) c Q.
Proof.
  intros HQ. unfold checkPrefixDir. do 2 rights_step. destruct x as [errno|[mode st_uid]].
  - by destruct (errno =? LINUX_ENOENT); [apply HQ|].
  - by destruct (ISDIR mode); [apply HQ|].
Qed.

Lemma checkPrefixOwner_rights c Q : Q tt c -> safe R (checkPrefixOwner prefix uid) c Q.
Proof. intros HQ. unfold checkPrefixOwner. do 2 rights_step. destruct x as [errno|[mode st_uid]]; by destruct (_ : bool). Qed.

Lemma loadKernelModule_rights c Q : Q tt c -> safe R loadKernelModule c Q.
Proof. intros HQ. unfold loadKernelModule. do 2 rights_step. destruct x as [[o status]|]; [|done]. by destruct (_ && _). Qed.

Lemma fixDirectoryPermissions_rights fuel path c Q : prefix `prefix_of` path -> Q tt c -> safe R (fixDirectoryPermissions uid gid fuel path) c Q.
Proof.
  revert path Q. induction fuel as [|fuel IH]; intros path Q Hp HQ; [done|]. cbn [fixDirectoryPermissions]. do 2 rights_step.
  destruct x as [ents|]; [|done]. apply for_each_rights; [|done]. intros [name type] _. cbn [fst snd].
  destruct (type =? DT_DIR); [|by rights_step]. destruct (dot_or_dotdot name); [by rights_step|].
  assert (prefix `prefix_of` path ++ s2c "/" ++ name) by (by apply prefix_app_r). rights_step. apply IH; [done|]. by repeat rights_step.
Qed.

Lemma wipeDir_rights fuel path c Q : c_euid c = uid -> Q tt c -> safe R (wipeDir fuel path) c Q.
Proof.
  intros Hu. revert path Q. induction fuel as [|fuel IH]; intros path Q HQ; [done|]. cbn [wipeDir]. do 2 rights_step.
  destruct x as [ents|]; [|done]. apply for_each_rights; [|done]. intros [name type] _. cbn [fst snd].
  destruct (dot_or_dotdot name); [by rights_step|]. destruct (type =? DT_DIR); [|by repeat rights_step].
  rights_step. apply IH. by repeat rights_step.
Qed.

Lemma xdg_dirs_rights login dir entries Q : Q tt (user_cred uid gid) -> safe R (xdg_dirs prefix login dir entries) (user_cred uid gid) Q.
Proof.
  intros HQ. revert dir. induction entries as [|[xdg name] entries IH]; intros dir; cbn [xdg_dirs]; [done|]. do 2 rights_step.
  destruct x as [[output status]|]; [|apply IH]. destruct (xdgDirectory dir output) as [[d|] dir']; [|apply IH].
  by repeat rights_step.
Qed.

(** The texts fit: the prefix into the address of the socket, the user's name
    into the path of the home directory, "darling-init" over the arguments; the
    prefix does not consist of slashes. *)
Record texts_fit : Prop := {
  tf_prefix : strlen prefix <= 83;
  tf_workdir : is_Some (workdir_path prefix);
  tf_name : ∀ id name, user_name w id = Some name -> strlen name <= 1024;
  tf_area : strlen DARLING_INIT_COMM <= w_argv_area w }.

Context (Hfit : texts_fit).

Lemma fit_accepted : prefix_accepted prefix = true.
Proof. unfold prefix_accepted. pose proof (tf_prefix Hfit). lia. Qed.

Lemma pid_path_fits : is_Some (pid_path prefix).
Proof. eexists. apply (prefix_paths_fit prefix [] fit_accepted). Qed.

Lemma snprintf_room (s : cstr) : strlen s <= 4095 -> snprintf_text 4096 s = s.
Proof. intros Hs. unfold snprintf_text, ztake, strlen in *. apply take_ge. lia. Qed.

Definition root : cred := Cred 0 0 0 0 0 0.

Lemma setupUserHome_rights Q : Q tt (user_cred uid gid) -> safe R (setupUserHome_run w prefix) (user_cred uid gid) Q.
Proof.
  intros HQ. unfold setupUserHome_run. pose proof (tf_prefix Hfit). repeat rights_step. eapply safe_known.
  { apply append_room. rewrite snprintf_room; rewrite ?strlen_app; vm_compute (strlen (s2c _)); lia. }
  repeat rights_step. destruct (user_name w _) as [login|] eqn:Hl; [|done]. destruct (w_home w) as [home|]; [|done].
  pose proof (tf_name Hfit _ _ Hl). repeat rights_step. eapply safe_known.
  { apply append_room. rewrite snprintf_room; rewrite ?strlen_app; vm_compute (strlen (s2c _)); lia. }
  repeat rights_step. by apply xdg_dirs_rights.
Qed.

Lemma darlingPreInit_rights c Q : c_euid c = uid -> Q tt c -> safe R (darlingPreInit_run prefix) c Q.
Proof.
  intros Hu HQ. unfold darlingPreInit_run. rights_step.
  eapply safe_known; [apply (prefix_paths_fit prefix [] fit_accepted)|]. apply for_each_rights; [|done]. intros a _. by apply wipeDir_rights.
Qed.

Lemma setupCoredumpPattern_rights c Q : c_euid c = uid -> Q tt c -> safe R setupCoredumpPattern c Q.
Proof. intros Hu HQ. unfold setupCoredumpPattern. repeat rights_step. by destruct (_ : bool); repeat rights_step. Qed.

Lemma spawnLaunchd_rights {A} (Q : A -> cred -> Prop) : safe R (spawnLaunchd w prefix) (user_cred uid gid) Q.
Proof. unfold spawnLaunchd. do 2 rights_step. by destruct x. Qed.

Lemma init_child_rights fix_permissions pipefd (Q : Z -> cred -> Prop) : safe R (init_child w prefix uid gid fix_permissions pipefd) root Q.
Proof.
  unfold init_child. destruct (prefix_paths_fit prefix (w_libexec w) fit_accepted) as (_ & Hopts & _). repeat rights_step.
  eapply safe_known; [exact Hopts|]. repeat rights_step. apply (safe_mono _ _ _ (λ _ c, c = root)).
  { by destruct fix_permissions; [apply fixDirectoryPermissions_rights|]. }
  intros _ ? ->. repeat rights_step. apply setupUserHome_rights. rights_step. apply setupCoredumpPattern_rights; [done|]. repeat rights_step.
  rewrite (proj2 (Z.leb_le _ _)) by apply (tf_area Hfit). repeat rights_step. apply darlingPreInit_rights; [done|].
  apply spawnLaunchd_rights.
Qed.

Lemma spawnInitProcess_rights fix_permissions (Q : Z -> cred -> Prop) :
  (∀ pid, Q pid root) -> safe R (spawnInitProcess w prefix uid gid fix_permissions) root Q.
Proof.
  intros HQ. unfold spawnInitProcess. repeat rights_step. destruct x as [pipefd|]; [|exact I]. repeat rights_step. rights_if.
  rights_if; [apply init_child_rights|]. repeat rights_step. apply HQ.
Qed.

(** Where the user's rights are taken and given back. *)
Definition as_user : cred := Cred 0 uid 0 0 (if (uid =? 0) || (gid =? 0) then gid else 0) 0.

Lemma as_user_answer : default (Cred 0 uid 0 0 0 0) (cred_call (Setegid gid) (Cred 0 uid 0 0 0 0)) = as_user.
Proof. unfold as_user. cbn. unfold one_of_gids. cbn. destruct (uid =? 0), (gid =? 0) eqn:E; cbn; try done. Qed.

Lemma become_user {A} (k : io A) (Q : A -> cred -> Prop) : safe R k as_user Q -> safe R (ask (Seteuid uid);; ask (Setegid gid);; k) root Q.
Proof.
  intros Hk. do 2 (apply safe_bind, safe_ask; [exact I|]; intros ? ? [-> _]). rewrite <- as_user_answer in Hk. exact Hk.
Qed.

Lemma become_root {A} (k : io A) (Q : A -> cred -> Prop) : safe R k root Q -> safe R (ask (Seteuid 0);; ask (Setegid 0);; k) as_user Q.
Proof.
  intros Hk. do 2 (apply safe_bind, safe_ask; [exact I|]; intros ? ? [-> _]).
  assert (default as_user (cred_call (Seteuid 0) as_user) = Cred 0 0 0 0 (c_egid as_user) 0) as ->.
  { unfold cred_call, one_of_uids. cbn [c_euid c_ruid c_suid c_rgid c_egid c_sgid as_user]. by destruct (uid =? 0). }
  exact Hk.
Qed.

Lemma putInitPid_rights pidInit Q : Q tt root -> safe R (putInitPid prefix uid gid pidInit) root Q.
Proof.
  intros HQ. unfold putInitPid. rights_step. destruct pid_path_fits as [path Hpath]. eapply safe_known; [exact Hpath|].
  apply become_user. apply safe_bind, safe_ask; [done|]. intros fp ? [-> _]. apply become_root. destruct fp; [|by repeat rights_step].
  rights_step. apply safe_ask; [by left|]. intros ? ? [-> _]. by rights_step.
Qed.

Lemma setupPrefix_rights Q : Q tt root -> safe R (setupPrefix_run prefix uid gid) root Q.
Proof.
  intros HQ. unfold setupPrefix_run. apply become_user. apply safe_bind.
  eapply safe_known; [apply (prefix_paths_fit prefix [] fit_accepted)|]. apply safe_bind, for_each_rights.
  - intros path _. apply createDir_rights; [by right|done].
  - by apply become_root, safe_ret.
Qed.

Lemma start_init_rights fix_permissions (Q : Z -> cred -> Prop) :
  (∀ pid, Q pid root) -> safe R (start_init w prefix uid gid fix_permissions) root Q.
Proof.
  intros HQ. unfold start_init. repeat rights_step. destruct (tf_workdir Hfit) as [path Hpath]. unfold setupWorkdir. rights_step.
  eapply safe_known; [exact Hpath|]. apply createDir_rights; [by left|]. rights_step. apply spawnInitProcess_rights. intros pid. rights_step.
  apply putInitPid_rights. rights_step. generalize 15%nat. intros n. induction n as [|n IH]; cbn [wait_for_socket]; [apply HQ|].
  repeat rights_step. rights_if; [apply HQ|]. repeat rights_step. exact IH.
Qed.

Lemma joinNamespace_rights pid type name c Q : type = CLONE_NEWNS -> Q tt c -> safe R (joinNamespace pid type name) c Q.
Proof. intros -> HQ. unfold joinNamespace. repeat rights_step. rights_if. by repeat rights_step. Qed.

(** *** The shell *)

Section Shell.
Context (c : cred) (Hc : c_euid c = uid).

Lemma setupPtys_rights (Q : list Z * Z -> cred -> Prop) : (∀ fds master, length fds = 3%nat -> Q (fds, master) c) -> safe R (setupPtys w) c Q.
Proof.
  intros HQ. unfold setupPtys, openpty_darling. do 2 rights_step. rename x into attrs. do 3 rights_step. rights_if. repeat rights_step.
  rights_if. do 2 rights_step. destruct x2 as [name|]; [|done]. do 2 rights_step. rights_if. repeat rights_step.
  destruct attrs as [t|]; [|by repeat rights_step; apply HQ]. repeat rights_step. rights_if. repeat rights_step. by apply HQ.
Qed.

Lemma shell_fds_rights (Q : list Z * Z -> cred -> Prop) : (∀ fds master, Q (fds, master) c) -> safe R (shell_fds w) c Q.
Proof.
  intros HQ. unfold shell_fds. repeat rights_step.
  assert (∀ p : list Z * Z, safe R (let '(fds, master) := p in
    out_tty ← (if master =? -1 then mret false else ask (Isatty STDOUT_FILENO));
    err_tty ← (if master =? -1 then mret false else ask (Isatty STDERR_FILENO));
    let fds := if (out_tty : bool) then fds else <[1%nat := STDOUT_FILENO]> fds in
    let fds := if (err_tty : bool) then fds else <[2%nat := STDERR_FILENO]> fds in
    mret (fds, master)) c Q) as Hrest.
  { intros [fds master]. destruct (master =? -1); repeat rights_step; apply HQ. }
  rights_if; [apply setupPtys_rights; intros fds master _; exact (Hrest (fds, master))|]. do 3 rights_step. exact (Hrest ([_; _; _], -1)).
Qed.

Lemma copy_master_rights fuel master Q : Q tt c -> safe R (copy_master fuel master) c Q.
Proof.
  intros HQ. induction fuel as [|fuel IH]; [done|]. cbn [copy_master]. repeat rights_step. rights_if; repeat rights_step; by rights_if.
Qed.

Lemma copy_stdin_rights fuel master Q : Q tt c -> safe R (copy_stdin fuel master) c Q.
Proof.
  intros HQ. induction fuel as [|fuel IH]; [done|]. cbn [copy_stdin]. repeat rights_step. rights_if; repeat rights_step; by rights_if.
Qed.

Lemma shell_loop_rights fuel sockfd master Q : Q tt c -> safe R (shell_loop fuel sockfd master) c Q.
Proof.
  intros HQ. induction fuel as [|fuel IH]; [done|]. cbn [shell_loop]. do 2 rights_step. destruct x as [[r errno] revents]. rights_if; [done|].
  rights_step.
  assert (∀ b (m : io unit), (∀ Q, Q tt c -> safe R m c Q) -> ∀ Q, Q tt c -> safe R (if (b : bool) then m else mret tt) c Q) as Hif.
  { intros [|] m Hm Q' HQ'; [by apply Hm|done]. }
  apply Hif; [intros; by apply copy_master_rights|]. rights_step. apply Hif; [intros; by apply copy_stdin_rights|].
  rights_if; [|done]. do 2 rights_step. destruct x as [bytes|]; [|done]. by destruct (length bytes =? 4)%nat.
Qed.

Lemma shellLoop_rights sockfd master Q : Q tt c -> safe R (shellLoop sockfd master) c Q.
Proof.
  intros HQ. unfold shellLoop. rights_step. apply for_each_rights; [intros; by repeat rights_step|]. rights_step.
  destruct (master =? -1); repeat rights_step; by apply shell_loop_rights.
Qed.

Lemma push_rights sockfd msg Q : Q tt c -> safe R (push sockfd msg) c Q.
Proof. intros HQ. unfold push. repeat rights_step. by rights_if. Qed.

Lemma spawnShell_rights argv Q : argv ≠ Some [] -> Q tt c -> safe R (spawnShell w prefix uid gid argv) c Q.
Proof.
  intros Ha HQ. unfold spawnShell. rights_step.
  destruct (shell_buffer argv Ha) as [buffer Hb].
  eapply safe_known; [exact Hb|]. rights_step. eapply safe_known; [apply socket_path_bounds, (tf_prefix Hfit)|].
  do 2 rights_step. rights_if. do 2 rights_step. rights_if. rights_step. apply push_rights. rights_step. apply push_rights. do 2 rights_step.
  destruct (user_name w _) as [login|]; [|done]. rights_step. apply push_rights. rights_step.
  apply (safe_mono _ _ _ (λ _ c', c' = c)). { destruct buffer; [|done]. rights_step. by do 2 apply push_rights. }
  intros _ ? ->. rights_step. apply push_rights. rights_step. apply push_rights. rights_step. apply shell_fds_rights. intros fds master.
  unfold push_fds. repeat rights_step. rights_if. repeat rights_step. apply shellLoop_rights. rights_step.
  destruct (master =? -1); by repeat rights_step.
Qed.
End Shell.

Lemma full_path_text path : full_path path = Some (SYSTEM_ROOT ++ path).
Proof. apply append_twice. lia. Qed.

Lemma main_in_prefix_rights argv : init = (getInitProcess (w_proc w) uid gid).1 -> safe R (main_in_prefix w prefix uid gid argv) root (λ _ _, True).
Proof.
  intros Hinit. unfold main_in_prefix. rights_step. apply checkPrefixDir_rights. intros found. rights_step.
  apply (safe_mono _ _ _ (λ _ c, c = root)). { destruct found; [done|by apply setupPrefix_rights]. }
  intros _ ? ->. rights_step. apply checkPrefixOwner_rights. rights_step. apply (safe_mono _ _ _ (λ _ c, c = root)).
  { generalize (w_options w). intros l. by induction l as [|[] l IH]. }
  intros _ ? ->. destruct (getInitProcess _ _ _) as [pidInit stale]. cbn in Hinit. assert (pidInit = init) as Hkill by done. rights_step.
  eapply safe_known; [apply (prefix_paths_fit prefix [] fit_accepted)|]. rights_step. apply (safe_mono _ _ _ (λ _ c, c = root)).
  { destruct stale; [|done]. rights_step. apply safe_ask; [|by intros ? ? [-> _]]. left. symmetry. apply (prefix_paths_fit prefix [] fit_accepted). }
  intros _ ? ->. cbv zeta. rights_if. { rights_if. by repeat rights_step. }
  rights_step. apply (safe_mono _ _ _ (λ _ c, c = root)). { destruct (pidInit =? 0); [by apply start_init_rights|done]. }
  intros pid ? ->. rights_step. apply joinNamespace_rights; [done|]. do 2 rights_step. rights_if.
  - rights_step. apply spawnShell_rights; [done| |done]. destruct (Nat.ltb_spec 2 (length argv)) as [Hl|]; [|done]. intros [= He].
    apply (f_equal length) in He. rewrite length_drop in He. simpl in He. lia.
  - do 2 rights_step. destruct x0 as [path|]; [|done]. rights_step. eapply safe_known; [apply full_path_text|]. rights_step. by apply spawnShell_rights.
Qed.
End Rights.

(** The prefix [main] chooses. *)
Definition chosen_prefix (w : world) : option cstr := match w_dprefix w with Some p => Some p | None => defaultPrefixPath (w_home w) end.


Definition example_world : world :=
  World (Some (s2c "/home/me/.darling")) (Some (s2c "/home/me")) (s2c "/home/me") (Some (s2c "darling_mach 1 0" ++ [LINEFEED]))
    (s2c "/usr/libexec/darling") (λ _, Some (s2c "me")) None (ProcView None (λ _, false) (λ _, None) (λ _, None)) [OptEnd] 14
    (LinuxTermios 0 0 0 0 0 (replicate 32 0) 0 0).


(** ** Wiping directories *)

(** Files by their paths; [true] is a directory. *)
Abbreviation files := (gmap cstr bool).
Definition child (p n : cstr) : cstr := p ++ s2c "/" ++ n.
Definition below (p q : cstr) : Prop := ∃ r, q = child p r.
Definition valid_name (n : cstr) : Prop := n ≠ [] ∧ (SLASH ∉ n) ∧ dot_or_dotdot n = false.

(** What is in a directory has a name, and the directories above it exist. *)
Record files_wf (F : files) : Prop := {
  fw_above : ∀ p q b, F !! q = Some b -> below p q -> p = [] ∨ F !! p = Some true;
  fw_name : ∀ p n b, F !! child p n = Some b -> SLASH ∉ n -> valid_name n;
  fw_short : ∀ q b, F !! q = Some b -> strlen q <= 4095 }.

(** The file system.  A [reliable] one lists every entry once, in any order,
    with its type, and removes a file or an empty directory when it is asked
    to.  In general a directory may be unreadable, a type unknown or wrong, and
    a removal can fail. *)
Definition exact_listing (F : files) (p : cstr) (ents : list (cstr * Z)) : Prop :=
  NoDup ents.*1 ∧ (∀ n t, (n, t) ∈ ents -> dot_or_dotdot n = true ∨ valid_name n ∧ F !! child p n = Some (t =? DT_DIR)) ∧
  (∀ n b, valid_name n -> F !! child p n = Some b -> n ∈ ents.*1).

Definition listing (reliable : bool) (F : files) (p : cstr) (ents : list (cstr * Z)) : Prop :=
  (∀ n t, (n, t) ∈ ents -> dot_or_dotdot n = true ∨ valid_name n ∧ is_Some (F !! child p n)) ∧
  (reliable = true -> exact_listing F p ents).

Definition removable (F : files) (p : cstr) : Prop := F !! p = Some true ∧ ∀ q, below p q -> F !! q = None.

Definition files_answers (reliable : bool) (F : files) (X : Set) (e : hostE X) (x : X) (F' : files) : Prop :=
  match e in hostE X return X -> Prop with
  | Opendir p => λ x, F' = F ∧ match x with Some ents => listing reliable F p ents | None => reliable = true -> F !! p ≠ Some true end
  | Fs (Unlink p) => λ _, (F !! p = Some false ∧ F' = delete p F) ∨ ((reliable = true -> F !! p ≠ Some false) ∧ F' = F)
  | Rmdir p => λ _, (removable F p ∧ F' = delete p F) ∨ ((reliable = true -> ¬ removable F p) ∧ F' = F)
  | _ => λ _, F' = F
  end x.

Definition file_system (reliable : bool) : discipline files := Discipline (λ _ _ _, True) (files_answers reliable) (λ _ _, True) False.

Lemma below_sub p n q : below (child p n) q -> below p q.
Proof. intros [r ->]. exists (n ++ s2c "/" ++ r). unfold child. by rewrite <- !app_assoc. Qed.

Lemma below_trans p q r : below p q -> below q r -> below p r.
Proof. intros [m ->]. apply below_sub. Qed.

Lemma below_longer p q : below p q -> strlen p < strlen q.
Proof. intros [r ->]. unfold child. rewrite !strlen_app. pose proof (strlen_nonneg r). change (strlen (s2c "/")) with 1. lia. Qed.

Lemma child_inj p n m : child p n = child p m -> n = m.
Proof. unfold child. intros H%app_inv_head. by apply app_inv_head in H. Qed.

(** The first component. *)
Lemma first_component (r : cstr) : ∃ n, (SLASH ∉ n) ∧ (r = n ∨ ∃ r', r = child n r').
Proof.
  induction r as [|c r (n & Hn & Hr)]; [exists []; split; [by apply not_elem_of_nil|by left]|].
  destruct (decide (c = SLASH)) as [->|Hc]; [exists []; split; [by apply not_elem_of_nil|right; by exists r]|].
  exists (c :: n). split; [by apply not_elem_of_cons|]. destruct Hr as [->|[r' ->]]; [by left|right; by exists r'].
Qed.

Lemma entry_above F p q b : files_wf F -> p ≠ [] -> F !! q = Some b -> below p q ->
  ∃ n b', valid_name n ∧ F !! child p n = Some b' ∧ (q = child p n ∨ below (child p n) q).
Proof.
  intros Hwf Hp Hq [r ->]. destruct (first_component r) as (n & Hn & Hr). assert (child p n ≠ []) as Hne by (intros Hc; by destruct p).
  destruct Hr as [->|[r' ->]].
  - exists n, b. split_and!; [by eapply fw_name|done|by left].
  - assert (child p (child n r') = child (child p n) r') as Heq by (unfold child; by rewrite <- !app_assoc).
    rewrite Heq in *. destruct (fw_above F Hwf (child p n) _ _ Hq) as [|Hd]; [by eexists|done|].
    exists n, true. split_and!; [by eapply fw_name|done|right; by exists r'].
Qed.

(** [F] is [F0] without the paths [P]. *)
Definition pruned (P : cstr -> Prop) (F0 F : files) : Prop := (∀ q, P q -> F !! q = None) ∧ (∀ q, ¬ P q -> F !! q = F0 !! q).

Lemma pruned_some P F0 F q b : pruned P F0 F -> F !! q = Some b -> ¬ P q ∧ F0 !! q = Some b.
Proof.
  intros [Hn Hk] Hq. assert (¬ P q) as HP by (intros HP; by rewrite (Hn q HP) in Hq). split; [done|]. by rewrite <- (Hk q HP).
Qed.

Lemma pruned_wf P F0 F : files_wf F0 -> pruned P F0 F -> (∀ p q, P p -> below p q -> P q) -> files_wf F.
Proof.
  intros Hwf HF Hup. split.
  - intros p q b Hq Hb. destruct (pruned_some _ _ _ _ _ HF Hq) as [HP H0]. destruct (fw_above F0 Hwf p q b H0 Hb) as [->|Hp]; [by left|right].
    rewrite (proj2 HF); [done|]. intros HPp. by eapply HP, Hup.
  - intros p n b Hq Hs. destruct (pruned_some _ _ _ _ _ HF Hq) as [_ H0]. by eapply fw_name.
  - intros q b Hq. destruct (pruned_some _ _ _ _ _ HF Hq) as [_ H0]. by eapply fw_short.
Qed.

(** The paths of the entries that were treated, with all that is in them. *)
Definition entries_of (p : cstr) (names : list cstr) (q : cstr) : Prop := ∃ n, n ∈ names ∧ (q = child p n ∨ below (child p n) q).

Lemma entries_up p names q r : entries_of p names q -> below q r -> entries_of p names r.
Proof. intros (n & Hn & [->|Hb]) Hr; exists n; (split; [done|right]); [done|by eapply below_trans]. Qed.

Lemma entries_other p names n : valid_name n -> n ∉ names -> ¬ entries_of p names (child p n).
Proof.
  intros (_ & Hs & _) Hn (m & Hm & [->%child_inj|[r Hr]]); [done|]. unfold child in Hr. rewrite <- !app_assoc in Hr.
  do 2 apply app_inv_head in Hr. apply Hs. rewrite Hr. set_solver.
Qed.

Lemma pruned_cons p names n F0 F F' : pruned (entries_of p names) F0 F -> (∀ q, q = child p n ∨ below (child p n) q -> F' !! q = None) ->
  (∀ q, q ≠ child p n -> ¬ below (child p n) q -> F' !! q = F !! q) -> pruned (entries_of p (n :: names)) F0 F'.
Proof.
  intros [Hn Hk] H1 H2. split.
  - intros q (m & [->|Hm]%elem_of_cons & Hq); [by apply H1|].
    destruct (F' !! q) as [b|] eqn:E; [|done]. rewrite H2 in E; [|intros ->; by rewrite H1 in E; [|left]|intros Hb; by rewrite H1 in E; [|right]].
    rewrite Hn in E; [done|]. by exists m.
  - intros q Hq. rewrite H2, Hk; [done|..]; intros Hc; apply Hq; [|exists n; set_solver..].
    destruct Hc as (m & Hm & Hc). exists m. set_solver.
Qed.

Lemma strlen_child p n : strlen (child p n) = strlen p + strlen n + 1.
Proof. unfold child. rewrite !strlen_app. change (strlen (s2c "/")) with 1. lia. Qed.

Lemma not_below_self p : ¬ below p p.
Proof. intros Hb%below_longer. lia. Qed.

(** One entry of the loop. *)
Lemma wipe_entry (fuel : nat) (p : cstr) (names : list cstr) (n : cstr) (t : Z) (F0 F : files) (Q : unit -> files -> Prop) :
  files_wf F0 -> p ≠ [] -> pruned (entries_of p names) F0 F -> n ∉ names -> valid_name n -> F0 !! child p n = Some (t =? DT_DIR) ->
  (∀ p F Q, files_wf F -> p ≠ [] -> strlen p <= 4095 -> 4096 <= strlen p + Z.of_nat fuel ->
     (∀ F', pruned (below p) F F' -> Q tt F') -> safe (file_system true) (wipeDir fuel p) F Q) ->
  4096 <= strlen p + 1 + Z.of_nat fuel ->
  (∀ F', pruned (entries_of p (n :: names)) F0 F' -> Q tt F') ->
  safe (file_system true) (let path := snprintf_text 4096 (p ++ s2c "/" ++ n) in
    if t =? DT_DIR then wipeDir fuel path;; ask (Rmdir path);; mret tt else ask (Fs (Unlink path));; mret tt) F Q.
Proof.
  intros Hwf Hp HF Hn Hv H0 IH Hfuel HQ. fold (child p n). cbv zeta. pose proof (fw_short F0 Hwf _ _ H0) as Hlen. rewrite snprintf_room by done.
  assert (F !! child p n = Some (t =? DT_DIR)) as HFn by (rewrite (proj2 HF); [done|by apply entries_other]).
  assert (files_wf F) as HwfF by (eapply pruned_wf; [done..|apply entries_up]).
  rewrite strlen_child in Hlen. pose proof (strlen_nonneg n). destruct (t =? DT_DIR).
  - apply safe_bind, IH; [done|intros Hc; by destruct p|rewrite strlen_child; lia|rewrite strlen_child; lia|].
    intros F1 HF1. apply safe_bind, safe_ask; [done|]. intros ? F2 Hrm. apply safe_ret, HQ.
    assert (removable F1 (child p n)) as Hr by (split; [rewrite (proj2 HF1); [done|apply not_below_self]|apply HF1]).
    destruct Hrm as [[_ ->]|[Hno _]]; [|by destruct (Hno eq_refl)]. eapply pruned_cons; [done|..].
    + intros q [->|Hb]; [apply lookup_delete_eq|]. rewrite lookup_delete_ne by (intros <-; by eapply not_below_self). by apply HF1.
    + intros q Hne Hb. rewrite lookup_delete_ne by done. by apply HF1.
  - apply safe_bind, safe_ask; [done|]. intros ? F2 [[_ ->]|[Hno _]]; [|by destruct (Hno eq_refl)].
    apply safe_ret, HQ. eapply pruned_cons; [done|..].
    + intros q [->|Hb]; [apply lookup_delete_eq|]. rewrite lookup_delete_ne by (intros <-; by eapply not_below_self).
      destruct (F !! q) eqn:E; [|done]. destruct (fw_above F HwfF _ _ _ E Hb) as [Hc|Hd]; [by destruct p|]. by rewrite HFn in Hd.
    + intros q Hne _. by rewrite lookup_delete_ne.
Qed.

Lemma wipe_run (fuel : nat) (p : cstr) (F : files) (Q : unit -> files -> Prop) : files_wf F -> p ≠ [] -> strlen p <= 4095 -> 4096 <= strlen p + Z.of_nat fuel ->
  (∀ F', pruned (below p) F F' -> Q tt F') -> safe (file_system true) (wipeDir fuel p) F Q.
Proof.
  revert p F Q. induction fuel as [|fuel IH]; intros p F Q Hwf Hp Hlen Hfuel HQ; [lia|]. cbn [wipeDir].
  apply safe_bind, safe_ask; [done|]. intros [ents|] F0 [-> Hx].
  2:{ apply HQ. split; [|done]. intros q Hb. destruct (F !! q) as [b|] eqn:E; [|done]. destruct (fw_above F Hwf _ _ _ E Hb); [done|by destruct (Hx eq_refl)]. }
  destruct Hx as (_ & Hrel). destruct (Hrel eq_refl) as (Hnd & Hin & Hall).
  assert (∀ l names G, l.*1 ## names -> NoDup l.*1 -> (∀ n t, (n, t) ∈ l -> (n, t) ∈ ents) -> pruned (entries_of p names) F G ->
    (∀ n b, valid_name n -> F !! child p n = Some b -> n ∈ l.*1 ∨ n ∈ names) -> (∀ n, n ∈ names -> valid_name n) ->
    safe (file_system true) (for_each (λ ent, if dot_or_dotdot ent.1 then mret tt else
      let path := snprintf_text 4096 (p ++ s2c "/" ++ ent.1) in
      if ent.2 =? DT_DIR then wipeDir fuel path;; ask (Rmdir path);; mret tt else ask (Fs (Unlink path));; mret tt) l) G Q) as Hloop.
  { intros l. induction l as [|[n t] l IHl]; intros names G Hdis Hd Hsub HG Hc Hv; cbn [for_each fst snd].
    - apply safe_ret, HQ. split.
      + intros q Hb. destruct (G !! q) as [b|] eqn:E; [|done]. destruct (pruned_some _ _ _ _ _ HG E) as [Hnu E0]. exfalso. apply Hnu.
        destruct (entry_above F p q b Hwf Hp E0 Hb) as (n & b' & Hvn & Hn & Hq). destruct (Hc n b' Hvn Hn) as [?%elem_of_nil|?]; [done|]. by exists n.
      + intros q Hb. apply HG. intros (n & _ & [->|Hq]); apply Hb; [by exists n|by eapply below_sub].
    - cbn in Hd. apply NoDup_cons in Hd as [Hn Hd]. apply safe_bind. destruct (dot_or_dotdot n) eqn:Ed.
      + apply safe_ret, (IHl names); [set_solver|done|set_solver|done| |done]. intros m b Hm Hmb. destruct (Hc m b Hm Hmb) as [Hel|]; [|by right].
        cbn in Hel. apply elem_of_cons in Hel as [->|]; [|by left]. destruct Hm as (_ & _ & Hm). by rewrite Hm in Ed.
      + destruct (Hin n t) as [Hx|[Hvn HFn]]; [apply Hsub; set_solver|by rewrite Hx in Ed|].
        eapply wipe_entry; [exact Hwf|done|exact HG|set_solver|done|done|exact IH|lia|]. intros G' HG'.
        apply (IHl (n :: names)); [set_solver|done|set_solver|done| |]; [|set_solver].
        intros m b Hm Hmb. destruct (Hc m b Hm Hmb) as [Hel|]; [|set_solver]. cbn in Hel. set_solver. }
  apply (Hloop ents []); [set_solver|done|done| |by left; eapply Hall|set_solver]. split; [by intros q (n & ?%elem_of_nil & _)|done].
Qed.

(** Whatever fails, nothing else than what is below the directory is removed,
    and the recursion ends. *)
Definition shrunk (P : cstr -> Prop) (F0 F : files) : Prop := F ⊆ F0 ∧ (∀ q, ¬ P q -> F !! q = F0 !! q).

Lemma shrunk_trans P F0 F1 F2 : shrunk P F0 F1 -> shrunk P F1 F2 -> shrunk P F0 F2.
Proof. intros [H1 K1] [H2 K2]. split; [by etransitivity|]. intros q Hq. by rewrite K2, K1. Qed.

Lemma shrunk_mono (P P' : cstr -> Prop) F0 F : (∀ q, P q -> P' q) -> shrunk P F0 F -> shrunk P' F0 F.
Proof. intros HP [H1 H2]. split; [done|]. intros q Hq. apply H2. auto. Qed.

Lemma shrunk_delete (P : cstr -> Prop) (F : files) p : P p -> shrunk P F (delete p F).
Proof. intros HP. split; [apply delete_subseteq|]. intros q Hq. apply lookup_delete_ne. by intros ->. Qed.

Lemma short_subseteq (F0 F : files) : F ⊆ F0 -> (∀ q b, F0 !! q = Some b -> strlen q <= 4095) -> ∀ q b, F !! q = Some b -> strlen q <= 4095.
Proof. intros Hsub Hs q b Hq. eapply Hs. by eapply lookup_weaken. Qed.

Lemma wipe_shrinks (reliable : bool) (fuel : nat) (p : cstr) (F : files) (Q : unit -> files -> Prop) :
  (∀ q b, F !! q = Some b -> strlen q <= 4095) -> strlen p <= 4095 -> 4096 <= strlen p + Z.of_nat fuel ->
  (∀ F', shrunk (below p) F F' -> Q tt F') -> safe (file_system reliable) (wipeDir fuel p) F Q.
Proof.
  revert p F Q. induction fuel as [|fuel IH]; intros p F Q Hs Hlen Hfuel HQ; [lia|]. cbn [wipeDir].
  apply safe_bind, safe_ask; [done|]. intros [ents|] F0 [-> Hx]; [|by apply HQ]. destruct Hx as [Hany _].
  apply (safe_for_each _ _ _ (shrunk (below p) F)); [done| |done].
  intros [n t] G Hin HG. cbn [fst snd]. destruct (dot_or_dotdot n) eqn:Ed; [done|].
  destruct (Hany n t Hin) as [Hd|[Hv [b Hb]]]; [by rewrite Hd in Ed|]. fold (child p n). cbv zeta. pose proof (Hs _ _ Hb) as Hc.
  rewrite snprintf_room by done. rewrite strlen_child in Hc. pose proof (strlen_nonneg n).
  assert (below p (child p n)) as Hbelow by (by exists n). destruct (t =? DT_DIR).
  - apply safe_bind, IH; [eapply short_subseteq; [apply HG|done]|rewrite strlen_child; lia|rewrite strlen_child; lia|].
    intros G1 HG1. assert (shrunk (below p) F G1) as HF1.
    { eapply shrunk_trans; [done|]. eapply shrunk_mono; [|done]. intros q. apply below_sub. }
    apply safe_bind, safe_ask; [done|]. intros ? G2 [[_ ->]|[_ ->]]; apply safe_ret; [|done].
    eapply shrunk_trans; [done|]. by apply shrunk_delete.
  - apply safe_bind, safe_ask; [done|]. intros ? G2 [[_ ->]|[_ ->]]; apply safe_ret; [|done].
    eapply shrunk_trans; [done|]. by apply shrunk_delete.
Qed.

(** The paths of the two directories, with room for 4096 levels. *)
Lemma wiped_directories `{LoopFuel} (prefix d : cstr) : prefix_accepted prefix = true -> (4096 <= loop_fuel)%nat -> strlen d = 8 ->
  (prefix ++ d ≠ []) ∧ strlen (prefix ++ d) <= 4095 ∧ 4096 <= strlen (prefix ++ d) + Z.of_nat loop_fuel.
Proof.
  intros Hp Hfuel Hd. unfold prefix_accepted in Hp. apply Z.leb_le in Hp. pose proof (strlen_nonneg prefix).
  rewrite strlen_app. split; [|lia]. intros [_ ->]%app_nil. done.
Qed.

Lemma wipe_all `{LoopFuel} (prefix : cstr) (F : files) :
  prefix_accepted prefix = true -> files_wf F -> (4096 <= loop_fuel)%nat ->
  safe (file_system true) (darlingPreInit_run prefix) F (λ _ F',
    pruned (λ q, below (prefix ++ s2c "/var/tmp") q ∨ below (prefix ++ s2c "/var/run") q) F F').
Proof.
  intros Hp Hwf Hfuel. unfold darlingPreInit_run. apply safe_bind. eapply safe_known; [apply (prefix_paths_fit prefix [] Hp)|]. cbn [for_each].
  destruct (wiped_directories prefix (s2c "/var/tmp")) as (?&?&?); [done..|]. destruct (wiped_directories prefix (s2c "/var/run")) as (?&?&?); [done..|].
  apply safe_bind, wipe_run; [done..|]. intros F1 HF1. apply safe_bind, wipe_run; [|done..|].
  { eapply pruned_wf; [done..|]. intros p q. apply below_trans. }
  intros F2 HF2. apply safe_ret. split.
  - intros q [Hq|Hq]; [|by apply HF2]. destruct (F2 !! q) eqn:E; [|done]. destruct (pruned_some _ _ _ _ _ HF2 E) as [_ E1].
    by rewrite (proj1 HF1) in E1.
  - intros q Hq. rewrite (proj2 HF2), (proj2 HF1); naive_solver.
Qed.


(** The condition on files, decided. *)
Fixpoint splits (q : cstr) : list (cstr * cstr) :=
  match q with
  | [] => []
  | c :: q => (if ascii_dec c SLASH then [([], q)] else []) ++ ((λ '(p, r), (c :: p, r)) <$> splits q)
  end.

Lemma splits_spec (p r : cstr) : (p, r) ∈ splits (child p r).
Proof.
  induction p as [|c p IH]; cbn [splits child app s2c String.list_ascii_of_string].
  - destruct (ascii_dec _ _) as [|Hc]; [set_solver|by destruct Hc].
  - apply elem_of_app. right. apply list_elem_of_fmap. by exists (p, r).
Qed.

Definition valid_nameb (n : cstr) : bool := negb (bool_decide (n = [])) && bool_decide (SLASH ∉ n) && negb (dot_or_dotdot n).
Lemma valid_nameb_spec n : valid_nameb n = true -> valid_name n.
Proof.
  unfold valid_nameb. intros [[H1%negb_true_iff H2]%andb_true_iff H3%negb_true_iff]%andb_true_iff.
  apply bool_decide_eq_false in H1. apply bool_decide_eq_true in H2. done.
Qed.

Definition files_ok (F : files) : bool :=
  forallb (λ '(q, _), (strlen q <=? 4095) && forallb (λ '(p, r),
    (bool_decide (p = []) || bool_decide (F !! p = Some true)) && (bool_decide (SLASH ∈ r) || valid_nameb r)) (splits q)) (map_to_list F).

Lemma files_ok_wf (F : files) : files_ok F = true -> files_wf F.
Proof.
  intros Hok. assert (∀ q b, F !! q = Some b -> strlen q <= 4095 ∧ ∀ p r, (p, r) ∈ splits q ->
    (p = [] ∨ F !! p = Some true) ∧ (SLASH ∈ r ∨ valid_name r)) as Hall.
  { intros q b Hq%elem_of_map_to_list. unfold files_ok in Hok. rewrite forallb_forall in Hok. apply list_elem_of_In in Hq. apply Hok in Hq.
    apply andb_true_iff in Hq as [Hl Hs]. split; [by apply Z.leb_le|]. intros p r Hr%list_elem_of_In. rewrite forallb_forall in Hs. apply Hs in Hr.
    apply andb_true_iff in Hr as [H1 H2]. apply orb_true_iff in H1 as [H1%bool_decide_eq_true|H1%bool_decide_eq_true]; (split; [auto|]);
      (apply orb_true_iff in H2 as [H2%bool_decide_eq_true|H2]; [by left|right; by apply valid_nameb_spec]). }
  split.
  - intros p q b Hq [r ->]. apply (proj2 (Hall _ _ Hq) p r), splits_spec.
  - intros p n b Hq Hs. destruct (Hall _ _ Hq) as [_ H2]. destruct (H2 p n (splits_spec p n)) as [_ [Hx|Hx]]; [by destruct Hs|done].
  - intros q b Hq. by apply (Hall _ _ Hq).
Qed.

(** A prefix with a file and a directory of files. *)
Definition example_files : files := <[s2c "/p" := true]> (<[s2c "/p/var" := true]> (<[s2c "/p/var/tmp" := true]> (<[s2c "/p/var/tmp/a" := true]>
  (<[s2c "/p/var/tmp/a/b" := false]> (<[s2c "/p/x" := false]> ∅))))).


(** ** The release of the kernel *)

Definition RELEASE_DOT : cstr := s2c ".".

Lemma strtol_word w r : digits w -> dec_value w < 256 -> (∀ c, head r = Some c -> isdigit c = false) -> strtol_10 (w ++ r) = (dec_value w, r).
Proof.
  intros [_ Hw] Hv Hr. unfold strtol_10. rewrite scan_digits_app by done. fold (dec_value w). by rewrite Z.min_l by lia.
Qed.

Lemma scan_digits_nonneg v w : 0 <= v -> 0 <= (scan_digits v w).1.
Proof.
  revert v. induction w as [|c w IH]; intros v Hv; simpl; [done|]. destruct (isdigit c) eqn:Hc; [|done]. apply IH.
  unfold isdigit in Hc. lia.
Qed.

Lemma lor_shift a b : 0 <= b < 256 -> Z.lor (Z.shiftl a 8) b = a * 256 + b.
Proof.
  intros Hb. assert (Z.land (Z.shiftl a 8) b = 0) as H0.
  { apply Z.bits_inj'. intros i Hi. rewrite Z.land_spec, Z.bits_0, Z.shiftl_spec by done. destruct (Z.ltb_spec i 8).
    - by rewrite Z.testbit_neg_r by lia.
    - rewrite (proj1 (Z.bounded_iff_bits_nonneg 8 b (ltac:(lia)) (proj1 Hb)) (proj2 Hb)) by lia. apply andb_false_r. }
  rewrite <- Z.lxor_lor, <- Z.add_nocarry_lxor by done. by rewrite Z.shiftl_mul_pow2.
Qed.

(** One number and the character behind it. *)
Lemma release_word fuel w r version n : digits w -> dec_value w < 256 -> (∀ c, head r = Some c -> isdigit c = false) -> (n < 3)%nat ->
  0 <= version < 2 ^ 16 -> release_loop (S fuel) (w ++ r) version n = release_loop fuel r (version * 256 + dec_value w) (S n).
Proof.
  intros Hw Hv Hr Hn Hver. pose proof (scan_digits_nonneg 0 w (Z.le_refl _)) as H0. fold (dec_value w) in H0.
  pose proof (strtol_word w r Hw Hv Hr) as E. destruct Hw as [Hne Hall].
  destruct w as [|c w]; [done|]. apply Forall_cons in Hall as [Hc _]. cbn [app release_loop] in *.
  rewrite (proj2 (Nat.leb_gt _ _)) by lia. rewrite Hc, E. f_equal.
  rewrite (u32_id (Z.shiftl version 8)) by (rewrite Z.shiftl_mul_pow2 by lia; lia). rewrite lor_shift by lia. apply u32_id. lia.
Qed.

Lemma release_dot fuel r version n : (n < 3)%nat -> release_loop (S fuel) (RELEASE_DOT ++ r) version n = release_loop fuel r version n.
Proof. intros Hn. cbn [RELEASE_DOT s2c String.list_ascii_of_string app release_loop]. by rewrite (proj2 (Nat.leb_gt _ _)) by lia. Qed.

Lemma release_done fuel p version : release_loop fuel p version 3 = version.
Proof. by destruct fuel, p. Qed.

(** The version of a kernel "a.b.c..." as a number, for parts below 256. *)
Theorem linux_release_value a b c r : Forall digits [a; b; c] -> Forall (λ w, dec_value w < 256) [a; b; c] ->
  (∀ x, head r = Some x -> isdigit x = false) ->
  linux_release (Some (a ++ RELEASE_DOT ++ b ++ RELEASE_DOT ++ c ++ r)) = LINUX_RELEASE (dec_value a) (dec_value b) (dec_value c).
Proof.
  intros Hd Hv Hr. repeat (apply Forall_cons in Hd as [? Hd]; apply Forall_cons in Hv as [? Hv]).
  pose proof (scan_digits_nonneg 0 a (Z.le_refl _)). pose proof (scan_digits_nonneg 0 b (Z.le_refl _)). pose proof (scan_digits_nonneg 0 c (Z.le_refl _)).
  fold (dec_value a) in *. fold (dec_value b) in *. fold (dec_value c) in *.
  assert (∃ f, length (a ++ RELEASE_DOT ++ b ++ RELEASE_DOT ++ c ++ r) = S (S (S (S (S f))))) as [f Hf].
  { destruct a as [|? a], b as [|? b], c as [|? c]; try (by destruct (ltac:(assumption) : digits [])). exists (length (a ++ b ++ c ++ r)).
    rewrite !length_app. cbn [length RELEASE_DOT s2c String.list_ascii_of_string]. lia. }
  unfold linux_release. rewrite Hf.
  rewrite release_word; [|done|done|by intros ? [= <-]|lia|lia]. rewrite release_dot by lia.
  rewrite release_word; [|done|done|by intros ? [= <-]|lia|lia]. rewrite release_dot by lia.
  rewrite release_word; [|done|done|done|lia|lia]. rewrite release_done.
  unfold LINUX_RELEASE. replace (Z.shiftl (dec_value a) 16) with (Z.shiftl (Z.shiftl (dec_value a) 8) 8) by (by rewrite Z.shiftl_shiftl).
  rewrite <- Z.shiftl_lor, lor_shift, lor_shift by lia. lia.
Qed.

Lemma linux_release_value_witness : linux_release (Some (s2c "5.4.0-42-generic")) = LINUX_RELEASE 5 4 0.
Proof.
  apply (linux_release_value (s2c "5") (s2c "4") (s2c "0") (s2c "-42-generic")); [by repeat constructor|by repeat constructor|by intros x [= <-]].
Defined.

(** ** The group of a new prefix *)

Definition group_rule (c : cred) (X : Set) (e : hostE X) : Prop := match e with Fs (Mkdir _ _) => c_egid c = 0 | _ => True end.

(** The group is changed after the user, when the right to do so is gone: the
    directories of a new prefix belong to the group of root. *)
Theorem prefix_group_root prefix uid gid : prefix_accepted prefix = true -> uid ≠ 0 -> gid ≠ 0 ->
  safe (Discipline group_rule cred_answers (λ _ _, True) True) (setupPrefix_run prefix uid gid) root (λ _ _, True).
Proof.
  intros Hp Hu Hg. unfold setupPrefix_run. do 2 (apply safe_bind, safe_ask; [exact I|]; intros ? ? [-> _]).
  change (default root _) with (Cred 0 uid 0 0 0 0). rewrite as_user_answer. unfold as_user.
  rewrite (proj2 (Z.eqb_neq uid 0)), (proj2 (Z.eqb_neq gid 0)) by done. apply safe_bind.
  eapply safe_known; [apply (prefix_paths_fit prefix [] Hp)|]. apply safe_bind.
  eapply (safe_for_each _ _ _ (λ c, c_egid c = 0)); [done| |by intros c _; repeat rights_step].
  intros path c _ Hc. unfold createDir. apply safe_bind, safe_ask; [done|]. intros [errno|[mode st_uid]] ? [-> _]; [|by destruct (ISDIR mode)].
  destruct (errno =? LINUX_ENOENT); [|done]. apply safe_bind, safe_ask; [done|]. intros [r e] ? [-> _]. by destruct (r =? 0).
Qed.

Lemma prefix_group_root_witness :
  safe (Discipline group_rule cred_answers (λ _ _, True) True) (setupPrefix_run (s2c "/p") 1000 1000) root (λ _ _, True).
Proof. by apply (prefix_group_root (s2c "/p") 1000 1000). Defined.

(** ** The terminal *)

(** The attributes of the terminal on standard input, those that a function
    registered with [atexit] will set, and whether it could not be
    registered. *)
Record tty := Tty { t_attrs : linux_termios; t_hook : option linux_termios; t_unregistered : bool }.

(** A new descriptor is not that of standard input, which is open. *)
Definition tty_answers (s : tty) (X : Set) (e : hostE X) (x : X) (s' : tty) : Prop :=
  match e in hostE X return X -> Prop with
  | Tcgetattr fd => λ x, s' = s ∧ (fd = STDIN_FILENO -> ∀ t, x = Some t -> t = t_attrs s)
  | Tcsetattr fd t => λ x,
    if fd =? STDIN_FILENO then (x = 0 ∧ s' = Tty t (t_hook s) (t_unregistered s)) ∨ (x < 0 ∧ s' = s) else s' = s
  | Atexit_restore t => λ x, (x = 0 ∧ s' = Tty (t_attrs s) (Some t) (t_unregistered s)) ∨ (x ≠ 0 ∧ s' = Tty (t_attrs s) (t_hook s) true)
  | Posix_openpt _ => λ x, s' = s ∧ x ≠ STDIN_FILENO
  | _ => λ _, s' = s
  end x.

(** The attributes after the program, whose registered function runs at its
    end and sets them. *)
Definition after_exit (s : tty) : linux_termios := default (t_attrs s) (t_hook s).

(** They are [t], unless atexit failed. *)
Definition restored (t : linux_termios) (s : tty) : Prop := t_unregistered s = true ∨ after_exit s = t.

Definition terminal (t : linux_termios) : discipline tty := Discipline (λ _ _ _, True) tty_answers (λ s _, restored t s) True.

Ltac tty_step :=
  lazymatch goal with
  | |- safe _ (_ ≫= _) _ _ => apply safe_bind
  | |- safe _ (mret _) _ _ => apply safe_ret
  | |- safe _ (ask _) _ _ => apply safe_ask; [exact I|intros ? ? ->]
  | |- safe _ (Exit _) _ _ => assumption
  | |- safe _ Spent _ _ => exact I
  | |- safe _ (if ?b then _ else _) _ _ => destruct b eqn:?
  | |- safe _ (match ?b with Some _ => _ | None => _ end) _ _ => destruct b eqn:?
  end; cbv beta.

Section Terminal.
Context `{LoopFuel} (w : world) (prefix : cstr) (uid gid : Z) (t : linux_termios).
Abbreviation T := (terminal t).
Implicit Types Q : unit -> tty -> Prop.

Lemma shellLoop_tty sockfd master s Q : restored t s -> Q tt s -> safe T (shellLoop sockfd master) s Q.
Proof.
  intros Hs HQ. assert (∀ fuel Q, Q tt s -> safe T (copy_master fuel master) s Q) as Hm.
  { intros fuel. induction fuel as [|fuel IH]; intros Q' HQ'; cbn [copy_master]; [done|]. repeat tty_step; auto. }
  assert (∀ fuel Q, Q tt s -> safe T (copy_stdin fuel master) s Q) as Hi.
  { intros fuel. induction fuel as [|fuel IH]; intros Q' HQ'; cbn [copy_stdin]; [done|]. repeat tty_step; auto. }
  unfold shellLoop. tty_step. apply (safe_for_each _ _ _ (λ s', s' = s)); [done|intros ? ? _ ->; by repeat tty_step|intros ? ->].
  tty_step. apply (safe_mono _ _ _ (λ _ s', s' = s)); [by repeat tty_step|]. intros _ ? ->. do 4 tty_step.
  generalize (loop_fuel) at 1. intros fuel. induction fuel as [|fuel IH]; cbn [shell_loop]; [done|]. apply safe_bind, safe_ask; [done|]. intros [[r errno] revents] ? ->.
  tty_step; [done|]. tty_step. apply (safe_mono _ _ _ (λ _ s', s' = s)); [tty_step; [by apply Hm|done]|]. intros _ ? ->.
  tty_step. apply (safe_mono _ _ _ (λ _ s', s' = s)); [tty_step; [by apply Hi|done]|]. intros _ ? ->. by repeat tty_step.
Qed.

Lemma openpty_tty (tos : linux_termios) s (Q : option (Z * Z) -> tty -> Prop) : (∀ r, Q r s) -> safe T (openpty_darling tos) s Q.
Proof.
  intros HQ. unfold openpty_darling. apply safe_bind, safe_ask; [done|]. intros amaster ? [-> Hne]. do 8 (try tty_step); try apply HQ.
  repeat tty_step; try apply HQ. apply safe_ask; [done|]. intros r s' Hr. cbn in Hr. rewrite (proj2 (Z.eqb_neq _ _) Hne) in Hr. subst s'. apply HQ.
Qed.

Lemma setupPtys_tty (Q : list Z * Z -> tty -> Prop) : (∀ p s, restored t s -> Q p s) -> safe T (setupPtys w) (Tty t None false) Q.
Proof.
  intros HQ. unfold setupPtys. apply safe_bind, safe_ask; [done|]. intros attrs ? [-> Ha]. tty_step. apply openpty_tty. intros [[master slave]|]; [|by right].
  tty_step. destruct attrs as [t'|]; [|by apply HQ; right]. rewrite (Ha eq_refl t' eq_refl). do 3 tty_step. apply safe_ask; [done|].
  intros r s' [[-> ->]|[Hr ->]].
  - change (0 <? 0) with false. cbv iota. do 3 tty_step. apply safe_ask; [done|]. intros ? s2 [[_ ->]|[_ ->]]; apply safe_ret, HQ; [by right|by left].
  - rewrite (proj2 (Z.ltb_lt _ _)) by done. by right.
Qed.

Lemma push_tty sockfd msg s Q : restored t s -> Q tt s -> safe T (push sockfd msg) s Q.
Proof. intros Hs HQ. unfold push. by repeat tty_step. Qed.

Lemma shell_fds_tty (Q : list Z * Z -> tty -> Prop) : (∀ p s, restored t s -> Q p s) -> safe T (shell_fds w) (Tty t None false) Q.
Proof.
  intros HQ. unfold shell_fds. do 2 tty_step. tty_step. apply (safe_mono _ _ _ (λ _ s, restored t s)).
  { tty_step; [by apply setupPtys_tty|repeat tty_step; by right]. }
  intros [fds master] s Hs. by destruct (master =? -1); repeat tty_step; apply HQ.
Qed.

Lemma spawnShell_tty argv : strlen prefix <= 83 -> argv ≠ Some [] ->
  safe T (spawnShell w prefix uid gid argv) (Tty t None false) (λ _ s, restored t s).
Proof.
  intros Hp Ha. unfold spawnShell. tty_step.
  destruct (shell_buffer argv Ha) as [buffer Hb].
  assert (restored t (Tty t None false)) as H0 by by right.
  eapply safe_known; [exact Hb|]. tty_step. eapply safe_known; [by apply socket_path_bounds|]. do 2 tty_step. tty_step; [done|]. do 2 tty_step. tty_step; [done|].
  tty_step. apply push_tty; [done|]. tty_step. apply push_tty; [done|]. do 2 tty_step. tty_step; [|done]. tty_step. apply push_tty; [done|]. tty_step.
  apply (safe_mono _ _ _ (λ _ s, s = Tty t None false)). { tty_step; [|done]. tty_step. by do 2 (apply push_tty; [done|]). }
  intros _ ? ->. tty_step. apply push_tty; [done|]. tty_step. apply push_tty; [done|]. tty_step. apply shell_fds_tty. intros [fds master] s Hs.
  unfold push_fds. do 3 tty_step. tty_step; [done|]. do 4 tty_step. apply shellLoop_tty; [done|]. by repeat tty_step.
Qed.
End Terminal.

(** C30: for a prefix of at most 83 characters, and whatever calls before fail:
    when the session of a shell ends, by a return or by exit, the terminal the
    launcher was started on has the attributes it had before, provided that
    atexit, whose result is not looked at, could register the function that
    sets them and that the tcsetattr of that function succeeds: they are put
    back exactly when they were changed. *)
Theorem terminal_restored `{LoopFuel} w prefix uid gid t argv : strlen prefix <= 83 -> argv ≠ Some [] ->
  safe (terminal t) (spawnShell w prefix uid gid argv) (Tty t None false) (λ _ s, restored t s).
Proof. apply spawnShell_tty. Qed.

Lemma terminal_restored_witness : let t := LinuxTermios 0x500 5 0xbf 0x8a3b 0 (replicate 32 0) 15 15 in
  raw_termios t ≠ t ∧
  safe (terminal t) (spawnShell (H := 100%nat) example_world (s2c "/p") 1000 1000 None) (Tty t None false) (λ _ s, restored t s).
Proof. split; [by vm_compute|]. by apply (terminal_restored (H := 100%nat) example_world (s2c "/p") 1000 1000). Defined.

(** ** Copying *)

(** What was read from and written to the terminal's two sides, and the last
    answer of the daemon. *)
Record flow := Flow { from_shell : list ascii; to_screen : list ascii; from_keys : list ascii; to_shell : list ascii; answer : option (list ascii) }.

Section Flow.
Context (sockfd master : Z) (Hm : master ≠ STDIN_FILENO ∧ master ≠ STDOUT_FILENO ∧ master ≠ sockfd) (Hs : sockfd ≠ STDIN_FILENO).

Definition flow_answers (s : flow) (X : Set) (e : hostE X) (x : X) (s' : flow) : Prop :=
  match e in hostE X return X -> Prop with
  | Read fd n => λ x,
    let data := default [] x in
    s' = if fd =? master then Flow (from_shell s ++ data) (to_screen s) (from_keys s) (to_shell s) (answer s)
         else if fd =? STDIN_FILENO then Flow (from_shell s) (to_screen s) (from_keys s ++ data) (to_shell s) (answer s)
         else if fd =? sockfd then Flow (from_shell s) (to_screen s) (from_keys s) (to_shell s) x else s
  | Write fd bytes => λ _,
    s' = if fd =? master then Flow (from_shell s) (to_screen s) (from_keys s) (to_shell s ++ bytes) (answer s)
         else if fd =? STDOUT_FILENO then Flow (from_shell s) (to_screen s ++ bytes) (from_keys s) (to_shell s) (answer s) else s
  | _ => λ _, s' = s
  end x.

Definition level (s : flow) : Prop := to_screen s = from_shell s ∧ to_shell s = from_keys s.

Definition copying : discipline flow :=
  Discipline (λ s X e, match e with Poll _ => level s | _ => True end) flow_answers
    (λ s st, level s ∧ (st = 1 ∨ ∃ bytes, answer s = Some bytes ∧ length bytes = 4%nat ∧ st = s32 (bytes_value bytes))) True.

Ltac flow_in H := cbv beta iota zeta delta [answers copying flow_answers] in H.

Lemma copy_master_flow fuel s : level s -> safe copying (copy_master fuel master) s (λ _, level).
Proof.
  revert s. induction fuel as [|fuel IH]; intros s Hl; cbn [copy_master]; [done|]. apply safe_bind, safe_ask; [done|]. intros rd s1 Hr.
  flow_in Hr. rewrite Z.eqb_refl in Hr. set (data := default [] rd) in *. cbv zeta. apply safe_bind.
  apply (safe_mono _ _ _ (λ _, level)); [|intros _ s2 Hl2; destruct (_ =? BUF_SIZE); [by apply IH|done]].
  destruct (Z.ltb_spec 0 (Z.of_nat (length data))) as [Hlen|Hlen].
  - apply safe_bind, safe_ask; [done|]. intros ? s2 Hw. flow_in Hw. destruct Hm as (_ & Hm1 & _).
    rewrite (proj2 (Z.eqb_neq STDOUT_FILENO master)), Z.eqb_refl in Hw by done. rewrite Hw, Hr. destruct Hl as [H1 H2]. split; [|done]. cbn. by rewrite H1.
  - apply safe_ret. rewrite Hr. destruct data; [|cbn in Hlen; lia]. rewrite app_nil_r. by destruct s.
Qed.

Lemma copy_stdin_flow fuel s : level s -> safe copying (copy_stdin fuel master) s (λ _, level).
Proof.
  revert s. induction fuel as [|fuel IH]; intros s Hl; cbn [copy_stdin]; [done|]. apply safe_bind, safe_ask; [done|]. intros rd s1 Hr.
  flow_in Hr. destruct Hm as (Hm0 & _ & _). rewrite (proj2 (Z.eqb_neq STDIN_FILENO master)), Z.eqb_refl in Hr by done.
  set (data := default [] rd) in *. cbv zeta. apply safe_bind.
  apply (safe_mono _ _ _ (λ _, level)); [|intros _ s2 Hl2; destruct (_ =? BUF_SIZE); [by apply IH|done]].
  destruct (Z.ltb_spec 0 (Z.of_nat (length data))) as [Hlen|Hlen].
  - apply safe_bind, safe_ask; [done|]. intros ? s2 Hw. flow_in Hw. rewrite Z.eqb_refl in Hw. rewrite Hw, Hr. destruct Hl as [H1 H2].
    split; [done|]. cbn. by rewrite H2.
  - rewrite Hr. destruct data; [|cbn in Hlen; lia]. rewrite app_nil_r. split; [by destruct s|by left].
Qed.

Lemma shell_loop_flow `{LoopFuel} fuel s : level s -> safe copying (shell_loop fuel sockfd master) s (λ _, level).
Proof.
  revert s. induction fuel as [|fuel IH]; intros s Hl; cbn [shell_loop]; [done|]. apply safe_bind, safe_ask; [done|].
  intros [[r errno] revents] ? ->. destruct (_ && _); [done|]. apply safe_bind.
  apply (safe_mono _ _ _ (λ _, level)); [destruct (_ && _); [by apply copy_master_flow|done]|]. intros _ s1 Hl1. apply safe_bind.
  apply (safe_mono _ _ _ (λ _, level)); [destruct (_ && _); [by apply copy_stdin_flow|done]|]. intros _ s2 Hl2. destruct (has _ _); [|by apply IH].
  apply safe_bind, safe_ask; [done|]. intros status s3 Hr. flow_in Hr. destruct Hm as (_ & _ & Hm2).
  rewrite (proj2 (Z.eqb_neq sockfd master)), (proj2 (Z.eqb_neq sockfd STDIN_FILENO)), Z.eqb_refl in Hr by done.
  assert (level s3) as Hl3 by (by rewrite Hr). destruct status as [bytes|]; [|by split; [|left]].
  destruct (Nat.eqb_spec (length bytes) 4); [|by split; [|left]]. split; [done|]. right. exists bytes. by rewrite Hr.
Qed.
End Flow.

(** What the shell writes appears on the screen and what is typed reaches the
    shell, byte for byte and in order, before the launcher waits again or ends;
    it ends with the status the daemon sends, or with 1. *)
Theorem session_copied `{LoopFuel} sockfd master :
  master ≠ STDIN_FILENO ∧ master ≠ STDOUT_FILENO ∧ master ≠ sockfd -> sockfd ≠ STDIN_FILENO ->
  safe (copying sockfd master) (shellLoop sockfd master) (Flow [] [] [] [] None) (λ _, level).
Proof.
  intros Hm Hs. unfold shellLoop. apply safe_bind. apply (safe_for_each _ _ _ level); [done| |].
  - intros i s _ Hl. apply safe_bind, safe_ask; [done|]. by intros ? ? ->.
  - intros s Hl. apply safe_bind, (safe_mono _ _ _ (λ _, level)).
    { destruct (master =? -1); [done|]. apply safe_bind, safe_ask; [done|]. by intros ? ? ->. }
    intros _ s1 Hl1. do 2 (apply safe_bind, safe_ask; [done|]; intros ? ? ->). by apply shell_loop_flow.
Qed.

Lemma session_copied_witness : safe (copying 3 4) (shellLoop (H := 10%nat) 3 4) (Flow [] [] [] [] None) (λ _, level).
Proof. by apply (session_copied (H := 10%nat) 3 4). Defined.

(** ** What is sent *)

(** A message is taken whole or not at all. *)
Definition send_answers (log : stream) (X : Set) (e : hostE X) (x : X) (log' : stream) : Prop :=
  match e in hostE X return X -> Prop with
  | Send _ s => λ x, (x = Z.of_nat (length s) ∧ log' = log ++ s) ∨ (x < 0 ∧ log' = log)
  | _ => λ _, log' = log
  end x.

Section Sent.
Context `{LoopFuel} (w : world) (prefix : cstr) (uid gid : Z) (argv : option (list cstr)).

Definition request_sent (log : stream) : Prop :=
  ∃ id login fds, user_name w id = Some login ∧ length fds = 3%nat ∧ shell_messages argv login (w_cwd w) uid gid fds = Some log.

(** By the time the launcher waits, the request is complete. *)
Definition sending : discipline stream :=
  Discipline (λ log X e, match e with Poll _ => request_sent log | _ => True end) send_answers (λ _ _, True) True.

Ltac send_step :=
  lazymatch goal with
  | |- safe _ (_ ≫= _) _ _ => apply safe_bind
  | |- safe _ (mret _) _ _ => apply safe_ret
  | |- safe _ (ask _) _ _ => apply safe_ask; [exact I|intros ? ? ->]
  | |- safe _ (Exit _) _ _ => exact I
  | |- safe _ Spent _ _ => exact I
  | |- safe _ (if ?b then _ else _) _ _ => destruct b eqn:?
  | |- safe _ (match ?b with Some _ => _ | None => _ end) _ _ => destruct b eqn:?
  end; cbv beta.

Lemma push_sent sockfd msg log (Q : unit -> stream -> Prop) : Q tt (log ++ msg) -> safe sending (push sockfd msg) log Q.
Proof.
  intros HQ. unfold push. apply safe_bind, safe_ask; [done|]. intros r log' [[-> ->]|[Hr ->]]; [by rewrite Z.eqb_refl|].
  rewrite (proj2 (Z.eqb_neq _ _)) by lia. done.
Qed.

Lemma push_fds_sent sockfd fds log (Q : unit -> stream -> Prop) :
  Q tt (log ++ pushShellspawnCommandFDs SHELLSPAWN_GO fds) -> safe sending (push_fds sockfd fds) log Q.
Proof.
  intros HQ. unfold push_fds. apply safe_bind, safe_ask; [done|]. intros r log' [[-> ->]|[Hr ->]].
  - by rewrite (proj2 (Z.ltb_ge _ _)) by lia.
  - by rewrite (proj2 (Z.ltb_lt _ _)) by lia.
Qed.

Lemma shell_fds_sent log (Q : list Z * Z -> stream -> Prop) :
  (∀ fds master, length fds = 3%nat -> Q (fds, master) log) -> safe sending (shell_fds w) log Q.
Proof.
  intros HQ. unfold shell_fds. do 3 send_step. apply (safe_mono _ _ _ (λ p log', length p.1 = 3%nat ∧ log' = log)).
  { send_step; [|by repeat send_step]. unfold setupPtys, openpty_darling. repeat send_step; try done. all: repeat (destruct (_ : Z * Z)); repeat send_step; done. }
  intros [fds master] ? [Hl ->]. destruct (master =? -1); repeat send_step; apply HQ; repeat case_match; by rewrite ?length_insert.
Qed.

Lemma shellLoop_sent sockfd master log : request_sent log -> safe sending (shellLoop sockfd master) log (λ _ _, True).
Proof.
  intros Hlog. assert (∀ fuel, safe sending (copy_master fuel master) log (λ _ log', log' = log)) as Hm.
  { intros fuel. induction fuel as [|fuel IH]; cbn [copy_master]; [done|]. repeat send_step; auto. }
  assert (∀ fuel, safe sending (copy_stdin fuel master) log (λ _ log', log' = log)) as Hi.
  { intros fuel. induction fuel as [|fuel IH]; cbn [copy_stdin]; [done|]. repeat send_step; auto. }
  unfold shellLoop. send_step. apply (safe_for_each _ _ _ (λ l, l = log)); [done|intros ? ? _ ->; by repeat send_step|intros ? ->].
  send_step. apply (safe_mono _ _ _ (λ _ l, l = log)); [by repeat send_step|]. intros _ ? ->. do 4 send_step.
  generalize (loop_fuel) at 1. intros fuel. induction fuel as [|fuel IH]; cbn [shell_loop]; [done|].
  apply safe_bind, safe_ask; [done|]. intros [[r errno] revents] ? ->. send_step; [done|]. send_step.
  apply (safe_mono _ _ _ (λ _ l, l = log)); [send_step; [apply Hm|done]|]. intros _ ? ->.
  send_step. apply (safe_mono _ _ _ (λ _ l, l = log)); [send_step; [apply Hi|done]|]. intros _ ? ->. by repeat send_step.
Qed.

Lemma spawnShell_sent : strlen prefix <= 83 -> argv ≠ Some [] -> safe sending (spawnShell w prefix uid gid argv) [] (λ _ _, True).
Proof.
  intros Hp Ha. unfold spawnShell. send_step. destruct (shell_buffer argv Ha) as [buffer Hb]. eapply safe_known; [exact Hb|].
  send_step. eapply safe_known; [by apply socket_path_bounds|]. do 2 send_step. send_step; [done|]. do 2 send_step. send_step; [done|].
  send_step. apply push_sent. send_step. apply push_sent. apply safe_bind, safe_ask; [done|]. intros id ? ->. destruct (user_name w id) as [login|] eqn:Hlogin; [|done].
  send_step. apply push_sent. send_step.
  apply (safe_mono _ _ _ (λ _ log, ∃ args, log = pushShellspawnCommand SHELLSPAWN_SETENV (Some (s2c "PATH=/usr/bin:/bin:/usr/sbin:/sbin:/usr/local/bin")) ++
      pushShellspawnCommand SHELLSPAWN_SETENV (Some (s2c "TMPDIR=/private/tmp")) ++
      pushShellspawnCommand SHELLSPAWN_SETENV (Some (snprintf_text 4096 (s2c "HOME=/Users/" ++ login))) ++ args ∧
    match argv with
    | None => Some []
    | Some argv => buffer ← command_buffer argv;
      Some (pushShellspawnCommand SHELLSPAWN_ADDARG (Some (s2c "-c")) ++ pushShellspawnCommand SHELLSPAWN_ADDARG (Some buffer))
    end = Some args)).
  { destruct argv as [a|].
    - destruct (command_buffer a) as [text|]; [|done]. injection Hb as <-. send_step. apply push_sent, push_sent. eexists.
      split; [|reflexivity]. rewrite app_nil_l. by rewrite <- !app_assoc.
    - injection Hb as <-. send_step. exists []. split; [|done]. rewrite app_nil_l, app_nil_r. by rewrite <- !app_assoc. }
  intros _ log (args & -> & Hargs). send_step. apply push_sent. send_step. apply push_sent. send_step. apply shell_fds_sent. intros fds master Hf.
  send_step. apply push_fds_sent. do 3 send_step.
  apply (safe_mono _ _ _ (λ _ _, True)); [|intros _ log' _; by repeat send_step]. apply shellLoop_sent. exists id, login, fds. split_and!; [done|done|].
  unfold shell_messages. rewrite Hargs. cbn [mbind option_bind]. f_equal. by rewrite <- !app_assoc.
Qed.
End Sent.

(** Before the launcher waits for the shell, the daemon was sent exactly one
    request: the messages of [shell_messages], in order, for three
    descriptors. *)
Theorem request_before_waiting `{LoopFuel} w prefix uid gid argv : strlen prefix <= 83 -> argv ≠ Some [] ->
  safe (sending w uid gid argv) (spawnShell w prefix uid gid argv) [] (λ _ _, True).
Proof. apply spawnShell_sent. Qed.

Lemma request_before_waiting_witness : let argv := Some [s2c "ls"; s2c "-l"] in
  safe (sending example_world 1000 1000 argv) (spawnShell (H := 100%nat) example_world (s2c "/p") 1000 1000 argv) [] (λ _ _, True).
Proof. by apply (request_before_waiting (H := 100%nat) example_world (s2c "/p") 1000 1000). Defined.

(** ** Ownership of the directories *)

Section Owners.
Context (uid gid : Z) (F : files) (Hwf : files_wf F).

(** The files do not change; the state is the list of paths given away. *)
Definition owner_answers (L : list cstr) (X : Set) (e : hostE X) (x : X) (L' : list cstr) : Prop :=
  match e in hostE X return X -> Prop with
  | Opendir p => λ x, L' = L ∧ match x with Some ents => exact_listing F p ents | None => F !! p ≠ Some true end
  | Chown p _ _ => λ _, L' = L ++ [p]
  | _ => λ _, L' = L
  end x.

Definition owners : discipline (list cstr) :=
  Discipline (λ _ X e, match e with Chown _ u g => u = uid ∧ g = gid | _ => True end) owner_answers (λ _ _, True) False.

(** The directories [P], each once. *)
Definition dirs_once (P : cstr -> Prop) (D : list cstr) : Prop := NoDup D ∧ ∀ q, q ∈ D <-> P q ∧ F !! q = Some true.

Lemma dirs_once_add p names n D E : n ∉ names -> valid_name n -> (∀ m, m ∈ names -> valid_name m) -> F !! child p n = Some true ->
  dirs_once (entries_of p names) D -> dirs_once (below (child p n)) E -> dirs_once (entries_of p (n :: names)) (D ++ E ++ [child p n]).
Proof.
  intros Hn Hv Hvs HF [HD1 HD2] [HE1 HE2]. split.
  - apply NoDup_app. split; [done|]. split.
    + intros q HqD Hc. apply HD2 in HqD as [(m & Hm & Hq) _]. assert (q = child p n ∨ below (child p n) q) as Hqn.
      { apply elem_of_app in Hc as [Hb|Hc]; [apply HE2 in Hb as [Hb _]; by right|apply list_elem_of_singleton in Hc; by left]. }
      destruct Hqn as [->|Hb]; [eapply (entries_other p names n); [done..|by exists m]|].
      destruct Hq as [->|Hq]; [eapply (entries_other p [n] m); [by apply Hvs|set_solver|exists n; set_solver]|].
      destruct Hb as [r1 ->], Hq as [r2 Hr]. assert (n = m) as ->; [|done]. unfold child in Hr. rewrite <- !app_assoc in Hr. apply app_inv_head in Hr.
      injection Hr as Hr. destruct Hv as (_ & Hs1 & _), (Hvs m Hm) as (_ & Hs2 & _). clear -Hr Hs1 Hs2. revert m Hr Hs2.
      induction n as [|c n IH]; intros [|d m] Hr Hs2; [done| | |].
      * injection Hr as <- _. set_solver.
      * injection Hr as -> _. set_solver.
      * injection Hr as -> Hr. f_equal. apply IH; [set_solver|done|set_solver].
    + apply NoDup_app. split; [done|]. split; [|apply NoDup_singleton]. intros q Hb Hq. apply list_elem_of_singleton in Hq. apply HE2 in Hb as [Hb _]. subst q. by eapply not_below_self.
  - intros q. rewrite !elem_of_app, list_elem_of_singleton, HD2, HE2. split.
    + intros [[(m & Hm & Hq) Hd]|[[Hb Hd]| ->]]; (split; [|done]); [exists m; set_solver|exists n; set_solver..].
    + intros [(m & Hm & Hq) Hd]. apply elem_of_cons in Hm as [->|Hm]; [|left; split; [by exists m|done]]. destruct Hq as [->|Hq]; auto.
Qed.

(** The loop over a listing: [names] are the entries that were treated. *)
Section Loop.
Context (fuel : nat) (p : cstr) (ents : list (cstr * Z)) (L : list cstr) (Q : unit -> list cstr -> Prop).
Context (Hp : p ≠ []) (Hfuel : 4096 <= strlen p + Z.of_nat (S fuel)) (Hlist : exact_listing F p ents).
Context (Hrec : ∀ p L Q, p ≠ [] -> strlen p <= 4095 -> 4096 <= strlen p + Z.of_nat fuel ->
  (∀ D, dirs_once (below p) D -> Q tt (L ++ D)) -> safe owners (fixDirectoryPermissions uid gid fuel p) L Q).
Context (HQ : ∀ D, dirs_once (below p) D -> Q tt (L ++ D)).

Definition owner_entry (ent : cstr * Z) : io unit :=
  if ent.2 =? DT_DIR then
    if dot_or_dotdot ent.1 then mret tt
    else
      let subdir := p ++ s2c "/" ++ ent.1 in
      fixDirectoryPermissions uid gid fuel subdir;; ask (Chown subdir uid gid);; mret tt
  else mret tt.

Lemma owners_all D names : (∀ n, valid_name n -> F !! child p n = Some true -> n ∈ names) -> dirs_once (entries_of p names) D -> dirs_once (below p) D.
Proof.
  intros Hc [HD1 HD2]. split; [done|]. intros q. rewrite HD2. split; intros [Hq Hdir]; (split; [|done]).
  - destruct Hq as (n & _ & [->|Hq]); [by exists n|by eapply below_sub].
  - destruct (entry_above F p q true Hwf Hp Hdir Hq) as (n & b' & Hvn & Hn & Hqn). exists n. split; [|done]. apply Hc; [done|].
    destruct Hqn as [->|Hqn]; [done|]. destruct (fw_above F Hwf _ _ _ Hdir Hqn) as [Hnil|]; [by destruct p|done].
Qed.

(** An entry that is not a directory, or is "." or "..". *)
Lemma skipped n t m : (n, t) ∈ ents -> dot_or_dotdot n = true ∨ t ≠ DT_DIR -> valid_name m -> F !! child p m = Some true -> m ≠ n.
Proof.
  destruct Hlist as (_ & Hin & _). intros Hel Hskip (_ & _ & Hm) Hd ->. destruct (Hin n t Hel) as [Hx|[_ HFn]]; [by rewrite Hm in Hx|].
  destruct Hskip as [Hx|Ht]; [by rewrite Hm in Hx|]. rewrite Hd in HFn. injection HFn as HFn. symmetry in HFn. by apply Z.eqb_eq in HFn.
Qed.

Lemma owners_loop l names D : l.*1 ## names -> NoDup l.*1 -> (∀ n t, (n, t) ∈ l -> (n, t) ∈ ents) -> dirs_once (entries_of p names) D ->
  (∀ n, valid_name n -> F !! child p n = Some true -> n ∈ l.*1 ∨ n ∈ names) -> (∀ n, n ∈ names -> valid_name n) ->
  safe owners (for_each owner_entry l) (L ++ D) Q.
Proof.
  revert names D. induction l as [|[n t] l IHl]; intros names D Hdis Hd Hsub HD Hc Hv; cbn [for_each].
  - apply safe_ret, HQ. eapply owners_all; [|done]. intros n Hn Hnd. by destruct (Hc n Hn Hnd) as [?%elem_of_nil|].
  - cbn in Hd. apply NoDup_cons in Hd as [Hn Hd]. assert ((n, t) ∈ ents) as Hel by (apply Hsub; set_solver).
    assert (dot_or_dotdot n = true ∨ t ≠ DT_DIR -> ∀ m, valid_name m -> F !! child p m = Some true -> m ∈ l.*1 ∨ m ∈ names) as Hskip.
    { intros Hx m Hm Hmd. pose proof (skipped n t m Hel Hx Hm Hmd). destruct (Hc m Hm Hmd) as [Hm'|]; [|by right]. cbn in Hm'. set_solver. }
    apply safe_bind. unfold owner_entry. cbn [fst snd].
    destruct (Z.eqb_spec t DT_DIR) as [->|Ht]; [|apply safe_ret, (IHl names); [set_solver|done|set_solver|done|by apply Hskip; right|done]].
    destruct (dot_or_dotdot n) eqn:Ed; [apply safe_ret, (IHl names); [set_solver|done|set_solver|done|by apply Hskip; left|done]|].
    destruct Hlist as (_ & Hin & _). destruct (Hin n DT_DIR Hel) as [Hx|[Hvn HFn]]; [by rewrite Hx in Ed|]. rewrite Z.eqb_refl in HFn. fold (child p n).
    pose proof (fw_short F Hwf _ _ HFn) as Hs. pose proof (strlen_child p n). pose proof (strlen_nonneg n).
    apply safe_bind, Hrec; [intros Hx; by destruct p|lia|lia|]. intros E HE. apply safe_bind, safe_ask; [done|]. intros ? ? ->. apply safe_ret.
    rewrite <- !app_assoc. apply (IHl (n :: names)); [set_solver|done|set_solver|by apply dirs_once_add; [set_solver|..]| |set_solver].
    intros m Hm Hmd. destruct (Hc m Hm Hmd) as [Hel'|]; [|set_solver]. cbn in Hel'. set_solver.
Qed.
End Loop.

Lemma dirs_once_none (P : cstr -> Prop) : (∀ q, P q -> F !! q ≠ Some true) -> dirs_once P [].
Proof. intros H. split; [constructor|]. intros q. split; [by intros ?%elem_of_nil|]. intros [Hq Hd]. by destruct (H q Hq). Qed.

Lemma owners_run fuel p L (Q : unit -> list cstr -> Prop) : p ≠ [] -> strlen p <= 4095 -> 4096 <= strlen p + Z.of_nat fuel ->
  (∀ D, dirs_once (below p) D -> Q tt (L ++ D)) -> safe owners (fixDirectoryPermissions uid gid fuel p) L Q.
Proof.
  revert p L Q. induction fuel as [|fuel IH]; intros p L Q Hp Hlen Hfuel HQ; [lia|]. cbn [fixDirectoryPermissions].
  apply safe_bind, safe_ask; [done|]. intros [ents|] ? [-> Hx]; rewrite <- (app_nil_r L).
  - destruct (Hx) as (Hnd & _ & Hall).
    apply (owners_loop fuel p ents L Q Hp Hfuel Hx IH HQ ents []); [set_solver|done|done| |by left; eapply Hall|set_solver].
    apply dirs_once_none. by intros q (n & ?%elem_of_nil & _).
  - apply HQ, dirs_once_none. intros q Hb Hq. by destruct (fw_above F Hwf _ _ _ Hq Hb).
Qed.
End Owners.

(** When a prefix is made, every directory below it, and nothing else, is given
    to the user, once, and the recursion ends. *)
Theorem directories_given `{LoopFuel} (uid gid : Z) (F : files) (prefix : cstr) : files_wf F -> prefix ≠ [] -> strlen prefix <= 255 -> (4096 <= loop_fuel)%nat ->
  safe (owners uid gid F) (fixDirectoryPermissions uid gid loop_fuel prefix) [] (λ _, dirs_once F (below prefix)).
Proof. intros Hwf Hp Hlen Hfuel. pose proof (strlen_nonneg prefix). apply owners_run; [done|done|lia|lia|]. by intros D HD. Qed.

Lemma directories_given_witness : safe (owners 1000 1000 example_files)
  (fixDirectoryPermissions 1000 1000 (Z.to_nat 4096) (s2c "/p")) [] (λ _, dirs_once example_files (below (s2c "/p"))).
Proof.
  apply (directories_given (H := Z.to_nat 4096) 1000 1000 example_files (s2c "/p")); [apply files_ok_wf; by vm_compute|done|by vm_compute|].
  apply Nat.leb_le. by vm_compute.
Defined.
