(* ===== verification/Shellspawn.v ===== *)
(** * The shell daemon

    shellspawn/shellspawn.c: the daemon listens on a socket in the prefix,
    forks for every connection, reads the request ([daemon_start] of
    [Launcher]), starts bash on the descriptors of the request, relays signals
    until the shell or the connection ends, kills and reaps the shell and sends
    its exit status.

    [sock] is everything the client sends until it closes the connection.  The
    effects of the request on the process (environment, directory) are members
    of [shell]. *)
From S2P Require Import Prelude Abi Linux Errno Base Simple Signals Process Fcntl Launcher Host Startup StartupProofs.

Definition EVFILT_READ : Z := -1.
Definition EVFILT_PROC : Z := -5.
Definition NOTE_EXIT : Z := 0x80000000.
Definition EXIT_SUCCESS : Z := 0.
Definition EXIT_FAILURE : Z := 1.

(** [WEXITSTATUS] of Darwin. *)
Definition DARWIN_WEXITSTATUS (status : Z) : Z := Z.land (Z.shiftr status 8) 0xff.

(** [SA_NOCLDWAIT] for SIGCHLD. *)
Definition setupSigchild : io unit := ask (Sigaction SIGCHLD);; mret tt.

Definition setupSocket : io Z :=
  s ← ask Socket;
  if s =? -1 then Exit EXIT_FAILURE
  else
    ask (Fcntl s F_SETFD FD_CLOEXEC);;
    ask (Fs (Unlink SHELLSPAWN_SOCKPATH));;
    r ← ask (Bind s SHELLSPAWN_SOCKPATH);
    if r =? -1 then Exit EXIT_FAILURE
    else
      ask (Chmod SHELLSPAWN_SOCKPATH 384);;
      r ← ask (Listen s 1);
      if r =? -1 then Exit EXIT_FAILURE else mret s.

Section Daemon.
Context `{LoopFuel}.

Fixpoint reap_all (fuel : nat) : io unit :=
  match fuel with
  | O => Spent
  | S fuel => '(r, _) ← ask (Waitpid (-1) BSD_WNOHANG); if 0 <? r then reap_all fuel else mret tt
  end.
Definition reapAll : io unit := reap_all loop_fuel.

(** [close(shellfd[0])] for every descriptor there is. *)
Definition close_fds (shellfd : list Z) : io unit := for_each (λ f, ask (Close f);; mret tt) (close_shell_fds shellfd).

(** The label [err]. *)
Definition spawn_err (fd shell_pid : Z) (shellfd : list Z) : io unit :=
  close_fds shellfd;;
  (if shell_pid =? -1 then mret tt else ask (Kill shell_pid SIGKILL);; mret tt);;
  ask (Close fd);;
  reapAll.

(** What follows the loop.  [garbage] is what [wstatus] holds when waitpid
    fails. *)
Definition spawn_finish (garbage fd shell_pid : Z) (shellfd : list Z) : io unit :=
  ask (Kill shell_pid SIGKILL);;
  close_fds shellfd;;
  '(_, st) ← ask (Waitpid shell_pid BSD_WEXITED);
  ask (Write fd (int_bytes (DARWIN_WEXITSTATUS (default garbage st))));;
  ask (Close fd);;
  reapAll.

Fixpoint relay_loop (fuel : nat) (garbage fd kq shell_pid : Z) (shellfd : list Z) (sock : stream) : io unit :=
  match fuel with
  | O => Spent
  | S fuel =>
    ev ← ask (Kevent_wait kq);
    match ev with
    | inl errno => if errno =? EINTR then relay_loop fuel garbage fd kq shell_pid shellfd sock else spawn_err fd shell_pid shellfd
    | inr (filter, fflags) =>
      if (filter =? EVFILT_PROC) && has fflags NOTE_EXIT then spawn_finish garbage fd shell_pid shellfd
      else if filter =? EVFILT_READ then
        let '(r, sock) := relay_signal (-1) shell_pid sock in
        match r with
        | Leave => spawn_finish garbage fd shell_pid shellfd
        | GiveUp => spawn_err fd shell_pid shellfd
        | Ignored => relay_loop fuel garbage fd kq shell_pid shellfd sock
        | Killed _ darwin_signal =>
          fg_pid ← ask (Tcgetpgrp (zget shellfd 0));
          ask (Kill (if fg_pid =? -1 then - shell_pid else fg_pid) darwin_signal);;
          relay_loop fuel garbage fd kq shell_pid shellfd sock
        end
      else relay_loop fuel garbage fd kq shell_pid shellfd sock
    end
  end.

Definition BASH : cstr := s2c "/bin/bash".

(** The child that becomes the shell. *)
Definition shell_child (fd : Z) (pipefd : Z * Z) (sh : shell) : io unit :=
  ask (Close fd);;
  ask (Fcntl pipefd.2 F_SETFD FD_CLOEXEC);;
  r ← ask (Exec BASH (sh_argv sh) (sh_env sh));
  match r with
  | None => Replaced
  | Some rv =>
    ask (Write pipefd.2 (int_bytes rv));;
    ask (Close pipefd.2);;
    Exit EXIT_FAILURE
  end.

Definition daemon_spawnShell (garbage fd : Z) (sock : stream) : io unit :=
  match daemon_start sock with
  | None => spawn_err fd (-1) [-1; -1; -1]
  | Some (sh, shellfd, sock) =>
    for_each (λ '(u, g), ask (Setuid u);; ask (Setgid g);; mret tt) (sh_ids sh);;
    pipefd ← ask Pipe;
    match pipefd with
    | None => spawn_err fd (-1) shellfd
    | Some pipefd =>
      ask Setsid;;
      ask Setpgrp;;
      ask (Close STDIN_FILENO);;
      ask (Close STDOUT_FILENO);;
      ask (Close STDERR_FILENO);;
      ask (Dup2 (zget shellfd 0) STDIN_FILENO);;
      ask (Dup2 (zget shellfd 1) STDOUT_FILENO);;
      ask (Dup2 (zget shellfd 2) STDERR_FILENO);;
      ask (Setctty STDIN_FILENO);;
      shell_pid ← ask Fork;
      if shell_pid =? 0 then shell_child fd pipefd sh
      else
        ask (Close pipefd.2);;
        rv ← ask (Read pipefd.1 4);
        if (length (default [] rv) =? 4)%nat then spawn_err fd shell_pid shellfd
        else
          ask (Close pipefd.1);;
          kq ← ask Kqueue;
          r ← ask (Kevent_add kq fd shell_pid);
          if r =? -1 then spawn_err fd shell_pid shellfd
          else relay_loop loop_fuel garbage fd kq shell_pid shellfd sock
    end
  end.

(** [clients] are the requests of the connections, in order. *)
Fixpoint listenForConnections (garbage server : Z) (clients : list stream) : io unit :=
  match clients with
  | [] => mret tt
  | client :: clients =>
    sock ← ask (Accept server);
    if sock =? -1 then mret tt
    else
      pid ← ask Fork;
      if pid =? 0 then
        ask (Fcntl sock F_SETFD FD_CLOEXEC);;
        daemon_spawnShell garbage sock client;;
        Exit EXIT_SUCCESS
      else ask (Close sock);; listenForConnections garbage server clients
  end.

Definition daemon_main (garbage : Z) (clients : list stream) : io Z :=
  setupSigchild;;
  server ← setupSocket;
  listenForConnections garbage server clients;;
  (if server =? -1 then mret tt else ask (Close server);; mret tt);;
  mret 0.
End Daemon.

(** ** Theorems *)

(** *** The end of a session *)

(** The shell that was started, whether it was sent SIGKILL, whether the
    connection was closed, and whether the process sent itself a signal. *)
Record session := Session { ss_shell : option Z; ss_killed : bool; ss_closed : bool; ss_self : bool }.

(** [self] is the process of the session, which is not its child.  A process
    number is greater than 1; an event cannot be asked for process -1; a
    foreground group has a positive number, which may be that of the process
    itself.  A signal that the process sends to itself can end it: nothing is
    claimed of what follows. *)
Definition session_answers (self fd : Z) (s : session) (X : Set) (e : hostE X) (x : X) (s' : session) : Prop :=
  match e in hostE X return X -> Prop with
  | Fork => λ x, (x = -1 ∨ x = 0 ∨ 1 < x ∧ x ≠ self) ∧
      s' = if 1 <? x then Session (Some x) (ss_killed s) (ss_closed s) (ss_self s) else s
  | Kill pid sig => λ _, s' = Session (ss_shell s) (ss_killed s || bool_decide (Some pid = ss_shell s) && (sig =? SIGKILL)) (ss_closed s)
                              (ss_self s || (pid =? self))
  | Close f => λ _, s' = if f =? fd then Session (ss_shell s) (ss_killed s) true (ss_self s) else s
  | Kevent_add _ _ pid => λ x, s' = s ∧ (pid = -1 -> x = -1)
  | Tcgetpgrp _ => λ x, s' = s ∧ (x = -1 ∨ 0 < x)
  | _ => λ _, s' = s
  end x.

(** Signals go to the shell, to its group or to one other process group:
    never to every process (-1) or to the daemon's own group (0). *)
Definition session_rule (s : session) (X : Set) (e : hostE X) : Prop :=
  match e with Kill pid _ => pid ≠ -1 ∧ pid ≠ 0 | _ => True end.

Definition session_over (s : session) : Prop :=
  ss_self s = true ∨ ss_closed s = true ∧ (ss_shell s = None ∨ ss_killed s = true).

Definition sessions (self fd : Z) : discipline session := Discipline session_rule (session_answers self fd) (λ _ _, True) True.

Section Sessions.
Context `{LoopFuel} (self fd : Z).
Abbreviation D := (sessions self fd).

Lemma reap_all_session fuel s (Q : unit -> session -> Prop) : Q tt s -> safe D (reap_all fuel) s Q.
Proof.
  intros HQ. induction fuel as [|fuel IH]; cbn [reap_all]; [done|]. apply safe_bind, safe_ask; [done|]. intros [r st] ? ->. by destruct (0 <? r).
Qed.

Lemma close_fds_session shellfd s (Q : unit -> session -> Prop) :
  (∀ s', ss_shell s' = ss_shell s -> ss_killed s' = ss_killed s -> Q tt s') -> safe D (close_fds shellfd) s Q.
Proof.
  intros HQ. unfold close_fds. apply (safe_for_each _ _ _ (λ s', ss_shell s' = ss_shell s ∧ ss_killed s' = ss_killed s)); [done| |].
  - intros f s1 _ [H1 H2]. apply safe_bind, safe_ask; [done|]. intros ? ? ->. apply safe_ret. by destruct (f =? fd).
  - intros s1 [H1 H2]. by apply HQ.
Qed.

Lemma kill_session shell_pid s (Q : Z -> session -> Prop) : 1 < shell_pid -> ss_shell s = Some shell_pid ->
  (∀ r s', ss_killed s' = true -> Q r s') -> safe D (ask (Kill shell_pid SIGKILL)) s Q.
Proof.
  intros Hp Hs HQ. apply safe_ask; [cbn; lia|]. intros r s' Hk. apply HQ. cbv beta iota delta [answers sessions session_answers] in Hk.
  rewrite Hs, bool_decide_eq_true_2, Z.eqb_refl in Hk by done. subst s'. cbn. by rewrite orb_true_r.
Qed.

(** Requests that neither start nor kill anything. *)
Definition quiet {X : Set} (e : hostE X) : bool := match e with Fork | Kill _ _ => false | _ => true end.

Lemma quiet_session {X : Set} (e : hostE X) {A} (k : X -> io A) s (Q : A -> session -> Prop) : quiet e = true ->
  (∀ x s', ss_shell s' = ss_shell s -> safe D (k x) s' Q) -> safe D (ask e ≫= k) s Q.
Proof.
  intros He Hk. apply safe_bind, safe_ask; [by destruct e|]. intros x s' Hx. apply Hk.
  destruct e; try done; cbv beta iota delta [answers sessions session_answers] in Hx;
    first [by subst s'|subst s'; by destruct (_ =? _)|by destruct Hx as [-> _]].
Qed.

Lemma close_session s : ss_shell s = None ∨ ss_killed s = true ->
  safe D (ask (Close fd);; reapAll) s (λ _, session_over).
Proof. intros Hs. apply safe_bind, safe_ask; [done|]. intros ? ? ->. rewrite Z.eqb_refl. apply reap_all_session. by right. Qed.

Lemma spawn_err_session shell_pid shellfd s : shell_pid = -1 ∧ ss_shell s = None ∨ 1 < shell_pid ∧ ss_shell s = Some shell_pid ->
  safe D (spawn_err fd shell_pid shellfd) s (λ _, session_over).
Proof.
  intros Hpid. unfold spawn_err. apply safe_bind, close_fds_session. intros s1 Hs1 _. apply safe_bind.
  apply (safe_mono _ _ _ (λ _ s', ss_shell s' = None ∨ ss_killed s' = true)); [|intros _ s2 H2; by apply close_session].
  destruct Hpid as [[-> Hn]|[Hp Hs]]; [left; by rewrite Hs1|]. rewrite (proj2 (Z.eqb_neq _ _)) by lia.
  apply safe_bind, kill_session; [done|by rewrite Hs1|]. by right.
Qed.

Lemma spawn_finish_session garbage shell_pid shellfd s : 1 < shell_pid -> ss_shell s = Some shell_pid ->
  safe D (spawn_finish garbage fd shell_pid shellfd) s (λ _, session_over).
Proof.
  intros Hp Hs. unfold spawn_finish. apply safe_bind, kill_session; [done..|]. intros _ s1 Hk. apply safe_bind, close_fds_session. intros s2 _ Hk2.
  apply safe_bind, safe_ask; [done|]. intros [r st] ? ->. apply safe_bind, safe_ask; [done|]. intros ? ? ->.
  apply close_session. right. by rewrite Hk2.
Qed.

Lemma relay_loop_session fuel garbage kq shell_pid shellfd sock s : 1 < shell_pid -> ss_shell s = Some shell_pid ->
  safe D (relay_loop fuel garbage fd kq shell_pid shellfd sock) s (λ _, session_over).
Proof.
  intros Hp. revert sock s. induction fuel as [|fuel IH]; intros sock s Hs; cbn [relay_loop]; [done|]. apply safe_bind, safe_ask; [done|].
  intros [errno|[filter fflags]] ? ->; [destruct (errno =? EINTR); [by apply IH|apply spawn_err_session; by right]|].
  destruct (_ && _); [by apply spawn_finish_session|]. destruct (filter =? EVFILT_READ); [|by apply IH].
  destruct (relay_signal (-1) shell_pid sock) as [[| |pid sig|] sock'];
    [by apply spawn_finish_session|apply spawn_err_session; by right| |by apply IH].
  apply safe_bind, safe_ask; [done|]. intros fg ? [-> Hfg]. apply safe_bind, safe_ask.
  - destruct (Z.eqb_spec fg (-1)); cbn; lia.
  - intros ? ? ->. by apply IH.
Qed.
End Sessions.

(** C13: however a session goes, when the daemon's process for it is done,
    without having sent itself a signal, the shell was sent SIGKILL, if one
    was started, and the connection is closed; and no signal was ever sent to
    every process (-1) or to the daemon's own group (0).  (The signals that the
    client relays go to the process with the number of the terminal's
    foreground group, and that can be this process: [relay_hits_session].) *)
Theorem session_ends `{LoopFuel} garbage self fd sock :
  safe (sessions self fd) (daemon_spawnShell garbage fd sock) (Session None false false false) (λ _, session_over).
Proof.
  unfold daemon_spawnShell. destruct (daemon_start sock) as [[[sh shellfd] rest]|]; [|apply spawn_err_session; by left].
  apply safe_bind. apply (safe_for_each _ _ _ (λ s, ss_shell s = None)); [done| |].
  { intros [u g] s _ Hs. do 2 (apply safe_bind, safe_ask; [done|]; intros ? ? ->). done. }
  intros s Hs. apply safe_bind, safe_ask; [done|]. intros [pipefd|] ? ->; [|apply spawn_err_session; by left].
  do 9 (apply quiet_session; [done|]; intros _ ?s' ?Hs'). assert (ss_shell s'7 = None) as Hnone by congruence.
  apply safe_bind, safe_ask; [done|]. intros pid s1 [Hpid ->]. destruct (Z.eqb_spec pid 0) as [->|Hne].
  - unfold shell_child. do 2 (apply quiet_session; [done|]; intros _ ? _). apply quiet_session; [done|]. intros [rv|] ? _; [|done].
    by do 2 (apply quiet_session; [done|]; intros _ ? _).
  - set (s1 := if 1 <? pid then _ else _).
    assert (pid = -1 ∧ ss_shell s1 = None ∨ 1 < pid ∧ ss_shell s1 = Some pid) as Hok.
    { destruct Hpid as [->|[?|[Hp _]]]; [by left|done|right]. unfold s1. by rewrite (proj2 (Z.ltb_lt _ _) Hp). }
    clearbody s1. apply quiet_session; [done|]. intros _ s2 H2. apply quiet_session; [done|]. intros rv s3 H3.
    destruct (_ =? 4)%nat; [apply spawn_err_session; congruence|]. do 2 (apply quiet_session; [done|]; intros ? ?s' ?Hs'). 
    apply safe_bind, safe_ask; [done|]. intros r s6 [-> Hr]. destruct (Z.eqb_spec r (-1)) as [->|Hr1]; [apply spawn_err_session; congruence|].
    destruct Hok as [[-> _]|[Hp Hs1]]; [by destruct Hr1; apply Hr|]. apply relay_loop_session; [done|congruence].
Qed.

(** Where the shell has no group of its own, as in [bash -c], the foreground
    group has the number of the session's process, here 100: the client's
    SIGINT is sent to it, not to the command, whose number is 101. *)
Theorem relay_hits_session `{LoopFuel} fuel : ∃ k1 k2 k3,
  relay_loop (S fuel) 0 3 9 101 [4; 5; 6] (pushShellspawnCommandData SHELLSPAWN_SIGNAL (int_bytes LINUX_SIGINT)) = Ask (Kevent_wait 9) k1 ∧
  k1 (inr (EVFILT_READ, 0)) = Ask (Tcgetpgrp 4) k2 ∧ k2 100 = Ask (Kill 100 SIGINT) k3.
Proof. eexists _, _, _. split; [reflexivity|]. split; reflexivity. Qed.

(** *** The exit status *)

(** The last status that waitpid reported. *)
Definition status_answers (fd : Z) (s : option Z) (X : Set) (e : hostE X) (x : X) (s' : option Z) : Prop :=
  match e in hostE X return X -> Prop with
  | Waitpid _ _ => λ x, s' = x.2
  | _ => λ _, s' = s
  end x.

(** Bytes for the client are those of the status. *)
Definition status_rule (fd : Z) (s : option Z) (X : Set) (e : hostE X) : Prop :=
  match e with Write f bytes => f = fd -> ∀ st, s = Some st -> bytes = int_bytes (DARWIN_WEXITSTATUS st) | _ => True end.

Definition reporting (fd : Z) : discipline (option Z) := Discipline (status_rule fd) (status_answers fd) (λ _ _, True) True.

Lemma finish_reports `{LoopFuel} garbage fd shell_pid shellfd s :
  safe (reporting fd) (spawn_finish garbage fd shell_pid shellfd) s (λ _ _, True).
Proof.
  unfold spawn_finish. apply safe_bind, safe_ask; [done|]. intros ? ? ->. apply safe_bind.
  unfold close_fds. apply (safe_for_each _ _ _ (λ _, True)); [done| |].
  { intros f s1 _ _. apply safe_bind, safe_ask; [done|]. by intros ? ? ->. }
  intros s1 _. apply safe_bind, safe_ask; [done|]. intros [r st] ? ->. apply safe_bind, safe_ask.
  { cbn. by intros _ st' ->. }
  intros ? ? ->. apply safe_bind, safe_ask; [done|]. intros ? ? ->. unfold reapAll.
  generalize (loop_fuel) at 1. intros fuel. generalize (snd (r, st)). induction fuel as [|fuel IH]; intros s2; cbn [reap_all]; [done|].
  apply safe_bind, safe_ask; [done|]. intros [r' st'] ? ->. by destruct (0 <? r'); [apply IH|].
Qed.

(** The word that Darwin's wait reports for a shell that ended with [code]. *)
Definition exited (code : Z) : Z := code * 256.

(** From the shell to the user: when waitpid reports the shell's exit, what the
    daemon writes is, for the launcher that reads it, the exit status of the
    shell, which it ends with. *)
Theorem exit_status_relayed `{LoopFuel} garbage fd shell_pid shellfd code : 0 <= code < 256 ->
  safe (reporting fd) (spawn_finish garbage fd shell_pid shellfd) None (λ _ _, True) ∧
  length (int_bytes (DARWIN_WEXITSTATUS (exited code))) = 4%nat ∧
  s32 (bytes_value (int_bytes (DARWIN_WEXITSTATUS (exited code)))) = code.
Proof.
  intros Hc. split; [apply finish_reports|]. split; [done|]. unfold DARWIN_WEXITSTATUS, exited. rewrite Z.shiftr_div_pow2 by lia.
  change (2 ^ 8) with 256. rewrite Z.div_mul by lia. change 255 with (Z.ones 8). rewrite Z.land_ones by lia. rewrite Z.mod_small by lia.
  rewrite int_value, u32_id by lia. apply s32_id. unfold INT_MIN, INT_MAX. lia.
Qed.

Lemma exit_status_relayed_witness : s32 (bytes_value (int_bytes (DARWIN_WEXITSTATUS (exited 42)))) = 42.
Proof. apply (exit_status_relayed (H := 1%nat) 0 3 100 [4; 5; 6] 42). lia. Defined.

(** A shell that a signal ended counts as successful. *)
Lemma signalled_is_success sig : 0 <= sig < 256 -> DARWIN_WEXITSTATUS sig = 0.
Proof. intros Hs. unfold DARWIN_WEXITSTATUS. rewrite Z.shiftr_div_pow2, Z.div_small by lia. done. Qed.

(** The option that is passed reaches Linux as WEXITED, which its wait4 does not
    take. *)
Lemma wexited_passed_on : waitopts_bsd_to_linux BSD_WEXITED = LINUX_WEXITED.
Proof. done. Qed.

(** *** Descriptors *)

(** The descriptor table: descriptors and the open files behind them. *)
Definition table_answers (T : gmap Z Z) (X : Set) (e : hostE X) (x : X) (T' : gmap Z Z) : Prop :=
  match e in hostE X return X -> Prop with
  | Close f => λ _, T' = delete f T
  | Dup2 a b => λ _, T' = match T !! a with Some file => <[b := file]> T | None => T end
  | Pipe => λ x, match x with Some (a, b) => T !! a = None ∧ T !! b = None ∧ ∃ i o, T' = <[a := i]> (<[b := o]> T) | None => T' = T end
  | Kqueue => λ x, T !! x = None ∧ ∃ i, T' = <[x := i]> T
  | _ => λ _, T' = T
  end x.

(** A program starts with the files [f0], [f1], [f2] as its standard streams and
    without the connection [fd]. *)
Definition table_rule (fd f0 f1 f2 : Z) (T : gmap Z Z) (X : Set) (e : hostE X) : Prop :=
  match e with Exec _ _ _ => T !! 0 = Some f0 ∧ T !! 1 = Some f1 ∧ T !! 2 = Some f2 ∧ T !! fd = None | _ => True end.

Definition descriptors (fd f0 f1 f2 : Z) : discipline (gmap Z Z) := Discipline (table_rule fd f0 f1 f2) table_answers (λ _ _, True) True.

Section Table.
Context `{LoopFuel} (fd f0 f1 f2 : Z).
Abbreviation D := (descriptors fd f0 f1 f2).

(** Requests that cannot break the rule. *)
Definition harmless {X : Set} (e : hostE X) : bool := match e with Exec _ _ _ => false | _ => true end.

Lemma harmless_table {X : Set} (e : hostE X) {A} (k : X -> io A) T (Q : A -> gmap Z Z -> Prop) : harmless e = true ->
  (∀ x T', safe D (k x) T' Q) -> safe D (ask e ≫= k) T Q.
Proof. intros He Hk. apply safe_bind, safe_ask; [by destruct e|]. intros x T' _. apply Hk. Qed.

Lemma reap_all_table fuel T : safe D (reap_all fuel) T (λ _ _, True).
Proof. revert T. induction fuel as [|fuel IH]; intros T; cbn [reap_all]; [done|]. apply harmless_table; [done|]. intros [r st] T'. by destruct (0 <? r). Qed.

Lemma close_fds_table shellfd T {A} (k : unit -> io A) (Q : A -> gmap Z Z -> Prop) :
  (∀ T', safe D (k tt) T' Q) -> safe D (close_fds shellfd ≫= k) T Q.
Proof.
  intros Hk. apply safe_bind. unfold close_fds. apply (safe_for_each _ _ _ (λ _, True)); [done| |by intros T' _].
  intros f T1 _ _. by apply harmless_table.
Qed.

Lemma spawn_err_table shell_pid shellfd T : safe D (spawn_err fd shell_pid shellfd) T (λ _ _, True).
Proof.
  unfold spawn_err. apply close_fds_table. intros T1. apply safe_bind, (safe_mono _ _ _ (λ _ _, True)); [destruct (_ =? _); [done|by apply harmless_table]|].
  intros _ T2 _. apply harmless_table; [done|]. intros _ T3. apply reap_all_table.
Qed.

Lemma spawn_finish_table garbage shell_pid shellfd T : safe D (spawn_finish garbage fd shell_pid shellfd) T (λ _ _, True).
Proof.
  unfold spawn_finish. apply harmless_table; [done|]. intros _ T1. apply close_fds_table. intros T2. apply harmless_table; [done|]. intros [r st] T3.
  do 2 (apply harmless_table; [done|]; intros _ ?). apply reap_all_table.
Qed.

Lemma relay_loop_table fuel garbage kq shell_pid shellfd sock T : safe D (relay_loop fuel garbage fd kq shell_pid shellfd sock) T (λ _ _, True).
Proof.
  revert sock T. induction fuel as [|fuel IH]; intros sock T; cbn [relay_loop]; [done|]. apply harmless_table; [done|].
  intros [errno|[filter fflags]] T1; [destruct (_ =? _); [apply IH|apply spawn_err_table]|]. destruct (_ && _); [apply spawn_finish_table|].
  destruct (_ =? _); [|apply IH]. destruct (relay_signal _ _ _) as [[| |pid sig|] sock']; [apply spawn_finish_table|apply spawn_err_table| |apply IH].
  do 2 (apply harmless_table; [done|]; intros ? ?). apply IH.
Qed.
End Table.

(** C28: the shell starts on the three descriptors of the request and does not keep
    the connection, when the descriptors that arrived and the connection are
    not those of the standard streams, which were open. *)
Theorem shell_streams `{LoopFuel} garbage fd sock sh a b c rest f0 f1 f2 (T : gmap Z Z) :
  daemon_start sock = Some (sh, [a; b; c], rest) -> T !! a = Some f0 -> T !! b = Some f1 -> T !! c = Some f2 ->
  Forall (λ d, is_Some (T !! d)) [0; 1; 2] -> is_Some (T !! fd) -> Forall (λ d, d ∉ [0; 1; 2]) [a; b; c; fd] ->
  safe (descriptors fd f0 f1 f2) (daemon_spawnShell garbage fd sock) T (λ _ _, True).
Proof.
  intros Hstart Ha Hb Hc Hopen Hfd Hnew. unfold daemon_spawnShell. rewrite Hstart.
  assert (∀ d, d ∈ [a; b; c; fd] -> d ≠ 0 ∧ d ≠ 1 ∧ d ≠ 2) as Hd by (intros d Hel; rewrite Forall_forall in Hnew; specialize (Hnew d Hel); set_solver).
  destruct (Hd a) as (?&?&?); [set_solver|]. destruct (Hd b) as (?&?&?); [set_solver|]. destruct (Hd c) as (?&?&?); [set_solver|].
  destruct (Hd fd) as (?&?&?); [set_solver|].
  apply safe_bind. apply (safe_for_each _ _ _ (λ T', T' = T)); [done| |].
  { intros [u g] ? _ ->. do 2 (apply safe_bind, safe_ask; [done|]; intros ? ? ->). done. }
  intros ? ->. apply safe_bind, safe_ask; [done|]. intros [[pi po]|] T1 Hpipe; [|apply spawn_err_table].
  destruct Hpipe as (Hpi & Hpo & i & o & ->). set (T1 := <[pi := i]> _).
  assert (∀ d, is_Some (T !! d) -> T1 !! d = T !! d) as HT1.
  { intros d [x Hx]. unfold T1. rewrite !lookup_insert_ne; [done|intros ->; congruence..]. }
  do 2 (apply safe_bind, safe_ask; [done|]; intros ? ? ->). do 3 (apply safe_bind, safe_ask; [done|]; intros ? ? ->).
  change (zget [a; b; c] 0) with a. change (zget [a; b; c] 1) with b. change (zget [a; b; c] 2) with c.
  unfold STDIN_FILENO, STDOUT_FILENO, STDERR_FILENO.
  assert (∀ d f, T !! d = Some f -> d ≠ 0 -> d ≠ 1 -> d ≠ 2 -> delete 2 (delete 1 (delete 0 T1)) !! d = Some f) as HT2.
  { intros d f Hdf ? ? ?. rewrite !lookup_delete_ne by done. by rewrite HT1; [|eexists]. }
  apply safe_bind, safe_ask; [done|]. intros ? ? ->. rewrite (HT2 a f0) by done.
  apply safe_bind, safe_ask; [done|]. intros ? ? ->. rewrite lookup_insert_ne, (HT2 b f1) by done.
  apply safe_bind, safe_ask; [done|]. intros ? ? ->. rewrite !lookup_insert_ne, (HT2 c f2) by done.
  apply safe_bind, safe_ask; [done|]. intros ? ? ->. apply safe_bind, safe_ask; [done|]. intros pid ? ->. destruct (pid =? 0).
  - unfold shell_child. apply safe_bind, safe_ask; [done|]. intros ? ? ->. apply safe_bind, safe_ask; [done|]. intros ? ? ->. apply safe_bind, safe_ask.
    + cbn [may_ask descriptors table_rule]. rewrite lookup_delete_eq, !lookup_delete_ne by done.
      by rewrite (lookup_insert_ne _ 2 0), (lookup_insert_ne _ 1 0), (lookup_insert_ne _ 2 1), !lookup_insert_eq by done.
    + intros [rv|] ? ->; [|done]. by do 2 (apply harmless_table; [done|]; intros ? ?).
  - do 2 (apply harmless_table; [done|]; intros ? ?). destruct (_ =? _)%nat; [apply spawn_err_table|].
    do 3 (apply harmless_table; [done|]; intros ? ?). destruct (_ =? _); [apply spawn_err_table|apply relay_loop_table].
Qed.

Lemma shell_streams_witness :
  safe (descriptors 3 70 80 90) (daemon_spawnShell (H := 5%nat) 0 3 (pushShellspawnCommandFDs SHELLSPAWN_GO [7; 8; 9]))
    (list_to_map [(0, 10); (1, 11); (2, 12); (3, 33); (7, 70); (8, 80); (9, 90)]) (λ _ _, True).
Proof.
  apply (shell_streams (H := 5%nat) 0 3 (pushShellspawnCommandFDs SHELLSPAWN_GO [7; 8; 9]) new_shell 7 8 9 [] 70 80 90); [done..| | |].
  - by repeat constructor; eexists.
  - by eexists.
  - repeat constructor; set_solver.
Defined.
