(* ===== verification/Xcselect.v ===== *)
(** * Selection of developer tools

    xcselect/: the library that finds the active developer directory
    (xcselect.c) and its clients xcode-select, xcrun and the shims that are
    installed under the names of the tools.  The directory is named by the
    variable DEVELOPER_DIR, by one of two links, by a file, or is one of three
    known places.

    A text in an array is a [cstr]; storing more than the array holds is a
    [Crash], and so is appending to the array that a failed [getcwd] leaves
    undefined.  The static array [path_buffer] is written before each use, so it
    is no state.  [developer_dir] is the variable, if it is set.  Messages to
    the user are left out; [Puts] is what goes to standard output.  Allocation
    succeeds and what is freed is not used again. *)
From S2P Require Import Prelude Abi Errno Linux Mounts Launcher Host Startup Shellspawn.

Definition PATH_BUFFER : Z := 1024.
Definition DIR_SEP : cstr := s2c "/".
Definition XCSELECT_FLAG_REQUIRE_XCODE : Z := 1.
Definition S_ISDIR (mode : Z) : bool := Z.land mode 0xf000 =? 0x4000.

Definition SELECT_LINK : cstr := s2c "/var/db/xcode_select_link".
Definition DIR_LINK : cstr := s2c "/usr/share/xcode-select/xcode_dir_link".
Definition DIR_PATH : cstr := s2c "/usr/share/xcode-select/xcode_dir_path".
Definition LIBXCRUN : cstr := s2c "usr/lib/libxcrun.dylib".
Definition BIN_XCRUN : cstr := s2c "usr/bin/xcrun".

(** [append] of [Launcher] as a step of a program. *)
Definition strcat_into (size : Z) (dst src : cstr) : io cstr := known (append size dst src).

(** ** xcselect.c *)

Definition get_developer_dir_from_file (file : cstr) : io (option cstr) :=
  fd ← ask (Open file 0);
  if fd =? -1 then mret None
  else
    r ← ask (Read fd (PATH_BUFFER - 1));
    ask (Close fd);;
    match r with
    | None | Some [] => mret None
    | Some bytes => mret (Some (c_str bytes))
    end.

Definition get_developer_dir_from_symlink (link : cstr) : io (option cstr) :=
  r ← ask (Readlink link (PATH_BUFFER - 1));
  match r with
  | None | Some [] => mret None
  | Some target => mret (Some target)
  end.

Definition dir_exists (dir : cstr) : io bool :=
  st ← ask (Stat dir);
  match st with
  | inl _ => mret false
  | inr (mode, _) => mret (S_ISDIR mode)
  end.

Definition valid_dev_path (path : cstr) : io bool :=
  buffer ← strcat_into 1024 [] path;
  buffer ← strcat_into 1024 buffer DIR_SEP;
  lib ← strcat_into 1024 buffer LIBXCRUN;
  r ← ask (Access lib);
  if r =? 0 then mret true
  else
    bin ← strcat_into 1024 buffer BIN_XCRUN;
    r ← ask (Access bin);
    mret (r =? 0).

(** Gives the result, the text in [dst] and [*is_cmd_line]. *)
Definition xcselect_find_developer_contents_from_path (p : cstr) (is_cmd_line : bool) (dst_size : Z) : io (bool * cstr * bool) :=
  dst ← (if bool_decide (head p = Some "/"%char) then mret (strlcpy p dst_size)
         else
           cwd ← ask (Getcwd dst_size);
           dst ← known cwd;
           dst ← strcat_into dst_size dst DIR_SEP;
           strcat_into dst_size dst p);
  ok ← valid_dev_path dst;
  if ok : bool then mret (true, dst, is_cmd_line)
  else
    base ← strcat_into dst_size dst DIR_SEP;
    dst ← strcat_into dst_size base (s2c "Library/Developer/CommandLineTools");
    ok ← valid_dev_path dst;
    if ok : bool then mret (true, dst, true)
    else
      dst ← strcat_into dst_size base (s2c "CommandLineTools");
      ok ← valid_dev_path dst;
      if ok : bool then mret (true, dst, true)
      else
        dst ← strcat_into dst_size base (s2c "Contents/Developer");
        ok ← valid_dev_path dst;
        mret (ok, dst, is_cmd_line).

(** [strrchr(p, '/') + 1] *)
Fixpoint after_slash (p : cstr) : option cstr :=
  match p with
  | [] => None
  | c :: p => match after_slash p with Some r => Some r | None => if ascii_dec c "/" then Some p else None end
  end.

Definition names_tools (p : cstr) : bool := bool_decide (after_slash p = Some (s2c "CommandLineTools")).

(** [strlcat(path, src, size)] *)
Definition strlcat (path src : cstr) (size : Z) : cstr := ztake (size - 1) (path ++ src).

(** The label [have_path]. *)
Definition have_path (p : cstr) (path_len : Z) (is_cmd_line : bool) : cstr * bool :=
  (strlcat (strlcpy p path_len) DIR_SEP path_len, names_tools p || is_cmd_line).

(** The path and [*is_cmd_line]; [None] is [false]. *)
Definition xcselect_get_developer_dir_path (developer_dir : option cstr) (path_len : Z) : io (option (cstr * bool)) :=
  let have p is_cmd_line := mret (Some (have_path p path_len is_cmd_line)) in
  '(found, p, is_cmd_line) ← (match developer_dir with
                              | Some p => xcselect_find_developer_contents_from_path p false PATH_BUFFER
                              | None => mret (false, [], false)
                              end);
  if found : bool then have p is_cmd_line
  else
    p ← get_developer_dir_from_symlink SELECT_LINK;
    match p with
    | Some p => have p is_cmd_line
    | None =>
      p ← get_developer_dir_from_symlink DIR_LINK;
      match p with
      | Some p => have p is_cmd_line
      | None =>
        p ← get_developer_dir_from_file DIR_PATH;
        match p with
        | Some p => have p is_cmd_line
        | None =>
          xcode ← dir_exists (s2c "/Applications/Xcode.app");
          if xcode : bool then have (s2c "/Applications/Xcode.app/Contents/Developer") is_cmd_line
          else
            clt ← dir_exists (s2c "/Library/Developer/CommandLineTools");
            if clt : bool then have (s2c "/Library/Developer/CommandLineTools") is_cmd_line
            else
              darling ← dir_exists (s2c "/Library/Developer/DarlingCLT");
              if darling : bool then have (s2c "/Library/Developer/DarlingCLT") true
              else mret None
        end
      end
    end.

(** [if (buf[strlen(buf) - 1] != '/') strcat_into(buf, "/")]; there is no last
    character in an empty text. *)
Definition end_with_slash (size : Z) (buf : cstr) : io cstr :=
  c ← known (last buf);
  if ascii_dec c "/" then mret buf else strcat_into size buf DIR_SEP.

Definition DEVELOPER_TOOLS : cstr := s2c "/usr/libexec/DeveloperTools".

Definition xcselect_invoke_xcrun {A} (developer_dir : option cstr) (tool : option cstr) (argv : list cstr) (flags : Z) : io A :=
  dir ← xcselect_get_developer_dir_path developer_dir 1024;
  match dir with
  | Some (dev_dir, is_cmdline) =>
    if is_cmdline && negb (Z.land flags XCSELECT_FLAG_REQUIRE_XCODE =? 0) then Exit 1
    else
      buf ← strcat_into 2048 [] dev_dir;
      buf ← end_with_slash 2048 buf;
      lib_path ← strcat_into 2048 buf LIBXCRUN;
      lib ← ask (Dlopen lib_path);
      match lib with
      | Some lib =>
        fn ← ask (Dlsym lib (s2c "xcrun_main"));
        gone ← (if fn : bool then ask (Call_xcrun_main lib tool argv dev_dir) else mret false);
        if gone : bool then Replaced else Exit 1
      | None =>
        buf ← strcat_into 2048 buf BIN_XCRUN;
        gone ← ask (Execv buf (buf :: option_list tool ++ argv));
        if gone : bool then Replaced else Exit 1
      end
  | None =>
    tools ← dir_exists DEVELOPER_TOOLS;
    match tools, tool with
    | true, Some tool =>
      buf ← strcat_into (strlen tool + 30) [] (s2c "/usr/libexec/DeveloperTools/");
      buf ← strcat_into (strlen tool + 30) buf tool;
      r ← ask (Access buf);
      if r =? 0 then
        gone ← ask (Execv buf (buf :: argv));
        if gone : bool then Replaced else Exit 1
      else Exit 1
    | _, _ => Exit 1
    end
  end.

(** [struct __xcselect_manpaths] *)
Record manpaths := Manpaths { mp_count : Z; mp_paths : list cstr }.

Definition xcselect_manpaths_append (paths : manpaths) (path : cstr) : manpaths :=
  Manpaths (u32 (mp_count paths + 1)) (mp_paths paths ++ [path]).

Definition xcselect_get_manpaths (developer_dir sdkname : option cstr) : io (option manpaths) :=
  dir ← xcselect_get_developer_dir_path developer_dir 1024;
  match dir with
  | None => mret None
  | Some (path, _) =>
    lib_path ← strcat_into 1024 path LIBXCRUN;
    let rv := Manpaths 0 [] in
    r ← ask (Access lib_path);
    rv ← (if r =? 0 then
            module ← ask (Dlopen lib_path);
            match module with
            | None => mret None
            | Some module =>
              fn ← ask (Dlsym module (s2c "xcrun_iter_manpaths"));
              more ← (if fn : bool then ask (Call_iter_manpaths module path sdkname) else mret []);
              ask (Dlclose module);;
              mret (Some (foldl xcselect_manpaths_append rv more))
            end
          else mret (Some rv));
    match rv with
    | None => mret None
    | Some rv =>
      p1 ← strcat_into 1024 path (s2c "usr/share/man");
      p2 ← strcat_into 1024 path (s2c "usr/llvm-gcc-4,2/share/man");
      p3 ← strcat_into 1024 path (s2c "Toolchains/XcodeDefault.xctoolchain/usr/share/man");
      mret (Some (foldl xcselect_manpaths_append rv [p1; p2; p3]))
    end
  end.

Definition xcselect_manpaths_get_num_paths (p : manpaths) : Z := mp_count p.

Definition xcselect_manpaths_get_path (p : manpaths) (idx : Z) : option cstr :=
  if idx <? xcselect_manpaths_get_num_paths p then mp_paths p !! Z.to_nat idx else None.

(** ** xcrun.c and xcrun-shim.c *)

Definition lower (c : ascii) : ascii :=
  let n := Z.of_N (N_of_ascii c) in if (65 <=? n) && (n <=? 90) then ascii_of_N (Z.to_N (n + 32)) else c.
Definition strcasecmp_eq (a b : cstr) : bool := bool_decide (map lower a = map lower b).

(** [argv] are the arguments after the name of the program. *)
Definition xcrun_main (developer_dir : option cstr) (pname : cstr) (argv : list cstr) : io Z :=
  let tool := if bool_decide (head pname = Some "/"%char) then tail pname else pname in
  let tool := if strcasecmp_eq tool (s2c "xcrun") then None else Some tool in
  xcselect_invoke_xcrun developer_dir tool argv 0.

Definition shim_main (TOOL_NAME : cstr) (REQUIRE_XCODE : bool) (developer_dir : option cstr) (argv : list cstr) : io Z :=
  xcselect_invoke_xcrun developer_dir (Some TOOL_NAME) argv (if REQUIRE_XCODE then XCSELECT_FLAG_REQUIRE_XCODE else 0).

(** ** xcode-select.c *)

Definition killLink (path : cstr) : io unit :=
  '(r, errno) ← ask (Fs (Unlink path));
  if negb (r =? 0) && negb (errno =? ENOENT) then Exit 1 else mret tt.

Definition doReset : io unit := killLink SELECT_LINK;; killLink DIR_LINK;; killLink DIR_PATH.

(** [*is_cmd_line] is not used. *)
Definition doSwitch (path : cstr) : io unit :=
  '(found, buffer, _) ← xcselect_find_developer_contents_from_path path false 1024;
  if negb found then Exit 1
  else
    doReset;;
    ask (Umask 18);;
    ask (Fs (Mkdir (s2c "/var/db") 493));;
    '(r, _) ← ask (Fs (Symlink buffer SELECT_LINK));
    if r =? 0 then mret tt else Exit 1.

Definition doPrintManPaths (developer_dir : option cstr) : io unit :=
  xcp ← xcselect_get_manpaths developer_dir None;
  match xcp with
  | None => mret tt
  | Some xcp =>
    for_each (λ i, match xcselect_manpaths_get_path xcp i with Some path => ask (Puts path) | None => mret tt end)
             (Z.of_nat <$> seq 0 (Z.to_nat (xcselect_manpaths_get_num_paths xcp)))
  end.

Definition one_of (arg : cstr) (names : list string) : bool := existsb (λ n, bool_decide (arg = s2c n)) names.

(** [argv] are the arguments after the name of the program. *)
Definition xcode_select_main (developer_dir : option cstr) (argv : list cstr) : io Z :=
  match argv with
  | [] => mret 1
  | [arg] | [arg; _] =>
    if one_of arg ["-h"; "--help"] then mret 0
    else if one_of arg ["-v"; "--version"; "-version"] then ask (Puts (s2c "xcode-select for Darling, version 1.0"));; mret 0
    else if one_of arg ["-p"; "--print-path"; "-print-path"] then
      dir ← xcselect_get_developer_dir_path developer_dir 1024;
      match dir with
      | Some (path, _) => ask (Puts path);; mret 0
      | None => mret 1
      end
    else if one_of arg ["--show-manpaths"] then doPrintManPaths developer_dir;; mret 0
    else if one_of arg ["--install"] then
      r ← ask (Access (s2c "/Library/Developer/CommandLineTools/usr/lib/libxcrun.dylib"));
      if r =? 0 then mret 1
      else status ← ask (System (s2c "/usr/libexec/darling/clt_install.py")); mret (DARWIN_WEXITSTATUS status)
    else if one_of arg ["-r"; "--reset"] then doReset;; mret 0
    else if one_of arg ["-s"; "--switch"; "-switch"] then
      match argv with
      | [_; path] => doSwitch path;; mret 0
      | _ => mret 1
      end
    else mret 1
  | _ => mret 1
  end.

(** ** The files of a system *)

(** Links and files with their contents, directories, the paths for which
    [access] succeeds, the working directory and the files that are open. *)
Record devfs := Devfs {
  fs_links : gmap cstr cstr;
  fs_files : gmap cstr (list ascii);
  fs_dirs : gset cstr;
  fs_tools : gset cstr;
  fs_cwd : cstr;
  fs_fds : gmap Z (list ascii) }.

Definition with_fds (f : gmap Z (list ascii) -> gmap Z (list ascii)) (F : devfs) : devfs :=
  Devfs (fs_links F) (fs_files F) (fs_dirs F) (fs_tools F) (fs_cwd F) (f (fs_fds F)).
Definition with_link (path target : cstr) (F : devfs) : devfs :=
  Devfs (<[path:=target]> (fs_links F)) (fs_files F) (fs_dirs F) (fs_tools F) (fs_cwd F) (fs_fds F).
Definition without (path : cstr) (F : devfs) : devfs :=
  Devfs (delete path (fs_links F)) (delete path (fs_files F)) (fs_dirs F) (fs_tools F) (fs_cwd F) (fs_fds F).

(** readlink(2), read(2), stat(2), access(2), unlink(2), symlink(2).  Removal
    and creation can fail. *)
Definition dev_answers (F : devfs) (X : Set) (e : hostE X) (x : X) (F' : devfs) : Prop :=
  match e in hostE X return X -> Prop with
  | Access p => λ x, F' = F ∧ (x =? 0) = bool_decide (p ∈ fs_tools F)
  | Readlink l n => λ x, F' = F ∧ x = ztake n <$> fs_links F !! l
  | Stat p => λ x, F' = F ∧ match x with inl _ => false | inr (mode, _) => S_ISDIR mode end = bool_decide (p ∈ fs_dirs F)
  | Getcwd _ => λ x, F' = F ∧ x = Some (fs_cwd F)
  | Open p _ => λ x,
    match fs_files F !! p with
    | None => x = -1 ∧ F' = F
    | Some bytes => 0 <= x ∧ fs_fds F !! x = None ∧ F' = with_fds (insert x bytes) F
    end
  | Read fd n => λ x, F' = F ∧ x = ztake n <$> fs_fds F !! fd
  | Close fd => λ _, F' = with_fds (delete fd) F
  | Fs (Unlink p) => λ x,
    x.1 = 0 ∧ F' = without p F ∨ x.1 ≠ 0 ∧ F' = F ∧ (x.2 = ENOENT -> fs_links F !! p = None ∧ fs_files F !! p = None)
  | Fs (Symlink target p) => λ x, x.1 = 0 ∧ F' = with_link p target F ∨ x.1 ≠ 0 ∧ F' = F
  | _ => λ _, F' = F
  end x.

(** The requests that only look. *)
Definition looks {X : Set} (e : hostE X) : bool :=
  match e with Access _ | Readlink _ _ | Stat _ | Getcwd _ | Open _ _ | Read _ _ | Close _ => true | _ => false end.

(** ** Where the developer directory is *)

(** The longest path below which everything that is looked for fits the arrays
    of 1024 bytes. *)
Definition MAX_DEVELOPER_DIR : Z := 965.

Definition has_tools (F : devfs) (d : cstr) : bool :=
  bool_decide (d ++ DIR_SEP ++ LIBXCRUN ∈ fs_tools F) || bool_decide (d ++ DIR_SEP ++ BIN_XCRUN ∈ fs_tools F).

(** Directories below [d], with the mark of the command line tools. *)
Definition contents (d : cstr) : list (cstr * bool) :=
  [(d, false); (d ++ s2c "/Library/Developer/CommandLineTools", true); (d ++ s2c "/CommandLineTools", true);
   (d ++ s2c "/Contents/Developer", false)].

Definition absolute_path (F : devfs) (p : cstr) : cstr := if bool_decide (head p = Some "/"%char) then p else fs_cwd F ++ DIR_SEP ++ p.

Definition first_with_tools (F : devfs) (d : cstr) : option (cstr * bool) :=
  List.find (λ '(d, _), has_tools F d) (contents d).

Definition nonempty (s : cstr) : option cstr := match s with [] => None | _ => Some s end.
Definition link_to (F : devfs) (l : cstr) : option (cstr * bool) := (., false) <$> (fs_links F !! l ≫= λ t, nonempty (ztake 1023 t)).
Definition file_text (F : devfs) (f : cstr) : option (cstr * bool) :=
  (λ t, (c_str t, false)) <$> (fs_files F !! f ≫= λ t, nonempty (ztake 1023 t)).
Definition place (F : devfs) (dir d : cstr) (b : bool) : option (cstr * bool) := if bool_decide (dir ∈ fs_dirs F) then Some (d, b) else None.

(** The sources in the order of their rank: the first that has something to say
    decides. *)
Definition sources (F : devfs) (developer_dir : option cstr) : list (option (cstr * bool)) :=
  [developer_dir ≫= λ p, first_with_tools F (absolute_path F p);
   link_to F SELECT_LINK; link_to F DIR_LINK; file_text F DIR_PATH;
   place F (s2c "/Applications/Xcode.app") (s2c "/Applications/Xcode.app/Contents/Developer") false;
   place F (s2c "/Library/Developer/CommandLineTools") (s2c "/Library/Developer/CommandLineTools") false;
   place F (s2c "/Library/Developer/DarlingCLT") (s2c "/Library/Developer/DarlingCLT") true].

Definition active_dir (F : devfs) (developer_dir : option cstr) : option (cstr * bool) := foldr (λ o r, match o with Some _ => o | None => r end) None (sources F developer_dir).
Definition short_variable (F : devfs) (developer_dir : option cstr) : Prop :=
  ∀ p, developer_dir = Some p -> strlen (absolute_path F p) <= MAX_DEVELOPER_DIR.

Section Lookup.
Context (D : discipline devfs).
Hypothesis may_look : ∀ F (X : Set) (e : hostE X), looks e = true -> may_ask D F e.
Hypothesis dev_world : ∀ F (X : Set) (e : hostE X) x F', answers D F e x F' -> dev_answers F X e x F'.

Lemma safe_strcat {S} (E : discipline S) size dst src s (Q : cstr -> S -> Prop) :
  strlen dst + strlen src + 1 <= size -> Q (dst ++ src) s -> safe E (strcat_into size dst src) s Q.
Proof. intros Hl HQ. unfold strcat_into, append. rewrite (proj2 (Z.leb_le _ _)) by done. done. Qed.

Lemma look_safe {X : Set} (e : hostE X) F (Q : X -> devfs -> Prop) :
  looks e = true -> (∀ x F', dev_answers F X e x F' -> Q x F') -> safe D (ask e) F Q.
Proof. intros Hl HQ. apply safe_ask; [by apply may_look|]. intros x F' Hx. by apply HQ, dev_world. Qed.

Lemma valid_dev_path_safe F d (Q : bool -> devfs -> Prop) :
  strlen d + 24 <= 1024 -> Q (has_tools F d) F -> safe D (valid_dev_path d) F Q.
Proof.
  intros Hl HQ. unfold valid_dev_path.
  apply safe_bind, safe_strcat; [change (strlen []) with 0; lia|]. change ([] ++ d) with d.
  apply safe_bind, safe_strcat; [change (strlen DIR_SEP) with 1; lia|].
  assert (strlen (d ++ DIR_SEP) = strlen d + 1) as Hd by by rewrite strlen_app.
  apply safe_bind, safe_strcat; [rewrite Hd; change (strlen LIBXCRUN) with 22; lia|]. rewrite <- app_assoc.
  apply safe_bind, look_safe; [done|]. intros x ? [-> Hx]. rewrite Hx. unfold has_tools in HQ. destruct (bool_decide _); [done|].
  apply safe_bind, safe_strcat; [rewrite Hd; change (strlen BIN_XCRUN) with 13; lia|]. rewrite <- app_assoc.
  apply safe_bind, look_safe; [done|]. intros y ? [-> Hy]. rewrite Hy. done.
Qed.

(** What the search leaves: whether it succeeded, and then the first directory. *)
Lemma find_contents_safe F p b (Q : bool * cstr * bool -> devfs -> Prop) :
  strlen (absolute_path F p) <= MAX_DEVELOPER_DIR ->
  (∀ d c, first_with_tools F (absolute_path F p) = Some (d, c) -> Q (true, d, c || b) F) ->
  (∀ d, first_with_tools F (absolute_path F p) = None -> Q (false, d, b) F) ->
  safe D (xcselect_find_developer_contents_from_path p b 1024) F Q.
Proof.
  unfold MAX_DEVELOPER_DIR, xcselect_find_developer_contents_from_path. intros Hl Hfound Hnone. apply safe_bind.
  apply (safe_mono _ _ _ (λ d F', d = absolute_path F p ∧ F' = F)).
  { unfold absolute_path in *. case_bool_decide.
    - apply safe_ret. split; [|done]. unfold strlcpy, ztake. apply take_ge. unfold strlen in Hl. lia.
    - rewrite !strlen_app in Hl. change (strlen DIR_SEP) with 1 in Hl. pose proof (strlen_nonneg p).
      apply safe_bind, look_safe; [done|]. intros x ? [-> ->]. apply safe_bind, safe_known with (fs_cwd F); [done|].
      apply safe_bind, safe_strcat; [change (strlen DIR_SEP) with 1; lia|].
      apply safe_strcat; [rewrite strlen_app; change (strlen DIR_SEP) with 1; lia|]. by rewrite <- app_assoc. }
  intros d ? [-> ->]. revert Hl Hfound Hnone. generalize (absolute_path F p). clear p. intros d Hl Hfound Hnone.
  unfold first_with_tools, contents in *. cbn [List.find] in *.
  apply safe_bind, valid_dev_path_safe; [lia|]. destruct (has_tools F d); [by apply (Hfound d false)|].
  apply safe_bind, safe_strcat; [change (strlen DIR_SEP) with 1; lia|].
  assert (∀ s, (d ++ DIR_SEP) ++ s2c s = d ++ s2c (String "/" s)) as Hs by (intros s; by rewrite <- app_assoc).
  assert (strlen (d ++ DIR_SEP) = strlen d + 1) as Hd by by rewrite strlen_app.
  apply safe_bind, safe_strcat; [rewrite Hd; unfold strlen at 2; simpl; lia|]. rewrite Hs.
  apply safe_bind, valid_dev_path_safe; [rewrite strlen_app; unfold strlen at 2; simpl; lia|].
  destruct (has_tools F (d ++ _)); [by eapply (Hfound _ true)|].
  apply safe_bind, safe_strcat; [rewrite Hd; unfold strlen at 2; simpl; lia|]. rewrite Hs.
  apply safe_bind, valid_dev_path_safe; [rewrite strlen_app; unfold strlen at 2; simpl; lia|].
  destruct (has_tools F (d ++ _)); [by eapply (Hfound _ true)|].
  apply safe_bind, safe_strcat; [rewrite Hd; unfold strlen at 2; simpl; lia|]. rewrite Hs.
  apply safe_bind, valid_dev_path_safe; [rewrite strlen_app; unfold strlen at 2; simpl; lia|].
  destruct (has_tools F (d ++ _)); apply safe_ret; [by eapply (Hfound _ false)|by apply Hnone].
Qed.

Lemma link_safe F l (Q : option cstr -> devfs -> Prop) :
  Q (fst <$> link_to F l) F -> safe D (get_developer_dir_from_symlink l) F Q.
Proof.
  intros HQ. unfold get_developer_dir_from_symlink, link_to in *. apply safe_bind, look_safe; [done|]. intros x ? [-> ->].
  change (PATH_BUFFER - 1) with 1023. destruct (fs_links F !! l) as [t|]; cbn in *; [|by apply safe_ret]. by destruct (ztake 1023 t).
Qed.

Lemma file_safe F f (Q : option cstr -> devfs -> Prop) :
  Q (fst <$> file_text F f) F -> safe D (get_developer_dir_from_file f) F Q.
Proof.
  intros HQ. unfold get_developer_dir_from_file, file_text in *. apply safe_bind, look_safe; [done|]. intros x ?. unfold dev_answers.
  destruct (fs_files F !! f) as [t|]; [|by intros [-> ->]]. intros (Hx & Hnew & ->). rewrite (proj2 (Z.eqb_neq _ _)) by lia.
  apply safe_bind, look_safe; [done|]. intros y ? [-> ->]. apply safe_bind, look_safe; [done|]. intros _ ? ->.
  unfold with_fds. cbn [fs_fds fs_links fs_files fs_dirs fs_tools fs_cwd]. rewrite lookup_insert_eq, delete_insert_id by done. destruct F. cbn in HQ |- *.
  change (PATH_BUFFER - 1) with 1023. by destruct (ztake 1023 t).
Qed.

Lemma dir_exists_safe F d (Q : bool -> devfs -> Prop) : Q (bool_decide (d ∈ fs_dirs F)) F -> safe D (dir_exists d) F Q.
Proof.
  intros HQ. unfold dir_exists. apply safe_bind, look_safe; [done|]. intros x ? [-> Hx].
  destruct x as [|[mode ?]]; apply safe_ret; by rewrite Hx.
Qed.

Lemma get_path_safe F v (Q : option (cstr * bool) -> devfs -> Prop) :
  short_variable F v -> Q ((λ '(p, b), have_path p 1024 b) <$> active_dir F v) F ->
  safe D (xcselect_get_developer_dir_path v 1024) F Q.
Proof.
  intros Hv HQ. unfold xcselect_get_developer_dir_path, active_dir, sources in *. cbn [foldr] in HQ. apply safe_bind.
  apply (safe_mono _ _ _ (λ r F', F' = F ∧ match v ≫= λ p, first_with_tools F (absolute_path F p) with
                                          | Some (d, c) => r = (true, d, c) | None => r.1.1 = false ∧ r.2 = false end)).
  { destruct v as [p|]; [|done]. cbn [mbind option_bind]. apply find_contents_safe; [by apply Hv| |].
    - intros d c ->. by rewrite orb_false_r.
    - by intros d ->. }
  intros [[found d] c] ? [-> Hr]. destruct (v ≫= _) as [[d' c']|]; [by simplify_eq|]. destruct Hr as [Hf Hc]. cbn in Hf, Hc. subst found c.
  apply safe_bind, link_safe. destruct (link_to F SELECT_LINK) as [[p b]|] eqn:E; cbn [fmap option_fmap option_map fst].
  { unfold link_to in E. destruct (_ ≫= _); by simplify_eq/=. }
  clear E.
  apply safe_bind, link_safe. destruct (link_to F DIR_LINK) as [[p b]|] eqn:E; cbn [fmap option_fmap option_map fst].
  { unfold link_to in E. destruct (_ ≫= _); by simplify_eq/=. }
  clear E.
  apply safe_bind, file_safe. destruct (file_text F DIR_PATH) as [[p b]|] eqn:E; cbn [fmap option_fmap option_map fst].
  { unfold file_text in E. destruct (_ ≫= _); by simplify_eq/=. }
  unfold place in HQ.
  do 3 (apply safe_bind, dir_exists_safe; case_bool_decide; [done|]). done.
Qed.
End Lookup.

(** ** Theorems *)

(** Programs that only look. *)
Definition dev_lookup : discipline devfs := Discipline (λ _ _ e, looks e = true) dev_answers (λ _ _, False) False.

(** The developer directory is that of the first source that has one; the
    search changes nothing and stays in its arrays. *)
Theorem developer_dir_found F v : short_variable F v ->
  safe dev_lookup (xcselect_get_developer_dir_path v 1024) F
       (λ r F', F' = F ∧ r = (λ '(p, b), have_path p 1024 b) <$> active_dir F v).
Proof. intros Hv. by apply get_path_safe. Qed.

Lemma have_path_short p b : strlen p <= 1022 -> have_path p 1024 b = (p ++ DIR_SEP, names_tools p || b).
Proof.
  intros Hp. unfold have_path, strlcat, strlcpy, ztake. change (strlen p) with (Z.of_nat (length p)) in Hp.
  rewrite (take_ge p) by lia. rewrite take_ge; [done|]. rewrite length_app. cbn. lia.
Qed.

Lemma have_path_last p b : ∃ c, last (have_path p 1024 b).1 = Some c.
Proof.
  unfold have_path, strlcat. cbn [fst]. destruct (last _) as [c|] eqn:E; [by exists c|]. apply last_None in E.
  apply (f_equal length) in E. unfold ztake in E. rewrite length_take, length_app in E. cbn in E. lia.
Qed.

Lemma have_path_length p b : strlen (have_path p 1024 b).1 <= 1023.
Proof. unfold have_path, strlcat, strlen, ztake. cbn [fst]. rewrite length_take. lia. Qed.

(** The directory that was found by a search is not far below. *)
Lemma first_with_tools_spec F d d' b : first_with_tools F d = Some (d', b) ->
  has_tools F d' = true ∧ (d', b) ∈ contents d ∧ strlen d' <= strlen d + 35.
Proof.
  intros H. apply List.find_some in H as [Hin Ht]. split_and!; [done|by apply list_elem_of_In|].
  unfold contents in Hin. cbn [In] in Hin. destruct Hin as [E|[E|[E|[E|[]]]]]; injection E as <- <-; rewrite ?strlen_app; [lia|..];
    unfold strlen at 2; simpl; lia.
Qed.

Lemma absolute_nonempty F p : absolute_path F p ≠ [].
Proof.
  unfold absolute_path. case_bool_decide; [by destruct p|]. intros E. apply (f_equal length) in E. rewrite !length_app in E. cbn in E. lia.
Qed.

Definition switch_rule (F : devfs) (X : Set) (e : hostE X) : Prop :=
  match e with
  | Fs (Unlink p) => p ∈ [SELECT_LINK; DIR_LINK; DIR_PATH]
  | Fs (Mkdir p mode) => p = s2c "/var/db" ∧ mode = 493
  | Fs (Symlink d p) => p = SELECT_LINK ∧ has_tools F d = true ∧ fs_links F !! DIR_LINK = None ∧ fs_files F !! DIR_PATH = None
  | Umask m => m = 18
  | _ => looks e = true
  end.
Definition dev_switch : discipline devfs := Discipline switch_rule dev_answers (λ _ st, st = 1) False.

Lemma switch_may_look F (X : Set) (e : hostE X) : looks e = true -> may_ask dev_switch F e.
Proof. by destruct e. Qed.

(** A path is gone, and nothing new is there. *)
Definition removed (p : cstr) (F F' : devfs) : Prop :=
  fs_tools F' = fs_tools F ∧ fs_links F' !! p = None ∧ fs_files F' !! p = None ∧ (∀ q, fs_links F !! q = None -> fs_links F' !! q = None).

Lemma killLink_safe F p : p ∈ [SELECT_LINK; DIR_LINK; DIR_PATH] -> safe dev_switch (killLink p) F (λ _, removed p F).
Proof.
  intros Hp. unfold killLink. apply safe_bind, safe_ask; [done|]. intros [r errno] F' Hx. cbn in Hx.
  destruct Hx as [[-> ->]|(Hr & -> & Hn)].
  - apply safe_ret. unfold removed, without. cbn. rewrite !lookup_delete_eq. split_and!; try done. intros q Hq. by rewrite lookup_delete_None; right.
  - rewrite (proj2 (Z.eqb_neq _ _)) by done. cbn [negb andb].
    destruct (errno =? ENOENT) eqn:E; [|done]. apply Z.eqb_eq in E. apply safe_ret. destruct (Hn E). by split_and!.
Qed.

Lemma doReset_safe F (Q : unit -> devfs -> Prop) :
  (∀ F', fs_tools F' = fs_tools F -> fs_links F' !! DIR_LINK = None -> fs_files F' !! DIR_PATH = None -> Q tt F') ->
  safe dev_switch doReset F Q.
Proof.
  intros HQ. unfold doReset. apply safe_bind. eapply safe_mono; [apply killLink_safe; by left|]. intros _ F1 (T1 & _).
  apply safe_bind. eapply safe_mono; [apply killLink_safe; by right; left|]. intros _ F2 (T2 & L2 & _).
  eapply safe_mono; [apply killLink_safe; by right; right; left|]. intros [] F3 (T3 & _ & E3 & K3). apply HQ; [congruence|by apply K3|done].
Qed.

Lemma has_tools_same F F' d : fs_tools F' = fs_tools F -> has_tools F' d = has_tools F d.
Proof. unfold has_tools. by intros ->. Qed.

(** [xcode-select --switch] either fails with status 1 or makes the first
    directory with tools at or below its argument the active one: the library
    then gives this directory, unless DEVELOPER_DIR says something else.  The
    link is created after the lower ranking link and file are gone, and never to
    a directory without tools. *)
Theorem switch_selects F path : strlen (absolute_path F path) <= MAX_DEVELOPER_DIR ->
  safe dev_switch (doSwitch path;; xcselect_get_developer_dir_path None 1024) F
       (λ r _, ∃ d b, first_with_tools F (absolute_path F path) = Some (d, b) ∧ r = Some (d ++ DIR_SEP, names_tools d)).
Proof.
  intros Hl. apply safe_bind. unfold doSwitch. apply safe_bind.
  apply find_contents_safe; [apply switch_may_look|done|done| |done]. intros d c Hd. cbn [negb].
  destruct (first_with_tools_spec _ _ _ _ Hd) as (Ht & Hin & Hlen). unfold MAX_DEVELOPER_DIR in Hl.
  apply safe_bind, doReset_safe. intros F' T L E. apply safe_bind, safe_ask; [done|]. intros ? ? ->.
  apply safe_bind, safe_ask; [done|]. intros ? ? ->. apply safe_bind, safe_ask; [split_and!; [done|by rewrite (has_tools_same F)|done|done]|]. intros [r e] F'' Hx. cbn [dev_switch answers dev_answers fst] in Hx.
  destruct Hx as [[-> ->]|[Hr ->]]; [|by rewrite (proj2 (Z.eqb_neq _ _))]. apply safe_ret.
  apply get_path_safe; [apply switch_may_look|done|done|]. exists d, c. split; [done|].
  assert (active_dir (with_link SELECT_LINK d F') None = Some (d, false)) as ->.
  { unfold active_dir, sources, link_to, with_link. cbn [foldr mbind option_bind fs_links]. rewrite lookup_insert_eq. cbn [mbind option_bind].
    unfold ztake. rewrite take_ge by (unfold strlen in *; lia). destruct d; [|done].
    unfold contents in Hin. rewrite !elem_of_cons in Hin. pose proof (absolute_nonempty F path). destruct (absolute_path F path); [done|]. set_solver. }
  cbn. rewrite have_path_short by lia. by rewrite orb_false_r.
Qed.

(** *** Running a tool *)

(** What is started: xcrun of the developer directory with the name of the tool
    before the arguments, or the tool itself from the directory of Darling; the
    library's function gets the tool and the arguments. *)
Definition run_rule (tool : option cstr) (argv : list cstr) (F : devfs) (X : Set) (e : hostE X) : Prop :=
  match e with
  | Execv p args =>
    args = p :: option_list tool ++ argv ∨ (∃ t, tool = Some t ∧ p = DEVELOPER_TOOLS ++ DIR_SEP ++ t ∧ args = p :: argv ∧ p ∈ fs_tools F)
  | Call_xcrun_main _ t args _ => t = tool ∧ args = argv
  | Dlopen _ | Dlsym _ _ => True
  | _ => looks e = true
  end.
Definition dev_run (tool : option cstr) (argv : list cstr) : discipline devfs :=
  Discipline (run_rule tool argv) dev_answers (λ _ st, st = 1) False.

Lemma end_with_slash_safe {S} (E : discipline S) buf s (Q : cstr -> S -> Prop) :
  strlen buf <= 1023 -> (∃ c, last buf = Some c) -> (∀ b, strlen b <= 1024 -> Q b s) -> safe E (end_with_slash 2048 buf) s Q.
Proof.
  intros Hl [c Hc] HQ. unfold end_with_slash. apply safe_bind, safe_known with c; [done|].
  destruct (ascii_dec c "/"); [apply safe_ret, HQ; lia|]. apply safe_strcat; [change (strlen DIR_SEP) with 1; lia|].
  apply HQ. rewrite strlen_app. change (strlen DIR_SEP) with 1. lia.
Qed.

(** [xcselect_invoke_xcrun] does not return: the process is replaced, by the
    right program with the right arguments, or ends with status 1. *)
Theorem invoke_runs_tool F v tool argv flags : short_variable F v ->
  safe (dev_run tool argv) (xcselect_invoke_xcrun (A := Z) v tool argv flags) F (λ _ _, False).
Proof.
  assert (∀ F (X : Set) (e : hostE X), looks e = true -> may_ask (dev_run tool argv) F e) as Hlook by (intros ??[]; done).
  intros Hv. unfold xcselect_invoke_xcrun. apply safe_bind, get_path_safe; [done..|].
  destruct (active_dir F v) as [[p b]|]; cbn [fmap option_fmap option_map].
  - pose proof (have_path_last p b) as Hlast. pose proof (have_path_length p b) as Hlen. destruct (have_path p 1024 b) as [d c]. cbn [fst] in *.
    destruct (_ && _); [done|]. apply safe_bind, safe_strcat; [change (strlen []) with 0; lia|]. change ([] ++ d) with d.
    apply safe_bind, end_with_slash_safe; [done|done|]. intros buf Hbuf.
    apply safe_bind, safe_strcat; [change (strlen LIBXCRUN) with 22; lia|]. apply safe_bind, safe_ask; [done|]. intros [lib|] ? ->.
    + apply safe_bind, safe_ask; [done|]. intros fn ? ->. apply safe_bind. destruct fn; [|by apply safe_ret].
      apply safe_ask; [done|]. intros gone ? ->. by destruct gone.
    + apply safe_bind, safe_strcat; [change (strlen BIN_XCRUN) with 13; lia|].
      apply safe_bind, safe_ask; [by left|]. intros gone ? ->. by destruct gone.
  - apply safe_bind, dir_exists_safe; [done..|]. case_bool_decide; [|done]. destruct tool as [t|]; [|done].
    apply safe_bind, safe_strcat; [pose proof (strlen_nonneg t); change (strlen []) with 0; unfold strlen at 1; simpl; lia|].
    apply safe_bind, safe_strcat; [change (strlen ([] ++ s2c "/usr/libexec/DeveloperTools/")) with 28; lia|].
    apply safe_bind, safe_ask; [done|]. intros r ? [-> Hr]. rewrite Hr. case_bool_decide; [|done].
    apply safe_bind, safe_ask; [right; by exists t|]. intros gone ? ->. by destruct gone.
Qed.

(** A tool that requires Xcode is not started from the command line tools:
    nothing but lookups precede the exit. *)
Theorem xcode_required F v p b name argv : short_variable F v -> active_dir F v = Some (p, b) -> names_tools p || b = true ->
  safe (Discipline (λ _ _ e, looks e = true) dev_answers (λ _ st, st = 1) False) (shim_main name true v argv) F (λ _ _, False).
Proof.
  intros Hv Ha Hb. unfold shim_main, xcselect_invoke_xcrun. apply safe_bind, get_path_safe; [done..|]. rewrite Ha.
  cbn [fmap option_fmap option_map]. unfold have_path. by rewrite Hb.
Qed.

(** *** Manual pages *)

Lemma manpaths_append_all rv l : mp_count rv = u32 (Z.of_nat (length (mp_paths rv))) ->
  foldl xcselect_manpaths_append rv l = Manpaths (u32 (Z.of_nat (length (mp_paths rv ++ l)))) (mp_paths rv ++ l).
Proof.
  revert rv. induction l as [|p l IH]; intros [n ps] Hn; cbn [foldl mp_count mp_paths] in *; [by rewrite app_nil_r, Hn|].
  rewrite IH; unfold xcselect_manpaths_append; cbn [mp_count mp_paths].
  - by rewrite <- app_assoc.
  - rewrite Hn, length_app. unfold u32. rewrite Zplus_mod_idemp_l. f_equal. cbn. lia.
Qed.

Definition standard_paths (d : cstr) : list cstr :=
  [d ++ s2c "/usr/share/man"; d ++ s2c "/usr/llvm-gcc-4,2/share/man"; d ++ s2c "/Toolchains/XcodeDefault.xctoolchain/usr/share/man"].

(** The library is asked for the active directory. *)
Definition man_rule (d : cstr) (sdkname : option cstr) (F : devfs) (X : Set) (e : hostE X) : Prop :=
  match e with
  | Dlopen p => p = d ++ DIR_SEP ++ LIBXCRUN
  | Call_iter_manpaths _ devpath sdk => devpath = d ++ DIR_SEP ∧ sdk = sdkname
  | Dlsym _ _ | Dlclose _ => True
  | _ => looks e = true
  end.

(** The list has the paths the library names, then the three standard ones. *)
Theorem manpaths_complete F v sdkname d b : short_variable F v -> active_dir F v = Some (d, b) -> strlen d <= 973 ->
  safe (Discipline (man_rule d sdkname) dev_answers (λ _ _, False) False) (xcselect_get_manpaths v sdkname) F
       (λ r _, ∀ mp, r = Some mp -> ∃ more, mp = Manpaths (u32 (Z.of_nat (length more + 3))) (more ++ standard_paths d)).
Proof.
  intros Hv Ha Hd. unfold xcselect_get_manpaths.
  assert (∀ F (X : Set) (e : hostE X), looks e = true -> man_rule d sdkname F X e) as Hlook by (intros ??[]; done).
  apply safe_bind, get_path_safe; [done..|]. rewrite Ha. cbn [fmap option_fmap option_map]. rewrite have_path_short by lia.
  assert (strlen (d ++ DIR_SEP) = strlen d + 1) as Hs by by rewrite strlen_app.
  apply safe_bind, safe_strcat; [rewrite Hs; change (strlen LIBXCRUN) with 22; lia|]. apply safe_bind, look_safe; [done..|].
  intros r F' _. apply safe_bind.
  apply (safe_mono _ _ _ (λ rv _, ∀ mp, rv = Some mp -> ∃ more, mp = Manpaths (u32 (Z.of_nat (length more))) more)).
  { destruct (r =? 0); [|apply safe_ret; intros mp [= <-]; by exists []].
    apply safe_bind, safe_ask; [by rewrite <- app_assoc|]. intros [module|] ? _; [|done].
    apply safe_bind, safe_ask; [done|]. intros fn ? _. apply safe_bind, (safe_mono _ _ _ (λ _ _, True)).
    { by destruct fn; [apply safe_ask|]. }
    intros more ? _. apply safe_bind, safe_ask; [done|]. intros ? ? _. apply safe_ret. intros mp [= <-]. exists more. by rewrite manpaths_append_all. }
  intros [rv|] ? Hrv; [|done]. destruct (Hrv rv eq_refl) as [more ->].
  do 3 (apply safe_bind, safe_strcat; [rewrite Hs; unfold strlen at 2; simpl; lia|]). apply safe_ret. intros mp <-%(inj Some). exists more.
  rewrite manpaths_append_all by done. cbn [mp_paths]. by rewrite <- !app_assoc, length_app.
Qed.

(** Every path of the list is given for its index, and nothing else. *)
Theorem manpaths_get mp i : mp_count mp = Z.of_nat (length (mp_paths mp)) -> 0 <= i ->
  xcselect_manpaths_get_path mp i = mp_paths mp !! Z.to_nat i.
Proof.
  intros Hc Hi. unfold xcselect_manpaths_get_path, xcselect_manpaths_get_num_paths. rewrite Hc. destruct (Z.ltb_spec i (Z.of_nat (length (mp_paths mp)))); [done|].
  symmetry. apply lookup_ge_None. lia.
Qed.

(** *** Limits *)

Lemma strcat_overflow size dst src : size < strlen dst + strlen src + 1 -> strcat_into size dst src = Crash.
Proof. intros H. unfold strcat_into, append. by rewrite (proj2 (Z.leb_gt _ _)). Qed.

Lemma strcat_cases size dst src : strcat_into size dst src = Fin (dst ++ src) ∨ strcat_into size dst src = Crash.
Proof. unfold strcat_into, append. destruct (_ <=? _); [by left|by right]. Qed.

(** A link with a longer target than [manpaths_complete] allows leaves the
    array: the target is cut to 1023 characters, and text is appended. *)
Theorem manpaths_overflow F t sdkname : fs_links F !! SELECT_LINK = Some t -> 1000 < strlen t <= 1022 ->
  ¬ safe (Discipline (λ _ _ _, True) dev_answers (λ _ _, True) True) (xcselect_get_manpaths None sdkname) F (λ _ _, True).
Proof.
  intros Ht Hl [_ H]. assert (ztake 1023 t = t) as Hz by (unfold ztake, strlen in *; apply take_ge; lia).
  assert (dev_answers F _ (Readlink SELECT_LINK 1023) (Some t) F) as Ha by (split; [done|]; rewrite Ht; cbn; by rewrite Hz).
  specialize (H (Some t) F Ha). clear Ha. destruct t as [|c t]; [change (strlen []) with 0 in Hl; lia|]. cbn -[strcat_into have_path LIBXCRUN] in H.
  rewrite have_path_short, (strcat_overflow _ _ LIBXCRUN) in H; [done| |lia].
  rewrite strlen_app. change (strlen DIR_SEP) with 1. change (strlen LIBXCRUN) with 22. lia.
Qed.

(** A long value of DEVELOPER_DIR leaves the array of [valid_dev_path]. *)
Theorem developer_dir_overflow p n : head p = Some "/"%char -> 1000 < strlen p -> xcselect_get_developer_dir_path (Some p) n = Crash.
Proof.
  intros Hh Hl. unfold xcselect_get_developer_dir_path, xcselect_find_developer_contents_from_path. rewrite bool_decide_true by done.
  assert (1000 < strlen (strlcpy p PATH_BUFFER)) as Hd by (unfold strlcpy, ztake, PATH_BUFFER, strlen in *; rewrite length_take; lia).
  revert Hd. generalize (strlcpy p PATH_BUFFER). intros d Hd. assert (valid_dev_path d = Crash) as Hv; [|cbn -[valid_dev_path]; by rewrite Hv].
  unfold valid_dev_path. destruct (strcat_cases 1024 [] d) as [->| ->]; [|done]. unfold mbind at 1. cbn [io_bind]. change ([] ++ d) with d.
  destruct (strcat_cases 1024 d DIR_SEP) as [->| ->]; [|done]. unfold mbind at 1. cbn [io_bind].
  rewrite (strcat_overflow _ _ LIBXCRUN); [done|]. rewrite strlen_app. change (strlen LIBXCRUN) with 22. change (strlen DIR_SEP) with 1. lia.
Qed.

(** With a slash at its end the directory of the command line tools is not
    recognised. *)
Theorem trailing_slash_unmarked p : names_tools (p ++ DIR_SEP) = false.
Proof.
  unfold names_tools. apply bool_decide_eq_false. assert (after_slash (p ++ DIR_SEP) = Some []) as ->; [|done].
  induction p as [|c p IH]; [done|]. cbn [after_slash app]. by rewrite IH.
Qed.
