(* ===== verification/Sudo.v ===== *)
(** * The replacement of sudo

    tools/sudo.c: options, the search of PATH for a command that is only
    listed, and the start of a command.  [argv] are the arguments after the name
    of the program; the index [firstarg] is the list that starts there.
    Messages on standard error are left out. *)
From S2P Require Import Prelude Abi Linux Simple Launcher Host Startup Xcselect.

(** [uid], [gid] and [list_mode]. *)
Record sudo_state := SudoState { su_uid : Z; su_gid : Z; su_list : bool }.

(** [sscanf(text, "%u", &n)]: the number is that of [strtoumax], cut to 32
    bits; [None] leaves [n] alone. *)
Definition scan_u (s : cstr) : option Z :=
  let s := skip_blanks s in
  let '(neg, s) := match s with c :: r => if ascii_dec c "-" then (true, r) else if ascii_dec c "+" then (false, r) else (false, s) | [] => (false, s) end in
  match s with
  | c :: _ =>
    if isdigit c then
      let v := (scan_digits 0 s).1 in
      Some (u32 (if 2 ^ 64 <=? v then 2 ^ 64 - 1 else if neg : bool then - v else v))
    else None
  | [] => None
  end.

(** What the options are and what follows them, the message of usage, or a
    null pointer given to [sscanf]. *)
Inductive sudo_result :=
| Parsed (st : sudo_state) (rest : list cstr)
| Usage
| NullArgument.

Fixpoint argparse (st : sudo_state) (argv : list cstr) : sudo_result :=
  match argv with
  | [] => Parsed st []
  | arg :: rest =>
    if one_of arg ["-g"] then
      match rest with
      | [] => NullArgument
      | n :: rest => argparse (SudoState (su_uid st) (default (su_gid st) (scan_u n)) (su_list st)) rest
      end
    else if one_of arg ["-u"] then
      match rest with
      | [] => NullArgument
      | n :: rest => argparse (SudoState (default (su_uid st) (scan_u n)) (su_gid st) (su_list st)) rest
      end
    else if one_of arg ["-A"; "-n"; "-v"] then argparse st rest
    else if one_of arg ["--"] then Parsed st argv
    else if one_of arg ["-k"] then argparse st rest
    else if one_of arg ["--help"] then Usage
    else if one_of arg ["-l"] then argparse (SudoState (su_uid st) (su_gid st) true) rest
    else Parsed st argv
  end.

(** The loop over the characters of PATH; [dir] is the text from [path] to the
    character that is looked at. *)
Fixpoint search (cmd dir chars : cstr) : io (option cstr) :=
  match chars with
  | [] => mret None
  | c :: chars =>
    if ascii_dec c ":" then
      let fullpath := dir ++ s2c "/" ++ cmd in
      r ← ask (Access_x fullpath);
      if r =? 0 then mret (Some fullpath) else search cmd [] chars
    else search cmd (dir ++ [c]) chars
  end.

(** The path and [" %s"] for every argument. *)
Definition print_command (fullpath : cstr) (args : list cstr) : cstr := fullpath ++ concat ((λ a, s2c " " ++ a) <$> args).

(** [strdup] of no PATH is undefined. *)
Definition sudo_main (PATH : option cstr) (argv : list cstr) : io Z :=
  match argparse (SudoState 0 0 false) argv with
  | Usage => mret 1
  | NullArgument => Crash
  | Parsed st rest =>
    ask (Setuid (su_uid st));;
    ask (Setgid (su_gid st));;
    match rest with
    | [] => (if su_list st then ask (Puts (s2c "List mode without command not supported yet.")) else mret tt);; mret 0
    | cmd :: args =>
      if su_list st then
        (match PATH with None => ask (Puts (s2c "can't search for command if no path")) | Some _ => mret tt end);;
        path ← known PATH;
        found ← search cmd [] path;
        match found with
        | None => mret 1
        | Some fullpath => ask (Puts (print_command fullpath args));; mret 0
        end
      else
        gone ← ask (Execvp cmd rest);
        if gone : bool then Replaced else mret 1
    end
  end.

(** ** Options *)

Inductive sudo_option := OptUser (n : cstr) | OptGroup (n : cstr) | OptList | OptIgnored (name : cstr).

Definition render (o : sudo_option) : list cstr :=
  match o with
  | OptUser n => [s2c "-u"; n]
  | OptGroup n => [s2c "-g"; n]
  | OptList => [s2c "-l"]
  | OptIgnored name => [name]
  end.

Definition option_ok (o : sudo_option) : Prop :=
  match o with OptIgnored name => one_of name ["-A"; "-n"; "-v"; "-k"] = true | _ => True end.

(** The last number that is one counts. *)
Definition apply_option (st : sudo_state) (o : sudo_option) : sudo_state :=
  match o with
  | OptUser n => SudoState (default (su_uid st) (scan_u n)) (su_gid st) (su_list st)
  | OptGroup n => SudoState (su_uid st) (default (su_gid st) (scan_u n)) (su_list st)
  | OptList => SudoState (su_uid st) (su_gid st) true
  | OptIgnored _ => st
  end.

Definition is_option (arg : cstr) : bool := one_of arg ["-g"; "-u"; "-A"; "-n"; "-v"; "-k"; "-l"; "--help"].

Lemma one_of_elem arg names : one_of arg names = true <-> ∃ n, n ∈ names ∧ arg = s2c n.
Proof.
  unfold one_of. rewrite List.existsb_exists. split.
  - intros (n & Hn & E). exists n. split; [by apply list_elem_of_In|by apply bool_decide_eq_true in E].
  - intros (n & Hn & ->). exists n. split; [by apply list_elem_of_In|by apply bool_decide_eq_true].
Qed.

Lemma argparse_option st o rest : option_ok o -> argparse st (render o ++ rest) = argparse (apply_option st o) rest.
Proof.
  destruct o as [n|n| |name]; cbn [option_ok]; try done. intros (n & Hn & ->)%one_of_elem.
  rewrite !elem_of_cons in Hn. by destruct Hn as [->|[->|[->|[->|Hn%not_elem_of_nil]]]].
Qed.

(** No other argument is taken for an option. *)
Lemma argparse_command st cmd args : is_option cmd = false -> argparse st (cmd :: args) = Parsed st (cmd :: args).
Proof.
  intros Hc. assert (∀ n, n ∈ ["-g"; "-u"; "-A"; "-n"; "-v"; "-k"; "-l"; "--help"] -> cmd ≠ s2c n) as Hn.
  { intros n Hin ->. assert (is_option (s2c n) = true) as E by (apply one_of_elem; by exists n). congruence. }
  cbn [argparse]. destruct (one_of cmd ["--"]); repeat (rewrite (not_true_is_false (one_of cmd _)); [|intros (n & Hin & E)%one_of_elem; revert E; apply Hn; set_solver]); done.
Qed.

(** Options in any order are taken up to the command, and the command keeps all
    of its arguments. *)
Theorem sudo_options st opts cmd args : Forall option_ok opts -> is_option cmd = false ->
  argparse st (concat (render <$> opts) ++ cmd :: args) = Parsed (foldl apply_option st opts) (cmd :: args).
Proof.
  intros Ho Hc. revert st. induction Ho as [|o opts Ho _ IH]; intros st; cbn [fmap list_fmap concat foldl]; [by apply argparse_command|].
  by rewrite <- app_assoc, argparse_option.
Qed.

(** The two dashes that end the options are taken for the command. *)
Theorem double_dash_is_command st argv : argparse st (s2c "--" :: argv) = Parsed st (s2c "--" :: argv).
Proof. done. Qed.

(** ** The search *)

(** The directories of PATH. *)
Fixpoint path_dirs (dir chars : cstr) : list cstr :=
  match chars with
  | [] => [dir]
  | c :: chars => if ascii_dec c ":" then dir :: path_dirs [] chars else path_dirs (dir ++ [c]) chars
  end.

Definition can_run (X : gset cstr) (_ : unit) (R : Set) (e : hostE R) (x : R) (_ : unit) : Prop :=
  match e in hostE R return R -> Prop with Access_x p => λ x, (x =? 0) = bool_decide (p ∈ X) | _ => λ _, True end x.

(** The command is found in the first directory that has it, the last directory
    of PATH apart, which is not searched. *)
Theorem search_first X cmd dir chars :
  safe (Discipline (λ _ _ _, True) (can_run X) (λ _ _, False) False) (search cmd dir chars) tt
       (λ r _, r = List.find (λ p, bool_decide (p ∈ X)) ((λ d, d ++ s2c "/" ++ cmd) <$> removelast (path_dirs dir chars))).
Proof.
  assert (∀ dir chars, path_dirs dir chars ≠ []) as Hne.
  { intros d cs. revert d. induction cs as [|c cs IH]; intros d; cbn [path_dirs]; [done|]. by destruct (ascii_dec c ":"). }
  revert dir. induction chars as [|c chars IH]; intros dir; cbn [search path_dirs]; [done|].
  destruct (ascii_dec c ":"); [|apply IH]. apply safe_bind, safe_ask; [done|]. intros r [] Hr. cbn in Hr. rewrite Hr.
  specialize (Hne [] chars). specialize (IH []). cbn [removelast]. destruct (path_dirs [] chars); [done|]. cbn [fmap list_fmap List.find].
  cbn [app]. by destruct (bool_decide _); [apply safe_ret|].
Qed.

(** With one directory in PATH nothing is found. *)
Theorem last_directory_skipped cmd path : (":"%char ∉ path) -> search cmd [] path = mret None.
Proof.
  generalize (@nil ascii). induction path as [|c path IH]; intros dir Hp; [done|]. cbn [search].
  destruct (ascii_dec c ":"); [set_solver|]. apply IH. set_solver.
Qed.
