(* ===== verification/Resolver.v ===== *)
(** * Host names

    libinfo/darling-resolver/resolver.c, the module of libinfo that looks hosts
    up in the DNS, with the functions of si_getaddrinfo.c and si_data.c that
    build its lists.  [res_query] and the reading of its answer are libresolv's
    and a parameter: a [reply].  [None] stands for undefined behaviour.

    Addresses are lists of bytes.  A list of items is a null pointer when it is
    empty; allocation succeeds. *)
From S2P Require Import Prelude Abi Simple.

Definition AF_UNSPEC : Z := 0.
Definition AF_INET : Z := 2.
Definition AF_INET6 : Z := 30.
Definition ns_t_a : Z := 1.
Definition ns_t_ptr : Z := 12.
Definition ns_t_aaaa : Z := 28.
Definition AI_NUMERICHOST : Z := 0x4.
Definition AI_ALL : Z := 0x100.
Definition AI_V4MAPPED : Z := 0x800.
Definition AI_NUMERICSERV : Z := 0x1000.
Definition SI_STATUS_NO_ERROR : Z := 0.
Definition SI_STATUS_EAI_NONAME : Z := 108.
Definition CATEGORY_HOST_IPV4 : Z := 6.
Definition CATEGORY_HOST_IPV6 : Z := 7.
Definition IPPROTO_UNSPEC : Z := 0.
Definition IPPROTO_ICMP : Z := 1.
Definition IPPROTO_UDP : Z := 17.
Definition IPPROTO_ICMPV6 : Z := 58.
Definition SOCK_STREAM : Z := 1.
Definition SOCK_DGRAM : Z := 2.
Definition SOCK_RAW : Z := 3.

Definition flag (flags f : Z) : bool := negb (Z.land flags f =? 0).

(** [ns_rr]: [rr_bytes] is the buffer from the data of the record on. *)
Record rr := Rr { rr_type : Z; rr_ttl : Z; rr_bytes : list Z }.

(** The result of [res_query]: a negative length, a message [ns_initparse]
    refuses, or the records of the answer.  Where [ns_parserr] fails ([None])
    the variable keeps its value. *)
Inductive reply := Failed | Unparsable | Answers (records : list (option rr)).

(** [memcpy] of [n] bytes. *)
Definition copy_bytes (n : nat) (bytes : list Z) : option (list Z) := if (n <=? length bytes)%nat then Some (take n bytes) else None.

(** ** Items of libinfo *)

Record ai_item := AiItem { ai_family : Z; ai_sock : Z; ai_proto : Z; ai_port : Z; ai_addr : list Z; ai_scope : Z; ai_cname : option cstr }.

Definition si_addrinfo_v4 (sock proto port : Z) (addr : list Z) (iface : Z) (cname : option cstr) : ai_item :=
  AiItem AF_INET sock proto (u16 port) addr iface cname.

Definition mapped_addr (addr : list Z) : list Z := [0;0;0;0;0;0;0;0;0;0;255;255] ++ addr.

Definition si_addrinfo_v4_mapped (sock proto port : Z) (addr : list Z) (iface : Z) (cname : option cstr) : ai_item :=
  AiItem AF_INET6 sock proto (u16 port) (mapped_addr addr) iface cname.

(** [IN6_IS_ADDR_LINKLOCAL] *)
Definition linklocal (addr : list Z) : bool := (nth 0 addr 0 =? 0xfe) && (Z.land (nth 1 addr 0) 0xc0 =? 0x80).

Definition si_addrinfo_v6 (sock proto port : Z) (addr : list Z) (iface : Z) (cname : option cstr) : ai_item :=
  let esid := nth 2 addr 0 * 256 + nth 3 addr 0 in
  if linklocal addr && negb (esid =? 0) then
    AiItem AF_INET6 sock proto (u16 port) (<[2%nat:=0]> (<[3%nat:=0]> addr)) (if iface =? 0 then esid else iface) cname
  else AiItem AF_INET6 sock proto (u16 port) addr iface cname.

(** One entry for every kind of socket. *)
Definition si_addrinfo_list (flags socktype proto : Z) (a4 a6 : option (list Z)) (port scopeid : Z) (cname4 cname6 : option cstr) : list ai_item :=
  let do_map := flag flags AI_V4MAPPED && (flag flags AI_ALL || bool_decide (a6 = None)) in
  let udp := (proto =? IPPROTO_UNSPEC) || (proto =? IPPROTO_UDP) in
  let tcp := (proto =? IPPROTO_UNSPEC) || (proto =? IPPROTO_TCP) in
  let v6 := match a6 with
            | Some a =>
              (if udp then [si_addrinfo_v6 SOCK_DGRAM IPPROTO_UDP port a scopeid cname6] else []) ++
              (if tcp then [si_addrinfo_v6 SOCK_STREAM IPPROTO_TCP port a scopeid cname6] else []) ++
              (if proto =? IPPROTO_ICMPV6 then [si_addrinfo_v6 SOCK_RAW IPPROTO_ICMPV6 port a scopeid cname6] else [])
            | None => []
            end in
  let v4 := match a4 with
            | Some a =>
              let item := if do_map then si_addrinfo_v4_mapped else si_addrinfo_v4 in
              (if udp then [item SOCK_DGRAM IPPROTO_UDP port a 0 cname4] else []) ++
              (if tcp then [item SOCK_STREAM IPPROTO_TCP port a 0 cname4] else []) ++
              (if proto =? IPPROTO_ICMP then [item SOCK_RAW IPPROTO_ICMP port a 0 cname4] else [])
            | None => []
            end in
  v6 ++ v4.

Definition si_list_concat (l x : list ai_item) : list ai_item := l ++ x.

(** ** resolver.c *)

Record host_item := HostItem { h_category : Z; h_ttl_end : Z; h_name : cstr; h_af : Z; h_length : Z; h_addrs : list (list Z) }.

Section Resolver.
Context (res_query : cstr -> Z -> reply) (now : Z).

(** The loop over the answer; [cur] is the variable [rr].  The two arrays have
    room for an address of every record. *)
Fixpoint host_loop (elem_length : nat) (type : Z) (cur : option rr) (records : list (option rr)) (addrs : list (list Z))
    : option (option rr * list (list Z)) :=
  match records with
  | [] => Some (cur, addrs)
  | r :: records =>
    let cur := match r with Some _ => r | None => cur end in
    rr ← cur;
    addrs ← (if rr_type rr =? type then a ← copy_bytes elem_length (rr_bytes rr); Some (addrs ++ [a]) else Some addrs);
    host_loop elem_length type cur records addrs
  end.

(** [Some None] is a null pointer. *)
Definition dr_hostbyname (name : cstr) (af : Z) : option (option host_item) :=
  let look (elem_length : nat) (type category : Z) :=
    match res_query name type with
    | Failed => Some None
    | Unparsable => None
    | Answers records =>
      '(rr, addrs) ← host_loop elem_length type None records [];
      rr ← rr;
      Some (Some (HostItem category (u64 (now + rr_ttl rr)) name af (Z.of_nat elem_length) addrs))
    end in
  if af =? AF_INET then look 4%nat ns_t_a CATEGORY_HOST_IPV4
  else if af =? AF_INET6 then look 16%nat ns_t_aaaa CATEGORY_HOST_IPV6
  else Some None.

Definition LABEL_DOT : cstr := s2c ".".
Definition byte_text (b : Z) : cstr := s2c (pretty (Z.to_N b)).
Definition nibble_digit (d : Z) : cstr := match s2c "0123456789abcdef" !! Z.to_nat d with Some c => [c] | None => [] end.

(** [sprintf(ptr, "%d.%d.%d.%d.in-addr.arpa", ip[3], ip[2], ip[1], ip[0])] *)
Definition ptr_v4 (ip : list Z) : cstr :=
  byte_text (nth 3 ip 0) ++ LABEL_DOT ++ byte_text (nth 2 ip 0) ++ LABEL_DOT ++ byte_text (nth 1 ip 0) ++ LABEL_DOT ++ byte_text (nth 0 ip 0) ++ s2c ".in-addr.arpa".

Definition ptr_byte (b : Z) : cstr := nibble_digit (Z.land b 0xf) ++ LABEL_DOT ++ nibble_digit (Z.shiftr b 4) ++ LABEL_DOT.

(** The text in [ptr]. *)
Definition ptr_text (addr : list Z) (af : Z) : option cstr :=
  if af =? AF_INET then Some (ptr_v4 addr)
  else if af =? AF_INET6 then
    Some (if bool_decide (take 12 addr = mapped_addr []) then ptr_v4 (drop 12 addr) else concat (ptr_byte <$> addr) ++ s2c "ip6.arpa")
  else None.

(** The loop over the answer does nothing but read the records. *)
Definition dr_hostbyaddr (addr : list Z) (af : Z) : option (option host_item) :=
  match ptr_text addr af with
  | None => Some None
  | Some ptr =>
    match res_query ptr ns_t_ptr with
    | Failed => Some None
    | Unparsable => None
    | Answers [] => Some None
    | Answers (r :: _) => _ ← r; Some None
    end
  end.

(** A loop over an answer that adds a list for every record. *)
Fixpoint list_loop (f : rr -> option (list ai_item)) (cur : option rr) (records : list (option rr)) (out : list ai_item)
    : option (option rr * list ai_item) :=
  match records with
  | [] => Some (cur, out)
  | r :: records =>
    let cur := match r with Some _ => r | None => cur end in
    rr ← cur;
    items ← f rr;
    list_loop f cur records (si_list_concat out items)
  end.

(** The variable [rr] is that of both loops. *)
Definition look_up (node : cstr) (type : Z) (f : rr -> option (list ai_item)) (cur : option rr) (out : list ai_item) : option (option rr * list ai_item) :=
  match res_query node type with
  | Failed => Some (cur, out)
  | Unparsable => None
  | Answers records => list_loop f cur records out
  end.

Definition v6_items (node : cstr) (socktype proto flags servPort : Z) (r : rr) : option (list ai_item) :=
  if rr_type r =? ns_t_aaaa then
    a ← copy_bytes 16 (rr_bytes r);
    Some (si_addrinfo_list flags socktype proto None (Some a) servPort 0 None (Some node))
  else Some [].

Definition v4_items (node : cstr) (family socktype proto flags servPort : Z) (r : rr) : option (list ai_item) :=
  if rr_type r =? ns_t_a then
    a ← copy_bytes 4 (rr_bytes r);
    Some (if family =? AF_INET6 then si_addrinfo_list flags socktype proto None (Some (mapped_addr a)) servPort 0 None (Some node)
          else si_addrinfo_list flags socktype proto (Some a) None servPort 0 (Some node) None)
  else Some [].

(** [node] is a name or, with AI_NUMERICHOST, the bytes of an address; [serv] is
    the port that [serv] points to with AI_NUMERICSERV, else the answer of
    [_gai_serv_to_port].  The result is [*err] and the list. *)
Definition dr_addrinfo (node : cstr + list Z) (serv : option Z) (family socktype proto flags : Z) : option (Z * list ai_item) :=
  let resolveV4 := if family =? AF_INET6 then flag flags AI_V4MAPPED else true in
  let resolveV6 := negb (family =? AF_INET) in
  if negb ((family =? AF_INET6) || (family =? AF_INET) || (family =? AF_UNSPEC)) then Some (SI_STATUS_NO_ERROR, [])
  else
    match serv with
    | None => if flag flags AI_NUMERICSERV then None else Some (SI_STATUS_EAI_NONAME, [])
    | Some servPort =>
      match node, flag flags AI_NUMERICHOST with
      | inr addr, true =>
        a4 ← (if family =? AF_INET then Some <$> copy_bytes 4 addr else Some None);
        a6 ← (if family =? AF_INET6 then Some <$> copy_bytes 16 addr else Some None);
        Some (SI_STATUS_NO_ERROR, si_addrinfo_list flags socktype proto a4 a6 servPort 0 None None)
      | inl name, false =>
        '(rr, out) ← (if resolveV6 then look_up name ns_t_aaaa (v6_items name socktype proto flags servPort) None [] else Some (None, []));
        let resolveV4 := resolveV4 && negb ((family =? AF_INET6) && negb (flag flags AI_ALL) && negb (bool_decide (out = []))) in
        '(_, out) ← (if resolveV4 then look_up name ns_t_a (v4_items name family socktype proto flags servPort) rr out else Some (rr, out));
        Some (SI_STATUS_NO_ERROR, out)
      | _, _ => None
      end
    end.
End Resolver.

(** ** What the answers mean *)

(** The addresses of an answer, in its order. *)
Definition addresses (type : Z) (n : nat) (rs : list rr) : list (list Z) := take n ∘ rr_bytes <$> filter (λ r, rr_type r = type) rs.

(** Records of this type have the bytes of an address. *)
Definition complete (type : Z) (n : nat) (rs : list rr) : Prop := Forall (λ r, rr_type r = type -> (n <= length (rr_bytes r))%nat) rs.

Lemma copy_bytes_take n bytes : (n <= length bytes)%nat -> copy_bytes n bytes = Some (take n bytes).
Proof. intros Hn. unfold copy_bytes. by rewrite (proj2 (Nat.leb_le _ _)). Qed.

Lemma addresses_cons type n r rs :
  addresses type n (r :: rs) = (if rr_type r =? type then [take n (rr_bytes r)] else []) ++ addresses type n rs.
Proof.
  unfold addresses. rewrite filter_cons. destruct (Z.eqb_spec (rr_type r) type) as [E|E]; [by rewrite decide_True|by rewrite decide_False].
Qed.

Lemma host_loop_spec n type cur rs addrs : complete type n rs ->
  host_loop n type cur (Some <$> rs) addrs = Some (match last rs with Some r => Some r | None => cur end, addrs ++ addresses type n rs).
Proof.
  intros Hc. revert cur addrs. induction Hc as [|r rs Hr Hc IH]; intros cur addrs; cbn [fmap list_fmap host_loop]; [by rewrite app_nil_r|].
  cbn [mbind option_bind]. rewrite addresses_cons. destruct (Z.eqb_spec (rr_type r) type) as [E|E].
  - rewrite copy_bytes_take by auto. cbn [mbind option_bind]. rewrite IH, <- app_assoc, last_cons. by destruct (last rs).
  - cbn [mbind option_bind]. rewrite IH, last_cons. by destruct (last rs).
Qed.

Lemma list_loop_spec f type n (item : list Z -> list ai_item) cur rs out : complete type n rs ->
  (∀ r, rr_type r = type -> (n <= length (rr_bytes r))%nat -> f r = Some (item (take n (rr_bytes r)))) -> (∀ r, rr_type r ≠ type -> f r = Some []) ->
  list_loop f cur (Some <$> rs) out =
  Some (match last rs with Some r => Some r | None => cur end, out ++ concat (item <$> addresses type n rs)).
Proof.
  intros Hc Hyes Hno. revert cur out. induction Hc as [|r rs Hr Hc IH]; intros cur out; cbn [fmap list_fmap list_loop]; [by rewrite app_nil_r|].
  cbn [mbind option_bind]. rewrite addresses_cons. unfold si_list_concat. destruct (Z.eqb_spec (rr_type r) type) as [E|E].
  - rewrite Hyes by auto. cbn [mbind option_bind]. rewrite IH, last_cons. cbn [app fmap list_fmap concat]. rewrite <- app_assoc. by destruct (last rs).
  - rewrite Hno by done. cbn [mbind option_bind]. rewrite IH, last_cons, app_nil_r. by destruct (last rs).
Qed.

(** A server that has these records of the two types. *)
Definition serves (res_query : cstr -> Z -> reply) (name : cstr) (a aaaa : list rr) : Prop :=
  res_query name ns_t_a = Answers (Some <$> a) ∧ res_query name ns_t_aaaa = Answers (Some <$> aaaa) ∧ complete ns_t_a 4 a ∧ complete ns_t_aaaa 16 aaaa.

(** [gethostbyname]: all addresses of the answer, in its order; records of other
    types (aliases) are skipped. *)
Theorem hostbyname_addresses res_query now name a aaaa r : serves res_query name a aaaa -> last a = Some r ->
  dr_hostbyname res_query now name AF_INET =
  Some (Some (HostItem CATEGORY_HOST_IPV4 (u64 (now + rr_ttl r)) name AF_INET 4 (addresses ns_t_a 4 a))).
Proof.
  intros (Ha & _ & Hc & _) Hr. unfold dr_hostbyname. cbn [Z.eqb AF_INET]. rewrite Ha, host_loop_spec by done.
  by rewrite Hr.
Qed.

(** An answer without records leaves the variable uninitialised whose time to
    live is read. *)
Theorem hostbyname_empty res_query now name : res_query name ns_t_a = Answers [] -> dr_hostbyname res_query now name AF_INET = None.
Proof. intros H. unfold dr_hostbyname. cbn [Z.eqb AF_INET]. by rewrite H. Qed.

(** [getaddrinfo]: first the IPv6 addresses, then the IPv4 addresses, each in the
    order of the server.  When IPv6 is asked for, IPv4 addresses follow only if
    mapped ones are accepted, and there is no other address or all are asked
    for. *)
Definition wants_v4 (family flags : Z) (six : list ai_item) : bool :=
  if family =? AF_INET6 then flag flags AI_V4MAPPED && (flag flags AI_ALL || bool_decide (six = [])) else true.

Definition six_of (node : cstr) (socktype proto flags port : Z) (aaaa : list rr) : list ai_item :=
  concat ((λ a, si_addrinfo_list flags socktype proto None (Some a) port 0 None (Some node)) <$> addresses ns_t_aaaa 16 aaaa).

Definition four_of (node : cstr) (family socktype proto flags port : Z) (a : list rr) : list ai_item :=
  concat ((λ a, if family =? AF_INET6 then si_addrinfo_list flags socktype proto None (Some (mapped_addr a)) port 0 None (Some node)
                else si_addrinfo_list flags socktype proto (Some a) None port 0 (Some node) None) <$> addresses ns_t_a 4 a).

Theorem addrinfo_order res_query node port family socktype proto flags a aaaa :
  serves res_query node a aaaa -> family ∈ [AF_INET; AF_INET6; AF_UNSPEC] -> flag flags AI_NUMERICHOST = false ->
  let six := if family =? AF_INET then [] else six_of node socktype proto flags port aaaa in
  dr_addrinfo res_query (inl node) (Some port) family socktype proto flags =
  Some (SI_STATUS_NO_ERROR, six ++ if wants_v4 family flags six then four_of node family socktype proto flags port a else []).
Proof.
  intros (Ha & H6 & Hca & Hc6) Hf Hn six. unfold dr_addrinfo. rewrite Hn.
  assert (negb ((family =? AF_INET6) || (family =? AF_INET) || (family =? AF_UNSPEC)) = false) as -> by (set_unfold; naive_solver).
  assert (∃ cur, (if negb (family =? AF_INET) then look_up res_query node ns_t_aaaa (v6_items node socktype proto flags port) None [] else Some (None, [])) = Some (cur, six)) as [cur ->].
  { unfold six. destruct (family =? AF_INET); [by eexists|]. cbn [negb]. unfold look_up. rewrite H6. eexists. erewrite (list_loop_spec _ ns_t_aaaa 16); [reflexivity|done| |].
    - intros r E Hl. unfold v6_items. rewrite E, Z.eqb_refl, copy_bytes_take by done. reflexivity.
    - intros r Hr. unfold v6_items. by rewrite (proj2 (Z.eqb_neq _ _)). }
  cbn [mbind option_bind].
  assert (∃ cur', ∀ out, look_up res_query node ns_t_a (v4_items node family socktype proto flags port) cur out = Some (cur', out ++ four_of node family socktype proto flags port a)) as [cur' Hfour].
  { eexists. intros out. unfold look_up. rewrite Ha. erewrite (list_loop_spec _ ns_t_a 4); [reflexivity|done| |].
    - intros r E Hl. unfold v4_items. rewrite E, Z.eqb_refl, copy_bytes_take by done. reflexivity.
    - intros r Hr. unfold v4_items. by rewrite (proj2 (Z.eqb_neq _ _)). }
  rewrite Hfour. unfold wants_v4. generalize six. intros l. destruct (family =? AF_INET6), (flag flags AI_V4MAPPED), (flag flags AI_ALL), (bool_decide _);
    cbn; by rewrite ?app_nil_r.
Qed.

(** *** Families *)

Definition of_family (f : Z) (l : list ai_item) : Prop := Forall (λ i, ai_family i = f) l.

Lemma si_addrinfo_v6_family sock proto port a scope c : ai_family (si_addrinfo_v6 sock proto port a scope c) = AF_INET6.
Proof. unfold si_addrinfo_v6. by destruct (_ && _). Qed.

Lemma list_v6_family flags socktype proto a port scope c4 c6 : of_family AF_INET6 (si_addrinfo_list flags socktype proto None (Some a) port scope c4 c6).
Proof.
  unfold si_addrinfo_list, of_family. rewrite app_nil_r, !Forall_app.
  split_and!; case_match; repeat constructor; apply si_addrinfo_v6_family.
Qed.

Lemma list_v4_family flags socktype proto a port scope c4 c6 :
  of_family (if flag flags AI_V4MAPPED then AF_INET6 else AF_INET) (si_addrinfo_list flags socktype proto (Some a) None port scope c4 c6).
Proof.
  unfold si_addrinfo_list, of_family. rewrite bool_decide_true, orb_true_r, andb_true_r by done. cbn [app]. rewrite !Forall_app.
  destruct (flag flags AI_V4MAPPED); split_and!; case_match; by repeat constructor.
Qed.

Lemma list_loop_family f g cur cur' records out l : (∀ r l, g r = Some l -> of_family f l) -> of_family f out ->
  list_loop g cur records out = Some (cur', l) -> of_family f l.
Proof.
  intros Hg. revert cur out. induction records as [|r records IH]; intros cur out Ho; cbn [list_loop]; [by intros [= <- <-]|].
  intros (rr & _ & (items & Hi & Hl)%bind_Some)%bind_Some. eapply IH; [|exact Hl]. apply Forall_app. split; [done|by eapply Hg].
Qed.

Lemma look_up_family f q node type g cur cur' out l : (∀ r l, g r = Some l -> of_family f l) -> of_family f out ->
  look_up q node type g cur out = Some (cur', l) -> of_family f l.
Proof. intros Hg Ho. unfold look_up. destruct (q node type); [by intros [= <- <-]|done|by apply list_loop_family]. Qed.

Lemma v6_items_family node socktype proto flags port r l : v6_items node socktype proto flags port r = Some l -> of_family AF_INET6 l.
Proof. unfold v6_items. case_match; [|by intros [= <-]; constructor]. intros (a & _ & [= <-])%bind_Some. apply list_v6_family. Qed.

Lemma v4_items_family node family socktype proto flags port r l : v4_items node family socktype proto flags port r = Some l ->
  of_family (if (family =? AF_INET6) || flag flags AI_V4MAPPED then AF_INET6 else AF_INET) l.
Proof.
  unfold v4_items. case_match; [|by intros [= <-]; constructor]. intros (a & _ & [= <-])%bind_Some.
  destruct (family =? AF_INET6); [apply list_v6_family|apply list_v4_family].
Qed.

(** Whatever the server answers, a caller that asks for IPv6 gets only IPv6
    addresses, and one that asks for IPv4 only IPv4 addresses, unless it accepts
    mapped addresses, when it gets nothing else. *)
Theorem addrinfo_family q name port family socktype proto flags status l : family ∈ [AF_INET; AF_INET6] ->
  dr_addrinfo q (inl name) (Some port) family socktype proto flags = Some (status, l) ->
  of_family (if (family =? AF_INET6) || flag flags AI_V4MAPPED then AF_INET6 else AF_INET) l.
Proof.
  intros Hf. unfold dr_addrinfo. destruct (flag flags AI_NUMERICHOST); [case_match; [intros [= <- <-]; constructor|done]|].
  assert (family = AF_INET ∨ family = AF_INET6) as [-> | ->] by (set_unfold; naive_solver); cbn -[flag look_up].
  - intros H. rewrite ?andb_true_r in H. apply bind_Some in H as ([? out] & H & [= <- <-]).
    eapply look_up_family; [|by constructor|exact H]. intros r l. apply (v4_items_family name AF_INET).
  - intros ([cur six] & H6 & H)%bind_Some. assert (of_family AF_INET6 six) as Hs.
    { eapply look_up_family; [|by constructor|exact H6]. intros r l'. apply v6_items_family. }
    apply bind_Some in H as ([? out] & H & [= <- <-]). destruct (_ && _); [|by simplify_eq].
    eapply look_up_family; [|exact Hs|exact H]. intros r l'. apply (v4_items_family name AF_INET6).
Qed.

(** *** Names of addresses *)

(** RFC 3596: the hexadecimal digits, the least significant first. *)
Definition ip6_arpa (addr : list Z) : cstr := concat (ptr_byte <$> reverse addr) ++ s2c "ip6.arpa".

(** The name that is looked up is that of the address with its bytes in the
    opposite order. *)
Theorem ptr_v6_reversed addr : take 12 addr ≠ mapped_addr [] -> ptr_text addr AF_INET6 = Some (ip6_arpa (reverse addr)).
Proof. intros Hm. unfold ptr_text, ip6_arpa. cbn [Z.eqb Pos.eqb AF_INET AF_INET6]. by rewrite bool_decide_false, reverse_involutive. Qed.

(** 2001:db8::1 *)
Definition example_v6 : list Z := [0x20; 0x01; 0x0d; 0xb8; 0; 0; 0; 0; 0; 0; 0; 0; 0; 0; 0; 1].

Theorem ptr_v6_wrong : ptr_text example_v6 AF_INET6 ≠ Some (ip6_arpa example_v6).
Proof. by vm_compute. Qed.

Lemma byte_text_length b : 0 <= b < 256 -> strlen (byte_text b) <= 3.
Proof.
  intros Hb. assert (forallb (λ n, strlen (byte_text (Z.of_nat n)) <=? 3) (seq 0 256) = true) as H by by vm_compute.
  rewrite forallb_forall in H. specialize (H (Z.to_nat b)). rewrite Z2Nat.id in H by lia. apply Z.leb_le, H, in_seq. lia.
Qed.

Lemma ptr_v4_length ip : Forall (λ b, 0 <= b < 256) ip -> strlen (ptr_v4 ip) <= 28.
Proof.
  intros Hip. assert (∀ i, strlen (byte_text (nth i ip 0)) <= 3) as Hb.
  { intros i. apply byte_text_length. destruct (nth_in_or_default i ip 0) as [H|H]; [|rewrite H; lia].
    rewrite Forall_forall in Hip. apply Hip. by apply list_elem_of_In. }
  unfold ptr_v4. rewrite !strlen_app. change (strlen LABEL_DOT) with 1. change (strlen (s2c ".in-addr.arpa")) with 13.
  pose proof (Hb 0%nat). pose proof (Hb 1%nat). pose proof (Hb 2%nat). pose proof (Hb 3%nat). lia.
Qed.

Lemma hex_digit_length d : strlen (nibble_digit d) <= 1.
Proof. unfold nibble_digit. by case_match. Qed.

Lemma ptr_bytes_length l : strlen (concat (ptr_byte <$> l)) <= 4 * Z.of_nat (length l).
Proof.
  induction l as [|b l IH]; [done|]. cbn [fmap list_fmap concat length]. rewrite strlen_app. unfold ptr_byte at 1. rewrite !strlen_app.
  change (strlen LABEL_DOT) with 1. pose proof (hex_digit_length (Z.land b 0xf)). pose proof (hex_digit_length (Z.shiftr b 4)). lia.
Qed.

(** The name and its terminator fit the array of 100 bytes. *)
Theorem ptr_fits addr af ptr : Forall (λ b, 0 <= b < 256) addr -> length addr = 16%nat -> ptr_text addr af = Some ptr -> strlen ptr + 1 <= 100.
Proof.
  intros Ha Hl. unfold ptr_text. destruct (af =? AF_INET).
  - intros [= <-]. pose proof (ptr_v4_length addr Ha). lia.
  - destruct (af =? AF_INET6); [|done]. intros <-%(inj Some). case_bool_decide.
    + pose proof (ptr_v4_length (drop 12 addr) (Forall_drop _ _ _ Ha)). lia.
    + rewrite strlen_app. pose proof (ptr_bytes_length addr). change (strlen (s2c "ip6.arpa")) with 8. lia.
Qed.

(** No address has a name. *)
Theorem hostbyaddr_null q addr af : dr_hostbyaddr q addr af = Some None ∨ dr_hostbyaddr q addr af = None.
Proof.
  unfold dr_hostbyaddr. destruct (ptr_text addr af) as [ptr|]; [|by left]. destruct (q ptr ns_t_ptr) as [| |[|[r|] rs]]; (by left) || by right.
Qed.
