(* ===== verification/Plist.v ===== *)
(** * PlistBuddy

    PlistBuddy/PlistBuddy.c, an editor for property lists with commands such as
    [Set :Key:0 value].  A property list is a tree; the pointers to containers
    that the program passes around are paths from the root, which is what they
    mean because no container is in two places (entries are copied in depth or
    come from a file that was just read).

    CFArray and CFDictionary are lists and association lists, their order is
    that of [CFDictionaryGetKeysAndValues]; texts are valid UTF-8.  Reals and
    dates are the bits of a double; reading and printing them, the XML format
    and the files are parameters ([cf]).  Messages are left out, what Print
    writes is not.  An operation on a null pointer, on an object of another type
    or on an index the array does not have is undefined. *)
From S2P Require Import Prelude Abi Simple Launcher.

#[local] Set Warnings "-register-all".
Inductive plist :=
| PString (s : cstr)
| PArray (l : list plist)
| PDict (d : list (cstr * plist))
| PBool (b : bool)
| PReal (bits : Z)
| PInteger (z : Z)
| PDate (bits : Z)
| PData (bytes : cstr).

Inductive PropertyType := typeUnknown | typeString | typeArray | typeDict | typeBool | typeReal | typeInteger | typeDate | typeData.

#[export] Instance PropertyType_eq_dec : EqDecision PropertyType.
Proof. solve_decision. Defined.

(** What the C library and CoreFoundation do: [strtod], the three attempts with
    [strptime] and the time zone, their inverses [printf("%f")] and [strftime],
    whether [CFStringGetCStringPtr] has a pointer to give, the XML format, and
    whether a file can be written. *)
Record cf := Cf {
  cf_strtod : cstr -> option Z;
  cf_date : cstr -> option Z;
  cf_real_text : Z -> cstr;
  cf_date_text : Z -> cstr;
  cf_has_ptr : cstr -> bool;
  cf_xml : plist -> option cstr;
  cf_writes : cstr -> bool }.

(** ** Dictionaries *)

Fixpoint dict_get (k : cstr) (d : list (cstr * plist)) : option plist :=
  match d with [] => None | (k', v) :: d => if decide (k' = k) then Some v else dict_get k d end.

(** [CFDictionaryAddValue] does nothing when there is the key. *)
Definition dict_add (k : cstr) (v : plist) (d : list (cstr * plist)) : list (cstr * plist) :=
  match dict_get k d with Some _ => d | None => d ++ [(k, v)] end.

(** [CFDictionaryReplaceValue] does nothing when there is no such key. *)
Fixpoint dict_replace (k : cstr) (v : plist) (d : list (cstr * plist)) : list (cstr * plist) :=
  match d with [] => [] | (k', v') :: d => if decide (k' = k) then (k', v) :: d else (k', v') :: dict_replace k v d end.

Definition dict_set (k : cstr) (v : plist) (d : list (cstr * plist)) : list (cstr * plist) :=
  match dict_get k d with Some _ => dict_replace k v d | None => d ++ [(k, v)] end.

Fixpoint dict_remove (k : cstr) (d : list (cstr * plist)) : list (cstr * plist) :=
  match d with [] => [] | (k', v') :: d => if decide (k' = k) then d else (k', v') :: dict_remove k d end.

(** ** Places *)

Inductive place_step := Key (k : cstr) | Index (i : nat).

Definition child (s : place_step) (p : plist) : option plist :=
  match s, p with
  | Key k, PDict d => dict_get k d
  | Index i, PArray l => l !! i
  | _, _ => None
  end.

Definition set_child (s : place_step) (v p : plist) : option plist :=
  match s, p with
  | Key k, PDict d => Some (PDict (dict_replace k v d))
  | Index i, PArray l => if (i <? length l)%nat then Some (PArray (<[i:=v]> l)) else None
  | _, _ => None
  end.

Fixpoint get_at (path : list place_step) (p : plist) : option plist :=
  match path with [] => Some p | s :: path => q ← child s p; get_at path q end.

(** A change of the object at a place. *)
Fixpoint change_at (path : list place_step) (f : plist -> option plist) (p : plist) : option plist :=
  match path with
  | [] => f p
  | s :: path => q ← child s p; q ← change_at path f q; set_child s q p
  end.

(** ** Words *)

Definition DQUOTE : ascii := "034".
Definition TABULATOR : ascii := "009".

Definition nextWord (input : cstr) : option cstr := match skip_blanks input with [] => None | w => Some w end.

Definition lower_char (c : ascii) : ascii :=
  let n := byte_val c in if (65 <=? n) && (n <=? 90) then ascii_of_N (Z.to_N (n + 32)) else c.
Definition same_text (a b : cstr) : bool := bool_decide (map lower_char a = map lower_char b).

(** [None]: another command; else [*next]. *)
Definition isCommand (input cmd : cstr) : option (option cstr) :=
  let len := length cmd in
  if same_text (take len input) cmd && match drop len input with [] => true | c :: _ => bool_decide (c = BLANK) end
  then Some (nextWord (drop len input)) else None.

Definition parseType (type : cstr) : PropertyType :=
  if same_text type (s2c "string") then typeString
  else if same_text type (s2c "array") then typeArray
  else if same_text type (s2c "dict") then typeDict
  else if same_text type (s2c "bool") then typeBool
  else if same_text type (s2c "real") then typeReal
  else if same_text type (s2c "integer") then typeInteger
  else if same_text type (s2c "date") then typeDate
  else if same_text type (s2c "data") then typeData
  else typeUnknown.

Definition inferType (p : plist) : PropertyType :=
  match p with
  | PString _ => typeString
  | PArray _ => typeArray
  | PDict _ => typeDict
  | PBool _ => typeBool
  | PReal _ => typeReal
  | PInteger _ => typeInteger
  | PDate _ => typeDate
  | PData _ => typeData
  end.

(** The loop of [getWord] after the first quote: the text in [out], and what
    follows the quote that ends it. *)
Fixpoint quoted (cmd : cstr) : cstr * option cstr :=
  match cmd with
  | [] => ([], None)
  | c :: rest =>
    match decide (c = BACKSLASH), rest with
    | left _, e :: rest =>
      let '(out, tail) := quoted rest in
      ((if decide (e = DQUOTE) then [DQUOTE] else if decide (e = "n"%char) then [LINEFEED]
        else if decide (e = "t"%char) then [TABULATOR] else [BACKSLASH; e]) ++ out, tail)
    | _, _ =>
      if decide (c = DQUOTE) then ([], Some rest)
      else let '(out, tail) := quoted rest in (c :: out, tail)
    end
  end.

Fixpoint split_at (sep : ascii) (s : cstr) : option (cstr * cstr) :=
  match s with
  | [] => None
  | c :: s => if decide (c = sep) then Some ([], s) else '(a, b) ← split_at sep s; Some (c :: a, b)
  end.

(** [Some None] is a null pointer; [next] tells whether the caller wants to know
    what follows.  A lonely quote is its own text, and what follows it is beyond
    the terminator. *)
Definition getWord (cmd : cstr) (next : bool) : option (option (cstr * option cstr)) :=
  match cmd with
  | c :: rest =>
    if decide (c = DQUOTE) then
      match quoted rest with
      | (out, Some tail) => Some (Some (out, nextWord tail))
      | ([], None) => if next then None else Some (Some (cmd, None))
      | (_, None) => Some None
      end
    else
      match split_at BLANK cmd with
      | None => Some (Some (cmd, None))
      | Some (w, tail) => Some (Some (w, nextWord (BLANK :: tail)))
      end
  | [] => Some (Some ([], None))
  end.

(** ** Numbers *)

Definition clamp_long (v : Z) : Z := Z.max (- 2 ^ 63) (Z.min (2 ^ 63 - 1) v).

Definition sign (s : cstr) : bool * cstr :=
  match s with c :: r => if decide (c = "-"%char) then (true, r) else if decide (c = "+"%char) then (false, r) else (false, s) | [] => (false, s) end.

(** [(int) strtol(s, NULL, 10)] *)
Definition atoi (s : cstr) : Z :=
  let '(neg, s) := sign (skip_blanks s) in
  let v := (scan_digits 0 s).1 in s32 (clamp_long (if neg : bool then - v else v)).

Definition digit_of (base : Z) (c : ascii) : option Z :=
  let n := byte_val c in
  let d := if (48 <=? n) && (n <=? 57) then n - 48 else if (97 <=? n) && (n <=? 122) then n - 87
           else if (65 <=? n) && (n <=? 90) then n - 55 else base in
  if d <? base then Some d else None.

Fixpoint digits_value (base v : Z) (s : cstr) : Z :=
  match s with c :: r => match digit_of base c with Some d => digits_value base (v * base + d) r | None => v end | [] => v end.

Definition starts_digit (base : Z) (s : cstr) : bool := match s with c :: _ => bool_decide (is_Some (digit_of base c)) | [] => false end.

(** [strtoll(s, &endptr, 0)]; [None] is [endptr == s]. *)
Definition strtoll (s : cstr) : option Z :=
  let '(neg, s) := sign (skip_blanks s) in
  let v := match s with
           | "0"%char :: x :: r =>
             if (bool_decide (x = "x"%char) || bool_decide (x = "X"%char)) && starts_digit 16 r then Some (digits_value 16 0 r) else Some (digits_value 8 0 s)
           | _ => if starts_digit 10 s then Some (digits_value (if bool_decide (head s = Some "0"%char) then 8 else 10) 0 s) else None
           end in
  v ← v; Some (clamp_long (if neg : bool then - v else v)).

(** ** Values *)

(** The loop over the characters of a text. *)
Fixpoint unescape (s : cstr) : option cstr :=
  match s with
  | [] => Some []
  | c :: rest =>
    if decide (c = BACKSLASH) then
      match rest with
      | [] => None
      | e :: rest =>
        r ← unescape rest;
        Some ((if decide (e = "n"%char) then LINEFEED else if decide (e = "t"%char) then TABULATOR else e) :: r)
      end
    else r ← unescape rest; Some (c :: r)
  end.

(** The text between the quotes, if there are any. *)
Definition unquote (s : cstr) : option cstr :=
  match s with
  | c :: rest =>
    if decide (c = DQUOTE) then if bool_decide (last s = Some DQUOTE) then Some (removelast rest) else None else Some s
  | [] => Some s
  end.

Section Program.
Context (C : cf).

(** [None] is a null pointer. *)
Definition parseValue (type : PropertyType) (string : cstr) : option plist :=
  match type with
  | typeString => s ← unquote string; s ← unescape s; Some (PString s)
  | typeData => s ← unquote string; _ ← unescape s; Some (PData string)
  | typeBool => Some (PBool (same_text string (s2c "true") || same_text string (s2c "yes") || bool_decide (string = s2c "1")))
  | typeInteger => v ← strtoll string; Some (PInteger v)
  | typeReal => PReal <$> cf_strtod C string
  | typeDate => PDate <$> cf_date C string
  | typeUnknown | typeArray | typeDict => None
  end.

(** ** Entries *)

Definition COLON : ascii := ":".

Fixpoint skip_colons (s : cstr) : cstr := match s with c :: r => if decide (c = COLON) then skip_colons r else s | [] => [] end.

(** [*pstr] is [Some str]; the token and the new [*pstr]. *)
Definition strtok_empty (str : cstr) : cstr * option cstr :=
  let str := skip_colons str in
  match split_at COLON str with Some (tok, rest) => (tok, Some rest) | None => (str, None) end.

Fixpoint strtok_all (fuel : nat) (str : cstr) : list cstr :=
  match fuel with
  | O => []
  | S fuel => match strtok_empty str with (tok, Some rest) => tok :: strtok_all fuel rest | (tok, None) => [tok] end
  end.

Record resolved := Resolved { rs_root : plist; rs_parent : option (list place_step); rs_entry : option (list place_step); rs_last : cstr }.

(** The loop over the tokens; [pos] is not null.  It may add dictionaries to
    [root]. *)
Fixpoint resolve_loop (autoCreate : bool) (root : plist) (pos lastPos : list place_step) (lastTok : cstr) (toks : list cstr) : option resolved :=
  match toks with
  | [] => Some (Resolved root (Some lastPos) (Some pos) lastTok)
  | tok :: toks =>
    let null := Some (Resolved root (if bool_decide (toks = []) then Some pos else None) None tok) in
    if decide (tok = []) then resolve_loop autoCreate root pos pos tok toks
    else
      obj ← get_at pos root;
      match obj with
      | PDict d =>
        match dict_get tok d with
        | Some _ => resolve_loop autoCreate root (pos ++ [Key tok]) pos tok toks
        | None =>
          if autoCreate && negb (bool_decide (toks = [])) then
            root ← change_at pos (λ o, match o with PDict d => Some (PDict (dict_add tok (PDict []) d)) | _ => None end) root;
            resolve_loop autoCreate root (pos ++ [Key tok]) pos tok toks
          else null
        end
      | PArray l =>
        let index := atoi tok in
        if (index <? 0) || (Z.of_nat (length l) <=? index) then null
        else resolve_loop autoCreate root (pos ++ [Index (Z.to_nat index)]) pos tok toks
      | _ => null
      end
  end.

Definition trim (whatStr : cstr) : cstr := rev (skip_colons (rev (skip_colons whatStr))).

(** The tokens of an entry; there are no more than characters. *)
Definition entry_tokens (whatStr : cstr) : list cstr := let w := trim whatStr in strtok_all (S (length w)) w.

Definition resolvePlistEntry (root : plist) (whatStr : cstr) (autoCreate : bool) : option resolved :=
  resolve_loop autoCreate root [] [] [] (entry_tokens whatStr).

(** ** Operations *)

(** Where the message is, the tree stays as it is. *)

(** What [addEntry] does after the search. *)
Definition add_new (newValue : plist) (r : resolved) : option plist :=
  match rs_parent r with
  | None => Some (rs_root r)
  | Some parent =>
    obj ← get_at parent (rs_root r);
    match obj with
    | PArray l =>
      let index := Z.to_nat (Z.max 0 (Z.min (Z.of_nat (length l)) (atoi (rs_last r)))) in
      change_at parent (λ _, Some (PArray (take index l ++ newValue :: drop index l))) (rs_root r)
    | PDict d =>
      if bool_decide (is_Some (rs_entry r)) then Some (rs_root r)
      else change_at parent (λ _, Some (PDict (dict_add (rs_last r) newValue d))) (rs_root r)
    | _ => Some (rs_root r)
    end
  end.

Definition new_value (type : PropertyType) (value : cstr) : option plist :=
  match type with typeArray => Some (PArray []) | typeDict => Some (PDict []) | _ => parseValue type value end.

Definition addEntry (root : plist) (entry : cstr) (type : PropertyType) (value : cstr) : option plist :=
  match new_value type value with
  | None => Some root
  | Some newValue => r ← resolvePlistEntry root entry true; add_new newValue r
  end.

Definition setEntry (root : plist) (entry value : cstr) : option plist :=
  r ← resolvePlistEntry root entry false;
  match rs_entry r with
  | None => Some root
  | Some place =>
    existing ← get_at place root;
    match inferType existing with
    | typeArray | typeDict => Some root
    | type =>
      match parseValue type value with
      | None => Some root
      | Some newValue =>
        parent ← rs_parent r;
        obj ← get_at parent root;
        match obj with
        | PDict d => change_at parent (λ _, Some (PDict (dict_replace (rs_last r) newValue d))) root
        | PArray l =>
          let index := atoi (rs_last r) in
          if (0 <=? index) && (index <? Z.of_nat (length l)) then change_at parent (λ _, Some (PArray (<[Z.to_nat index := newValue]> l))) root
          else None
        | _ => None
        end
      end
    end
  end.

Definition deleteEntry (root : plist) (entry : cstr) : option plist :=
  r ← resolvePlistEntry root entry false;
  match rs_entry r with
  | None => Some root
  | Some _ =>
    parent ← rs_parent r;
    obj ← get_at parent root;
    match obj with
    | PDict d => change_at parent (λ _, Some (PDict (dict_remove (rs_last r) d))) root
    | PArray l =>
      let index := atoi (rs_last r) in
      if (0 <=? index) && (index <? Z.of_nat (length l)) then change_at parent (λ _, Some (PArray (delete (Z.to_nat index) l))) root
      else None
    | _ => None
    end
  end.

(** Both places are looked for before either is checked. *)
Definition copyEntry (root : plist) (src dst : cstr) : option plist :=
  s ← resolvePlistEntry root src false;
  r ← resolvePlistEntry root dst true;
  match rs_entry s, rs_entry r with
  | None, _ | _, Some _ => Some (rs_root r)
  | Some place, None =>
    entryCopy ← get_at place (rs_root r);
    newParent ← rs_parent r;
    obj ← get_at newParent (rs_root r);
    match obj with
    | PDict d => change_at newParent (λ _, Some (PDict (dict_add (rs_last r) entryCopy d))) (rs_root r)
    | PArray l =>
      let idx := atoi (rs_last r) in
      if (0 <=? idx) && (idx <=? Z.of_nat (length l)) then
        change_at newParent (λ _, Some (PArray (take (Z.to_nat idx) l ++ entryCopy :: drop (Z.to_nat idx) l))) (rs_root r)
      else None
    | _ => None
    end
  end.

(** What [mergeFile] makes of [dest]. *)
Definition merge_into (fileContents dest : plist) : option plist :=
  match dest, fileContents with
  | PArray l, PArray l' => Some (PArray (l ++ l'))
  | PArray l, PDict d =>
    match length l with
    | O => None
    | S n => Some (PArray (take n l ++ d.*2 ++ drop n l))
    end
  | PArray l, _ => Some (PArray (l ++ [fileContents]))
  | PDict d, PDict d' => Some (PDict (foldl (λ d '(k, v), dict_set k v d) d d'))
  | PDict d, PArray _ => Some dest
  | PDict d, _ => Some (PDict (dict_set [] fileContents d))
  | _, _ => Some dest
  end.

(** [loaded] is the result of [loadPlist]. *)
Definition mergeFile (root : plist) (loaded : option plist) (entry : option cstr) : option plist :=
  match loaded with
  | None => Some root
  | Some fileContents =>
    match entry with
    | Some (c :: e) =>
      r ← resolvePlistEntry root (c :: e) true;
      match rs_entry r with
      | None => Some (rs_root r)
      | Some dest => change_at dest (merge_into fileContents) (rs_root r)
      end
    | _ => merge_into fileContents root
    end
  end.

Definition importFile (root : plist) (entry : cstr) (loaded : option plist) : option plist :=
  match loaded with
  | None => Some root
  | Some fileContents =>
    r ← resolvePlistEntry root entry true;
    match rs_parent r with
    | None => Some (rs_root r)
    | Some dest =>
      obj ← get_at dest (rs_root r);
      match obj with
      | PDict d => change_at dest (λ _, Some (PDict (dict_set (rs_last r) fileContents d))) (rs_root r)
      | PArray l =>
        let index := Z.max 0 (atoi (rs_last r)) in
        change_at dest (λ _, Some (PArray (if Z.of_nat (length l) <=? index then l ++ [fileContents] else <[Z.to_nat index := fileContents]> l))) (rs_root r)
      | _ => Some (rs_root r)
      end
    end
  end.

(** ** Printing *)

Definition spaces (n : nat) : cstr := replicate n BLANK.

Definition string_text (s : cstr) : cstr := if cf_has_ptr C s then s else s2c "(null)".

(** [printf("%lld")] *)
Definition integer_text (z : Z) : cstr := (if z <? 0 then s2c "-" else []) ++ s2c (pretty (Z.to_N (Z.abs z))).

Fixpoint prettyPrintPlist (what : plist) (indentNum : nat) : cstr :=
  match what with
  | PString s => string_text s
  | PArray l =>
    s2c "Array {" ++ [LINEFEED] ++
    concat (map (λ e, spaces indentNum ++ spaces 4 ++ prettyPrintPlist e (indentNum + 4) ++ [LINEFEED]) l) ++
    spaces indentNum ++ s2c "}"
  | PDict d =>
    s2c "Dict {" ++ [LINEFEED] ++
    concat (map (λ '(k, v), spaces indentNum ++ spaces 4 ++ string_text k ++ s2c " = " ++ prettyPrintPlist v (indentNum + 4) ++ [LINEFEED]) d) ++
    spaces indentNum ++ s2c "}"
  | PBool b => s2c (if b then "true" else "false")
  | PReal r => cf_real_text C r
  | PInteger z => integer_text z
  | PDate t => cf_date_text C t
  | PData bytes => bytes
  end.

Definition doPrint (forceXML : bool) (root : plist) (whatStr : option cstr) : option cstr :=
  let show entry :=
    if forceXML then match cf_xml C entry with Some xml => xml ++ [LINEFEED] | None => [] end
    else prettyPrintPlist entry 0 ++ [LINEFEED] in
  match whatStr with
  | None => Some (show root)
  | Some w =>
    r ← resolvePlistEntry root w false;
    match rs_entry r with
    | None => Some []
    | Some place => entry ← get_at place root; Some (show entry)
    end
  end.

(** ** The program *)

(** [plist], the files ([None]: one that cannot be read or parsed) and what was
    printed. *)
Record buddy := Buddy { b_plist : plist; b_files : gmap cstr (option plist); b_out : cstr }.
Definition set_plist (b : buddy) (p : plist) : buddy := Buddy p (b_files b) (b_out b).
Definition print (b : buddy) (text : cstr) : buddy := Buddy (b_plist b) (b_files b) (b_out b ++ text).

Context (forceXML : bool) (outputFile : cstr).

Definition loadPlist (b : buddy) (filePath : cstr) : option plist := default None (b_files b !! filePath).

Definition revertToFile (b : buddy) : bool * buddy :=
  match b_files b !! outputFile with
  | None => (true, set_plist b (PDict []))
  | Some None => (false, set_plist b (PDict []))
  | Some (Some p) => (true, set_plist b p)
  end.

Definition saveToFile (b : buddy) : bool * buddy :=
  match cf_xml C (b_plist b) with
  | None => (false, b)
  | Some _ =>
    if cf_writes C outputFile then (true, Buddy (b_plist b) (<[outputFile := Some (b_plist b)]> (b_files b)) (b_out b)) else (false, b)
  end.

(** The program goes on, ends or is undefined. *)
Inductive ran := Ran (b : buddy) | Quit (b : buddy) | Broken.

Definition with_plist (b : buddy) (p : option plist) : ran := match p with Some p => Ran (set_plist b p) | None => Broken end.

(** A command under one of its names. *)
Fixpoint isOneOf (cmd : cstr) (names : list string) : option (option cstr) :=
  match names with [] => None | n :: names => match isCommand cmd (s2c n) with Some next => Some next | None => isOneOf cmd names end end.

(** [next] after the name; without it the arguments are missing. *)
Definition with_args (b : buddy) (next : option cstr) (f : cstr -> ran) : ran := match next with None => Ran b | Some next => f next end.

(** [char* w = getWord(next, &next)]; a null pointer is passed on, and read. *)
Definition with_word (next : cstr) (f : cstr -> option cstr -> ran) : ran :=
  match getWord next true with Some (Some (w, next)) => f w next | _ => Broken end.

Definition runCommand (b : buddy) (cmd : cstr) : ran :=
  if bool_decide (is_Some (isOneOf cmd ["Exit"; "Quit"; "Bye"])) then Quit b
  else if bool_decide (is_Some (isOneOf cmd ["Help"])) then Ran b
  else if bool_decide (is_Some (isOneOf cmd ["Save"])) then Ran (saveToFile b).2
  else if bool_decide (is_Some (isOneOf cmd ["Revert"])) then Ran (revertToFile b).2
  else match isOneOf cmd ["Print"; "ls"] with
  | Some next => match doPrint forceXML (b_plist b) next with Some text => Ran (print b text) | None => Broken end
  | None =>
  if bool_decide (is_Some (isOneOf cmd ["Clear"])) then Ran b
  else match isOneOf cmd ["Set"; "="] with
  | Some next => with_args b next (λ next, with_word next (λ entry next, with_plist b (setEntry (b_plist b) entry (default [] next))))
  | None =>
  match isOneOf cmd ["Add"; "+"] with
  | Some next =>
    with_args b next (λ next, with_word next (λ entry next,
      match next with
      | None => Ran b
      | Some next =>
        with_word next (λ type next,
          let typeV := parseType type in
          if bool_decide (typeV = typeUnknown) then Ran b
          else with_plist b (addEntry (b_plist b) entry typeV (default [] next)))
      end))
  | None =>
  match isOneOf cmd ["Copy"; "cp"] with
  | Some next =>
    with_args b next (λ next, with_word next (λ src next,
      match next with
      | None => Ran b
      | Some next => match getWord next false with Some (Some (dst, _)) => with_plist b (copyEntry (b_plist b) src dst) | _ => Broken end
      end))
  | None =>
  match isOneOf cmd ["Delete"; "rm"; "-"] with
  | Some next => with_args b next (λ entry, with_plist b (deleteEntry (b_plist b) entry))
  | None =>
  match isOneOf cmd ["Merge"] with
  | Some next => with_args b next (λ next, with_word next (λ path next, with_plist b (mergeFile (b_plist b) (loadPlist b path) next)))
  | None =>
  match isOneOf cmd ["Import"] with
  | Some next =>
    with_args b next (λ next, with_word next (λ entry next,
      match next with
      | None => Ran b
      | Some next => with_word next (λ path _, with_plist b (importFile (b_plist b) entry (loadPlist b path)))
      end))
  | None => Ran b
  end end end end end end end.

(** [if (buffer[len-1] == '\n') buffer[len-1] = '\0'] *)
Definition chomp (buffer : cstr) : option cstr :=
  c ← last buffer; Some (if decide (c = LINEFEED) then removelast buffer else buffer).

(** The interactive mode; [input] is what [fgets] stores, call by call. *)
Fixpoint interact (b : buddy) (input : list cstr) : ran :=
  match input with
  | [] => Ran b
  | buffer :: input =>
    match chomp buffer with
    | None => Broken
    | Some cmd => match runCommand b cmd with Ran b => interact b input | r => r end
    end
  end.
End Program.

(** [processArgs]: a usage message, [exit(1)], the help, or options with the
    name of the file. *)
Inductive args := BadUsage | InvalidArguments | HelpOnly | Arguments (forceXML : bool) (command : option cstr) (file : cstr).

Fixpoint processArgs (forceXML : bool) (command : option cstr) (argv : list cstr) : args :=
  match argv with
  | [] => BadUsage
  | arg :: rest =>
    if decide (arg = s2c "-c") then match rest with [] => BadUsage | c :: rest => processArgs forceXML (Some c) rest end
    else if decide (arg = s2c "-x") then processArgs true command rest
    else if decide (arg = s2c "-h") then HelpOnly
    else match rest with [] => Arguments forceXML command arg | _ => InvalidArguments end
  end.

(** The exit status and what is left; [None] is undefined. *)
Definition plistbuddy_main (C : cf) (argv : list cstr) (files : gmap cstr (option plist)) (input : list cstr) : option (Z * gmap cstr (option plist) * cstr) :=
  match processArgs false None argv with
  | BadUsage | InvalidArguments => Some (1, files, [])
  | HelpOnly => Some (0, files, [])
  | Arguments forceXML command file =>
    let '(ok, b) := revertToFile file (Buddy (PDict []) files []) in
    if negb ok then Some (1, files, [])
    else
      match command with
      | Some cmd =>
        match runCommand C forceXML file b cmd with
        | Ran b => let '(ok, b) := saveToFile C file b in Some (if ok : bool then 0 else 1, b_files b, b_out b)
        | Quit b => Some (0, b_files b, b_out b)
        | Broken => None
        end
      | None =>
        match interact C forceXML file b input with
        | Ran b | Quit b => Some (0, b_files b, b_out b)
        | Broken => None
        end
      end
  end.
