(* ===== verification/PlistProofs.v ===== *)
(** * Theorems about PlistBuddy

    Tokens of entries, what the commands do to the tree compared with recursive
    functions on it, the invariant that keys are unique, and the texts of
    values. *)
From S2P Require Import Prelude Abi Simple Launcher Plist.

(** ** Dictionaries *)

Lemma dict_get_app k d d' : dict_get k (d ++ d') = match dict_get k d with Some v => Some v | None => dict_get k d' end.
Proof. induction d as [|[k' v'] d IH]; [done|]. cbn. by destruct (decide (k' = k)). Qed.

Lemma dict_get_replace k v d : is_Some (dict_get k d) -> dict_get k (dict_replace k v d) = Some v.
Proof.
  induction d as [|[k' v'] d IH]; cbn; [by intros []|]. destruct (decide (k' = k)) as [->|Hk]; cbn; [by rewrite decide_True|].
  by rewrite decide_False.
Qed.

Lemma dict_get_replace_ne k k2 v d : k2 ≠ k -> dict_get k2 (dict_replace k v d) = dict_get k2 d.
Proof.
  intros Hk. induction d as [|[k' v'] d IH]; [done|]. cbn. destruct (decide (k' = k)) as [->|]; cbn.
  - by rewrite !(decide_False (P := k = k2)) by congruence.
  - by rewrite IH.
Qed.

Lemma dict_replace_twice k v v' d : dict_replace k v (dict_replace k v' d) = dict_replace k v d.
Proof.
  induction d as [|[k' w] d IH]; [done|]. cbn. destruct (decide (k' = k)) as [->|]; cbn; [by rewrite decide_True|]. by rewrite decide_False, IH.
Qed.

Lemma dict_replace_app_new k v v' d : dict_get k d = None -> dict_replace k v (d ++ [(k, v')]) = d ++ [(k, v)].
Proof.
  induction d as [|[k' w] d IH]; cbn; [by rewrite decide_True|]. destruct (decide (k' = k)); [done|]. intros Hd. by rewrite IH.
Qed.

Lemma dict_add_new k v d : dict_get k d = None -> dict_add k v d = d ++ [(k, v)].
Proof. unfold dict_add. by intros ->. Qed.

Lemma dict_replace_keys k v d : (dict_replace k v d).*1 = d.*1.
Proof. induction d as [|[k' w] d IH]; [done|]. cbn. destruct (decide (k' = k)); cbn; congruence. Qed.

Lemma dict_get_None k d : dict_get k d = None <-> k ∉ d.*1.
Proof.
  induction d as [|[k' v] d IH]; cbn; [split; [intros _; apply not_elem_of_nil|done]|]. rewrite not_elem_of_cons.
  destruct (decide (k' = k)) as [->|]; [naive_solver|]. rewrite IH. naive_solver.
Qed.

Lemma dict_remove_keys k d : NoDup (d.*1) -> NoDup ((dict_remove k d).*1) ∧ (dict_remove k d).*1 ⊆ d.*1.
Proof.
  induction d as [|[k' v] d IH]; cbn; [done|]. intros [Hk Hd]%NoDup_cons. destruct (decide (k' = k)); [split; [done|set_solver]|].
  destruct (IH Hd) as [Hn Hs]. cbn. rewrite NoDup_cons. split; [split; [set_solver|done]|set_solver].
Qed.

Lemma dict_remove_new k v d : dict_get k d = None -> dict_remove k (d ++ [(k, v)]) = d.
Proof. induction d as [|[k' w] d IH]; cbn; [by rewrite decide_True|]. destruct (decide (k' = k)); [done|]. intros Hd. by rewrite IH. Qed.

(** ** Places *)

Lemma child_set_child s v p p' q : child s p = Some q -> set_child s v p = Some p' -> child s p' = Some v.
Proof.
  destruct s as [k|i], p as [| l | d | | | | |]; cbn [child set_child]; try done.
  - intros Hq [= <-]. apply dict_get_replace. by eexists.
  - intros Hq. case_match eqn:E; [|done]. intros [= <-]. cbn. apply list_lookup_insert_eq. by apply Nat.ltb_lt.
Qed.

Lemma set_child_twice s v v' p p' : set_child s v p = Some p' -> set_child s v' p' = set_child s v' p.
Proof.
  destruct s as [k|i], p as [| l | d | | | | |]; cbn [child set_child]; try done.
  - intros [= <-]. cbn. by rewrite dict_replace_twice.
  - case_match eqn:E; [|done]. intros [= <-]. cbn [set_child]. by rewrite length_insert, E, list_insert_insert_eq.
Qed.

Lemma set_child_some s v p q : child s p = Some q -> is_Some (set_child s v p).
Proof.
  destruct s as [k|i], p as [| l | d | | | | |]; cbn [child set_child]; try done. intros Hi%lookup_lt_Some. rewrite (proj2 (Nat.ltb_lt _ _)) by done. done.
Qed.

Lemma get_at_app a b p : get_at (a ++ b) p = get_at a p ≫= get_at b.
Proof. revert p. induction a as [|s a IH]; intros p; [done|]. cbn. destruct (child s p); [apply IH|done]. Qed.

Lemma change_at_app a b f p : change_at (a ++ b) f p = change_at a (change_at b f) p.
Proof. revert p. induction a as [|s a IH]; intros p; [done|]. cbn. destruct (child s p); [|done]. cbn. by rewrite IH. Qed.

Lemma change_at_get a f p o : get_at a p = Some o -> change_at a f p = change_at a (λ _, f o) p.
Proof.
  revert p. induction a as [|s a IH]; intros p; cbn; [by intros [= ->]|]. destruct (child s p); [|done]. cbn. intros H. by rewrite (IH _ H).
Qed.

Lemma change_at_some a f p o o' : get_at a p = Some o -> f o = Some o' -> ∃ p', change_at a f p = Some p' ∧ get_at a p' = Some o'.
Proof.
  revert p. induction a as [|s a IH]; intros p; cbn; [intros [= ->] ->; by eexists|].
  destruct (child s p) as [q|] eqn:E; [|done]. cbn. intros Hq Hf. destruct (IH q Hq Hf) as (q' & -> & Hq'). cbn.
  destruct (set_child_some s q' p q E) as [p' Hp]. rewrite Hp. exists p'. split; [done|]. by rewrite (child_set_child _ _ _ _ _ E Hp).
Qed.

Lemma change_at_twice a f g p p' : change_at a f p = Some p' -> change_at a g p' = change_at a (λ o, f o ≫= g) p.
Proof.
  revert p p'. induction a as [|s a IH]; intros p p'; cbn; [by intros ->|].
  destruct (child s p) as [q|] eqn:E; [|done]. cbn. intros (q' & Hq & Hp)%bind_Some. rewrite (child_set_child _ _ _ _ _ E Hp). cbn.
  rewrite (IH q q' Hq). destruct (change_at a (λ o, f o ≫= g) q); [|done]. cbn. by eapply set_child_twice.
Qed.

Lemma change_at_ext a f g p : (∀ o, get_at a p = Some o -> f o = g o) -> change_at a f p = change_at a g p.
Proof.
  revert p. induction a as [|s a IH]; intros p H; cbn; [by apply H|]. cbn in H. destruct (child s p); [|done]. cbn in *. by rewrite (IH _ H).
Qed.

Lemma set_child_id s p q : child s p = Some q -> set_child s q p = Some p.
Proof.
  destruct s as [k|i], p as [| l | d | | | | |]; cbn [child set_child]; try done.
  - intros H. do 2 f_equal. induction d as [|[k' v] d IH]; cbn in *; [done|]. destruct (decide (k' = k)); [congruence|]. by rewrite IH.
  - intros H. rewrite (proj2 (Nat.ltb_lt _ _)) by by eapply lookup_lt_Some. by rewrite list_insert_id.
Qed.

Lemma change_at_id a p o : get_at a p = Some o -> change_at a (λ _, Some o) p = Some p.
Proof.
  revert p. induction a as [|s a IH]; intros p; cbn; [done|]. destruct (child s p) as [q|] eqn:E; [|done]. cbn. intros H.
  rewrite (IH q H). cbn. by apply set_child_id.
Qed.

(** ** Tokens *)

Lemma split_at_spec sep s a b : split_at sep s = Some (a, b) -> s = a ++ sep :: b ∧ sep ∉ a.
Proof.
  revert a. induction s as [|c s IH]; intros a; cbn; [done|]. destruct (decide (c = sep)) as [->|Hc].
  - intros [= <- <-]. split; [done|apply not_elem_of_nil].
  - intros ([a' b'] & Hs & [= <- <-])%bind_Some. destruct (IH _ Hs) as [-> Ha]. split; [done|]. set_solver.
Qed.

Lemma split_at_app sep a b : sep ∉ a -> split_at sep (a ++ sep :: b) = Some (a, b).
Proof.
  induction a as [|c a IH]; cbn; [by rewrite decide_True|]. intros Ha. rewrite decide_False by set_solver. rewrite IH by set_solver. done.
Qed.

Lemma split_at_none sep s : sep ∉ s -> split_at sep s = None.
Proof. induction s as [|c s IH]; cbn; [done|]. intros Hs. rewrite decide_False by set_solver. by rewrite IH by set_solver. Qed.

Lemma skip_colons_id s : head s ≠ Some COLON -> skip_colons s = s.
Proof. destruct s as [|c s]; [done|]. cbn. intros Hc. by rewrite decide_False by congruence. Qed.

Lemma skip_colons_suffix s : ∃ pre, s = pre ++ skip_colons s.
Proof.
  induction s as [|c s [pre IH]]; [by exists []|]. cbn. destruct (decide (c = COLON)); [|by exists []]. exists (c :: pre). cbn. by f_equal.
Qed.

Lemma skip_colons_head s : head (skip_colons s) ≠ Some COLON.
Proof. induction s as [|c s IH]; [done|]. cbn. destruct (decide (c = COLON)); [done|]. cbn. congruence. Qed.

(** More fuel than characters makes no difference. *)
Lemma tokens_fuel n m s : (length s < n)%nat -> (length s < m)%nat -> strtok_all n s = strtok_all m s.
Proof.
  revert m s. induction n as [|n IH]; intros [|m] s Hn Hm; try lia. cbn [strtok_all]. unfold strtok_empty.
  destruct (split_at COLON (skip_colons s)) as [[tok rest]|] eqn:E; [|done]. f_equal. apply split_at_spec in E as [E _].
  destruct (skip_colons_suffix s) as [pre Hp]. rewrite E in Hp. apply (f_equal length) in Hp. rewrite !length_app in Hp. cbn in Hp. apply IH; lia.
Qed.

(** Unless the entry is the root, there are no empty tokens. *)
Lemma tokens_nonempty n s c : last s = Some c -> c ≠ COLON -> Forall (.≠ []) (strtok_all n s).
Proof.
  revert s. induction n as [|n IH]; intros s Hl Hc; [constructor|]. cbn [strtok_all]. unfold strtok_empty.
  destruct (skip_colons_suffix s) as [pre Hp]. pose proof (skip_colons_head s) as Hh. assert (skip_colons s ≠ []) as Hne.
  { clear Hh Hp. induction s as [|x s IHs]; [done|]. cbn. destruct (decide (x = COLON)); [|done]. destruct s; [cbn in Hl; congruence|]. by apply IHs. }
  destruct (split_at COLON (skip_colons s)) as [[tok rest]|] eqn:E; [|by repeat constructor]. apply split_at_spec in E as [E _].
  rewrite E in Hh, Hp. constructor; [by intros ->|]. apply (IH _); [|done]. rewrite Hp in Hl. rewrite last_app, last_app_cons in Hl.
  destruct rest as [|y rest]; [cbn in Hl; congruence|]. rewrite last_cons_cons in Hl.
  destruct (last (y :: rest)) as [z|] eqn:Ez; [done|by apply last_None in Ez].
Qed.

Lemma entry_tokens_root e : trim e = [] -> entry_tokens e = [[]].
Proof. unfold entry_tokens. by intros ->. Qed.

Lemma entry_tokens_nonempty e : trim e ≠ [] -> Forall (.≠ []) (entry_tokens e) ∧ entry_tokens e ≠ [].
Proof.
  intros Hne. unfold entry_tokens. split; [|cbn [strtok_all]; unfold strtok_empty; by repeat case_match].
  unfold trim in *. destruct (last (rev (skip_colons (rev (skip_colons e))))) as [c|] eqn:E; [|by apply last_None in E].
  apply (tokens_nonempty _ _ c); [done|]. intros ->. pose proof (skip_colons_head (rev (skip_colons e))) as Hh.
  destruct (skip_colons (rev (skip_colons e))) as [|x l]; [done|]. cbn in E, Hh. rewrite last_snoc in E. congruence.
Qed.

(** The text of an entry: a colon before every name. *)
Definition entry_text (names : list cstr) : cstr := concat ((COLON ::.) <$> names).
Definition good_name (n : cstr) : Prop := n ≠ [] ∧ COLON ∉ n.

Lemma head_no_colon s x : s ≠ [] -> COLON ∉ s -> head (s ++ x) ≠ Some COLON.
Proof. destruct s as [|c s]; [done|]. cbn. intros _ Hs [= ->]. apply Hs. left. Qed.

Lemma tokens_text names n s : Forall good_name (s :: names) -> (length (s ++ entry_text names) < n)%nat -> strtok_all n (s ++ entry_text names) = s :: names.
Proof.
  revert n s. induction names as [|t names IH]; intros n s Hg Hn; (destruct n as [|n]; [lia|]); cbn [strtok_all]; unfold strtok_empty;
    apply Forall_cons in Hg as [[Hs Hc] Hg]; rewrite skip_colons_id by by apply head_no_colon.
  - cbn. rewrite app_nil_r. by rewrite split_at_none.
  - change (entry_text (t :: names)) with (COLON :: t ++ entry_text names) in *. rewrite split_at_app by done. f_equal. apply IH; [done|].
    rewrite length_app in Hn. cbn in Hn. lia.
Qed.

(** An entry is read as the names it is written with. *)
Theorem entry_tokens_text names : names ≠ [] -> Forall good_name names -> entry_tokens (entry_text names) = names.
Proof.
  intros Hne Hg. destruct names as [|s names]; [done|]. assert (trim (entry_text (s :: names)) = s ++ entry_text names) as Ht.
  { unfold trim. pose proof Hg as [[Hs Hc] _]%Forall_cons.
    change (skip_colons (entry_text (s :: names))) with (skip_colons (s ++ entry_text names)). rewrite (skip_colons_id (s ++ _)) by by apply head_no_colon.
    rewrite skip_colons_id; [by rewrite rev_involutive|]. assert (∃ t pre, good_name t ∧ s ++ entry_text names = pre ++ t) as (t & pre & Ht & ->).
    { clear Hs Hc Hne. revert s Hg. induction names as [|t names IH]; intros s Hg.
      - exists s, []. apply Forall_cons in Hg as [Hg _]. cbn. by rewrite app_nil_r.
      - apply Forall_cons in Hg as [_ Hg]. destruct (IH t Hg) as (u & pre & Hu & E). exists u, (s ++ COLON :: pre). split; [done|].
        change (entry_text (t :: names)) with (COLON :: t ++ entry_text names). rewrite E, <- app_assoc. done. }
    destruct Ht as [Ht Htc]. rewrite rev_app_distr. destruct (rev t) as [|x l] eqn:E; [by apply (f_equal (@rev ascii)) in E; rewrite rev_involutive in E|].
    cbn. intros [= ->]. apply Htc. rewrite <- (rev_involutive t), E. cbn. set_solver. }
  unfold entry_tokens. rewrite Ht. apply tokens_text; [done|lia].
Qed.

(** ** What the commands do to the tree *)

Definition in_range (l : list plist) (tok : cstr) : bool := (0 <=? atoi tok) && (atoi tok <? Z.of_nat (length l)).

(** The place that names lead to, if there is one. *)
Fixpoint follow (toks : list cstr) (p : plist) : option (list place_step) :=
  match toks with
  | [] => Some []
  | t :: toks =>
    match p with
    | PDict d => q ← dict_get t d; path ← follow toks q; Some (Key t :: path)
    | PArray l =>
      if in_range l t then q ← l !! Z.to_nat (atoi t); path ← follow toks q; Some (Index (Z.to_nat (atoi t)) :: path) else None
    | _ => None
    end
  end.

(** Adding a value under names: dictionaries that are missing are created, an
    array gets the value before the given index. *)
Fixpoint add_at (toks : list cstr) (v p : plist) : option plist :=
  match toks with
  | [] => None
  | t :: toks =>
    match p with
    | PDict d =>
      match toks, dict_get t d with
      | [], None => Some (PDict (d ++ [(t, v)]))
      | [], Some _ => None
      | _, Some q => q' ← add_at toks v q; Some (PDict (dict_replace t q' d))
      | _, None => q' ← add_at toks v (PDict []); Some (PDict (d ++ [(t, q')]))
      end
    | PArray l =>
      match toks with
      | [] =>
        let i := Z.to_nat (Z.max 0 (Z.min (Z.of_nat (length l)) (atoi t))) in Some (PArray (take i l ++ v :: drop i l))
      | _ => if in_range l t then q ← l !! Z.to_nat (atoi t); q' ← add_at toks v q; Some (PArray (<[Z.to_nat (atoi t) := q']> l)) else None
      end
    | _ => None
    end
  end.

Lemma in_range_spec l t : in_range l t = negb ((atoi t <? 0) || (Z.of_nat (length l) <=? atoi t)).
Proof. unfold in_range. rewrite negb_orb, <- !Z.leb_antisym, Z.ltb_antisym. done. Qed.

Lemma in_range_lookup l t : in_range l t = true -> ∃ q, l !! Z.to_nat (atoi t) = Some q.
Proof. unfold in_range. rewrite andb_true_iff, Z.leb_le, Z.ltb_lt. intros [? ?]. apply lookup_lt_is_Some. lia. Qed.

Lemma add_at_fresh toks v : toks ≠ [] -> is_Some (add_at toks v (PDict [])).
Proof.
  induction toks as [|t toks IH]; [done|]. intros _. cbn. destruct toks; [done|]. destruct IH as [q Hq]; [done|]. rewrite Hq. done.
Qed.

(** One step down. *)
Lemma change_child pos s f root p q : get_at pos root = Some p -> child s p = Some q ->
  change_at (pos ++ [s]) f root = change_at pos (λ _, q' ← f q; set_child s q' p) root.
Proof. intros Hp Hq. rewrite change_at_app. rewrite (change_at_get pos _ _ _ Hp). cbn. by rewrite Hq. Qed.

Lemma get_child pos s root p : get_at pos root = Some p -> get_at (pos ++ [s]) root = child s p.
Proof. intros Hp. rewrite get_at_app, Hp. cbn. by destruct (child s p). Qed.

Lemma change_at_none pos root p : get_at pos root = Some p -> change_at pos (λ _, None) root = None.
Proof.
  revert root. induction pos as [|s pos IH]; intros root; cbn; [done|]. destruct (child s root); [|done]. cbn. intros H. by rewrite (IH _ H).
Qed.

(** The search and what follows it, from a place on. *)
Lemma add_loop toks v root pos lastPos lastTok p : toks ≠ [] -> Forall (.≠ []) toks -> get_at pos root = Some p ->
  (r ← resolve_loop true root pos lastPos lastTok toks; add_new v r) =
  match add_at toks v p with Some p' => change_at pos (λ _, Some p') root | None => Some root end.
Proof.
  revert root pos lastPos lastTok p. induction toks as [|t toks IH]; intros root pos lastPos lastTok p Hne Hg Hp; [done|].
  apply Forall_cons in Hg as [Ht Hg]. cbn [resolve_loop]. rewrite decide_False by done. rewrite Hp. cbn [mbind option_bind].
  destruct p as [s|l|d|b|x|z|x|x]; cbn [add_at].
  1, 4, 5, 6, 7, 8: unfold add_new; cbn [mbind option_bind rs_parent rs_root rs_last rs_entry]; case_bool_decide; [by rewrite Hp|done].
  - rewrite <- (negb_involutive (_ || _)), <- in_range_spec. destruct toks as [|t2 toks].
    + destruct (in_range l t) eqn:Hr; cbn [negb].
      * cbn [resolve_loop mbind option_bind]. unfold add_new. cbn [rs_parent rs_root rs_last rs_entry]. rewrite Hp. done.
      * rewrite bool_decide_true by done. unfold add_new. cbn [mbind option_bind rs_parent rs_root rs_last rs_entry]. by rewrite Hp.
    + destruct (in_range l t) eqn:Hr; cbn [negb]; [|by rewrite bool_decide_false].
      destruct (in_range_lookup l t Hr) as [q Hq]. rewrite Hq. cbn [mbind option_bind].
      rewrite (IH _ _ _ _ q); [|done|done|by rewrite (get_child pos _ _ _ Hp)].
      destruct (add_at (t2 :: toks) v q) as [q'|]; [|done]. cbn [mbind option_bind].
      rewrite (change_child pos _ _ _ _ q Hp) by done. cbn [mbind option_bind set_child].
      rewrite (proj2 (Nat.ltb_lt _ _)) by by eapply lookup_lt_Some. done.
  - destruct (dict_get t d) as [q|] eqn:Hq.
    + destruct toks as [|t2 toks].
      * cbn [resolve_loop mbind option_bind]. unfold add_new. cbn [rs_parent rs_root rs_last rs_entry]. by rewrite Hp.
      * rewrite (IH _ _ _ _ q); [|done|done|by rewrite (get_child pos _ _ _ Hp)].
        destruct (add_at (t2 :: toks) v q) as [q'|]; [|done]. cbn [mbind option_bind]. by rewrite (change_child pos _ _ _ _ q Hp).
    + destruct toks as [|t2 toks].
      * rewrite bool_decide_true by done. cbn [andb negb]. unfold add_new. cbn [mbind option_bind rs_parent rs_root rs_last rs_entry]. rewrite Hp.
        cbn [mbind option_bind]. by rewrite dict_add_new.
      * rewrite bool_decide_false by done. cbn [andb negb]. rewrite (change_at_get pos _ _ _ Hp), dict_add_new by done.
        destruct (change_at_some pos (λ _, Some (PDict (d ++ [(t, PDict [])]))) root _ _ Hp eq_refl) as (root1 & Hr1 & Hp1). rewrite Hr1. cbn [mbind option_bind].
        assert (child (Key t) (PDict (d ++ [(t, PDict [])])) = Some (PDict [])) as Hc by (cbn; rewrite dict_get_app, Hq; cbn; by rewrite decide_True).
        rewrite (IH _ _ _ _ (PDict [])); [|done|done|by rewrite (get_child pos _ _ _ Hp1)].
        destruct (add_at_fresh (t2 :: toks) v) as [q' Hq']; [done|]. rewrite Hq'. cbn [mbind option_bind].
        rewrite (change_child pos _ _ _ _ _ Hp1 Hc). cbn [mbind option_bind set_child].
        rewrite (change_at_twice _ _ _ _ _ Hr1). cbn [mbind option_bind]. by rewrite dict_replace_app_new.
Qed.

(** The search without creation finds the place that the names lead to, its
    container and the last name. *)
Definition found_at (root : plist) (pos path : list place_step) (toks : list cstr) (r : resolved) : Prop :=
  ∃ s, path = removelast path ++ [s] ∧ r = Resolved root (Some (pos ++ removelast path)) (Some (pos ++ path)) (List.last toks []) ∧
       ∃ obj, get_at (pos ++ removelast path) root = Some obj ∧
              match s with
              | Key k => k = List.last toks [] ∧ ∃ d, obj = PDict d ∧ is_Some (dict_get k d)
              | Index i => ∃ l, obj = PArray l ∧ in_range l (List.last toks []) = true ∧ i = Z.to_nat (atoi (List.last toks []))
              end.

Lemma found_step root pos s path toks t r : path ≠ [] -> toks ≠ [] -> found_at root (pos ++ [s]) path toks r -> found_at root pos (s :: path) (t :: toks) r.
Proof.
  intros Hp Ht (s' & Hs & -> & obj & Hobj & H). exists s'. destruct path as [|x path]; [done|]. destruct toks as [|t2 toks]; [done|].
  change (removelast (s :: x :: path)) with (s :: removelast (x :: path)). change (List.last (t :: t2 :: toks) []) with (List.last (t2 :: toks) []).
  rewrite <- !app_assoc in *. cbn [app] in *. split_and!; [by rewrite Hs at 1|done|]. by exists obj.
Qed.

Lemma follow_step s t toks p q path root pos lastPos lastTok : toks ≠ [] -> follow toks q = Some path ->
  (∃ r, resolve_loop false root (pos ++ [s]) lastPos lastTok toks = Some r ∧ found_at root (pos ++ [s]) path toks r) -> p = s :: path ->
  ∃ r, resolve_loop false root (pos ++ [s]) lastPos lastTok toks = Some r ∧ found_at root pos p (t :: toks) r.
Proof.
  intros Ht Hf (r & Hr & Hfound) ->. exists r. split; [done|]. apply found_step; [|done|done]. intros ->.
  destruct Hfound as (s' & Hs & _). by destruct (removelast []).
Qed.

Lemma resolve_found toks root pos lastPos lastTok p : toks ≠ [] -> Forall (.≠ []) toks -> get_at pos root = Some p ->
  match follow toks p with
  | Some path => ∃ r, resolve_loop false root pos lastPos lastTok toks = Some r ∧ found_at root pos path toks r
  | None => ∃ r, resolve_loop false root pos lastPos lastTok toks = Some r ∧ rs_root r = root ∧ rs_entry r = None
  end.
Proof.
  revert root pos lastPos lastTok p. induction toks as [|t toks IH]; intros root pos lastPos lastTok p Hne Hg Hp; [done|].
  apply Forall_cons in Hg as [Ht Hg]. cbn [resolve_loop follow]. rewrite decide_False by done. rewrite Hp. cbn [mbind option_bind].
  destruct p as [s|l|d|b|x|z|x|x]; try by eexists.
  - rewrite <- (negb_involutive (_ || _)), <- in_range_spec. destruct (in_range l t) eqn:Hr; cbn [negb]; [|by eexists].
    destruct (in_range_lookup l t Hr) as [q Hq]. rewrite Hq. cbn [mbind option_bind].
    assert (get_at (pos ++ [Index (Z.to_nat (atoi t))]) root = Some q) as Hc by by rewrite (get_child pos _ _ _ Hp).
    destruct toks as [|t2 toks].
    + cbn. eexists. split; [done|]. exists (Index (Z.to_nat (atoi t))). cbn. rewrite app_nil_r. split_and!; [done|done|].
      exists (PArray l). split; [done|]. by exists l.
    + specialize (IH root (pos ++ [Index (Z.to_nat (atoi t))]) pos t q ltac:(done) Hg Hc).
      destruct (follow (t2 :: toks) q) as [path|] eqn:Hf; [|done]. cbn [mbind option_bind]. by eapply follow_step.
  - destruct (dict_get t d) as [q|] eqn:Hq; cbn [mbind option_bind andb]; [|by eexists].
    assert (get_at (pos ++ [Key t]) root = Some q) as Hc by by rewrite (get_child pos _ _ _ Hp).
    destruct toks as [|t2 toks].
    + cbn. eexists. split; [done|]. exists (Key t). cbn. rewrite app_nil_r. split_and!; [done|done|].
      exists (PDict d). split; [done|]. split; [done|]. exists d. split; [done|]. by rewrite Hq.
    + specialize (IH root (pos ++ [Key t]) pos t q ltac:(done) Hg Hc).
      destruct (follow (t2 :: toks) q) as [path|] eqn:Hf; [|done]. cbn [mbind option_bind]. by eapply follow_step.
Qed.

(** What [Set] puts in the place of a value: containers stay, and what is no
    text of the value's type changes nothing. *)
Definition assigned (C : cf) (value : cstr) (old : plist) : plist := default old (parseValue C (inferType old) value).

(** What is left of a container. *)
Definition without_child (s : place_step) (p : plist) : option plist :=
  match s, p with
  | Key k, PDict d => Some (PDict (dict_remove k d))
  | Index i, PArray l => Some (PArray (delete i l))
  | _, _ => None
  end.

Section Commands.
Context (C : cf).

Lemma resolve_entry root entry : trim entry ≠ [] ->
  match follow (entry_tokens entry) root with
  | Some path => ∃ r, resolvePlistEntry root entry false = Some r ∧ found_at root [] path (entry_tokens entry) r
  | None => ∃ r, resolvePlistEntry root entry false = Some r ∧ rs_root r = root ∧ rs_entry r = None
  end.
Proof. intros He. destruct (entry_tokens_nonempty entry He) as [Hg Hne]. by apply (resolve_found _ _ [] [] []). Qed.

(** [Set] changes the value in the place of the entry and nothing else. *)
Theorem set_command root entry value : trim entry ≠ [] ->
  setEntry C root entry value =
  match follow (entry_tokens entry) root with Some path => change_at path (λ old, Some (assigned C value old)) root | None => Some root end.
Proof.
  intros He. pose proof (resolve_entry root entry He) as Hr. unfold setEntry.
  destruct (follow (entry_tokens entry) root) as [path|]; [|by destruct Hr as (r & -> & _ & E); cbn; rewrite E].
  destruct Hr as (r & -> & s & Hs & -> & obj & Hobj & Hcase). cbn [mbind option_bind rs_entry rs_parent rs_root rs_last app] in *.
  remember (removelast path) as pre eqn:Epre. clear Epre. subst path.
  assert (∃ old, get_at (pre ++ [s]) root = Some old ∧ child s obj = Some old) as (old & Hold & Hchild).
  { rewrite (get_child _ _ _ _ Hobj). destruct s as [k|i].
    - destruct Hcase as (_ & d & -> & [old Hd]). by exists old.
    - destruct Hcase as (l & -> & Hin & ->). destruct (in_range_lookup _ _ Hin) as [old Hl]. by exists old. }
  rewrite Hold. cbn [mbind option_bind]. rewrite (change_at_get _ _ _ _ Hold). unfold assigned.
  destruct (parseValue C (inferType old) value) as [new|] eqn:Hv.
  2: { cbn [default]. rewrite change_at_id by done. by destruct (inferType old); rewrite ?Hv. }
  cbn [default]. rewrite (change_child _ _ _ _ _ _ Hobj Hchild). cbn [mbind option_bind].
  transitivity (match obj with
                | PDict d => change_at pre (λ _, Some (PDict (dict_replace (List.last (entry_tokens entry) []) new d))) root
                | PArray l => if in_range l (List.last (entry_tokens entry) []) then change_at pre (λ _, Some (PArray (<[Z.to_nat (atoi (List.last (entry_tokens entry) [])) := new]> l))) root else None
                | _ => None end).
  { rewrite Hobj. destruct (inferType old); rewrite ?Hv; done. }
  destruct s as [k|i]; [by destruct Hcase as (-> & d & -> & _)|]. destruct Hcase as (l & -> & Hin & ->). rewrite Hin. cbn [set_child].
  by rewrite (proj2 (Nat.ltb_lt _ _)) by by eapply lookup_lt_Some.
Qed.

(** [Delete] removes the entry from its container. *)
Theorem delete_command root entry : trim entry ≠ [] ->
  deleteEntry root entry =
  match follow (entry_tokens entry) root with
  | Some path => match last path with Some s => change_at (removelast path) (without_child s) root | None => None end
  | None => Some root
  end.
Proof.
  intros He. pose proof (resolve_entry root entry He) as Hr. unfold deleteEntry.
  destruct (follow (entry_tokens entry) root) as [path|]; [|by destruct Hr as (r & -> & _ & E); cbn; rewrite E].
  destruct Hr as (r & -> & s & Hs & -> & obj & Hobj & Hcase). cbn [mbind option_bind rs_entry rs_parent rs_root rs_last app] in *.
  rewrite Hs at 2. rewrite last_snoc, Hobj. cbn [mbind option_bind]. rewrite (change_at_get _ (without_child s) _ _ Hobj).
  destruct s as [k|i]; [by destruct Hcase as (-> & d & -> & _)|].
  destruct Hcase as (l & -> & Hin & ->). unfold in_range in Hin. by rewrite Hin.
Qed.

(** [Add] is [add_at] with the value of the text; where the names cannot be
    added, or the text is no value, the tree is unchanged. *)
Theorem add_command root entry type value : trim entry ≠ [] ->
  addEntry C root entry type value = Some (default root (new_value C type value ≫= λ v, add_at (entry_tokens entry) v root)).
Proof.
  intros He. destruct (entry_tokens_nonempty entry He) as [Hg Hne]. unfold addEntry, resolvePlistEntry.
  destruct (new_value C type value) as [v|]; [|done]. rewrite (add_loop _ _ _ _ _ _ root) by done. cbn. by destruct (add_at _ v root).
Qed.
End Commands.

(** ** Setting and getting *)

#[export] Instance place_step_eq_dec : EqDecision place_step.
Proof. solve_decision. Defined.

(** Places neither of which is in the other. *)
Fixpoint apart_places (a b : list place_step) : bool :=
  match a, b with s :: a, s' :: b => if decide (s = s') then apart_places a b else true | _, _ => false end.

Lemma child_set_child_ne s s' v p p' : s ≠ s' -> set_child s v p = Some p' -> child s' p' = child s' p.
Proof.
  intros Hs. destruct s as [k|i], p as [| l | d | | | | |]; cbn [set_child]; try done.
  - intros [= <-]. destruct s' as [k'|i']; [|done]. cbn. apply dict_get_replace_ne. congruence.
  - case_match; [|done]. intros [= <-]. destruct s' as [k'|i']; [done|]. cbn. apply list_lookup_insert_ne. congruence.
Qed.

Lemma change_at_frame a b f p p' : change_at a f p = Some p' -> apart_places a b = true -> get_at b p' = get_at b p.
Proof.
  revert b p p'. induction a as [|s a IH]; intros [|s' b] p p'; cbn; try done. intros (q & Hq & (q' & Hq' & Hp)%bind_Some)%bind_Some.
  destruct (decide (s = s')) as [<-|Hs]; [|by intros _; rewrite (child_set_child_ne _ _ _ _ _ Hs Hp)].
  intros Ha. rewrite (child_set_child _ _ _ _ _ Hq Hp), Hq. cbn. by eapply IH.
Qed.

Lemma parseValue_type C type value v : parseValue C type value = Some v -> inferType v = type.
Proof.
  destruct type; cbn; try done.
  - intros (? & _ & (? & _ & [= <-])%bind_Some)%bind_Some. done.
  - by intros [= <-].
  - intros (? & _ & ->)%fmap_Some. done.
  - intros (? & _ & [= <-])%bind_Some. done.
  - intros (? & _ & ->)%fmap_Some. done.
  - intros (? & _ & (? & _ & [= <-])%bind_Some)%bind_Some. done.
Qed.

(** After [Set] the entry has the value of the text, with the type it had, and
    every other place is as before. *)
Theorem set_then_get C root entry value path old new : trim entry ≠ [] ->
  follow (entry_tokens entry) root = Some path -> get_at path root = Some old -> parseValue C (inferType old) value = Some new ->
  ∃ root', setEntry C root entry value = Some root' ∧ get_at path root' = Some new ∧ inferType new = inferType old ∧
           ∀ b, apart_places path b = true -> get_at b root' = get_at b root.
Proof.
  intros He Hf Ho Hv. rewrite set_command, Hf by done.
  destruct (change_at_some path (λ old, Some (assigned C value old)) root old new Ho) as (root' & Hr & Hg); [unfold assigned; by rewrite Hv|].
  exists root'. split_and!; [done|done|by eapply parseValue_type|]. intros b Hb. by eapply change_at_frame.
Qed.

(** ** Adding and deleting *)

Lemma follow_change toks p path f p' : follow toks p = Some path -> change_at path f p = Some p' -> follow toks p' = Some path.
Proof.
  revert p path p'. induction toks as [|t toks IH]; intros p path p'; cbn [follow]; [by intros [= <-]|].
  destruct p as [| l | d | | | | |]; try done.
  - destruct (in_range l t) eqn:Hr; [|done]. intros (q & Hq & (path' & Hf & [= <-])%bind_Some)%bind_Some. cbn [change_at child]. rewrite Hq. cbn [mbind option_bind].
    intros (q' & Hq' & Hp)%bind_Some. cbn [set_child] in Hp. case_match; [|done]. injection Hp as <-. unfold in_range in *. rewrite length_insert, Hr.
    rewrite list_lookup_insert_eq by by eapply lookup_lt_Some. cbn [mbind option_bind]. by rewrite (IH _ _ _ Hf Hq').
  - intros (q & Hq & (path' & Hf & [= <-])%bind_Some)%bind_Some. cbn [change_at child]. rewrite Hq. cbn [mbind option_bind].
    intros (q' & Hq' & Hp)%bind_Some. injection Hp as <-. rewrite dict_get_replace by by rewrite Hq. cbn [mbind option_bind]. by rewrite (IH _ _ _ Hf Hq').
Qed.

Lemma follow_get toks p path : follow toks p = Some path -> ∃ o, get_at path p = Some o.
Proof.
  revert p path. induction toks as [|t toks IH]; intros p path; cbn [follow]; [intros [= <-]; by eexists|].
  destruct p as [| l | d | | | | |]; try done.
  - destruct (in_range l t); [|done]. intros (q & Hq & (path' & Hf & [= <-])%bind_Some)%bind_Some. cbn. rewrite Hq. by apply IH.
  - intros (q & Hq & (path' & Hf & [= <-])%bind_Some)%bind_Some. cbn. rewrite Hq. by apply IH.
Qed.

Lemma follow_snoc toks t p path d : follow toks p = Some path -> get_at path p = Some (PDict d) ->
  follow (toks ++ [t]) p = match dict_get t d with Some _ => Some (path ++ [Key t]) | None => None end.
Proof.
  revert p path. induction toks as [|u toks IH]; intros p path; cbn [follow app]; [intros [= <-] [= ->]; by destruct (dict_get t d)|].
  destruct p as [| l | d' | | | | |]; try done.
  - destruct (in_range l u); [|done]. intros (q & Hq & (path' & Hf & [= <-])%bind_Some)%bind_Some. cbn. rewrite Hq. cbn. intros Hg.
    rewrite (IH _ _ Hf Hg). by destruct (dict_get t d).
  - intros (q & Hq & (path' & Hf & [= <-])%bind_Some)%bind_Some. cbn. rewrite Hq. cbn. intros Hg. rewrite (IH _ _ Hf Hg). by destruct (dict_get t d).
Qed.

Lemma add_at_snoc toks t v p path d : follow toks p = Some path -> get_at path p = Some (PDict d) -> dict_get t d = None ->
  add_at (toks ++ [t]) v p = change_at path (λ _, Some (PDict (d ++ [(t, v)]))) p.
Proof.
  intros Hf Hg Ht. revert p path Hf Hg. induction toks as [|u toks IH]; intros p path; cbn [follow app]; [intros [= <-] [= ->]; cbn; by rewrite Ht|].
  assert (∃ x l, toks ++ [t] = x :: l) as (x & l & E) by (destruct toks; by eexists _, _). cbn [add_at].
  destruct p as [| l' | d' | | | | |]; try done.
  - destruct (in_range l' u) eqn:Hr; [|done]. intros (q & Hq & (path' & Hf & [= <-])%bind_Some)%bind_Some. cbn [get_at change_at child]. rewrite Hq. cbn [mbind option_bind]. intros Hg.
    rewrite (IH _ _ Hf Hg), E. destruct (change_at path' _ q); [|done]. cbn [mbind option_bind set_child].
    by rewrite (proj2 (Nat.ltb_lt _ _)) by by eapply lookup_lt_Some.
  - intros (q & Hq & (path' & Hf & [= <-])%bind_Some)%bind_Some. cbn [get_at change_at child]. rewrite Hq. cbn [mbind option_bind]. intros Hg.
    rewrite (IH _ _ Hf Hg), E. by destruct (change_at path' _ q).
Qed.

(** An entry that is added to a dictionary is found with its value, and deleting
    it again restores the tree. *)
Theorem add_then_delete C root toks t type value v path d : Forall good_name (toks ++ [t]) ->
  follow toks root = Some path -> get_at path root = Some (PDict d) -> dict_get t d = None -> new_value C type value = Some v ->
  let entry := entry_text (toks ++ [t]) in
  ∃ root', addEntry C root entry type value = Some root' ∧ follow (toks ++ [t]) root' = Some (path ++ [Key t]) ∧
           get_at (path ++ [Key t]) root' = Some v ∧ deleteEntry root' entry = Some root.
Proof.
  intros Hg Hf Ho Ht Hv entry. assert (toks ++ [t] ≠ []) as Hne by by destruct toks.
  assert (entry_tokens entry = toks ++ [t]) as He by by apply entry_tokens_text.
  assert (trim entry ≠ []) as Htrim.
  { intros E. rewrite (entry_tokens_root _ E) in He. rewrite <- He in Hg. by apply Forall_cons in Hg as [[? _] _]. }
  destruct (change_at_some path (λ _, Some (PDict (d ++ [(t, v)]))) root _ _ Ho eq_refl) as (root' & Hr & Ho'). exists root'.
  assert (dict_get t (d ++ [(t, v)]) = Some v) as Hget by (rewrite dict_get_app, Ht; cbn; by rewrite decide_True).
  assert (follow (toks ++ [t]) root' = Some (path ++ [Key t])) as Hf'.
  { rewrite (follow_snoc _ _ _ _ _ (follow_change _ _ _ _ _ Hf Hr) Ho'). by rewrite Hget. }
  split_and!; [|done|by rewrite (get_child _ _ _ _ Ho')|].
  - rewrite add_command by done. rewrite Hv, He. cbn [mbind option_bind]. by rewrite (add_at_snoc _ _ _ _ _ _ Hf Ho Ht), Hr.
  - rewrite delete_command, He, Hf' by done. rewrite last_snoc, removelast_last. rewrite (change_at_twice _ _ _ _ _ Hr). cbn [mbind option_bind without_child].
    rewrite dict_remove_new by done. by apply change_at_id.
Qed.

Definition no_cf : cf := Cf (λ _, None) (λ _, None) (λ _, []) (λ _, []) (λ _, true) (λ _, Some []) (λ _, true).

(** [Add :a:k integer 7], and [Delete :a:k], in a tree with an entry [a]. *)
Lemma add_then_delete_witness :
  ∃ root', addEntry no_cf (PDict [(s2c "a", PDict [])]) (s2c ":a:k") typeInteger (s2c "7") = Some root' ∧
           follow [s2c "a"; s2c "k"] root' = Some [Key (s2c "a"); Key (s2c "k")] ∧
           get_at [Key (s2c "a"); Key (s2c "k")] root' = Some (PInteger 7) ∧
           deleteEntry root' (s2c ":a:k") = Some (PDict [(s2c "a", PDict [])]).
Proof.
  apply (add_then_delete no_cf (PDict [(s2c "a", PDict [])]) [s2c "a"] (s2c "k") typeInteger (s2c "7") (PInteger 7) [Key (s2c "a")] []);
    [|reflexivity..]. repeat constructor; try done; by apply (bool_decide_unpack _).
Defined.

(** ** Unique keys *)

Fixpoint wf (p : plist) : Prop :=
  match p with
  | PArray l => (fix all l := match l with [] => True | x :: l => wf x ∧ all l end) l
  | PDict d => NoDup (d.*1) ∧ (fix all d := match d with [] => True | (_, x) :: d => wf x ∧ all d end) d
  | _ => True
  end.

Lemma wf_array l : wf (PArray l) <-> Forall wf l.
Proof. induction l as [|x l IH]; [done|]. rewrite Forall_cons. cbn in *. by rewrite IH. Qed.

Lemma wf_dict d : wf (PDict d) <-> NoDup (d.*1) ∧ Forall (λ kv, wf kv.2) d.
Proof.
  cbn [wf]. apply and_iff_compat_l. induction d as [|[k x] d IH]; [done|]. rewrite Forall_cons. by rewrite IH.
Qed.

Lemma dict_get_elem k v d : dict_get k d = Some v -> (k, v) ∈ d.
Proof. induction d as [|[k' w] d IH]; cbn; [done|]. destruct (decide (k' = k)) as [->|]; [intros [= ->]; left|]. intros H. right. auto. Qed.

Lemma Forall_dict_replace (P : cstr * plist -> Prop) k v d : Forall P d -> (∀ k', P (k', v)) -> Forall P (dict_replace k v d).
Proof. intros Hd Hv. induction Hd as [|[k' w] d Hw Hd IH]; cbn; [done|]. destruct (decide (k' = k)); by constructor. Qed.

Lemma wf_replace k v d : wf (PDict d) -> wf v -> wf (PDict (dict_replace k v d)).
Proof. rewrite !wf_dict, dict_replace_keys. intros [Hn Hd] Hv. split; [done|]. by apply Forall_dict_replace. Qed.

Lemma wf_snoc k v d : wf (PDict d) -> wf v -> dict_get k d = None -> wf (PDict (d ++ [(k, v)])).
Proof.
  rewrite !wf_dict. intros [Hn Hd] Hv Hk%dict_get_None. rewrite fmap_app, NoDup_app, Forall_app. split_and!; [done| |apply NoDup_singleton|done|by repeat constructor].
  intros x Hx. cbn. set_solver.
Qed.

Lemma wf_add k v d : wf (PDict d) -> wf v -> wf (PDict (dict_add k v d)).
Proof. intros Hd Hv. unfold dict_add. destruct (dict_get k d) eqn:E; [done|by apply wf_snoc]. Qed.

Lemma wf_set k v d : wf (PDict d) -> wf v -> wf (PDict (dict_set k v d)).
Proof. intros Hd Hv. unfold dict_set. destruct (dict_get k d) eqn:E; [by apply wf_replace|by apply wf_snoc]. Qed.

Lemma wf_remove k d : wf (PDict d) -> wf (PDict (dict_remove k d)).
Proof.
  rewrite !wf_dict. intros [Hn Hd]. split; [by apply dict_remove_keys|].
  clear Hn. induction Hd as [|[k' w] d Hw Hd IH]; cbn; [done|]. destruct (decide (k' = k)); [done|by constructor].
Qed.

Lemma wf_insert_array i v l : wf (PArray l) -> wf v -> wf (PArray (take i l ++ v :: drop i l)).
Proof. rewrite !wf_array. intros Hl Hv. apply Forall_app. split; [by apply Forall_take|]. constructor; [done|by apply Forall_drop]. Qed.

Lemma wf_child s p q : wf p -> child s p = Some q -> wf q.
Proof.
  destruct s as [k|i], p as [| l | d | | | | |]; cbn [child]; try done.
  - rewrite wf_dict, Forall_forall. intros [_ Hd] Hq%dict_get_elem. by apply (Hd (k, q)).
  - rewrite wf_array. intros Hl Hq. by eapply Forall_lookup_1.
Qed.

Lemma wf_set_child s v p p' : wf p -> wf v -> set_child s v p = Some p' -> wf p'.
Proof.
  intros Hp Hv. destruct s as [k|i], p as [| l | d | | | | |]; cbn [set_child]; try done; [intros [= <-]; by apply wf_replace|].
  case_match; [|done]. intros [= <-]. rewrite wf_array in *. by apply Forall_insert.
Qed.

Lemma wf_get a p q : wf p -> get_at a p = Some q -> wf q.
Proof. revert p. induction a as [|s a IH]; intros p Hp; cbn; [by intros [= <-]|]. intros (q' & Hq & Hg)%bind_Some. eapply IH; [|done]. by eapply wf_child. Qed.

Lemma wf_change a f p p' : wf p -> (∀ o o', get_at a p = Some o -> wf o -> f o = Some o' -> wf o') -> change_at a f p = Some p' -> wf p'.
Proof.
  revert p p'. induction a as [|s a IH]; intros p p' Hp Hf; cbn; [by apply Hf|]. intros (q & Hq & (q' & Hq' & Hs)%bind_Some)%bind_Some.
  eapply wf_set_child; [exact Hp| |exact Hs]. eapply IH; [by eapply wf_child| |exact Hq']. intros o o' Ho. apply Hf. cbn. by rewrite Hq.
Qed.

(** A constant change: the form in which the program writes to a container. *)
Lemma wf_store a o p p' : wf p -> wf o -> change_at a (λ _, Some o) p = Some p' -> wf p'.
Proof. intros Hp Ho. apply wf_change; [done|]. by intros ? ? _ _ [= <-]. Qed.

Lemma resolve_wf ac root pos lastPos lastTok toks r : wf root -> resolve_loop ac root pos lastPos lastTok toks = Some r -> wf (rs_root r).
Proof.
  revert root pos lastPos lastTok. induction toks as [|t toks IH]; intros root pos lastPos lastTok Hr; cbn [resolve_loop]; [by intros [= <-]|].
  destruct (decide (t = [])); [by apply IH|]. intros (o & Ho & H)%bind_Some. destruct o as [| l | d | | | | |]; try by simplify_eq.
  - destruct (_ || _); [by simplify_eq|]. by eapply IH.
  - destruct (dict_get t d); [by eapply IH|]. destruct (_ && _); [|by simplify_eq]. apply bind_Some in H as (root1 & H1 & H). eapply IH; [|exact H].
    eapply wf_change; [exact Hr| |exact H1]. intros o o' _ Hw. destruct o as [| |d'| | | | |]; try done. intros [= <-]. apply wf_add; [done|]. split; [constructor|done].
Qed.

(** The end of every operation: a container of the tree is replaced. *)
Ltac store_wf :=
  match goal with
  | H : wf ?p, E : change_at _ (λ _, Some _) ?p = Some ?q |- wf ?q => apply (wf_store _ _ _ _ H) in E; [exact E|]
  | E : Some _ = Some _ |- _ => injection E as <-; done
  end.

Section Keys.
Context (C : cf).

Lemma wf_parse type value v : parseValue C type value = Some v -> wf v.
Proof. intros H. apply parseValue_type in H as Ht. destruct v; cbn in Ht; subst type; done. Qed.

Lemma wf_new type value v : new_value C type value = Some v -> wf v.
Proof. unfold new_value. destruct type; try (by apply wf_parse); intros [= <-]; [done|]. split; [constructor|done]. Qed.

Lemma add_wf root entry type value root' : wf root -> addEntry C root entry type value = Some root' -> wf root'.
Proof.
  intros Hr. unfold addEntry. destruct (new_value C type value) as [v|] eqn:Hv; [|by intros [= <-]]. apply wf_new in Hv.
  intros (r & Hres & H)%bind_Some. apply resolve_wf in Hres; [|done]. unfold add_new in H. destruct (rs_parent r) as [parent|]; [|by store_wf].
  apply bind_Some in H as (o & Ho & H). pose proof (wf_get _ _ _ Hres Ho) as Hw. destruct o; try by store_wf.
  - store_wf. by apply wf_insert_array.
  - case_bool_decide; [by store_wf|]. store_wf. by apply wf_add.
Qed.

Lemma set_wf root entry value root' : wf root -> setEntry C root entry value = Some root' -> wf root'.
Proof.
  intros Hr. unfold setEntry. intros (r & Hres & H)%bind_Some. destruct (rs_entry r) as [place|]; [|by store_wf].
  apply bind_Some in H as (old & _ & H). destruct (inferType old); try (by store_wf);
    (destruct (parseValue C _ value) as [v|] eqn:Hv; [|by store_wf]); apply wf_parse in Hv;
    apply bind_Some in H as (parent & _ & (o & Ho & H)%bind_Some); pose proof (wf_get _ _ _ Hr Ho) as Hw; destruct o; try done;
    try (destruct (_ && _); [|done]; store_wf; rewrite wf_array in *; by apply Forall_insert); store_wf; by apply wf_replace.
Qed.

Lemma delete_wf root entry root' : wf root -> deleteEntry root entry = Some root' -> wf root'.
Proof.
  intros Hr. unfold deleteEntry. intros (r & Hres & H)%bind_Some. destruct (rs_entry r) as [place|]; [|by store_wf].
  apply bind_Some in H as (parent & _ & (o & Ho & H)%bind_Some). pose proof (wf_get _ _ _ Hr Ho) as Hw. destruct o; try done.
  - destruct (_ && _); [|done]. store_wf. rewrite wf_array in *. by apply Forall_delete.
  - store_wf. by apply wf_remove.
Qed.

Lemma copy_wf root src dst root' : wf root -> copyEntry root src dst = Some root' -> wf root'.
Proof.
  intros Hr. unfold copyEntry. intros (s & _ & (r & Hres & H)%bind_Some)%bind_Some. apply resolve_wf in Hres; [|done].
  destruct (rs_entry s) as [place|]; [|by store_wf]. destruct (rs_entry r); [by store_wf|].
  apply bind_Some in H as (c & Hc & (parent & _ & (o & Ho & H)%bind_Some)%bind_Some).
  pose proof (wf_get _ _ _ Hres Ho) as Hw. pose proof (wf_get _ _ _ Hres Hc) as Hwc. destruct o; try done.
  - destruct (_ && _); [|done]. store_wf. by apply wf_insert_array.
  - store_wf. by apply wf_add.
Qed.

Lemma wf_set_all d d' : wf (PDict d) -> Forall (λ kv, wf kv.2) d' -> wf (PDict (foldl (λ d '(k, v), dict_set k v d) d d')).
Proof. intros Hd Hd'. revert d Hd. induction Hd' as [|[k v] d' Hv Hd' IH]; intros d Hd; [done|]. cbn [foldl]. apply IH. by apply wf_set. Qed.

Lemma merged_wf c dest p : wf c -> wf dest -> merge_into c dest = Some p -> wf p.
Proof.
  intros Hc Hd. unfold merge_into. destruct dest as [|l|d| | | | |]; try (by intros [= <-]).
  - assert (∀ c, wf c -> wf (PArray (l ++ [c]))) as Hone by (intros x Hx; rewrite wf_array in *; apply Forall_app; by repeat constructor).
    destruct c as [|l'|d'| | | | |]; try (by intros [= <-]; apply Hone).
    + intros [= <-]. rewrite wf_array in *. by apply Forall_app.
    + destruct (length l); [done|]. intros [= <-]. rewrite wf_array in *. rewrite !Forall_app. split_and!; [by apply Forall_take| |by apply Forall_drop].
      rewrite wf_dict in Hc. apply Forall_fmap. by apply Hc.
  - destruct c as [|l'|d'| | | | |]; try (by intros [= <-]; apply wf_set); [by intros [= <-]|].
    intros [= <-]. apply wf_set_all; [done|]. by apply wf_dict.
Qed.

Definition loaded_ok (l : option plist) : Prop := match l with Some p => wf p | None => True end.

Lemma merge_wf root l entry root' : wf root -> loaded_ok l -> mergeFile root l entry = Some root' -> wf root'.
Proof.
  intros Hr Hl. unfold mergeFile. destruct l as [c|]; [|by intros [= <-]]. destruct entry as [[|x e]|]; [by apply merged_wf| |by apply merged_wf].
  intros (r & Hres & H)%bind_Some. apply resolve_wf in Hres; [|done]. destruct (rs_entry r) as [dest|]; [|by store_wf].
  eapply wf_change; [exact Hres| |exact H]. intros o o' _ Ho. by apply merged_wf.
Qed.

Lemma import_wf root entry l root' : wf root -> loaded_ok l -> importFile root entry l = Some root' -> wf root'.
Proof.
  intros Hr Hl. unfold importFile. destruct l as [c|]; [|by intros [= <-]]. intros (r & Hres & H)%bind_Some. apply resolve_wf in Hres; [|done].
  destruct (rs_parent r) as [dest|]; [|by store_wf]. apply bind_Some in H as (o & Ho & H). pose proof (wf_get _ _ _ Hres Ho) as Hw. destruct o; try by store_wf.
  - store_wf. rewrite wf_array in *. case_match; [apply Forall_app; by repeat constructor|by apply Forall_insert].
  - store_wf. by apply wf_set.
Qed.

(** The tree and the files have unique keys. *)
Definition buddy_ok (b : buddy) : Prop := wf (b_plist b) ∧ ∀ f p, b_files b !! f = Some (Some p) -> wf p.

Definition ran_ok (r : ran) : Prop := match r with Ran b | Quit b => buddy_ok b | Broken => True end.

Lemma load_ok b path : buddy_ok b -> loaded_ok (loadPlist b path).
Proof. intros [_ Hf]. unfold loadPlist. destruct (b_files b !! path) as [[p|]|] eqn:E; cbn; [by eapply Hf|done|done]. Qed.

Lemma with_plist_ok b p : buddy_ok b -> (∀ q, p = Some q -> wf q) -> ran_ok (with_plist b p).
Proof. intros [_ Hf] Hp. destruct p as [q|]; [|done]. split; [by apply Hp|done]. Qed.

Lemma with_word_ok next f : (∀ w n, ran_ok (f w n)) -> ran_ok (with_word next f).
Proof. intros Hf. unfold with_word. by destruct (getWord next true) as [[[w n]|]|]. Qed.

Lemma with_args_ok b next f : buddy_ok b -> (∀ n, ran_ok (f n)) -> ran_ok (with_args b next f).
Proof. intros Hb Hf. destruct next; [apply Hf|done]. Qed.

(** Whatever commands are given, in any order and with any files, no dictionary
    of the tree, and none that is saved, has a key twice. *)
Theorem commands_keep_keys_unique forceXML outputFile b cmd : buddy_ok b -> ran_ok (runCommand C forceXML outputFile b cmd).
Proof.
  intros Hb. pose proof Hb as [Hp Hf]. unfold runCommand.
  case_bool_decide; [done|]. case_bool_decide; [done|]. case_bool_decide.
  { unfold saveToFile. destruct (cf_xml C (b_plist b)); [|done]. destruct (cf_writes C outputFile); [|done]. split; [done|].
    intros f p. cbn. destruct (decide (f = outputFile)) as [->|]; [rewrite lookup_insert_eq; by intros [= <-]|rewrite lookup_insert_ne by done; apply Hf]. }
  case_bool_decide.
  { unfold revertToFile. destruct (b_files b !! outputFile) as [[p|]|] eqn:E; (split; [|done]); cbn; [by eapply Hf|by repeat constructor|by repeat constructor]. }
  destruct (isOneOf cmd ["Print"; "ls"]); [by destruct (doPrint C forceXML (b_plist b) _)|]. case_bool_decide; [done|].
  destruct (isOneOf cmd ["Set"; "="]).
  { apply with_args_ok; [done|]. intros ?. apply with_word_ok. intros ? ?. apply with_plist_ok; [done|]. intros q. by apply set_wf. }
  destruct (isOneOf cmd ["Add"; "+"]).
  { apply with_args_ok; [done|]. intros ?. apply with_word_ok. intros ? [?|]; [|done]. apply with_word_ok. intros ? ?. cbv zeta. case_bool_decide; [done|].
    apply with_plist_ok; [done|]. intros q. by apply add_wf. }
  destruct (isOneOf cmd ["Copy"; "cp"]).
  { apply with_args_ok; [done|]. intros ?. apply with_word_ok. intros ? [rest|]; [|done]. destruct (getWord rest false) as [[[dst ?]|]|]; [|done|done].
    apply with_plist_ok; [done|]. intros q. by apply copy_wf. }
  destruct (isOneOf cmd ["Delete"; "rm"; "-"]).
  { apply with_args_ok; [done|]. intros ?. apply with_plist_ok; [done|]. intros q. by apply delete_wf. }
  destruct (isOneOf cmd ["Merge"]).
  { apply with_args_ok; [done|]. intros ?. apply with_word_ok. intros path ?. apply with_plist_ok; [done|]. intros q. apply merge_wf; [done|by apply load_ok]. }
  destruct (isOneOf cmd ["Import"]); [|done].
  apply with_args_ok; [done|]. intros ?. apply with_word_ok. intros ? [?|]; [|done]. apply with_word_ok. intros path ?.
  apply with_plist_ok; [done|]. intros q. apply import_wf; [done|by apply load_ok].
Qed.
End Keys.

(** ** Texts *)

(** A text as [Add] and [Set] read it. *)
Definition escape (s : cstr) : cstr := concat ((λ c, if decide (c = BACKSLASH) then [BACKSLASH; BACKSLASH] else [c]) <$> s).
Definition quote (s : cstr) : cstr := DQUOTE :: escape s ++ [DQUOTE].

Lemma unescape_escape s : unescape (escape s) = Some s.
Proof.
  induction s as [|c s IH]; [done|]. unfold escape. cbn [fmap list_fmap concat]. fold (escape s). destruct (decide (c = BACKSLASH)) as [->|Hc].
  - cbn [app unescape]. rewrite decide_True by done. rewrite IH. done.
  - cbn [app unescape]. rewrite decide_False by done. by rewrite IH.
Qed.

(** Every text can be given. *)
Theorem quoted_value C s : parseValue C typeString (quote s) = Some (PString s).
Proof.
  cbn [parseValue]. unfold quote, unquote. rewrite decide_True, bool_decide_true by done || (by rewrite app_comm_cons, last_snoc).
  rewrite removelast_last. cbn. by rewrite unescape_escape.
Qed.

(** The word that a quoted entry is; texts without backslashes. *)
Definition quote_word (s : cstr) : cstr :=
  DQUOTE :: concat ((λ c, if decide (c = DQUOTE) then [BACKSLASH; DQUOTE] else [c]) <$> s) ++ [DQUOTE].

Theorem quoted_word s rest : BACKSLASH ∉ s -> getWord (quote_word s ++ rest) true = Some (Some (s, nextWord rest)).
Proof.
  intros Hs. cbn [quote_word app getWord]. rewrite decide_True by done.
  assert (quoted ((concat ((λ c, if decide (c = DQUOTE) then [BACKSLASH; DQUOTE] else [c]) <$> s) ++ [DQUOTE]) ++ rest) = (s, Some rest)) as ->; [|by destruct s].
  induction s as [|c s IH]; [done|]. specialize (IH ltac:(set_solver)). cbn [fmap list_fmap concat]. destruct (decide (c = DQUOTE)) as [->|Hc].
  - cbn [app quoted]. by rewrite IH.
  - cbn [app quoted]. destruct (decide (c = BACKSLASH)) as [->|]; [set_solver|]. by rewrite decide_False, IH.
Qed.

(** ** What the help text promises and the program does not do *)

(** A colon at the end is ignored, so that [Add :Array: dict] does not append to
    the array. *)
Theorem trailing_colon_ignored e : trim (e ++ [COLON]) = trim e.
Proof.
  unfold trim. f_equal. assert (skip_colons e = [] ∧ skip_colons (e ++ [COLON]) = [] ∨ skip_colons (e ++ [COLON]) = skip_colons e ++ [COLON]) as [[-> ->]| ->].
  { induction e as [|c e IH]; [by left|]. cbn. destruct (decide (c = COLON)); [done|by right]. }
  - done.
  - rewrite rev_app_distr. cbn. done.
Qed.

(** [Clear] leaves everything as it is. *)
Theorem clear_does_nothing C forceXML outputFile b : runCommand C forceXML outputFile b (s2c "Clear dict") = Ran b.
Proof. done. Qed.

(** [Copy] of an entry that does not exist creates the dictionaries of the
    target. *)
Theorem copy_creates_parents : copyEntry (PDict []) (s2c ":a") (s2c ":b:c") = Some (PDict [(s2c "b", PDict [])]).
Proof. by vm_compute. Qed.

(** A target below an index that the array does not have is a null pointer. *)
Theorem copy_null_parent : copyEntry (PDict [(s2c "a", PArray [])]) (s2c ":a") (s2c ":a:1:b") = None.
Proof. by vm_compute. Qed.

(** Merging a dictionary into an array inserts before the last element, and is
    undefined for an empty array. *)
Theorem merge_before_last l x d : merge_into (PDict d) (PArray (l ++ [x])) = Some (PArray (l ++ d.*2 ++ [x])) ∧ merge_into (PDict d) (PArray []) = None.
Proof.
  split; [|done]. unfold merge_into. rewrite length_app. cbn. rewrite Nat.add_1_r. by rewrite take_app_length, drop_app_length.
Qed.

(** An unclosed quote is a null pointer, which the commands read. *)
Theorem unclosed_quote w f : w ≠ [] -> BACKSLASH ∉ w -> DQUOTE ∉ w -> with_word (DQUOTE :: w) f = Broken.
Proof.
  intros Hw Hb Hq. unfold with_word. cbn [getWord]. rewrite decide_True by done. assert (quoted w = (w, None)) as ->; [|by destruct w].
  clear Hw. induction w as [|c w IH]; [done|]. specialize (IH ltac:(set_solver) ltac:(set_solver)). cbn.
  destruct (decide (c = BACKSLASH)) as [->|]; [set_solver|]. rewrite decide_False by set_solver. by rewrite IH.
Qed.

Theorem set_unclosed_quote C forceXML outputFile b : runCommand C forceXML outputFile b (s2c "Set " ++ DQUOTE :: s2c "a") = Broken.
Proof. done. Qed.

(** A session: a file that does not exist is created with the entry, and printed
    from the saved file. *)
Example example_session :
  let name := s2c "x.plist" in
  (x ← plistbuddy_main no_cf [s2c "-c"; s2c "Add :a:k string " ++ quote (s2c "b c"); name] ∅ [];
   plistbuddy_main no_cf [name] (x.1.2) [s2c "Print :a:k" ++ [LINEFEED]; s2c "Exit" ++ [LINEFEED]]) =
  Some (0, {[name := Some (PDict [(s2c "a", PDict [(s2c "k", PString (s2c "b c"))])])]}, s2c "b c" ++ [LINEFEED]).
Proof. by vm_compute. Qed.
