(* ===== verification/Buildtools.v ===== *)
(** * Reading Mach-O files

    buildtools/getuuid.c and buildtools/elfdep.c, which the build uses to find
    the identifier of a Mach-O file and the ELF library that a wrapper stands
    for.  A file is the list of its bytes; reading outside of it is undefined
    ([Outside]).  A fat file contains others, at offsets from its own header, so
    the functions call each other; [fuel] bounds the depth. *)
From S2P Require Import Prelude Abi Simple Launcher.

Definition MH_MAGIC : Z := 0xfeedface.
Definition MH_MAGIC_64 : Z := 0xfeedfacf.
Definition FAT_MAGIC : Z := 0xcafebabe.
Definition FAT_CIGAM : Z := 0xbebafeca.
Definition LC_SEGMENT : Z := 0x1.
Definition LC_SEGMENT_64 : Z := 0x19.
Definition LC_UUID : Z := 0x1b.

(** ** Programs that print *)

(** The output and [hadUuid]. *)
Record printed := Printed { pr_out : cstr; pr_had : bool }.

(** A result, [exit(1)], an access outside of the file, or no fuel. *)
Inductive tool_result (A : Type) := Gives (a : A) (st : printed) | Exits (st : printed) | Outside | TooDeep.
Arguments Gives {A} a st.
Arguments Exits {A} st.
Arguments Outside {A}.
Arguments TooDeep {A}.

Definition tool (A : Type) : Type := printed -> tool_result A.
#[export] Instance tool_ret : MRet tool := λ A a st, Gives a st.
#[export] Instance tool_bind : MBind tool := λ A B f m st,
  match m st with Gives a st => f a st | Exits st => Exits st | Outside => Outside | TooDeep => TooDeep end.

Definition print_text (text : cstr) : tool unit := λ st, Gives tt (Printed (pr_out st ++ text) (pr_had st)).
Definition exit_1 {A} : tool A := λ st, Exits st.
Definition inside_file {A} (o : option A) : tool A := λ st, match o with Some a => Gives a st | None => Outside end.

Section Image.
Context (img : list Z).

Definition image_byte (off : Z) : option Z := if 0 <=? off then img !! Z.to_nat off else None.

Definition uint32_at (off : Z) : tool Z :=
  inside_file (a ← image_byte off; b ← image_byte (off + 1); c ← image_byte (off + 2); d ← image_byte (off + 3); Some (a + 256 * b + 65536 * c + 16777216 * d)).

Definition bswap32 (v : Z) : Z := v / 16777216 + 256 * (v / 65536 mod 256) + 65536 * (v / 256 mod 256) + 16777216 * (v mod 256).

(** [strcmp(text at off, s) == 0]: characters are read up to a difference. *)
Fixpoint strcmp_at (off : Z) (s : cstr) : tool bool :=
  c ← inside_file (image_byte off);
  match s with
  | [] => mret (c =? 0)
  | x :: s => if c =? byte_val x then strcmp_at (off + 1) s else mret false
  end.

(** [printf("%s")] of the text in a list of bytes. *)
Fixpoint text_of (bytes : list Z) : option cstr :=
  match bytes with [] => None | c :: bytes => if c =? 0 then Some [] else (ascii_of_N (Z.to_N c) ::.) <$> text_of bytes end.

Definition text_at (off : Z) : tool cstr := inside_file (if 0 <=? off then text_of (drop (Z.to_nat off) img) else None).

(** The loop over the load commands. *)
Fixpoint command_loop (visit : Z -> tool bool) (n : nat) (command : Z) : tool bool :=
  match n with
  | O => mret false
  | S n => found ← visit command; if found : bool then mret true else size ← uint32_at (command + 4); command_loop visit n (command + size)
  end.

(** [ncmds], which both headers have at the same place. *)
Definition all_commands (visit : Z -> tool bool) (mhdr sizeof_header : Z) : tool bool :=
  ncmds ← uint32_at (mhdr + 16); command_loop visit (Z.to_nat ncmds) (mhdr + sizeof_header).

(** [fhdr] plus [fa[i].offset] *)
Definition arch_at (order : Z -> Z) (fhdr : Z) (i : Z) : tool Z := o ← uint32_at (fhdr + 8 + 20 * i + 8); mret (fhdr + order o).

(** The four kinds of files. *)
Definition printAny (mh mh64 fat taf : Z -> tool bool) (mem : Z) : tool bool :=
  magic ← uint32_at mem;
  if magic =? MH_MAGIC then mh mem
  else if magic =? MH_MAGIC_64 then mh64 mem
  else if magic =? FAT_MAGIC then fat mem
  else if magic =? FAT_CIGAM then taf mem
  else exit_1.

(** ** getuuid.c *)

Definition upper_digit (d : Z) : cstr := match s2c "0123456789ABCDEF" !! Z.to_nat d with Some c => [c] | None => [] end.
Definition hex2 (b : Z) : cstr := upper_digit (b / 16) ++ upper_digit (b mod 16).

Definition uuid_text (u : list Z) : cstr :=
  concat (hex2 <$> take 4 u) ++ s2c "-" ++ concat (hex2 <$> take 2 (drop 4 u)) ++ s2c "-" ++ concat (hex2 <$> take 2 (drop 6 u)) ++ s2c "-" ++
  concat (hex2 <$> take 2 (drop 8 u)) ++ s2c "-" ++ concat (hex2 <$> take 6 (drop 10 u)).

Definition emit_uuid (uuid : list Z) : tool unit :=
  λ st, Gives tt (Printed (pr_out st ++ (if pr_had st then s2c ";" else []) ++ uuid_text uuid) true).

Definition printUuid (lc : Z) : tool bool :=
  cmd ← uint32_at lc;
  if cmd =? LC_UUID then
    uuid ← inside_file (mapM (λ i, image_byte (lc + 8 + Z.of_nat i)) (seq 0 16));
    emit_uuid uuid;;
    mret true
  else mret false.

Definition printUuidMH (mhdr : Z) : tool bool := all_commands printUuid mhdr 28.
Definition printUuidMH64 (mhdr : Z) : tool bool := all_commands printUuid mhdr 32.

(** [rv |= printUuidAny(...)] for all files of a fat file. *)
Fixpoint all_archs (any : Z -> tool bool) (order : Z -> Z) (fhdr : Z) (i : Z) (n : nat) (rv : bool) : tool bool :=
  match n with
  | O => mret rv
  | S n => mem ← arch_at order fhdr i; r ← any mem; all_archs any order fhdr (i + 1) n (rv || r)
  end.

Definition printFat_uuid (any : Z -> tool bool) (order : Z -> Z) (fhdr : Z) : tool bool :=
  n ← uint32_at (fhdr + 4); all_archs any order fhdr 0 (Z.to_nat (order n)) false.

Fixpoint printUuidAny (fuel : nat) (mem : Z) : tool bool :=
  match fuel with
  | O => λ _, TooDeep
  | S fuel =>
    printAny printUuidMH printUuidMH64 (printFat_uuid (printUuidAny fuel) (λ v, v)) (printFat_uuid (printUuidAny fuel) bswap32) mem
  end.

(** The status and the output of the program for a file that can be read. *)
Definition getuuid (fuel : nat) : option (Z * cstr) :=
  match printUuidAny fuel 0 (Printed [] false) with
  | Gives r st => Some (if r : bool then 0 else 1, pr_out st)
  | Exits st => Some (1, pr_out st)
  | Outside | TooDeep => None
  end.

(** ** elfdep.c *)

(** The sections of a segment; [size] is that of a section, [offset] the place of
    its member. *)
Fixpoint section_loop (base sect size offset : Z) (n : nat) : tool bool :=
  match n with
  | O => mret false
  | S n =>
    same ← strcmp_at sect (s2c "__elfname");
    if same : bool then
      o ← uint32_at (sect + offset);
      text ← text_at (base + o);
      print_text (text ++ [LINEFEED]);;
      mret true
    else section_loop base (sect + size) size offset n
  end.

Definition text_segment (base lc nsects sizeof_segment size offset : Z) : tool bool :=
  same ← strcmp_at (lc + 8) (s2c "__TEXT");
  if same : bool then n ← uint32_at (lc + nsects); section_loop base (lc + sizeof_segment) size offset (Z.to_nat n) else mret false.

Definition printElfdep (base lc : Z) : tool bool :=
  cmd ← uint32_at lc;
  if cmd =? LC_SEGMENT then text_segment base lc 48 56 68 40
  else if cmd =? LC_SEGMENT_64 then text_segment base lc 64 72 80 48
  else mret false.

Definition printElfdepMH (mhdr : Z) : tool bool := all_commands (printElfdep mhdr) mhdr 28.
Definition printElfdepMH64 (mhdr : Z) : tool bool := all_commands (printElfdep mhdr) mhdr 32.

(** The first file that has a name ends the loop. *)
Fixpoint first_arch (any : Z -> tool bool) (order : Z -> Z) (fhdr : Z) (i : Z) (n : nat) : tool bool :=
  match n with
  | O => mret false
  | S n => mem ← arch_at order fhdr i; r ← any mem; if r : bool then mret true else first_arch any order fhdr (i + 1) n
  end.

Definition printFat_elfdep (any : Z -> tool bool) (order : Z -> Z) (fhdr : Z) : tool bool :=
  n ← uint32_at (fhdr + 4); first_arch any order fhdr 0 (Z.to_nat (order n)).

Fixpoint printElfdepAny (fuel : nat) (mem : Z) : tool bool :=
  match fuel with
  | O => λ _, TooDeep
  | S fuel =>
    printAny printElfdepMH printElfdepMH64 (printFat_elfdep (printElfdepAny fuel) (λ v, v)) (printFat_elfdep (printElfdepAny fuel) bswap32) mem
  end.

Definition elfdep (fuel : nat) : option (Z * cstr) :=
  match printElfdepAny fuel 0 (Printed [] false) with
  | Gives _ st => Some (0, pr_out st)
  | Exits st => Some (1, pr_out st)
  | Outside | TooDeep => None
  end.
End Image.

(** ** Files and their bytes *)

Lemma bind_gives {A B} (m : tool A) (f : A -> tool B) st a st' : m st = Gives a st' -> (m ≫= f) st = f a st'.
Proof. unfold mbind, tool_bind. by intros ->. Qed.

Definition le32 (v : Z) : list Z := [v mod 256; v / 256 mod 256; v / 65536 mod 256; v / 16777216].
Definition be32 (v : Z) : list Z := [v / 16777216; v / 65536 mod 256; v / 256 mod 256; v mod 256].
Definition is_u32 (v : Z) : Prop := 0 <= v < 2 ^ 32.

(** The bytes are at this place of the file. *)
Definition holds (img : list Z) (off : Z) (bytes : list Z) : Prop := ∃ pre post, img = pre ++ bytes ++ post ∧ Z.of_nat (length pre) = off.

Lemma holds_app img off a b : holds img off (a ++ b) -> holds img off a ∧ holds img (off + Z.of_nat (length a)) b.
Proof.
  intros (pre & post & -> & <-). split; [exists pre, (b ++ post); by rewrite <- app_assoc|].
  exists (pre ++ a), post. rewrite <- !app_assoc, length_app. split; [done|lia].
Qed.

Lemma holds_byte img off bytes i b : holds img off bytes -> bytes !! i = Some b -> image_byte img (off + Z.of_nat i) = Some b.
Proof.
  intros (pre & post & -> & <-) Hi. unfold image_byte. rewrite (proj2 (Z.leb_le _ _)) by lia.
  replace (Z.to_nat (Z.of_nat (length pre) + Z.of_nat i)) with (length pre + i)%nat by lia.
  rewrite lookup_app_r by lia. replace (length pre + i - length pre)%nat with i by lia. by apply lookup_app_l_Some.
Qed.

Lemma uint32_bytes img off a b c d st : holds img off [a; b; c; d] -> uint32_at img off st = Gives (a + 256 * b + 65536 * c + 16777216 * d) st.
Proof.
  intros H. unfold uint32_at. pose proof (holds_byte _ _ _ 0 a H eq_refl) as H0. rewrite Z.add_0_r in H0.
  pose proof (holds_byte _ _ _ 1 b H eq_refl) as H1. pose proof (holds_byte _ _ _ 2 c H eq_refl) as H2. pose proof (holds_byte _ _ _ 3 d H eq_refl) as H3.
  change (Z.of_nat 1) with 1 in H1. change (Z.of_nat 2) with 2 in H2. change (Z.of_nat 3) with 3 in H3. by rewrite H0, H1, H2, H3.
Qed.

Lemma uint32_le img off v st : is_u32 v -> holds img off (le32 v) -> uint32_at img off st = Gives v st.
Proof. intros Hv H. rewrite (uint32_bytes _ _ _ _ _ _ _ H). f_equal. unfold is_u32 in Hv. Z.to_euclidean_division_equations. lia. Qed.

(** Numbers of the other byte order. *)
Definition be_value (v : Z) : Z := v / 16777216 + 256 * (v / 65536 mod 256) + 65536 * (v / 256 mod 256) + 16777216 * (v mod 256).

Lemma uint32_be img off v st : is_u32 v -> holds img off (be32 v) -> uint32_at img off st = Gives (be_value v) st.
Proof. intros Hv H. by rewrite (uint32_bytes _ _ _ _ _ _ _ H). Qed.

Lemma bswap_be v : is_u32 v -> bswap32 (be_value v) = v.
Proof.
  unfold is_u32, bswap32, be_value. intros Hv. set (a := v / 16777216). set (b := v / 65536 mod 256). set (c := v / 256 mod 256). set (d := v mod 256).
  assert (0 <= a < 256 ∧ 0 <= b < 256 ∧ 0 <= c < 256 ∧ 0 <= d < 256) as (Ha & Hb & Hc & Hd) by (unfold a, b, c, d; Z.to_euclidean_division_equations; lia).
  assert (v = d + 256 * c + 65536 * b + 16777216 * a) as E by (unfold a, b, c, d; Z.to_euclidean_division_equations; lia).
  clearbody a b c d. subst v. Z.to_euclidean_division_equations. lia.
Qed.

(** *** Load commands *)

Record lcmd := Lcmd { lc_cmd : Z; lc_payload : list Z }.

Definition lc_bytes (c : lcmd) : list Z := le32 (lc_cmd c) ++ le32 (8 + Z.of_nat (length (lc_payload c))) ++ lc_payload c.

Definition lc_ok (c : lcmd) : Prop :=
  is_u32 (lc_cmd c) ∧ is_u32 (8 + Z.of_nat (length (lc_payload c))) ∧ (lc_cmd c = LC_UUID -> (16 <= length (lc_payload c))%nat).

(** The identifier of a file: that of the first command that has one. *)
Fixpoint uuid_of (cs : list lcmd) : option (list Z) :=
  match cs with [] => None | c :: cs => if lc_cmd c =? LC_UUID then Some (take 16 (lc_payload c)) else uuid_of cs end.

Definition say_uuid (u : option (list Z)) (st : printed) : printed :=
  match u with Some u => Printed (pr_out st ++ (if pr_had st then s2c ";" else []) ++ uuid_text u) true | None => st end.

Definition has_uuid (u : option (list Z)) : bool := match u with Some _ => true | None => false end.

Lemma bytes_from img off bytes n : holds img off bytes -> (n <= length bytes)%nat ->
  mapM (λ i, image_byte img (off + Z.of_nat i)) (seq 0 n) = Some (take n bytes).
Proof.
  intros H Hn. apply mapM_Some_2. apply Forall2_same_length_lookup. split; [rewrite length_seq, length_take; lia|].
  intros i x b Hx Hb. apply lookup_seq in Hx as [-> Hi]. rewrite lookup_take_lt in Hb by lia. by apply (holds_byte _ _ bytes).
Qed.

Lemma command_loop_uuid img cs command st : Forall lc_ok cs -> holds img command (concat (lc_bytes <$> cs)) ->
  command_loop img (printUuid img) (length cs) command st = Gives (has_uuid (uuid_of cs)) (say_uuid (uuid_of cs) st).
Proof.
  intros Hok. revert command. induction Hok as [|c cs (Hc & Hs & Hu) Hok IH]; intros command H; [done|]. cbn [length command_loop uuid_of].
  cbn [fmap list_fmap concat] in H. apply holds_app in H as [Hlc Hrest]. unfold lc_bytes in Hlc at 1. apply holds_app in Hlc as [Hcmd Hlc].
  apply holds_app in Hlc as [Hsize Hpay]. change (Z.of_nat (length (le32 _))) with 4 in *.
  destruct (Z.eqb_spec (lc_cmd c) LC_UUID) as [E|E].
  - rewrite (bind_gives _ _ _ true (say_uuid (Some (take 16 (lc_payload c))) st)); [done|]. unfold printUuid. erewrite bind_gives; [|exact (uint32_le _ _ _ _ Hc Hcmd)]. rewrite (proj2 (Z.eqb_eq _ _) E).
    replace (command + 4 + 4) with (command + 8) in Hpay by lia. unfold mbind, tool_bind, inside_file. by rewrite (bytes_from _ _ _ _ Hpay (Hu E)).
  - rewrite (bind_gives _ _ _ false st); [|unfold printUuid; erewrite bind_gives; [|exact (uint32_le _ _ _ _ Hc Hcmd)]; by rewrite (proj2 (Z.eqb_neq _ _) E)].
    cbv iota. erewrite bind_gives; [|exact (uint32_le _ _ _ _ Hs Hsize)]. apply IH.
    unfold lc_bytes in Hrest. rewrite !length_app in Hrest. cbn [length le32] in Hrest.
    by replace (command + Z.of_nat (4 + (4 + length (lc_payload c)))) with (command + (8 + Z.of_nat (length (lc_payload c)))) in Hrest by lia.
Qed.

(** *** Mach-O files *)

(** A header: magic number, 12 bytes, the number of commands, and the rest ([8] or
    [12] bytes). *)
Definition macho (magic : Z) (h1 h2 : list Z) (cs : list lcmd) : list Z :=
  le32 magic ++ h1 ++ le32 (Z.of_nat (length cs)) ++ h2 ++ concat (lc_bytes <$> cs).

Definition macho_ok (magic : Z) (h1 h2 : list Z) (cs : list lcmd) : Prop :=
  (magic = MH_MAGIC ∧ length h2 = 8%nat ∨ magic = MH_MAGIC_64 ∧ length h2 = 12%nat) ∧
  length h1 = 12%nat ∧ Forall lc_ok cs ∧ is_u32 (Z.of_nat (length cs)).

(** The identifier of a Mach-O file of either size is printed. *)
Theorem uuid_of_macho img fuel off st magic h1 h2 cs : macho_ok magic h1 h2 cs -> holds img off (macho magic h1 h2 cs) ->
  printUuidAny img (S fuel) off st = Gives (has_uuid (uuid_of cs)) (say_uuid (uuid_of cs) st).
Proof.
  intros (Hm & H1 & Hcs & Hn) H. unfold macho in H. apply holds_app in H as [Hmagic H]. apply holds_app in H as [_ H].
  apply holds_app in H as [Hcount H]. apply holds_app in H as [_ Hcmds]. rewrite H1 in *. change (Z.of_nat (length (le32 _))) with 4 in *.
  change (Z.of_nat 12) with 12 in *. replace (off + 4 + 12) with (off + 16) in * by lia.
  assert (is_u32 magic) as Hu by (unfold is_u32; destruct Hm as [[-> _]|[-> _]]; by vm_compute).
  cbn [printUuidAny]. unfold printAny. erewrite bind_gives; [|exact (uint32_le _ _ _ _ Hu Hmagic)].
  destruct Hm as [[-> H2]|[-> H2]]; [change (MH_MAGIC =? MH_MAGIC) with true|change (MH_MAGIC_64 =? MH_MAGIC) with false; change (MH_MAGIC_64 =? MH_MAGIC_64) with true]; cbv iota;
    unfold printUuidMH, printUuidMH64, all_commands; (erewrite bind_gives; [|exact (uint32_le _ _ _ _ Hn Hcount)]); rewrite Nat2Z.id; rewrite H2 in Hcmds; apply command_loop_uuid; try done.
  - by replace (off + 16 + 4 + Z.of_nat 8) with (off + 28) in Hcmds by lia.
  - by replace (off + 16 + 4 + Z.of_nat 12) with (off + 32) in Hcmds by lia.
Qed.

(** *** Fat files *)

(** An entry of the table: [pre] and [post] are the members around the offset. *)
Record fat_entry := FatEntry { fe_pre : list Z; fe_offset : Z; fe_post : list Z }.
Definition fe_bytes (e : fat_entry) : list Z := fe_pre e ++ be32 (fe_offset e) ++ fe_post e.
Definition fe_ok (e : fat_entry) : Prop := length (fe_pre e) = 8%nat ∧ is_u32 (fe_offset e) ∧ length (fe_post e) = 8%nat.

Definition fat (es : list fat_entry) : list Z := be32 FAT_MAGIC ++ be32 (Z.of_nat (length es)) ++ concat (fe_bytes <$> es).

(** A file in the fat file. *)
Record slice := Slice { sl_magic : Z; sl_h1 : list Z; sl_h2 : list Z; sl_cmds : list lcmd }.
Definition slice_at (img : list Z) (off : Z) (e : fat_entry) (s : slice) : Prop :=
  macho_ok (sl_magic s) (sl_h1 s) (sl_h2 s) (sl_cmds s) ∧ holds img (off + fe_offset e) (macho (sl_magic s) (sl_h1 s) (sl_h2 s) (sl_cmds s)).

Lemma all_archs_uuid img fuel fhdr es ss st i rv : Forall fe_ok es -> Forall2 (slice_at img fhdr) es ss ->
  holds img (fhdr + 8 + 20 * i) (concat (fe_bytes <$> es)) ->
  all_archs img (printUuidAny img (S fuel)) bswap32 fhdr i (length es) rv st =
  Gives (rv || existsb (λ s, has_uuid (uuid_of (sl_cmds s))) ss) (foldl (λ st s, say_uuid (uuid_of (sl_cmds s)) st) st ss).
Proof.
  intros Hok Hs. revert st i rv Hok. induction Hs as [|e s es ss [Hm Hat] Hs IH]; intros st i rv Hok H; cbn [length all_archs existsb foldl]; [by rewrite orb_false_r|].
  apply Forall_cons in Hok as [(Hpre & Ho & Hpost) Hok]. cbn [fmap list_fmap concat] in H. apply holds_app in H as [He Hrest].
  unfold fe_bytes in He, Hrest at 1. apply holds_app in He as [_ He]. apply holds_app in He as [He _]. rewrite Hpre in He. change (Z.of_nat 8) with 8 in He.
  rewrite (bind_gives _ _ _ (fhdr + fe_offset e) st).
  2: { unfold arch_at. erewrite bind_gives; [|exact (uint32_be _ _ _ _ Ho He)]. by rewrite bswap_be. }
  erewrite bind_gives; [|exact (uuid_of_macho _ _ _ _ _ _ _ _ Hm Hat)]. rewrite IH; [by rewrite orb_assoc|done|].
  rewrite !length_app, Hpre, Hpost in Hrest. cbn [length be32 Nat.add] in Hrest.
  by replace (fhdr + 8 + 20 * i + Z.of_nat 20) with (fhdr + 8 + 20 * (i + 1)) in Hrest by lia.
Qed.

Lemma printUuidAny_S img fuel mem : printUuidAny img (S fuel) mem =
  printAny img (printUuidMH img) (printUuidMH64 img) (printFat_uuid img (printUuidAny img fuel) (λ v, v)) (printFat_uuid img (printUuidAny img fuel) bswap32) mem.
Proof. done. Qed.

(** The identifiers of all files of a fat file are printed in order, separated by
    semicolons; two levels of calls are enough. *)
Theorem uuids_of_fat img fuel es ss : is_u32 (Z.of_nat (length es)) -> Forall fe_ok es -> Forall2 (slice_at img 0) es ss -> holds img 0 (fat es) ->
  getuuid img (S (S fuel)) =
  Some (if existsb (λ s, has_uuid (uuid_of (sl_cmds s))) ss then 0 else 1,
        pr_out (foldl (λ st s, say_uuid (uuid_of (sl_cmds s)) st) (Printed [] false) ss)).
Proof.
  intros Hn Hok Hs H. unfold fat in H. apply holds_app in H as [Hmagic H]. apply holds_app in H as [Hcount Htable].
  change (Z.of_nat (length (be32 _))) with 4 in *. unfold getuuid.
  assert (printUuidAny img (S (S fuel)) 0 (Printed [] false) = Gives (existsb (λ s, has_uuid (uuid_of (sl_cmds s))) ss)
    (foldl (λ st s, say_uuid (uuid_of (sl_cmds s)) st) (Printed [] false) ss)) as ->; [|done].
  rewrite printUuidAny_S. unfold printAny. erewrite bind_gives; [|apply (uint32_be _ _ FAT_MAGIC); [by vm_compute|done]].
  change (be_value FAT_MAGIC) with FAT_CIGAM. change (FAT_CIGAM =? MH_MAGIC) with false. change (FAT_CIGAM =? MH_MAGIC_64) with false.
  change (FAT_CIGAM =? FAT_MAGIC) with false. change (FAT_CIGAM =? FAT_CIGAM) with true. cbv iota.
  unfold printFat_uuid at 1. erewrite bind_gives; [|exact (uint32_be _ _ _ _ Hn Hcount)]. rewrite bswap_be, Nat2Z.id by done.
  by rewrite (all_archs_uuid _ _ _ es ss).
Qed.

(** A fat file that contains itself is followed for ever. *)
Theorem fat_in_itself img fuel e es st : is_u32 (Z.of_nat (S (length es))) -> fe_ok e -> fe_offset e = 0 -> holds img 0 (fat (e :: es)) ->
  printUuidAny img fuel 0 st = TooDeep ∧ printElfdepAny img fuel 0 st = TooDeep.
Proof.
  intros Hn (Hpre & Ho & Hpost) E H. pose proof H as H'. unfold fat in H'. apply holds_app in H' as [Hmagic H']. apply holds_app in H' as [Hcount Htable].
  change (Z.of_nat (length (be32 _))) with 4 in *. cbn [fmap list_fmap concat] in Htable. apply holds_app in Htable as [He _].
  unfold fe_bytes in He. apply holds_app in He as [_ He]. apply holds_app in He as [He _]. rewrite Hpre in He. change (Z.of_nat 8) with 8 in He.
  assert (∀ st, uint32_at img 0 st = Gives FAT_CIGAM st) as Hm by (intros st'; apply (uint32_be _ _ FAT_MAGIC); [by vm_compute|done]).
  assert (∀ st, uint32_at img (0 + 4) st = Gives (be_value (Z.of_nat (S (length es)))) st) as Hc by (intros st'; by apply uint32_be).
  assert (∀ st, arch_at img bswap32 0 0 st = Gives 0 st) as Harch.
  { intros st'. unfold arch_at. erewrite bind_gives; [|exact (uint32_be _ _ _ _ Ho He)]. rewrite bswap_be, E by done. done. }
  revert st. induction fuel as [|fuel IH]; intros st; [done|]. destruct (IH st) as [IH1 IH2].
  cbn [printUuidAny printElfdepAny]. unfold printAny, printFat_uuid at 2, printFat_elfdep at 2. split.
  - rewrite (bind_gives _ _ _ _ _ (Hm st)). change (FAT_CIGAM =? MH_MAGIC) with false. change (FAT_CIGAM =? MH_MAGIC_64) with false.
    change (FAT_CIGAM =? FAT_MAGIC) with false. change (FAT_CIGAM =? FAT_CIGAM) with true. cbv iota.
    rewrite (bind_gives _ _ _ _ _ (Hc st)), bswap_be, Nat2Z.id by done. cbn [all_archs].
    rewrite (bind_gives _ _ _ _ _ (Harch st)). unfold mbind, tool_bind. by rewrite IH1.
  - rewrite (bind_gives _ _ _ _ _ (Hm st)). change (FAT_CIGAM =? MH_MAGIC) with false. change (FAT_CIGAM =? MH_MAGIC_64) with false.
    change (FAT_CIGAM =? FAT_MAGIC) with false. change (FAT_CIGAM =? FAT_CIGAM) with true. cbv iota.
    rewrite (bind_gives _ _ _ _ _ (Hc st)), bswap_be, Nat2Z.id by done. cbn [first_arch].
    rewrite (bind_gives _ _ _ _ _ (Harch st)). unfold mbind, tool_bind. by rewrite IH2.
Qed.

(** *** A wrapper *)

Definition padded (n : nat) (s : cstr) : list Z := (byte_val <$> s) ++ replicate (n - length s) 0.

(** A file with one segment of one section, the name at its end. *)
Definition wrapper (name : cstr) : list Z :=
  let sect := padded 16 (s2c "__elfname") ++ padded 16 (s2c "__TEXT") ++ replicate 16 0 ++ le32 184 ++ replicate 28 0 in
  let seg := padded 16 (s2c "__TEXT") ++ replicate 40 0 ++ le32 1 ++ le32 0 ++ sect in
  macho MH_MAGIC_64 (replicate 12 0) (replicate 12 0) [Lcmd LC_SEGMENT_64 seg] ++ padded (S (length name)) name.

Example wrapper_name : elfdep (wrapper (s2c "libX11.so.6")) 1 = Some (0, s2c "libX11.so.6" ++ [LINEFEED]).
Proof. by vm_compute. Qed.

Example wrapper_uuid : getuuid (macho MH_MAGIC_64 (replicate 12 0) (replicate 12 0) [Lcmd LC_UUID (Z.of_nat <$> seq 0 16)]) 1 =
  Some (0, s2c "00010203-0405-0607-0809-0A0B0C0D0E0F").
Proof. by vm_compute. Qed.
