(* ===== verification/ElfLoader.v ===== *)
(** * The ELF loader

    libelfloader/loader.c: starts the dynamic linker of Linux inside a macOS
    process.  [load] maps an ELF file and its interpreter, [run] builds the
    initial stack of the System V ABI and jumps to the interpreter.

    The address space is a function from addresses to bytes with a
    protection.  Files, the addresses mmap chooses and its failures are
    members of [os].  A store to memory that is not there or not writable, a
    read outside of a buffer, the use of a variable that was never assigned,
    and an overflowing signed product are undefined ([None]). *)
From S2P Require Import Prelude Abi Linux Errno Base Simple Fcntl Paths.

(** ** Constants of elf.h and auxvec.h *)

Definition PT_LOAD : Z := 1.
Definition PT_INTERP : Z := 3.
Definition PF_X : Z := 1.
Definition PF_W : Z := 2.
Definition PF_R : Z := 4.
Definition ET_DYN : Z := 3.
Definition ELFCLASS64 : Z := 2.
Definition sizeof_Ehdr : Z := 64.
Definition sizeof_Phdr : Z := 56.

Definition AT_NULL : Z := 0.
Definition AT_PHDR : Z := 3.
Definition AT_PHENT : Z := 4.
Definition AT_PHNUM : Z := 5.
Definition AT_PAGESZ : Z := 6.
Definition AT_BASE : Z := 7.
Definition AT_FLAGS : Z := 8.
Definition AT_ENTRY : Z := 9.
Definition AT_RANDOM : Z := 25.

Definition E_PROT_NONE : Z := 0.
Definition E_PROT_READ : Z := 1.
Definition E_PROT_WRITE : Z := 2.
Definition E_PROT_EXEC : Z := 4.

Definition ELF_MIN_ALIGN : Z := 0x1000.
Definition ELF_PAGESTART (v : Z) : Z := Z.land v (Z.lxor (2 ^ 64 - 1) (ELF_MIN_ALIGN - 1)).
Definition ELF_PAGEOFFSET (v : Z) : Z := Z.land v (ELF_MIN_ALIGN - 1).
Definition ELF_PAGEALIGN (v : Z) : Z := Z.land (u64 (v + ELF_MIN_ALIGN - 1)) (Z.lxor (2 ^ 64 - 1) (ELF_MIN_ALIGN - 1)).

(** ** Headers *)

Record elf_ehdr := ElfEhdr {
  e_ident : list ascii; e_type : Z; e_entry : Z; e_phoff : Z; e_phentsize : Z; e_phnum : Z }.

Record elf_phdr := ElfPhdr {
  p_type : Z; p_flags : Z; p_offset : Z; p_vaddr : Z; p_filesz : Z; p_memsz : Z }.

Definition field (bytes : list ascii) (off n : nat) : Z := bytes_value (take n (drop off bytes)).

Definition decode_ehdr (b : list ascii) : elf_ehdr :=
  ElfEhdr (take 16 b) (field b 16 2) (field b 24 8) (field b 32 8) (field b 54 2) (field b 56 2).

Definition decode_phdr (b : list ascii) : elf_phdr :=
  ElfPhdr (field b 0 4) (field b 4 4) (field b 8 8) (field b 16 8) (field b 32 8) (field b 40 8).

(** [(ElfW(Phdr)* ) (((char* ) phdrs) + (i * elfHdr.e_phentsize))], all of it
    inside the block. *)
Definition phdr_at (phdrs : list ascii) (entsize : Z) (i : nat) : option elf_phdr :=
  let off := Z.of_nat i * entsize in
  if off + sizeof_Phdr <=? Z.of_nat (length phdrs) then Some (decode_phdr (ztake sizeof_Phdr (zdrop off phdrs))) else None.

(** ** Memory *)

(** A byte of a mapping: its contents, unless the page is behind the end of
    the mapped file, and the protection. *)
Record cell := Cell { c_byte : option ascii; c_prot : Z }.

Definition mem : Type := Z -> option cell.

Definition inside (a lo hi : Z) : bool := (lo <=? a) && (a <? hi).

Definition page_up (v : Z) : Z := (v + 4095) / 4096 * 4096.

Record os := Os {
  os_open : bool -> cstr -> option (list ascii);   (* for the interpreter or not *)
  os_access : cstr -> bool;
  os_mmap : mem -> Z -> option Z;                  (* where a new mapping goes *)
  os_refuse : Z -> Z -> Z -> bool;                 (* a fixed mapping that fails *)
  os_usable : Z -> Z;                              (* size of the block malloc returns *)
  os_readlink : cstr -> option cstr }.

(** [mmap(NULL, len, prot, MAP_PRIVATE | MAP_ANON, -1, 0)] *)
Definition mmap_anon (o : os) (m : mem) (len prot : Z) : option (Z * mem) :=
  if len =? 0 then None
  else base ← os_mmap o m len;
       Some (base, λ a, if inside a base (base + page_up len) then Some (Cell (Some NUL) prot) else m a).

(** The byte of a file mapping: zero up to the end of the file's last page. *)
Definition file_byte (f : list ascii) (i : Z) : option ascii :=
  if i <? Z.of_nat (length f) then f !! Z.to_nat i
  else if i <? page_up (Z.of_nat (length f)) then Some NUL else None.

(** [mmap(addr, len, prot, MAP_FIXED | MAP_PRIVATE, fd, off)] *)
Definition mmap_fixed (o : os) (m : mem) (addr len prot : Z) (f : list ascii) (off : Z) : option mem :=
  if (len =? 0) || negb (addr mod 4096 =? 0) || negb (off mod 4096 =? 0) || os_refuse o addr len off then None
  else Some (λ a, if inside a addr (addr + page_up len) then Some (Cell (file_byte f (off + (a - addr))) prot) else m a).

(** [mprotect] changes the pages of the range up to the first that is not
    mapped; the loader does not depend on its result. *)
Definition pages (addr len : Z) : list Z := (λ k, addr + 4096 * Z.of_nat k) <$> seq 0 (Z.to_nat (page_up len / 4096)).

Definition mapped (m : mem) (a : Z) : bool := match m a with Some _ => true | None => false end.

Fixpoint mapped_prefix (m : mem) (l : list Z) : nat :=
  match l with [] => 0 | p :: l => if mapped m p then S (mapped_prefix m l) else 0 end.

Definition set_prot (prot : Z) (c : cell) : cell := Cell (c_byte c) prot.

Definition mprotect (m : mem) (addr len prot : Z) : mem :=
  let n := mapped_prefix m (pages addr len) in
  λ a, if inside a addr (addr + 4096 * Z.of_nat n) then set_prot prot <$> m a else m a.

(** [memset(addr, 0, n)] *)
Definition writable (m : mem) (a : Z) : bool :=
  match m a with Some (Cell (Some _) prot) => has prot E_PROT_WRITE | _ => false end.

Definition memset_zero (m : mem) (addr n : Z) : option mem :=
  if forallb (λ k, writable m (addr + Z.of_nat k)) (seq 0 (Z.to_nat n))
  then Some (λ a, if inside a addr (addr + n) then (λ c, Cell (Some NUL) (c_prot c)) <$> m a else m a) else None.

(** ** load *)

(** The members of the context that have been assigned. *)
Record loader_context := LoaderContext {
  interp_entry : option Z; exec_entry : option Z; exec_phstart : option Z; exec_phentsize : option Z;
  exec_phnum : option Z; interp_base : option Z }.

Definition fresh_context : loader_context := LoaderContext None None None None None None.

Definition set_interp (base entry : Z) (lc : loader_context) : loader_context :=
  LoaderContext (Some entry) (exec_entry lc) (exec_phstart lc) (exec_phentsize lc) (exec_phnum lc) (Some base).

Definition set_exec (entry phstart phentsize phnum : Z) (lc : loader_context) : loader_context :=
  LoaderContext (interp_entry lc) (Some entry) (Some phstart) (Some phentsize) (Some phnum) (interp_base lc).

(** The loop that finds the range: [Some None] is the way out. *)
Fixpoint find_range (isInterp : bool) (phdrs : list ascii) (entsize : Z) (l : list nat) (minAddr maxAddr : Z)
    : option (option (Z * Z)) :=
  match l with
  | [] => Some (Some (minAddr, maxAddr))
  | i :: l =>
    ph ← phdr_at phdrs entsize i;
    if p_type ph =? PT_LOAD then
      let minAddr := if p_vaddr ph <? minAddr then ELF_PAGESTART (p_vaddr ph) else minAddr in
      let maxAddr := if maxAddr <? u64 (p_vaddr ph + p_memsz ph) then u64 (p_vaddr ph + p_memsz ph) else maxAddr in
      find_range isInterp phdrs entsize l minAddr maxAddr
    else if (p_type ph =? PT_INTERP) && isInterp then Some None
    else find_range isInterp phdrs entsize l minAddr maxAddr
  end.

Definition segment_prot (flags : Z) : Z :=
  let prot := if has flags PF_X then Z.lor E_PROT_NONE E_PROT_EXEC else E_PROT_NONE in
  let prot := if has flags PF_W then Z.lor prot E_PROT_WRITE else prot in
  if has flags PF_R then Z.lor prot E_PROT_READ else prot.

(** How one turn of the second loop ends. *)
Inductive turn : Type := Next (lc : loader_context) (m : mem) | Out (lc : loader_context) (m : mem).

(** The branch for PT_LOAD. *)
Definition map_segment (o : os) (f : list ascii) (slide : Z) (ph : elf_phdr) (lc : loader_context) (m : mem) : option turn :=
  let addr := u64 (p_vaddr ph + slide) in
  let size := u64 (p_filesz ph + ELF_PAGEOFFSET (p_vaddr ph)) in
  let memsize := u64 (p_memsz ph + ELF_PAGEOFFSET (p_vaddr ph)) in
  let off := u64 (p_offset ph - ELF_PAGEOFFSET (p_vaddr ph)) in
  let addr := ELF_PAGESTART addr in
  let prot := segment_prot (p_flags ph) in
  let needszeroing := negb (size =? ELF_PAGEALIGN size) in
  let prot := if needszeroing then Z.lor prot E_PROT_WRITE else prot in
  let m := mprotect m addr memsize prot in
  match mmap_fixed o m addr size prot f off with
  | None => Some (Out lc m)
  | Some m =>
    if needszeroing then
      m ← memset_zero m (addr + size) (ELF_PAGEALIGN size - size);
      Some (Next lc (if has (p_flags ph) PF_W then m else mprotect m addr memsize (Z.ldiff prot E_PROT_WRITE)))
    else Some (Next lc m)
  end.

(** The branch for PT_INTERP; [nested] is the recursive call.  A size of
    2^64 - 1 equals the -1 that pread fails with. *)
Definition load_interp (o : os) (nested : cstr -> loader_context -> mem -> option (loader_context * mem))
    (f : list ascii) (ph : elf_phdr) (lc : loader_context) (m : mem) : option turn :=
  if p_filesz ph =? 2 ^ 64 - 1 then None
  else
    let interp := ztake (p_filesz ph) (zdrop (p_offset ph) f) in
    if (INT_MAX <? p_filesz ph) || (2 ^ 63 <=? p_offset ph) || negb (Z.of_nat (length interp) =? p_filesz ph) then Some (Out lc m)
    else
      let interp := c_str interp in
      if negb (os_access o interp) then Some (Out lc m)
      else '(lc, m) ← nested interp lc m; Some (Next lc m).

Fixpoint map_segments (o : os) nested (f phdrs : list ascii) (entsize slide : Z) (l : list nat)
    (lc : loader_context) (m : mem) : option turn :=
  match l with
  | [] => Some (Next lc m)
  | i :: l =>
    ph ← phdr_at phdrs entsize i;
    t ← (if p_type ph =? PT_LOAD then map_segment o f slide ph lc m
         else if p_type ph =? PT_INTERP then load_interp o nested f ph lc m
         else Some (Next lc m));
    match t with
    | Next lc m => map_segments o nested f phdrs entsize slide l lc m
    | Out lc m => Some (Out lc m)
    end
  end.

(** The checks of the header, and the program headers when they pass. *)
Definition elf_supported (h : elf_ehdr) : bool :=
  bool_decide (take 4 (e_ident h) = ["127"%char; "E"%char; "L"%char; "F"%char]) &&
  (bytes_value (take 1 (drop 4 (e_ident h))) =? ELFCLASS64) && (e_type h =? ET_DYN) && negb (e_phoff h =? 0).

Definition load_with (o : os) nested (isInterp : bool) (path : cstr) (lc : loader_context) (m : mem)
    : option (loader_context * mem) :=
  match os_open o isInterp path with
  | None => Some (lc, m)
  | Some f =>
    if Z.of_nat (length f) <? sizeof_Ehdr then Some (lc, m)
    else
      let h := decode_ehdr f in
      if negb (elf_supported h) then Some (lc, m)
      else
        let n := e_phentsize h * e_phnum h in
        if INT_MAX <? n then None
        else
          let phdrs := ztake n (zdrop (e_phoff h) f) in
          if (2 ^ 63 <=? e_phoff h) || negb (Z.of_nat (length phdrs) =? n) then Some (lc, m)
          else
            let indices := seq 0 (Z.to_nat (e_phnum h)) in
            range ← find_range isInterp phdrs (e_phentsize h) indices (2 ^ 64 - 1) 0;
            match range with
            | None => Some (lc, m)
            | Some (minAddr, maxAddr) =>
              if maxAddr =? 0 then Some (lc, m)
              else
                match mmap_anon o m (u64 (maxAddr - minAddr)) E_PROT_NONE with
                | None => Some (lc, m)
                | Some (base, m) =>
                  let slide := u64 (base - minAddr) in
                  t ← map_segments o nested f phdrs (e_phentsize h) slide indices lc m;
                  match t with
                  | Out lc m => Some (lc, m)
                  | Next lc m =>
                    Some (if isInterp then set_interp base (u64 (slide + e_entry h)) lc
                          else set_exec (u64 (slide + e_entry h)) (u64 (slide + e_phoff h)) (e_phentsize h) (e_phnum h) lc, m)
                  end
                end
            end
  end.

(** The interpreter must not have an interpreter of its own, so that the
    recursion has two levels; [interp_not_nested] below. *)
Definition load_interpreter (o : os) : cstr -> loader_context -> mem -> option (loader_context * mem) :=
  load_with o (λ _ _ _, None) true.

Definition load (o : os) : cstr -> loader_context -> mem -> option (loader_context * mem) :=
  load_with o (load_interpreter o) false.

(** ** The environment *)

Definition loader_SYSTEM_ROOT : cstr := s2c "/Volumes/SystemRoot".

(** The string the variable is replaced with.  [symlink_path] has room for
    ten bytes more than the directory, in a block of [os_usable] bytes. *)
Definition processEnvVariable (o : os) (var : cstr) : option cstr :=
  if strneq var (s2c "HOME=") 5 then
    let symlink_path := drop 5 var ++ s2c "/LinuxHome" in
    if os_usable o (strlen (drop 5 var) + 10) <? strlen symlink_path + 1 then None
    else
      match os_readlink o symlink_path with
      | None => Some var
      | Some target =>
        let home := take 511 target in
        let len := length home in
        if strneq home loader_SYSTEM_ROOT (length loader_SYSTEM_ROOT) then
          let buf := write_at (home ++ [NUL]) 0 (s2c "HOME=" ++ [NUL]) in
          let buf := write_at buf 5 (take (len + 2 - (length loader_SYSTEM_ROOT + 1)) (drop (length loader_SYSTEM_ROOT) buf)) in
          Some (c_str buf)
        else Some var
      end
  else Some var.

(** ** run *)

(** A word of the initial stack: a number, or a pointer to a string or to the
    random bytes. *)
Inductive word : Set := WInt (z : Z) | WStr (s : cstr) | WRandom.

Definition STACK_WORDS : Z := 4096 * 4 / 8.

(** [stack[pos++] = ...] for the words in order, from word [i] of [stackmem]. *)
Fixpoint store_words (stackmem : list word) (i : Z) (ws : list word) : option (list word) :=
  match ws with
  | [] => Some stackmem
  | w :: ws => if inside i 0 STACK_WORDS then store_words (<[Z.to_nat i := w]> stackmem) (i + 1) ws else None
  end.

(** The conversion %lx of printf, and [strtoul] with base 16 on its output. *)
Definition lower_digit (d : Z) : ascii := byte_of (if d <? 10 then 48 + d else 97 + (d - 10)).

Fixpoint lx_digits (fuel : nat) (n : Z) (acc : cstr) : cstr :=
  match fuel with
  | 0%nat => acc
  | S fuel => let acc := lower_digit (n mod 16) :: acc in if n / 16 =? 0 then acc else lx_digits fuel (n / 16) acc
  end.

Definition format_lx (n : Z) : cstr := lx_digits 16 n [].

Definition lower_value (c : ascii) : Z := if byte_val c <? 97 then byte_val c - 48 else byte_val c - 97 + 10.
Definition strtoul_16 (s : cstr) : Z := base_value lower_value 16 0 s.

Definition pointer_text (p : Z) : cstr := take 19 (format_lx p).

Definition ptrcount (envp : list cstr) : Z :=
  let n := 10 * 2 + 1 + 4 + Z.of_nat (length envp) + 1 in if n mod 2 =? 0 then n + 1 else n.

Definition auxv (phstart phentsize phnum entry base : Z) : list (Z * word) :=
  [(AT_PHDR, WInt phstart); (AT_PHENT, WInt phentsize); (AT_PHNUM, WInt phnum); (AT_ENTRY, WInt entry);
   (AT_BASE, WInt base); (AT_PAGESZ, WInt 4096); (AT_FLAGS, WInt 0); (AT_RANDOM, WRandom)].

Definition aux_words (l : list (Z * word)) : list word := l ≫= λ '(t, w), [WInt t; w].

Inductive run_result : Type :=
| NotStarted (m : mem)
| Jump (rsp : Z) (stack : list word) (entry : Z) (m : mem).

Definition loader_argv (elfcalls loader_return : Z) : list cstr :=
  [s2c "elfloader_dummy"; pointer_text elfcalls; pointer_text loader_return].

Definition run (o : os) (path : cstr) (envp : list cstr) (elfcalls loader_return : Z) (m : mem) : option run_result :=
  '(lc, m) ← load o path fresh_context m;
  interp_entry ← interp_entry lc;
  if interp_entry =? 0 then Some (NotStarted m)
  else
    '(stackmem, m) ← mmap_anon o m (4096 * 4) (Z.lor E_PROT_READ E_PROT_WRITE);
    let stack := STACK_WORDS - 1 - ptrcount envp in
    env ← mapM (processEnvVariable o) envp;
    phstart ← exec_phstart lc; phentsize ← exec_phentsize lc; phnum ← exec_phnum lc;
    exec_entry ← exec_entry lc; interp_base ← interp_base lc;
    words ← store_words (replicate (Z.to_nat STACK_WORDS) (WInt 0)) stack
      (WInt 3 :: (WStr <$> loader_argv elfcalls loader_return) ++ [WInt 0] ++ (WStr <$> env) ++ [WInt 0] ++
       aux_words (auxv phstart phentsize phnum exec_entry interp_base) ++ [WInt AT_NULL; WInt 0]);
    Some (Jump (stackmem + 8 * stack) (zdrop stack words) interp_entry m).

(** native/elfcalls.c: what the started program makes of its arguments. *)
Definition elfcalls_main (argv : list cstr) : option (Z * Z) :=
  calls ← argv !! 1%nat; ret ← argv !! 2%nat; Some (strtoul_16 calls, strtoul_16 ret).

(** ** ext/for-libelfloader.c *)

Definition _open_for_libelfloader (path : cstr) (flags mode : Z) : M Z :=
  CANCELATION_POINT id (
    let linux_flags := oflags_bsd_to_linux flags in
    let wd := oflags_bsd_to_linux flags in
    ret ← syscall_int __NR_openat [AInt wd; AStr path; AInt linux_flags; AInt mode]; mret (bsd_ret ret)).

Definition _access_for_libelfloader (path : cstr) (mode : Z) : M Z :=
  wd ← get_perthread_wd;
  ret ← syscall_int __NR_faccessat [AInt wd; AStr path; AInt mode; AInt 0]; mret (bsd_ret ret).

(** ** Specification

    What an ELF file asks for, and what the initial stack means. *)

Definition headers (f : list ascii) : list elf_phdr :=
  let h := decode_ehdr f in
  (λ i, decode_phdr (ztake sizeof_Phdr (zdrop (e_phoff h + Z.of_nat i * e_phentsize h) f))) <$> seq 0 (Z.to_nat (e_phnum h)).

Definition is_load (ph : elf_phdr) : bool := p_type ph =? PT_LOAD.
Definition is_interp (ph : elf_phdr) : bool := p_type ph =? PT_INTERP.

Definition seg_lo (ph : elf_phdr) : Z := p_vaddr ph - p_vaddr ph mod 4096.
Definition seg_hi (ph : elf_phdr) : Z := page_up (p_vaddr ph + p_memsz ph).

(** A segment that can be mapped: its part of the file exists and is at the
    same place in its page, and it ends below 2^47. *)
Definition segment_ok (f : list ascii) (ph : elf_phdr) : bool :=
  (0 <? p_filesz ph) && (p_filesz ph <=? p_memsz ph) && (p_vaddr ph + p_memsz ph <? 2 ^ 47) &&
  (p_offset ph mod 4096 =? p_vaddr ph mod 4096) && (p_offset ph + p_filesz ph <=? Z.of_nat (length f)).

Definition apart (a b : elf_phdr) : bool := (seg_hi a <=? seg_lo b) || (seg_hi b <=? seg_lo a).

Fixpoint all_apart (l : list elf_phdr) : bool :=
  match l with [] => true | ph :: l => forallb (apart ph) l && all_apart l end.

Definition loads (f : list ascii) : list elf_phdr := filter (λ ph, is_load ph = true) (headers f).
Definition interps (f : list ascii) : list elf_phdr := filter (λ ph, is_interp ph = true) (headers f).

(** A position-independent file with at least one segment and pages of its
    own for each. *)
Definition elf_ok (f : list ascii) : bool :=
  let h := decode_ehdr f in
  (sizeof_Ehdr <=? Z.of_nat (length f)) && elf_supported h && (sizeof_Phdr <=? e_phentsize h) &&
  (e_phentsize h * e_phnum h <=? INT_MAX) && (e_phoff h + e_phentsize h * e_phnum h <=? Z.of_nat (length f)) &&
  (Z.of_nat (length f) <? 2 ^ 63) && negb (bool_decide (loads f = [])) && forallb (segment_ok f) (loads f) && all_apart (loads f).

Definition load_base (f : list ascii) : Z := foldr (λ ph r, Z.min (seg_lo ph) r) (2 ^ 64 - 1) (loads f).
Definition load_end (f : list ascii) : Z := foldr (λ ph r, Z.max (p_vaddr ph + p_memsz ph) r) 0 (loads f).

(** The contents the file gives to byte [i] of a segment. *)
Definition segment_byte (f : list ascii) (ph : elf_phdr) (i : Z) : option ascii :=
  if i <? p_filesz ph then f !! Z.to_nat (p_offset ph + i) else Some NUL.

(** Every segment is in memory, moved by [slide]. *)
Definition loaded (m : mem) (f : list ascii) (slide : Z) : Prop :=
  ∀ ph i, ph ∈ loads f -> 0 <= i < p_memsz ph ->
    m (slide + p_vaddr ph + i) = Some (Cell (segment_byte f ph i) (segment_prot (p_flags ph))).

(** Nothing that was mapped has changed. *)
Definition keeps (m m' : mem) : Prop := ∀ a, m a ≠ None -> m' a = m a.

(** The promise of mmap: whole pages of the user's half that were not in use. *)
Definition mmap_fresh (o : os) : Prop :=
  ∀ m len base, 0 < len -> os_mmap o m len = Some base ->
    0 < base ∧ base mod 4096 = 0 ∧ base + page_up len <= 2 ^ 47 ∧ ∀ a, inside a base (base + page_up len) = true -> m a = None.

(** Some mapping of a file is refused. *)
Definition refused (o : os) : Prop := ∃ a len off, os_refuse o a len off = true.

(** Every new address is in one of the ranges. *)
Definition adds (m m' : mem) (l : list (Z * Z)) : Prop :=
  ∀ a, m' a ≠ None -> m a ≠ None ∨ ∃ b n, (b, n) ∈ l ∧ inside a b (b + page_up n) = true.

Definition image_size (f : list ascii) : Z := load_end f - load_base f.

(** The initial stack as the System V ABI reads it. *)
Record start_info := StartInfo { si_argc : Z; si_argv : list cstr; si_envp : list cstr; si_auxv : list (Z * word) }.

Fixpoint read_strings (ws : list word) : option (list cstr * list word) :=
  match ws with
  | WStr s :: ws => '(l, r) ← read_strings ws; Some (s :: l, r)
  | WInt 0 :: ws => Some ([], ws)
  | _ => None
  end.

Fixpoint read_auxv (fuel : nat) (ws : list word) : option (list (Z * word)) :=
  match fuel, ws with
  | S fuel, WInt t :: w :: ws => if t =? AT_NULL then Some [] else l ← read_auxv fuel ws; Some ((t, w) :: l)
  | _, _ => None
  end.

Definition abi_start (ws : list word) : option start_info :=
  match ws with
  | WInt argc :: ws =>
    '(argv, ws) ← read_strings ws;
    '(envp, ws) ← read_strings ws;
    aux ← read_auxv (length ws) ws;
    Some (StartInfo argc argv envp aux)
  | _ => None
  end.
