(* ===== verification/ElfProofs.v ===== *)
(** * The ELF loader: theorems

    What [load] and [run] of [ElfLoader] do: one segment, the loop over the
    segments, the program with its interpreter, the initial stack, and the
    example the main theorem is applied to. *)
From S2P Require Import Prelude Abi Linux Errno Base Simple Fcntl Paths ElfLoader.

(** ** Lemmas *)

(** *** Pages *)

Lemma land_pages v : 0 <= v < 2 ^ 64 -> Z.land v (Z.lxor (2 ^ 64 - 1) 4095) = v - v mod 4096.
Proof.
  intros Hv. replace (Z.lxor (2 ^ 64 - 1) 4095) with (Z.ldiff (Z.ones 64) (Z.ones 12)) by done.
  assert (Z.land v (Z.ldiff (Z.ones 64) (Z.ones 12)) = Z.ldiff v (Z.ones 12)) as ->.
  { apply Z.bits_inj'. intros n Hn. rewrite Z.land_spec, !Z.ldiff_spec. destruct (decide (n < 64)).
    - rewrite (Z.ones_spec_low 64) by lia. by destruct (Z.testbit v n).
    - rewrite (Z.testbit_eqb v n), Z.div_small; [done| |done].
      split; [lia|]. apply Z.lt_le_trans with (2 ^ 64); [lia|]. apply Z.pow_le_mono_r; lia. }
  rewrite Z.ldiff_ones_r, Z.shiftr_div_pow2, Z.shiftl_mul_pow2 by lia. change (2 ^ 12) with 4096.
  pose proof (Z.div_mod v 4096 ltac:(lia)). lia.
Qed.

Lemma pagestart_eq v : 0 <= v < 2 ^ 64 -> ELF_PAGESTART v = v - v mod 4096.
Proof. apply land_pages. Qed.

Lemma pageoffset_eq v : ELF_PAGEOFFSET v = v mod 4096.
Proof. unfold ELF_PAGEOFFSET. change (ELF_MIN_ALIGN - 1) with (Z.ones 12). by rewrite Z.land_ones. Qed.

Lemma pagealign_eq v : 0 <= v < 2 ^ 63 -> ELF_PAGEALIGN v = page_up v.
Proof.
  intros Hv. unfold ELF_PAGEALIGN, ELF_MIN_ALIGN, page_up. rewrite u64_id by lia.
  replace (v + 0x1000 - 1) with (v + 4095) by lia. change (0x1000 - 1) with 4095. rewrite land_pages by lia.
  pose proof (Z.div_mod (v + 4095) 4096 ltac:(lia)). lia.
Qed.

Lemma page_up_le v : v <= page_up v < v + 4096.
Proof. unfold page_up. pose proof (Z.div_mod (v + 4095) 4096 ltac:(lia)). pose proof (Z.mod_pos_bound (v + 4095) 4096). lia. Qed.

Lemma page_up_mod v : page_up v mod 4096 = 0.
Proof. unfold page_up. apply Z.mod_mul. lia. Qed.

Lemma page_up_mono a b : a <= b -> page_up a <= page_up b.
Proof. intros. unfold page_up. apply Z.mul_le_mono_nonneg_r; [lia|]. apply Z.div_le_mono; lia. Qed.

Lemma page_up_add a b : a mod 4096 = 0 -> page_up (a + b) = a + page_up b.
Proof. unfold page_up. intros Ha. apply Z.div_exact in Ha; [|lia]. rewrite Ha. generalize (a / 4096). intros k.
  replace (4096 * k + b + 4095) with ((b + 4095) + k * 4096) by lia. rewrite Z.div_add by lia. lia. Qed.

Lemma mod_lt_page v : 0 <= v mod 4096 < 4096.
Proof. apply Z.mod_pos_bound. lia. Qed.

Lemma add_page_mod a b : a mod 4096 = 0 -> (a + b) mod 4096 = b mod 4096.
Proof. intros Ha. rewrite Z.add_mod, Ha by lia. simpl. apply Z.mod_mod. lia. Qed.

Lemma page_down_mod v : (v - v mod 4096) mod 4096 = 0.
Proof. rewrite Zminus_mod, Z.mod_mod, Z.sub_diag by lia. done. Qed.

Lemma inside_true a lo hi : inside a lo hi = true <-> lo <= a < hi.
Proof. unfold inside. rewrite andb_true_iff, Z.leb_le, Z.ltb_lt. done. Qed.

Lemma inside_false a lo hi : inside a lo hi = false <-> a < lo ∨ hi <= a.
Proof. unfold inside. rewrite andb_false_iff, Z.leb_gt, Z.ltb_ge. done. Qed.

(** *** Fields *)

Lemma bytes_value_range l : 0 <= bytes_value l < 256 ^ Z.of_nat (length l).
Proof.
  induction l as [|c l IH]; simpl bytes_value; [simpl; lia|]. pose proof (byte_val_range c).
  replace (Z.of_nat (length (c :: l))) with (Z.succ (Z.of_nat (length l))) by (simpl length; lia).
  rewrite Z.pow_succ_r by lia. nia.
Qed.

Lemma field_range b off n : 0 <= field b off n < 256 ^ Z.of_nat n.
Proof.
  unfold field. pose proof (bytes_value_range (take n (drop off b))) as H. split; [lia|].
  eapply Z.lt_le_trans; [apply H|]. apply Z.pow_le_mono_r; [lia|]. pose proof (length_take_le (drop off b) n). rewrite length_take. lia.
Qed.

Definition u64_range (z : Z) : Prop := 0 <= z < 2 ^ 64.

Lemma phdr_ranges b : let ph := decode_phdr b in
  u64_range (p_offset ph) ∧ u64_range (p_vaddr ph) ∧ u64_range (p_filesz ph) ∧ u64_range (p_memsz ph).
Proof. simpl. unfold u64_range. change (2 ^ 64) with (256 ^ Z.of_nat 8). split_and!; apply field_range. Qed.

(** *** Memory operations *)

Lemma mapped_prefix_all m l : (∀ p, p ∈ l -> mapped m p = true) -> mapped_prefix m l = length l.
Proof.
  induction l as [|p l IH]; intros H; simpl; [done|]. rewrite (H p) by set_solver. f_equal. apply IH. set_solver.
Qed.

Lemma elem_pages p addr len : p ∈ pages addr len -> addr <= p < addr + page_up len.
Proof.
  unfold pages. rewrite list_elem_of_fmap. intros (k & -> & Hk%elem_of_seq). unfold page_up in *.
  rewrite Z.div_mul in Hk by lia. lia.
Qed.

(** On mapped pages [mprotect] only sets the protection. *)
Lemma mprotect_mapped m addr len prot a :
  0 <= len -> (∀ b, addr <= b < addr + page_up len -> m b ≠ None) ->
  mprotect m addr len prot a = if inside a addr (addr + page_up len) then set_prot prot <$> m a else m a.
Proof.
  intros Hl H. unfold mprotect. rewrite mapped_prefix_all.
  - unfold pages. rewrite length_fmap, length_seq. pose proof (page_up_le len). pose proof (page_up_mod len) as Hm.
    apply Z.div_exact in Hm; [|lia]. rewrite Z2Nat.id by (apply Z.div_pos; lia). by rewrite <- Hm.
  - intros p Hp%elem_pages. unfold mapped. specialize (H p Hp). by destruct (m p).
Qed.

Lemma memset_zero_some m addr n :
  (∀ a, addr <= a < addr + n -> writable m a = true) ->
  memset_zero m addr n = Some (λ a, if inside a addr (addr + n) then (λ c, Cell (Some NUL) (c_prot c)) <$> m a else m a).
Proof.
  intros H. unfold memset_zero. replace (forallb _ _) with true; [done|]. symmetry. apply forallb_forall.
  intros k Hk%in_seq. apply H. lia.
Qed.

Lemma mmap_fixed_some o m addr len prot f off :
  0 < len -> addr mod 4096 = 0 -> off mod 4096 = 0 ->
  os_refuse o addr len off = true ∨
  mmap_fixed o m addr len prot f off =
    Some (λ a, if inside a addr (addr + page_up len) then Some (Cell (file_byte f (off + (a - addr))) prot) else m a).
Proof.
  intros Hl Ha Ho. unfold mmap_fixed. rewrite Ha, Ho. destruct (Z.eqb_spec len 0); [lia|]. simpl.
  destruct (os_refuse o addr len off); auto.
Qed.

Lemma file_byte_in f i : 0 <= i < Z.of_nat (length f) -> file_byte f i = f !! Z.to_nat i.
Proof. intros H. unfold file_byte. by destruct (Z.ltb_spec i (Z.of_nat (length f))); [|lia]. Qed.

Lemma file_byte_page f i : 0 <= i < page_up (Z.of_nat (length f)) -> is_Some (file_byte f i).
Proof.
  intros H. unfold file_byte. destruct (Z.ltb_spec i (Z.of_nat (length f))); [apply lookup_lt_is_Some; lia|].
  destruct (Z.ltb_spec i (page_up (Z.of_nat (length f)))); [by eexists|lia].
Qed.

Lemma segment_prot_write flags : has (Z.lor (segment_prot flags) E_PROT_WRITE) E_PROT_WRITE = true.
Proof. unfold segment_prot. by destruct (has flags PF_X), (has flags PF_W), (has flags PF_R). Qed.

Lemma segment_prot_undo flags :
  (if has flags PF_W then Z.lor (segment_prot flags) E_PROT_WRITE
   else Z.ldiff (Z.lor (segment_prot flags) E_PROT_WRITE) E_PROT_WRITE) = segment_prot flags.
Proof. unfold segment_prot. by destruct (has flags PF_X), (has flags PF_W), (has flags PF_R). Qed.

(** *** One segment *)

(** The segment in memory, pages and all. *)
Definition segment_cell (f : list ascii) (s : Z) (ph : elf_phdr) (a : Z) : cell :=
  Cell (if a <? s + p_vaddr ph + p_filesz ph then file_byte f (p_offset ph + (a - (s + p_vaddr ph))) else Some NUL)
       (segment_prot (p_flags ph)).

Definition in_segment (s : Z) (ph : elf_phdr) (a : Z) : bool := inside a (s + seg_lo ph) (s + seg_hi ph).

Definition reserved (m : mem) (s : Z) (ph : elf_phdr) : Prop :=
  ∀ a, in_segment s ph a = true -> m a = Some (Cell (Some NUL) E_PROT_NONE).

(** A segment that fits a place. *)
Record placed (f : list ascii) (s : Z) (ph : elf_phdr) : Prop := Placed {
  pl_ok : segment_ok f ph = true;
  pl_ranges : u64_range (p_offset ph) ∧ u64_range (p_vaddr ph) ∧ u64_range (p_filesz ph) ∧ u64_range (p_memsz ph);
  pl_mod : s mod 4096 = 0;
  pl_low : 0 <= s + seg_lo ph;
  pl_high : s + seg_hi ph <= 2 ^ 47 }.

Lemma segment_ok_facts f ph : segment_ok f ph = true ->
  0 < p_filesz ph <= p_memsz ph ∧ p_vaddr ph + p_memsz ph < 2 ^ 47 ∧ p_offset ph mod 4096 = p_vaddr ph mod 4096 ∧
  p_offset ph + p_filesz ph <= Z.of_nat (length f).
Proof. unfold segment_ok. rewrite !andb_true_iff, !Z.ltb_lt, !Z.leb_le, Z.eqb_eq. lia. Qed.

(** The address, the sizes and the offset that [map_segment] computes. *)
Lemma segment_numbers f s ph : placed f s ph ->
  let off := p_vaddr ph mod 4096 in
  ELF_PAGESTART (u64 (p_vaddr ph + u64 s)) = s + seg_lo ph ∧
  u64 (p_filesz ph + ELF_PAGEOFFSET (p_vaddr ph)) = p_filesz ph + off ∧
  u64 (p_memsz ph + ELF_PAGEOFFSET (p_vaddr ph)) = p_memsz ph + off ∧
  u64 (p_offset ph - ELF_PAGEOFFSET (p_vaddr ph)) = p_offset ph - off ∧
  ELF_PAGEALIGN (p_filesz ph + off) = page_up (p_filesz ph + off) ∧
  s + seg_lo ph + page_up (p_memsz ph + off) = s + seg_hi ph ∧
  (s + seg_lo ph) mod 4096 = 0 ∧ (p_offset ph - off) mod 4096 = 0.
Proof.
  intros [(Hf & Hv & Ho & Hl)%segment_ok_facts (R1 & R2 & R3 & R4) Hs Hlo Hhi]. intros off. unfold u64_range in *.
  pose proof (mod_lt_page (p_vaddr ph)) as Hm. fold off in Hm.
  assert (off <= p_offset ph) as Hoo by (unfold off; rewrite <- Ho; apply Z.mod_le; lia).
  unfold seg_lo in *. fold off in Hlo |- *. rewrite !pageoffset_eq. fold off.
  assert (u64 (p_vaddr ph + u64 s) = p_vaddr ph + s) as ->.
  { unfold u64. rewrite Zplus_mod_idemp_r. apply Z.mod_small. pose proof (page_up_le (p_vaddr ph + p_memsz ph)). unfold seg_hi in Hhi. lia. }
  assert (seg_hi ph = p_vaddr ph - off + page_up (p_memsz ph + off)) as Hse.
  { unfold seg_hi. rewrite <- page_up_add by apply page_down_mod. f_equal. lia. }
  pose proof (page_up_le (p_memsz ph + off)).
  rewrite pagestart_eq by lia. rewrite pagealign_eq by lia. split_and!; try (apply u64_id; lia); try done.
  - rewrite (Z.add_comm (p_vaddr ph)), add_page_mod by done. fold off. lia.
  - lia.
  - rewrite add_page_mod by done. apply page_down_mod.
  - unfold off. rewrite <- Ho. apply page_down_mod.
Qed.

Lemma segment_cell_at f s ph : placed f s ph -> ∀ i, 0 <= i < p_memsz ph ->
  in_segment s ph (s + p_vaddr ph + i) = true ∧
  segment_cell f s ph (s + p_vaddr ph + i) = Cell (segment_byte f ph i) (segment_prot (p_flags ph)).
Proof.
  intros [(Hf & Hv & Ho & Hl)%segment_ok_facts (R1 & R2 & R3 & R4) Hs Hlo Hhi] i Hi. unfold u64_range in *. split.
  - apply inside_true. unfold seg_lo, seg_hi. pose proof (mod_lt_page (p_vaddr ph)). pose proof (page_up_le (p_vaddr ph + p_memsz ph)). lia.
  - unfold segment_cell, segment_byte. f_equal. destruct (Z.ltb_spec (s + p_vaddr ph + i) (s + p_vaddr ph + p_filesz ph)), (Z.ltb_spec i (p_filesz ph)); try lia; [|done].
    rewrite file_byte_in by lia. do 2 f_equal. lia.
Qed.

(** What the segment's part of the file looks like in its pages. *)
Lemma mapped_bytes f s ph : placed f s ph ->
  let off := p_vaddr ph mod 4096 in ∀ a, s + seg_lo ph <= a < s + seg_lo ph + page_up (p_filesz ph + off) ->
  is_Some (file_byte f (p_offset ph - off + (a - (s + seg_lo ph)))).
Proof.
  intros Hp off a Ha. pose proof (segment_numbers f s ph Hp) as (_ & _ & _ & _ & _ & _ & _ & Hom).
  destruct Hp as [(Hf & Hv & Ho & Hl)%segment_ok_facts (R1 & R2 & R3 & R4) Hs Hlo Hhi]. unfold u64_range in *.
  fold off in Hom. apply file_byte_page. assert (off <= p_offset ph) by (unfold off; rewrite <- Ho; apply Z.mod_le; lia). split; [lia|].
  assert (page_up (p_offset ph - off + (p_filesz ph + off)) <= page_up (Z.of_nat (length f))) as Hu by (apply page_up_mono; lia).
  rewrite page_up_add in Hu by done. lia.
Qed.

Definition same_outside (s : Z) (ph : elf_phdr) (m m' : mem) : Prop := ∀ a, in_segment s ph a = false -> m' a = m a.

(** A memory in which the segment is in place, with protection [prot]. *)
Definition segment_in (f : list ascii) (s : Z) (ph : elf_phdr) (prot : Z) (m m' : mem) : Prop :=
  ∀ a, m' a = if in_segment s ph a then Some (Cell (c_byte (segment_cell f s ph a)) prot) else m a.

(** [mprotect] on pages that are all there. *)
Lemma mprotect_segment f s ph (m m' : mem) prot (g : Z -> option ascii) p :
  placed f s ph -> (∀ a, m' a = if in_segment s ph a then Some (Cell (g a) p) else m a) ->
  ∀ a, mprotect m' (s + seg_lo ph) (p_memsz ph + p_vaddr ph mod 4096) prot a =
       if in_segment s ph a then Some (Cell (g a) prot) else m a.
Proof.
  intros Hp Hm a. pose proof (segment_numbers f s ph Hp) as (_ & _ & _ & _ & _ & E6 & _).
  destruct (pl_ranges _ _ _ Hp) as (_ & _ & _ & R4). unfold u64_range in R4. pose proof (mod_lt_page (p_vaddr ph)).
  rewrite mprotect_mapped; [|lia|].
  - rewrite E6, Hm. unfold in_segment. by destruct (inside a _ _).
  - intros b Hb. rewrite Hm. unfold in_segment. rewrite <- E6. by rewrite (proj2 (inside_true _ _ _) Hb).
Qed.

(** The file's pages on top of zeroed ones, cleared behind the file's part,
    are the segment. *)
Lemma segment_shape f s ph (m : mem) prot a : placed f s ph ->
  let size := p_filesz ph + p_vaddr ph mod 4096 in
  let addr := s + seg_lo ph in
  (if inside a addr (addr + page_up size)
   then Some (Cell (if a <? addr + size then file_byte f (p_offset ph - p_vaddr ph mod 4096 + (a - addr)) else Some NUL) prot)
   else if in_segment s ph a then Some (Cell (Some NUL) prot) else m a) =
  if in_segment s ph a then Some (Cell (c_byte (segment_cell f s ph a)) prot) else m a.
Proof.
  intros Hp size addr. pose proof (segment_numbers f s ph Hp) as (_ & _ & _ & _ & _ & E6 & _).
  pose proof (segment_ok_facts f ph (pl_ok _ _ _ Hp)) as (Hf & _). pose proof (page_up_le size).
  assert (page_up size <= page_up (p_memsz ph + p_vaddr ph mod 4096)) by (apply page_up_mono; unfold size; lia).
  unfold in_segment, segment_cell. fold addr. fold addr in E6. rewrite <- E6. simpl.
  replace (p_offset ph + (a - (s + p_vaddr ph))) with (p_offset ph - p_vaddr ph mod 4096 + (a - addr)) by (unfold addr, seg_lo; lia).
  replace (s + p_vaddr ph + p_filesz ph) with (addr + size) by (unfold addr, size, seg_lo; lia).
  destruct (inside a addr (addr + page_up size)) eqn:I1, (inside a addr (addr + page_up (p_memsz ph + p_vaddr ph mod 4096))) eqn:I2; try done;
    rewrite ?inside_true, ?inside_false in *; try lia.
  destruct (Z.ltb_spec a (addr + size)); [lia|done].
Qed.

(** The mapping of the file and the clearing of the rest of its last page. *)
Lemma map_file_ok o f s ph (m m1 : mem) prot :
  placed f s ph -> (∀ a, m1 a = if in_segment s ph a then Some (Cell (Some NUL) prot) else m a) ->
  let size := p_filesz ph + p_vaddr ph mod 4096 in
  let addr := s + seg_lo ph in
  let off := p_offset ph - p_vaddr ph mod 4096 in
  refused o ∧ mmap_fixed o m1 addr size prot f off = None ∨
  ∃ m2, mmap_fixed o m1 addr size prot f off = Some m2 ∧
    (size = page_up size -> segment_in f s ph prot m m2) ∧
    (has prot E_PROT_WRITE = true -> ∃ m3, memset_zero m2 (addr + size) (page_up size - size) = Some m3 ∧ segment_in f s ph prot m m3).
Proof.
  intros Hp H1 size addr off. pose proof (segment_numbers f s ph Hp) as (_ & _ & _ & _ & _ & _ & E7 & E8).
  pose proof (mapped_bytes f s ph Hp) as Hb. simpl in Hb. fold size in Hb. fold addr off in Hb, E7, E8.
  pose proof (segment_ok_facts f ph (pl_ok _ _ _ Hp)) as (Hf & _). pose proof (mod_lt_page (p_vaddr ph)). pose proof (page_up_le size).
  assert (0 < size) by (unfold size; lia).
  destruct (mmap_fixed_some o m1 addr size prot f off) as [Hno|Hmap]; [done|done|done| |].
  { left. split; [unfold refused; by eauto|]. unfold mmap_fixed. by rewrite Hno, !orb_true_r. }
  right. eexists. split; [exact Hmap|]. split.
  - intros Hsz a. rewrite <- (segment_shape f s ph m prot a Hp). fold size addr off. rewrite H1.
    destruct (inside a addr (addr + page_up size)) eqn:I1; [|done]. apply inside_true in I1. by destruct (Z.ltb_spec a (addr + size)); [|lia].
  - intros Hw. rewrite memset_zero_some.
    + eexists. split; [done|]. intros a. rewrite <- (segment_shape f s ph m prot a Hp). fold size addr off. rewrite H1.
      replace (addr + size + (page_up size - size)) with (addr + page_up size) by lia.
      destruct (inside a addr (addr + page_up size)) eqn:I1, (inside a (addr + size) (addr + page_up size)) eqn:I2; simpl;
        rewrite ?inside_true, ?inside_false in *; try lia; destruct (Z.ltb_spec a (addr + size)); try lia; done.
    + intros a Ha. unfold writable. rewrite (proj2 (inside_true a addr (addr + page_up size))) by lia.
      by destruct (Hb a) as [x ->]; [lia|].
Qed.

Lemma map_segment_ok o f s ph lc m :
  placed f s ph -> reserved m s ph ->
  ∃ t, map_segment o f (u64 s) ph lc m = Some t ∧
    ((refused o ∧ ∃ m', t = Out lc m' ∧ same_outside s ph m m') ∨
     ∃ m', t = Next lc m' ∧ segment_in f s ph (segment_prot (p_flags ph)) m m').
Proof.
  intros Hp Hr. pose proof (segment_numbers f s ph Hp) as (E1 & E2 & E3 & E4 & E5 & _).
  unfold map_segment. rewrite E1, E2, E3, E4, E5. clear E1 E2 E3 E4 E5.
  set (size := p_filesz ph + p_vaddr ph mod 4096). set (nz := negb (size =? page_up size)).
  set (prot := if nz then Z.lor (segment_prot (p_flags ph)) E_PROT_WRITE else segment_prot (p_flags ph)).
  assert (∀ a, m a = if in_segment s ph a then Some (Cell (Some NUL) E_PROT_NONE) else m a) as H0.
  { intros a. destruct (in_segment s ph a) eqn:I; [by apply Hr|done]. }
  pose proof (mprotect_segment f s ph m m prot _ _ Hp H0) as H1.
  pose proof (map_file_ok o f s ph m _ prot Hp H1) as Hmf. cbv zeta in Hmf |- *. fold size in Hmf |- *. fold nz. fold prot.
  destruct Hmf as [[Hno ->]|(m2 & -> & Hfull & Hpart)].
  { eexists. split; [done|]. left. split; [done|]. eexists. split; [done|]. intros a Ha. by rewrite H1, Ha. }
  destruct nz eqn:Enz; unfold nz in Enz; subst prot; simpl.
  2:{ apply negb_false_iff, Z.eqb_eq in Enz. eexists. split; [done|]. right. eauto. }
  destruct Hpart as (m3 & -> & Hm3); [apply segment_prot_write|]. simpl. eexists. split; [done|]. right. eexists. split; [done|].
  pose proof (segment_prot_undo (p_flags ph)) as Hun. destruct (has (p_flags ph) PF_W) eqn:Ew.
  - intros a. by rewrite Hm3, Hun.
  - intros a. by rewrite (mprotect_segment f s ph m m3 _ _ _ Hp Hm3), Hun.
Qed.

(** *** The headers *)

Lemma ztake_zdrop_within {A} (l : list A) a n b k : 0 <= a -> 0 <= b -> 0 <= k -> b + k <= n ->
  ztake k (zdrop b (ztake n (zdrop a l))) = ztake k (zdrop (a + b) l).
Proof.
  intros. unfold ztake, zdrop. rewrite skipn_firstn_comm, take_take, drop_drop. f_equal; [lia|]. f_equal. lia.
Qed.

Record elf_facts (f : list ascii) : Prop := ElfFacts {
  ef_size : sizeof_Ehdr <= Z.of_nat (length f) < 2 ^ 63;
  ef_supported : elf_supported (decode_ehdr f) = true;
  ef_entsize : sizeof_Phdr <= e_phentsize (decode_ehdr f);
  ef_phnum : 0 <= e_phnum (decode_ehdr f);
  ef_phoff : 0 <= e_phoff (decode_ehdr f);
  ef_table : e_phentsize (decode_ehdr f) * e_phnum (decode_ehdr f) <= INT_MAX;
  ef_inside : e_phoff (decode_ehdr f) + e_phentsize (decode_ehdr f) * e_phnum (decode_ehdr f) <= Z.of_nat (length f);
  ef_loads : loads f ≠ [];
  ef_segments : ∀ ph, ph ∈ loads f -> segment_ok f ph = true;
  ef_apart : all_apart (loads f) = true }.

Lemma elf_ok_facts f : elf_ok f = true -> elf_facts f.
Proof.
  unfold elf_ok. cbv zeta. rewrite !andb_true_iff, !Z.leb_le, !Z.ltb_lt, negb_true_iff, bool_decide_eq_false, forallb_forall.
  intros ((((((((H1 & H2) & H3) & H4) & H5) & H6) & H7) & H8) & H9).
  constructor; try done; [apply field_range..|]. intros ph Hph. by apply H8, list_elem_of_In.
Qed.

Definition program_headers (f : list ascii) : list ascii :=
  ztake (e_phentsize (decode_ehdr f) * e_phnum (decode_ehdr f)) (zdrop (e_phoff (decode_ehdr f)) f).

Definition header_indices (f : list ascii) : list nat := seq 0 (Z.to_nat (e_phnum (decode_ehdr f))).

(** The loops meet the headers of the file, in order. *)
Definition lookups (f : list ascii) (l : list nat) (phs : list elf_phdr) : Prop :=
  Forall2 (λ i ph, phdr_at (program_headers f) (e_phentsize (decode_ehdr f)) i = Some ph) l phs.

Lemma program_headers_length f : elf_facts f -> Z.of_nat (length (program_headers f)) = e_phentsize (decode_ehdr f) * e_phnum (decode_ehdr f).
Proof.
  intros F. pose proof (ef_entsize f F). pose proof (ef_phnum f F). pose proof (ef_inside f F). pose proof (ef_phoff f F).
  unfold program_headers, ztake, zdrop, sizeof_Phdr in *. rewrite length_take, length_drop. nia.
Qed.

Lemma headers_lookups f : elf_facts f -> lookups f (header_indices f) (headers f).
Proof.
  intros F. pose proof (program_headers_length f F) as Hl. unfold lookups, headers, header_indices.
  apply Forall2_fmap_r, Forall2_same_length_lookup_2; [done|]. intros k i j Hi Hj. rewrite Hi in Hj. simplify_eq.
  apply lookup_seq in Hi as [-> Hk]. unfold phdr_at. rewrite Hl.
  pose proof (ef_entsize f F). pose proof (ef_phoff f F). unfold sizeof_Phdr in *.
  destruct (Z.leb_spec (Z.of_nat (0 + k) * e_phentsize (decode_ehdr f) + 56) (e_phentsize (decode_ehdr f) * e_phnum (decode_ehdr f))); [|nia].
  do 2 f_equal. unfold program_headers. apply ztake_zdrop_within; nia.
Qed.

Lemma headers_ranges f ph : ph ∈ headers f ->
  u64_range (p_offset ph) ∧ u64_range (p_vaddr ph) ∧ u64_range (p_filesz ph) ∧ u64_range (p_memsz ph).
Proof. unfold headers. rewrite list_elem_of_fmap. intros (i & -> & _). apply phdr_ranges. Qed.

(** *** The range *)

Definition range_from (phs : list elf_phdr) (r : Z * Z) : Z * Z :=
  foldl (λ '(mn, mx) ph, (Z.min mn (seg_lo ph), Z.max mx (p_vaddr ph + p_memsz ph))) r (filter (λ ph, is_load ph = true) phs).

Lemma find_range_ok f isInterp l phs mn mx :
  lookups f l phs -> (∀ ph, ph ∈ phs -> is_load ph = true -> segment_ok f ph = true ∧ u64_range (p_vaddr ph)) ->
  (isInterp = true -> ∀ ph, ph ∈ phs -> is_interp ph = false) ->
  mn mod 4096 = 0 ∨ mn = 2 ^ 64 - 1 ->
  find_range isInterp (program_headers f) (e_phentsize (decode_ehdr f)) l mn mx = Some (Some (range_from phs (mn, mx))).
Proof.
  intros Hl. revert mn mx. induction Hl as [|i ph l phs Hi Hl IH]; intros mn mx Hok Hni Hmn; [done|].
  cbn [find_range]. rewrite Hi. simpl. unfold range_from. rewrite filter_cons. unfold is_load at 1.
  destruct (Z.eqb_spec (p_type ph) PT_LOAD) as [Ht|Ht].
  - rewrite decide_True by (by apply Z.eqb_eq). destruct (Hok ph) as [Hs Hv]; [left|by apply Z.eqb_eq|]. unfold u64_range in Hv.
    apply segment_ok_facts in Hs as (? & ? & _). rewrite pagestart_eq, u64_id by lia. fold (seg_lo ph).
    assert ((if p_vaddr ph <? mn then seg_lo ph else mn) = Z.min mn (seg_lo ph)) as ->.
    { unfold seg_lo. pose proof (mod_lt_page (p_vaddr ph)). destruct (Z.ltb_spec (p_vaddr ph) mn); [lia|].
      destruct Hmn as [Hmn|]; [|lia]. apply Z.div_exact in Hmn; [|lia]. pose proof (Z.div_mod (p_vaddr ph) 4096 ltac:(lia)).
      assert (mn / 4096 <= p_vaddr ph / 4096) by (apply Z.div_le_mono; lia). lia. }
    assert ((if mx <? p_vaddr ph + p_memsz ph then p_vaddr ph + p_memsz ph else mx) = Z.max mx (p_vaddr ph + p_memsz ph)) as ->.
    { destruct (Z.ltb_spec mx (p_vaddr ph + p_memsz ph)); lia. }
    rewrite IH; [done| | |].
    + intros q Hq. apply Hok. by right.
    + intros Hii q Hq. apply Hni; [done|by right].
    + destruct (Z.min_spec mn (seg_lo ph)) as [[_ ->]|[_ ->]]; [done|left; apply page_down_mod].
  - rewrite decide_False by (unfold is_load; by rewrite (proj2 (Z.eqb_neq _ _) Ht)).
    destruct (Z.eqb_spec (p_type ph) PT_INTERP) as [Hp|Hp]; [destruct isInterp|]; simpl.
    + specialize (Hni eq_refl ph ltac:(left)). unfold is_interp in Hni. by rewrite Hp in Hni.
    + apply IH; [intros q Hq; apply Hok; by right|done|done].
    + apply IH; [intros q Hq; apply Hok; by right|intros Hii q Hq; apply Hni; [done|by right]|done].
Qed.

Lemma foldr_min_init {A} (g : A -> Z) l a b : foldr (λ x r, Z.min (g x) r) (Z.min a b) l = Z.min b (foldr (λ x r, Z.min (g x) r) a l).
Proof. induction l as [|x l IH]; simpl; [lia|]. rewrite IH. lia. Qed.

Lemma foldr_max_init {A} (g : A -> Z) l a b : foldr (λ x r, Z.max (g x) r) (Z.max a b) l = Z.max b (foldr (λ x r, Z.max (g x) r) a l).
Proof. induction l as [|x l IH]; simpl; [lia|]. rewrite IH. lia. Qed.

Lemma range_of_headers f : range_from (headers f) (2 ^ 64 - 1, 0) = (load_base f, load_end f).
Proof.
  unfold range_from, load_base, load_end. fold (loads f). generalize (2 ^ 64 - 1) 0. induction (loads f) as [|ph l IH]; intros mn mx; [done|].
  cbn [foldl]. rewrite IH. simpl. by rewrite foldr_min_init, foldr_max_init.
Qed.

Lemma load_base_le f ph : ph ∈ loads f -> load_base f <= seg_lo ph.
Proof.
  unfold load_base. induction (loads f) as [|q l IH]; [by intros ?%not_elem_of_nil|]. simpl. intros [->|Hq]%elem_of_cons; [lia|].
  specialize (IH Hq). lia.
Qed.

Lemma load_end_ge f ph : ph ∈ loads f -> p_vaddr ph + p_memsz ph <= load_end f.
Proof.
  unfold load_end. induction (loads f) as [|q l IH]; [by intros ?%not_elem_of_nil|]. simpl. intros [->|Hq]%elem_of_cons; [lia|].
  specialize (IH Hq). lia.
Qed.

Lemma elem_of_loads f ph : ph ∈ loads f <-> ph ∈ headers f ∧ is_load ph = true.
Proof. unfold loads. rewrite list_elem_of_filter. tauto. Qed.

Lemma load_range_facts f : elf_facts f -> 0 <= load_base f < load_end f ∧ load_end f < 2 ^ 47 ∧ load_base f mod 4096 = 0.
Proof.
  intros F.
  assert (∀ ph, ph ∈ loads f -> 0 <= seg_lo ph < p_vaddr ph + p_memsz ph ∧ p_vaddr ph + p_memsz ph < 2 ^ 47 ∧ seg_lo ph mod 4096 = 0) as H.
  { intros ph Hph. pose proof (segment_ok_facts _ _ (ef_segments f F ph Hph)) as (? & ? & _). apply elem_of_loads in Hph as [Hph _].
    apply headers_ranges in Hph as (_ & Hv & _). unfold u64_range in Hv. pose proof (mod_lt_page (p_vaddr ph)).
    unfold seg_lo. split_and!; [|lia|lia|apply page_down_mod]. pose proof (Z.mod_le (p_vaddr ph) 4096). lia. }
  pose proof (ef_loads f F) as Hne. unfold load_base, load_end. induction (loads f) as [|ph l IH]; [done|]. simpl.
  destruct (H ph) as (H1 & H2 & H3); [left|]. destruct l as [|q l]; [simpl; rewrite Z.min_l, Z.max_l by lia; lia|].
  destruct IH as (I1 & I2 & I3); [|done|]; [intros x Hx; apply H; by right|].
  set (b := foldr _ _ _) in *. set (e := foldr _ _ _) in *. split_and!; [lia..|].
  destruct (Z.min_spec (seg_lo ph) b) as [[_ ->]|[_ ->]]; done.
Qed.

(** *** The loop over segments *)

Lemma map_segments_app o nested f phdrs n s l1 l2 lc m :
  map_segments o nested f phdrs n s (l1 ++ l2) lc m =
  (t ← map_segments o nested f phdrs n s l1 lc m;
   match t with Next lc m => map_segments o nested f phdrs n s l2 lc m | Out lc m => Some (Out lc m) end).
Proof.
  revert lc m. induction l1 as [|i l1 IH]; intros lc m; simpl; [done|]. destruct (phdr_at phdrs n i) as [ph|]; simpl; [|done].
  destruct (if p_type ph =? PT_LOAD then _ else _) as [[lc' m'|lc' m']|]; simpl; [apply IH|done|done].
Qed.

Lemma apart_outside s a b x : apart a b = true -> in_segment s a x = true -> in_segment s b x = false.
Proof. unfold apart, in_segment. rewrite orb_true_iff, !Z.leb_le, inside_true, inside_false. lia. Qed.

(** A memory that differs from [m] in the segments only, and has them. *)
Definition segments_in (f : list ascii) (s : Z) (phs : list elf_phdr) (m m' : mem) : Prop :=
  (∀ ph, ph ∈ phs -> is_load ph = true -> ∀ a, in_segment s ph a = true -> m' a = Some (segment_cell f s ph a)) ∧
  (∀ a, (∀ ph, ph ∈ phs -> is_load ph = true -> in_segment s ph a = false) -> m' a = m a).

Lemma in_some_segment s (phs : list elf_phdr) a :
  (∃ ph, ph ∈ phs ∧ is_load ph = true ∧ in_segment s ph a = true) ∨
  (∀ ph, ph ∈ phs -> is_load ph = true -> in_segment s ph a = false).
Proof.
  induction phs as [|ph phs [(q & Hq & Hl & Ha)|IH]]; [right; by intros ? ?%not_elem_of_nil|left; exists q; split; [by right|done]|].
  destruct (is_load ph && in_segment s ph a) eqn:E; [left|right].
  - apply andb_true_iff in E. exists ph. split; [left|done].
  - intros q [->|Hq]%elem_of_cons Hl; [by rewrite Hl in E|by apply IH].
Qed.

(** Filling reserved segments maps nothing new. *)
Lemma segments_in_dom f s phs (m m' : mem) :
  (∀ ph, ph ∈ phs -> is_load ph = true -> reserved m s ph) -> segments_in f s phs m m' -> ∀ a, m' a = None <-> m a = None.
Proof.
  intros Hr [Hin Hout] a. destruct (in_some_segment s phs a) as [(ph & Hph & Hl & Ha)|Hno]; [|by rewrite Hout].
  by rewrite (Hin ph Hph Hl a Ha), (Hr ph Hph Hl a Ha).
Qed.

Lemma map_loads_ok o nested f s l phs lc m :
  lookups f l phs -> (∀ ph, ph ∈ phs -> is_interp ph = false) ->
  (∀ ph, ph ∈ phs -> is_load ph = true -> placed f s ph ∧ reserved m s ph) ->
  all_apart (filter (λ ph, is_load ph = true) phs) = true ->
  ∃ t m', map_segments o nested f (program_headers f) (e_phentsize (decode_ehdr f)) (u64 s) l lc m = Some t ∧
    (∀ a, (∀ ph, ph ∈ phs -> is_load ph = true -> in_segment s ph a = false) -> m' a = m a) ∧
    (refused o ∧ t = Out lc m' ∨ t = Next lc m' ∧ segments_in f s phs m m').
Proof.
  intros Hl. revert m. induction Hl as [|i ph l phs Hi Hl IH]; intros m Hni Hok Hap.
  { exists (Next lc m), m. split_and!; [done|done|right]. split; [done|]. split; [by intros ? ?%not_elem_of_nil|done]. }
  cbn [map_segments]. rewrite Hi. cbn [mbind option_bind]. rewrite filter_cons in Hap. destruct (is_load ph) eqn:Hld.
  - rewrite decide_True in Hap by done. simpl in Hap. apply andb_true_iff in Hap as [Hph Hap]. rewrite forallb_forall in Hph.
    unfold is_load in Hld. rewrite Hld. destruct (Hok ph ltac:(left) Hld) as [Hp Hr].
    destruct (map_segment_ok o f s ph lc m Hp Hr) as (t & -> & [(Hno & m' & -> & Hs)|(m' & -> & Hm')]); cbn [mbind option_bind].
    { exists (Out lc m'), m'. split_and!; [done| |by left]. intros a Ha. apply Hs, Ha; [left|done]. }
    assert (∀ q, q ∈ phs -> is_load q = true -> apart ph q = true) as Haq.
    { intros q Hq Hlq. apply Hph, list_elem_of_In, list_elem_of_filter. done. }
    destruct (IH m') as (t & m'' & -> & Hout & Hres); [intros q Hq; apply Hni; by right| |done|].
    { intros q Hq Hlq. destruct (Hok q ltac:(by right) Hlq) as [Hpq Hrq]. split; [done|]. intros a Ha. rewrite Hm'.
      destruct (in_segment s ph a) eqn:Ei; [|by apply Hrq]. pose proof (apart_outside s ph q a (Haq q Hq Hlq) Ei). congruence. }
    assert (∀ a, (∀ q, q ∈ ph :: phs -> is_load q = true -> in_segment s q a = false) -> m'' a = m a) as Hall.
    { intros a Ha. rewrite Hout, Hm', (Ha ph ltac:(left) Hld); [done|]. intros q Hq. apply Ha. by right. }
    exists t, m''. split_and!; [done|done|]. destruct Hres as [[? ->]|[-> [Hin _]]]; [by left|right]. split; [done|]. split; [|done].
    intros q [->|Hq]%elem_of_cons Hlq a Ha; [|by apply Hin]. rewrite Hout, Hm', Ha; [done|].
    intros q Hq Hlq'. by apply (apart_outside s ph q); [apply Haq|].
  - rewrite decide_False in Hap by done. pose proof (Hni ph ltac:(left)) as Hip. unfold is_load in Hld. unfold is_interp in Hip. rewrite Hld, Hip.
    destruct (IH m) as (t & m'' & E & Hout & Hres); [intros q Hq; apply Hni; by right|intros q Hq; apply Hok; by right|done|].
    cbn [mbind option_bind]. rewrite E. exists t, m''. split_and!; [done|intros a Ha; apply Hout; intros q Hq; apply Ha; by right|].
    destruct Hres as [[? ->]|[-> [Hin Hs]]]; [by left|right]. split; [done|]. split.
    + intros q [->|Hq]%elem_of_cons Hlq a Ha; [unfold is_load in Hlq; congruence|by apply Hin].
    + intros a Ha. apply Hs. intros q Hq. apply Ha. by right.
Qed.

(** *** The whole file *)

(** How [load] ends after its second loop. *)
Definition load_result (f : list ascii) (isInterp : bool) (base : Z) (t : turn) : loader_context * mem :=
  let h := decode_ehdr f in
  let slide := u64 (base - load_base f) in
  match t with
  | Out lc m => (lc, m)
  | Next lc m =>
    (if isInterp then set_interp base (u64 (slide + e_entry h)) lc
     else set_exec (u64 (slide + e_entry h)) (u64 (slide + e_phoff h)) (e_phentsize h) (e_phnum h) lc, m)
  end.

Lemma load_with_eq o nested isInterp path f lc m :
  os_open o isInterp path = Some f -> elf_facts f -> (isInterp = true -> interps f = []) ->
  load_with o nested isInterp path lc m =
  match mmap_anon o m (image_size f) E_PROT_NONE with
  | None => Some (lc, m)
  | Some (base, m) => load_result f isInterp base <$>
      map_segments o nested f (program_headers f) (e_phentsize (decode_ehdr f)) (u64 (base - load_base f)) (header_indices f) lc m
  end.
Proof.
  intros Ho F Hni. pose proof (load_range_facts f F) as (Hr & He & _). destruct (ef_size f F) as [Hs1 Hs2].
  pose proof (program_headers_length f F) as Hl. pose proof (ef_inside f F). pose proof (ef_entsize f F). pose proof (ef_phnum f F).
  unfold sizeof_Phdr in *. unfold load_with. rewrite Ho, (ef_supported f F). fold (program_headers f). fold (header_indices f). rewrite Hl, Z.eqb_refl.
  destruct (Z.ltb_spec (Z.of_nat (length f)) sizeof_Ehdr); [lia|]. cbn [negb].
  destruct (Z.ltb_spec INT_MAX (e_phentsize (decode_ehdr f) * e_phnum (decode_ehdr f))) as [|_]; [pose proof (ef_table f F); lia|].
  destruct (Z.leb_spec (2 ^ 63) (e_phoff (decode_ehdr f))) as [|_]; [nia|]. cbn [orb negb].
  rewrite (find_range_ok f isInterp _ (headers f)); [|by apply headers_lookups| | |by right].
  - rewrite range_of_headers. cbn [mbind option_bind]. destruct (Z.eqb_spec (load_end f) 0) as [|_]; [lia|]. rewrite u64_id by lia. fold (image_size f).
    destruct (mmap_anon o m (image_size f) E_PROT_NONE) as [[base m1]|]; [|done].
    destruct (map_segments _ _ _ _ _ _ _ _ _) as [[lc' m'|lc' m']|]; done.
  - intros ph Hph Hld. split; [by apply (ef_segments f F), elem_of_loads|by apply headers_ranges in Hph as (_ & ? & _)].
  - intros Hi ph Hph. destruct (is_interp ph) eqn:E; [|done]. assert (ph ∈ interps f) as Hin by (by apply list_elem_of_filter).
    by rewrite (Hni Hi) in Hin; apply not_elem_of_nil in Hin.
Qed.

(** The range that mmap returns has room for every segment, and was not in use. *)
Lemma mmap_anon_ok o m len prot base m1 : mmap_fresh o -> 0 < len -> mmap_anon o m len prot = Some (base, m1) ->
  0 < base ∧ base mod 4096 = 0 ∧ base + page_up len <= 2 ^ 47 ∧ keeps m m1 ∧
  ∀ a, inside a base (base + page_up len) = true -> m a = None ∧ m1 a = Some (Cell (Some NUL) prot).
Proof.
  intros Hf Hl. unfold mmap_anon. destruct (Z.eqb_spec len 0); [lia|]. destruct (os_mmap o m len) as [b|] eqn:Hm; [|done].
  intros [= <- <-]. destruct (Hf m len b Hl Hm) as (H1 & H2 & H3 & H4). split_and!; try done.
  - intros a Ha. destruct (inside a b (b + page_up len)) eqn:E; [by apply H4 in E|done].
  - intros a Ha. rewrite Ha. split; [by apply H4|done].
Qed.

Lemma mmap_anon_none o m len prot : 0 < len -> mmap_anon o m len prot = None -> os_mmap o m len = None.
Proof. unfold mmap_anon. intros Hl. destruct (Z.eqb_spec len 0); [lia|]. by destruct (os_mmap o m len). Qed.

Lemma mmap_anon_adds o m len prot b m1 : mmap_anon o m len prot = Some (b, m1) -> os_mmap o m len = Some b ∧ adds m m1 [(b, len)].
Proof.
  unfold mmap_anon. destruct (len =? 0); [done|]. destruct (os_mmap o m len) as [b'|]; [|done]. intros [= -> <-]. split; [done|].
  intros a Ha. destruct (inside a b (b + page_up len)) eqn:E; [right|by left]. exists b, len. split; [left|done].
Qed.

Lemma image_size_pos f : elf_facts f -> 0 < image_size f.
Proof. intros F. pose proof (load_range_facts f F). unfold image_size. lia. Qed.

Lemma reservation_ok o f m base m1 :
  mmap_fresh o -> elf_facts f -> mmap_anon o m (image_size f) E_PROT_NONE = Some (base, m1) ->
  0 < base < 2 ^ 47 ∧ keeps m m1 ∧
  ∀ ph, ph ∈ loads f -> placed f (base - load_base f) ph ∧ reserved m1 (base - load_base f) ph ∧
    ∀ a, in_segment (base - load_base f) ph a = true -> m a = None ∧ inside a base (base + page_up (image_size f)) = true.
Proof.
  intros Hf F Hm. pose proof (load_range_facts f F) as (Hr & He & Hb). pose proof (image_size_pos f F) as Hpos.
  apply mmap_anon_ok in Hm as (H1 & H2 & H3 & H4 & H5); [|done|done].
  split; [pose proof (page_up_le (image_size f)); lia|]. split; [done|]. intros ph Hph. set (s := base - load_base f).
  pose proof (load_base_le f ph Hph) as Hlo. pose proof (load_end_ge f ph Hph) as Hhi.
  assert (s + seg_hi ph <= base + page_up (image_size f)) as Hin.
  { unfold s. pose proof (page_up_mono _ _ Hhi) as Hmono. fold (seg_hi ph) in Hmono.
    replace (load_end f) with (load_base f + image_size f) in Hmono by (unfold image_size; lia). rewrite page_up_add in Hmono by done. lia. }
  assert (∀ a, in_segment s ph a = true -> inside a base (base + page_up (image_size f)) = true) as Hsub.
  { intros a. unfold in_segment. rewrite !inside_true. lia. }
  split_and!.
  - constructor; [by apply (ef_segments f F)|apply (headers_ranges f); by apply elem_of_loads in Hph as []| |lia|lia].
    unfold s. rewrite Zminus_mod, H2, Hb. done.
  - intros a Ha. by apply H5, Hsub.
  - intros a Ha. split; [by apply H5, Hsub|by apply Hsub].
Qed.

(** The interpreter in memory, where nothing was before. *)
Definition interp_loaded (f : list ascii) (lc : loader_context) (m : mem) (lc' : loader_context) (m' : mem) (s : Z) : Prop :=
  0 < s + load_base f < 2 ^ 47 ∧ lc' = set_interp (s + load_base f) (u64 (s + e_entry (decode_ehdr f))) lc ∧
    ∀ ph a, ph ∈ loads f -> in_segment s ph a = true -> m a = None ∧ m' a = Some (segment_cell f s ph a) ∧ placed f s ph.

Lemma u64_add_l a b : u64 (u64 a + b) = u64 (a + b).
Proof. unfold u64. by rewrite Zplus_mod_idemp_l. Qed.

Lemma no_interps f : interps f = [] -> ∀ ph, ph ∈ headers f -> is_interp ph = false.
Proof.
  intros Hi ph Hph. destruct (is_interp ph) eqn:E; [|done]. assert (ph ∈ interps f) as Hin by (by apply list_elem_of_filter).
  rewrite Hi in Hin. by apply not_elem_of_nil in Hin.
Qed.

(** Memory that differs from the one after a reservation in segments only. *)
Lemma reserved_keeps f base (m m1 m' : mem) : let s := base - load_base f in
  keeps m m1 -> adds m m1 [(base, image_size f)] ->
  (∀ ph a, ph ∈ loads f -> in_segment s ph a = true -> m a = None ∧ inside a base (base + page_up (image_size f)) = true) ->
  (∀ a, (∀ ph, ph ∈ headers f -> is_load ph = true -> in_segment s ph a = false) -> m' a = m1 a) ->
  keeps m m' ∧ adds m m' [(base, image_size f)].
Proof.
  intros s Hk Hadd Hn Ho.
  assert (∀ a, (m' a = m1 a) ∨ m a = None ∧ inside a base (base + page_up (image_size f)) = true) as Hcase.
  { intros a. destruct (in_some_segment s (headers f) a) as [(ph & Hph & Hld & Ha)|Hno]; [right|left; by apply Ho].
    apply (Hn ph); [by apply elem_of_loads|done]. }
  split; intros a Ha; destruct (Hcase a) as [E|[E1 E2]].
  - rewrite E. by apply Hk.
  - done.
  - rewrite E in Ha. by apply Hadd.
  - right. exists base, (image_size f). split; [left|done].
Qed.

Lemma load_interpreter_ok o path f lc m :
  mmap_fresh o -> os_open o true path = Some f -> elf_facts f -> interps f = [] ->
  ∃ lc' m', load_interpreter o path lc m = Some (lc', m') ∧ keeps m m' ∧
    (refused o ∨ os_mmap o m (image_size f) = None ∨
     ∃ s, interp_loaded f lc m lc' m' s ∧ os_mmap o m (image_size f) = Some (s + load_base f) ∧ adds m m' [(s + load_base f, image_size f)]).
Proof.
  intros Hf Ho F Hni. unfold load_interpreter. rewrite (load_with_eq o _ true path f) by done.
  pose proof (image_size_pos f F) as Hpos.
  destruct (mmap_anon o m (image_size f) E_PROT_NONE) as [[base m1]|] eqn:Hm.
  2:{ exists lc, m. split_and!; [done|by intros ?|right; left]. by eapply mmap_anon_none. }
  destruct (reservation_ok o f m base m1 Hf F Hm) as (Hbase & Hk & Hres). apply mmap_anon_adds in Hm as [Hm Hadd].
  set (s := base - load_base f) in *.
  destruct (map_loads_ok o (λ _ _ _, None) f s (header_indices f) (headers f) lc m1) as (t & m' & -> & Hout & Ht);
    [by apply headers_lookups|by apply no_interps| |apply (ef_apart f F)|].
  { intros ph Hph Hld. destruct (Hres ph) as (? & ? & _); [by apply elem_of_loads|done]. }
  destruct (reserved_keeps f base m m1 m') as [Hkm Ham]; [done|done|intros ph a Hph; by apply Hres|done|].
  destruct Ht as [[Hno ->]|[-> [Hin _]]]; simpl.
  - exists lc, m'. split_and!; [done|done|by left].
  - eexists _, m'. split_and!; [done|done|right; right]. exists s. replace (s + load_base f) with base by (unfold s; lia).
    split_and!; [|done|done]. split; [unfold s; lia|]. split.
    + f_equal; [unfold s; lia|]. fold s. apply u64_add_l.
    + intros ph a Hph Ha. destruct (Hres ph Hph) as (Hp & _ & Hn). split_and!; [by apply Hn| |done].
      apply elem_of_loads in Hph as [Hph Hld]. by apply Hin.
Qed.

(** After the first loop has passed, an interpreter's second loop does not
    meet PT_INTERP: what it would do there does not matter. *)
Lemma map_segments_not_nested o n1 n2 f phdrs n s l mn mx r lc m :
  find_range true phdrs n l mn mx = Some (Some r) -> map_segments o n1 f phdrs n s l lc m = map_segments o n2 f phdrs n s l lc m.
Proof.
  revert mn mx lc m. induction l as [|i l IH]; intros mn mx lc m Hr; [done|]. simpl in *.
  destruct (phdr_at phdrs n i) as [ph|]; [|done]. cbn [mbind option_bind] in *. destruct (p_type ph =? PT_LOAD).
  - destruct (map_segment _ _ _ _ _ _) as [[]|]; [|done|done]. cbn [mbind option_bind]. by eapply IH.
  - rewrite andb_true_r in Hr. destruct (p_type ph =? PT_INTERP); [done|]. by eapply IH.
Qed.

Lemma interp_not_nested o n1 n2 path lc m : load_with o n1 true path lc m = load_with o n2 true path lc m.
Proof.
  unfold load_with. destruct (os_open o true path) as [f|]; [|done].
  destruct (_ <? sizeof_Ehdr); [done|]. destruct (negb (elf_supported _)); [done|]. destruct (INT_MAX <? _); [done|].
  destruct (_ || _); [done|]. destruct (find_range true _ _ _ _ _) as [[[mn mx]|]|] eqn:Hr; [|done|done]. cbn [mbind option_bind].
  destruct (mx =? 0); [done|]. destruct (mmap_anon _ _ _ _) as [[base m']|]; [|done]. by rewrite (map_segments_not_nested o n1 n2 _ _ _ _ _ _ _ _ _ _ Hr).
Qed.

(** *** A program with its interpreter *)

Lemma filter_singleton {A} (P : A -> bool) l x : filter (λ y, P y = true) l = [x] ->
  ∃ pre post, l = pre ++ x :: post ∧ P x = true ∧ (∀ y, y ∈ pre -> P y = false) ∧ (∀ y, y ∈ post -> P y = false).
Proof.
  induction l as [|y l IH]; [done|]. rewrite filter_cons. case_decide as Hy.
  - intros [= -> Hl]. exists [], l. split_and!; [done|done|by intros ? ?%not_elem_of_nil|].
    intros z Hz. destruct (P z) eqn:E; [|done]. assert (z ∈ filter (λ y, P y = true) l) as Hin by (by apply list_elem_of_filter).
    rewrite Hl in Hin. by apply not_elem_of_nil in Hin.
  - intros (pre & post & -> & Hx & Hpre & Hpost)%IH. exists (y :: pre), post. split_and!; try done.
    intros z [->|Hz]%elem_of_cons; [by destruct (P y)|by apply Hpre].
Qed.

Lemma all_apart_app l1 l2 : all_apart (l1 ++ l2) = true ->
  all_apart l1 = true ∧ all_apart l2 = true ∧ ∀ a b, a ∈ l1 -> b ∈ l2 -> apart a b = true.
Proof.
  induction l1 as [|x l1 IH]; simpl; [intros; split_and!; [done|done|by intros ? ? ?%not_elem_of_nil]|].
  rewrite !andb_true_iff, !forallb_forall. intros [Hx (H1 & H2 & H3)%IH]. split_and!; [|done|done|].
  - intros y Hy. apply Hx, in_or_app. by left.
  - intros a b [->|Ha]%elem_of_cons Hb; [apply Hx, in_or_app; right; by apply list_elem_of_In|by apply H3].
Qed.

Definition interp_name (f : list ascii) (ph : elf_phdr) : cstr := c_str (ztake (p_filesz ph) (zdrop (p_offset ph) f)).

(** The name of the interpreter is in the file. *)
Definition interp_in_file (f : list ascii) (ph : elf_phdr) : bool :=
  (p_filesz ph <=? INT_MAX) && (p_offset ph + p_filesz ph <=? Z.of_nat (length f)).

Lemma load_interp_eq o nested f ph lc m :
  elf_facts f -> ph ∈ headers f -> interp_in_file f ph = true -> os_access o (interp_name f ph) = true ->
  load_interp o nested f ph lc m = ('(lc, m) ← nested (interp_name f ph) lc m; Some (Next lc m)).
Proof.
  intros F (R1 & _ & R3 & _)%headers_ranges. unfold interp_in_file, u64_range in *. rewrite andb_true_iff, !Z.leb_le. intros [H1 H2] Ha.
  pose proof (ef_size f F). unfold load_interp. destruct (Z.eqb_spec (p_filesz ph) (2 ^ 64 - 1)) as [|_]; [unfold INT_MAX in *; lia|].
  destruct (Z.ltb_spec INT_MAX (p_filesz ph)) as [|_]; [lia|]. destruct (Z.leb_spec (2 ^ 63) (p_offset ph)) as [|_]; [lia|].
  replace (Z.of_nat (length (ztake (p_filesz ph) (zdrop (p_offset ph) f)))) with (p_filesz ph) by (unfold ztake, zdrop; rewrite length_take, length_drop; lia).
  rewrite Z.eqb_refl. cbn [orb negb]. fold (interp_name f ph). by rewrite Ha.
Qed.

(** What [load] leaves behind when no mapping fails. *)
Definition both_loaded (f fi : list ascii) (s si : Z) (lc : loader_context) (m : mem) : Prop :=
  s mod 4096 = 0 ∧ si mod 4096 = 0 ∧ 0 < si + load_base fi < 2 ^ 47 ∧ loaded m f s ∧ loaded m fi si ∧
    lc = LoaderContext (Some (u64 (si + e_entry (decode_ehdr fi)))) (Some (u64 (s + e_entry (decode_ehdr f))))
      (Some (u64 (s + e_phoff (decode_ehdr f)))) (Some (e_phentsize (decode_ehdr f))) (Some (e_phnum (decode_ehdr f)))
      (Some (si + load_base fi)).

(** A program file, its interpreter's header and the interpreter. *)
Record program_ok (o : os) (path : cstr) (f : list ascii) (phi : elf_phdr) (fi : list ascii) : Prop := ProgramOk {
  po_open : os_open o false path = Some f;
  po_ok : elf_ok f = true;
  po_interp : interps f = [phi];
  po_name : interp_in_file f phi = true;
  po_access : os_access o (interp_name f phi) = true;
  po_iopen : os_open o true (interp_name f phi) = Some fi;
  po_iok : elf_ok fi = true;
  po_nested : interps fi = [] }.

Section Program.
Context (o : os) (path : cstr) (f : list ascii) (phi : elf_phdr) (fi : list ascii).
Hypothesis fresh : mmap_fresh o.
Hypothesis program : program_ok o path f phi fi.

Local Lemma F : elf_facts f.
Proof. apply elf_ok_facts, program. Qed.

Local Lemma Fi : elf_facts fi.
Proof. apply elf_ok_facts, program. Qed.

(** The header of the interpreter among the others. *)
Lemma interp_header : ∃ pre post, headers f = pre ++ phi :: post ∧ is_interp phi = true ∧
  (∀ ph, ph ∈ pre -> is_interp ph = false) ∧ (∀ ph, ph ∈ post -> is_interp ph = false) ∧
  all_apart (filter (λ ph, is_load ph = true) pre) = true ∧ all_apart (filter (λ ph, is_load ph = true) post) = true ∧
  ∀ a b, a ∈ pre -> is_load a = true -> b ∈ post -> is_load b = true -> apart a b = true.
Proof.
  destruct (filter_singleton _ _ _ (po_interp _ _ _ _ _ program)) as (pre & post & Hh & Hip & Hpre & Hpost). exists pre, post.
  pose proof (ef_apart f F) as Hap. unfold loads in Hap. rewrite Hh, filter_app, filter_cons, decide_False in Hap.
  - apply all_apart_app in Hap as (H1 & H2 & H3). split_and!; try done. intros a b Ha Hla Hb Hlb. apply H3; by apply list_elem_of_filter.
  - unfold is_interp, is_load in *. apply Z.eqb_eq in Hip. by rewrite Hip.
Qed.

(** The second loop: the headers before the interpreter's, the interpreter,
    the headers after it. *)
Lemma map_program_ok s m1 :
  (∀ ph, ph ∈ loads f -> placed f s ph ∧ reserved m1 s ph) ->
  ∃ t m' m2, map_segments o (load_interpreter o) f (program_headers f) (e_phentsize (decode_ehdr f)) (u64 s) (header_indices f)
            fresh_context m1 = Some t ∧
    (∀ a, m2 a = None <-> m1 a = None) ∧
    (∀ a, m1 a ≠ None -> (∀ ph, ph ∈ headers f -> is_load ph = true -> in_segment s ph a = false) -> m' a = m1 a) ∧
    (((refused o ∨ os_mmap o m2 (image_size fi) = None) ∧ ∃ lc, t = Out lc m' ∨ t = Next lc m') ∨
     ∃ lc m3 si, t = Next lc m' ∧ interp_loaded fi fresh_context m2 lc m3 si ∧
       os_mmap o m2 (image_size fi) = Some (si + load_base fi) ∧ adds m2 m3 [(si + load_base fi, image_size fi)] ∧
       (∀ ph a, ph ∈ loads f -> in_segment s ph a = true -> m' a = Some (segment_cell f s ph a)) ∧
       (∀ a, m' a = m3 a ∨ m2 a ≠ None)).
Proof.
  intros Hres. destruct interp_header as (pre & post & Hh & Hip & Hpre & Hpost & Hap1 & Hap2 & Hcross).
  pose proof (headers_lookups f F) as Hl. rewrite Hh in Hl. apply Forall2_app_inv_r in Hl as (l1 & l2' & Hl1 & Hl2 & Hlist).
  apply Forall2_cons_inv_r in Hl2 as (i & l2 & Hi & Hl2 & ->). rewrite Hlist, map_segments_app.
  assert (∀ ph, ph ∈ pre ∨ ph = phi ∨ ph ∈ post -> ph ∈ headers f) as Hin' by (intros ph; by rewrite Hh, elem_of_app, elem_of_cons).
  assert (∀ ph, ph ∈ pre ∨ ph ∈ post -> is_load ph = true -> ph ∈ loads f) as Hsub.
  { intros ph Hph Hld. apply elem_of_loads. split; [apply Hin'; tauto|done]. }
  assert (is_load phi = false) as Hld by (unfold is_interp, is_load in *; apply Z.eqb_eq in Hip; by rewrite Hip).
  destruct (map_loads_ok o (load_interpreter o) f s l1 pre fresh_context m1) as (t & m2 & -> & Hout2 & Ht);
    [done|done|intros ph Hph Hp; by apply Hres, Hsub; auto|done|].
  cbn [mbind option_bind]. destruct Ht as [[Hno ->]|[-> Hseg2]].
  { exists (Out fresh_context m2), m2, m1. split_and!; [done|done| |left; eauto]. intros a _ Ha. apply Hout2. intros ph Hph. apply Ha, Hin'. auto. }
  pose proof (segments_in_dom f s pre m1 m2 (λ ph Hph Hl, proj2 (Hres ph (Hsub ph (or_introl Hph) Hl))) Hseg2) as Hdom. destruct Hseg2 as [Hin2 _].
  cbn [map_segments]. rewrite Hi. cbn [mbind option_bind]. unfold is_load, is_interp in Hld, Hip. rewrite Hld, Hip.
  rewrite load_interp_eq by (apply F || apply program || (apply Hin'; auto)).
  destruct (load_interpreter_ok o (interp_name f phi) fi fresh_context m2) as (lc & m3 & -> & Hk & Hld3); [done|apply program|apply Fi|apply program|].
  cbn [mbind option_bind].
  assert (∀ ph, ph ∈ post -> is_load ph = true -> reserved m2 s ph) as Hr2.
  { intros ph Hph Hp a Ha. rewrite Hout2; [apply (Hres ph); [apply Hsub; auto|done]|]. intros q Hq Hlq.
    destruct (in_segment s q a) eqn:E; [|done]. by rewrite (apart_outside s q ph a) in Ha; [|apply Hcross|]. }
  destruct (map_loads_ok o (load_interpreter o) f s l2 post lc m3) as (t & m4 & -> & Hout4 & Ht);
    [done|done| |done|].
  { intros ph Hph Hp. split; [by apply Hres, Hsub; auto|]. intros a Ha. rewrite Hk; [by apply (Hr2 ph Hph Hp)|]. by rewrite (Hr2 ph Hph Hp a Ha). }
  exists t, m4, m2. split_and!; [done|done| |].
  { intros a Hna Ha. assert (m2 a = m1 a) as E2 by (apply Hout2; intros ph Hph; apply Ha, Hin'; auto).
    rewrite Hout4 by (intros ph Hph; apply Ha, Hin'; auto). rewrite Hk; [done|by rewrite E2]. }
  destruct Ht as [[Hno ->]|[-> [Hin4 _]]]; [left; by eauto|]. destruct Hld3 as [Hno|[Hno|(si & Hld3 & Hmm & Hadd)]]; [left; by eauto..|].
  right. exists lc, m3, si. split_and!; [done..| |].
  - intros ph a [Hph Hp]%elem_of_loads Ha. rewrite Hh in Hph.
    apply elem_of_app in Hph as [Hph|[->|Hph]%elem_of_cons]; [|unfold is_load in Hp; congruence|by apply Hin4].
    pose proof (Hin2 ph Hph Hp a Ha) as E2. rewrite Hout4; [by rewrite Hk; [|rewrite E2]|].
    intros q Hq Hlq. eapply apart_outside; [|exact Ha]. by apply Hcross.
  - intros a. destruct (in_some_segment s post a) as [(ph & Hph & Hlp & Ha)|Hno]; [right|left; by apply Hout4].
    by rewrite (Hr2 ph Hph Hlp a Ha).
Qed.

(** Where memory ran out, or a file could not be mapped. *)
Definition load_failed (m : mem) : Prop :=
  refused o ∨ os_mmap o m (image_size f) = None ∨
  ∃ b m2, os_mmap o m (image_size f) = Some b ∧ adds m m2 [(b, image_size f)] ∧ os_mmap o m2 (image_size fi) = None.

(** The ranges of the two images, as mmap returned them. *)
Definition ranges_of (m : mem) (s si : Z) (l : list (Z * Z)) : Prop :=
  os_mmap o m (image_size f) = Some (s + load_base f) ∧
  (∃ m2, adds m m2 [(s + load_base f, image_size f)] ∧ os_mmap o m2 (image_size fi) = Some (si + load_base fi)) ∧
  l = [(s + load_base f, image_size f); (si + load_base fi, image_size fi)].

Lemma both_images s si lc m2 m3 m' :
  (∀ ph, ph ∈ loads f -> placed f s ph) -> interp_loaded fi fresh_context m2 lc m3 si ->
  (∀ ph a, ph ∈ loads f -> in_segment s ph a = true -> m' a = Some (segment_cell f s ph a)) ->
  (∀ a, m' a = m3 a ∨ m2 a ≠ None) -> si mod 4096 = 0 ∧ loaded m' f s ∧ loaded m' fi si.
Proof.
  intros Hp (_ & _ & Hsi) Hall Hrest.
  assert (∀ ph, ph ∈ loads fi -> placed fi si ph) as Hpi.
  { intros ph Hph. pose proof (segment_ok_facts _ _ (ef_segments fi Fi ph Hph)) as (? & _).
    apply (Hsi ph (si + seg_lo ph) Hph). unfold in_segment. apply inside_true. pose proof (page_up_le (p_vaddr ph + p_memsz ph)).
    unfold seg_hi, seg_lo. pose proof (mod_lt_page (p_vaddr ph)). lia. }
  split_and!.
  - pose proof (ef_loads fi Fi) as Hne. destruct (loads fi) as [|ph l]; [done|]. apply (pl_mod _ _ _ (Hpi ph ltac:(left))).
  - intros ph i Hph Hi. destruct (segment_cell_at f s ph (Hp ph Hph) i Hi) as [Hin <-]. by apply Hall.
  - intros ph i Hph Hi. destruct (segment_cell_at fi si ph (Hpi ph Hph) i Hi) as [Hin <-].
    destruct (Hsi ph _ Hph Hin) as (Hn & <- & _). by destruct (Hrest (si + p_vaddr ph + i)).
Qed.

Lemma program_loaded m :
  ∃ lc m', load o path fresh_context m = Some (lc, m') ∧ keeps m m' ∧
    (load_failed m ∨ ∃ s si l, both_loaded f fi s si lc m' ∧ ranges_of m s si l ∧ adds m m' l).
Proof.
  unfold load. rewrite (load_with_eq o _ false path f) by (apply program || apply F || done).
  pose proof (load_range_facts f F) as (Hr & _ & Hbm). pose proof (image_size_pos f F) as Hpos.
  destruct (mmap_anon o m (image_size f) E_PROT_NONE) as [[base m1]|] eqn:Hm.
  2:{ exists fresh_context, m. split_and!; [done|by intros ?|left; right; left]. by eapply mmap_anon_none. }
  pose proof (mmap_anon_ok o m (image_size f) E_PROT_NONE base m1 fresh Hpos Hm) as (_ & Hb & _).
  destruct (reservation_ok o f m base m1 fresh F Hm) as (_ & Hk & Hres). apply mmap_anon_adds in Hm as [Hm Hadd].
  set (s := base - load_base f) in *. replace base with (s + load_base f) in Hm, Hadd by (unfold s; lia).
  destruct (map_program_ok s m1) as (t & m' & m2 & -> & Hdom & Hout & Ht).
  { intros ph Hph. by destruct (Hres ph Hph) as (? & ? & _). }
  assert (keeps m m') as Hkm.
  { intros a Ha. rewrite Hout; [by apply Hk|by rewrite Hk|]. intros ph Hph Hld. destruct (in_segment s ph a) eqn:E; [|done].
    destruct Ha. apply (Hres ph); [by apply elem_of_loads|done]. }
  assert (adds m m2 [(s + load_base f, image_size f)]) as Ha2 by (intros a Ha; apply Hadd; by rewrite <- Hdom).
  destruct Ht as [(Hno & lc & Hlc)|(lc & m3 & si & -> & Hint & Hmm & Ha3 & Hall & Hrest)].
  { assert (∃ lc', load_result f false base t = (lc', m')) as [lc' E] by (destruct Hlc as [->| ->]; by eexists).
    cbn [fmap option_fmap option_map]. rewrite E. exists lc', m'. split_and!; [done|done|left]. unfold load_failed. destruct Hno; [tauto|]. right; right. by eauto. }
  cbn [fmap option_fmap option_map load_result]. eexists _, m'. split_and!; [done|done|right]. eexists s, si, _.
  split; [|split; [by split_and!; [|exists m2|]|]].
  - destruct (both_images s si lc m2 m3 m') as (? & ? & ?); [by intros ph Hph; apply Hres|done..|]. destruct Hint as (Hbi & -> & _).
    split_and!; try done; [unfold s; by rewrite Zminus_mod, Hb, Hbm|lia|lia|]. fold s. unfold set_exec. simpl. by rewrite !u64_add_l.
  - intros a Ha. destruct (Hrest a) as [E|Hn].
    + rewrite E in Ha. apply Ha3 in Ha as [Ha|(b & n & Hbn%list_elem_of_singleton & Hi)].
      * apply Ha2 in Ha as [|(b & n & Hbn%list_elem_of_singleton & Hi)]; [by left|right]. simplify_eq. eexists _, _. split; [left|done].
      * right. simplify_eq. eexists _, _. split; [right; left|done].
    + apply Ha2 in Hn as [|(b & n & Hbn%list_elem_of_singleton & Hi)]; [by left|right]. simplify_eq. eexists _, _. split; [left|done].
Qed.
End Program.

(** *** The initial stack *)

Lemma store_words_ok stk i ws :
  0 <= i -> i + Z.of_nat (length ws) <= STACK_WORDS -> Z.of_nat (length stk) = STACK_WORDS ->
  ∃ stk', store_words stk i ws = Some stk' ∧ ∃ rest, zdrop i stk' = ws ++ rest.
Proof.
  intros Hi Hb Hl.
  enough (∃ rest, store_words stk i ws = Some (take (Z.to_nat i) stk ++ ws ++ rest)) as [rest E].
  { eexists. split; [exact E|]. exists rest. unfold zdrop. rewrite drop_app_length'; [done|]. rewrite length_take. lia. }
  revert stk i Hi Hb Hl. induction ws as [|w ws IH]; intros stk i Hi Hb Hl.
  - exists (drop (Z.to_nat i) stk). simpl. by rewrite take_drop.
  - simpl length in Hb. cbn [store_words]. rewrite (proj2 (inside_true i 0 STACK_WORDS)) by lia.
    destruct (IH (<[Z.to_nat i := w]> stk) (i + 1)) as [rest ->]; [lia|lia|by rewrite length_insert|]. exists rest. f_equal.
    replace (Z.to_nat (i + 1)) with (S (Z.to_nat i)) by lia. rewrite (take_S_r _ _ w) by (apply list_lookup_insert_eq; lia).
    rewrite take_insert_ge by lia. by rewrite <- app_assoc.
Qed.

Lemma read_strings_ok l r : read_strings ((WStr <$> l) ++ WInt 0 :: r) = Some (l, r).
Proof. induction l as [|s l IH]; [done|]. rewrite fmap_cons. cbn [app read_strings]. by rewrite IH. Qed.

Lemma read_auxv_ok fuel l r : Forall (λ e, e.1 ≠ AT_NULL) l -> (length l < fuel)%nat ->
  read_auxv fuel (aux_words l ++ WInt AT_NULL :: WInt 0 :: r) = Some l.
Proof.
  revert fuel. induction l as [|[t w] l IH]; intros [|fuel] Hl Hf; simpl in *; try lia; [done|].
  apply Forall_cons in Hl as [Ht Hl]. simpl in Ht. rewrite (proj2 (Z.eqb_neq _ _) Ht). unfold aux_words in IH. by rewrite IH by (done || lia).
Qed.

(** Reading back the stack that [run] writes. *)
Lemma abi_start_ok argv env aux r : Forall (λ e, e.1 ≠ AT_NULL) aux ->
  abi_start ((WInt 3 :: (WStr <$> argv) ++ [WInt 0] ++ (WStr <$> env) ++ [WInt 0] ++ aux_words aux ++ [WInt AT_NULL; WInt 0]) ++ r) =
  Some (StartInfo 3 argv env aux).
Proof.
  intros Ha. unfold abi_start. cbn [app]. rewrite <- !app_assoc. cbn [app]. rewrite read_strings_ok. cbn [mbind option_bind].
  rewrite <- app_assoc. cbn [app]. rewrite read_strings_ok. cbn [mbind option_bind]. rewrite <- app_assoc. cbn [app].
  rewrite read_auxv_ok; [done|done|]. rewrite length_app. unfold aux_words.
  assert (length aux <= length (aux ≫= λ '(t, w), [WInt t; w]))%nat by (clear; induction aux as [|[t w] l IH]; csimpl in *; lia).
  simpl. lia.
Qed.

Lemma ptrcount_facts envp : let n := Z.of_nat (length envp) in
  26 + n <= ptrcount envp <= 27 + n ∧ (STACK_WORDS - 1 - ptrcount envp) mod 2 = 0.
Proof.
  intros n. unfold ptrcount, STACK_WORDS. fold n. change (4096 * 4 / 8) with 2048. set (k := 10 * 2 + 1 + 4 + n + 1).
  pose proof (Z.mod_pos_bound k 2 ltac:(lia)). pose proof (Z.div_mod k 2 ltac:(lia)).
  destruct (Z.eqb_spec (k mod 2) 0); (split; [lia|]).
  - replace (2048 - 1 - (k + 1)) with ((1023 - k / 2) * 2) by lia. apply Z.mod_mul. lia.
  - replace (2048 - 1 - k) with ((1023 - k / 2) * 2) by lia. apply Z.mod_mul. lia.
Qed.

(** *** Addresses as text *)

Lemma lower_digit_value d : 0 <= d < 16 -> lower_value (lower_digit d) = d.
Proof.
  intros Hd. unfold lower_value, lower_digit. rewrite byte_val_of. destruct (Z.ltb_spec d 10).
  - rewrite u8_id by lia. destruct (Z.ltb_spec (48 + d) 97); lia.
  - rewrite u8_id by lia. destruct (Z.ltb_spec (97 + (d - 10)) 97); lia.
Qed.

Lemma lx_digits_value fuel n acc : 0 <= n < 16 ^ Z.of_nat fuel -> (0 < fuel)%nat ->
  base_value lower_value 16 0 (lx_digits fuel n acc) = base_value lower_value 16 n acc.
Proof.
  revert n acc. induction fuel as [|fuel IH]; intros n acc Hn Hf; [lia|]. cbn [lx_digits].
  pose proof (Z.mod_pos_bound n 16 ltac:(lia)). pose proof (Z.div_mod n 16 ltac:(lia)) as Hdm.
  pose proof (lower_digit_value (n mod 16) ltac:(lia)) as Hv. rewrite Nat2Z.inj_succ, Z.pow_succ_r in Hn by lia.
  destruct (Z.eqb_spec (n / 16) 0) as [E|E].
  - unfold base_value. cbn [foldl]. rewrite Hv. f_equal. lia.
  - destruct fuel as [|fuel]; [simpl in Hn; lia|]. rewrite IH by lia. unfold base_value. cbn [foldl]. rewrite Hv. f_equal. lia.
Qed.

Lemma lx_digits_length fuel n acc : (length (lx_digits fuel n acc) <= fuel + length acc)%nat.
Proof.
  revert n acc. induction fuel as [|fuel IH]; intros n acc; cbn [lx_digits]; [done|].
  destruct (n / 16 =? 0); [simpl; lia|]. specialize (IH (n / 16) (lower_digit (n mod 16) :: acc)). simpl in *. lia.
Qed.

(** An address survives the way through an argument. *)
Lemma pointer_round_trip p : 0 <= p < 2 ^ 64 -> strtoul_16 (pointer_text p) = p.
Proof.
  intros Hp. unfold strtoul_16, pointer_text, format_lx. pose proof (lx_digits_length 16 p []) as Hl. cbn [length] in Hl.
  rewrite take_ge by lia. rewrite lx_digits_value; [done| |lia]. change (16 ^ Z.of_nat 16) with (2 ^ 64). lia.
Qed.

(** *** The environment *)

Lemma home_translated o dir rest :
  strlen dir + 11 <= os_usable o (strlen dir + 10) ->
  os_readlink o (dir ++ s2c "/LinuxHome") = Some (loader_SYSTEM_ROOT ++ rest) ->
  (length rest <= 492)%nat -> NUL ∉ rest ->
  processEnvVariable o (s2c "HOME=" ++ dir) = Some (s2c "HOME=" ++ rest).
Proof.
  intros Hu Hl Hlen Hn. unfold processEnvVariable.
  replace (strneq (s2c "HOME=" ++ dir) (s2c "HOME=") 5) with true by (symmetry; apply (strneq_prefix _ (s2c "HOME=")); by exists dir).
  change (drop 5 (s2c "HOME=" ++ dir)) with dir. rewrite Hl. rewrite strlen_app.
  destruct (Z.ltb_spec (os_usable o (strlen dir + 10)) (strlen dir + strlen (s2c "/LinuxHome") + 1)) as [Hlt|_];
    [change (strlen (s2c "/LinuxHome")) with 10 in Hlt; lia|].
  rewrite (take_ge (loader_SYSTEM_ROOT ++ rest)) by (rewrite length_app; change (length loader_SYSTEM_ROOT) with 19%nat; lia).
  replace (strneq (loader_SYSTEM_ROOT ++ rest) loader_SYSTEM_ROOT (length loader_SYSTEM_ROOT)) with true by (symmetry; apply strneq_prefix; by exists rest).
  f_equal. rewrite length_app. change (length loader_SYSTEM_ROOT) with 19%nat.
  replace (19 + length rest + 2 - (19 + 1))%nat with (S (length rest)) by lia.
  set (buf := write_at ((loader_SYSTEM_ROOT ++ rest) ++ [NUL]) 0 (s2c "HOME=" ++ [NUL])).
  assert (buf = s2c "HOME=" ++ [NUL] ++ s2c "es/SystemRoot" ++ rest ++ [NUL]) as -> by done.
  assert (drop 19 (s2c "HOME=" ++ [NUL] ++ s2c "es/SystemRoot" ++ rest ++ [NUL]) = rest ++ [NUL]) as -> by done.
  rewrite take_ge by (rewrite length_app; simpl; lia). unfold write_at. change (take 5 (s2c "HOME=" ++ _)) with (s2c "HOME=").
  rewrite <- app_assoc. cbn [app]. rewrite app_assoc. rewrite c_str_nul; [done|]. rewrite elem_of_app. intros [H|H]; [|done].
  vm_compute in H. repeat (apply elem_of_cons in H as [H|H]; [discriminate H|]). by apply not_elem_of_nil in H.
Qed.

(** ** Theorems *)

(** A mapping of [run] failed: of one of the two files, or of the stack. *)
Definition start_failed (o : os) (f fi : list ascii) (m : mem) : Prop :=
  load_failed o f fi m ∨ ∃ s si l m3, ranges_of o f fi m s si l ∧ adds m m3 l ∧ os_mmap o m3 (4096 * 4) = None.

(** C11: starting a program.  The program file can be opened, is a
    position-independent x86-64 ELF file with its header table inside, has one interpreter, which is
    accessible and needs none itself; the loadable segments of the two files
    lie in their files, none is empty in the file ([p_filesz] 0), and no two
    share a page; the entry point of the interpreter lies in its image; the
    environment has at most 2020 variables and can be translated; mmap gives
    memory that was free.  Then the program and its interpreter are mapped as
    their files ask for, nothing that was mapped changes, and the interpreter
    is entered on an aligned stack from which, by the rules of the ABI, it
    reads the arguments, the translated environment and the places of the two
    images; the program finds the addresses it was given in its arguments.
    The alternative, when the host refuses to map one of the files or the
    stack, is [start_failed]. *)
Theorem run_starts_interpreter o path f phi fi envp env elfcalls loader_return m :
  mmap_fresh o -> program_ok o path f phi fi ->
  load_base fi <= e_entry (decode_ehdr fi) < load_end fi ->
  mapM (processEnvVariable o) envp = Some env -> Z.of_nat (length envp) <= 2020 ->
  0 <= elfcalls < 2 ^ 64 -> 0 <= loader_return < 2 ^ 64 ->
  let h := decode_ehdr f in
  let argv := loader_argv elfcalls loader_return in
  start_failed o f fi m ∨
  ∃ s si rsp ws m', run o path envp elfcalls loader_return m = Some (Jump rsp ws (si + e_entry (decode_ehdr fi)) m') ∧
    loaded m' f s ∧ loaded m' fi si ∧ keeps m m' ∧ rsp mod 16 = 0 ∧
    abi_start ws = Some (StartInfo 3 argv env
      (auxv (u64 (s + e_phoff h)) (e_phentsize h) (e_phnum h) (u64 (s + e_entry h)) (si + load_base fi))) ∧
    elfcalls_main argv = Some (elfcalls, loader_return).
Proof.
  intros Hf Hp Hent Henv Hlen Hc Hr h argv. pose proof (load_range_facts fi (elf_ok_facts fi (po_iok _ _ _ _ _ Hp))) as (Hb & He & _).
  destruct (program_loaded o path f phi fi Hf Hp m) as (lc & m' & Hload & Hk & [Hno|(s & si & l & Hbl & Hrg & Hadd)]); [by left; left|].
  destruct Hbl as (Hs & Hsi & Hbase & Hlf & Hlfi & ->).
  assert (u64 (si + e_entry (decode_ehdr fi)) = si + e_entry (decode_ehdr fi)) as Eent by (apply u64_id; lia).
  destruct (mmap_anon o m' (4096 * 4) (Z.lor E_PROT_READ E_PROT_WRITE)) as [[stackmem m3]|] eqn:Hm.
  2:{ left. right. exists s, si, l, m'. split_and!; [done|done|]. by apply mmap_anon_none in Hm. }
  right. pose proof (mmap_anon_ok o m' (4096 * 4) _ stackmem m3 Hf ltac:(lia) Hm) as (_ & Hsm & _ & Hk3 & _).
  pose proof (ptrcount_facts envp) as (Hpc & Heven). set (st := STACK_WORDS - 1 - ptrcount envp) in *. change STACK_WORDS with 2048 in *.
  pose proof (length_mapM _ _ _ Henv) as Hle. set (aux := auxv (u64 (s + e_phoff h)) (e_phentsize h) (e_phnum h) (u64 (s + e_entry h)) (si + load_base fi)).
  destruct (store_words_ok (replicate (Z.to_nat 2048) (WInt 0)) st
    (WInt 3 :: (WStr <$> argv) ++ [WInt 0] ++ (WStr <$> env) ++ [WInt 0] ++ aux_words aux ++ [WInt AT_NULL; WInt 0])) as (ws & Hws & rest & Hdrop).
  - lia.
  - change STACK_WORDS with 2048. simpl. rewrite !length_app. simpl. rewrite length_fmap. lia.
  - by rewrite length_replicate.
  - exists s, si, (stackmem + 8 * st), (zdrop st ws), m3. split_and!.
    + unfold run. rewrite Hload. cbn [mbind option_bind interp_entry]. rewrite Eent. destruct (Z.eqb_spec (si + e_entry (decode_ehdr fi)) 0); [lia|].
      rewrite Hm. cbn [mbind option_bind]. rewrite Henv. cbn [mbind option_bind exec_phstart exec_phentsize exec_phnum exec_entry interp_base].
      change STACK_WORDS with 2048. fold st. fold argv h aux. by rewrite Hws.
    + intros ph i Hph Hi. rewrite Hk3; [by apply Hlf|]. by rewrite Hlf.
    + intros ph i Hph Hi. rewrite Hk3; [by apply Hlfi|]. by rewrite Hlfi.
    + intros a Ha. rewrite Hk3; [by apply Hk|by rewrite Hk].
    + apply Z.div_exact in Hsm; [|lia]. apply Z.div_exact in Heven; [|lia]. rewrite Hsm, Heven.
      replace (4096 * (stackmem / 4096) + 8 * (2 * (st / 2))) with ((256 * (stackmem / 4096) + st / 2) * 16) by lia. apply Z.mod_mul. lia.
    + rewrite Hdrop. apply abi_start_ok. by repeat constructor.
    + unfold elfcalls_main. cbn [argv loader_argv lookup list_lookup mbind option_bind]. by rewrite !pointer_round_trip.
Qed.

(** *** A program and an interpreter *)

Module Example.

Fixpoint le (n : nat) (z : Z) : list ascii := match n with 0%nat => [] | S n => byte_of z :: le n (z / 256) end.

Definition ehdr (entry phnum : Z) : list ascii :=
  ["127"%char; "E"%char; "L"%char; "F"%char; byte_of 2; byte_of 1; byte_of 1] ++ le 9 0 ++ le 2 ET_DYN ++ le 2 62 ++ le 4 1 ++
  le 8 entry ++ le 8 64 ++ le 8 0 ++ le 4 0 ++ le 2 64 ++ le 2 56 ++ le 2 phnum ++ le 6 0.

Definition phdr (type flags offset vaddr filesz memsz : Z) : list ascii :=
  le 4 type ++ le 4 flags ++ le 8 offset ++ le 8 vaddr ++ le 8 vaddr ++ le 8 filesz ++ le 8 memsz ++ le 8 4096.

(** Code, and a page of zeroes behind the file's last byte. *)
Definition dummy : list ascii :=
  ehdr 0x40 2 ++ phdr PT_INTERP PF_R 176 176 4 4 ++ phdr PT_LOAD (PF_R + PF_X) 0 0 180 5000 ++ s2c "/ld" ++ [NUL].

Definition ld : list ascii := ehdr 0x2050 1 ++ phdr PT_LOAD (PF_R + PF_W) 0 0x2000 120 120.

Definition slots : list Z := [0x100000; 0x200000; 0x300000].

Definition free (m : mem) (len base : Z) : bool :=
  (len <=? 0x10000) && forallb (λ k, negb (mapped m (base + Z.of_nat k))) (seq 0 (Z.to_nat (page_up len))).

Definition host : os :=
  Os (λ b p, if b then (if streq p (s2c "/ld") then Some ld else None) else (if streq p (s2c "/dummy") then Some dummy else None))
     (λ p, streq p (s2c "/ld")) (λ m len, find (free m len) slots) (λ _ _ _, false) (λ n, (n + 15) / 16 * 16)
     (λ p, if streq p (s2c "/Users/me/LinuxHome") then Some (s2c "/Volumes/SystemRoot/home/me") else None).

Definition empty : mem := λ _, None.

Lemma free_spec m len base : free m len base = true -> len <= 0x10000 ∧ ∀ a, inside a base (base + page_up len) = true -> m a = None.
Proof.
  unfold free. rewrite andb_true_iff, Z.leb_le, forallb_forall. intros [Hl H]. split; [done|]. intros a Ha%inside_true.
  specialize (H (Z.to_nat (a - base)) ltac:(apply in_seq; lia)). rewrite Z2Nat.id in H by lia. replace (base + (a - base)) with a in H by lia.
  unfold mapped in H. by destruct (m a).
Qed.

Lemma host_fresh : mmap_fresh host.
Proof.
  intros m len base Hl Hm. change (find (free m len) slots = Some base) in Hm. apply (find_some (free m len) slots) in Hm as [Hin Hfree]. apply free_spec in Hfree as [Hb Hfree].
  pose proof (page_up_le len). simpl in Hin. destruct Hin as [<-|[<-|[<-|[]]]]; (split; [lia|]; split; [done|]; split; [lia|done]).
Qed.

(** A slot that no range touches is free. *)
Lemma slot_free m l len base : adds empty m l -> 0 < len <= 0x10000 -> base ∈ slots ->
  (∀ b n, (b, n) ∈ l -> b ∈ slots ∧ b ≠ base ∧ n <= 0x10000) -> os_mmap host m len ≠ None.
Proof.
  intros Ha Hl Hb Hr Hn. change (find (free m len) slots = None) in Hn. assert (free m len base = false) as Hf.
  { apply (find_none _ _ Hn). by apply list_elem_of_In. }
  unfold free in Hf. destruct (Z.leb_spec len 0x10000); [|lia]. simpl in Hf.
  assert (forallb (λ k, negb (mapped m (base + Z.of_nat k))) (seq 0 (Z.to_nat (page_up len))) = true); [|congruence].
  apply forallb_forall. intros k Hk%in_seq. unfold mapped. destruct (m (base + Z.of_nat k)) eqn:E; [|done].
  destruct (Ha (base + Z.of_nat k)) as [|(b & n & Hbn & Hi%inside_true)]; [by rewrite E|done|].
  destruct (Hr b n Hbn) as (Hbs & Hne & Hn'). pose proof (page_up_le n). pose proof (page_up_le len).
  unfold slots in *. rewrite !elem_of_cons in Hb, Hbs. destruct Hb as [->|[->|[->|[]%not_elem_of_nil]]], Hbs as [->|[->|[->|[]%not_elem_of_nil]]]; lia.
Qed.

Lemma host_slot m len b : os_mmap host m len = Some b -> b ∈ slots.
Proof. intros [H _]%find_some. by apply list_elem_of_In. Qed.

Definition interp_hdr : elf_phdr := ElfPhdr PT_INTERP PF_R 176 176 4 4.

Lemma program : program_ok host (s2c "/dummy") dummy interp_hdr ld.
Proof. by constructor; vm_compute. Qed.

Lemma sizes : image_size dummy = 5000 ∧ load_base dummy = 0 ∧ image_size ld = 120.
Proof. by vm_compute. Qed.

(** With three slots, no mapping of the example fails. *)
Lemma not_failed : ¬ start_failed host dummy ld empty.
Proof.
  destruct sizes as (S1 & S2 & S3). intros [[(a & len & off & H)|[H|(b & m2 & Hb & Ha & H)]]|(s & si & l & m3 & (H1 & (m2 & Ha2 & H2) & ->) & Ha & H)].
  - done.
  - rewrite S1 in H. by vm_compute in H.
  - rewrite S1, S3 in *. assert (b = 0x100000) as -> by (by vm_compute in Hb; simplify_eq).
    revert H. apply (slot_free m2 [(0x100000, 5000)] 120 0x200000); [done|lia|by vm_compute; right; left|].
    intros b n [= -> ->]%list_elem_of_singleton. split; [by left|lia].
  - rewrite S1, S3 in *. assert (s + load_base dummy = 0x100000) as E1 by (by vm_compute in H1; simplify_eq). rewrite E1 in *.
    pose proof (host_slot _ _ _ H2) as Hs2. set (bi := si + load_base ld) in *.
    destruct (decide (bi = 0x200000)) as [->|Hne].
    + revert H. apply (slot_free m3 _ _ 0x300000 Ha); [lia|by right; right; left|].
      intros b n. rewrite !elem_of_cons. intros [[= -> ->]|[[= -> ->]|[]%not_elem_of_nil]]; (split; [|lia]); [by left|by right; left].
    + revert H. apply (slot_free m3 _ _ 0x200000 Ha); [lia|by right; left|].
      intros b n. rewrite !elem_of_cons. intros [[= -> ->]|[[= -> ->]|[]%not_elem_of_nil]]; (split; [|lia]); [by left|done].
Qed.

End Example.

Lemma run_starts_interpreter_witness :
  ∃ rsp ws entry m', run Example.host (s2c "/dummy") [s2c "HOME=/Users/me"; s2c "A=b"] 0x7fff1000 0x401000 Example.empty = Some (Jump rsp ws entry m') ∧
    rsp mod 16 = 0 ∧ (si_envp <$> abi_start ws) = Some [s2c "HOME=/home/me"; s2c "A=b"] ∧
    (si_argv <$> abi_start ws) = Some [s2c "elfloader_dummy"; s2c "7fff1000"; s2c "401000"].
Proof.
  destruct (run_starts_interpreter Example.host (s2c "/dummy") Example.dummy Example.interp_hdr Example.ld
    [s2c "HOME=/Users/me"; s2c "A=b"] [s2c "HOME=/home/me"; s2c "A=b"] 0x7fff1000 0x401000 Example.empty) as [Hno|Hok].
  - exact Example.host_fresh.
  - exact Example.program.
  - by vm_compute.
  - by vm_compute.
  - simpl. lia.
  - lia.
  - lia.
  - by destruct Example.not_failed.
  - destruct Hok as (s & si & rsp & ws & m' & Hrun & _ & _ & _ & Hrsp & Habi & _). exists rsp, ws, (si + e_entry (decode_ehdr Example.ld)), m'.
    split; [exact Hrun|]. split; [exact Hrsp|]. rewrite Habi. split; reflexivity.
Defined.

(** *** What goes wrong *)

(** A segment without bytes in the file, at the start of a page, cannot be
    mapped: the length of the mapping is zero. *)
Lemma empty_segment_fails o f slide ph lc m :
  p_filesz ph = 0 -> p_vaddr ph mod 4096 = 0 -> ∃ m', map_segment o f slide ph lc m = Some (Out lc m').
Proof. intros Hf Hv. unfold map_segment. rewrite Hf, pageoffset_eq, Hv. eexists. done. Qed.

(** When the program cannot be opened, [run] tests a member nobody assigned. *)
Lemma missing_program_undefined o path envp elfcalls loader_return m :
  os_open o false path = None -> run o path envp elfcalls loader_return m = None.
Proof. intros Ho. unfold run, load, load_with. by rewrite Ho. Qed.

(** The name of the link is one byte too long for its block when malloc does
    not round up. *)
Lemma home_overflow o dir : os_usable o (strlen dir + 10) = strlen dir + 10 -> processEnvVariable o (s2c "HOME=" ++ dir) = None.
Proof.
  intros Hu. unfold processEnvVariable.
  replace (strneq (s2c "HOME=" ++ dir) (s2c "HOME=") 5) with true by (symmetry; apply (strneq_prefix _ (s2c "HOME=")); by exists dir).
  change (drop 5 (s2c "HOME=" ++ dir)) with dir. rewrite Hu, strlen_app. change (strlen (s2c "/LinuxHome")) with 10.
  by destruct (Z.ltb_spec (strlen dir + 10) (strlen dir + 10 + 1)); [|lia].
Qed.

(** More variables than the four pages have room for are stored below them. *)
Lemma environment_overflow o path envp elfcalls loader_return m rsp ws entry m' :
  run o path envp elfcalls loader_return m = Some (Jump rsp ws entry m') -> Z.of_nat (length envp) <= 2021.
Proof.
  unfold run. intros H. destruct (load o path fresh_context m) as [[lc m1]|]; [|done]. cbn [mbind option_bind] in H.
  destruct (interp_entry lc) as [e|]; [|done]. cbn [mbind option_bind] in H. destruct (e =? 0); [done|].
  destruct (mmap_anon _ _ _ _) as [[b m2]|]; [|done]. cbn [mbind option_bind] in H. destruct (mapM _ _) as [env|]; [|done]. cbn [mbind option_bind] in H.
  destruct (exec_phstart lc); [|done]. destruct (exec_phentsize lc); [|done]. destruct (exec_phnum lc); [|done]. cbn [mbind option_bind] in H.
  destruct (exec_entry lc); [|done]. destruct (interp_base lc); [|done]. cbn [mbind option_bind store_words] in H.
  destruct (inside (STACK_WORDS - 1 - ptrcount envp) 0 STACK_WORDS) eqn:E; [|done]. apply inside_true in E.
  pose proof (ptrcount_facts envp) as [? _]. change STACK_WORDS with 2048 in E. lia.
Qed.

(** The program headers are where AT_PHDR says, when a segment whose address
    is its place in the file covers them. *)
Lemma headers_in_memory m f s ph i :
  loaded m f s -> ph ∈ loads f -> p_vaddr ph = p_offset ph -> 0 <= p_filesz ph <= p_memsz ph ->
  p_offset ph <= e_phoff (decode_ehdr f) + i < p_offset ph + p_filesz ph ->
  m (s + e_phoff (decode_ehdr f) + i) =
    Some (Cell (f !! Z.to_nat (e_phoff (decode_ehdr f) + i)) (segment_prot (p_flags ph))).
Proof.
  intros Hl Hph Hv Hfs Hi. specialize (Hl ph (e_phoff (decode_ehdr f) + i - p_offset ph) Hph ltac:(lia)).
  replace (s + p_vaddr ph + (e_phoff (decode_ehdr f) + i - p_offset ph)) with (s + e_phoff (decode_ehdr f) + i) in Hl by lia.
  rewrite Hl. unfold segment_byte. destruct (Z.ltb_spec (e_phoff (decode_ehdr f) + i - p_offset ph) (p_filesz ph)); [|lia]. do 4 f_equal. lia.
Qed.
